(* ===== verification/_CoqProject ===== *)
-Q . S2P
Prelude.v
LinkedList.v
Timers.v
Kernel.v
Endpoint.v
Sched.v
IpcInv.v
Notify.v
Async.v
Ipc.v
IpcRecv.v
AsyncInv.v
AsyncSend.v
Receive.v
SyncIpc.v
HMem.v
WorkingSet.v
HShared.v
Pram.v
PramInv.v
PramRun.v
Dwc.v
Hardening.v
DwcInv.v
DwcRun.v
DwcThm.v
DwcProps.v
VirtCopy.v
VmReq.v
Grants.v
System.v
SystemInv.v
Irq.v
IrqInv.v
IrqCtl.v
IrqHandle.v
Signals.v
Fork.v
PickPe.v
Clock.v
ClockThm.v
KPriv.v
KPrivThm.v
KUpdate.v
KDevio.v
KSdevio.v
KContext.v
KContextThm.v
KUmap.v
PgUtils.v
HKcalls.v
WsList.v
VmServer.v
VmAlloc.v
VmAllocThm.v
VmPram.v
VmPramThm.v
SchedSrv.v
SchedSrvThm.v
