(* ===== verification/Prelude.v ===== *)
(** * Verification of the hardened MINIX 3.2.1 kernel

    ** The program

    The repository is MINIX 3.2.1, a microkernel operating system, with a kernel that was
    changed to tolerate transient processor faults: a piece of a user process between two
    entries into the kernel (a processing element) is run twice on copies of its memory, the
    two results are compared, and only if they agree is the result committed.  The development
    covers the kernel, src/kernel, and two of the servers that work hand in hand with it:
    the part of VM (src/servers/vm) that provides the frames of the copies, and SCHED
    (src/servers/sched).  The code is C, for the single-processor i386 configuration.

    - Message passing (kernel/proc.c) connects all processes: synchronous sends and receives
      with queues of blocked senders, notifications kept as bits, asynchronous messages kept in
      tables of the senders.
    - Scheduling (kernel/proc.c, proc.h): run queues per priority, kept in step with the
      run-time flags of processes by the macros RTS_SET and RTS_UNSET.
    - Kernel calls (kernel/system.c, kernel/system/) act for servers and drivers: signals,
      memory grants, copying, interrupts, requests to the virtual memory server.
    - The clock task keeps watchdog timers (lib/libtimers, kernel/clock.c).
    - Hardening (kernel/arch/i386): pram.c keeps for every page of a hardened process the
      committed frame [us0] and the copies [us1] and [us2] of the two runs; dwc.c switches from
      run to run, compares and commits; heh.c and exception.c decide what an exception of a
      processing element means.
    - VM allocates page frames from a bit map (alloc.c) and keeps a list of the pages of a
      hardened process with the frames of their copies (vmpram.c, vmcow.c); it tells the kernel
      about every page with the kernel calls do_addregionto_ws, do_hmem_map and do_free_pmbs.
    - SCHED decides on the priorities of user processes: the kernel tells it when a quantum is
      used up, it answers with do_schedule.

    ** How it is modelled

    The state is one record, [Kernel.kstate]: the process and privilege tables, run queues,
    user memory as the kernel sees it, physical memory, the hardening globals and tables, the
    interrupt lines.  The clock adds its timers
    ([Clock.cstate]), device I/O the history of port accesses ([KDevio.dstate]), calls that copy
    structures the user memory they are in ([KContext.gstate]).  A server has a state of its own that contains the kernel
    ([VmServer.vmstate], [SchedSrv.sstate]); its kernel calls run the kernel's handlers on
    it, so that theorems speak of both sides.  C functions become functions of the same name in the state-and-panic
    monad [M] below: panic() and assert() stop the machine, [wp] is total correctness.  Pointers into tables are
    indices, intrusive lists are link fields that are edited through pointers to pointers
    (LinkedList), and machine words are integers with their wrap-around written out.

    - Prelude: the monad, [wp], record update, flag words, shared lemmas and tactics.
    - LinkedList: intrusive lists.
    - Timers: tmrs_settimer, tmrs_clrtimer, tmrs_exptimers, set_timer, reset_timer.
    - Kernel: the data of proc.h, priv.h, ipc.h, glo.h, htype.h, type.h.
    - Endpoint: endpoint.h and isokendpt_f.
    - Sched: enqueue, dequeue, RTS_SET, RTS_UNSET, sched_proc, pick_proc, runqueues_ok_cpu.
    - IpcInv, Notify, Async, Ipc: the invariant of message passing; mini_notify, send_sig and
      cause_sig; mini_senda, try_async, try_one, cancel_async; mini_send, mini_receive,
      deadlock, do_sync_ipc, do_ipc.  IpcRecv, AsyncInv, AsyncSend, Receive, SyncIpc prove what
      they guarantee.
    - HMem, WorkingSet, HShared, Pram: frames and page tables, the working set (pram.c, us0h.c),
      memory events and shared regions (sch.c, smh.c, hm.c), copy on write (pram.c); PramInv and
      PramRun prove what the copy-on-write code does to memory.
    - Dwc, Hardening: dwc.c, irh.c, ssh.c, hcow.c; heh.c, exception.c, hpick_proc,
      do_hardening.  DwcInv, DwcRun, DwcThm, DwcProps prove the properties of the two runs.
    - VirtCopy, VmReq, Grants: memory.c, do_vmctl.c, do_safecopy.c and their relatives.
    - System, SystemInv: system.c, kernel calls and process exit.
    - Irq, IrqInv, IrqCtl, IrqHandle: interrupt.c, i8259.c, do_irqctl.c.
    - Clock, ClockThm: clock.c, do_setalarm, do_vtimer, do_times, do_stime.
    - KPriv, KPrivThm: do_privctl and do_clear.  KUpdate: do_update.
    - KDevio, KSdevio: do_devio and do_vdevio; do_sdevio, do_readbios, do_iopenable.
    - KContext, KContextThm: the registers of processes: do_exec, do_sigsend, do_sigreturn, do_trace.
    - KUmap: do_copy, do_memset, do_umap, do_umap_remote, do_vumap, do_statectl.
    - PgUtils: pg_utils.c, the list of free memory and the page tables at boot.
    - Fork: do_fork.  PickPe: what pick_proc chooses while a processing element is run.
    - Signals: do_kill, do_getksig, do_endksig, do_runctl, do_exit, do_schedctl, do_schedule.
    - HKcalls, WsList: the kernel calls that VM uses for hardening, and the working set as a list.
    - VmServer, VmAlloc, VmAllocThm: VM's data; alloc.c with the yielded blocks of region.c.
    - VmPram, VmPramThm: vmpram.c, vmcow.c, hcow.c, and where exit.c, fork.c, pb.c and
      pagetable.c use them.
    - SchedSrv, SchedSrvThm: schedule.c, utility.c, main.c of SCHED.

    ** What the theorems show

    - Hardening: the first run hands over to the second, which starts from the same context
      with its own copies ([hardening_task_first_run]); runs that agree are committed
      ([hardening_task_commits]), runs that differ leave no trace and are repeated
      ([hardening_task_contains_fault]); a run cannot reach a committed frame
      ([run_cannot_touch_committed], [set_pe_mem_to_ro_isolates], [check_vaddr_2_maps_copy]);
      the comparison is exact on the pages it looks at ([cmp_mem_exact]) and misses pages that
      only the second run wrote ([second_run_page_not_compared]).
    - Message passing: the invariant is kept, the order of receiving, blocking, rendezvous, the
      exactness of the deadlock check, no lost notification, signal or asynchronous message,
      the gate in front of the primitives.
    - Scheduling: the macros refine the abstract run queues, the highest priority is picked,
      the consistency check of debug.c accepts every consistent state.
    - Clock: do_setalarm refines a sorted list of alarms ([do_setalarm_refines]), an alarm that is
      due reaches its process ([ring_alarms_reach_processes]); endpoints are accepted exactly for
      the process they name.
    - Privileges: no two system processes share a privilege structure, whatever is asked of
      do_privctl ([do_privctl_keeps_owners]).
    - Live update: exchanging two processes keeps the system consistent ([do_update_keeps_system]) and
      doing it again undoes it ([do_update_undone]).
    - Drivers: whatever a driver asks, ports outside its ranges are not touched
      ([devio_stays_in_ranges], which excludes the vectors of long values,
      [voutl_reaches_other_port]), string I/O uses only memory of the driver or granted to it
      ([do_sdevio_confined]), and the physical addresses it learns are, byte by byte, those of
      such memory ([do_vumap_translates], [do_umap_within]; but see [umap_not_contiguous]).
    - Boot: the list of free ranges is a set of free addresses ([boot_memory_refines]), and the
      first processes get pages of their own ([pg_map_gives_own_pages]); but [alloc_lowest]
      gives memory away twice ([alloc_lowest_twice]).
    - Registers: no signal handler, tracer or sigreturn changes segment selectors or system
      flags ([registers_stay_confined]), and a process goes on after a signal handler as if
      nothing had happened ([sigreturn_undoes_sigsend]).
    - Memory: address translation and 4 MB windows are exact and complete, a grant is accepted
      exactly if a chain of grants permits the access, suspended calls are all served.
    - Exit: no process waits for a process that is gone ([clear_endpoint_releases]), except
      that a link stays behind ([exit_leaves_stale_link]).
    - Interrupts: the lines stay consistent under every request, an interrupt reaches every
      driver of its line.  Signals: a manager collects all of them, once.
    - Fork: a child with a new endpoint that waits like its parent ([do_fork_child]), unless
      senders are queued on the parent ([do_fork_shares_senders]).
    - While a processing element is run only it and VM are chosen ([pick_proc_only_pe]).
    - VM: the search for free pages is first fit ([findbit_is_first_fit]); in every history of
      allocating, freeing and yielding no page is handed out twice ([alloc_mem_never_twice]);
      VM's list of the pages of a hardened process and the kernel's stay paired, with frames
      that nobody else has ([tell_kernel_keeps_pairing]); exit gives exactly these frames back
      ([clear_proc_releases]), but a block with a frame for one run only frees a page that
      was never handed out ([half_block_frees_phantom_page]).
    - SCHED: its table stays typed and agrees with the kernel's priorities after every message
      ([sched_main_keeps_tables]), priorities lost to used-up quanta come back
      ([balance_restores_priorities]); a failed start leaves its slot taken
      ([failed_start_occupies_slot]).

    Components talk through interfaces where one is a client of another: [CopyEngine]
    (VirtCopy) states what a window copy needs of phys_copy, [IrqHandlers] (IrqHandle) what
    irq_handle needs of a handler, [SysMem] with its laws [SysMemOk] (VmServer) what VM needs of
    the kernel calls sys_memset and sys_abscopy, with [flat_mem] as an instance.

    ** Bounds

    Loops over lists take fuel and panic when it runs out; the theorems state that they do not
    panic, so the fuel suffices.  [BLOCKED_FUEL] (262) and [CHECK_FUEL] (264) exceed the number
    of slots of the process table, [HLIST_FUEL] is the size of the working set table,
    [WINDOW_FUEL] (2050) the number of 4 MB windows that a copy of 2^32 bytes crosses on both
    sides, [CANCEL_FUEL] (64) and [BIT_FUEL] (32) the bits of a map and of a word, [LINE_FUEL]
    (34) the 32 identifiers of an interrupt line, [TIMER_FUEL] (66) the alarms, one for each
    privilege structure, [MMAP_FUEL] (41) the 40 slots of the list of free memory; the scans of VM's bit map take the number of
    pages as fuel, the retry of do_start_scheduling one round, since there is one CPU; the depth of grant chains (5) is the source's.

    ** Not modelled

    Console output, statistics and the debugging options; SMP, APIC, FPU, the rest of the boot code and assembly
    (phys_copy and the mode switch are parameters or state changes stated where they are used);
    exceptions inside the kernel, which are told apart by code addresses; the contents of user
    programs, which act as any sequence of stores to pages they may write.  Of the kernel
    calls, do_getinfo copies kernel tables byte for byte, which the model does not lay out,
    do_mcontext moves the FPU context, and do_abort, do_sysctl and the profiling calls shut down,
    print or sample.  Of VM, page
    tables, regions and memory types are left to parameters of the calls that use them; the
    other servers, drivers, libraries and commands are separate programs.

    ** This file: what every component shares

    - [outcome] and [M]: the state-and-panic monad in which kernel code that can
      [panic()] or fail an [assert()] is written, with stdpp's [x ← m; k] notation;
    - [wp]: the total-correctness weakest precondition of such code (a computation
      that panics satisfies no postcondition);
    - record field update ([r <| f := v |>]) by type-class resolution;
    - flag words: [has], [set_flag], [clear_flag] and their bit-level lemmas;
    - update of total tables ([upd]);
    - the hint database [minix] and the tactics the components use. *)
From stdpp Require Export base tactics decidable numbers strings sets list list_numbers.

#[global] Open Scope Z_scope.
#[global] Open Scope list_scope.
#[export] Set Default Goal Selector "!".

Create HintDb minix.
Create Rewrite HintDb minix.

(** ** Outcomes *)

Inductive outcome (A : Type) : Type :=
| Ret (a : A)
| Panic (msg : string).
Arguments Ret {_} _.
Arguments Panic {_} _.

(** Kernel code threads a state [S] and may stop the machine. *)
Definition M (S A : Type) : Type := S → outcome (A * S).

#[export] Instance M_ret {S} : MRet (M S) := λ A a s, Ret (a, s).
#[export] Instance M_bind {S} : MBind (M S) := λ A B k m s,
  match m s with
  | Ret (a, s') => k a s'
  | Panic e => Panic e
  end.

Definition gets {S A} (f : S → A) : M S A := λ s, Ret (f s, s).
Definition modify {S} (f : S → S) : M S unit := λ s, Ret ((), f s).
Definition panic {S A} (msg : string) : M S A := λ _, Panic msg.
(** [assert(b)] of the kernel. *)
Definition assert_ {S} (b : S → bool) (msg : string) : M S unit :=
  λ s, if b s then Ret ((), s) else Panic msg.

(** Iterate a handler over a list of indices, left to right. *)
Fixpoint forM_ {S A} (l : list A) (f : A → M S unit) : M S unit :=
  match l with
  | [] => mret ()
  | x :: l' => f x;; forM_ l' f
  end.

(** ** Weakest preconditions (total: a panic satisfies nothing) *)

Definition wp {S A} (m : M S A) (Q : A → S → Prop) (s : S) : Prop :=
  match m s with
  | Ret (a, s') => Q a s'
  | Panic _ => False
  end.

Section wp.
Context {S : Type}.
Implicit Types s : S.

Lemma wp_ret {A} (a : A) (Q : A → S → Prop) s : Q a s → wp (mret a) Q s.
Proof. done. Qed.
Lemma wp_bind {A B} (m : M S A) (k : A → M S B) Q s :
  wp m (λ a, wp (k a) Q) s → wp (m ≫= k) Q s.
Proof. unfold wp, mbind, M_bind. destruct (m s) as [[a s']|]; done. Qed.
Lemma wp_bind_inv {A B} (m : M S A) (k : A → M S B) Q s :
  wp (m ≫= k) Q s → wp m (λ a, wp (k a) Q) s.
Proof. unfold wp, mbind, M_bind. destruct (m s) as [[a s']|]; done. Qed.
Lemma wp_gets {A} (f : S → A) Q s : Q (f s) s → wp (gets f) Q s.
Proof. done. Qed.
Lemma wp_modify (f : S → S) Q s : Q () (f s) → wp (modify f) Q s.
Proof. done. Qed.
Lemma wp_assert (b : S → bool) msg Q s :
  b s = true → Q () s → wp (assert_ b msg) Q s.
Proof. unfold wp, assert_. by intros ->. Qed.
Lemma wp_mono {A} (m : M S A) (Q Q' : A → S → Prop) s :
  wp m Q s → (∀ a s', Q a s' → Q' a s') → wp m Q' s.
Proof. unfold wp. destruct (m s) as [[a s']|]; eauto. Qed.
Lemma wp_and {A} (m : M S A) (Q Q' : A → S → Prop) s :
  wp m Q s → wp m Q' s → wp m (λ a s', Q a s' ∧ Q' a s') s.
Proof. unfold wp. destruct (m s) as [[a s']|]; eauto. Qed.

Lemma wp_inv {A} (m : M S A) Q s :
  wp m Q s → ∃ a s', m s = Ret (a, s') ∧ Q a s'.
Proof. unfold wp. destruct (m s) as [[a s']|]; [eauto|done]. Qed.
Lemma wp_intro {A} (m : M S A) (Q : A → S → Prop) s a s' :
  m s = Ret (a, s') → Q a s' → wp m Q s.
Proof. unfold wp. by intros ->. Qed.

(** Loop rule for [forM_]: an invariant indexed by what is left to do. *)
Lemma wp_forM_ {A} (l : list A) (f : A → M S unit) (I : list A → S → Prop) s :
  I l s →
  (∀ x l' s', I (x :: l') s' → wp (f x) (λ _, I l') s') →
  wp (forM_ l f) (λ _, I []) s.
Proof.
  intros H0 Hstep. revert s H0.
  induction l as [|x l IH]; intros s H0; simpl; [by apply wp_ret|].
  apply wp_bind. eapply wp_mono; [by apply Hstep|]. intros [] s' Hs'. by apply IH.
Qed.
End wp.

(** Run the administrative steps of a [wp] goal. *)
Ltac wp_step :=
  lazymatch goal with
  | |- wp (mret _) _ _ => apply wp_ret
  | |- wp (mbind _ _) _ _ => apply wp_bind
  | |- wp (gets _) _ _ => apply wp_gets
  | |- wp (modify _) _ _ => apply wp_modify
  end.
Ltac wp_steps := repeat (wp_step; cbv beta).

(** ** Record field update *)

Class Settable (R : Type) := settable : R → R.
Class Setter {R E} (proj : R → E) := set : (E → E) → R → R.
#[global] Arguments set {R E} proj {Setter} _ _.

Ltac derive_setter :=
  lazymatch goal with
  | |- @Setter ?R ?E ?proj =>
      let inst := constr:(_ : Settable R) in
      let body := eval hnf in inst in
      let pat := eval pattern proj in body in
      lazymatch pat with
      | ?F _ =>
          let t := eval cbv beta in (fun (f : E → E) (r : R) => F (fun r' => f (proj r')) r) in
          exact t
      end
  end.
#[export] Hint Extern 1 (Setter _) => derive_setter : typeclass_instances.

Declare Scope update_scope.
Notation "r <| p := v |>" := (set p (fun _ => v) r)
  (at level 12, left associativity, format "r  <| p  :=  v |>") : update_scope.
Notation "r <| p ::= f |>" := (set p f r)
  (at level 12, left associativity, format "r  <| p  ::=  f |>") : update_scope.
#[global] Open Scope update_scope.

(** ** Total tables *)

(** [upd t i v] is the table [t] after [t[i] = v]. *)
Definition upd {K A} `{EqDecision K} (t : K → A) (i : K) (v : A) : K → A :=
  λ j, if decide (j = i) then v else t j.

Section upd.
Context {K A : Type} `{EqDecision K}.
Implicit Types t : K → A.
Lemma upd_eq t i v : upd t i v i = v.
Proof. unfold upd. by rewrite decide_True. Qed.
Lemma upd_ne t i j v : j ≠ i → upd t i v j = t j.
Proof. intros. unfold upd. by rewrite decide_False. Qed.
Lemma upd_case t i j v : upd t i v j = if decide (j = i) then v else t j.
Proof. done. Qed.
End upd.
#[export] Hint Rewrite @upd_eq : minix.

(** ** Flag words *)

(** [(x & f)] used as a truth value. *)
Definition has (x f : Z) : bool := negb (Z.land x f =? 0).
(** [x |= f] and [x &= ~f]. *)
Definition set_flag (f x : Z) : Z := Z.lor x f.
Definition clear_flag (f x : Z) : Z := Z.land x (Z.lnot f).
(** [(x & f) == f]. *)
Definition isset (x f : Z) : bool := Z.land x f =? f.

Section flags.
Implicit Types x f g i : Z.

Lemma has_bit x i : 0 ≤ i → has x (2 ^ i) = Z.testbit x i.
Proof.
  intros Hi. unfold has. destruct (Z.testbit x i) eqn:E.
  - apply negb_true_iff, Z.eqb_neq. intros H0.
    assert (Z.testbit (Z.land x (2 ^ i)) i = false) as H1 by by rewrite H0, Z.testbit_0_l.
    rewrite Z.land_spec, E, Z.pow2_bits_true in H1 by lia. done.
  - apply negb_false_iff, Z.eqb_eq. apply Z.bits_inj'. intros j Hj.
    rewrite Z.land_spec, Z.testbit_0_l.
    destruct (decide (j = i)) as [->|Hne]; [by rewrite E|].
    rewrite Z.pow2_bits_false by lia. apply andb_false_r.
Qed.

Lemma isset_has_bit x i : 0 ≤ i → isset x (2 ^ i) = has x (2 ^ i).
Proof.
  intros Hi. rewrite has_bit by done. unfold isset. destruct (Z.testbit x i) eqn:E.
  - apply Z.eqb_eq, Z.bits_inj'. intros j Hj. rewrite Z.land_spec.
    destruct (decide (j = i)) as [->|Hne].
    + rewrite Z.pow2_bits_true by lia. by rewrite E.
    + rewrite Z.pow2_bits_false by lia. apply andb_false_r.
  - apply Z.eqb_neq. intros H0.
    assert (Z.testbit (Z.land x (2 ^ i)) i = true) as H1
      by (rewrite H0, Z.pow2_bits_true by lia; done).
    rewrite Z.land_spec, E in H1. done.
Qed.

Lemma set_flag_bit x f i : Z.testbit (set_flag f x) i = Z.testbit x i || Z.testbit f i.
Proof. apply Z.lor_spec. Qed.
Lemma clear_flag_bit x f i :
  0 ≤ i → Z.testbit (clear_flag f x) i = Z.testbit x i && negb (Z.testbit f i).
Proof. intros. unfold clear_flag. by rewrite Z.land_spec, Z.lnot_spec. Qed.

Lemma has_false x f : has x f = false ↔ Z.land x f = 0.
Proof. unfold has. by rewrite negb_false_iff, Z.eqb_eq. Qed.
Lemma has_true x f : has x f = true ↔ Z.land x f ≠ 0.
Proof. unfold has. by rewrite negb_true_iff, Z.eqb_neq. Qed.

Lemma has_clear_self x f : has (clear_flag f x) f = false.
Proof.
  apply has_false. unfold clear_flag.
  rewrite <-Z.land_assoc, (Z.land_comm (Z.lnot f)), Z.land_lnot_diag. apply Z.land_0_r.
Qed.
Lemma has_clear_other x f g : Z.land f g = 0 → has (clear_flag f x) g = has x g.
Proof.
  intros H. unfold has, clear_flag. f_equal. f_equal.
  apply Z.bits_inj'. intros i Hi. rewrite !Z.land_spec, Z.lnot_spec by done.
  assert (Z.testbit f i && Z.testbit g i = false) as Hb
    by by rewrite <-Z.land_spec, H, Z.testbit_0_l.
  destruct (Z.testbit x i), (Z.testbit f i), (Z.testbit g i); done.
Qed.
Lemma has_set_other x f g : Z.land f g = 0 → has (set_flag f x) g = has x g.
Proof.
  intros H. unfold has, set_flag. f_equal. f_equal.
  by rewrite Z.land_lor_distr_l, H, Z.lor_0_r.
Qed.
Lemma has_set_self x f : f ≠ 0 → has (set_flag f x) f = true.
Proof.
  intros Hf. apply has_true. unfold set_flag.
  rewrite Z.land_lor_distr_l, Z.land_diag. intros H. apply Z.lor_eq_0_iff in H. lia.
Qed.
Lemma set_flag_nonzero x f : f ≠ 0 → set_flag f x ≠ 0.
Proof. unfold set_flag. intros Hf H. apply Z.lor_eq_0_iff in H. lia. Qed.
Lemma has_0 f : has 0 f = false.
Proof. done. Qed.
Lemma clear_flag_absent x f : has x f = false → clear_flag f x = x.
Proof.
  rewrite has_false. intros H. apply Z.bits_inj'. intros i Hi. rewrite clear_flag_bit by done.
  assert (Z.testbit (Z.land x f) i = false) as Hb by (rewrite H; apply Z.bits_0).
  rewrite Z.land_spec in Hb. by destruct (Z.testbit x i), (Z.testbit f i).
Qed.
Lemma clear_flag_0 f : clear_flag f 0 = 0.
Proof. done. Qed.
Lemma clear_set_flag x f : Z.land x f = 0 → clear_flag f (set_flag f x) = x.
Proof.
  intros H. unfold clear_flag, set_flag. apply Z.bits_inj'. intros i Hi.
  rewrite Z.land_spec, Z.lor_spec, Z.lnot_spec by done.
  assert (Z.testbit x i && Z.testbit f i = false) as Hb
    by by rewrite <-Z.land_spec, H, Z.testbit_0_l.
  destruct (Z.testbit x i), (Z.testbit f i); done.
Qed.
End flags.
#[export] Hint Rewrite has_clear_self has_0 : minix.

(** ** Small lemmas on booleans and decidable tests *)

Lemma bool_decide_eqb (a b : Z) : bool_decide (a = b) = (a =? b).
Proof.
  destruct (Z.eqb_spec a b); [by rewrite bool_decide_true|by rewrite bool_decide_false].
Qed.

(** Split a boolean condition that the goal branches on. *)
Ltac case_bool :=
  match goal with
  | |- context [if ?b then _ else _] => destruct b eqn:?
  end.

(** ** 32-bit arithmetic *)

(** [lia] on division and remainder by constants. *)
Ltac div_lia := Z.div_mod_to_equations; lia.

Definition u32 (x : Z) : Z := x mod 2 ^ 32.
Definition u64 (x : Z) : Z := x mod 2 ^ 64.
(** Two's complement reading of a 32-bit word. *)
Definition i16 (x : Z) : Z := (x + 2 ^ 15) mod 2 ^ 16 - 2 ^ 15.
Definition i32 (x : Z) : Z := (x + 2 ^ 31) mod 2 ^ 32 - 2 ^ 31.

Lemma i32_range x : - 2 ^ 31 ≤ i32 x < 2 ^ 31.
Proof. unfold i32. pose proof (Z.mod_pos_bound (x + 2 ^ 31) (2 ^ 32)). lia. Qed.
Lemma i32_id x : - 2 ^ 31 ≤ x < 2 ^ 31 → i32 x = x.
Proof. intros. unfold i32. rewrite Z.mod_small by lia. lia. Qed.
Lemma u32_id x : 0 ≤ x < 2 ^ 32 → u32 x = x.
Proof. intros. apply Z.mod_small. lia. Qed.
