(* ===== verification/LinkedList.v ===== *)
(** * Intrusive singly linked lists

    The kernel keeps its queues as intrusive lists: a head pointer and a link field
    in every element ([p_nextready], [p_q_link], [tmr_next], [next_pmb], ...), which
    it edits through pointers to pointers ([struct proc **xpp]).  This file relates
    such a list to a Rocq list once, for all components:

    - [chain next h l e]: following [next] from [h] visits exactly [l] and ends in [e];
    - [cell]: what a pointer to a pointer designates (the head, or an element's link);
    - [pp_find]: the walk [while ( *xpp && !stop( *xpp)) xpp = &( *xpp)->next], with fuel;
    - [splice]: what writing through the cell found by the walk does to the list. *)
From S2P Require Import Prelude.

Section linked_list.
Context {K : Type} `{EqDecision K}.
Implicit Types (next : K → option K) (h e : option K) (l : list K) (x y : K).

Fixpoint chain next h l e : Prop :=
  match l with
  | [] => h = e
  | x :: l' => h = Some x ∧ chain next (next x) l' e
  end.

(** A pointer to a pointer: the list head, or the link field of an element. *)
Inductive cell : Type :=
| CHead
| CNext (x : K).

Definition cell_read next h (c : cell) : option K :=
  match c with CHead => h | CNext x => next x end.

Definition cell_write (c : cell) (v : option K) (st : (K → option K) * option K)
  : (K → option K) * option K :=
  match c with
  | CHead => (st.1, v)
  | CNext x => (upd st.1 x v, st.2)
  end.

(** The cell reached after walking over [l] from [c]. *)
Definition cell_after (c : cell) l : cell :=
  match last l with None => c | Some y => CNext y end.

(** [while ( *xpp && !stop( *xpp)) xpp = &( *xpp)->next;] *)
Fixpoint pp_find (fuel : nat) next h (stop : K → bool) (c : cell) : option cell :=
  match fuel with
  | O => None
  | S fuel' =>
      match cell_read next h c with
      | None => Some c
      | Some x => if stop x then Some c else pp_find fuel' next h stop (CNext x)
      end
  end.

(** ** Chains *)

Lemma chain_app next h l1 l2 e :
  chain next h (l1 ++ l2) e ↔ ∃ m, chain next h l1 m ∧ chain next m l2 e.
Proof.
  revert h. induction l1 as [|x l1 IH]; intros h; simpl.
  - split; [eauto|]. by intros (m & -> & ?).
  - rewrite IH. split.
    + intros (-> & m & ? & ?). eauto.
    + intros (m & [-> ?] & ?). eauto.
Qed.

Lemma chain_frame next h l e x v :
  x ∉ l → chain (upd next x v) h l e ↔ chain next h l e.
Proof.
  revert h. induction l as [|y l IH]; intros h Hx; [done|].
  apply not_elem_of_cons in Hx as [Hne Hx]. simpl. by rewrite upd_ne, IH by done.
Qed.

Lemma chain_ext next next' h l e :
  (∀ x, x ∈ l → next x = next' x) → chain next h l e → chain next' h l e.
Proof.
  revert h. induction l as [|y l IH]; intros h Hx; [done|]. simpl. intros [-> Hc]. split; [done|].
  rewrite <-Hx by set_solver. apply IH; [set_solver|done].
Qed.

Lemma chain_det next h l1 l2 : chain next h l1 None → chain next h l2 None → l1 = l2.
Proof.
  revert h l2. induction l1 as [|x l1 IH]; intros h [|y l2]; simpl;
    intros H1 H2; destruct_and?; simplify_eq; [done|]. f_equal. by eapply IH.
Qed.

(** A terminated list never visits an element twice. *)
Lemma chain_NoDup next h l : chain next h l None → NoDup l.
Proof.
  revert h. induction l as [|x l IH]; intros h; [by constructor|].
  simpl. intros [-> Hc]. constructor; [|by eapply IH].
  intros (l1 & l2 & ->)%list_elem_of_split.
  pose proof Hc as Hc'. apply chain_app in Hc as (m & Hm1 & Hm2).
  simpl in Hm2. destruct Hm2 as [-> Hm2].
  assert (l2 = l1 ++ x :: l2) as Heq by by eapply chain_det.
  apply (f_equal length) in Heq. rewrite length_app in Heq. simpl in Heq. lia.
Qed.

Lemma chain_nil next l : chain next None l None → l = [].
Proof. destruct l; simpl; [done|naive_solver]. Qed.

Lemma chain_head next h l : chain next h l None → h = head l.
Proof. destruct l; simpl; naive_solver. Qed.

Lemma chain_last_end next h l y e :
  chain next h l e → last l = Some y → next y = e.
Proof.
  revert h. induction l as [|x l IH]; intros h; [done|].
  simpl chain. intros [-> Hc] Hl. destruct l as [|z l]; simpl in *; [|eauto].
  by simplify_eq.
Qed.

(** ** The pointer-to-pointer walk *)

Lemma cell_after_cons c x l : cell_after c (x :: l) = cell_after (CNext x) l.
Proof. unfold cell_after. rewrite last_cons. by destruct (last l). Qed.

Lemma pp_find_spec fuel next h (stop : K → bool) c l :
  chain next (cell_read next h c) l None → (length l < fuel)%nat →
  ∃ l1 l2, l = l1 ++ l2 ∧ pp_find fuel next h stop c = Some (cell_after c l1) ∧
           cell_read next h (cell_after c l1) = head l2 ∧
           Forall (λ y, stop y = false) l1 ∧
           match l2 with [] => True | x :: _ => stop x = true end.
Proof.
  revert c l. induction fuel as [|fuel IH]; intros c l Hc Hlen; [lia|].
  destruct l as [|x l]; simpl in Hc |- *.
  - exists [], []. unfold cell_after. simpl. rewrite Hc. done.
  - destruct Hc as [Hr Hc]. rewrite Hr. destruct (stop x) eqn:Hs.
    + exists [], (x :: l). unfold cell_after. simpl. done.
    + destruct (IH (CNext x) l) as (l1 & l2 & -> & Hf & Hrd & Hall & Hend);
        [done|simpl in Hlen; lia|].
      exists (x :: l1), l2. rewrite cell_after_cons. rewrite Hf. split_and!; try done.
      by constructor.
Qed.

Lemma split_unique x l1 l2 k1 k2 :
  k1 ++ x :: k2 = l1 ++ x :: l2 → x ∉ k1 → x ∉ l1 → k1 = l1 ∧ k2 = l2.
Proof.
  revert k1. induction l1 as [|y l1 IH]; intros [|w k1] Heq Hk Hl;
    simplify_eq/=; rewrite ?not_elem_of_cons in *; try tauto.
  destruct (IH k1) as [-> ->]; tauto.
Qed.

(** Stopping at a given element that is known to be in the list. *)
Lemma pp_find_elem fuel next h l1 x l2 :
  chain next h (l1 ++ x :: l2) None → (length (l1 ++ x :: l2) < fuel)%nat →
  pp_find fuel next h (λ y, bool_decide (y = x)) CHead = Some (cell_after CHead l1).
Proof.
  intros Hc Hlen.
  pose proof (chain_NoDup _ _ _ Hc) as Hnd.
  destruct (pp_find_spec fuel next h (λ y, bool_decide (y = x)) CHead _ Hc Hlen)
    as (k1 & k2 & Heq & Hf & _ & Hall & Hend).
  assert (k2 = x :: l2 ∧ k1 = l1) as [-> ->]; [|done].
  destruct k2 as [|z k2].
  - rewrite app_nil_r in Heq. subst k1. exfalso.
    rewrite Forall_forall in Hall. specialize (Hall x ltac:(set_solver)).
    by apply bool_decide_eq_false in Hall.
  - apply bool_decide_eq_true in Hend. subst z.
    apply NoDup_app in Hnd as (? & Hx & Hnd2). apply NoDup_cons in Hnd2 as [Hxl2 ?].
    assert (x ∉ l1) by set_solver.
    assert (x ∉ k1) as Hxk.
    { intros Hk. rewrite Forall_forall in Hall. specialize (Hall x Hk).
      by apply bool_decide_eq_false in Hall. }
    symmetry in Heq. by destruct (split_unique _ _ _ _ _ Heq) as [-> ->].
Qed.

(** Walking to the end: [while ( *xpp) xpp = &( *xpp)->next]. *)
Lemma pp_find_end fuel next h l :
  chain next h l None → (length l < fuel)%nat →
  pp_find fuel next h (λ _, false) CHead = Some (cell_after CHead l).
Proof.
  intros Hc Hlen.
  destruct (pp_find_spec fuel next h (λ _, false) CHead _ Hc Hlen)
    as (k1 & k2 & -> & Hf & _ & _ & Hend).
  destruct k2; [|done]. by rewrite app_nil_r in *.
Qed.

(** ** Writing through the cell *)

Lemma splice next h l1 m l3 v :
  chain next h l1 m → NoDup l1 → chain next v l3 None →
  (∀ y, last l1 = Some y → y ∉ l3) →
  let st := cell_write (cell_after CHead l1) v (next, h) in
  chain st.1 st.2 (l1 ++ l3) None.
Proof.
  intros Hc Hnd Hv Hdis. unfold cell_after.
  destruct (last l1) as [y|] eqn:Hl; simpl.
  - apply last_Some in Hl as [l1' ->].
    apply NoDup_app in Hnd as (Hnd1 & Hy & _).
    assert (y ∉ l1') as Hy' by set_solver.
    apply chain_app in Hc as (m' & Hc1 & Hc2). simpl in Hc2. destruct Hc2 as [-> _].
    apply chain_app. exists v. split.
    + apply chain_app. exists (Some y). split; [by apply chain_frame|].
      simpl. by rewrite upd_eq.
    + apply chain_frame; [by apply Hdis|done].
  - apply last_None in Hl as ->. done.
Qed.

(** Removing an element: [*xpp = ( *xpp)->next]. *)
Lemma splice_remove next h l1 x l2 :
  chain next h (l1 ++ x :: l2) None →
  let st := cell_write (cell_after CHead l1) (next x) (next, h) in
  chain st.1 st.2 (l1 ++ l2) None.
Proof.
  intros Hc. pose proof (chain_NoDup _ _ _ Hc) as Hnd.
  apply chain_app in Hc as (m & Hc1 & Hc2). simpl in Hc2. destruct Hc2 as [-> Hc2].
  apply NoDup_app in Hnd as (Hnd1 & Hdis & _).
  eapply splice; eauto. intros y Hy Hy2.
  apply last_Some in Hy as [l' ->]. apply (Hdis y); set_solver.
Qed.

(** Appending an element whose link is null: [*xpp = x] at the end of the list. *)
Lemma splice_append next h l x :
  chain next h l None → x ∉ l → next x = None →
  let st := cell_write (cell_after CHead l) (Some x) (next, h) in
  chain st.1 st.2 (l ++ [x]) None.
Proof.
  intros Hc Hx Hn. eapply splice; eauto using chain_NoDup.
  - simpl. by rewrite Hn.
  - intros y Hy. apply last_Some in Hy as [l' ->]. set_solver.
Qed.

(** The links of a table of records, after one record is overwritten. *)
Lemma chain_table {R} (link : R → option K) (t : K → R) x r h l e :
  chain (λ i, link (upd t x r i)) h l e ↔ chain (upd (λ i, link (t i)) x (link r)) h l e.
Proof.
  split; apply chain_ext; intros i _; unfold upd; by case_decide.
Qed.

(** Overwriting a record without touching its link changes no list. *)
Lemma chain_table_same {R} (link : R → option K) (t : K → R) x r h l e :
  link r = link (t x) →
  chain (λ i, link (upd t x r i)) h l e ↔ chain (λ i, link (t i)) h l e.
Proof.
  intros Hr. split; apply chain_ext; intros i _; unfold upd; case_decide; by subst.
Qed.

End linked_list.
Arguments cell : clear implicits.
