(* ===== verification/Timers.v ===== *)
(** * Watchdog timers (lib/libtimers, and the CLOCK's queue of kernel/clock.c)

    A timers queue is an intrusive list of [timer_t] sorted by expiration time.
    The timers live in a table indexed by an abstract address; the queue is its head
    pointer.  [fuel] bounds the walks over a queue: it is any number larger than the
    number of timers of the owner (the kernel has one per privilege structure), and
    every theorem shows that the walk ends before it is used up.

    Watchdog functions are a parameter of [tmrs_exptimers]: the kernel's watchdog
    ([cause_alarm]) only sends a notification and does not touch the queue. *)
From stdpp Require Import sorting.
From S2P Require Import Prelude LinkedList.

Definition TMR_NEVER : Z := 2 ^ 31 - 1.

Record timer := mk_timer {
  tmr_next : option Z;
  tmr_exp_time : Z;
  tmr_func : Z;
  tmr_arg : Z;
}.
#[export] Instance settable_timer : Settable timer :=
  λ r, mk_timer (tmr_next r) (tmr_exp_time r) (tmr_func r) (tmr_arg r).

Record timers := mk_timers {
  tmr : Z → timer;
  tmrs : option Z;
}.
#[export] Instance settable_timers : Settable timers := λ r, mk_timers (tmr r) (tmrs r).

Definition tmr_inittimer (tp : Z) (s : timers) : timers :=
  s <| tmr ::= λ t, upd t tp (t tp <| tmr_exp_time := TMR_NEVER |> <| tmr_next := None |>) |>.

(** [( *tmrs)->tmr_exp_time], or [0] for an empty queue. *)
Definition head_time (s : timers) : Z :=
  match tmrs s with Some h => tmr_exp_time (tmr s h) | None => 0 end.

Definition upd_tmr (tp : Z) (f : timer → timer) (s : timers) : timers :=
  s <| tmr ::= λ t, upd t tp (f (t tp)) |>.

Definition links (s : timers) : Z → option Z := λ i, tmr_next (tmr s i).

(** [*atp = v]. *)
Definition write_cell (c : cell Z) (v : option Z) (s : timers) : timers :=
  match c with
  | CHead => s <| tmrs := v |>
  | CNext x => upd_tmr x (λ t, t <| tmr_next := v |>) s
  end.

Definition walk (fuel : nat) (stop : Z → bool) (s : timers) : outcome (cell Z) :=
  match pp_find fuel (links s) (tmrs s) stop CHead with
  | Some c => Ret c
  | None => Panic "timer queue does not end"
  end.

(** The result is what the function returns, paired with what it stores through
    [next_time] when that pointer is not null. *)
Definition tmrs_clrtimer (fuel : nat) (tp : Z) : M timers (Z * Z) := λ s,
  let prev_time := head_time s in
  let s := upd_tmr tp (λ t, t <| tmr_exp_time := TMR_NEVER |>) s in
  match walk fuel (λ y, bool_decide (y = tp)) s with
  | Panic e => Panic e
  | Ret c =>
      let s := match cell_read (links s) (tmrs s) c with
               | Some _ => write_cell c (links s tp) s
               | None => s
               end in
      Ret ((prev_time, head_time s), s)
  end.

Definition tmrs_settimer (fuel : nat) (tp exp_time watchdog : Z) : M timers (Z * Z) := λ s,
  let old_head := head_time s in
  match tmrs_clrtimer fuel tp s with
  | Panic e => Panic e
  | Ret (_, s) =>
      let s := upd_tmr tp (λ t, t <| tmr_exp_time := exp_time |> <| tmr_func := watchdog |>) s in
      match walk fuel (λ y, exp_time <? tmr_exp_time (tmr s y)) s with
      | Panic e => Panic e
      | Ret c =>
          let s := upd_tmr tp (λ t, t <| tmr_next := cell_read (links s) (tmrs s) c |>) s in
          let s := write_cell c (Some tp) s in
          Ret ((old_head, head_time s), s)
      end
  end.

Section exptimers.
Context {W : Type} (run : Z → M (timers * W) unit).

(** [while ((tp = *tmrs) != NULL && tp->tmr_exp_time <= now) ...] *)
Fixpoint exp_loop (fuel : nat) (now : Z) : M (timers * W) unit := λ sw,
  match fuel with
  | O => Panic "timer queue does not end"
  | S fuel' =>
      match tmrs sw.1 with
      | None => Ret ((), sw)
      | Some tp =>
          if tmr_exp_time (tmr sw.1 tp) <=? now then
            let s := sw.1 <| tmrs := links sw.1 tp |> in
            let s := upd_tmr tp (λ t, t <| tmr_exp_time := TMR_NEVER |>) s in
            match run tp (s, sw.2) with
            | Ret (_, sw') => exp_loop fuel' now sw'
            | Panic e => Panic e
            end
          else Ret ((), sw)
      end
  end.

Definition tmrs_exptimers (fuel : nat) (now : Z) : M (timers * W) Z :=
  exp_loop fuel now;; gets (λ sw, head_time sw.1).
End exptimers.

(** ** The CLOCK's queue (kernel/clock.c) *)

Record clock := mk_clock {
  clock_timers : timers;
  next_timeout : Z;
  realtime : Z;
}.

Definition timeout_of (s : timers) : Z :=
  match tmrs s with Some h => tmr_exp_time (tmr s h) | None => TMR_NEVER end.

Definition get_uptime (c : clock) : Z := realtime c.

(** [clock_timers->tmr_exp_time] is read without a null test: the queue is not empty
    after [tmrs_settimer]. *)
Definition set_timer (fuel : nat) (tp exp_time watchdog : Z) : M clock unit := λ c,
  match tmrs_settimer fuel tp exp_time watchdog (clock_timers c) with
  | Panic e => Panic e
  | Ret (_, s) =>
      match tmrs s with
      | None => Panic "null dereference"
      | Some h => Ret ((), mk_clock s (tmr_exp_time (tmr s h)) (realtime c))
      end
  end.

Definition reset_timer (fuel : nat) (tp : Z) : M clock unit := λ c,
  match tmrs_clrtimer fuel tp (clock_timers c) with
  | Panic e => Panic e
  | Ret (_, s) => Ret ((), mk_clock s (timeout_of s) (realtime c))
  end.

(** ** The queue as a list *)

(** [timers_ok s l]: the queue of [s] is the list [l], sorted by expiration time. *)
Definition exp_of (s : timers) : Z → Z := λ i, tmr_exp_time (tmr s i).
Definition by_time (s : timers) : relation Z := λ a b, exp_of s a ≤ exp_of s b.
Definition timers_ok (s : timers) (l : list Z) : Prop :=
  chain (links s) (tmrs s) l None ∧ StronglySorted (by_time s) l.

(** The abstract operations on the list of active timers. *)
Definition remove_timer (tp : Z) (l : list Z) : list Z := filter (λ y, y ≠ tp) l.
(** A timer goes behind all timers that do not expire later. *)
Fixpoint insert_timer (time : Z → Z) (tp e : Z) (l : list Z) : list Z :=
  match l with
  | [] => [tp]
  | y :: l' => if e <? time y then tp :: y :: l' else y :: insert_timer time tp e l'
  end.

Lemma chain_upd_tmr tp f s h l e :
  (∀ t, tmr_next (f t) = tmr_next t) →
  chain (links (upd_tmr tp f s)) h l e ↔ chain (links s) h l e.
Proof. intros Hf. apply (chain_table_same tmr_next). apply Hf. Qed.

Lemma tmr_write_cell_chain c v s l1 m l3 :
  chain (links s) (tmrs s) l1 m → NoDup l1 → chain (links s) v l3 None →
  (∀ y, last l1 = Some y → y ∉ l3) → c = cell_after CHead l1 →
  chain (links (write_cell c v s)) (tmrs (write_cell c v s)) (l1 ++ l3) None.
Proof.
  intros Hc Hnd Hv Hdis ->. pose proof (splice _ _ _ _ _ _ Hc Hnd Hv Hdis) as Hs.
  destruct (cell_after CHead l1) as [|x]; [done|].
  simpl in *. unfold links, upd_tmr. simpl.
  by apply (chain_table tmr_next).
Qed.

Lemma write_cell_exp c v s i : exp_of (write_cell c v s) i = exp_of s i.
Proof.
  destruct c; [done|]. unfold exp_of, write_cell, upd_tmr. simpl.
  unfold upd. case_decide; by subst.
Qed.
Lemma write_cell_func c v s i : tmr_func (tmr (write_cell c v s) i) = tmr_func (tmr s i).
Proof.
  destruct c; [done|]. unfold write_cell, upd_tmr. simpl. unfold upd. case_decide; by subst.
Qed.
Lemma upd_tmr_exp_ne tp f s i : i ≠ tp → exp_of (upd_tmr tp f s) i = exp_of s i.
Proof. intros. unfold exp_of, upd_tmr. simpl. by rewrite upd_ne. Qed.
Lemma upd_tmr_exp_eq tp f s : exp_of (upd_tmr tp f s) tp = tmr_exp_time (f (tmr s tp)).
Proof. unfold exp_of, upd_tmr. simpl. by rewrite upd_eq. Qed.

Lemma links_upd_tmr_ne tp f s i : i ≠ tp → links (upd_tmr tp f s) i = links s i.
Proof. intros. unfold links, upd_tmr. simpl. by rewrite upd_ne. Qed.
Lemma links_upd_tmr_eq tp f s : links (upd_tmr tp f s) tp = tmr_next (f (tmr s tp)).
Proof. unfold links, upd_tmr. simpl. by rewrite upd_eq. Qed.

Lemma sorted_ext s s' l :
  (∀ i, i ∈ l → exp_of s' i = exp_of s i) →
  StronglySorted (by_time s) l → StronglySorted (by_time s') l.
Proof.
  intros Hext. induction 1 as [|x l Hs IH Hall]; constructor.
  - apply IH. intros; apply Hext; set_solver.
  - eapply Forall_impl; [|intros y Hy; exact Hy]. rewrite Forall_forall in Hall |- *.
    intros y Hy. unfold by_time. rewrite !Hext by set_solver. by apply Hall.
Qed.

Lemma remove_timer_sorted s tp l :
  StronglySorted (by_time s) l → StronglySorted (by_time s) (remove_timer tp l).
Proof.
  unfold remove_timer. induction 1 as [|x l Hs IH Hall]; [constructor|].
  rewrite filter_cons. case_decide; [|done]. constructor; [done|].
  rewrite Forall_forall in Hall |- *. intros y [_ Hy]%list_elem_of_filter. by apply Hall.
Qed.

Lemma insert_timer_split time tp e l1 l2 :
  Forall (λ y, (e <? time y) = false) l1 →
  match l2 with [] => True | y :: _ => (e <? time y) = true end →
  insert_timer time tp e (l1 ++ l2) = l1 ++ tp :: l2.
Proof.
  intros H1 H2. induction H1 as [|y l1 Hy _ IH]; simpl.
  - destruct l2; simpl; [done|]. by rewrite H2.
  - by rewrite Hy, IH.
Qed.

Lemma insert_timer_elem time tp e l y : y ∈ insert_timer time tp e l ↔ y = tp ∨ y ∈ l.
Proof.
  induction l as [|z l IH]; simpl; [set_solver|]. case_match; set_solver.
Qed.

Lemma insert_timer_sorted s tp e l :
  exp_of s tp = e → StronglySorted (by_time s) l →
  StronglySorted (by_time s) (insert_timer (exp_of s) tp e l).
Proof.
  intros He. induction 1 as [|x l Hs IH Hall]; simpl; [repeat constructor|].
  destruct (Z.ltb_spec e (exp_of s x)) as [Hlt|Hge].
  - constructor; [by constructor|]. constructor.
    + unfold by_time. lia.
    + eapply Forall_impl; [exact Hall|]. unfold by_time. intros y Hy; lia.
  - constructor; [done|]. rewrite Forall_forall in Hall |- *.
    intros y [->|Hy]%insert_timer_elem; [unfold by_time; lia|by apply Hall].
Qed.

Lemma remove_timer_not_in tp l : tp ∉ l → remove_timer tp l = l.
Proof.
  unfold remove_timer. induction l as [|x l IH]; [done|]. rewrite not_elem_of_cons. intros [Hne Hl].
  rewrite filter_cons_True by done. by rewrite IH.
Qed.
Lemma remove_timer_split tp l1 l2 : tp ∉ l1 → tp ∉ l2 → remove_timer tp (l1 ++ tp :: l2) = l1 ++ l2.
Proof.
  intros H1 H2. unfold remove_timer. rewrite filter_app, filter_cons_False by naive_solver.
  fold (remove_timer tp l1) (remove_timer tp l2). by rewrite !remove_timer_not_in.
Qed.
Lemma remove_timer_length tp l : (length (remove_timer tp l) ≤ length l)%nat.
Proof. apply length_filter. Qed.

(** ** Functional behaviour *)

Lemma head_time_list s l : timers_ok s l → tmrs s = head l.
Proof. intros [Hc _]. by eapply chain_head. Qed.

(** A queue that is sorted but for the timer [tp], whose deadline its owner may have changed. *)
Definition timers_but (tp : Z) (s : timers) (l : list Z) : Prop :=
  chain (links s) (tmrs s) l None ∧ StronglySorted (by_time s) (remove_timer tp l).
Lemma timers_ok_but tp s l : timers_ok s l → timers_but tp s l.
Proof. intros [Hc Hs]. split; [done|by apply remove_timer_sorted]. Qed.

Lemma clrtimer_but fuel tp s l :
  timers_but tp s l → (length l < fuel)%nat →
  ∃ s', tmrs_clrtimer fuel tp s = Ret ((head_time s, head_time s'), s') ∧
        timers_ok s' (remove_timer tp l) ∧ exp_of s' tp = TMR_NEVER ∧
        (∀ i, i ≠ tp → exp_of s' i = exp_of s i).
Proof.
  intros [Hc Hs] Hlen. unfold tmrs_clrtimer, walk.
  set (s1 := upd_tmr tp _ s).
  assert (chain (links s1) (tmrs s1) l None) as Hc1 by by apply chain_upd_tmr.
  destruct (decide (tp ∈ l)) as [(l1 & l2 & ->)%list_elem_of_split|Hni].
  - pose proof (chain_NoDup _ _ _ Hc1) as Hnd.
    apply NoDup_app in Hnd as (Hnd1 & Hdis & Hnd2). apply NoDup_cons in Hnd2 as [Hx2 _].
    assert (tp ∉ l1) as Hx1 by (intros ?; eapply Hdis; [done|set_solver]).
    rewrite (pp_find_elem _ _ _ _ _ _ Hc1 Hlen).
    pose proof Hc1 as Hc2. apply chain_app in Hc2 as (m & Hm1 & Hm2). simpl in Hm2.
    destruct Hm2 as [-> Hm2].
    assert (cell_read (links s1) (tmrs s1) (cell_after CHead l1) = Some tp) as ->.
    { unfold cell_after. destruct (last l1) eqn:E; simpl; [by eapply chain_last_end|].
      apply last_None in E as ->. done. }
    eexists. split; [done|]. rewrite remove_timer_split by done. split_and!.
    + split.
      * eapply tmr_write_cell_chain; eauto.
        intros y Hy Hy2. apply last_Some in Hy as [? ->]. apply (Hdis y); set_solver.
      * rewrite <-(remove_timer_split tp) by done.
        eapply sorted_ext; [|exact Hs]. intros i Hi.
        rewrite write_cell_exp. unfold s1. apply upd_tmr_exp_ne. unfold remove_timer in Hi.
        by apply list_elem_of_filter in Hi as [? _].
    + rewrite write_cell_exp. unfold s1. by rewrite upd_tmr_exp_eq.
    + intros i Hi. rewrite write_cell_exp. unfold s1. by apply upd_tmr_exp_ne.
  - destruct (pp_find_spec fuel (links s1) (tmrs s1) (λ y, bool_decide (y = tp)) CHead l Hc1 Hlen)
      as (l1 & l2 & -> & -> & Hr & _ & Hend).
    assert (l2 = []) as ->.
    { destruct l2 as [|z l2]; [done|]. apply bool_decide_eq_true in Hend. set_solver. }
    rewrite Hr. simpl. eexists. split; [done|]. rewrite remove_timer_not_in in Hs |- * by done. split_and!.
    + split; [done|]. eapply sorted_ext; [|done]. intros i Hi. apply upd_tmr_exp_ne. set_solver.
    + unfold s1. by rewrite upd_tmr_exp_eq.
    + intros i Hi. by apply upd_tmr_exp_ne.
Qed.

Lemma insert_timer_ext (f g : Z → Z) tp e l :
  (∀ y, y ∈ l → f y = g y) → insert_timer f tp e l = insert_timer g tp e l.
Proof.
  induction l as [|y l IH]; simpl; intros Hext; [done|].
  rewrite Hext by set_solver. case_match; [done|]. f_equal. apply IH. set_solver.
Qed.

Lemma settimer_but fuel tp e wd s l :
  timers_but tp s l → (length l < fuel)%nat →
  ∃ s', tmrs_settimer fuel tp e wd s = Ret ((head_time s, head_time s'), s') ∧
        timers_ok s' (insert_timer (exp_of s) tp e (remove_timer tp l)) ∧
        exp_of s' tp = e ∧ tmr_func (tmr s' tp) = wd ∧
        (∀ i, i ≠ tp → exp_of s' i = exp_of s i).
Proof.
  intros Hok Hlen.
  destruct (clrtimer_but fuel tp s l Hok Hlen) as (s1 & Hrun & [Hc1 Hs1] & _ & Hext).
  unfold tmrs_settimer, walk. rewrite Hrun. set (l' := remove_timer tp l) in *.
  assert (tp ∉ l') as Htp by (unfold l', remove_timer; rewrite list_elem_of_filter; naive_solver).
  set (s2 := upd_tmr tp _ s1).
  assert (chain (links s2) (tmrs s2) l' None) as Hc2 by by apply chain_upd_tmr.
  assert (∀ y, y ∈ l' → exp_of s2 y = exp_of s y) as Hexp.
  { intros y Hy. assert (y ≠ tp) by (by intros ->). unfold s2. by rewrite upd_tmr_exp_ne, Hext. }
  destruct (pp_find_spec fuel (links s2) (tmrs s2) (λ y, e <? tmr_exp_time (tmr s2 y)) CHead l' Hc2)
    as (l1 & l2 & Hl & -> & Hr & Hall & Hend).
  { pose proof (remove_timer_length tp l). unfold l'. lia. }
  rewrite Hr. set (s3 := upd_tmr tp _ s2).
  assert (insert_timer (exp_of s) tp e l' = l1 ++ tp :: l2) as Hins.
  { rewrite <-(insert_timer_ext (exp_of s2)) by done. rewrite Hl. by apply insert_timer_split. }
  assert (exp_of s3 tp = e) as Htime by (unfold s3, s2; by rewrite !upd_tmr_exp_eq; simpl; rewrite upd_eq).
  assert (∀ i, i ≠ tp → exp_of s3 i = exp_of s i) as Hext3.
  { intros i Hi. unfold s3, s2. rewrite !upd_tmr_exp_ne by done. by apply Hext. }
  assert ((tp ∉ l1) ∧ (tp ∉ l2)) as [Htp1 Htp2] by (rewrite Hl in Htp; set_solver).
  eexists. split; [done|]. rewrite Hins. split_and!.
  - split.
    + rewrite Hl in Hc2. pose proof (chain_NoDup _ _ _ Hc2) as Hnd.
      apply NoDup_app in Hnd as (Hnd1 & Hdis & _).
      apply chain_app in Hc2 as (m & Hm1 & Hm2).
      pose proof (chain_head _ _ _ Hm2) as ->.
      assert (∀ h k ee, tp ∉ k → chain (links s2) h k ee → chain (links s3) h k ee) as Hfr.
      { intros h k ee Hk. apply chain_ext. intros y Hy. symmetry.
        apply links_upd_tmr_ne. by intros ->. }
      eapply tmr_write_cell_chain with (l3 := tp :: l2); try done.
      * by apply Hfr.
      * split; [done|]. unfold s3 at 2. rewrite links_upd_tmr_eq. by apply Hfr.
      * intros y Hy. apply last_Some in Hy as [k ->]. rewrite elem_of_cons. intros [->|Hy2].
        -- set_solver.
        -- apply (Hdis y); set_solver.
    + rewrite <-Hins. eapply sorted_ext; [intros i _; by rewrite write_cell_exp|].
      rewrite <-(insert_timer_ext (exp_of s3)).
      * apply insert_timer_sorted; [done|]. eapply sorted_ext; [|exact Hs1].
        intros i Hi. assert (i ≠ tp) by (intros Hit; by rewrite Hit in Hi). by rewrite Hext3, Hext.
      * intros i Hi. apply Hext3. intros Hit; by rewrite Hit in Hi.
  - by rewrite write_cell_exp.
  - rewrite write_cell_func. unfold s3, s2, upd_tmr. simpl. by rewrite !upd_eq.
  - intros i Hi. rewrite write_cell_exp. by apply Hext3.
Qed.

(** The watchdogs that run at time [now], and the timers that stay. *)
Fixpoint expired (time : Z → Z) (now : Z) (l : list Z) : list Z * list Z :=
  match l with
  | [] => ([], [])
  | y :: l' => if time y <=? now then let r := expired time now l' in (y :: r.1, r.2)
               else ([], l)
  end.

Lemma expired_app time now l : (expired time now l).1 ++ (expired time now l).2 = l.
Proof. induction l as [|y l IH]; simpl; [done|]. case_match; simpl; [by rewrite IH|done]. Qed.

Lemma expired_ext (f g : Z → Z) now l :
  (∀ y, y ∈ l → f y = g y) → expired f now l = expired g now l.
Proof.
  induction l as [|y l IH]; simpl; intros Hext; [done|].
  rewrite Hext, IH by set_solver. done.
Qed.

(** In a sorted queue, [expired] separates exactly the timers that are due. *)
Lemma expired_sorted s now l :
  StronglySorted (by_time s) l →
  Forall (λ y, exp_of s y ≤ now) (expired (exp_of s) now l).1 ∧
  Forall (λ y, now < exp_of s y) (expired (exp_of s) now l).2.
Proof.
  induction 1 as [|x l Hs [IH1 IH2] Hall]; simpl; [done|].
  destruct (Z.leb_spec (exp_of s x) now) as [Hle|Hgt]; simpl.
  - split; [by constructor|done].
  - split; [done|]. constructor; [done|]. eapply Forall_impl; [exact Hall|].
    unfold by_time. intros y Hy; lia.
Qed.

(** Timers keep their arguments. *)
Lemma write_cell_arg c v s i : tmr_arg (tmr (write_cell c v s) i) = tmr_arg (tmr s i).
Proof. destruct c; [done|]. unfold write_cell, upd_tmr. simpl. unfold upd. case_decide; by subst. Qed.
Lemma upd_tmr_arg tp f s i : (∀ t, tmr_arg (f t) = tmr_arg t) → tmr_arg (tmr (upd_tmr tp f s) i) = tmr_arg (tmr s i).
Proof. intros Hf. unfold upd_tmr. simpl. unfold upd. case_decide; subst; auto. Qed.
Lemma clrtimer_arg fuel tp s r s' :
  tmrs_clrtimer fuel tp s = Ret (r, s') → ∀ i, tmr_arg (tmr s' i) = tmr_arg (tmr s i).
Proof.
  unfold tmrs_clrtimer, walk. destruct (pp_find _ _ _ _ _) as [c|]; [|done].
  intros [= _ <-] i. by case_match; rewrite ?write_cell_arg, upd_tmr_arg.
Qed.
Lemma settimer_arg fuel tp e wd s r s' :
  tmrs_settimer fuel tp e wd s = Ret (r, s') → ∀ i, tmr_arg (tmr s' i) = tmr_arg (tmr s i).
Proof.
  unfold tmrs_settimer, walk. destruct (tmrs_clrtimer fuel tp s) as [[r1 s1]|] eqn:E; [|done].
  destruct (pp_find _ _ _ _ _) as [c|]; [|done]. intros [= _ <-] i.
  by rewrite write_cell_arg, !upd_tmr_arg, (clrtimer_arg _ _ _ _ _ E) by done.
Qed.

Section exp_proofs.
(** The watchdogs change the world but not the timers, as [cause_alarm] does; [J] says what
    is true of the world after the watchdogs of some timers have run. *)
Context {W : Type} (run : Z → M (timers * W) unit) (J : list Z → W → Prop) (arg : Z → Z).
Hypothesis run_J : ∀ tp s w fired, J fired w → tmr_arg (tmr s tp) = arg tp →
  wp (run tp) (λ _ sw, sw.1 = s ∧ J (fired ++ [tp]) sw.2) (s, w).

Lemma exp_loop_ok fuel now s w l fired :
  timers_ok s l → (length l < fuel)%nat → (∀ i, tmr_arg (tmr s i) = arg i) → J fired w →
  wp (exp_loop run fuel now) (λ _ sw,
    J (fired ++ (expired (exp_of s) now l).1) sw.2 ∧
    timers_ok sw.1 (expired (exp_of s) now l).2 ∧
    Forall (λ y, exp_of sw.1 y = TMR_NEVER) (expired (exp_of s) now l).1 ∧
    (∀ i, i ∉ (expired (exp_of s) now l).1 → exp_of sw.1 i = exp_of s i) ∧
    (∀ i, tmr_arg (tmr sw.1 i) = arg i)) (s, w).
Proof using run_J.
  revert s w l fired. induction fuel as [|fuel IH]; intros s w l fired Hok Hlen Harg HJ; [lia|].
  pose proof Hok as [Hc Hs]. unfold wp. simpl. rewrite (head_time_list s l Hok).
  destruct l as [|x l]; simpl; [by rewrite app_nil_r|].
  fold (exp_of s x). destruct (exp_of s x <=? now) eqn:Hx; simpl; [|by rewrite app_nil_r].
  simpl in Hc. destruct Hc as [Hh Hc]. set (s1 := upd_tmr x _ _).
  pose proof (chain_NoDup (links s) (Some x) (x :: l) (conj eq_refl Hc)) as [Hxl _]%NoDup_cons.
  apply StronglySorted_inv in Hs as [Hs Hall].
  assert (∀ y, y ≠ x → exp_of s1 y = exp_of s y) as Hext
    by (intros y Hy; unfold s1; by rewrite upd_tmr_exp_ne).
  assert (∀ y, y ∈ l → exp_of s1 y = exp_of s y) as Hext'
    by (intros y Hy; apply Hext; intros Hyx; by rewrite Hyx in Hy).
  assert (timers_ok s1 l) as Hok1.
  { split; [|by eapply sorted_ext]. unfold s1. by apply chain_upd_tmr. }
  assert (∀ i, tmr_arg (tmr s1 i) = arg i) as Harg1 by (intros i; unfold s1; rewrite upd_tmr_arg by done; apply Harg).
  destruct (wp_inv _ _ _ (run_J x s1 w fired HJ (Harg1 x))) as ([] & [s2 w2] & Hrun & E & HJ2). simpl in E, HJ2. subst s2.
  rewrite Hrun. pose proof (IH s1 w2 l (fired ++ [x]) Hok1 ltac:(simpl in Hlen; lia) Harg1 HJ2) as Hrec.
  rewrite (expired_ext _ _ now l Hext') in Hrec. eapply wp_mono; [exact Hrec|].
  intros [] [s' w'] (HJ' & Hok' & Hnev & Hext2 & Ha'). simpl in *.
  assert (x ∉ (expired (exp_of s) now l).1) as Hx1.
  { intros Hin. apply Hxl. rewrite <-(expired_app (exp_of s) now l). set_solver. }
  split_and!; try done.
  - by rewrite <-app_assoc in HJ'.
  - constructor; [|done]. rewrite Hext2 by done. unfold s1. by rewrite upd_tmr_exp_eq.
  - intros i [Hi1 Hi2]%not_elem_of_cons. rewrite Hext2 by done. by apply Hext.
Qed.
End exp_proofs.

(** ** Properties *)

(** [tmrs_settimer] refines insertion into a sorted list: on a queue that represents the
    list [l] in order of expiration it terminates, takes the timer out of its old
    place, puts it behind all timers that do not expire later and before all that
    do, leaves every other timer's deadline alone, and the queue stays sorted; it
    returns the old first deadline and reports the new one. *)
Theorem settimer_refines fuel tp e wd s l :
  timers_ok s l → (length l < fuel)%nat →
  ∃ s', tmrs_settimer fuel tp e wd s = Ret ((head_time s, head_time s'), s') ∧
        timers_ok s' (insert_timer (exp_of s) tp e (remove_timer tp l)) ∧
        exp_of s' tp = e ∧ tmr_func (tmr s' tp) = wd ∧
        (∀ i, i ≠ tp → exp_of s' i = exp_of s i).
Proof. intros Hok. by apply settimer_but, timers_ok_but. Qed.

(** A queue of two timers, 1 due at 10 and 2 due at 20. *)
Definition demo_timers : timers :=
  mk_timers (λ i, if decide (i = 1) then mk_timer (Some 2) 10 0 7
                  else if decide (i = 2) then mk_timer None 20 0 8
                  else mk_timer None TMR_NEVER 0 0) (Some 1).
Lemma demo_timers_ok : timers_ok demo_timers [1; 2].
Proof.
  split; [by vm_compute|].
  repeat constructor; unfold by_time; by vm_compute.
Qed.

Lemma settimer_refines_witness :
  ∃ r s', tmrs_settimer 5 3 15 0 demo_timers = Ret (r, s') ∧ timers_ok s' [1; 3; 2].
Proof.
  destruct (settimer_refines 5 3 15 0 demo_timers [1; 2] demo_timers_ok ltac:(simpl; lia))
    as (s' & Hrun & Hok & _).
  eexists _, s'. split; [exact Hrun|exact Hok].
Defined.

(** A watchdog that records which timers fired. *)
Definition log_watchdog (tp : Z) : M (timers * list Z) unit :=
  λ sw, Ret ((), (sw.1, sw.2 ++ [tp])).
Example exptimers_fires_first :
  (match tmrs_exptimers log_watchdog 5 12 (demo_timers, []) with
   | Ret (h, sw) => (h, sw.2) | Panic _ => (0, []) end) = (20, [1]).
Proof. reflexivity. Qed.

(** What the clock keeps: the queue is well formed and [next_timeout] is its earliest
    deadline ([TMR_NEVER] when no timer runs), so a tick that does not reach
    [next_timeout] has no timer to expire. *)
Definition clock_ok (c : clock) (l : list Z) : Prop :=
  timers_ok (clock_timers c) l ∧ next_timeout c = timeout_of (clock_timers c).

(** Setting and clearing the CLOCK's timers keeps [clock_ok]: after any sequence of
    [set_timer] and [reset_timer] calls no active timer is due before
    [next_timeout]. *)
Theorem clock_timer_calls_ok fuel tp e wd c l :
  clock_ok c l → (S (length l) < fuel)%nat →
  wp (set_timer fuel tp e wd)
     (λ _ c', clock_ok c' (insert_timer (exp_of (clock_timers c)) tp e (remove_timer tp l)) ∧
              realtime c' = realtime c) c ∧
  wp (reset_timer fuel tp)
     (λ _ c', clock_ok c' (remove_timer tp l) ∧ realtime c' = realtime c ∧
              Forall (λ y, next_timeout c' ≤ exp_of (clock_timers c') y) (remove_timer tp l)) c.
Proof.
  intros [Hok Hn] Hlen. split.
  - destruct (settimer_but fuel tp e wd _ l (timers_ok_but _ _ _ Hok) ltac:(lia)) as (s' & Hrun & Hok' & _).
    unfold wp, set_timer. rewrite Hrun. pose proof (head_time_list _ _ Hok') as Hh.
    destruct (tmrs s') as [h|] eqn:Et.
    + split; [|done]. split; [done|]. simpl. unfold timeout_of. by rewrite Et.
    + destruct (remove_timer tp l) as [|y k]; simpl in Hh; [done|]. case_match; done.
  - destruct (clrtimer_but fuel tp _ l (timers_ok_but _ _ _ Hok) ltac:(lia)) as (s' & Hrun & Hok' & _).
    unfold wp, reset_timer. rewrite Hrun. split; [done|]. split; [done|].
    simpl. unfold timeout_of. rewrite (head_time_list _ _ Hok').
    destruct Hok' as [_ Hs]. destruct Hs as [|x k Hs Hall]; [done|]. simpl.
    constructor; [done|]. eapply Forall_impl; [exact Hall|done].
Qed.

Lemma clock_timer_calls_ok_witness :
  wp (reset_timer 5 1) (λ _ c', clock_ok c' [2]) (mk_clock demo_timers 10 0).
Proof.
  destruct (clock_timer_calls_ok 5 1 0 0 (mk_clock demo_timers 10 0) [1; 2]) as [_ H].
  - split; [exact demo_timers_ok|reflexivity].
  - simpl; lia.
  - eapply wp_mono; [apply H|]. intros [] c' (Hok & _). exact Hok.
Defined.
