(* ===== verification/Kernel.v ===== *)
(** * The kernel's data: process table, privilege table, globals

    kernel/proc.h, kernel/priv.h, kernel/ipc.h, include/minix/{com,ipc,endpoint,const}.h,
    kernel/arch/i386/htype.h and the hardening globals of kernel/glo.h.

    - Pointers into the process table are process numbers ([proc_addr(n)] is [n]), a null
      pointer is [None].  The table is a total map; its slots are [-NR_TASKS .. NR_PROCS-1],
      and the per-CPU [idle_proc], which lives outside the table, is slot [IDLE_PTR].
    - Privilege structures are referred to by their index [s_id]; [idle_priv] is [IDLE_PRIV].
    - User memory is modelled at the granularity of the objects the kernel copies: a partial
      map from (process, address) to messages, entries of asynchronous send tables, memory
      grants and elements of copy vectors; [None] is an address that cannot be read, [uwr] tells which can be written.
    - The configuration is the single-CPU one ([CONFIG_SMP] undefined), without the debugging
      options ([DEBUG_*], [H_DEBUG], [CHECK_DEBUG], [TRACE]); console output is not modelled. *)
From S2P Require Import Prelude LinkedList.

(** ** Constants *)

Definition NR_TASKS : Z := 5.
Definition NR_PROCS : Z := 256.
Definition NR_SYS_PROCS : Z := 64.
Definition NR_SCHED_QUEUES : Z := 16.
Definition TASK_Q : Z := 0.
Definition MAX_NR_TASKS : Z := 1023.
Definition BITCHUNK_BITS : Z := 32.

Definition ANY : Z := 0x7ace.
Definition NONE : Z := 0x6ace.
Definition SELF : Z := 0x8ace.
Definition MAX_MAGIC_PROC : Z := SELF.

Definition ASYNCM : Z := -5.
Definition IDLE : Z := -4.
Definition CLOCK : Z := -3.
Definition SYSTEM : Z := -2.
Definition KERNEL : Z := -1.
Definition HARDWARE : Z := KERNEL.
Definition PM_PROC_NR : Z := 0.
Definition VM_PROC_NR : Z := 8.
Definition LAST_SPECIAL_PROC_NR : Z := 11.
Definition NR_STATIC_PRIV_IDS : Z := NR_TASKS + LAST_SPECIAL_PROC_NR + 1.
Definition NULL_PRIV_ID : Z := -1.

(** Slots outside the tables for the idle process. *)
Definition IDLE_PTR : Z := NR_PROCS.
Definition IDLE_PRIV : Z := NR_SYS_PROCS.

(** Result codes ([_SYSTEM] is defined, so they are negative). *)
Definition OK : Z := 0.
Definition EPERM : Z := -1.
Definition ENOENT : Z := -2.
Definition ESRCH : Z := -3.
Definition EAGAIN : Z := -11.
Definition EFAULT : Z := -14.
Definition EBUSY : Z := -16.
Definition EINVAL : Z := -22.
Definition ENOMEM : Z := -12.
Definition ENOSPC : Z := -28.
Definition EDOM : Z := -33.
Definition ELOCKED : Z := -101.
Definition EBADCALL : Z := -102.
Definition ECALLDENIED : Z := -104.
Definition EDEADSRCDST : Z := -105.
Definition ENOTREADY : Z := -106.
Definition EBADREQUEST : Z := -107.
Definition ETRAPDENIED : Z := -110.
Definition EDONTREPLY : Z := -201.

(** IPC calls. *)
Definition SEND : Z := 1.
Definition RECEIVE : Z := 2.
Definition SENDREC : Z := 3.
Definition NOTIFY : Z := 4.
Definition SENDNB : Z := 5.
Definition MINIX_KERNINFO : Z := 6.
Definition SENDA : Z := 16.
Definition IPCNO_HIGHEST : Z := SENDA.
Definition NON_BLOCKING : Z := 0x80.
Definition FROM_KERNEL : Z := 0x100.
Definition IPC_FLG_MSG_FROM_KERNEL : Z := 1.
Definition NOTIFY_MESSAGE : Z := 0x1000.

(** Run-time status flags ([p_rts_flags]). *)
Definition RTS_SLOT_FREE : Z := 0x01.
Definition RTS_PROC_STOP : Z := 0x02.
Definition RTS_SENDING : Z := 0x04.
Definition RTS_RECEIVING : Z := 0x08.
Definition RTS_SIGNALED : Z := 0x10.
Definition RTS_SIG_PENDING : Z := 0x20.
Definition RTS_P_STOP : Z := 0x40.
Definition RTS_NO_PRIV : Z := 0x80.
Definition RTS_NO_ENDPOINT : Z := 0x100.
Definition RTS_VMINHIBIT : Z := 0x200.
Definition RTS_PAGEFAULT : Z := 0x400.
Definition RTS_VMREQUEST : Z := 0x800.
Definition RTS_PREEMPTED : Z := 0x4000.
Definition RTS_NO_QUANTUM : Z := 0x8000.
Definition RTS_BOOTINHIBIT : Z := 0x10000.
Definition RTS_UNSTABLE_STATE : Z := 0x20000.
Definition RTS_INS_COUNTER : Z := 0x20000.

(** Miscellaneous flags ([p_misc_flags]). *)
Definition MF_REPLY_PEND : Z := 0x001.
Definition MF_VIRT_TIMER : Z := 0x002.
Definition MF_PROF_TIMER : Z := 0x004.
Definition MF_KCALL_RESUME : Z := 0x008.
Definition MF_DELIVERMSG : Z := 0x040.
Definition MF_SIG_DELAY : Z := 0x080.
Definition MF_SC_ACTIVE : Z := 0x100.
Definition MF_SC_DEFER : Z := 0x200.
Definition MF_SC_TRACE : Z := 0x400.
Definition MF_SENDING_FROM_KERNEL : Z := 0x2000.
Definition MF_STEP : Z := 0x40000.

(** Privilege flags ([s_flags]). *)
Definition PREEMPTIBLE : Z := 0x002.
Definition BILLABLE : Z := 0x004.
Definition DYN_PRIV_ID : Z := 0x008.
Definition SYS_PROC : Z := 0x010.
Definition CHECK_IRQ : Z := 0x040.

(** Flags of an asynchronous send entry. *)
Definition AMF_EMPTY : Z := 0.
Definition AMF_VALID : Z := 1.
Definition AMF_DONE : Z := 2.
Definition AMF_NOTIFY : Z := 4.
Definition AMF_NOREPLY : Z := 8.
Definition AMF_NOTIFY_ERR : Z := 16.

(** ** Messages *)

(** The payload union is its 32-bit words; the i386 layout gives the word of a field. *)
Record message := mk_message {
  m_source : Z;
  m_type : Z;
  m_payload : list Z;
}.
#[export] Instance settable_message : Settable message :=
  λ r, mk_message (m_source r) (m_type r) (m_payload r).
#[export] Instance message_inhabited : Inhabited message := populate (mk_message 0 0 []).

Definition m_word (i : nat) (m : message) : Z := default 0 (m_payload m !! i).
Definition set_m_word (i : nat) (v : Z) (m : message) : message :=
  m <| m_payload ::= λ l, <[i := v]> (l ++ replicate (S i - length l) 0) |>.
(** [m2_l1] and [m2_l2]: the fourth and fifth word of the payload. *)
Definition NOTIFY_ARG : message → Z := m_word 3.
Definition set_NOTIFY_ARG : Z → message → message := set_m_word 3.
Definition NOTIFY_TIMESTAMP : message → Z := m_word 4.
Definition set_NOTIFY_TIMESTAMP : Z → message → message := set_m_word 4.

Record asynmsg := mk_asynmsg {
  flags : Z;
  dst : Z;
  result : Z;
  msg : message;
}.
#[export] Instance settable_asynmsg : Settable asynmsg :=
  λ r, mk_asynmsg (flags r) (dst r) (result r) (msg r).
(** [sizeof(asynmsg_t)]: the message is 16-byte aligned. *)
Definition SIZEOF_ASYNMSG : Z := 64.

(** A memory grant ([cp_grant_t] of include/minix/safecopies.h): flags and the words of the
    union, which the flags say how to read; [vscp_vec] is an element of a vectored copy. *)
Record cp_grant := mk_cp_grant {
  cp_flags : Z;
  cp_w0 : Z;
  cp_w1 : Z;
  cp_w2 : Z;
  cp_w3 : Z;
}.
Record vscp_vec := mk_vscp_vec {
  v_from : Z;
  v_to : Z;
  v_gid : Z;
  v_offset : Z;
  v_addr : Z;
  v_bytes : Z;
}.

(** What the [m_ptr] argument of a send designates. *)
Inductive msgref : Type :=
| UserPtr (a : Z)
| KernMsg (m : message).

(** ** Processes *)

(** [struct stackframe_s]. *)
Record stackframe := mk_stackframe {
  gs : Z; fs : Z; es : Z; ds : Z;
  di : Z; si : Z; fp : Z; st : Z; bx : Z; dx : Z; cx : Z;
  retreg : Z; retadr : Z; pc : Z; cs : Z; psw : Z; sp : Z; ss : Z;
}.
#[export] Instance settable_stackframe : Settable stackframe := λ r,
  mk_stackframe (gs r) (fs r) (es r) (ds r) (di r) (si r) (fp r) (st r) (bx r) (dx r) (cx r)
    (retreg r) (retadr r) (pc r) (cs r) (psw r) (sp r) (ss r).

Record accounting := mk_accounting {
  enter_queue : Z;
  time_in_queue : Z;
  dequeues : Z;
  ipc_sync : Z;
  ipc_async : Z;
  preempted : Z;
}.
#[export] Instance settable_accounting : Settable accounting := λ r,
  mk_accounting (enter_queue r) (time_in_queue r) (dequeues r) (ipc_sync r) (ipc_async r)
    (preempted r).

(** The part of [struct proc] that hardening adds (timing statistics left out). *)
Record hproc := mk_hproc {
  p_lus1_us2 : option Z;
  p_lus1_us2_size : Z;
  p_workingset_size : Z;
  p_hflags : Z;
  p_remaining_ins : Z;
  p_ins_first : Z;
  p_ins_secnd : Z;
  p_ins_last : Z;
  p_start_count_ins : Z;
  p_hardening_mem_events : option Z;
  p_nb_hardening_mem_events : Z;
  p_hardening_shared_regions : option Z;
  p_nb_hardening_shared_regions : Z;
  p_nb_nmi : Z;
  p_nb_pe : Z;
  p_nb_abort : Z;
  p_nb_ss : Z;
  p_nb_dwc_d_f : Z;
  p_nb_inj_fault : Z;
  p_nb_exception_d_f : Z;
  p_sig_delay : Z;
}.
#[export] Instance settable_hproc : Settable hproc := λ r,
  mk_hproc (p_lus1_us2 r) (p_lus1_us2_size r) (p_workingset_size r) (p_hflags r)
    (p_remaining_ins r) (p_ins_first r) (p_ins_secnd r) (p_ins_last r) (p_start_count_ins r) (p_hardening_mem_events r)
    (p_nb_hardening_mem_events r) (p_hardening_shared_regions r)
    (p_nb_hardening_shared_regions r) (p_nb_nmi r) (p_nb_pe r) (p_nb_abort r) (p_nb_ss r)
    (p_nb_dwc_d_f r) (p_nb_inj_fault r) (p_nb_exception_d_f r) (p_sig_delay r).

(** [p_vmrequest]: what a process suspended on VM was doing. *)
Record vmreq := mk_vmreq {
  nextrestart : option Z;
  nextrequestor : option Z;
  vmtype : Z;
  reqmsg : message;
  req_type : Z;
  target : Z;
  check_start : Z;
  check_length : Z;
  check_writeflag : Z;
  vmresult : Z;
}.
#[export] Instance settable_vmreq : Settable vmreq := λ r,
  mk_vmreq (nextrestart r) (nextrequestor r) (vmtype r) (reqmsg r) (req_type r) (target r)
    (check_start r) (check_length r) (check_writeflag r) (vmresult r).

Record proc := mk_proc {
  p_reg : stackframe;
  p_cr3 : Z;                     (* p_seg.p_cr3 *)
  p_cr3_v : Z;                   (* p_seg.p_cr3_v, where the kernel sees the page directory *)
  p_kern_trap_style : Z;         (* p_seg.p_kern_trap_style *)
  p_nr : Z;
  p_priv : option Z;
  p_rts_flags : Z;
  p_misc_flags : Z;
  p_priority : Z;
  p_cpu_time_left : Z;
  p_quantum_size_ms : Z;
  p_scheduler : option Z;
  p_accounting : accounting;
  p_user_time : Z;
  p_sys_time : Z;
  p_virt_left : Z;
  p_prof_left : Z;
  p_cycles : Z;
  p_kcall_cycles : Z;
  p_kipc_cycles : Z;
  p_nextready : option Z;
  p_caller_q : option Z;
  p_q_link : option Z;
  p_getfrom_e : Z;
  p_sendto_e : Z;
  p_pending : Z;
  p_endpoint : Z;
  p_sendmsg : message;
  p_delivermsg : message;
  p_delivermsg_vir : Z;
  p_vmrequest : vmreq;
  p_defer : Z * Z * Z;
  p_h : hproc;
}.
#[export] Instance settable_proc : Settable proc := λ r,
  mk_proc (p_reg r) (p_cr3 r) (p_cr3_v r) (p_kern_trap_style r) (p_nr r) (p_priv r) (p_rts_flags r)
    (p_misc_flags r) (p_priority r) (p_cpu_time_left r) (p_quantum_size_ms r) (p_scheduler r)
    (p_accounting r) (p_user_time r) (p_sys_time r) (p_virt_left r) (p_prof_left r)
    (p_cycles r) (p_kcall_cycles r) (p_kipc_cycles r) (p_nextready r) (p_caller_q r)
    (p_q_link r) (p_getfrom_e r) (p_sendto_e r) (p_pending r) (p_endpoint r) (p_sendmsg r)
    (p_delivermsg r) (p_delivermsg_vir r) (p_vmrequest r)
    (p_defer r) (p_h r).

(** ** Privilege structures *)

(** A [sys_map_t] is an array of 32-bit chunks. *)
Definition sys_map : Type := Z → Z.

Record priv := mk_priv {
  s_proc_nr : Z;
  s_id : Z;
  s_flags : Z;
  s_asyntab : Z;
  s_asynsize : Z;
  s_trap_mask : Z;
  s_ipc_to : sys_map;
  s_k_call_mask : sys_map;
  s_sig_mgr : Z;
  s_bak_sig_mgr : Z;
  s_notify_pending : sys_map;
  s_asyn_pending : sys_map;
  s_int_pending : Z;
  s_sig_pending : Z;
  s_io_tab : list (Z * Z);       (* the first s_nr_io_range entries *)
  s_mem_tab : list (Z * Z);      (* the first s_nr_mem_range entries *)
  s_irq_tab : list Z;            (* the first s_nr_irq entries *)
  s_grant_table : Z;
  s_grant_entries : Z;
}.
#[export] Instance settable_priv : Settable priv := λ r,
  mk_priv (s_proc_nr r) (s_id r) (s_flags r) (s_asyntab r) (s_asynsize r) (s_trap_mask r)
    (s_ipc_to r) (s_k_call_mask r) (s_sig_mgr r) (s_bak_sig_mgr r) (s_notify_pending r)
    (s_asyn_pending r) (s_int_pending r) (s_sig_pending r) (s_io_tab r) (s_mem_tab r) (s_irq_tab r) (s_grant_table r)
    (s_grant_entries r).

(** ** Hardening globals (kernel/glo.h) and tables (kernel/arch/i386/htype.h) *)

(** A page of the working set: its virtual address and its three frames. *)
Record pram_mem_block := mk_pmb {
  pmb_id : Z;
  pmb_flags : Z;
  pmb_iflags : Z;
  vaddr : Z;
  us0 : Z;
  us1 : Z;
  us2 : Z;
  next_pmb : option Z;
}.
#[export] Instance settable_pmb : Settable pram_mem_block := λ r,
  mk_pmb (pmb_id r) (pmb_flags r) (pmb_iflags r) (vaddr r) (us0 r) (us1 r) (us2 r) (next_pmb r).

Record hardening_mem_event := mk_hme {
  hme_id : Z;
  hme_flags : Z;
  addr_base : Z;
  nbytes : Z;
  npages : Z;
  next_hme : option Z;
}.
#[export] Instance settable_hme : Settable hardening_mem_event := λ r,
  mk_hme (hme_id r) (hme_flags r) (addr_base r) (nbytes r) (npages r) (next_hme r).

(** Memory regions that hardened processes share, and the processes that share one. *)
Record hardening_shared_proc := mk_hsp {
  hsp_endpoint : Z;
  hsp_flags : Z;
  hsp_id : Z;
  next_hsp : option Z;
}.
#[export] Instance settable_hsp : Settable hardening_shared_proc := λ r,
  mk_hsp (hsp_endpoint r) (hsp_flags r) (hsp_id r) (next_hsp r).
Record hardening_shared_region := mk_hsr {
  hsr_id : Z;
  hsr_flags : Z;
  r_id : Z;
  hsr_vaddr : Z;
  hsr_length : Z;
  next_hsr : option Z;
  r_hsp : option Z;
  n_hsp : Z;
}.
#[export] Instance settable_hsr : Settable hardening_shared_region := λ r,
  mk_hsr (hsr_id r) (hsr_flags r) (r_id r) (hsr_vaddr r) (hsr_length r) (next_hsr r) (r_hsp r) (n_hsp r).

(** The registers the assembly entry code leaves in globals ([eax_s], ...). *)
Record kregs := mk_kregs {
  eax_s : Z; ebx_s : Z; ecx_s : Z; edx_s : Z; esi_s : Z; edi_s : Z; esp_s : Z; ebp_s : Z;
}.
#[export] Instance kregs_eq_dec : EqDecision kregs.
Proof. solve_decision. Defined.

(** Control registers. *)
Record cregs := mk_cregs { cr0 : Z; cr2 : Z; cr3 : Z; cr4 : Z }.
#[export] Instance settable_cregs : Settable cregs := λ r,
  mk_cregs (cr0 r) (cr2 r) (cr3 r) (cr4 r).
#[export] Instance cregs_eq_dec : EqDecision cregs.
Proof. solve_decision. Defined.

(** What [save_copy_0] keeps of a process before the first run. *)
Record copy0 := mk_copy0 {
  c0_regs : stackframe;
  c0_trap_style : Z;
  c0_rts_flags : Z;
  c0_cpu_time_left : Z;
  c0_cr : cregs;
}.

(** What [save_copy_1] and [save_copy_2] keep at the end of a run. *)
Record copy12 := mk_copy12 {
  c_regs : stackframe;
  c_trap_style : Z;
  c_origin : Z;
  c_kregs : kregs;
  c_cr : cregs;
}.

Record hglobals := mk_hglobals {
  h_enable : Z;
  h_step : Z;
  h_step_back : Z;
  h_proc_nr : Z;
  h_do_sys_call : Z;
  h_do_nmi : Z;
  vm_should_run : Z;
  pe_should_run : Z;
  h_restore : Z;
  h_wait_vm_reply : Z;
  h_unstable_state : Z;
  h_normal_pf : Z;
  h_pf_handle_by_k : Z;
  h_rw : Z;
  h_stop_pe : Z;
  h_exception : Z;
  h_ss_mode : Z;
  h_can_start_hardening : Z;
  h_inject_fault : Z;
  could_inject : Z;
  id_current_pe : Z;
  pagefault_addr_1 : Z;
  pagefault_addr_2 : Z;
  first_run_ins : Z;
  secnd_run_ins : Z;
  nbpe : Z;
  nbpe_f : Z;
  nb_injected_faults : Z;
  nb_nmi : Z;
  origin_syscall : Z;
  gpr_bit_id : Z;                (* static in inject_error_in_gpregs *)
  kregs_s : kregs;
  copy_0 : copy0;
  copy_1 : copy12;
  copy_2 : copy12;
}.
#[export] Instance settable_hglobals : Settable hglobals := λ r,
  mk_hglobals (h_enable r) (h_step r) (h_step_back r) (h_proc_nr r) (h_do_sys_call r)
    (h_do_nmi r) (vm_should_run r) (pe_should_run r) (h_restore r) (h_wait_vm_reply r)
    (h_unstable_state r) (h_normal_pf r) (h_pf_handle_by_k r) (h_rw r) (h_stop_pe r)
    (h_exception r) (h_ss_mode r) (h_can_start_hardening r) (h_inject_fault r) (could_inject r)
    (id_current_pe r) (pagefault_addr_1 r) (pagefault_addr_2 r) (first_run_ins r)
    (secnd_run_ins r) (nbpe r) (nbpe_f r) (nb_injected_faults r) (nb_nmi r) (origin_syscall r)
    (gpr_bit_id r)
    (kregs_s r) (copy_0 r) (copy_1 r) (copy_2 r).

(** ** The kernel state *)

(** ** Interrupt hooks (kernel/type.h) *)

(** What a [handler] field points to: [generic_handler] of do_irqctl.c, or a handler of the
    kernel itself. *)
Inductive irq_handler_t : Type :=
| H_generic
| H_kernel (f : Z).

Record irq_hook := mk_irq_hook {
  hk_next : option Z;
  hk_handler : irq_handler_t;
  hk_irq : Z;
  hk_id : Z;                     (* one bit, as an unsigned word *)
  hk_proc_nr_e : Z;
  hk_notify_id : Z;
  hk_policy : Z;
}.
#[export] Instance settable_irq_hook : Settable irq_hook := λ r,
  mk_irq_hook (hk_next r) (hk_handler r) (hk_irq r) (hk_id r) (hk_proc_nr_e r) (hk_notify_id r) (hk_policy r).

Record kstate := mk_kstate {
  proctab : Z → proc;
  privtab : Z → priv;
  run_q_head : Z → option Z;
  run_q_tail : Z → option Z;
  proc_ptr : Z;
  ptproc : Z;                    (* whose page table is loaded *)
  bill_ptr : Z;
  uptime : Z;                    (* realtime of kernel/clock.c *)
  tsc : Z;                       (* what the time stamp counter reads *)
  tsc_per_ms : Z;
  cpu_last_tsc : Z;
  cpu_last_idle : Z;
  tsc_ctr_switch : Z;
  ins_ctr : Z;                   (* what the retirement counter reads *)
  ins_ctr_on : bool;             (* the retirement counter counts *)
  ins_ctr_switch : Z;
  ovf_pmc0 : bool;               (* INTEL_OVF_PMC0 in INTEL_PERF_GLOBAL_STATUS *)
  kbill_ipc : option Z;
  kbill_kcall : option Z;
  vmrequest : option Z;          (* head of the list of requests to VM *)
  minix_kerninfo_user : Z;
  umsg : Z → Z → option message;
  uasyn : Z → Z → option asynmsg;
  ugrant : Z → Z → option cp_grant;
  uvscp : Z → Z → option vscp_vec;
  uwr : Z → Z → bool;            (* may be written *)
  kh : hglobals;
  cpu_cr : cregs;
  phys : Z → Z;                  (* physical memory, by address of a 32-bit word *)
  working_set : Z → pram_mem_block;
  hardening_mem_events : Z → hardening_mem_event;
  hardening_shared_regions : Z → hardening_shared_region;
  hardening_shared_procs : Z → hardening_shared_proc;
  all_hsr_s : option Z;
  all_hsp_s : option Z;
  n_hsrs : Z;
  n_hsps : Z;
  irq_hooks : Z → irq_hook;      (* by pointer: the table irq_hooks[] is [0 .. NR_IRQ_HOOKS-1] *)
  irq_handlers : Z → option Z;   (* the first hook of a line *)
  irq_actids : Z → Z;            (* identifiers of the hooks that are active on a line *)
  int_ctlmask : Z;               (* mask registers of the two interrupt controllers *)
  int2_ctlmask : Z;
}.
#[export] Instance settable_kstate : Settable kstate := λ r,
  mk_kstate (proctab r) (privtab r) (run_q_head r) (run_q_tail r) (proc_ptr r) (ptproc r) (bill_ptr r)
    (uptime r) (tsc r) (tsc_per_ms r) (cpu_last_tsc r) (cpu_last_idle r)
    (tsc_ctr_switch r) (ins_ctr r) (ins_ctr_on r) (ins_ctr_switch r) (ovf_pmc0 r) (kbill_ipc r)
    (kbill_kcall r) (vmrequest r) (minix_kerninfo_user r) (umsg r) (uasyn r) (ugrant r) (uvscp r) (uwr r) (kh r) (cpu_cr r) (phys r) (working_set r)
    (hardening_mem_events r) (hardening_shared_regions r) (hardening_shared_procs r) (all_hsr_s r)
    (all_hsp_s r) (n_hsrs r) (n_hsps r) (irq_hooks r) (irq_handlers r) (irq_actids r) (int_ctlmask r) (int2_ctlmask r).

Definition K (A : Type) : Type := M kstate A.

(** Running kernel code step by step. *)
Lemma run_assert {A} (b : kstate → bool) msg (m : K A) k :
  b k = true → (assert_ b msg;; m) k = m k.
Proof. unfold mbind, M_bind, assert_. by intros ->. Qed.
Lemma run_gets {A B} (f : kstate → A) (g : A → K B) k : (gets f ≫= g) k = g (f k) k.
Proof. done. Qed.
Lemma run_modify {B} (f : kstate → kstate) (g : unit → K B) k : (modify f ≫= g) k = g () (f k).
Proof. done. Qed.
Lemma run_bind {A B} (m : K A) (g : A → K B) k a k' : m k = Ret (a, k') → (m ≫= g) k = g a k'.
Proof. unfold mbind, M_bind. by intros ->. Qed.

(** [proc_addr(n)->f = ...] and [priv_addr(i)->f = ...]. *)
Definition upd_proc (n : Z) (f : proc → proc) (k : kstate) : kstate :=
  k <| proctab ::= λ t, upd t n (f (t n)) |>.
Definition upd_priv (i : Z) (f : priv → priv) (k : kstate) : kstate :=
  k <| privtab ::= λ t, upd t i (f (t i)) |>.
Definition modify_proc (n : Z) (f : proc → proc) : K unit := modify (upd_proc n f).
Definition modify_priv (i : Z) (f : priv → priv) : K unit := modify (upd_priv i f).
Definition modify_h (f : hglobals → hglobals) : K unit := modify (λ k, k <| kh ::= f |>).

(** [priv(rp)] dereferenced: the structure a process points to. *)
Definition priv_id (k : kstate) (n : Z) : Z := default IDLE_PRIV (p_priv (proctab k n)).
Definition priv_of (k : kstate) (n : Z) : priv := privtab k (priv_id k n).

(** ** Macros of kernel/proc.h and kernel/ipc.h *)

Definition proc_nrs : list Z := seqZ (- NR_TASKS) (NR_TASKS + NR_PROCS).

Definition rts_f_is_runnable (flg : Z) : bool := flg =? 0.
Definition proc_is_runnable (k : kstate) (n : Z) : bool := rts_f_is_runnable (p_rts_flags (proctab k n)).
Definition proc_is_preempted (k : kstate) (n : Z) : bool := has (p_rts_flags (proctab k n)) RTS_PREEMPTED.
Definition proc_kernel_scheduler (k : kstate) (n : Z) : bool :=
  match p_scheduler (proctab k n) with
  | None => true
  | Some s => s =? n
  end.
Definition RTS_ISSET (k : kstate) (n f : Z) : bool := isset (p_rts_flags (proctab k n)) f.

Definition P_BLOCKEDON (k : kstate) (n : Z) : Z :=
  if has (p_rts_flags (proctab k n)) RTS_SENDING then p_sendto_e (proctab k n)
  else if has (p_rts_flags (proctab k n)) RTS_RECEIVING then p_getfrom_e (proctab k n)
  else NONE.

Definition WILLRECEIVE (k : kstate) (target source_ep : Z) : bool :=
  RTS_ISSET k target RTS_RECEIVING && negb (RTS_ISSET k target RTS_SENDING) &&
  ((p_getfrom_e (proctab k target) =? ANY) || (p_getfrom_e (proctab k target) =? source_ep)).

(** [(unsigned) ((n) + NR_TASKS) < NR_PROCS + NR_TASKS]. *)
Definition isokprocn (n : Z) : bool := u32 (n + NR_TASKS) <? NR_PROCS + NR_TASKS.
Definition isemptyp (k : kstate) (n : Z) : bool := p_rts_flags (proctab k n) =? RTS_SLOT_FREE.
Definition iskerneln (n : Z) : bool := n <? 0.

Definition IPC_STATUS_CALL_TO (call : Z) : Z := Z.land call 0x3F.
Definition IPC_STATUS_FLAGS (flgs : Z) : Z := Z.shiftl flgs 16.
(** [IPC_STATUS_ADD]: the status register is [bx]; SENDREC does not touch it. *)
Definition IPC_STATUS_ADD (m : Z) (p : proc) : proc :=
  if has (p_misc_flags p) MF_REPLY_PEND then p
  else p <| p_reg ::= λ r, r <| bx ::= set_flag m |> |>.
Definition IPC_STATUS_ADD_CALL (call : Z) : proc → proc := IPC_STATUS_ADD (IPC_STATUS_CALL_TO call).
Definition IPC_STATUS_ADD_FLAGS (flgs : Z) : proc → proc := IPC_STATUS_ADD (IPC_STATUS_FLAGS flgs).
Definition IPC_STATUS_CLEAR (p : proc) : proc := p <| p_reg ::= λ r, r <| bx := 0 |> |>.

Definition BLOCKED_FUEL : nat := 262.  (* NR_TASKS + NR_PROCS + 1 *)
Arguments BLOCKED_FUEL : simpl never.

(** ** Bit maps over privilege ids (kernel/const.h, include/minix/bitmap.h) *)

Definition get_sys_bits (m : sys_map) (b : Z) : Z := m (b / BITCHUNK_BITS).
Definition get_sys_bit (m : sys_map) (b : Z) : bool :=
  has (get_sys_bits m b) (Z.shiftl 1 (b mod BITCHUNK_BITS)).
Definition set_sys_bit (b : Z) (m : sys_map) : sys_map :=
  upd m (b / BITCHUNK_BITS) (set_flag (Z.shiftl 1 (b mod BITCHUNK_BITS)) (get_sys_bits m b)).
Definition unset_sys_bit (b : Z) (m : sys_map) : sys_map :=
  upd m (b / BITCHUNK_BITS) (clear_flag (Z.shiftl 1 (b mod BITCHUNK_BITS)) (get_sys_bits m b)).

Definition id_to_nr (k : kstate) (id : Z) : Z := s_proc_nr (privtab k id).
Definition nr_to_id (k : kstate) (nr : Z) : Z := s_id (priv_of k nr).
Definition may_send_to (k : kstate) (rp nr : Z) : bool :=
  get_sys_bit (s_ipc_to (priv_of k rp)) (nr_to_id k nr).

(** ** A machine on which concrete runs start: every slot is free *)

Definition regs0 : stackframe := mk_stackframe 0 0 0 0 0 0 0 0 0 0 0 0 0 0 0 0 0 0.
Definition acct0 : accounting := mk_accounting 0 0 0 0 0 0.
Definition hproc0 : hproc := mk_hproc None 0 0 0 0 0 0 0 0 None 0 None 0 0 0 0 0 0 0 0 0.
Definition msg0 : message := mk_message NONE 0 [].
Definition vmreq0 : vmreq := mk_vmreq None None 0 msg0 0 0 0 0 0 0.
Definition proc0 (n : Z) : proc :=
  mk_proc regs0 0 0 0 n None RTS_SLOT_FREE 0 0 0 0 None acct0 0 0 0 0 0 0 0 None None None NONE NONE
    0 n msg0 msg0 0 vmreq0 (0, 0, 0) hproc0.
Definition map0 : sys_map := λ _, 0.
Definition priv0 (i : Z) : priv :=
  mk_priv NONE i 0 (-1) 0 0 map0 map0 NONE NONE map0 map0 0 0 [] [] [] 0 0.
Definition pmb0 : pram_mem_block := mk_pmb 0 0 0 0 0 0 0 None.
Definition hme0 : hardening_mem_event := mk_hme 0 0 0 0 0 None.
Definition hsr0 : hardening_shared_region := mk_hsr 0 0 0 0 0 None None 0.
Definition hsp0 : hardening_shared_proc := mk_hsp 0 0 0 None.
Definition cregs0 : cregs := mk_cregs 0 0 0 0.
Definition kregs0 : kregs := mk_kregs 0 0 0 0 0 0 0 0.
Definition copy0_0 : copy0 := mk_copy0 regs0 0 0 0 cregs0.
Definition copy12_0 : copy12 := mk_copy12 regs0 0 0 kregs0 cregs0.
Definition hglobals0 : hglobals :=
  mk_hglobals 0 0 0 0 0 0 0 0 0 0 0 0 0 0 0 0 0 0 0 0 0 0 0 0 0 0 0 0 0 0 0 kregs0 copy0_0
    copy12_0 copy12_0.
(** A hook as [system_init] leaves it. *)
Definition irq_hook0 : irq_hook := mk_irq_hook None H_generic 0 0 NONE 0 0.
Definition k0 : kstate :=
  mk_kstate proc0 priv0 (λ _, None) (λ _, None) IDLE_PTR IDLE_PTR IDLE_PTR 0 0 1000 0 0 0 0 false 0 false None None None 0
    (λ _ _, None) (λ _ _, None) (λ _ _, None) (λ _ _, None) (λ _ _, true) hglobals0 cregs0 (λ _, 0) (λ _, pmb0) (λ _, hme0)
    (λ _, hsr0) (λ _, hsp0) None None 0 0 (λ _, irq_hook0) (λ _, None) (λ _, 0) 0xFB 0xFF.

(** ** Lemmas on messages and bit maps *)

Lemma m_word_set i v m : m_word i (set_m_word i v m) = v.
Proof.
  unfold m_word, set_m_word. simpl. rewrite list_lookup_insert_eq; [done|].
  rewrite length_app, length_replicate. lia.
Qed.
Lemma m_word_set_ne i j v m : i ≠ j → m_word i (set_m_word j v m) = m_word i m.
Proof.
  intros Hij. unfold m_word, set_m_word. simpl. rewrite list_lookup_insert_ne by done.
  destruct (decide (i < length (m_payload m))%nat) as [Hl|Hl].
  - by rewrite lookup_app_l.
  - rewrite lookup_app_r by lia. rewrite (lookup_ge_None_2 (m_payload m) i) by lia.
    destruct (replicate _ _ !! _) eqn:E; [|done]. by apply lookup_replicate in E as [-> _].
Qed.

Section sys_bits.
Context (m : sys_map) (b : Z) (Hb : 0 ≤ b).

Lemma sys_bit_testbit : get_sys_bit m b = Z.testbit (m (b / BITCHUNK_BITS)) (b mod BITCHUNK_BITS).
Proof using Hb.
  unfold get_sys_bit, get_sys_bits. pose proof (Z.mod_pos_bound b BITCHUNK_BITS ltac:(done)).
  rewrite Z.shiftl_1_l. apply has_bit. lia.
Qed.
End sys_bits.

Lemma sys_bit_index b c :
  0 ≤ b → 0 ≤ c → b / BITCHUNK_BITS = c / BITCHUNK_BITS → b mod BITCHUNK_BITS = c mod BITCHUNK_BITS → b = c.
Proof.
  intros. rewrite (Z.div_mod b BITCHUNK_BITS), (Z.div_mod c BITCHUNK_BITS) by done. congruence.
Qed.

Lemma get_set_sys_bit m b c :
  0 ≤ b → 0 ≤ c → get_sys_bit (set_sys_bit b m) c = (b =? c) || get_sys_bit m c.
Proof.
  intros Hb Hc. rewrite !sys_bit_testbit by done. unfold set_sys_bit, get_sys_bits, upd.
  pose proof (Z.mod_pos_bound c BITCHUNK_BITS ltac:(done)).
  pose proof (Z.mod_pos_bound b BITCHUNK_BITS ltac:(done)).
  case_decide as Hq.
  - rewrite set_flag_bit, Hq, Z.shiftl_1_l.
    rewrite orb_comm. f_equal. destruct (Z.eqb_spec b c) as [->|Hne]; [rewrite Z.pow2_bits_true by lia; done|].
    apply Z.pow2_bits_false. intros Hm. apply Hne. by apply sys_bit_index.
  - destruct (Z.eqb_spec b c) as [->|]; done.
Qed.

Lemma get_unset_sys_bit m b c :
  0 ≤ b → 0 ≤ c → get_sys_bit (unset_sys_bit b m) c = negb (b =? c) && get_sys_bit m c.
Proof.
  intros Hb Hc. rewrite !sys_bit_testbit by done. unfold unset_sys_bit, get_sys_bits, upd.
  pose proof (Z.mod_pos_bound c BITCHUNK_BITS ltac:(done)).
  pose proof (Z.mod_pos_bound b BITCHUNK_BITS ltac:(done)).
  case_decide as Hq.
  - rewrite clear_flag_bit, Hq, Z.shiftl_1_l by lia.
    rewrite andb_comm. f_equal. destruct (Z.eqb_spec b c) as [->|Hne]; [rewrite Z.pow2_bits_true by lia; done|].
    rewrite Z.pow2_bits_false; [done|]. intros Hm. apply Hne. by apply sys_bit_index.
  - destruct (Z.eqb_spec b c) as [->|]; done.
Qed.
