(* ===== verification/Endpoint.v ===== *)
(** * Endpoints (include/minix/endpoint.h, [isokendpt_f] and [endpoint_lookup] of kernel/proc.c)

    An endpoint packs a slot number and a generation number; the kernel accepts it only
    while the slot holds a process of that generation.  The arithmetic is the 32-bit signed
    one of the macros: user code may pass any word as an endpoint. *)
From S2P Require Import Prelude Kernel.

Definition INT_MAX : Z := 2 ^ 31 - 1.
Definition ENDPOINT_GENERATION_SIZE : Z := MAX_NR_TASKS + MAX_MAGIC_PROC + 1.
Definition ENDPOINT_MAX_GENERATION : Z := Z.quot INT_MAX ENDPOINT_GENERATION_SIZE - 1.

Definition ENDPOINT (g p : Z) : Z := i32 (g * ENDPOINT_GENERATION_SIZE + p).
Definition ENDPOINT_G (e : Z) : Z := Z.quot (i32 (e + MAX_NR_TASKS)) ENDPOINT_GENERATION_SIZE.
Definition ENDPOINT_P (e : Z) : Z :=
  Z.rem (i32 (e + MAX_NR_TASKS)) ENDPOINT_GENERATION_SIZE - MAX_NR_TASKS.

(** [isokendpt(e, &p)]: the slot, when the conversion succeeds. *)
Definition isokendpt (k : kstate) (e : Z) : option Z :=
  let p := ENDPOINT_P e in
  if isokprocn p && negb (isemptyp k p) && (p_endpoint (proctab k p) =? e) then Some p else None.

Definition isokendpt_f (e : Z) (fatalflag : bool) : K (option Z) :=
  ok ← gets (λ k, isokendpt k e);
  match ok with
  | Some p => mret (Some p)
  | None => if fatalflag then panic "invalid endpoint" else mret None
  end.

(** [okendpt(e, &p)]: the fatal variant. *)
Definition okendpt (e : Z) : K Z :=
  r ← isokendpt_f e true;
  match r with Some p => mret p | None => panic "unreachable" end.

Definition endpoint_lookup (e : Z) : K (option Z) := isokendpt_f e false.

(** ** Slots and endpoints of a process table *)

Definition valid_slot (n : Z) : Prop := - NR_TASKS ≤ n < NR_PROCS.

(** Every slot carries an endpoint of its own, of some generation. *)
Definition endpoints_wf (k : kstate) : Prop :=
  ∀ n, valid_slot n → ENDPOINT_P (p_endpoint (proctab k n)) = n.

Lemma isokprocn_spec n : - 2 ^ 31 ≤ n < 2 ^ 31 - NR_TASKS → isokprocn n = true ↔ valid_slot n.
Proof.
  intros Hn. unfold isokprocn, valid_slot, NR_TASKS, NR_PROCS in *.
  rewrite Z.ltb_lt. unfold u32.
  destruct (decide (- 5 ≤ n)).
  - rewrite Z.mod_small by lia. lia.
  - replace (n + 5) with (n + 5 + 2 ^ 32 + (-1) * 2 ^ 32) by lia.
    rewrite Z.mod_add, Z.mod_small by lia. lia.
Qed.

Lemma elem_of_proc_nrs n : n ∈ proc_nrs ↔ valid_slot n.
Proof.
  unfold proc_nrs, valid_slot. rewrite elem_of_seqZ. unfold NR_TASKS, NR_PROCS. lia.
Qed.

Lemma ENDPOINT_P_range e : - 2 ^ 31 ≤ ENDPOINT_P e < 2 ^ 31 - NR_TASKS.
Proof.
  unfold ENDPOINT_P. set (x := i32 _). pose proof (i32_range (e + MAX_NR_TASKS)) as Hx. fold x in Hx.
  assert (- 36558 < Z.rem x ENDPOINT_GENERATION_SIZE < 36558).
  { change ENDPOINT_GENERATION_SIZE with 36558.
    pose proof (Z.rem_bound_abs x 36558). lia. }
  unfold MAX_NR_TASKS, NR_TASKS. lia.
Qed.

Lemma isokendpt_Some k e p :
  isokendpt k e = Some p ↔
  valid_slot p ∧ isemptyp k p = false ∧ p_endpoint (proctab k p) = e ∧ ENDPOINT_P e = p.
Proof.
  unfold isokendpt. pose proof (isokprocn_spec _ (ENDPOINT_P_range e)) as Hok.
  split.
  - case_bool; [|done]. intros [= <-].
    apply andb_prop in Heqb as [[H1 H2]%andb_prop H3].
    rewrite negb_true_iff in H2. apply Z.eqb_eq in H3. by rewrite <-Hok.
  - intros (Hv & He & Hp & Heq). rewrite Heq in *.
    rewrite (proj2 Hok Hv), He. simpl. by rewrite (proj2 (Z.eqb_eq _ _) Hp).
Qed.

Lemma isokendpt_wf k n :
  endpoints_wf k → valid_slot n → isemptyp k n = false →
  isokendpt k (p_endpoint (proctab k n)) = Some n.
Proof. intros Hwf Hv He. apply isokendpt_Some. auto. Qed.

Lemma okendpt_wp e Q k p :
  isokendpt k e = Some p → Q p k → wp (okendpt e) Q k.
Proof.
  intros H HQ. unfold okendpt, isokendpt_f. wp_steps. rewrite H. by wp_steps.
Qed.

Section roundtrip.
Context (g p : Z) (Hg : 0 ≤ g ≤ ENDPOINT_MAX_GENERATION) (Hp : - MAX_NR_TASKS ≤ p ≤ MAX_MAGIC_PROC).

Lemma ENDPOINT_fits : ENDPOINT g p = g * ENDPOINT_GENERATION_SIZE + p.
Proof using Hg Hp.
  unfold ENDPOINT. change ENDPOINT_GENERATION_SIZE with 36558.
  change ENDPOINT_MAX_GENERATION with 58740 in Hg. unfold MAX_NR_TASKS, MAX_MAGIC_PROC, SELF in Hp.
  apply i32_id. lia.
Qed.
Lemma ENDPOINT_split :
  i32 (ENDPOINT g p + MAX_NR_TASKS) = (p + MAX_NR_TASKS) + g * ENDPOINT_GENERATION_SIZE ∧
  0 ≤ p + MAX_NR_TASKS < ENDPOINT_GENERATION_SIZE.
Proof using Hg Hp.
  rewrite ENDPOINT_fits. change ENDPOINT_GENERATION_SIZE with 36558.
  change ENDPOINT_MAX_GENERATION with 58740 in Hg.
  unfold MAX_NR_TASKS, MAX_MAGIC_PROC, SELF in *. rewrite i32_id by lia. lia.
Qed.
Lemma ENDPOINT_P_ENDPOINT : ENDPOINT_P (ENDPOINT g p) = p.
Proof using Hg Hp.
  unfold ENDPOINT_P. destruct ENDPOINT_split as [-> H].
  change ENDPOINT_GENERATION_SIZE with 36558 in *.
  change ENDPOINT_MAX_GENERATION with 58740 in Hg.
  rewrite Z.rem_mod_nonneg, Z.mod_add, Z.mod_small by lia. lia.
Qed.
End roundtrip.

(** ** Properties *)

(** Round trip: a slot number and a generation that fit are recovered from the endpoint
    that packs them, and packing them does not overflow the 32-bit endpoint type. *)
Theorem endpoint_roundtrip g p :
  0 ≤ g ≤ ENDPOINT_MAX_GENERATION → - MAX_NR_TASKS ≤ p ≤ MAX_MAGIC_PROC →
  ENDPOINT_G (ENDPOINT g p) = g ∧ ENDPOINT_P (ENDPOINT g p) = p ∧
  ENDPOINT g p = g * ENDPOINT_GENERATION_SIZE + p.
Proof.
  intros Hg Hp. split; [|split; auto using ENDPOINT_P_ENDPOINT, ENDPOINT_fits].
  unfold ENDPOINT_G. destruct (ENDPOINT_split g p Hg Hp) as [-> H].
  change ENDPOINT_GENERATION_SIZE with 36558 in *.
  change ENDPOINT_MAX_GENERATION with 58740 in Hg.
  rewrite Z.quot_div_nonneg, Z.div_add, Z.div_small by lia. lia.
Qed.

Lemma endpoint_roundtrip_witness :
  ENDPOINT_G (ENDPOINT 58740 (-5)) = 58740 ∧ ENDPOINT_P (ENDPOINT 58740 (-5)) = -5 ∧
  ENDPOINT 58740 (-5) = 58740 * ENDPOINT_GENERATION_SIZE + -5.
Proof. apply (endpoint_roundtrip 58740 (-5)); vm_compute; split; discriminate. Defined.

(** [isokendpt] is exact on a well-formed table: it accepts a word [e] with slot [p] iff
    [p] is the slot of a process in use whose endpoint is [e].  So every process in use is
    found by its endpoint, an endpoint names at most one process, an endpoint of an earlier
    generation of a slot is refused, and the magic numbers ANY, NONE and SELF never name a
    process, whatever the table holds; the fatal variant panics exactly when the other one
    refuses. *)
Theorem isokendpt_exact k :
  endpoints_wf k →
  (∀ e p, isokendpt k e = Some p ↔
     valid_slot p ∧ isemptyp k p = false ∧ p_endpoint (proctab k p) = e) ∧
  (∀ e, isokendpt_f e true k =
     match isokendpt k e with Some p => Ret (Some p, k) | None => Panic "invalid endpoint" end) ∧
  isokendpt k ANY = None ∧ isokendpt k NONE = None ∧ isokendpt k SELF = None.
Proof.
  intros Hwf. split_and!; [| |done..].
  - intros e p. rewrite isokendpt_Some. naive_solver.
  - intros e. unfold isokendpt_f, gets, mbind, M_bind. by destruct (isokendpt k e).
Qed.

Definition endpoint_demo (k : kstate) : kstate :=
  k <| proctab := λ n, proctab k n <| p_endpoint := ENDPOINT 3 n |> <| p_rts_flags := 0 |> |>.
Lemma isokendpt_exact_witness :
  isokendpt (endpoint_demo k0) (ENDPOINT 3 8) = Some 8 ∧
  isokendpt (endpoint_demo k0) (ENDPOINT 2 8) = None.
Proof.
  assert (endpoints_wf (endpoint_demo k0)) as Hwf.
  { intros n Hn. unfold valid_slot, NR_TASKS, NR_PROCS in Hn.
    apply (ENDPOINT_P_ENDPOINT 3 n); [vm_compute; split; discriminate|].
    unfold MAX_NR_TASKS, MAX_MAGIC_PROC, SELF. lia. }
  destruct (isokendpt_exact (endpoint_demo k0) Hwf) as (He & _).
  split; [by apply He|done].
Defined.
