(* ===== verification/Sched.v ===== *)
(** * Run queues and scheduling (kernel/proc.c, kernel/proc.h, kernel/debug.c, kernel/system.c)

    The ready processes of each of the [NR_SCHED_QUEUES] priorities form a singly linked list
    through [p_nextready], with a head and a tail pointer per priority.  [enqueue],
    [enqueue_head] and [dequeue] edit these lists; the macros [RTS_SET], [RTS_UNSET] and
    [RTS_SETFLAGS] keep them in step with the run-time flags.

    The specification is a function [Q] from priorities to lists of processes: [runq k Q]
    says that the pointers represent [Q], and [sched_rel k Q] that, in addition, exactly the
    runnable processes are queued, each in the queue of its priority.

    [assert(proc_ptr_ok(rp))] and the kernel-stack guard that [dequeue] asserts check for
    memory corruption and are not modelled.  An index outside the run-queue arrays panics. *)
From S2P Require Import Prelude LinkedList Kernel Endpoint.

(** ** Operations *)

Definition check_queue (q : Z) : K unit :=
  assert_ (λ _, (0 <=? q) && (q <? NR_SCHED_QUEUES)) "run_q index out of bounds".

Definition set_run_q_head (q : Z) (v : option Z) : kstate → kstate :=
  λ k, k <| run_q_head ::= λ h, upd h q v |>.
Definition set_run_q_tail (q : Z) (v : option Z) : kstate → kstate :=
  λ k, k <| run_q_tail ::= λ h, upd h q v |>.
Definition set_nextready (n : Z) (v : option Z) : kstate → kstate :=
  upd_proc n (λ p, p <| p_nextready := v |>).
Definition nextready (k : kstate) : Z → option Z := λ n, p_nextready (proctab k n).

(** [*xpp = v] for a cell of run queue [q]. *)
Definition write_run_cell (q : Z) (c : cell Z) (v : option Z) : kstate → kstate :=
  match c with
  | CHead => set_run_q_head q v
  | CNext x => set_nextready x v
  end.

(** [prev_xp]: the element whose link the walk stands on. *)
Definition cell_owner (c : cell Z) : option Z :=
  match c with CHead => None | CNext x => Some x end.

Definition modify_acct (n : Z) (f : accounting → accounting) : K unit :=
  modify_proc n (λ p, p <| p_accounting ::= f |>).

(** The accounting that ends [dequeue]. *)
Definition dequeue_account (t : Z) (a : accounting) : accounting :=
  let a := a <| dequeues ::= λ d, u32 (d + 1) |> in
  if enter_queue a =? 0 then a
  else a <| time_in_queue ::= λ x, u64 (x + u64 (t - enter_queue a)) |> <| enter_queue := 0 |>.

Definition dequeue (rp : Z) : K unit :=
  q ← gets (λ k, p_priority (proctab k rp));
  assert_ (λ k, negb (proc_is_runnable k rp)) "dequeue: !proc_is_runnable(rp)";;
  check_queue q;;
  found ← gets (λ k, pp_find BLOCKED_FUEL (nextready k) (run_q_head k q) (λ y, bool_decide (y = rp)) CHead);
  match found with
  | None => panic "dequeue: run queue does not end"
  | Some c =>
      here ← gets (λ k, cell_read (nextready k) (run_q_head k q) c);
      match here with
      | None => mret ()                                   (* not on its queue *)
      | Some _ =>
          next ← gets (λ k, nextready k rp);
          modify (write_run_cell q c next);;
          tail ← gets (λ k, run_q_tail k q);
          if decide (tail = Some rp) then modify (set_run_q_tail q (cell_owner c)) else mret ()
      end
  end;;
  t ← gets tsc;
  modify_acct rp (dequeue_account t).

(** Set flag and dequeue if the process was runnable. *)
Definition RTS_SET (rp f : Z) : K unit :=
  rts ← gets (λ k, p_rts_flags (proctab k rp));
  modify_proc rp (λ p, p <| p_rts_flags ::= set_flag f |>);;
  now ← gets (λ k, proc_is_runnable k rp);
  if rts_f_is_runnable rts && negb now then dequeue rp else mret ().

(** Link [rp] behind the tail of queue [q]. *)
Definition link_tail (q rp : Z) : K unit :=
  head ← gets (λ k, run_q_head k q);
  match head with
  | None =>
      modify (set_run_q_tail q (Some rp));;
      modify (set_run_q_head q (Some rp));;
      modify (set_nextready rp None)
  | Some _ =>
      tail ← gets (λ k, run_q_tail k q);
      match tail with
      | None => panic "rdy_tail[q] is NULL"
      | Some t =>
          modify (set_nextready t (Some rp));;
          modify (set_run_q_tail q (Some rp));;
          modify (set_nextready rp None)
      end
  end.

(** [read_tsc_64(&proc_ptr->p_accounting.enter_queue)]: the stamp goes to the process that
    is running, not to the one that is queued. *)
Definition stamp_enter_queue : K unit :=
  t ← gets tsc;
  p ← gets proc_ptr;
  modify_acct p (λ a, a <| enter_queue := t |>).

Definition preempts (k : kstate) (rp : Z) : bool :=
  (p_priority (proctab k rp) <? p_priority (proctab k (proc_ptr k))) &&
  has (s_flags (priv_of k (proc_ptr k))) PREEMPTIBLE.

Definition enqueue (rp : Z) : K unit :=
  q ← gets (λ k, p_priority (proctab k rp));
  assert_ (λ k, proc_is_runnable k rp) "enqueue: proc_is_runnable(rp)";;
  assert_ (λ _, 0 <=? q) "enqueue: q >= 0";;
  check_queue q;;
  link_tail q rp;;
  p ← gets proc_ptr;
  preempt ← gets (λ k, preempts k rp);
  (if preempt : bool then RTS_SET p RTS_PREEMPTED else mret ());;
  stamp_enter_queue.

(** Link [rp] in front of queue [q]. *)
Definition link_head (q rp : Z) : K unit :=
  head ← gets (λ k, run_q_head k q);
  match head with
  | None =>
      modify (set_run_q_tail q (Some rp));;
      modify (set_run_q_head q (Some rp));;
      modify (set_nextready rp None)
  | Some _ => modify (set_nextready rp head)
  end;;
  modify (set_run_q_head q (Some rp)).

Definition enqueue_head (rp : Z) : K unit :=
  q ← gets (λ k, p_priority (proctab k rp));
  assert_ (λ k, proc_is_runnable k rp) "enqueue_head: proc_is_runnable(rp)";;
  assert_ (λ k, negb (p_cpu_time_left (proctab k rp) =? 0)) "enqueue_head: no time left";;
  assert_ (λ _, 0 <=? q) "enqueue_head: q >= 0";;
  check_queue q;;
  link_head q rp;;
  stamp_enter_queue;;
  modify_acct rp (λ a, a <| dequeues ::= λ d, u32 (d - 1) |> <| preempted ::= λ d, u32 (d + 1) |>).

(** Clear flag and enqueue if the process was not runnable but is now. *)
Definition RTS_UNSET (rp f : Z) : K unit :=
  rts ← gets (λ k, p_rts_flags (proctab k rp));
  modify_proc rp (λ p, p <| p_rts_flags ::= clear_flag f |>);;
  now ← gets (λ k, proc_is_runnable k rp);
  if negb (rts_f_is_runnable rts) && now then enqueue rp else mret ().

(** Set flags to this value. *)
Definition RTS_SETFLAGS (rp f : Z) : K unit :=
  now ← gets (λ k, proc_is_runnable k rp);
  (if now && negb (f =? 0) then dequeue rp else mret ());;
  modify_proc rp (λ p, p <| p_rts_flags := f |>).

Definition ms_2_cpu_time (k : kstate) (ms : Z) : Z := u64 (tsc_per_ms k * ms).
Definition cpu_time_2_ms (k : kstate) (t : Z) : Z := u32 (t / tsc_per_ms k).

Definition reset_proc_accounting (p : Z) : K unit := modify_acct p (λ _, acct0).

(** The guarded [RTS_SET]s of [sched_proc], on a single CPU. *)
Definition sched_stop (p : Z) : K unit :=
  now ← gets (λ k, proc_is_runnable k p);
  (if now : bool then RTS_SET p RTS_NO_QUANTUM else mret ());;
  now ← gets (λ k, proc_is_runnable k p);
  if now : bool then RTS_SET p RTS_NO_QUANTUM else mret ().

(** The assignments of [sched_proc]; [p_priority] is a [char], and the value has been
    checked to fit. *)
Definition sched_set (p priority quantum : Z) : K unit :=
  (if priority =? -1 then mret () else modify_proc p (λ r, r <| p_priority := priority |>));;
  if quantum =? -1 then mret ()
  else t ← gets (λ k, ms_2_cpu_time k quantum);
       modify_proc p (λ r, r <| p_quantum_size_ms := quantum |> <| p_cpu_time_left := t |>).

Definition sched_proc (p priority quantum : Z) : K Z :=
  if ((priority <? TASK_Q) && negb (priority =? -1)) || (NR_SCHED_QUEUES <? priority)
  then mret EINVAL
  else if (quantum <? 1) && negb (quantum =? -1) then mret EINVAL
  else
    sched_stop p;;
    sched_set p priority quantum;;
    RTS_UNSET p RTS_NO_QUANTUM;;
    mret OK.

(** The loop of [pick_proc] over the run queues, from queue [q] on. *)
Fixpoint pick_from (qs : list Z) : K (option Z) :=
  match qs with
  | [] => mret None
  | q :: qs' =>
      head ← gets (λ k, run_q_head k q);
      match head with
      | None => pick_from qs'
      | Some rp =>
          assert_ (λ k, proc_is_runnable k rp) "pick_proc: proc_is_runnable(rp)";;
          billable ← gets (λ k, has (s_flags (priv_of k rp)) BILLABLE);
          (if billable : bool then modify (λ k, k <| bill_ptr := rp |>) else mret ());;
          mret (Some rp)
      end
  end.
Definition sched_queues : list Z := seqZ 0 NR_SCHED_QUEUES.
Definition pick_runq : K (option Z) := pick_from sched_queues.

(** The part of [switch_to_user] that puts a preempted process back. *)
Definition requeue_preempted (p : Z) : K unit :=
  pre ← gets (λ k, proc_is_preempted k p);
  if pre : bool then
    modify_proc p (λ r, r <| p_rts_flags ::= clear_flag RTS_PREEMPTED |>);;
    now ← gets (λ k, proc_is_runnable k p);
    if now : bool then
      left ← gets (λ k, p_cpu_time_left (proctab k p));
      if negb (left =? 0) then enqueue_head p else enqueue p
    else mret ()
  else mret ().

(** *** The consistency check of kernel/debug.c

    [p_found] of the source is the list [found] of the processes seen so far; [l] counts the
    queued processes seen.  [fuel] is one more than [MAX_LOOP + 2], past which the loop
    itself reports an error. *)
Definition MAX_LOOP : Z := NR_PROCS + NR_TASKS.

Definition CHECK_FUEL : nat := 264.
Arguments CHECK_FUEL : simpl never.

Fixpoint check_queue_procs (fuel : nat) (k : kstate) (q : Z) (xp : option Z) (found : list Z) (l : Z)
  : option (list Z * Z) :=
  match fuel with
  | O => None
  | S fuel' =>
      match xp with
      | None => Some (found, l)
      | Some x =>
          if negb (bool_decide (valid_slot x)) then None
          else if RTS_ISSET k x RTS_SLOT_FREE then None
          else if negb (proc_is_runnable k x) then None
          else if negb (p_priority (proctab k x) =? q) then None
          else if bool_decide (x ∈ found) then None
          else if bool_decide (nextready k x = None) && negb (bool_decide (run_q_tail k q = Some x)) then None
          else if MAX_LOOP <? l then None
          else check_queue_procs fuel' k q (nextready k x) (x :: found) (l + 1)
      end
  end.

Definition is_null (x : option Z) : bool := match x with None => true | Some _ => false end.

Fixpoint check_queues (k : kstate) (qs : list Z) (found : list Z) (l : Z) : option (list Z) :=
  match qs with
  | [] => Some found
  | q :: qs' =>
      if negb (is_null (run_q_head k q)) && is_null (run_q_tail k q) then None
      else if is_null (run_q_head k q) && negb (is_null (run_q_tail k q)) then None
      else if match run_q_tail k q with Some t => negb (is_null (nextready k t)) | None => false end then None
      else
        match check_queue_procs CHECK_FUEL k q (run_q_head k q) found l with
        | Some (found', l') => check_queues k qs' found' l'
        | None => None
        end
  end.

Definition runqueues_ok_cpu (k : kstate) : bool :=
  match check_queues k sched_queues [] 0 with
  | None => false
  | Some found =>
      forallb (λ x, isemptyp k x || negb (proc_is_runnable k x && negb (bool_decide (x ∈ found)))) proc_nrs
  end.

(** ** Abstract queues *)

Definition in_range (q : Z) : Prop := 0 ≤ q < NR_SCHED_QUEUES.

Definition aq_append (rp q : Z) (Q : Z → list Z) : Z → list Z := upd Q q (Q q ++ [rp]).
Definition aq_push (rp q : Z) (Q : Z → list Z) : Z → list Z := upd Q q (rp :: Q q).
Definition aq_remove (rp : Z) (Q : Z → list Z) : Z → list Z :=
  λ q, filter (λ n, n ≠ rp) (Q q).

Record runq (k : kstate) (Q : Z → list Z) : Prop := {
  rq_chain : ∀ q, in_range q → chain (nextready k) (run_q_head k q) (Q q) None;
  rq_tail : ∀ q, in_range q → run_q_tail k q = last (Q q);
  rq_prio : ∀ q n, in_range q → n ∈ Q q → p_priority (proctab k n) = q ∧ valid_slot n;
}.

Record sched_rel (k : kstate) (Q : Z → list Z) : Prop := {
  sr_runq : runq k Q;
  sr_runnable : ∀ n, proc_is_runnable k n = true ↔ ∃ q, in_range q ∧ n ∈ Q q;
}.

(** What a scheduling operation leaves alone: everything but the queue pointers, the links,
    the accounting and the run-time flags. *)
Definition core (p : proc) : proc :=
  p <| p_nextready := None |> <| p_accounting := acct0 |> <| p_rts_flags := 0 |>.

Record sched_frame (k k' : kstate) : Prop := {
  sf_rest : k = k' <| proctab := proctab k |> <| run_q_head := run_q_head k |>
                   <| run_q_tail := run_q_tail k |>;
  sf_core : ∀ n, core (proctab k' n) = core (proctab k n);
}.

Definition rts (k : kstate) (n : Z) : Z := p_rts_flags (proctab k n).

(** ** Frames *)

#[export] Instance sched_frame_refl : Reflexive sched_frame.
Proof. intros k. by split; [destruct k|]. Qed.
#[export] Instance sched_frame_trans : Transitive sched_frame.
Proof.
  intros k1 k2 k3 [Hr1 Hc1] [Hr2 Hc2]. split.
  - rewrite Hr1 at 1. rewrite Hr2. done.
  - intros n. by rewrite Hc2.
Qed.

(** Chain the frames of successive operations. *)
Ltac frame_trans :=
  first [ eassumption | reflexivity
        | match goal with H : sched_frame ?k _ |- sched_frame ?k _ => etrans; [exact H|]; frame_trans end ].

Lemma sched_frame_field {A} (f : proc → A) k k' n :
  sched_frame k k' → (∀ p, f (core p) = f p) → f (proctab k' n) = f (proctab k n).
Proof. intros [_ Hc] Hf. by rewrite <-Hf, Hc, Hf. Qed.

Lemma sched_frame_state {A} (f : kstate → A) k k' :
  sched_frame k k' →
  (∀ k t h l, f (k <| proctab := t |> <| run_q_head := h |> <| run_q_tail := l |>) = f k) →
  f k' = f k.
Proof. intros [Hr _] Hf. rewrite Hr. by rewrite Hf. Qed.

Lemma sched_frame_upd_proc k n f :
  (∀ p, core (f p) = core p) → sched_frame k (upd_proc n f k).
Proof.
  intros Hf. split; [by destruct k|]. intros m. simpl. unfold upd. case_decide; subst; auto.
Qed.
Lemma sched_frame_nextready k n v : sched_frame k (set_nextready n v k).
Proof. by apply sched_frame_upd_proc. Qed.
Lemma sched_frame_head k q v : sched_frame k (set_run_q_head q v k).
Proof. by split; [destruct k|]. Qed.
Lemma sched_frame_tail k q v : sched_frame k (set_run_q_tail q v k).
Proof. by split; [destruct k|]. Qed.
Lemma sched_frame_cell k q c v : sched_frame k (write_run_cell q c v k).
Proof. destruct c; [apply sched_frame_head|apply sched_frame_nextready]. Qed.
#[export] Hint Resolve sched_frame_nextready sched_frame_head sched_frame_tail sched_frame_cell
  sched_frame_refl : minix.

Lemma proctab_upd_proc k n f m :
  proctab (upd_proc n f k) m = if decide (m = n) then f (proctab k n) else proctab k m.
Proof. simpl. unfold upd. case_decide; by subst. Qed.

Lemma rts_upd_same k n f m :
  (∀ p, p_rts_flags (f p) = p_rts_flags p) → rts (upd_proc n f k) m = rts k m.
Proof. intros Hf. unfold rts. rewrite proctab_upd_proc. case_decide; subst; auto. Qed.
Lemma rts_cell k q c v m : rts (write_run_cell q c v k) m = rts k m.
Proof. destruct c; [done|]. by apply rts_upd_same. Qed.
Lemma runnable_rts k n : proc_is_runnable k n = (rts k n =? 0).
Proof. done. Qed.

(** ** Queues represented by the pointers *)

Section runq_facts.
Context (k : kstate) (Q : Z → list Z) (HQ : runq k Q).

Lemma runq_NoDup q : in_range q → NoDup (Q q).
Proof using HQ. intros Hq. eapply chain_NoDup, rq_chain; eauto. Qed.

Lemma runq_disjoint q1 q2 n : in_range q1 → in_range q2 → n ∈ Q q1 → n ∈ Q q2 → q1 = q2.
Proof using HQ.
  intros H1 H2 Hn1 Hn2. destruct (rq_prio _ _ HQ _ _ H1 Hn1), (rq_prio _ _ HQ _ _ H2 Hn2). congruence.
Qed.

Lemma runq_length q : in_range q → (length (Q q) < BLOCKED_FUEL)%nat.
Proof using HQ.
  intros Hq. assert (length (Q q) ≤ length proc_nrs)%nat.
  { apply submseteq_length, NoDup_submseteq; [by apply runq_NoDup|].
    intros n Hn. apply elem_of_proc_nrs. by destruct (rq_prio _ _ HQ _ _ Hq Hn). }
  unfold BLOCKED_FUEL. change (length proc_nrs) with 261%nat in *. lia.
Qed.
End runq_facts.

(** Changing what the queues do not depend on. *)
Lemma runq_stable k k' Q :
  runq k Q →
  (∀ n, p_nextready (proctab k' n) = p_nextready (proctab k n)) →
  (∀ n, p_priority (proctab k' n) = p_priority (proctab k n)) →
  run_q_head k' = run_q_head k → run_q_tail k' = run_q_tail k → runq k' Q.
Proof.
  intros [Hc Ht Hp] Hn Hpr Hh Htl. split.
  - intros q Hq. rewrite Hh. eapply chain_ext; [|by apply Hc]. intros n _. symmetry. apply Hn.
  - intros q Hq. rewrite Htl. auto.
  - intros q n Hq Hin. rewrite Hpr. auto.
Qed.

Lemma runq_upd_proc k n f Q :
  (∀ p, p_nextready (f p) = p_nextready p) → (∀ p, p_priority (f p) = p_priority p) →
  runq k Q → runq (upd_proc n f k) Q.
Proof.
  intros H1 H2 HQ. apply (runq_stable k); [done| | |done..];
    intros m; rewrite proctab_upd_proc; case_decide; subst; auto.
Qed.

Lemma runq_ext k Q Q' : (∀ q, in_range q → Q q = Q' q) → runq k Q → runq k Q'.
Proof.
  intros He [Hc Ht Hp]. split; intros q; intros; rewrite <-?He in * by done; eauto.
Qed.

Lemma priority_frame k k' n : sched_frame k k' → p_priority (proctab k' n) = p_priority (proctab k n).
Proof. intros H. by apply (sched_frame_field p_priority _ _ n H). Qed.

(** ** Editing one queue *)

Lemma chain_nextready k x v h l e :
  chain (nextready (set_nextready x v k)) h l e ↔ chain (upd (nextready k) x v) h l e.
Proof. apply (chain_table p_nextready). Qed.

Lemma write_cell_chain k Q q c v L q' :
  runq k Q → in_range q → in_range q' → (∀ x, c = CNext x → x ∈ Q q) →
  (let st := cell_write c v (nextready k, run_q_head k q) in chain st.1 st.2 L None) →
  let k' := write_run_cell q c v k in
  chain (nextready k') (run_q_head k' q') (if decide (q' = q) then L else Q q') None.
Proof.
  intros HQ Hq Hq' Hx Hst. destruct c as [|x]; simpl in Hst |- *.
  - unfold upd. case_decide; [done|]. by apply (rq_chain k Q HQ).
  - apply chain_nextready. case_decide as Hqq; [by subst|].
    apply chain_frame; [|by apply rq_chain].
    intros Hin. apply Hqq. symmetry. eapply runq_disjoint; eauto.
Qed.

Lemma filter_ne_id (l : list Z) x : x ∉ l → filter (λ n, n ≠ x) l = l.
Proof.
  induction l as [|y l IH]; [done|]. intros [Hxy Hx]%not_elem_of_cons.
  rewrite filter_cons_True by done. by rewrite IH.
Qed.
Lemma filter_ne_split (l1 l2 : list Z) x :
  NoDup (l1 ++ x :: l2) → filter (λ n, n ≠ x) (l1 ++ x :: l2) = l1 ++ l2.
Proof.
  intros (Hnd1 & Hdis & Hnd2)%NoDup_app. apply NoDup_cons in Hnd2 as [Hx2 Hnd2].
  rewrite filter_app, filter_cons_False by naive_solver.
  rewrite !filter_ne_id; [done|done|]. intros Hx1. by eapply Hdis; [|left].
Qed.

Lemma last_app_ne (l1 l2 : list Z) x :
  NoDup (l1 ++ x :: l2) →
  last (l1 ++ l2) = if decide (last (l1 ++ x :: l2) = Some x) then last l1 else last (l1 ++ x :: l2).
Proof.
  intros (_ & _ & Hnd)%NoDup_app. apply NoDup_cons in Hnd as [Hx _].
  rewrite !last_app, last_cons. destruct (last l2) as [z|] eqn:Hz.
  - rewrite decide_False; [done|]. intros [= ->]. apply Hx.
    apply last_Some in Hz as [l' ->]. set_solver.
  - by rewrite decide_True.
Qed.

Lemma owner_in l1 (l2 : list Z) x : cell_after CHead l1 = CNext x → x ∈ l1 ++ l2.
Proof.
  unfold cell_after. destruct (last l1) eqn:Hl; intros; simplify_eq.
  apply last_Some in Hl as [l' ->]. set_solver.
Qed.
Lemma cell_owner_after (l : list Z) : cell_owner (cell_after CHead l) = last l.
Proof. unfold cell_after. by destruct (last l). Qed.

(** Removing [rp] from the middle of a queue, as [dequeue] does once it has found it. *)
Lemma unlink_runq k Q q l1 rp l2 :
  runq k Q → in_range q → Q q = l1 ++ rp :: l2 →
  let c := cell_after CHead l1 in
  let k1 := write_run_cell q c (nextready k rp) k in
  runq (if decide (run_q_tail k q = Some rp) then set_run_q_tail q (cell_owner c) k1 else k1)
    (aq_remove rp Q).
Proof.
  intros HQ Hq HQq c k1. set (k2 := if decide _ then _ else _).
  pose proof (runq_NoDup _ _ HQ q Hq) as Hnd. rewrite HQq in Hnd.
  assert (∀ q', in_range q' → aq_remove rp Q q' = if decide (q' = q) then l1 ++ l2 else Q q') as HQ'.
  { intros q' Hq'. unfold aq_remove. case_decide as Hqq; subst.
    - rewrite HQq. by apply filter_ne_split.
    - apply filter_ne_id. intros Hin. apply Hqq.
      eapply (runq_disjoint _ _ HQ); eauto. rewrite HQq. set_solver. }
  assert (nextready k2 = nextready k1 ∧ run_q_head k2 = run_q_head k1) as [Hn2 Hh2]
    by (subst k2; by case_decide).
  split; intros q'; [intros Hq'; rewrite HQ' by done..|intros n Hq' Hin].
  - rewrite Hn2, Hh2. apply write_cell_chain; auto.
    + intros x Hx. rewrite HQq. by eapply owner_in.
    + apply splice_remove. rewrite <-HQq. by apply rq_chain.
  - assert (run_q_tail k2 q' = if decide (q' = q) then last (l1 ++ l2) else run_q_tail k q') as ->.
    { rewrite (last_app_ne _ _ _ Hnd), <-HQq, <-(rq_tail _ _ HQ q Hq). subst k2.
      assert (run_q_tail k1 = run_q_tail k) as Ht1 by (subst k1; by destruct c).
      case_decide; simpl; rewrite ?Ht1; unfold upd; case_decide; subst; auto.
      all: subst c; by rewrite ?cell_owner_after. }
    case_decide; [done|]. by apply rq_tail.
  - apply list_elem_of_filter in Hin as [_ Hin].
    destruct (rq_prio _ _ HQ q' n Hq' Hin) as [<- ?]. split; [|done].
    transitivity (p_priority (proctab k1 n)); [subst k2; by case_decide|].
    apply priority_frame. apply sched_frame_cell.
Qed.

(** ** [dequeue] *)

Lemma dequeue_spec k Q rp :
  runq k Q → proc_is_runnable k rp = false → in_range (p_priority (proctab k rp)) →
  wp (dequeue rp) (λ _ k', runq k' (aq_remove rp Q) ∧ sched_frame k k' ∧ ∀ n, rts k' n = rts k n) k.
Proof.
  intros HQ Hrun Hq. unfold dequeue. wp_steps. set (q := p_priority (proctab k rp)) in *.
  apply wp_assert; [by rewrite Hrun|]. wp_steps.
  apply wp_assert.
  { destruct Hq. rewrite (proj2 (Z.leb_le _ _)), (proj2 (Z.ltb_lt _ _)); auto. }
  wp_steps.
  pose proof (rq_chain _ _ HQ q Hq) as Hc. pose proof (runq_length _ _ HQ q Hq) as Hlen.
  apply wp_mono with (Q := λ _ k', runq k' (aq_remove rp Q) ∧ sched_frame k k' ∧ ∀ n, rts k' n = rts k n); last first.
  { intros [] k1 (HQ1 & Hf1 & Hr1). wp_steps. unfold modify_acct, modify_proc. wp_steps.
    split_and!.
    - by apply runq_upd_proc.
    - etrans; [done|]. by apply sched_frame_upd_proc.
    - intros n. rewrite <-Hr1. by apply rts_upd_same. }
  destruct (decide (rp ∈ Q q)) as [Hin|Hin].
  - apply list_elem_of_split in Hin as (l1 & l2 & HQq). rewrite HQq in Hc, Hlen.
    rewrite (pp_find_elem _ _ _ _ _ _ Hc Hlen). wp_steps.
    pose proof Hc as (m & Hc1 & Hc2)%chain_app. simpl in Hc2. destruct Hc2 as [-> Hc2].
    assert (cell_read (nextready k) (run_q_head k q) (cell_after CHead l1) = Some rp) as ->.
    { unfold cell_after. destruct (last l1) eqn:Hl; simpl; [by eapply chain_last_end|].
      by apply last_None in Hl as ->. }
    wp_steps. pose proof (unlink_runq k Q q l1 rp l2 HQ Hq HQq) as Hrq. simpl in Hrq.
    assert (run_q_tail (write_run_cell q (cell_after CHead l1) (nextready k rp) k) q = run_q_tail k q) as ->
      by (by destruct (cell_after CHead l1)).
    case_decide; wp_steps; (split_and!; [done| |intros n]).
    + etrans; [apply sched_frame_cell|apply sched_frame_tail].
    + unfold rts. simpl. apply rts_cell.
    + apply sched_frame_cell.
    + apply rts_cell.
  - destruct (pp_find_spec BLOCKED_FUEL (nextready k) (run_q_head k q) (λ y, bool_decide (y = rp)) CHead _ Hc Hlen)
      as (l1 & l2 & HQq & -> & Hrd & Hall & Hend).
    destruct l2 as [|x l2]; simpl in *.
    + wp_steps. rewrite Hrd. wp_steps. split_and!; [|done..].
      apply (runq_ext _ Q); [|done]. intros q' Hq'. symmetry. apply filter_ne_id. intros Hin'.
      assert (q' = q) as ->; [|done]. by destruct (rq_prio _ _ HQ _ _ Hq' Hin').
    + apply bool_decide_eq_true in Hend as ->. exfalso. apply Hin. rewrite HQq. set_solver.
Qed.

(** ** [RTS_SET] *)

Definition rts_after_set (rp f : Z) (k : kstate) (n : Z) : Z :=
  if decide (n = rp) then set_flag f (rts k rp) else rts k n.
Definition rts_after_unset (rp f : Z) (k : kstate) (n : Z) : Z :=
  if decide (n = rp) then clear_flag f (rts k rp) else rts k n.

Lemma queued_runnable k Q n q :
  sched_rel k Q → in_range q → n ∈ Q q → rts k n = 0 ∧ p_priority (proctab k n) = q.
Proof.
  intros [HQ Hrun] Hq Hn. split; [|by destruct (rq_prio _ _ HQ _ _ Hq Hn)].
  apply Z.eqb_eq. rewrite <-runnable_rts. apply Hrun. eauto.
Qed.
Lemma runnable_queued k Q n :
  sched_rel k Q → rts k n = 0 →
  in_range (p_priority (proctab k n)) ∧ n ∈ Q (p_priority (proctab k n)) ∧ valid_slot n.
Proof.
  intros [HQ Hrun] Hn. destruct (proj1 (Hrun n)) as (q & Hq & Hin).
  { by rewrite runnable_rts, Hn. }
  by destruct (rq_prio _ _ HQ _ _ Hq Hin) as [-> ?].
Qed.
Lemma aq_remove_absent k Q n q :
  sched_rel k Q → rts k n ≠ 0 → in_range q → aq_remove n Q q = Q q.
Proof.
  intros HQ Hn Hq. apply filter_ne_id. intros Hin.
  by destruct (queued_runnable _ _ _ _ HQ Hq Hin).
Qed.

Lemma sched_rel_removed k k' Q rp :
  sched_rel k Q → runq k' (aq_remove rp Q) → rts k' rp ≠ 0 →
  (∀ n, n ≠ rp → rts k' n = rts k n) → sched_rel k' (aq_remove rp Q).
Proof.
  intros [HQ Hrun] HQ' Hrp Hrts. split; [done|]. intros n. rewrite runnable_rts.
  destruct (decide (n = rp)) as [->|Hne].
  - rewrite (proj2 (Z.eqb_neq _ _) Hrp). split; [done|].
    intros (q & _ & [? _]%list_elem_of_filter). done.
  - rewrite Hrts, <-runnable_rts, Hrun by done. unfold aq_remove.
    split; intros (q & Hq & Hin); exists q; (split; [done|]).
    + by apply list_elem_of_filter.
    + by apply list_elem_of_filter in Hin as [_ ?].
Qed.

Lemma RTS_SET_spec k Q rp f :
  sched_rel k Q → f ≠ 0 →
  wp (RTS_SET rp f) (λ _ k', sched_rel k' (aq_remove rp Q) ∧ sched_frame k k' ∧
                      ∀ n, rts k' n = rts_after_set rp f k n) k.
Proof.
  intros HQ Hf. unfold RTS_SET, modify_proc. wp_steps.
  set (k1 := upd_proc rp _ k).
  assert (∀ n, rts k1 n = rts_after_set rp f k n) as Hr1.
  { intros n. unfold rts, rts_after_set. subst k1. rewrite proctab_upd_proc. by case_decide. }
  assert (rts k1 rp ≠ 0) as Hnz.
  { rewrite Hr1. unfold rts_after_set. rewrite decide_True by done. by apply set_flag_nonzero. }
  assert (sched_frame k k1) as Hf1 by by apply sched_frame_upd_proc.
  assert (runq k1 Q) as HQ1 by by apply runq_upd_proc; [..|apply HQ].
  assert (∀ n, n ≠ rp → rts k1 n = rts k n) as Hne.
  { intros n Hn. rewrite Hr1. unfold rts_after_set. by rewrite decide_False. }
  rewrite (runnable_rts k1), (proj2 (Z.eqb_neq _ _) Hnz). rewrite andb_true_r.
  unfold rts_f_is_runnable. fold (rts k rp). destruct (Z.eqb_spec (rts k rp) 0) as [Hz|Hz].
  - destruct (runnable_queued _ _ _ HQ Hz) as (Hq & Hin & Hv).
    eapply wp_mono; [apply (dequeue_spec k1 Q)|].
    + done.
    + by rewrite runnable_rts, (proj2 (Z.eqb_neq _ _) Hnz).
    + by rewrite (priority_frame _ _ _ Hf1).
    + intros [] k' (HQ' & Hf' & Hr'). split_and!.
      * apply (sched_rel_removed k); [done..|by rewrite Hr'|]. intros n Hn. by rewrite Hr', Hne.
      * by etrans.
      * intros n. by rewrite Hr'.
  - wp_steps. split_and!; [|done..]. apply (sched_rel_removed k); [done| |done..].
    apply (runq_ext _ Q); [|done]. intros q Hq. symmetry. by eapply aq_remove_absent.
Qed.

(** ** [enqueue] *)

(** Replacing the contents of one queue. *)
Lemma runq_linked k k' Q q L :
  runq k Q → in_range q → sched_frame k k' →
  (∀ n, n ∈ L → p_priority (proctab k n) = q ∧ valid_slot n) →
  chain (nextready k') (run_q_head k' q) L None → run_q_tail k' q = last L →
  (∀ n, n ∉ Q q → n ∉ L → nextready k' n = nextready k n) →
  (∀ q', q' ≠ q → run_q_head k' q' = run_q_head k q' ∧ run_q_tail k' q' = run_q_tail k q') →
  runq k' (upd Q q L).
Proof.
  intros HQ Hq Hf HL Hc Ht Hn Ho. split; intros q'; [intros Hq'..|intros n Hq' Hin].
  - unfold upd. case_decide as Hne; [by subst|]. destruct (Ho q' Hne) as [-> _].
    eapply chain_ext; [|by apply (rq_chain _ _ HQ)]. intros n Hn'. symmetry.
    destruct (rq_prio _ _ HQ _ _ Hq' Hn'). apply Hn.
    + intros Hn2. destruct (rq_prio _ _ HQ _ _ Hq Hn2). congruence.
    + intros Hn2. destruct (HL _ Hn2). congruence.
  - unfold upd. case_decide as Hne; [by subst|]. destruct (Ho q' Hne) as [_ ->].
    by apply (rq_tail _ _ HQ).
  - rewrite (priority_frame _ _ _ Hf). unfold upd in Hin. case_decide; subst; eauto using rq_prio.
Qed.

Lemma link_tail_spec k Q rp q :
  runq k Q → in_range q → p_priority (proctab k rp) = q → valid_slot rp →
  (∀ q', in_range q' → rp ∉ Q q') →
  wp (link_tail q rp) (λ _ k', runq k' (aq_append rp q Q) ∧ sched_frame k k' ∧ ∀ n, rts k' n = rts k n) k.
Proof.
  intros HQ Hq Hprio Hv Hnin. unfold link_tail. wp_steps.
  pose proof (rq_chain _ _ HQ q Hq) as Hc. pose proof (rq_tail _ _ HQ q Hq) as Ht.
  assert (∀ n, n ∈ Q q ++ [rp] → p_priority (proctab k n) = q ∧ valid_slot n) as Hpr.
  { intros n [Hn| ->%list_elem_of_singleton]%elem_of_app; [by apply (rq_prio _ _ HQ)|done]. }
  destruct (run_q_head k q) as [h|] eqn:Hh.
  - destruct (last (Q q)) as [t|] eqn:Hl; last first.
    { apply last_None in Hl. by rewrite Hl in Hc. }
    assert (t ∈ Q q) as Htin by (apply last_Some in Hl as [? ->]; set_solver).
    assert (t ≠ rp) by (intros ->; by eapply Hnin).
    wp_steps. rewrite Ht. wp_steps. set (k' := set_nextready rp None _).
    assert (sched_frame k k') as Hf.
    { etrans; [apply sched_frame_nextready|]. etrans; [apply sched_frame_tail|apply sched_frame_nextready]. }
    assert (∀ n, nextready k' n = upd (upd (nextready k) rp None) t (Some rp) n) as Hnx.
    { intros n. unfold nextready, k', set_nextready. rewrite proctab_upd_proc.
      unfold upd. simpl. unfold upd. repeat (case_decide; subst; simpl; try done). }
    split_and!; [|done|].
    + apply (runq_linked k); auto.
      * eapply chain_ext; [intros n _; symmetry; apply Hnx|]. change (run_q_head k' q) with (run_q_head k q).
        pose proof (splice_append (upd (nextready k) rp None) (run_q_head k q) (Q q) rp) as Hs.
        unfold cell_after in Hs. rewrite Hl in Hs. apply Hs; [|by apply Hnin|by rewrite upd_eq].
        rewrite Hh. apply chain_frame; [by apply Hnin|done].
      * rewrite last_snoc. apply upd_eq.
      * intros n Hn1 Hn2. rewrite Hnx, !upd_ne; [done| |]; intros ->; [set_solver|done].
      * intros q' Hne. split; [done|]. by apply upd_ne.
    + intros n. unfold k', set_nextready. rewrite rts_upd_same by done.
      by apply (rts_upd_same k t (λ p, p <| p_nextready := Some rp |>) n).
  - assert (Q q = []) as Hnil by by eapply chain_nil.
    wp_steps. set (k' := set_nextready rp None _).
    assert (sched_frame k k') as Hf.
    { etrans; [apply sched_frame_tail|]. etrans; [apply sched_frame_head|apply sched_frame_nextready]. }
    assert (∀ n, nextready k' n = upd (nextready k) rp None n) as Hnx.
    { intros n. unfold nextready, k', set_nextready. rewrite proctab_upd_proc. unfold upd. by case_decide. }
    split_and!; [|done|intros n; unfold k', set_nextready; by rewrite rts_upd_same].
    apply (runq_linked k); auto.
    + rewrite Hnil. simpl. rewrite Hnx, !upd_eq. done.
    + rewrite Hnil. apply upd_eq.
    + intros n _ Hn. rewrite Hnx, upd_ne; [done|]. intros ->. set_solver.
    + intros q' Hne. simpl. by rewrite !upd_ne.
Qed.

Lemma preempts_frame k k' rp : sched_frame k k' → preempts k' rp = preempts k rp.
Proof.
  intros Hf. unfold preempts, priv_of, priv_id.
  rewrite (sched_frame_state proc_ptr _ _ Hf) by done.
  rewrite (sched_frame_state privtab _ _ Hf) by done.
  rewrite !(priority_frame _ _ _ Hf). by rewrite (sched_frame_field p_priv _ _ _ Hf).
Qed.

(** [Q] misses exactly [rp]. *)
Definition runnable_but (k : kstate) (Q : Z → list Z) (rp : Z) : Prop :=
  (∀ n, n ≠ rp → proc_is_runnable k n = true ↔ ∃ q, in_range q ∧ n ∈ Q q) ∧
  (∀ q, in_range q → rp ∉ Q q).

Lemma sched_rel_added k k' Q rp q L :
  runnable_but k Q rp → runq k' (upd Q q L) → in_range q → (∀ n, n ∈ L ↔ n = rp ∨ n ∈ Q q) →
  rts k rp = 0 → (∀ n, rts k' n = rts k n) → sched_rel k' (upd Q q L).
Proof.
  intros [Hrun Hnin] HQ' Hq HL Hrp Hrts. split; [done|]. intros n.
  rewrite runnable_rts, Hrts. destruct (decide (n = rp)) as [->|Hne].
  - rewrite Hrp. split; [|done]. intros _. exists q. rewrite upd_eq, HL. auto.
  - rewrite <-runnable_rts, Hrun by done.
    split; intros (q' & Hq' & Hin); exists q'; (split; [done|]); unfold upd in *; case_decide; subst; auto.
    + apply HL. auto.
    + apply HL in Hin as [?|?]; done.
Qed.

Definition aq_enqueue (k : kstate) (rp : Z) (Q : Z → list Z) : Z → list Z :=
  let Q' := aq_append rp (p_priority (proctab k rp)) Q in
  if preempts k rp then aq_remove (proc_ptr k) Q' else Q'.
Definition rts_enqueue (k : kstate) (rp n : Z) : Z :=
  if preempts k rp then rts_after_set (proc_ptr k) RTS_PREEMPTED k n else rts k n.

Lemma stamp_wp k Q :
  sched_rel k Q →
  wp stamp_enter_queue (λ _ k', sched_rel k' Q ∧ sched_frame k k' ∧ ∀ n, rts k' n = rts k n) k.
Proof.
  intros [HQ Hrun]. unfold stamp_enter_queue, modify_acct, modify_proc. wp_steps.
  set (k' := upd_proc _ _ k).
  assert (∀ n, rts k' n = rts k n) as Hr by (intros n; by apply rts_upd_same).
  split_and!; [|by apply sched_frame_upd_proc|done].
  split; [by apply runq_upd_proc|]. intros n. by rewrite runnable_rts, Hr, <-runnable_rts.
Qed.

Lemma check_range q : in_range q → (0 <=? q) = true ∧ (q <? NR_SCHED_QUEUES) = true.
Proof. intros [??]. by rewrite Z.leb_le, Z.ltb_lt. Qed.

Lemma enqueue_spec k Q rp :
  runq k Q → runnable_but k Q rp → rts k rp = 0 → valid_slot rp →
  in_range (p_priority (proctab k rp)) →
  wp (enqueue rp) (λ _ k', sched_rel k' (aq_enqueue k rp Q) ∧ sched_frame k k' ∧
                    ∀ n, rts k' n = rts_enqueue k rp n) k.
Proof.
  intros HQ Hrun Hrp Hv Hq. unfold enqueue, check_queue. wp_steps.
  destruct (check_range _ Hq) as [Hq0 Hq1].
  apply wp_assert; [by rewrite runnable_rts, Hrp|]. wp_steps.
  apply wp_assert; [done|]. wp_steps.
  apply wp_assert; [by rewrite Hq0, Hq1|]. wp_steps.
  eapply wp_mono; [apply (link_tail_spec k Q); [done..|apply Hrun]|].
  intros [] k1 (HQ1 & Hf1 & Hr1). wp_steps. rewrite (preempts_frame _ _ _ Hf1).
  rewrite (sched_frame_state proc_ptr _ _ Hf1) by done.
  assert (sched_rel k1 (aq_append rp (p_priority (proctab k rp)) Q)) as HS1.
  { eapply sched_rel_added; eauto. intros n. set_solver. }
  unfold aq_enqueue, rts_enqueue. destruct (preempts k rp).
  - eapply wp_mono; [apply RTS_SET_spec; [done..]|]. intros [] k2 (HS2 & Hf2 & Hr2).
    eapply wp_mono; [by apply stamp_wp|]. intros [] k3 (HS3 & Hf3 & Hr3).
    split_and!; [done|frame_trans|].
    intros n. rewrite Hr3, Hr2. unfold rts_after_set. by rewrite !Hr1.
  - wp_steps. eapply wp_mono; [by apply stamp_wp|]. intros [] k3 (HS3 & Hf3 & Hr3).
    split_and!; [done|frame_trans|]. intros n. by rewrite Hr3.
Qed.

(** ** [RTS_UNSET] *)

Definition woken (k : kstate) (rp f : Z) : bool :=
  negb (rts k rp =? 0) && (clear_flag f (rts k rp) =? 0).
Definition aq_unset (k : kstate) (rp f : Z) (Q : Z → list Z) : Z → list Z :=
  if woken k rp f then aq_enqueue k rp Q else Q.
Definition rts_unset (k : kstate) (rp f n : Z) : Z :=
  if woken k rp f && preempts k rp && bool_decide (n = proc_ptr k)
  then set_flag RTS_PREEMPTED (rts_after_unset rp f k n) else rts_after_unset rp f k n.

Lemma runnable_but_blocked k k' Q rp :
  sched_rel k Q → rts k rp ≠ 0 → (∀ n, n ≠ rp → rts k' n = rts k n) → runnable_but k' Q rp.
Proof.
  intros HQ Hrp Hr. split.
  - intros n Hn. rewrite runnable_rts, Hr by done. apply (sr_runnable _ _ HQ).
  - intros q Hq Hin. by destruct (queued_runnable _ _ _ _ HQ Hq Hin).
Qed.

Lemma RTS_UNSET_spec k Q rp f :
  sched_rel k Q → valid_slot rp → in_range (p_priority (proctab k rp)) →
  wp (RTS_UNSET rp f) (λ _ k', sched_rel k' (aq_unset k rp f Q) ∧ sched_frame k k' ∧
                        ∀ n, rts k' n = rts_unset k rp f n) k.
Proof.
  intros HQ Hv Hq. unfold RTS_UNSET, modify_proc. wp_steps.
  set (k1 := upd_proc rp _ k).
  assert (∀ n, rts k1 n = rts_after_unset rp f k n) as Hr1.
  { intros n. unfold rts, rts_after_unset. subst k1. rewrite proctab_upd_proc. by case_decide. }
  assert (sched_frame k k1) as Hf1 by by apply sched_frame_upd_proc.
  assert (runq k1 Q) as HQ1 by by apply runq_upd_proc; [..|apply HQ].
  assert (rts k1 rp = clear_flag f (rts k rp)) as Hrp.
  { rewrite Hr1. unfold rts_after_unset. by rewrite decide_True. }
  assert (∀ n, n ≠ rp → rts k1 n = rts k n) as Hne.
  { intros n Hn. rewrite Hr1. unfold rts_after_unset. by rewrite decide_False. }
  rewrite (runnable_rts k1), Hrp. unfold rts_f_is_runnable. fold (rts k rp). fold (woken k rp f).
  unfold aq_unset, rts_unset. destruct (woken k rp f) eqn:Hw.
  - apply andb_prop in Hw as [Hw1%negb_true_iff%Z.eqb_neq Hw2%Z.eqb_eq].
    eapply wp_mono; [apply (enqueue_spec k1 Q)|].
    + done.
    + by apply (runnable_but_blocked k).
    + congruence.
    + done.
    + by rewrite (priority_frame _ _ _ Hf1).
    + intros [] k' (HQ' & Hf' & Hr'). split_and!; [|by etrans|].
      * revert HQ'. unfold aq_enqueue. rewrite (preempts_frame _ _ _ Hf1), (priority_frame _ _ _ Hf1).
        done.
      * intros n. rewrite Hr'. unfold rts_enqueue. rewrite (preempts_frame _ _ _ Hf1).
        rewrite (sched_frame_state proc_ptr _ _ Hf1) by done.
        destruct (preempts k rp); simpl; [|done]. unfold rts_after_set.
        rewrite !Hr1. destruct (decide (n = proc_ptr k)) as [->|Hn].
        -- by rewrite bool_decide_true.
        -- by rewrite bool_decide_false.
  - wp_steps. split_and!; [|done..].
    split; [done|]. intros n. rewrite runnable_rts.
    destruct (decide (n = rp)) as [->|Hn]; [|rewrite Hne by done; apply (sr_runnable _ _ HQ)].
    rewrite <-(sr_runnable _ _ HQ), runnable_rts, Hrp. unfold woken in Hw.
    destruct (Z.eqb_spec (rts k rp) 0) as [Hz|Hz]; [|simpl in Hw; by rewrite Hw].
    by rewrite Hz.
Qed.

(** ** [enqueue_head] and putting a preempted process back *)

(** The state in which [rp] has been linked in front of queue [q]. *)
Lemma push_runq k k' Q rp q :
  runq k Q → in_range q → p_priority (proctab k rp) = q → valid_slot rp →
  (∀ q', in_range q' → rp ∉ Q q') → sched_frame k k' →
  (∀ n, nextready k' n = upd (nextready k) rp (run_q_head k q) n) →
  (∀ q', run_q_head k' q' = upd (run_q_head k) q (Some rp) q') →
  (∀ q', run_q_tail k' q' = if is_null (run_q_head k q) then upd (run_q_tail k) q (Some rp) q' else run_q_tail k q') →
  runq k' (aq_push rp q Q).
Proof.
  intros HQ Hq Hprio Hv Hnin Hf Hnx Hh Ht. pose proof (rq_chain _ _ HQ q Hq) as Hc.
  apply (runq_linked k); auto.
  - intros n [->|Hn]%elem_of_cons; [done|]. by apply (rq_prio _ _ HQ).
  - simpl. rewrite Hh, Hnx, !upd_eq. split; [done|].
    eapply chain_ext; [intros n _; symmetry; apply Hnx|]. apply chain_frame; [by apply Hnin|done].
  - rewrite Ht, last_cons, <-(rq_tail _ _ HQ q Hq).
    destruct (Q q) as [|x l] eqn:HQq; simpl in Hc.
    + rewrite Hc. simpl. by rewrite (rq_tail _ _ HQ q Hq), HQq, upd_eq.
    + destruct Hc as [-> _]. simpl. rewrite (rq_tail _ _ HQ q Hq), HQq.
      destruct (last (x :: l)) eqn:Hl; [done|]. by apply last_None in Hl.
  - intros n Hn1 Hn2. rewrite Hnx, upd_ne; [done|]. intros ->. set_solver.
  - intros q' Hne. rewrite Hh, Ht, upd_ne by done. split; [done|]. case_bool; [by rewrite upd_ne|done].
Qed.

Lemma link_head_spec k Q rp q :
  runq k Q → in_range q → p_priority (proctab k rp) = q → valid_slot rp →
  (∀ q', in_range q' → rp ∉ Q q') →
  wp (link_head q rp) (λ _ k', runq k' (aq_push rp q Q) ∧ sched_frame k k' ∧ ∀ n, rts k' n = rts k n) k.
Proof.
  intros HQ Hq Hprio Hv Hnin. unfold link_head. wp_steps.
  destruct (run_q_head k q) as [h|] eqn:Hh; wp_steps.
  - set (k' := set_run_q_head _ _ _).
    assert (sched_frame k k') as Hf.
    { etrans; [apply sched_frame_nextready|apply sched_frame_head]. }
    split_and!; [|done|by intros n; apply (rts_upd_same k rp (λ p, p <| p_nextready := Some h |>) n)].
    apply (push_runq k); auto; rewrite Hh.
    + intros n. unfold nextready, k', set_nextready, upd. simpl. unfold upd. by case_decide.
    + done.
  - set (k' := set_run_q_head _ _ _).
    assert (sched_frame k k') as Hf.
    { etrans; [apply sched_frame_tail|]. etrans; [apply sched_frame_head|].
      etrans; [apply sched_frame_nextready|apply sched_frame_head]. }
    split_and!; [|done|by intros n; apply (rts_upd_same k rp (λ p, p <| p_nextready := None |>) n)].
    apply (push_runq k); auto; rewrite ?Hh.
    + intros n. unfold nextready, k', set_nextready, upd. simpl. unfold upd. by case_decide.
    + intros q'. simpl. unfold upd. by case_decide.
    + done.
Qed.

Lemma enqueue_head_spec k Q rp :
  runq k Q → runnable_but k Q rp → rts k rp = 0 → valid_slot rp →
  in_range (p_priority (proctab k rp)) → p_cpu_time_left (proctab k rp) ≠ 0 →
  wp (enqueue_head rp) (λ _ k', sched_rel k' (aq_push rp (p_priority (proctab k rp)) Q) ∧
                          sched_frame k k' ∧ ∀ n, rts k' n = rts k n) k.
Proof.
  intros HQ Hrun Hrp Hv Hq Htime. unfold enqueue_head, check_queue. wp_steps.
  destruct (check_range _ Hq) as [Hq0 Hq1]. set (q := p_priority (proctab k rp)) in *.
  apply wp_assert; [by rewrite runnable_rts, Hrp|]. wp_steps.
  apply wp_assert; [by rewrite (proj2 (Z.eqb_neq _ _) Htime)|]. wp_steps.
  apply wp_assert; [done|]. wp_steps.
  apply wp_assert; [by rewrite Hq0, Hq1|]. wp_steps.
  eapply wp_mono; [apply (link_head_spec k Q); [done..|apply Hrun]|].
  intros [] k2 (HQ2 & Hf2 & Hr2). wp_steps.
  assert (sched_rel k2 (aq_push rp q Q)) as HS2.
  { eapply sched_rel_added; eauto. intros n. set_solver. }
  eapply wp_mono; [by apply stamp_wp|]. intros [] k3 (HS3 & Hf3 & Hr3).
  unfold modify_acct, modify_proc. wp_steps.
  assert (∀ n f, rts (upd_proc rp (λ p, p <| p_accounting ::= f |>) k3) n = rts k3 n) as Hr4.
  { intros n f. by rewrite rts_upd_same. }
  split_and!; [|etrans; [|by apply sched_frame_upd_proc]; frame_trans|intros n; by rewrite Hr4, Hr3].
  split; [by apply runq_upd_proc; [..|apply HS3]|]. intros n.
  rewrite runnable_rts, Hr4. apply (sr_runnable _ _ HS3).
Qed.

Definition aq_requeue (k : kstate) (p : Z) (Q : Z → list Z) : Z → list Z :=
  if has (rts k p) RTS_PREEMPTED && (clear_flag RTS_PREEMPTED (rts k p) =? 0) then
    if p_cpu_time_left (proctab k p) =? 0 then aq_enqueue k p Q
    else aq_push p (p_priority (proctab k p)) Q
  else Q.

Lemma requeue_preempted_spec k Q p :
  sched_rel k Q → valid_slot p → in_range (p_priority (proctab k p)) → p = proc_ptr k →
  wp (requeue_preempted p) (λ _ k', sched_rel k' (aq_requeue k p Q) ∧ sched_frame k k' ∧
     (∀ n, rts k' n = if decide (n = p) then clear_flag RTS_PREEMPTED (rts k p) else rts k n)) k.
Proof.
  intros HQ Hv Hq Hp. unfold requeue_preempted. wp_steps.
  unfold proc_is_preempted, aq_requeue. fold (rts k p). destruct (has (rts k p) RTS_PREEMPTED) eqn:Hpre; simpl.
  2: { wp_steps. split_and!; [done..|]. intros n. case_decide; [subst n|done]. apply has_false in Hpre.
       unfold clear_flag. pose proof (Z.lor_ldiff_and (rts k p) RTS_PREEMPTED) as Hl. rewrite Hpre, Z.lor_0_r in Hl. by rewrite <-Z.ldiff_land. }
  assert (rts k p ≠ 0) as Hnz by (intros H0; by rewrite H0 in Hpre).
  unfold modify_proc. wp_steps. set (k1 := upd_proc p _ k).
  assert (∀ n, rts k1 n = if decide (n = p) then clear_flag RTS_PREEMPTED (rts k p) else rts k n) as Hr1.
  { intros n. unfold rts. subst k1. rewrite proctab_upd_proc. by case_decide. }
  assert (sched_frame k k1) as Hf1 by by apply sched_frame_upd_proc.
  assert (runq k1 Q) as HQ1 by by apply runq_upd_proc; [..|apply HQ].
  assert (runnable_but k1 Q p) as Hbut.
  { apply (runnable_but_blocked k); auto. intros n Hn. rewrite Hr1. by case_decide. }
  assert (rts k1 p = clear_flag RTS_PREEMPTED (rts k p)) as Hrp by (rewrite Hr1; by case_decide).
  rewrite (runnable_rts k1), Hrp. destruct (Z.eqb_spec (clear_flag RTS_PREEMPTED (rts k p)) 0) as [Hz|Hz].
  - wp_steps. rewrite (sched_frame_field p_cpu_time_left _ _ p Hf1) by done.
    destruct (Z.eqb_spec (p_cpu_time_left (proctab k p)) 0) as [Hl|Hl]; simpl.
    + assert (preempts k p = false) as Hnp.
      { unfold preempts. rewrite <-Hp. by rewrite Z.ltb_irrefl. }
      eapply wp_mono; [apply (enqueue_spec k1 Q); rewrite ?(priority_frame _ _ _ Hf1), ?Hrp; done|].
      intros [] k2 (HS2 & Hf2 & Hr2). revert HS2. unfold aq_enqueue, rts_enqueue in *.
      rewrite (preempts_frame _ _ _ Hf1), Hnp, (priority_frame _ _ _ Hf1) in *.
      intros HS2. split_and!; [done|frame_trans|]. intros n. by rewrite Hr2.
    + eapply wp_mono; [apply (enqueue_head_spec k1 Q); rewrite ?(priority_frame _ _ _ Hf1),
        ?(sched_frame_field p_cpu_time_left _ _ p Hf1), ?Hrp by done; done|].
      intros [] k2 (HS2 & Hf2 & Hr2). rewrite (priority_frame _ _ _ Hf1) in HS2.
      split_and!; [done|frame_trans|]. intros n. by rewrite Hr2.
  - wp_steps. split_and!; [|done..]. split; [done|]. intros n.
    destruct (decide (n = p)) as [->|Hn]; [|by apply Hbut].
    rewrite runnable_rts, Hrp, (proj2 (Z.eqb_neq _ _) Hz). split; [done|].
    intros (q & Hq' & Hin). by destruct (proj2 Hbut q Hq').
Qed.

(** ** [sched_proc] *)

Lemma rts_unset_self k rp f :
  Z.land RTS_PREEMPTED f = 0 → has (rts_unset k rp f rp) f = false.
Proof.
  intros Hd. unfold rts_unset, rts_after_unset. rewrite decide_True by done.
  case_bool; [rewrite has_set_other by done|]; apply has_clear_self.
Qed.

(** After the two guarded [RTS_SET]s of [sched_proc], the process is off the queues. *)
Lemma sched_proc_stop k Q p :
  sched_rel k Q →
  wp (sched_stop p)
    (λ _ k', sched_rel k' (aq_remove p Q) ∧ sched_frame k k' ∧ rts k' p ≠ 0 ∧
             (∀ n, n ≠ p → rts k' n = rts k n) ∧
             clear_flag RTS_NO_QUANTUM (rts k' p) = clear_flag RTS_NO_QUANTUM (rts k p)) k.
Proof.
  intros HQ. unfold sched_stop. wp_steps. rewrite runnable_rts.
  destruct (Z.eqb_spec (rts k p) 0) as [Hz|Hz].
  - eapply wp_mono; [by apply RTS_SET_spec|]. intros [] k1 (HS1 & Hf1 & Hr1). wp_steps.
    assert (rts k1 p = RTS_NO_QUANTUM) as Hp1.
    { rewrite Hr1. unfold rts_after_set. by rewrite decide_True, Hz. }
    rewrite runnable_rts, Hp1. simpl. wp_steps. split_and!; [done..| | |].
    + by rewrite Hp1.
    + intros n Hn. rewrite Hr1. unfold rts_after_set. by rewrite decide_False.
    + by rewrite Hp1, Hz.
  - wp_steps. rewrite runnable_rts, (proj2 (Z.eqb_neq _ _) Hz). wp_steps.
    split_and!; [|done..]. split.
    + apply (runq_ext _ Q); [|apply HQ]. intros q Hq. symmetry. by eapply aq_remove_absent.
    + intros n. rewrite (sr_runnable _ _ HQ).
      split; intros (q & Hq & Hin); exists q; (split; [done|]); revert Hin;
        by rewrite (aq_remove_absent _ _ _ _ HQ Hz Hq).
Qed.

(** A process that is on no queue may change its priority. *)
Lemma sched_rel_unqueued k n f Q :
  (∀ p, p_nextready (f p) = p_nextready p) → (∀ p, p_rts_flags (f p) = p_rts_flags p) →
  (∀ p, p_priority (f p) = p_priority p) ∨ rts k n ≠ 0 →
  sched_rel k Q → sched_rel (upd_proc n f k) Q.
Proof.
  intros Hn Hr Hp HQ. split.
  - split.
    + intros q Hq. eapply chain_ext; [|by apply (rq_chain _ _ (sr_runq _ _ HQ))].
      intros m _. unfold nextready. rewrite proctab_upd_proc. case_decide; subst; auto.
    + intros q Hq. by apply (rq_tail _ _ (sr_runq _ _ HQ)).
    + intros q m Hq Hin. destruct (rq_prio _ _ (sr_runq _ _ HQ) q m Hq Hin) as [Hpm Hv].
      split; [|done]. rewrite proctab_upd_proc. case_decide; subst; [|done].
      destruct Hp as [Hp|Hp]; [by rewrite Hp|]. by destruct (queued_runnable _ _ _ _ HQ Hq Hin).
  - intros m. rewrite runnable_rts, rts_upd_same by done. apply (sr_runnable _ _ HQ).
Qed.

Lemma sched_set_spec k Q p priority quantum :
  sched_rel k Q → rts k p ≠ 0 →
  wp (sched_set p priority quantum) (λ _ k', sched_rel k' Q ∧ (∀ n, rts k' n = rts k n) ∧
    proc_ptr k' = proc_ptr k ∧
    p_priority (proctab k' p) = (if priority =? -1 then p_priority (proctab k p) else priority) ∧
    p_cpu_time_left (proctab k' p) =
      (if quantum =? -1 then p_cpu_time_left (proctab k p) else ms_2_cpu_time k quantum)) k.
Proof.
  intros HQ Hr. unfold sched_set, modify_proc. wp_steps.
  set (k2 := if priority =? -1 then k else upd_proc p (λ r, r <| p_priority := priority |>) k).
  assert (rts k2 p = rts k p ∧ sched_rel k2 Q) as [Hr2 HS2].
  { subst k2. case_match; [done|]. rewrite rts_upd_same by done. split; [done|].
    apply sched_rel_unqueued; auto. }
  eapply wp_intro with (a := ()) (s' := k2); [subst k2; by case_match|]. wp_steps.
  assert (ms_2_cpu_time k2 quantum = ms_2_cpu_time k quantum) as Hms by (subst k2; by case_match).
  destruct (quantum =? -1) eqn:Hqu; unfold modify_proc; wp_steps; rewrite ?Hms;
    (split_and!; [try done| | | |]).
  all: try (apply sched_rel_unqueued; auto).
  all: try intros n; rewrite ?rts_upd_same by done; subst k2; destruct (priority =? -1);
    rewrite ?proctab_upd_proc, ?decide_True, ?rts_upd_same by done; done.
Qed.

(** ** [pick_proc]'s scan *)

Lemma pick_from_spec k qs :
  (∀ q rp, q ∈ qs → run_q_head k q = Some rp → proc_is_runnable k rp = true) →
  ∃ r k', pick_from qs k = Ret (r, k') ∧
    match r with
    | None => k' = k ∧ ∀ q, q ∈ qs → run_q_head k q = None
    | Some rp => ∃ l1 q l2, qs = l1 ++ q :: l2 ∧ run_q_head k q = Some rp ∧
                   (∀ q', q' ∈ l1 → run_q_head k q' = None) ∧
                   k' = if has (s_flags (priv_of k rp)) BILLABLE then k <| bill_ptr := rp |> else k
    end.
Proof.
  intros Hrun. induction qs as [|q qs IH]; simpl.
  { exists None, k. by split_and!; [..|set_solver]. }
  unfold mbind, M_bind, gets. destruct (run_q_head k q) as [rp|] eqn:Hh.
  - unfold assert_. rewrite (Hrun q rp) by (set_solver || done).
    exists (Some rp), (if has (s_flags (priv_of k rp)) BILLABLE then k <| bill_ptr := rp |> else k).
    split; [by destruct (has _ _)|]. exists [], q, qs. split_and!; [done..|set_solver|done].
  - destruct IH as (r & k' & -> & HP); [set_solver|]. exists r, k'. split; [done|].
    destruct r as [rp|].
    + destruct HP as (l1 & q1 & l2 & -> & Hh1 & Hl1 & ->). exists (q :: l1), q1, l2.
      split_and!; [done..| |done]. intros q' [->|]%elem_of_cons; auto.
    + destruct HP as [-> HP]. split; [done|]. intros q' [->|]%elem_of_cons; auto.
Qed.

Lemma elem_of_sched_queues q : q ∈ sched_queues ↔ in_range q.
Proof. unfold sched_queues. by rewrite elem_of_seqZ. Qed.

Lemma seqZ_split_lt a n l1 q l2 q' : seqZ a n = l1 ++ q :: l2 → q' ∈ seqZ a n → q' < q → q' ∈ l1.
Proof.
  intros Heq Hin Hlt. rewrite Heq in Hin. apply elem_of_app in Hin as [|[->|Hin]%elem_of_cons]; [done|lia|].
  exfalso. apply list_elem_of_lookup in Hin as [i Hi].
  assert (seqZ a n !! length l1 = Some q) as H1 by (rewrite Heq; by apply list_lookup_middle).
  assert (seqZ a n !! (length l1 + S i)%nat = Some q') as H2.
  { rewrite Heq, lookup_app_r by lia. by replace (length l1 + S i - length l1)%nat with (S i) by lia. }
  apply lookup_seqZ in H1 as [-> _], H2 as [-> _]. lia.
Qed.

(** ** The consistency check *)

Section runqueues_ok.
Context (k : kstate) (Q : Z → list Z) (HQ : sched_rel k Q).

Lemma check_queue_procs_ok q l found n :
  in_range q → chain (nextready k) (head l) l None → (∃ l0, Q q = l0 ++ l) →
  (∀ x, x ∈ l → x ∉ found) → n + Z.of_nat (length l) ≤ MAX_LOOP + 1 →
  ∀ fuel, (length l < fuel)%nat →
  check_queue_procs fuel k q (head l) found n = Some (reverse l ++ found, n + Z.of_nat (length l)).
Proof using HQ.
  intros Hq. revert found n. induction l as [|x l IH]; intros found n Hc [l0 Hl0] Hdis Hlen fuel Hfuel.
  { destruct fuel; [simpl in Hfuel; lia|]. simpl. by rewrite Z.add_0_r. }
  destruct fuel as [|fuel]; [simpl in Hfuel; lia|]. simpl in Hc |- *. destruct Hc as [_ Hc].
  assert (x ∈ Q q) as Hx by (rewrite Hl0; set_solver).
  destruct (queued_runnable _ _ _ _ HQ Hq Hx) as [Hr Hp].
  destruct (rq_prio _ _ (sr_runq _ _ HQ) _ _ Hq Hx) as [_ Hv].
  rewrite bool_decide_true by done. unfold RTS_ISSET. fold (rts k x). rewrite Hr. simpl.
  rewrite runnable_rts, Hr. simpl. rewrite Hp, Z.eqb_refl. simpl.
  rewrite bool_decide_false by (apply Hdis; set_solver).
  assert (nextready k x = head l) as Hnx by by apply chain_head in Hc.
  assert (bool_decide (nextready k x = None) && negb (bool_decide (run_q_tail k q = Some x)) = false) as ->.
  { destruct l as [|y l]; [|by rewrite bool_decide_false by (by rewrite Hnx)].
    rewrite (rq_tail _ _ (sr_runq _ _ HQ) q Hq), Hl0, last_snoc.
    by rewrite (bool_decide_true (Some x = Some x)), andb_false_r. }
  simpl in Hlen, Hfuel. rewrite (proj2 (Z.ltb_ge _ _)) by lia. rewrite Hnx. rewrite Hnx in Hc.
  assert (x ∉ l) as Hxl.
  { pose proof (runq_NoDup _ _ (sr_runq _ _ HQ) q Hq) as Hnd. rewrite Hl0 in Hnd.
    apply NoDup_app in Hnd as (_ & _ & [? _]%NoDup_cons). done. }
  rewrite IH; [|done| | |lia|lia].
  - rewrite reverse_cons, <-app_assoc. simpl. f_equal. f_equal. lia.
  - exists (l0 ++ [x]). by rewrite <-app_assoc.
  - intros y Hy. apply not_elem_of_cons. split; [by intros ->|]. apply Hdis. by right.
Qed.

Lemma check_queues_ok qs found :
  Forall in_range qs → NoDup qs → Z.of_nat (length found + length (mjoin (Q <$> qs))) ≤ MAX_LOOP + 1 →
  (∀ q x, q ∈ qs → x ∈ Q q → x ∉ found) →
  ∃ found', check_queues k qs found (Z.of_nat (length found)) = Some found' ∧
    ∀ x, x ∈ found' ↔ x ∈ found ∨ ∃ q, q ∈ qs ∧ x ∈ Q q.
Proof using HQ.
  revert found. induction qs as [|q qs IH]; intros found Hall Hnd Hlen Hdis.
  { exists found. split; [done|]. intros x. set_solver. }
  apply Forall_cons in Hall as [Hq Hall]. apply NoDup_cons in Hnd as [Hqn Hnd].
  cbn [check_queues]. rewrite fmap_cons in Hlen. simpl in Hlen. change (list_fmap Z (list Z) Q qs) with (Q <$> qs) in Hlen.
  rewrite length_app in Hlen.
  pose proof (rq_chain _ _ (sr_runq _ _ HQ) q Hq) as Hc.
  pose proof (runq_length _ _ (sr_runq _ _ HQ) q Hq) as Hl.
  pose proof (rq_tail _ _ (sr_runq _ _ HQ) q Hq) as Ht.
  assert (is_null (run_q_tail k q) = is_null (run_q_head k q)) as Hnull.
  { rewrite Ht, (chain_head _ _ _ Hc). destruct (Q q) as [|y l] eqn:E; [done|].
    destruct (last (y :: l)) eqn:Hl'; [done|]. by apply last_None in Hl'. }
  rewrite Hnull, andb_negb_r, andb_negb_l.
  assert (match run_q_tail k q with Some t => negb (is_null (nextready k t)) | None => false end = false) as ->.
  { rewrite Ht. destruct (last (Q q)) as [t|] eqn:Hl'; [|done].
    by rewrite (chain_last_end _ _ _ _ _ Hc Hl'). }
  pose proof (chain_head _ _ _ Hc) as Hh. rewrite Hh in Hc |- *.
  rewrite (check_queue_procs_ok q (Q q) found _ Hq Hc); 
    [|exists []; reflexivity|intros x Hx; apply (Hdis q x); [left|exact Hx]|lia|unfold BLOCKED_FUEL in Hl; unfold CHECK_FUEL; lia].
  destruct (IH (reverse (Q q) ++ found)) as (f' & Hf & Hin); [done..| | |].
  - rewrite length_app, length_reverse. lia.
  - intros q' x Hq' Hx. rewrite elem_of_app, elem_of_reverse. intros [Hx2|Hx2].
    + assert (q' = q) as ->; [|done].
      eapply (runq_disjoint _ _ (sr_runq _ _ HQ)); eauto. by eapply Forall_forall.
    + revert Hx2. apply (Hdis q'); [by right|done].
  - exists f'. split.
    + rewrite <-Hf. f_equal. rewrite length_app, length_reverse. lia.
    + intros x. rewrite Hin, elem_of_app, elem_of_reverse. setoid_rewrite elem_of_cons. naive_solver.
Qed.
End runqueues_ok.

Lemma queues_NoDup k Q qs :
  runq k Q → Forall in_range qs → NoDup qs → NoDup (mjoin (Q <$> qs)).
Proof.
  intros HQ Hall Hnd. induction qs as [|q qs IH]; [constructor|].
  apply Forall_cons in Hall as [Hq Hall]. apply NoDup_cons in Hnd as [Hqn Hnd].
  rewrite fmap_cons. cbn [mjoin list_join]. apply NoDup_app. split_and!; [by eapply runq_NoDup| |by apply IH].
  intros x Hx Hx2. apply list_elem_of_join in Hx2 as (l & Hxl & Hl).
  apply list_elem_of_fmap in Hl as (q' & -> & Hq').
  assert (q = q') as ->; [|done].
  eapply (runq_disjoint _ _ HQ); eauto. by eapply Forall_forall.
Qed.

Lemma all_queues_short k Q :
  runq k Q → Z.of_nat (length (mjoin (Q <$> sched_queues))) ≤ MAX_LOOP + 1.
Proof.
  intros HQ. assert (length (mjoin (Q <$> sched_queues)) ≤ length proc_nrs)%nat; last first.
  { change (length proc_nrs) with 261%nat in *. unfold MAX_LOOP, NR_PROCS, NR_TASKS. lia. }
  apply submseteq_length, NoDup_submseteq.
  - eapply queues_NoDup; [done| |apply NoDup_seqZ]. apply Forall_forall. intros q. apply elem_of_sched_queues.
  - intros x Hx. apply list_elem_of_join in Hx as (l & Hxl & Hl).
    apply list_elem_of_fmap in Hl as (q & -> & Hq%elem_of_sched_queues).
    apply elem_of_proc_nrs. by destruct (rq_prio _ _ HQ _ _ Hq Hxl).
Qed.

(** ** Changes that scheduling does not see *)

Definition sview (p : proc) : Z * option Z * Z * option Z :=
  (p_priority p, p_nextready p, p_rts_flags p, p_priv p).

Record sched_same (k k1 : kstate) : Prop := {
  ss_ptr : proc_ptr k1 = proc_ptr k;
  ss_head : run_q_head k1 = run_q_head k;
  ss_tail : run_q_tail k1 = run_q_tail k;
  ss_proc : ∀ n, sview (proctab k1 n) = sview (proctab k n);
  ss_priv : ∀ i, s_flags (privtab k1 i) = s_flags (privtab k i);
}.
#[export] Instance sched_same_refl : Reflexive sched_same.
Proof. by intros k. Qed.
#[export] Instance sched_same_trans : Transitive sched_same.
Proof. intros k1 k2 k3 [] []. split; intros; etrans; eauto. Qed.

Lemma sched_same_upd_proc k n f : (∀ p, sview (f p) = sview p) → sched_same k (upd_proc n f k).
Proof.
  intros Hf. split; try done. intros m. rewrite proctab_upd_proc. case_decide; subst; auto.
Qed.
Lemma sched_same_upd_priv k i f : (∀ s, s_flags (f s) = s_flags s) → sched_same k (upd_priv i f k).
Proof. intros Hf. split; try done. intros j. simpl. unfold upd. case_decide; subst; auto. Qed.

Section sched_same.
Context (k k1 : kstate) (H : sched_same k k1).

Lemma rts_same n : rts k1 n = rts k n.
Proof using H. pose proof (ss_proc _ _ H n) as E. unfold sview in E. by simplify_eq. Qed.
Lemma priority_same n : p_priority (proctab k1 n) = p_priority (proctab k n).
Proof using H. pose proof (ss_proc _ _ H n) as E. unfold sview in E. by simplify_eq. Qed.
Lemma priv_id_same n : priv_id k1 n = priv_id k n.
Proof using H. unfold priv_id. pose proof (ss_proc _ _ H n) as E. unfold sview in E. simplify_eq. congruence. Qed.
Lemma preempts_same rp : preempts k1 rp = preempts k rp.
Proof using H.
  unfold preempts, priv_of. by rewrite (ss_ptr _ _ H), (ss_priv _ _ H), !priority_same, priv_id_same.
Qed.
Lemma woken_same rp f : woken k1 rp f = woken k rp f.
Proof using H. unfold woken. by rewrite rts_same. Qed.
Lemma rts_unset_same rp f n : rts_unset k1 rp f n = rts_unset k rp f n.
Proof using H.
  unfold rts_unset, rts_after_unset. by rewrite woken_same, preempts_same, (ss_ptr _ _ H), !rts_same.
Qed.
Lemma rts_after_set_same rp f n : rts_after_set rp f k1 n = rts_after_set rp f k n.
Proof using H. unfold rts_after_set. by rewrite !rts_same. Qed.
Lemma sched_rel_same Q : sched_rel k Q → sched_rel k1 Q.
Proof using H.
  intros HQ. split.
  - apply (runq_stable k); [apply HQ| |apply priority_same|apply H..].
    intros n. pose proof (ss_proc _ _ H n) as E. unfold sview in E. by simplify_eq.
  - intros n. rewrite runnable_rts, rts_same. apply (sr_runnable _ _ HQ).
Qed.
End sched_same.

(** [RTS_UNSET] and [RTS_SET] after such changes. *)
Lemma RTS_UNSET_same k k1 Q rp f :
  sched_rel k Q → sched_same k k1 → valid_slot rp → in_range (p_priority (proctab k rp)) →
  wp (RTS_UNSET rp f) (λ _ k', (∃ Q', sched_rel k' Q') ∧ sched_frame k1 k' ∧
                        ∀ n, rts k' n = rts_unset k rp f n) k1.
Proof.
  intros HQ Hs Hv Hq. eapply wp_mono.
  - apply RTS_UNSET_spec; [by eapply sched_rel_same|done|by rewrite (priority_same k)].
  - intros [] k' (HS & Hf & Hr). split_and!; [by eexists|done|]. intros n. rewrite Hr.
    by apply rts_unset_same.
Qed.
Lemma RTS_SET_same k k1 Q rp f :
  sched_rel k Q → sched_same k k1 → f ≠ 0 →
  wp (RTS_SET rp f) (λ _ k', (∃ Q', sched_rel k' Q') ∧ sched_frame k1 k' ∧
                      ∀ n, rts k' n = rts_after_set rp f k n) k1.
Proof.
  intros HQ Hs Hf. eapply wp_mono.
  - apply RTS_SET_spec; [by eapply sched_rel_same|done].
  - intros [] k' (HS & Hfr & Hr). split_and!; [by eexists|done|]. intros n. rewrite Hr.
    by apply rts_after_set_same.
Qed.

(** ** States with an empty and with a single ready process *)

Lemma sched_rel_empty k :
  (∀ q, run_q_head k q = None) → (∀ q, run_q_tail k q = None) → (∀ n, rts k n ≠ 0) →
  sched_rel k (λ _, []).
Proof.
  intros Hh Ht Hr. split; [split|].
  - intros q Hq. by rewrite Hh.
  - intros q Hq. by rewrite Ht.
  - by intros q n _ ?%not_elem_of_nil.
  - intros n. rewrite runnable_rts, (proj2 (Z.eqb_neq _ _) (Hr n)). split; [done|].
    by intros (q & _ & ?%not_elem_of_nil).
Qed.

Lemma sched_rel_single k rp q :
  in_range q → valid_slot rp → rts k rp = 0 → p_priority (proctab k rp) = q →
  nextready k rp = None → (∀ q', run_q_head k q' = upd (λ _, None) q (Some rp) q') →
  (∀ q', run_q_tail k q' = upd (λ _, None) q (Some rp) q') → (∀ n, n ≠ rp → rts k n ≠ 0) →
  sched_rel k (upd (λ _, []) q [rp]).
Proof.
  intros Hq Hv Hr Hp Hn Hh Ht Ho. split; [split|].
  - intros q' Hq'. rewrite Hh. unfold upd. by case_decide.
  - intros q' Hq'. rewrite Ht. unfold upd. by case_decide.
  - intros q' n Hq'. unfold upd. case_decide; [|by intros ?%not_elem_of_nil].
    intros ->%list_elem_of_singleton. by subst.
  - intros n. rewrite runnable_rts. destruct (decide (n = rp)) as [->|Hne].
    + rewrite Hr. split; [|done]. intros _. exists q. rewrite upd_eq. split; [done|left].
    + rewrite (proj2 (Z.eqb_neq _ _) (Ho n Hne)). split; [done|].
      intros (q' & _ & Hin). unfold upd in Hin. case_decide; [|by apply not_elem_of_nil in Hin].
      by apply list_elem_of_singleton in Hin.
Qed.

(** Process 5 runs at priority 3, process 9 waits for a message at priority 1. *)
Definition sched_demo : kstate :=
  k0 <| proctab := upd (upd proc0 5 (proc0 5 <| p_rts_flags := 0 |> <| p_priority := 3 |> <| p_priv := Some 0 |>
                                       <| p_cpu_time_left := 77 |>))
                     9 (proc0 9 <| p_rts_flags := RTS_RECEIVING |> <| p_priority := 1 |>) |>
     <| privtab := upd priv0 0 (priv0 0 <| s_flags := Z.lor PREEMPTIBLE BILLABLE |>) |>
     <| run_q_head := upd (λ _, None) 3 (Some 5) |> <| run_q_tail := upd (λ _, None) 3 (Some 5) |>
     <| proc_ptr := 5 |> <| tsc := 1000 |>.

Lemma sched_demo_rel : sched_rel sched_demo (upd (λ _, []) 3 [5]).
Proof.
  apply sched_rel_single; try done; [split; vm_compute; congruence..|].
  intros n Hn. unfold rts, sched_demo. simpl. unfold upd. repeat case_decide; done.
Qed.

(** ** Properties *)

(** C9. The flag macros keep the run queues in step with the flags: from a state whose
    pointers represent the queues [Q] with exactly the runnable processes in them, [RTS_SET]
    and [RTS_UNSET] end without a panic in a state that represents the queues the
    specification gives ([RTS_SET]: the process taken out; [RTS_UNSET]: a process that has
    become runnable appended to the queue of its priority, and the running process taken out
    if it is preemptible and of lower priority), with exactly the run-time flags the
    specification gives, and nothing else of the kernel state changed. *)
Theorem rts_macros_refine k Q rp f :
  sched_rel k Q → valid_slot rp → in_range (p_priority (proctab k rp)) → f ≠ 0 →
  wp (RTS_SET rp f) (λ _ k', sched_rel k' (aq_remove rp Q) ∧ sched_frame k k' ∧
                      ∀ n, rts k' n = rts_after_set rp f k n) k ∧
  wp (RTS_UNSET rp f) (λ _ k', sched_rel k' (aq_unset k rp f Q) ∧ sched_frame k k' ∧
                        ∀ n, rts k' n = rts_unset k rp f n) k.
Proof. auto using RTS_SET_spec, RTS_UNSET_spec. Qed.

Lemma rts_macros_refine_witness :
  wp (RTS_UNSET 9 RTS_RECEIVING) (λ _ k', ∀ n, rts k' n = rts_unset sched_demo 9 RTS_RECEIVING n) sched_demo ∧
  rts_unset sched_demo 9 RTS_RECEIVING 5 = RTS_PREEMPTED.
Proof.
  split; [|done]. eapply wp_mono.
  - apply (rts_macros_refine sched_demo _ 9 RTS_RECEIVING sched_demo_rel); [split; vm_compute; congruence..|done].
  - naive_solver.
Defined.

(** [pick_proc]'s scan is work conserving and obeys the priorities: it returns a process
    iff one is runnable, the process it returns is runnable, at the head of its queue, and no
    runnable process has a better (smaller) priority; only [bill_ptr] may change. *)
Theorem pick_runq_highest k Q :
  sched_rel k Q →
  ∃ r k', pick_runq k = Ret (r, k') ∧
    match r with
    | None => k' = k ∧ ∀ n, proc_is_runnable k n = false
    | Some rp =>
        proc_is_runnable k rp = true ∧ head (Q (p_priority (proctab k rp))) = Some rp ∧
        (∀ n, proc_is_runnable k n = true → p_priority (proctab k rp) ≤ p_priority (proctab k n)) ∧
        k' = if has (s_flags (priv_of k rp)) BILLABLE then k <| bill_ptr := rp |> else k
    end.
Proof.
  intros HQ.
  assert (∀ q, in_range q → run_q_head k q = head (Q q)) as Hhd.
  { intros q Hq. by eapply chain_head, rq_chain; [apply HQ|]. }
  assert (∀ n, proc_is_runnable k n = true → in_range (p_priority (proctab k n)) ∧
    n ∈ Q (p_priority (proctab k n))) as Hrun.
  { intros n Hn. destruct (runnable_queued k Q n HQ); [by apply Z.eqb_eq|naive_solver]. }
  destruct (pick_from_spec k sched_queues) as (r & k' & Hpick & HP).
  { intros q rp Hq%elem_of_sched_queues. rewrite Hhd by done. intros Hh.
    apply (sr_runnable _ _ HQ). exists q. split; [done|]. destruct (Q q); simplify_eq/=. left. }
  exists r, k'. split; [done|]. destruct r as [rp|].
  - destruct HP as (l1 & q & l2 & Heq & Hh & Hl1 & ->).
    assert (in_range q) as Hq by (apply elem_of_sched_queues; rewrite Heq; set_solver).
    rewrite Hhd in Hh by done.
    assert (rp ∈ Q q) as Hin by (destruct (Q q); simplify_eq/=; left).
    destruct (queued_runnable _ _ _ _ HQ Hq Hin) as [Hr Hp]. rewrite Hp.
    split_and!; [by rewrite runnable_rts, Hr|done| |done].
    intros n (Hnq & Hnin)%Hrun. destruct (Z_lt_le_dec (p_priority (proctab k n)) q) as [Hlt|]; [|done].
    assert (run_q_head k (p_priority (proctab k n)) = None) as Hnone.
    { apply Hl1. eapply seqZ_split_lt; [done| |done]. by apply elem_of_sched_queues. }
    rewrite Hhd in Hnone by done. destruct (Q (p_priority (proctab k n))); [by apply not_elem_of_nil in Hnin|done].
  - destruct HP as [-> HP]. split; [done|]. intros n. destruct (proc_is_runnable k n) eqn:Hn; [|done].
    destruct (Hrun n Hn) as [Hq Hin]. specialize (HP _ (proj2 (elem_of_sched_queues _) Hq)).
    rewrite Hhd in HP by done. destruct (Q _); [by apply not_elem_of_nil in Hin|done].
Qed.

Lemma pick_runq_highest_witness : ∃ r k', pick_runq sched_demo = Ret (r, k') ∧ r = Some 5.
Proof.
  destruct (pick_runq_highest sched_demo _ sched_demo_rel) as (r & k' & H & _).
  exists r, k'. split; [done|]. vm_compute in H. by simplify_eq.
Defined.

(** The consistency check of the debugging code accepts every state in which the queues
    hold exactly the runnable processes: no check fails and no loop limit is hit. *)
Theorem runqueues_ok_complete k Q : sched_rel k Q → runqueues_ok_cpu k = true.
Proof.
  intros HQ. unfold runqueues_ok_cpu.
  destruct (check_queues_ok k Q HQ sched_queues []) as (found & Hf & Hin).
  - apply Forall_forall. intros q. apply elem_of_sched_queues.
  - apply NoDup_seqZ.
  - apply (all_queues_short k), HQ.
  - intros q x _ _. apply not_elem_of_nil.
  - change (Z.of_nat (length [])) with 0 in Hf. rewrite Hf. apply forallb_forall. intros x _.
    destruct (isemptyp k x); [done|]. destruct (proc_is_runnable k x) eqn:Hr; [|done].
    rewrite bool_decide_true; [done|]. apply Hin. right.
    apply (sr_runnable _ _ HQ) in Hr as (q & Hq & Hx). exists q. by rewrite elem_of_sched_queues.
Qed.

Lemma runqueues_ok_complete_witness : runqueues_ok_cpu sched_demo = true.
Proof. exact (runqueues_ok_complete sched_demo _ sched_demo_rel). Defined.

(** [sched_proc] with a priority and a quantum in range (or [-1] to keep them) ends with
    [OK]: the priority, the quantum and the remaining time of the process are the ones asked
    for, [RTS_NO_QUANTUM] is off, and the queues again hold exactly the runnable processes,
    so a runnable process is moved to the queue of its new priority. *)
Theorem sched_proc_ok k Q p priority quantum :
  sched_rel k Q → valid_slot p → in_range (p_priority (proctab k p)) →
  priority = -1 ∨ in_range priority → quantum = -1 ∨ 1 ≤ quantum →
  wp (sched_proc p priority quantum) (λ r k', r = OK ∧ (∃ Q', sched_rel k' Q') ∧
    p_priority (proctab k' p) = (if priority =? -1 then p_priority (proctab k p) else priority) ∧
    p_cpu_time_left (proctab k' p) =
      (if quantum =? -1 then p_cpu_time_left (proctab k p) else ms_2_cpu_time k quantum) ∧
    has (rts k' p) RTS_NO_QUANTUM = false ∧
    (rts k p = 0 → p ≠ proc_ptr k → rts k' p = 0)) k.
Proof.
  intros HQ Hv Hq Hprio Hquant. unfold sched_proc.
  assert (((priority <? TASK_Q) && negb (priority =? -1)) || (NR_SCHED_QUEUES <? priority) = false) as ->.
  { destruct Hprio as [->|[??]]; [done|]. unfold TASK_Q, NR_SCHED_QUEUES in *.
    rewrite (proj2 (Z.ltb_ge priority 0)), (proj2 (Z.ltb_ge 16 priority)) by lia. done. }
  assert ((quantum <? 1) && negb (quantum =? -1) = false) as ->.
  { destruct Hquant as [->|?]; [done|]. by rewrite (proj2 (Z.ltb_ge quantum 1)). }
  wp_steps. eapply wp_mono; [by apply sched_proc_stop|].
  intros [] k1 (HS1 & Hf1 & Hr1 & Hother & Hcl). wp_steps.
  eapply wp_mono; [by apply sched_set_spec|].
  intros [] k3 (HS3 & Hr3 & Hpp & Hp3 & Ht3). wp_steps.
  rewrite (priority_frame _ _ p Hf1) in Hp3.
  eapply wp_mono; [apply (RTS_UNSET_spec k3 _ p RTS_NO_QUANTUM HS3 Hv)|].
  { rewrite Hp3. destruct (Z.eqb_spec priority (-1)); [done|]. by destruct Hprio. }
  intros [] k4 (HS4 & Hf4 & Hr4). wp_steps. split_and!; [done|by eexists| | | |].
  - by rewrite (priority_frame _ _ p Hf4).
  - rewrite (sched_frame_field p_cpu_time_left _ _ p Hf4), Ht3 by done.
    rewrite (sched_frame_field p_cpu_time_left _ _ p Hf1) by done.
    unfold ms_2_cpu_time. by rewrite (sched_frame_state tsc_per_ms _ _ Hf1).
  - rewrite Hr4. by apply rts_unset_self.
  - intros H0 Hne. rewrite Hr4. unfold rts_unset.
    rewrite Hpp, (sched_frame_state proc_ptr _ _ Hf1) by done.
    rewrite (bool_decide_false (p = proc_ptr k)), andb_false_r by done.
    unfold rts_after_unset. by rewrite decide_True, Hr3, Hcl, H0.
Qed.

Lemma sched_proc_ok_witness :
  wp (sched_proc 5 7 200) (λ r k', r = OK ∧ p_priority (proctab k' 5) = 7) sched_demo.
Proof.
  eapply wp_mono.
  - apply (sched_proc_ok sched_demo _ 5 7 200 sched_demo_rel); [split; vm_compute; congruence..|right; split; vm_compute; congruence|right; lia].
  - naive_solver.
Defined.

(** The range check of [sched_proc] lets the priority [NR_SCHED_QUEUES] through, one past
    the last queue: a process that this call makes runnable is then linked into a queue
    outside the run-queue arrays. *)
Theorem sched_proc_off_by_one k Q p :
  sched_rel k Q → clear_flag RTS_NO_QUANTUM (rts k p) = 0 →
  sched_proc p NR_SCHED_QUEUES (-1) k = Panic "run_q index out of bounds".
Proof.
  intros HQ H0. unfold sched_proc. simpl.
  destruct (wp_inv _ _ _ (sched_proc_stop _ _ p HQ)) as ([] & k1 & Hk1 & _ & _ & Hr1 & _ & Hcl).
  unfold mbind, M_bind. rewrite Hk1. simpl. unfold RTS_UNSET, gets, mbind, M_bind, modify_proc, modify.
  set (k2 := upd_proc p (λ r, r <| p_priority := NR_SCHED_QUEUES |>) k1).
  set (k3 := upd_proc p (λ r, r <| p_rts_flags ::= clear_flag RTS_NO_QUANTUM |>) k2).
  assert (rts k3 p = 0 ∧ p_priority (proctab k3 p) = NR_SCHED_QUEUES) as [Hr3 Hp3].
  { unfold rts. subst k3 k2. rewrite !proctab_upd_proc, !decide_True by done.
    split; [|done]. by rewrite <-H0, <-Hcl. }
  assert (p_rts_flags (proctab k2 p) = rts k1 p) as ->.
  { subst k2. by rewrite proctab_upd_proc, decide_True. }
  rewrite runnable_rts, Hr3. unfold rts_f_is_runnable. rewrite (proj2 (Z.eqb_neq _ _) Hr1). simpl.
  unfold enqueue, gets, mbind, M_bind, assert_, check_queue. by rewrite runnable_rts, Hr3, Hp3.
Qed.

Lemma sched_proc_off_by_one_witness :
  sched_proc 5 NR_SCHED_QUEUES (-1) sched_demo = Panic "run_q index out of bounds".
Proof. apply (sched_proc_off_by_one sched_demo _ 5 sched_demo_rel). reflexivity. Defined.

(** [enqueue] is meant to note when the process was put on its queue; it stamps the
    running process instead, so that the time the queued process waits is never counted. *)
Theorem enqueue_stamps_running_process :
  ∃ k', RTS_UNSET 9 RTS_RECEIVING sched_demo = Ret ((), k') ∧
    enter_queue (p_accounting (proctab k' 9)) = 0 ∧
    enter_queue (p_accounting (proctab k' 5)) = tsc sched_demo.
Proof. eexists. split; [vm_compute; reflexivity|]. split; reflexivity. Qed.
