(* ===== verification/IpcInv.v ===== *)
(** * The invariant of message passing

    What ties together the fields of the process table that the IPC primitives of
    kernel/proc.c work on: the queues of blocked senders ([p_caller_q] and [p_q_link]), the
    flags [RTS_SENDING], [RTS_RECEIVING] and [MF_DELIVERMSG], the endpoints a process waits
    for, and the graph of who waits for whom, which [deadlock()] walks. *)
From S2P Require Import Prelude LinkedList Kernel Endpoint Sched.

Definition q_link (k : kstate) : Z → option Z := λ n, p_q_link (proctab k n).
Definition sending (k : kstate) (n : Z) : bool := has (rts k n) RTS_SENDING.
Definition receiving (k : kstate) (n : Z) : bool := has (rts k n) RTS_RECEIVING.
Definition delivering (k : kstate) (n : Z) : bool := has (p_misc_flags (proctab k n)) MF_DELIVERMSG.
Definition slot_free (k : kstate) (n : Z) : bool := has (rts k n) RTS_SLOT_FREE.

(** The process that [n] waits for, when it waits for one. *)
Definition wait_next (k : kstate) (n : Z) : option Z :=
  let e := P_BLOCKEDON k n in
  if (e =? NONE) || (e =? ANY) then None else Some (ENDPOINT_P e).

(** Following who waits for whom always ends. *)
Definition no_deadlock (k : kstate) : Prop :=
  ∀ n, valid_slot n → ∃ l, chain (wait_next k) (Some n) l None.

(** What holds between any two steps of the kernel's IPC code, also while a queue of senders
    is being edited. *)
Record ipc_base (k : kstate) (Q : Z → list Z) : Prop := {
  ib_sched : sched_rel k Q;
  ib_prio : ∀ n, valid_slot n → in_range (p_priority (proctab k n));
  ib_endpt : endpoints_wf k;
  ib_deliver : ∀ n, valid_slot n → receiving k n = true → delivering k n = false;
  ib_free : ∀ n, valid_slot n → slot_free k n = true → rts k n = RTS_SLOT_FREE;
  ib_ptr : slot_free k (proc_ptr k) = false;
}.

Record ipc_inv (k : kstate) (Q C : Z → list Z) : Prop := {
  ii_base : ipc_base k Q;
  (* the senders blocked on [d], in the order they came *)
  ii_callers : ∀ d, valid_slot d → chain (q_link k) (p_caller_q (proctab k d)) (C d) None;
  ii_queued : ∀ d n, valid_slot d →
    n ∈ C d ↔ valid_slot n ∧ sending k n = true ∧ ENDPOINT_P (p_sendto_e (proctab k n)) = d;
  ii_link : ∀ n, valid_slot n → sending k n = false → q_link k n = None;
  (* a blocked process waits for a process in use *)
  ii_sendto : ∀ n, valid_slot n → sending k n = true →
    isokendpt k (p_sendto_e (proctab k n)) = Some (ENDPOINT_P (p_sendto_e (proctab k n)));
  ii_getfrom : ∀ n, valid_slot n → receiving k n = true → p_getfrom_e (proctab k n) = ANY ∨
    isokendpt k (p_getfrom_e (proctab k n)) = Some (ENDPOINT_P (p_getfrom_e (proctab k n)));
  (* sending and receiving: a SENDREC to one process *)
  ii_sendrec : ∀ n, valid_slot n → sending k n = true → receiving k n = true →
    p_getfrom_e (proctab k n) = p_sendto_e (proctab k n);
  ii_waits : no_deadlock k;
}.

(** ** Flags *)

Lemma isset_sending k n : RTS_ISSET k n RTS_SENDING = sending k n.
Proof. exact (isset_has_bit (rts k n) 2 ltac:(lia)). Qed.
Lemma isset_receiving k n : RTS_ISSET k n RTS_RECEIVING = receiving k n.
Proof. exact (isset_has_bit (rts k n) 3 ltac:(lia)). Qed.
Lemma isset_slot_free k n : RTS_ISSET k n RTS_SLOT_FREE = slot_free k n.
Proof. exact (isset_has_bit (rts k n) 0 ltac:(lia)). Qed.
Lemma isset_no_endpoint k n : RTS_ISSET k n RTS_NO_ENDPOINT = has (rts k n) RTS_NO_ENDPOINT.
Proof. exact (isset_has_bit (rts k n) 8 ltac:(lia)). Qed.

Lemma WILLRECEIVE_eq k d e :
  WILLRECEIVE k d e = receiving k d && negb (sending k d) &&
    ((p_getfrom_e (proctab k d) =? ANY) || (p_getfrom_e (proctab k d) =? e)).
Proof. unfold WILLRECEIVE. by rewrite isset_sending, isset_receiving. Qed.

Lemma P_BLOCKEDON_eq k n :
  P_BLOCKEDON k n = if sending k n then p_sendto_e (proctab k n)
                    else if receiving k n then p_getfrom_e (proctab k n) else NONE.
Proof. done. Qed.

Lemma isemptyp_free k n : slot_free k n = false → isemptyp k n = false.
Proof.
  unfold slot_free, isemptyp. fold (rts k n). intros H. apply Z.eqb_neq. intros H1. by rewrite H1 in H.
Qed.

(** What the flag macros do to one flag: [g] is a bit other than [RTS_PREEMPTED]. *)
Lemma has_rts_unset k rp f g n :
  Z.land RTS_PREEMPTED g = 0 →
  has (rts_unset k rp f n) g = has (rts_after_unset rp f k n) g.
Proof. intros Hg. unfold rts_unset. case_bool; [|done]. by rewrite has_set_other. Qed.
Lemma has_rts_unset_other k rp f g n :
  Z.land RTS_PREEMPTED g = 0 → Z.land f g = 0 → has (rts_unset k rp f n) g = has (rts k n) g.
Proof.
  intros Hg Hf. rewrite has_rts_unset by done. unfold rts_after_unset.
  case_decide; [subst|done]. by rewrite has_clear_other.
Qed.
Lemma has_rts_set_other k rp f g n :
  Z.land f g = 0 → has (rts_after_set rp f k n) g = has (rts k n) g.
Proof. intros Hf. unfold rts_after_set. case_decide; [subst|done]. by rewrite has_set_other. Qed.

(** ** Keeping the invariant *)

Definition ipcview (p : proc) : Z * Z * option Z * option Z * Z * Z :=
  (p_priority p, p_endpoint p, p_caller_q p, p_q_link p, p_sendto_e p, p_getfrom_e p).

Lemma ipcview_frame k k' n : sched_frame k k' → ipcview (proctab k' n) = ipcview (proctab k n).
Proof. intros Hf. by apply (sched_frame_field ipcview _ _ n Hf). Qed.

(** States that differ in how their process table was put together. *)
Lemma sched_frame_pointwise k k' :
  (∀ n, proctab k' n = proctab k n) → k = k' <| proctab := proctab k |> → sched_frame k k'.
Proof.
  intros Hp He. split; [|by intros n; rewrite Hp].
  rewrite He at 1. by rewrite He.
Qed.

Lemma IPC_STATUS_ADD_view {A} (f : proc → A) m p :
  (∀ p r, f (p <| p_reg := r |>) = f p) → f (IPC_STATUS_ADD m p) = f p.
Proof. intros Hf. unfold IPC_STATUS_ADD. case_bool; [done|]. apply (Hf p). Qed.

Lemma isokendpt_stable k k' e p :
  (∀ n, p_endpoint (proctab k' n) = p_endpoint (proctab k n)) →
  (isemptyp k p = false → isemptyp k' p = false) →
  isokendpt k e = Some p → isokendpt k' e = Some p.
Proof. intros He Hf. rewrite !isokendpt_Some, He. naive_solver. Qed.

Lemma no_deadlock_shrink k k' :
  (∀ n, wait_next k' n = wait_next k n ∨ wait_next k' n = None) → no_deadlock k → no_deadlock k'.
Proof.
  intros Hsub Hk n Hn. destruct (Hk n Hn) as [l Hl]. clear Hn. revert n Hl.
  induction l as [|x l IH]; intros n; simpl; [done|]. intros [[= ->] Hc].
  destruct (Hsub x) as [Hx|Hx].
  - destruct l as [|y l].
    + exists [x]. simpl. by rewrite Hx.
    + simpl in Hc. destruct Hc as [Hy Hc]. destruct (IH y) as [l' Hl']; [done|].
      exists (x :: l'). simpl. by rewrite Hx, Hy.
  - exists [x]. simpl. by rewrite Hx.
Qed.

(** Blocking [c] on [d] closes no cycle when [d] does not, in the end, wait for [c]. *)
Lemma wait_add (next next' : Z → option Z) c d l :
  (∀ n, n ≠ c → next' n = next n) → next c = None → next' c = Some d →
  chain next (Some d) l None → c ∉ l →
  ∀ n ln, chain next (Some n) ln None → ∃ ln', chain next' (Some n) ln' None.
Proof.
  intros Hsame Hc Hc' Hl Hnin n ln Hn.
  assert (chain next' (Some d) l None) as Hl'.
  { eapply chain_ext; [|done]. intros x Hx. symmetry. apply Hsame. by intros ->. }
  destruct (decide (c ∈ ln)) as [Hin|Hin].
  - apply list_elem_of_split in Hin as (l1 & l2 & ->).
    apply chain_app in Hn as Hn'. destruct Hn' as (m & Hm1 & Hm2). simpl in Hm2. destruct Hm2 as [-> Hm2].
    exists (l1 ++ c :: l). apply chain_app. exists (Some c). split.
    + eapply chain_ext; [|done]. intros x Hx. symmetry. apply Hsame. intros ->.
      apply chain_NoDup in Hn. apply NoDup_app in Hn as (_ & Hd & _). by eapply Hd; [|left].
    + simpl. by rewrite Hc'.
  - exists ln. eapply chain_ext; [|done]. intros x Hx. symmetry. apply Hsame. by intros ->.
Qed.

(** Steps that take no part in the queues of senders and block nobody. *)
Record ipc_pres (k k' : kstate) : Prop := {
  ip_view : ∀ n, ipcview (proctab k' n) = ipcview (proctab k n);
  ip_sending : ∀ n, sending k' n = sending k n;
  ip_free : ∀ n, slot_free k' n = slot_free k n;
  ip_recv : ∀ n, receiving k' n = true → receiving k n = true;
  ip_ptr : proc_ptr k' = proc_ptr k;
}.
#[export] Instance ipc_pres_refl : Reflexive ipc_pres.
Proof. by intros k. Qed.
#[export] Instance ipc_pres_trans : Transitive ipc_pres.
Proof. intros k1 k2 k3 [] []. split; intros; try (etrans; eauto); eauto. Qed.

(** A step between states that satisfy the base invariant. *)
Definition base_step (k k' : kstate) : Prop := (∃ Q', ipc_base k' Q') ∧ ipc_pres k k'.
Lemma base_step_trans k1 k2 k3 : base_step k1 k2 → base_step k2 k3 → base_step k1 k3.
Proof. intros [_ H1] [HQ H2]. split; [done|by etrans]. Qed.

Section ipc_pres.
Context (k k' : kstate) (H : ipc_pres k k').
Lemma pres_fields n :
  p_priority (proctab k' n) = p_priority (proctab k n) ∧
  p_endpoint (proctab k' n) = p_endpoint (proctab k n) ∧
  p_caller_q (proctab k' n) = p_caller_q (proctab k n) ∧ q_link k' n = q_link k n ∧
  p_sendto_e (proctab k' n) = p_sendto_e (proctab k n) ∧
  p_getfrom_e (proctab k' n) = p_getfrom_e (proctab k n).
Proof using H. pose proof (ip_view _ _ H n) as E. unfold ipcview in E. by simplify_eq. Qed.
Lemma pres_endpoint n : p_endpoint (proctab k' n) = p_endpoint (proctab k n).
Proof using H. apply pres_fields. Qed.
End ipc_pres.

Section base.
Context (k : kstate) (Q : Z → list Z) (HB : ipc_base k Q).

Lemma ipc_base_step k' Q' :
  sched_rel k' Q' → ipc_pres k k' →
  (∀ n, valid_slot n → receiving k' n = true → delivering k' n = false) →
  (∀ n, slot_free k n = true → rts k' n = rts k n) → ipc_base k' Q'.
Proof using HB.
  intros HS HP Hdel Hfr. split; auto.
  - intros n Hn. destruct (pres_fields _ _ HP n) as [-> _]. by apply (ib_prio _ _ HB).
  - intros n Hn. rewrite (pres_endpoint _ _ HP). by apply (ib_endpt _ _ HB).
  - intros n Hn. rewrite (ip_free _ _ HP). intros H. rewrite Hfr by done. by apply (ib_free _ _ HB).
  - rewrite (ip_ptr _ _ HP), (ip_free _ _ HP). apply HB.
Qed.

(** A free slot keeps its flags when another process is woken up. *)
Lemma free_rts_unset d f n :
  slot_free k d = false → slot_free k n = true → rts_unset k d f n = rts k n.
Proof using HB.
  intros Hd Hn. unfold rts_unset, rts_after_unset.
  rewrite decide_False, (bool_decide_false (n = proc_ptr k)), andb_false_r; [done| |by intros ->; congruence].
  intros ->. pose proof (ib_ptr _ _ HB). congruence.
Qed.
Lemma receiving_not_free d : valid_slot d → receiving k d = true → slot_free k d = false.
Proof using HB.
  intros Hv Hr. destruct (slot_free k d) eqn:E; [|done].
  pose proof (ib_free _ _ HB d Hv E) as H. unfold receiving in Hr. by rewrite H in Hr.
Qed.
Lemma sending_not_free d : valid_slot d → sending k d = true → slot_free k d = false.
Proof using HB.
  intros Hv Hr. destruct (slot_free k d) eqn:E; [|done].
  pose proof (ib_free _ _ HB d Hv E) as H. unfold sending in Hr. by rewrite H in Hr.
Qed.
Lemma isokendpt_not_free e d : isokendpt k e = Some d → slot_free k d = false.
Proof using HB.
  intros (Hv & He & _)%isokendpt_Some. destruct (slot_free k d) eqn:E; [|done].
  pose proof (ib_free _ _ HB d Hv E) as H. unfold isemptyp in He. fold (rts k d) in He. by rewrite H in He.
Qed.
Lemma isokendpt_pres k' e p : ipc_pres k k' → isokendpt k e = Some p → isokendpt k' e = Some p.
Proof using HB.
  intros HP He. eapply isokendpt_stable; [by apply pres_endpoint| |done].
  intros _. apply isemptyp_free. rewrite (ip_free _ _ HP). by eapply isokendpt_not_free.
Qed.
End base.

Lemma ipc_inv_pres k k' Q Q' C :
  ipc_inv k Q C → ipc_pres k k' → ipc_base k' Q' → ipc_inv k' Q' C.
Proof.
  intros HI HP HB. pose proof (ii_base _ _ _ HI) as HB0. pose proof (pres_fields _ _ HP) as Hf.
  pose proof (ip_sending _ _ HP) as Hs. split; auto.
  - intros d Hd. destruct (Hf d) as (_ & _ & -> & _).
    eapply chain_ext; [|by apply (ii_callers _ _ _ HI)]. intros n _. symmetry. apply Hf.
  - intros d n Hd. rewrite Hs. destruct (Hf n) as (_ & _ & _ & _ & -> & _). by apply (ii_queued _ _ _ HI).
  - intros n Hn. rewrite Hs. destruct (Hf n) as (_ & _ & _ & -> & _). by apply (ii_link _ _ _ HI).
  - intros n Hn. rewrite Hs. destruct (Hf n) as (_ & _ & _ & _ & -> & _). intros H.
    by apply (isokendpt_pres k Q HB0), (ii_sendto _ _ _ HI).
  - intros n Hn H%(ip_recv _ _ HP). destruct (Hf n) as (_ & _ & _ & _ & _ & ->).
    destruct (ii_getfrom _ _ _ HI n Hn H); [by left|right]. by apply (isokendpt_pres k Q HB0).
  - intros n Hn. rewrite Hs. destruct (Hf n) as (_ & _ & _ & _ & -> & ->). intros H1 H2%(ip_recv _ _ HP).
    by apply (ii_sendrec _ _ _ HI).
  - apply (no_deadlock_shrink k); [|apply HI]. intros n. unfold wait_next.
    rewrite !P_BLOCKEDON_eq, Hs. destruct (Hf n) as (_ & _ & _ & _ & -> & ->).
    destruct (sending k n); [by left|]. destruct (receiving k' n) eqn:E; [|by right].
    apply (ip_recv _ _ HP) in E as ->. by left.
Qed.

Lemma ipc_inv_step k k' Q C : ipc_inv k Q C → base_step k k' → ∃ Q', ipc_inv k' Q' C.
Proof. intros HI [[Q' HB] HP]. exists Q'. by eapply ipc_inv_pres. Qed.

(** The flags of a state in which [d] has stopped receiving. *)
Section unset_receiving.
Context (k k' : kstate) (d : Z) (Hr : ∀ n, rts k' n = rts_unset k d RTS_RECEIVING n).
Lemma sending_unset_receiving n : sending k' n = sending k n.
Proof using Hr. unfold sending. rewrite Hr. by apply has_rts_unset_other. Qed.
Lemma slot_free_unset_receiving n : slot_free k' n = slot_free k n.
Proof using Hr. unfold slot_free. rewrite Hr. by apply has_rts_unset_other. Qed.
Lemma receiving_unset_receiving n : receiving k' n = if decide (n = d) then false else receiving k n.
Proof using Hr.
  unfold receiving. rewrite Hr, has_rts_unset by done. unfold rts_after_unset.
  case_decide; [|done]. apply has_clear_self.
Qed.
End unset_receiving.

(** Delivering a message to [d] by changes that the queues do not see, then waking it up. *)
Lemma base_step_delivered k k1 k' Q Q' d :
  ipc_base k Q → valid_slot d → receiving k d = true → sched_same k k1 →
  (∀ n, ipcview (proctab k1 n) = ipcview (proctab k n)) →
  (∀ n, n ≠ d → delivering k1 n = delivering k n) →
  sched_rel k' Q' → sched_frame k1 k' → (∀ n, rts k' n = rts_unset k d RTS_RECEIVING n) →
  base_step k k'.
Proof.
  intros HB Hv Hrecv Hsame Hview Hdel HS Hf Hr.
  pose proof (receiving_not_free _ _ HB _ Hv Hrecv) as Hfree.
  assert (ipc_pres k k') as HP.
  { split.
    - intros n. by rewrite (ipcview_frame _ _ _ Hf).
    - by eapply sending_unset_receiving.
    - by eapply slot_free_unset_receiving.
    - intros n. rewrite (receiving_unset_receiving k k' d) by done. by case_decide.
    - rewrite (sched_frame_state proc_ptr _ _ Hf) by done. apply Hsame. }
  split; [|done]. exists Q'. eapply ipc_base_step; eauto.
  - intros n Hvn. rewrite (receiving_unset_receiving k k' d) by done. case_decide as Hn; [done|].
    intros Hrn. unfold delivering. rewrite (sched_frame_field p_misc_flags _ _ n Hf) by done.
    fold (delivering k1 n). rewrite Hdel by done. by apply (ib_deliver _ _ HB).
  - intros n Hn. rewrite Hr. by eapply free_rts_unset.
Qed.

(** ** States in which nobody sends *)

Lemma ipc_inv_quiet k :
  (∀ q, run_q_head k q = None) → (∀ q, run_q_tail k q = None) → (∀ n, rts k n ≠ 0) →
  (∀ n, p_caller_q (proctab k n) = None ∧ p_q_link (proctab k n) = None ∧ in_range (p_priority (proctab k n))) →
  (∀ n, sending k n = false) → endpoints_wf k →
  (∀ n, receiving k n = true → p_getfrom_e (proctab k n) = ANY ∧ delivering k n = false) →
  (∀ n, slot_free k n = true → rts k n = RTS_SLOT_FREE) → slot_free k (proc_ptr k) = false →
  ipc_inv k (λ _, []) (λ _, []).
Proof.
  intros Hh Ht Hr Hq Hs He Hrecv Hfree Hptr.
  assert (∀ n, wait_next k n = None) as Hw.
  { intros n. unfold wait_next. rewrite P_BLOCKEDON_eq, Hs.
    destruct (receiving k n) eqn:E; [|done]. apply Hrecv in E as [-> _]. done. }
  split; try done.
  - split; try done.
    + by apply sched_rel_empty.
    + intros n _. apply Hq.
    + intros n _ H. by apply Hrecv.
    + intros n _ H. by apply Hfree.
  - intros d _. by destruct (Hq d) as [-> _].
  - intros d n _. rewrite Hs. split; [by intros ?%not_elem_of_nil|naive_solver].
  - intros n _ _. apply Hq.
  - intros n _ H. rewrite Hs in H. done.
  - intros n _ [H _]%Hrecv. by left.
  - intros n _ H. rewrite Hs in H. done.
  - intros n _. exists [n]. simpl. by rewrite Hw.
Qed.

(** The same, for a table in which only a few slots differ from an empty one. *)
Definition quiet_proc (n : Z) (p : proc) : bool :=
  negb (p_rts_flags p =? 0) && is_null (p_caller_q p) && is_null (p_q_link p) &&
  (0 <=? p_priority p) && (p_priority p <? NR_SCHED_QUEUES) && negb (has (p_rts_flags p) RTS_SENDING) &&
  (ENDPOINT_P (p_endpoint p) =? n) &&
  (negb (has (p_rts_flags p) RTS_RECEIVING) ||
   (p_getfrom_e p =? ANY) && negb (has (p_misc_flags p) MF_DELIVERMSG)) &&
  (negb (has (p_rts_flags p) RTS_SLOT_FREE) || (p_rts_flags p =? RTS_SLOT_FREE)).

Record quiet_prop (n : Z) (p : proc) : Prop := {
  qp_rts : p_rts_flags p ≠ 0;
  qp_links : p_caller_q p = None ∧ p_q_link p = None ∧ in_range (p_priority p);
  qp_sending : has (p_rts_flags p) RTS_SENDING = false;
  qp_endpt : valid_slot n → ENDPOINT_P (p_endpoint p) = n;
  qp_recv : has (p_rts_flags p) RTS_RECEIVING = true → p_getfrom_e p = ANY ∧ has (p_misc_flags p) MF_DELIVERMSG = false;
  qp_free : has (p_rts_flags p) RTS_SLOT_FREE = true → p_rts_flags p = RTS_SLOT_FREE;
}.
Lemma quiet_proc_prop n p : quiet_proc n p = true → quiet_prop n p.
Proof.
  unfold quiet_proc. rewrite !andb_true_iff, !orb_true_iff, !andb_true_iff, !negb_true_iff.
  rewrite !Z.eqb_eq, Z.eqb_neq, Z.leb_le, Z.ltb_lt. intros [[[[[[[[? ?] ?] ?] ?] ?] ?] Hr] Hf].
  split; [done| |done|done| |].
  - split_and!; [by destruct (p_caller_q p)|by destruct (p_q_link p)|done].
  - intros E. rewrite E in Hr. by destruct Hr.
  - intros E. rewrite E in Hf. by destruct Hf.
Qed.
Lemma quiet_proc0 n : quiet_prop n (proc0 n).
Proof.
  split; try done. intros Hn. simpl. unfold valid_slot, NR_TASKS, NR_PROCS in Hn.
  unfold ENDPOINT_P. change ENDPOINT_GENERATION_SIZE with 36558. unfold MAX_NR_TASKS.
  rewrite i32_id, Z.rem_mod_nonneg, Z.mod_small by lia. lia.
Qed.
Lemma ipc_inv_quiet_slots k l :
  (∀ q, run_q_head k q = None) → (∀ q, run_q_tail k q = None) →
  forallb (λ n, quiet_proc n (proctab k n)) l = true → slot_free k (proc_ptr k) = false →
  (∀ n, n ∉ l → proctab k n = proc0 n) → ipc_inv k (λ _, []) (λ _, []).
Proof.
  intros Hh Ht Hl Hp Ho. assert (∀ n, quiet_prop n (proctab k n)) as HQ.
  { intros n. destruct (decide (n ∈ l)) as [Hin|Hin]; [|rewrite Ho by done; apply quiet_proc0].
    apply quiet_proc_prop. rewrite forallb_forall in Hl. by apply Hl, list_elem_of_In. }
  apply ipc_inv_quiet; try done; intros n; apply HQ.
Qed.

(** PM (slot 0) waits for any message, process 20, which PM manages, is out of quantum. *)
Definition ipc_demo : kstate :=
  k0 <| proctab := upd (upd (upd (upd proc0
          SYSTEM (proc0 SYSTEM <| p_rts_flags := RTS_PROC_STOP |> <| p_priv := Some 2 |>))
          0 (proc0 0 <| p_rts_flags := RTS_RECEIVING |> <| p_getfrom_e := ANY |> <| p_priv := Some 0 |>))
          20 (proc0 20 <| p_rts_flags := RTS_NO_QUANTUM |> <| p_priv := Some 1 |>))
          IDLE_PTR (proc0 IDLE_PTR <| p_rts_flags := RTS_PROC_STOP |>) |>
     <| privtab := upd (upd (upd priv0 0 (priv0 0 <| s_proc_nr := 0 |>))
                     1 (priv0 1 <| s_sig_mgr := 0 |> <| s_proc_nr := 20 |>))
                     2 (priv0 2 <| s_proc_nr := SYSTEM |>) |>.

Lemma ipc_demo_inv : ipc_inv ipc_demo (λ _, []) (λ _, []).
Proof.
  apply (ipc_inv_quiet_slots _ [SYSTEM; 0; 20; IDLE_PTR]); [done..|].
  intros n Hn. unfold ipc_demo. simpl. rewrite !upd_ne by (intros ->; set_solver). done.
Qed.
