(* ===== verification/Notify.v ===== *)
(** * Notifications and signals to signal managers
      ([mini_notify] of kernel/proc.c; [send_sig], [cause_sig], [sig_delay_done] of kernel/system.c)

    A notification is delivered at once to a process that waits for it, and is otherwise
    remembered as one bit of the target's [s_notify_pending] map, so that it is never lost
    and never blocks the sender.  Signals are notifications from SYSTEM with a set of pending
    signals kept in the target's privilege structure.

    [cause_sig] calls itself after it has replaced the signal manager by the backup one; the
    backup is then cleared, so the recursion is at most one deep ([cause_sig_fuel_enough]). *)
From S2P Require Import Prelude LinkedList Kernel Endpoint Sched IpcInv.

(** ** Signals *)

Definition SIGILL : Z := 4.
Definition SIGTRAP : Z := 5.
Definition SIGABRT : Z := 6.
Definition SIGBUS : Z := 7.
Definition SIGFPE : Z := 8.
Definition SIGSEGV : Z := 11.
Definition SIGEMT : Z := 16.
Definition SIGSNDELAY : Z := 26.
Definition SIGKMEM : Z := 27.
Definition SIGKMESS : Z := 28.
Definition SIGKSIGSM : Z := 29.
Definition SIGKSIG : Z := 30.

Definition H_STABLE : Z := 0.
Definition H_UNSTABLE : Z := 1.

Definition sigmask (n : Z) : Z := Z.shiftl 1 n.
Definition sigaddset (n : Z) (s : Z) : Z := set_flag (sigmask n) s.
Definition sigdelset (n : Z) (s : Z) : Z := clear_flag (sigmask n) s.
Definition sigismember (s n : Z) : bool := has s (sigmask n).
Definition SIGS_IS_LETHAL (sig : Z) : bool :=
  (sig =? SIGILL) || (sig =? SIGBUS) || (sig =? SIGFPE) || (sig =? SIGSEGV) || (sig =? SIGEMT) ||
  (sig =? SIGABRT).

(** ** Operations *)

(** The message part of [BuildNotifyMessage]: what it stores through [m_ptr];
    [get_uptime()] is the tick count. *)
Definition notify_message (k : kstate) (src dst_ptr : Z) (m : message) : message :=
  let m := set_NOTIFY_TIMESTAMP (uptime k) (m <| m_type := NOTIFY_MESSAGE |>) in
  if src =? HARDWARE then set_NOTIFY_ARG (s_int_pending (priv_of k dst_ptr)) m
  else if src =? SYSTEM then set_NOTIFY_ARG (s_sig_pending (priv_of k dst_ptr)) m
  else m.
(** The privilege structure part: the pending set that has been reported is cleared. *)
Definition notify_taken (src : Z) (s : priv) : priv :=
  if src =? HARDWARE then s <| s_int_pending := 0 |>
  else if src =? SYSTEM then s <| s_sig_pending := 0 |>
  else s.
(** [BuildNotifyMessage(&dst_ptr->p_delivermsg, src, dst_ptr)]. *)
Definition BuildNotifyMessage (src dst_ptr : Z) : K unit :=
  k ← gets (λ k, k);
  modify_proc dst_ptr (λ p, p <| p_delivermsg ::= notify_message k src dst_ptr |>);;
  modify_priv (priv_id k dst_ptr) (notify_taken src).

Definition mini_notify (caller_ptr dst_e : Z) : K Z :=
  ok ← gets (λ k, isokendpt k dst_e);
  match ok with
  | None => mret EDEADSRCDST
  | Some dst_ptr =>
      caller_e ← gets (λ k, p_endpoint (proctab k caller_ptr));
      ready ← gets (λ k, WILLRECEIVE k dst_ptr caller_e &&
                          negb (has (p_misc_flags (proctab k dst_ptr)) MF_REPLY_PEND));
      if ready : bool then
        assert_ (λ k, negb (delivering k dst_ptr)) "mini_notify: MF_DELIVERMSG";;
        BuildNotifyMessage caller_ptr dst_ptr;;
        modify_proc dst_ptr (λ p, p <| p_delivermsg ::= λ m, m <| m_source := caller_e |> |>
                                    <| p_misc_flags ::= set_flag MF_DELIVERMSG |>);;
        modify_proc dst_ptr (IPC_STATUS_ADD_CALL NOTIFY);;
        RTS_UNSET dst_ptr RTS_RECEIVING;;
        mret OK
      else
        src_id ← gets (λ k, s_id (priv_of k caller_ptr));
        dst_id ← gets (λ k, priv_id k dst_ptr);
        modify_priv dst_id (λ s, s <| s_notify_pending ::= set_sys_bit src_id |>);;
        mret OK
  end.

Definition send_sig (ep sig_nr : Z) : K Z :=
  ok ← gets (λ k, isokendpt k ep);
  match ok with
  | None => mret EINVAL
  | Some rp =>
      empty ← gets (λ k, isemptyp k rp);
      if empty : bool then mret EINVAL
      else
        pr ← gets (λ k, p_priv (proctab k rp));
        match pr with
        | None => mret ENOENT
        | Some i =>
            modify_priv i (λ s, s <| s_sig_pending ::= sigaddset sig_nr |>);;
            e ← gets (λ k, p_endpoint (proctab k rp));
            mini_notify SYSTEM e;;
            mret OK
        end
  end.

(** [if (OK != send_sig(...)) panic("send_sig failed")]. *)
Definition must_send_sig (ep sig_nr : Z) : K unit :=
  r ← send_sig ep sig_nr;
  if r =? OK then mret () else panic "send_sig failed".

(** The body of [cause_sig]; [again] is its recursive call. *)
Definition cause_sig_body (again : K unit) (proc_nr sig_nr : Z) : K unit :=
  e ← gets (λ k, p_endpoint (proctab k proc_nr));
  mgr ← gets (λ k, s_sig_mgr (priv_of k proc_nr));
  let sig_mgr := if mgr =? SELF then e else mgr in
  unstable ← gets (λ k, h_unstable_state (kh k));
  if unstable =? H_UNSTABLE then mret ()
  else if e =? sig_mgr then
    if SIGS_IS_LETHAL sig_nr then
      bak ← gets (λ k, s_bak_sig_mgr (priv_of k proc_nr));
      ok ← gets (λ k, isokendpt k bak);
      match (if bak =? NONE then None else ok) with
      | Some sig_mgr_rp =>
          i ← gets (λ k, priv_id k proc_nr);
          modify_priv i (λ s, s <| s_sig_mgr := bak |>);;
          modify_priv i (λ s, s <| s_bak_sig_mgr := NONE |>);;
          RTS_UNSET sig_mgr_rp RTS_NO_PRIV;;
          again
      | None => panic "cause_sig: sig manager gets lethal signal for itself"
      end
    else
      i ← gets (λ k, priv_id k proc_nr);
      modify_priv i (λ s, s <| s_sig_pending ::= sigaddset sig_nr |>);;
      must_send_sig e SIGKSIGSM
  else
    pend ← gets (λ k, sigismember (p_pending (proctab k proc_nr)) sig_nr);
    if pend : bool then mret ()
    else
      modify_proc proc_nr (λ p, p <| p_pending ::= sigaddset sig_nr |>);;
      signaled ← gets (λ k, RTS_ISSET k proc_nr RTS_SIGNALED);
      if signaled : bool then mret ()
      else
        RTS_SET proc_nr (Z.lor RTS_SIGNALED RTS_SIG_PENDING);;
        must_send_sig sig_mgr SIGKSIG.

Fixpoint cause_sig_fuel (fuel : nat) (proc_nr sig_nr : Z) : K unit :=
  match fuel with
  | O => panic "cause_sig: out of fuel"
  | S fuel' => cause_sig_body (cause_sig_fuel fuel' proc_nr sig_nr) proc_nr sig_nr
  end.
Definition cause_sig : Z → Z → K unit := cause_sig_fuel 2.

Definition sig_delay_done (rp : Z) : K unit :=
  modify_proc rp (λ p, p <| p_misc_flags ::= clear_flag MF_SIG_DELAY |>);;
  cause_sig rp SIGSNDELAY.

(** ** [mini_notify] *)

Definition notify_ready (k : kstate) (caller d : Z) : bool :=
  WILLRECEIVE k d (p_endpoint (proctab k caller)) && negb (has (p_misc_flags (proctab k d)) MF_REPLY_PEND).

(** What a delivered notification does to the target. *)
Definition notify_deliver (k : kstate) (caller d : Z) (p : proc) : proc :=
  IPC_STATUS_ADD_CALL NOTIFY
    (p <| p_delivermsg := notify_message k caller d (p_delivermsg p) <| m_source := p_endpoint (proctab k caller) |> |>
       <| p_misc_flags ::= set_flag MF_DELIVERMSG |>).

Definition notify_now (k : kstate) (caller d : Z) : kstate :=
  upd_priv (priv_id k d) (notify_taken caller) (upd_proc d (notify_deliver k caller d) k).
Definition notify_later (k : kstate) (caller d : Z) : kstate :=
  upd_priv (priv_id k d) (λ s, s <| s_notify_pending ::= set_sys_bit (s_id (priv_of k caller)) |>) k.

Lemma notify_taken_flags src s : s_flags (notify_taken src s) = s_flags s.
Proof. unfold notify_taken. by repeat case_bool. Qed.

Lemma notify_now_same k caller d : sched_same k (notify_now k caller d).
Proof.
  etrans; [apply sched_same_upd_proc|apply sched_same_upd_priv; apply notify_taken_flags].
  intros p. unfold notify_deliver, IPC_STATUS_ADD_CALL. by rewrite (IPC_STATUS_ADD_view sview).
Qed.

Lemma notify_now_ipcview k caller d n :
  ipcview (proctab (notify_now k caller d) n) = ipcview (proctab k n).
Proof.
  unfold notify_now. change (proctab (upd_priv ?i ?f ?k)) with (proctab k). rewrite proctab_upd_proc.
  case_decide; [subst|done]. unfold notify_deliver, IPC_STATUS_ADD_CALL.
  by rewrite (IPC_STATUS_ADD_view ipcview).
Qed.

Lemma notify_ready_receiving k caller d : notify_ready k caller d = true → receiving k d = true.
Proof.
  unfold notify_ready. rewrite WILLRECEIVE_eq. intros [[[H _]%andb_prop _]%andb_prop _]%andb_prop. done.
Qed.

Lemma notify_now_delivering k caller d n :
  n ≠ d → delivering (notify_now k caller d) n = delivering k n.
Proof.
  intros Hn. unfold delivering, notify_now. change (proctab (upd_priv ?i ?f ?k)) with (proctab k).
  by rewrite proctab_upd_proc, decide_False.
Qed.

Lemma notify_later_same k caller d : sched_same k (notify_later k caller d).
Proof. by apply sched_same_upd_priv. Qed.

(** A step that leaves processes and run queues alone. *)
Lemma base_ext k k' Q :
  proctab k' = proctab k → run_q_head k' = run_q_head k → run_q_tail k' = run_q_tail k →
  proc_ptr k' = proc_ptr k → ipc_base k Q → ipc_base k' Q ∧ base_step k k'.
Proof.
  intros Hp Hh Ht Hc HB.
  assert (∀ n, rts k' n = rts k n) as Hr by (intros n; unfold rts; by rewrite Hp).
  assert (ipc_pres k k') as HP.
  { split; unfold sending, receiving, slot_free; try (intros n; by rewrite ?Hp, ?Hr). done. }
  assert (ipc_base k' Q) as HB'; [|split; [done|split; [by exists Q|done]]].
  apply (ipc_base_step k Q HB k' Q); [|done| |by auto].
  - destruct (ib_sched _ _ HB) as [[H1 H2 H3] H4]. unfold nextready in *.
    split; [split; unfold nextready; rewrite ?Hp, ?Hh, ?Ht; done|]. intros n. rewrite <-H4.
    unfold proc_is_runnable. by rewrite Hp.
  - intros n Hn.  unfold receiving, delivering. rewrite Hr, Hp.
    by apply (ib_deliver _ _ HB).
Qed.
Lemma base_privtab k Q f : ipc_base k Q → ipc_base (k <| privtab ::= f |>) Q.
Proof. by apply base_ext. Qed.
Lemma base_step_privtab k Q f : ipc_base k Q → base_step k (k <| privtab ::= f |>).
Proof. intros HB. split; [|done]. exists Q. by apply base_privtab. Qed.

Lemma mini_notify_spec k Q caller dst_e :
  ipc_base k Q →
  wp (mini_notify caller dst_e) (λ r k',
    base_step k k' ∧
    match isokendpt k dst_e with
    | None => r = EDEADSRCDST ∧ k' = k
    | Some d => r = OK ∧
        if notify_ready k caller d
        then sched_frame (notify_now k caller d) k' ∧ ∀ n, rts k' n = rts_unset k d RTS_RECEIVING n
        else k' = notify_later k caller d
    end) k.
Proof.
  intros HB. unfold mini_notify. wp_steps.
  destruct (isokendpt k dst_e) as [d|] eqn:Hok; wp_steps; [|by repeat split; eauto].
  pose proof Hok as (Hv & _)%isokendpt_Some.
  fold (notify_ready k caller d). destruct (notify_ready k caller d) eqn:Hready; wp_steps.
  - pose proof (notify_ready_receiving _ _ _ Hready) as Hrecv.
    apply wp_assert; [by rewrite (ib_deliver _ _ HB)|].
    unfold BuildNotifyMessage, modify_proc, modify_priv. wp_steps.
    match goal with |- wp _ _ ?s => set (k1 := s) end.
    assert (∀ n, proctab k1 n = proctab (notify_now k caller d) n) as Hk1.
    { intros n. subst k1. unfold notify_now. change (proctab (upd_priv ?i ?f ?k)) with (proctab k).
      rewrite !proctab_upd_proc. change (proctab (upd_priv ?i ?f ?k)) with (proctab k).
      rewrite !proctab_upd_proc. case_decide; [by rewrite !decide_True|done]. }
    assert (sched_frame (notify_now k caller d) k1) as Hf1.
    { apply sched_frame_pointwise; [done|by destruct k]. }
    assert (sched_same k k1) as Hs1.
    { etrans; [apply (notify_now_same k caller d)|]. split; try done. intros n. by rewrite Hk1. }
    eapply wp_mono; [apply (RTS_UNSET_same k k1 Q d RTS_RECEIVING)|].
    + apply HB.
    + done.
    + done.
    + by apply (ib_prio _ _ HB).
    + intros [] k' ((Q' & HS) & Hf & Hr). wp_steps. split_and!; [|done|frame_trans|done].
      eapply (base_step_delivered k (notify_now k caller d) k' Q Q' d); try done.
      * apply notify_now_same.
      * apply notify_now_ipcview.
      * apply notify_now_delivering.
      * frame_trans.
  - unfold modify_priv. wp_steps. split_and!; [|done..]. by apply (base_step_privtab k Q).
Qed.

(** Only processes that wait for a message get one. *)
Definition mailview (p : proc) : message * bool := (p_delivermsg p, has (p_misc_flags p) MF_DELIVERMSG).
Definition mail_same (k k' : kstate) : Prop :=
  ∀ n, receiving k n = false → mailview (proctab k' n) = mailview (proctab k n).
Lemma mail_same_trans k1 k2 k3 :
  ipc_pres k1 k2 → mail_same k1 k2 → mail_same k2 k3 → mail_same k1 k3.
Proof.
  intros HP H1 H2 n Hn. rewrite H2, H1; [done..|]. destruct (receiving k2 n) eqn:E; [|done].
  apply (ip_recv _ _ HP) in E. congruence.
Qed.
Lemma mail_same_frame k k' : sched_frame k k' → mail_same k k'.
Proof. intros Hf n _. by apply (sched_frame_field mailview _ _ n Hf). Qed.

Lemma notify_now_mail k k' caller d :
  notify_ready k caller d = true → sched_frame (notify_now k caller d) k' → mail_same k k'.
Proof.
  intros Hr Hf n Hn. rewrite (sched_frame_field mailview _ _ n Hf) by done.
  unfold notify_now. change (proctab (upd_priv ?i ?f ?k)) with (proctab k). rewrite proctab_upd_proc.
  case_decide; [|done]. subst. apply notify_ready_receiving in Hr. congruence.
Qed.

(** ** Signals *)

(** Changes of [p_pending] and of [p_misc_flags] that do not concern delivery. *)
Lemma base_step_upd_proc k Q n f :
  (∀ p, ipcview (f p) = ipcview p) → (∀ p, sview (f p) = sview p) →
  (receiving k n = true → has (p_misc_flags (f (proctab k n))) MF_DELIVERMSG = has (p_misc_flags (proctab k n)) MF_DELIVERMSG) →
  ipc_base k Q → base_step k (upd_proc n f k) ∧ ipc_base (upd_proc n f k) Q.
Proof.
  intros Hv Hs Hd HB.
  assert (sched_same k (upd_proc n f k)) as Hsame by by apply sched_same_upd_proc.
  assert (∀ m, rts (upd_proc n f k) m = rts k m) as Hr by by apply rts_same.
  assert (ipc_pres k (upd_proc n f k)) as HP.
  { split; unfold sending, receiving, slot_free; try (by intros m; rewrite Hr); [|done].
    intros m. rewrite proctab_upd_proc. case_decide; subst; auto. }
  assert (ipc_base (upd_proc n f k) Q) as HB'.
  { eapply ipc_base_step; eauto.
    - eapply sched_rel_same; [done|apply HB].
    - intros m Hm Hrm. apply (ip_recv _ _ HP) in Hrm. pose proof (ib_deliver _ _ HB m Hm Hrm) as Hdl.
      unfold delivering in *. rewrite proctab_upd_proc. case_decide; [|done]. subst. by rewrite Hd. }
  split; [|done]. split; [by exists Q|done].
Qed.

Lemma base_RTS_SET k Q n f :
  ipc_base k Q → f ≠ 0 → slot_free k n = false → Z.land f RTS_SENDING = 0 →
  Z.land f RTS_RECEIVING = 0 → Z.land f RTS_SLOT_FREE = 0 →
  wp (RTS_SET n f) (λ _ k', base_step k k' ∧ sched_frame k k' ∧
                     ∀ m, rts k' m = rts_after_set n f k m) k.
Proof.
  intros HB Hf Hn H1 H2 H3. eapply wp_mono; [by apply RTS_SET_spec; [apply HB|]|].
  intros [] k' (HS & Hfr & Hr). split_and!; [|done..].
  assert (ipc_pres k k') as HP.
  { split; unfold sending, receiving, slot_free; try (intros m; rewrite ?Hr, ?has_rts_set_other; done).
    - intros m. by apply ipcview_frame.
    - by rewrite (sched_frame_state proc_ptr _ _ Hfr). }
  split; [|done]. exists (aq_remove n Q). eapply ipc_base_step; eauto.
  - intros m Hm Hrm%(ip_recv _ _ HP). unfold delivering.
    rewrite (sched_frame_field p_misc_flags _ _ m Hfr) by done. by apply (ib_deliver _ _ HB).
  - intros m Hm. rewrite Hr. unfold rts_after_set. rewrite decide_False; [done|]. intros ->. congruence.
Qed.

(** Clearing any flag but [RTS_SLOT_FREE] keeps the base invariant. *)
Lemma base_RTS_UNSET_any k Q n f :
  ipc_base k Q → valid_slot n → slot_free k n = false → Z.land f RTS_SLOT_FREE = 0 →
  wp (RTS_UNSET n f) (λ _ k', (∃ Q', ipc_base k' Q') ∧ sched_frame k k' ∧
                       ∀ m, rts k' m = rts_unset k n f m) k.
Proof.
  intros HB Hv Hn H3. eapply wp_mono.
  { apply RTS_UNSET_spec; [apply HB|done|by apply (ib_prio _ _ HB)]. }
  intros [] k' (HS & Hfr & Hr). split_and!; [|done..]. eexists.
  assert (∀ m, slot_free k' m = slot_free k m) as Hfree.
  { intros m. unfold slot_free. rewrite Hr. by apply has_rts_unset_other. }
  split; [done|..].
  - intros m Hm. rewrite (priority_frame _ _ _ Hfr). by apply (ib_prio _ _ HB).
  - intros m Hm. rewrite (sched_frame_field p_endpoint _ _ m Hfr) by done. by apply (ib_endpt _ _ HB).
  - intros m Hm Hrm. unfold delivering. rewrite (sched_frame_field p_misc_flags _ _ m Hfr) by done.
    apply (ib_deliver _ _ HB); [done|]. revert Hrm. unfold receiving. rewrite Hr, has_rts_unset by done.
    unfold rts_after_unset. case_decide; [subst|done]. rewrite !has_true. intros Hc H0. apply Hc.
    unfold clear_flag. by rewrite <-Z.land_assoc, (Z.land_comm (Z.lnot f)), Z.land_assoc, H0.
  - intros m Hm. rewrite Hfree. intros Hfm. rewrite Hr. rewrite (free_rts_unset _ _ HB) by done. by apply (ib_free _ _ HB).
  - rewrite (sched_frame_state proc_ptr _ _ Hfr), Hfree by done. apply HB.
Qed.

Lemma base_RTS_UNSET k Q n f :
  ipc_base k Q → valid_slot n → slot_free k n = false → Z.land f RTS_SENDING = 0 →
  Z.land f RTS_RECEIVING = 0 → Z.land f RTS_SLOT_FREE = 0 →
  wp (RTS_UNSET n f) (λ _ k', base_step k k' ∧ sched_frame k k' ∧
                       ∀ m, rts k' m = rts_unset k n f m) k.
Proof.
  intros HB Hv Hn H1 H2 H3. eapply wp_mono.
  { apply RTS_UNSET_spec; [apply HB|done|by apply (ib_prio _ _ HB)]. }
  intros [] k' (HS & Hfr & Hr). split_and!; [|done..].
  assert (ipc_pres k k') as HP.
  { split; unfold sending, receiving, slot_free; try (intros m; rewrite ?Hr, ?has_rts_unset_other; done).
    - intros m. by apply ipcview_frame.
    - by rewrite (sched_frame_state proc_ptr _ _ Hfr). }
  split; [|done]. eexists. eapply ipc_base_step; eauto.
  - intros m Hm Hrm%(ip_recv _ _ HP). unfold delivering.
    rewrite (sched_frame_field p_misc_flags _ _ m Hfr) by done. by apply (ib_deliver _ _ HB).
  - intros m Hm. rewrite Hr. by eapply free_rts_unset.
Qed.

(** The state in which [send_sig] notifies: the signal is in the set of the target. *)
Definition sig_noted (i sig_nr : Z) (k : kstate) : kstate :=
  upd_priv i (λ s, s <| s_sig_pending ::= sigaddset sig_nr |>) k.

Lemma WILLRECEIVE_privtab k f d e : WILLRECEIVE (k <| privtab ::= f |>) d e = WILLRECEIVE k d e.
Proof. done. Qed.

Lemma send_sig_spec k Q ep sig_nr :
  ipc_base k Q →
  wp (send_sig ep sig_nr) (λ r k',
    base_step k k' ∧
    match isokendpt k ep with
    | None => r = EINVAL ∧ k' = k
    | Some rp =>
        match p_priv (proctab k rp) with
        | None => r = ENOENT ∧ k' = k
        | Some i => r = OK ∧
            if notify_ready k SYSTEM rp
            then sched_frame (notify_now (sig_noted i sig_nr k) SYSTEM rp) k' ∧
                 ∀ n, rts k' n = rts_unset k rp RTS_RECEIVING n
            else k' = notify_later (sig_noted i sig_nr k) SYSTEM rp
        end
    end) k.
Proof.
  intros HB. unfold send_sig. wp_steps.
  assert (base_step k k) as Hrefl by (by split; eauto).
  destruct (isokendpt k ep) as [rp|] eqn:Hok; wp_steps; [|by eauto].
  pose proof Hok as (Hv & He & Hep & _)%isokendpt_Some. rewrite He. wp_steps.
  destruct (p_priv (proctab k rp)) as [i|] eqn:Hp; wp_steps; [|by eauto].
  unfold modify_priv. wp_steps. fold (sig_noted i sig_nr k). set (k1 := sig_noted i sig_nr k).
  assert (ipc_base k1 Q) as HB1 by by apply base_privtab.
  eapply wp_mono; [by eapply mini_notify_spec|]. intros r k' [HQ' Hpost]. wp_steps.
  split; [by eapply base_step_trans; [apply (base_step_privtab k Q)|]|]. assert (isokendpt k1 (p_endpoint (proctab k1 rp)) = Some rp) as Hok1.
  { change (isokendpt k (p_endpoint (proctab k rp)) = Some rp). by rewrite Hep. }
  rewrite Hok1 in Hpost. destruct Hpost as [_ Hpost]. split; [done|].
  change (notify_ready k1 SYSTEM rp) with (notify_ready k SYSTEM rp) in Hpost.
  assert (sched_same k k1) as Hs by by apply sched_same_upd_priv.
  destruct (notify_ready k SYSTEM rp); [|done]. destruct Hpost as [Hf Hr]. split; [done|].
  intros n. rewrite Hr. by apply rts_unset_same.
Qed.

(** A signal manager that has been told about [sig_nr]: a notification from SYSTEM is
    pending with the signal in its set, or is being delivered and carries the signal. *)
Definition sig_told (k : kstate) (mgr sig_nr : Z) : Prop :=
  (get_sys_bit (s_notify_pending (priv_of k mgr)) (s_id (priv_of k SYSTEM)) = true ∧
   sigismember (s_sig_pending (priv_of k mgr)) sig_nr = true) ∨
  (delivering k mgr = true ∧ m_source (p_delivermsg (proctab k mgr)) = p_endpoint (proctab k SYSTEM) ∧
   m_type (p_delivermsg (proctab k mgr)) = NOTIFY_MESSAGE ∧
   sigismember (NOTIFY_ARG (p_delivermsg (proctab k mgr))) sig_nr = true).

Lemma sigismember_add n s : 0 ≤ n → sigismember (sigaddset n s) n = true.
Proof.
  intros Hn. unfold sigismember, sigaddset, sigmask. apply has_set_self.
  rewrite Z.shiftl_1_l. pose proof (Z.pow_pos_nonneg 2 n). lia.
Qed.

Lemma privtab_upd_priv k i f j :
  privtab (upd_priv i f k) j = if decide (j = i) then f (privtab k i) else privtab k j.
Proof. simpl. unfold upd. case_decide; by subst. Qed.
Lemma priv_of_upd_priv k i f n :
  priv_of (upd_priv i f k) n = if decide (priv_id k n = i) then f (privtab k i) else priv_of k n.
Proof. apply privtab_upd_priv. Qed.

Lemma notify_later_told k i sig_nr rp :
  p_priv (proctab k rp) = Some i → 0 ≤ sig_nr → 0 ≤ s_id (priv_of k SYSTEM) →
  sig_told (notify_later (sig_noted i sig_nr k) SYSTEM rp) rp sig_nr.
Proof.
  intros Hp Hs Hid. left.
  assert (priv_id k rp = i) as Hi by (unfold priv_id; by rewrite Hp).
  assert (∀ k n i f, (∀ s, s_id (f s) = s_id s) → s_id (priv_of (upd_priv i f k) n) = s_id (priv_of k n)) as Hsid.
  { intros k1 n j f Hf. rewrite priv_of_upd_priv. case_decide; [|done]. subst. apply Hf. }
  unfold notify_later. rewrite !Hsid by done. unfold sig_noted.
  rewrite !Hsid by done.
  rewrite !priv_of_upd_priv. change (priv_id (upd_priv ?a ?b ?c)) with (priv_id c).
  rewrite Hi, decide_True by done. rewrite privtab_upd_priv, decide_True by done. simpl.
  rewrite sigismember_add, get_set_sys_bit by done. by rewrite Z.eqb_refl.
Qed.

Lemma notify_message_type k src d m : m_type (notify_message k src d m) = NOTIFY_MESSAGE.
Proof. unfold notify_message. by repeat case_bool. Qed.
Lemma notify_message_sig k d m : NOTIFY_ARG (notify_message k SYSTEM d m) = s_sig_pending (priv_of k d).
Proof. apply m_word_set. Qed.
Lemma notify_message_int k d m : NOTIFY_ARG (notify_message k HARDWARE d m) = s_int_pending (priv_of k d).
Proof. apply m_word_set. Qed.

(** What the target of a delivered notification holds. *)
Lemma notify_now_target k k' caller d :
  sched_frame (notify_now k caller d) k' →
  delivering k' d = true ∧
  p_delivermsg (proctab k' d) =
    notify_message k caller d (p_delivermsg (proctab k d)) <| m_source := p_endpoint (proctab k caller) |>.
Proof.
  intros Hf. unfold delivering.
  rewrite (sched_frame_field p_misc_flags _ _ d Hf), (sched_frame_field p_delivermsg _ _ d Hf) by done.
  unfold notify_now. change (proctab (upd_priv ?i ?f ?k)) with (proctab k).
  rewrite proctab_upd_proc, decide_True by done. unfold notify_deliver, IPC_STATUS_ADD_CALL.
  rewrite (IPC_STATUS_ADD_view p_misc_flags), (IPC_STATUS_ADD_view p_delivermsg) by done.
  split; [by apply has_set_self|done].
Qed.

Lemma notify_now_told k k' i sig_nr rp :
  p_priv (proctab k rp) = Some i → 0 ≤ sig_nr →
  sched_frame (notify_now (sig_noted i sig_nr k) SYSTEM rp) k' → sig_told k' rp sig_nr.
Proof.
  intros Hp Hs Hf. right. destruct (notify_now_target _ _ _ _ Hf) as [-> ->].
  rewrite (sched_frame_field p_endpoint _ _ SYSTEM Hf) by done.
  assert (p_endpoint (proctab (notify_now (sig_noted i sig_nr k) SYSTEM rp) SYSTEM) = p_endpoint (proctab k SYSTEM)) as ->.
  { pose proof (notify_now_ipcview (sig_noted i sig_nr k) SYSTEM rp SYSTEM) as H. unfold ipcview in H. by simplify_eq. }
  split_and!; [done..|apply (notify_message_type (sig_noted i sig_nr k) SYSTEM rp)|].
  change (NOTIFY_ARG (?m <| m_source := ?x |>)) with (NOTIFY_ARG m). rewrite notify_message_sig.
  unfold sig_noted. rewrite priv_of_upd_priv.
  rewrite decide_True by (unfold priv_id; by rewrite Hp). by apply sigismember_add.
Qed.

(** ** [cause_sig] *)

Lemma must_send_sig_spec k Q mgr m i sig_nr :
  ipc_base k Q → isokendpt k mgr = Some m → p_priv (proctab k m) = Some i → 0 ≤ sig_nr →
  0 ≤ s_id (priv_of k SYSTEM) →
  wp (must_send_sig mgr sig_nr) (λ _ k', base_step k k' ∧ sig_told k' m sig_nr ∧ mail_same k k' ∧
    (∀ n, p_pending (proctab k' n) = p_pending (proctab k n)) ∧
    (∀ n f, Z.land RTS_PREEMPTED f = 0 → Z.land RTS_RECEIVING f = 0 → has (rts k' n) f = has (rts k n) f)) k.
Proof.
  intros HB Hok Hp Hs Hid. unfold must_send_sig. wp_steps.
  eapply wp_mono; [by eapply send_sig_spec|]. intros r k' [HQ Hpost]. rewrite Hok, Hp in Hpost.
  destruct Hpost as [-> Hpost]. simpl. wp_steps. split; [done|].
  destruct (notify_ready k SYSTEM m) eqn:Hready.
  - destruct Hpost as [Hf Hr]. split; [by eapply notify_now_told|].
    split; [exact (notify_now_mail (sig_noted i sig_nr k) k' SYSTEM m Hready Hf)|]. split.
    + intros n. rewrite (sched_frame_field p_pending _ _ n Hf) by done. unfold notify_now.
      change (proctab (upd_priv ?i ?f ?k)) with (proctab k). rewrite proctab_upd_proc.
      case_decide; [subst|done]. unfold notify_deliver, IPC_STATUS_ADD_CALL.
      by rewrite (IPC_STATUS_ADD_view p_pending).
    + intros n f H1 H2. rewrite Hr. by apply has_rts_unset_other.
  - rewrite Hpost. split_and!; [by apply notify_later_told|done..].
Qed.

Lemma priv_of_frame k k' n : sched_frame k k' → priv_of k' n = priv_of k n.
Proof.
  intros Hf. unfold priv_of, priv_id. rewrite (sched_frame_state privtab _ _ Hf) by done.
  by rewrite (sched_frame_field p_priv _ _ n Hf).
Qed.

Lemma bind_congr {S A B} (m : M S A) (f g : A → M S B) s :
  (∀ a s', m s = Ret (a, s') → f a s' = g a s') → (m ≫= f) s = (m ≫= g) s.
Proof. unfold mbind, M_bind. destruct (m s) as [[a s']|]; auto. Qed.

(** Once the backup manager is used up, the body does not call itself again. *)
Lemma cause_sig_body_last a a' p sig_nr k :
  s_bak_sig_mgr (priv_of k p) = NONE → cause_sig_body a p sig_nr k = cause_sig_body a' p sig_nr k.
Proof.
  intros Hb. unfold cause_sig_body. repeat (apply bind_congr; intros ?? [= <- <-]).
  set (x := if _ =? SELF then _ else _).
  destruct (_ =? H_UNSTABLE); [done|]. destruct (_ =? x); [|done].
  destruct (SIGS_IS_LETHAL sig_nr); [|done]. repeat (apply bind_congr; intros ?? [= <- <-]).
  by rewrite Hb.
Qed.

(** A process whose signals go to a signal manager other than itself. *)
Definition managed (k : kstate) (p m : Z) : Prop :=
  let mgr := s_sig_mgr (priv_of k p) in
  mgr ≠ SELF ∧ mgr ≠ p_endpoint (proctab k p) ∧ isokendpt k mgr = Some m ∧
  (∃ i, p_priv (proctab k m) = Some i) ∧ 0 ≤ s_id (priv_of k SYSTEM).

Section cause_sig.
Context (k : kstate) (Q : Z → list Z) (HB : ipc_base k Q).

(** The state in which [cause_sig] calls itself has no backup manager. *)
Lemma backup_used p i bak m k' :
  i = priv_id k p → isokendpt k bak = Some m →
  RTS_UNSET m RTS_NO_PRIV (upd_priv i (λ s, s <| s_bak_sig_mgr := NONE |>)
     (upd_priv i (λ s, s <| s_sig_mgr := bak |>) k)) = Ret ((), k') →
  s_bak_sig_mgr (priv_of k' p) = NONE.
Proof using HB.
  intros Hi Hok Hrun. set (k1 := upd_priv i _ (upd_priv i _ k)) in Hrun.
  assert (ipc_base k1 Q) as HB1 by by apply base_privtab, base_privtab.
  pose proof Hok as (Hv & _)%isokendpt_Some.
  pose proof (isokendpt_not_free _ _ HB _ _ Hok) as Hfree.
  pose proof (base_RTS_UNSET k1 Q m RTS_NO_PRIV HB1 Hv Hfree ltac:(done) ltac:(done) ltac:(done)) as Hwp.
  unfold wp in Hwp. rewrite Hrun in Hwp. destruct Hwp as (_ & Hf & _).
  rewrite (priv_of_frame _ _ _ Hf). subst k1. rewrite priv_of_upd_priv.
  change (priv_id (upd_priv ?a ?b ?c)) with (priv_id c). by rewrite <-Hi, decide_True.
Qed.

Lemma cause_sig_fuel_any n p sig_nr : cause_sig_fuel (S (S n)) p sig_nr k = cause_sig p sig_nr k.
Proof using HB.
  unfold cause_sig. cbn [cause_sig_fuel]. unfold cause_sig_body at 1 3.
  repeat (apply bind_congr; intros ?? [= <- <-]).
  set (x := if _ =? SELF then _ else _).
  destruct (_ =? H_UNSTABLE); [done|]. destruct (_ =? x); [|done].
  destruct (SIGS_IS_LETHAL sig_nr); [|done]. repeat (apply bind_congr; intros ?? [= <- <-]).
  destruct (_ =? NONE); [done|]. destruct (isokendpt k _) as [m|] eqn:Hok; [|done].
  repeat (apply bind_congr; intros ?? [= <- <-]).
  apply bind_congr. intros [] k' Hrun. apply cause_sig_body_last.
  by eapply backup_used.
Qed.

Lemma cause_sig_ordinary p sig_nr m :
  valid_slot p → slot_free k p = false → h_unstable_state (kh k) ≠ H_UNSTABLE → managed k p m → 0 ≤ sig_nr →
  wp (cause_sig p sig_nr) (λ _ k', base_step k k' ∧ mail_same k k' ∧
    sigismember (p_pending (proctab k' p)) sig_nr = true ∧
    (sigismember (p_pending (proctab k p)) sig_nr = false → has (rts k p) RTS_SIGNALED = false →
     has (rts k' p) RTS_SIGNALED = true ∧ has (rts k' p) RTS_SIG_PENDING = true ∧ sig_told k' m SIGKSIG)) k.
Proof using HB.
  intros Hv Hfree Hst (Hself & Hne & Hok & (i & Hp) & Hid) Hs. unfold cause_sig. cbn [cause_sig_fuel].
  unfold cause_sig_body at 1. wp_steps. rewrite (proj2 (Z.eqb_neq _ _) Hst).
  rewrite (proj2 (Z.eqb_neq _ _) Hself), (proj2 (Z.eqb_neq _ _) (not_eq_sym Hne)). wp_steps.
  destruct (sigismember (p_pending (proctab k p)) sig_nr) eqn:Hpend; wp_steps.
  { split_and!; [by split; eauto|done..]. }
  unfold modify_proc. wp_steps. set (k1 := upd_proc p _ k).
  destruct (base_step_upd_proc k Q p (λ p, p <| p_pending ::= sigaddset sig_nr |>)) as [Hst1 HB1]; [done..|].
  fold k1 in Hst1, HB1. assert (sched_same k k1) as Hs1 by by apply sched_same_upd_proc.
  assert (sigismember (p_pending (proctab k1 p)) sig_nr = true) as Hpend1.
  { subst k1. rewrite proctab_upd_proc, decide_True by done. by apply sigismember_add. }
  assert (mail_same k k1) as mail1.
  { intros n _. subst k1. rewrite proctab_upd_proc. case_decide; by subst. }
  assert (RTS_ISSET k1 p RTS_SIGNALED = has (rts k p) RTS_SIGNALED) as ->.
  { unfold RTS_ISSET. fold (rts k1 p). rewrite (rts_same k k1 Hs1). by apply (isset_has_bit _ 4). }
  destruct (has (rts k p) RTS_SIGNALED) eqn:Hsig; wp_steps; [by split_and!; [|apply mail1|..]|].
  eapply wp_mono.
  { apply (base_RTS_SET k1 Q p (Z.lor RTS_SIGNALED RTS_SIG_PENDING)); try done.
    by rewrite (ip_free _ _ (proj2 Hst1)). }
  intros [] k2 (Hst2 & Hf2 & Hr2). pose proof (base_step_trans _ _ _ Hst1 Hst2) as [[Q2 HB2] HP2].
  eapply wp_mono; [apply (must_send_sig_spec k2 Q2 (s_sig_mgr (priv_of k p)) m i SIGKSIG)|].
  - done.
  - by apply (isokendpt_pres k Q HB).
  - rewrite (sched_frame_field p_priv _ _ m Hf2) by done.
    subst k1. rewrite proctab_upd_proc. case_decide; by subst.
  - done.
  - rewrite (priv_of_frame _ _ _ Hf2). unfold priv_of. by rewrite (priv_id_same k k1).
  - intros [] k3 (HQ3 & Htold & Hmail & Hpd & Hfl).
    split_and!; [| |by rewrite Hpd, (sched_frame_field p_pending _ _ p Hf2)|intros _ _].
    + eapply base_step_trans; [|done]. by split; eauto.
    + eapply mail_same_trans; [done| |done].
      eapply mail_same_trans; [apply Hst1|done|]. by apply mail_same_frame.
    + rewrite !Hfl, !Hr2 by done. unfold rts_after_set. rewrite decide_True by done.
      split_and!; [| |done]; unfold set_flag; apply has_true; rewrite Z.land_lor_distr_l; intros H;
        by apply Z.lor_eq_0_iff in H as [_ ?].
Qed.
End cause_sig.

(** ** Properties *)

(** C10. A notification is never lost and never blocks: [mini_notify] to a process in use
    returns [OK]; a target that waits for it (and is not in the middle of a SENDREC) gets at
    once a message of type NOTIFY_MESSAGE whose source is the caller's endpoint and no longer
    waits; for any other target the caller's bit is set in the target's map of pending
    notifications and no process changes.  The IPC invariant is kept in both cases. *)
Theorem mini_notify_never_lost k Q C caller dst_e d :
  ipc_inv k Q C → isokendpt k dst_e = Some d → 0 ≤ s_id (priv_of k caller) →
  wp (mini_notify caller dst_e) (λ r k', r = OK ∧ (∃ Q', ipc_inv k' Q' C) ∧
    if notify_ready k caller d then
      delivering k' d = true ∧ receiving k' d = false ∧
      m_source (p_delivermsg (proctab k' d)) = p_endpoint (proctab k caller) ∧
      m_type (p_delivermsg (proctab k' d)) = NOTIFY_MESSAGE
    else
      get_sys_bit (s_notify_pending (priv_of k' d)) (s_id (priv_of k caller)) = true ∧
      proctab k' = proctab k) k.
Proof.
  intros HI Hok Hid. eapply wp_mono; [eapply mini_notify_spec, HI|].
  intros r k' [HQ Hpost]. rewrite Hok in Hpost. destruct Hpost as [-> Hpost].
  split_and!; [done|by eapply ipc_inv_step|].
  destruct (notify_ready k caller d).
  - destruct Hpost as [Hf Hr]. destruct (notify_now_target _ _ _ _ Hf) as [-> ->]. split_and!; [done| |done|].
    + rewrite (receiving_unset_receiving k k' d) by done. by rewrite decide_True.
    + apply notify_message_type.
  - rewrite Hpost. split; [|done]. unfold notify_later. rewrite priv_of_upd_priv, decide_True by done.
    simpl. rewrite get_set_sys_bit by done. by rewrite Z.eqb_refl.
Qed.

Lemma mini_notify_never_lost_witness :
  wp (mini_notify SYSTEM 0) (λ r k', r = OK ∧ m_source (p_delivermsg (proctab k' 0)) = SYSTEM) ipc_demo.
Proof.
  eapply wp_mono.
  - by apply (mini_notify_never_lost ipc_demo _ _ SYSTEM 0 0 ipc_demo_inv).
  - intros r k' (-> & _ & H). by destruct H as (_ & _ & -> & _).
Defined.



(** The recursion of [cause_sig] ends: after the switch to the backup signal manager it
    is never entered a third time, so that any larger bound on its depth gives the same
    result in every state that satisfies the IPC invariant. *)
Theorem cause_sig_terminates k Q C n p sig_nr :
  ipc_inv k Q C → cause_sig_fuel (S (S n)) p sig_nr k = cause_sig p sig_nr k.
Proof. intros HI. by apply (cause_sig_fuel_any k Q (ii_base _ _ _ HI)). Qed.

Lemma cause_sig_terminates_witness : cause_sig_fuel 7 20 SIGSEGV ipc_demo = cause_sig 20 SIGSEGV ipc_demo.
Proof. exact (cause_sig_terminates ipc_demo _ _ 5 20 SIGSEGV ipc_demo_inv). Defined.
