(* ===== verification/Async.v ===== *)
(** * Asynchronous messages (kernel/proc.c: [try_deliver_senda], [mini_senda], [try_async],
      [try_one], [cancel_async], [has_pending] and friends)

    A system process hands the kernel a table of messages in its own memory.  An entry whose
    destination waits for it is delivered at once; for the others the kernel remembers the
    table and sets the sender's bit in the destination's [s_asyn_pending] map, and looks at
    the table again when the destination receives.  The results go back into the table.

    The macros A_RETR and A_INSRT copy one entry from and to the table of [caller_ptr]; they
    fail when the entry cannot be read or written. *)
From S2P Require Import Prelude LinkedList Kernel Endpoint Sched IpcInv Notify.

(** ** Pending bits *)

(** [while (!get_sys_bit( *map, src_id)) src_id++;] *)
Fixpoint first_bit (fuel : nat) (map : sys_map) (src_id : Z) : option Z :=
  match fuel with
  | O => None
  | S fuel' => if get_sys_bit map src_id then Some src_id else first_bit fuel' map (src_id + 1)
  end.
Definition BIT_FUEL : nat := 32.
Arguments BIT_FUEL : simpl never.

(** The loop over the chunks of the map. *)
Fixpoint scan_chunks (map : sys_map) (starts : list Z) : option Z :=
  match starts with
  | [] => None
  | c :: starts' =>
      if negb (get_sys_bits map c =? 0) then first_bit BIT_FUEL map c else scan_chunks map starts'
  end.
(** [src_id = 0; src_id < NR_SYS_PROCS; src_id += BITCHUNK_BITS]. *)
Definition chunk_starts : list Z := [0; 32].

Definition has_pending (k : kstate) (map : sys_map) (src_p : Z) : Z :=
  if negb (src_p =? ANY) then
    let src_id := nr_to_id k src_p in
    if get_sys_bit map src_id then src_id else NULL_PRIV_ID
  else
    match scan_chunks map chunk_starts with
    | Some id => if id <? NR_SYS_PROCS then id else NULL_PRIV_ID
    | None => NULL_PRIV_ID
    end.

Definition has_pending_notify (k : kstate) (caller src_p : Z) : Z :=
  has_pending k (s_notify_pending (priv_of k caller)) src_p.
Definition has_pending_asend (k : kstate) (caller src_p : Z) : Z :=
  has_pending k (s_asyn_pending (priv_of k caller)) src_p.
Definition unset_notify_pending (caller src_id : Z) : K unit :=
  i ← gets (λ k, priv_id k caller);
  modify_priv i (λ s, s <| s_notify_pending ::= unset_sys_bit src_id |>).

(** ** Entries of a table *)

Definition entry_addr (table_v i : Z) : Z := u32 (table_v + i * SIZEOF_ASYNMSG).

Definition A_RETR (caller table_v i : Z) : K (option asynmsg) :=
  gets (λ k, uasyn k caller (entry_addr table_v i)).
(** [true] when the entry has been written. *)
Definition A_INSRT (caller table_v i : Z) (tabent : asynmsg) : K bool :=
  let a := entry_addr table_v i in
  ok ← gets (λ k, uwr k caller a);
  if ok : bool then
    modify (λ k, k <| uasyn ::= λ m, upd m caller (upd (m caller) a (Some tabent)) |>);;
    mret true
  else mret false.

Definition AMF_ALL : Z :=
  Z.lor AMF_VALID (Z.lor AMF_DONE (Z.lor AMF_NOTIFY (Z.lor AMF_NOREPLY AMF_NOTIFY_ERR))).
(** [flags] has a bit that is not a flag, or no AMF_VALID. *)
Definition amf_bad (flags : Z) : bool := has flags (Z.lnot AMF_ALL) || negb (has flags AMF_VALID).

Definition amf_result (r : Z) (t : asynmsg) : asynmsg :=
  t <| result := r |> <| flags ::= set_flag AMF_DONE |>.
(** Whether the sender asked for a notification about the result [r]. *)
Definition amf_notify (r flgs : Z) : bool :=
  has flgs AMF_NOTIFY || (negb (r =? OK) && has flgs AMF_NOTIFY_ERR).

Definition clear_asyntab (i : Z) : K unit :=
  modify_priv i (λ s, s <| s_asyntab := -1 |> <| s_asynsize := 0 |>).
Definition set_asyn_pending (dst_ptr src_id : Z) : K unit :=
  i ← gets (λ k, priv_id k dst_ptr);
  modify_priv i (λ s, s <| s_asyn_pending ::= set_sys_bit src_id |>).

(** [dst_ptr->p_delivermsg = m] with the source and the flag. *)
Definition put_delivermsg (dst_ptr src_e : Z) (m : message) : K unit :=
  modify_proc dst_ptr (λ p, p <| p_delivermsg := m <| m_source := src_e |> |>
                              <| p_misc_flags ::= set_flag MF_DELIVERMSG |>).

(** ** [mini_senda] *)

(** The checks on the destination of an entry. *)
Definition senda_check (k : kstate) (caller dst_e : Z) : Z * Z :=
  match isokendpt k dst_e with
  | None => (EDEADSRCDST, 0)
  | Some dst_p =>
      if iskerneln dst_p then (ECALLDENIED, dst_p)
      else if negb (may_send_to k caller dst_p) then (ECALLDENIED, dst_p)
      else if RTS_ISSET k dst_p RTS_NO_ENDPOINT then (EDEADSRCDST, dst_p)
      else (OK, dst_p)
  end.

(** One round of the loop of [try_deliver_senda], on its variables [done] and [do_notify]. *)
Definition senda_entry (caller table_v i : Z) (acc : bool * bool) : K (bool * bool) :=
  tab ← A_RETR caller table_v i;
  match tab with
  | None => mret acc                                             (* EFAULT is only printed *)
  | Some tabent =>
      let flgs := flags tabent in
      if flgs =? 0 then mret acc
      else if amf_bad flgs then mret acc                         (* EINVAL is only printed *)
      else if has flgs AMF_DONE then mret acc
      else
        chk ← gets (λ k, senda_check k caller (dst tabent));
        let '(r, dst_ptr) := chk in
        caller_e ← gets (λ k, p_endpoint (proctab k caller));
        ready ← gets (λ k, (r =? OK) && WILLRECEIVE k dst_ptr caller_e &&
          (negb (has flgs AMF_NOREPLY) || negb (has (p_misc_flags (proctab k dst_ptr)) MF_REPLY_PEND)));
        if negb ready && (r =? OK) then
          id ← gets (λ k, s_id (priv_of k caller));
          set_asyn_pending dst_ptr id;;
          mret (false, acc.2)
        else
          (if ready : bool then
             put_delivermsg dst_ptr caller_e (msg tabent);;
             modify_proc dst_ptr (IPC_STATUS_ADD_CALL SENDA);;
             RTS_UNSET dst_ptr RTS_RECEIVING
           else mret ());;
          A_INSRT caller table_v i (amf_result r tabent);;
          mret (acc.1, acc.2 || amf_notify r flgs)
  end.

Fixpoint senda_loop (caller table_v : Z) (idxs : list Z) (acc : bool * bool) : K (bool * bool) :=
  match idxs with
  | [] => mret acc
  | i :: idxs' =>
      acc' ← senda_entry caller table_v i acc;
      senda_loop caller table_v idxs' acc'
  end.

Definition SENDA_LIMIT : Z := 16 * (NR_TASKS + NR_PROCS).

Definition try_deliver_senda (caller table size : Z) : K Z :=
  privp ← gets (λ k, priv_id k caller);
  clear_asyntab privp;;
  if size =? 0 then mret OK
  else if SENDA_LIMIT <? size then mret EDOM
  else
    acc ← senda_loop caller table (seqZ 0 size) (true, false);
    let '(done, do_notify) := acc in
    (if do_notify : bool then
       e ← gets (λ k, p_endpoint (proctab k caller));
       mini_notify ASYNCM e;;
       mret ()
     else mret ());;
    (if negb done then modify_priv privp (λ s, s <| s_asyntab := table |> <| s_asynsize := size |>)
     else mret ());;
    mret OK.

Definition mini_senda (caller table size : Z) : K Z :=
  sys ← gets (λ k, has (s_flags (priv_of k caller)) SYS_PROC);
  if negb sys then mret EPERM else try_deliver_senda caller table size.

(** ** Receiving asynchronous messages *)

(** The loop of [try_one]: the result [r], and [done] and [do_notify] unless the loop was
    left through [asyn_error]. *)
Fixpoint try_one_loop (src_ptr dst_ptr table_v : Z) (idxs : list Z) (done : bool)
  : K (Z * option (bool * bool)) :=
  match idxs with
  | [] => mret (EAGAIN, Some (done, false))
  | i :: idxs' =>
      tab ← A_RETR src_ptr table_v i;
      match tab with
      | None => mret (EFAULT, None)
      | Some tabent =>
          let flgs := flags tabent in
          let store r :=
            ok ← A_INSRT src_ptr table_v i (amf_result r tabent);
            mret (if ok : bool then (r, Some (false, amf_notify r flgs)) else (EFAULT, None)) in
          if flgs =? 0 then try_one_loop src_ptr dst_ptr table_v idxs' done
          else if amf_bad flgs then store EINVAL
          else if has flgs AMF_DONE then try_one_loop src_ptr dst_ptr table_v idxs' done
          else
            dst_e ← gets (λ k, p_endpoint (proctab k dst_ptr));
            reply_pend ← gets (λ k, has (p_misc_flags (proctab k dst_ptr)) MF_REPLY_PEND);
            if negb (dst tabent =? dst_e) then try_one_loop src_ptr dst_ptr table_v idxs' false
            else if has flgs AMF_NOREPLY && reply_pend then try_one_loop src_ptr dst_ptr table_v idxs' false
            else
              src_e ← gets (λ k, p_endpoint (proctab k src_ptr));
              put_delivermsg dst_ptr src_e (msg tabent);;
              store OK
      end
  end.

Definition try_one (src_ptr dst_ptr : Z) : K Z :=
  privp ← gets (λ k, priv_id k src_ptr);
  sys ← gets (λ k, has (s_flags (privtab k privp)) SYS_PROC);
  if negb sys then mret EPERM
  else
    size ← gets (λ k, s_asynsize (privtab k privp));
    table_v ← gets (λ k, s_asyntab (privtab k privp));
    id ← gets (λ k, s_id (privtab k privp));
    dpriv ← gets (λ k, priv_id k dst_ptr);
    modify_priv dpriv (λ s, s <| s_asyn_pending ::= unset_sys_bit id |>);;
    may ← gets (λ k, may_send_to k src_ptr dst_ptr);
    if size =? 0 then mret EAGAIN
    else if negb may then mret ECALLDENIED
    else
      res ← try_one_loop src_ptr dst_ptr table_v (seqZ 0 size) true;
      match res with
      | (r, None) => mret r
      | (r, Some (done, do_notify)) =>
          (if do_notify : bool then
             e ← gets (λ k, p_endpoint (proctab k src_ptr));
             mini_notify ASYNCM e;;
             mret ()
           else mret ());;
          (if done : bool then clear_asyntab privp
           else set_asyn_pending dst_ptr id);;
          mret r
      end.

(** The loop of [try_async] over the privilege structures. *)
Fixpoint try_async_loop (caller : Z) (privs : list Z) : K Z :=
  match privs with
  | [] => mret ESRCH
  | i :: privs' =>
      nr ← gets (λ k, s_proc_nr (privtab k i));
      bit ← gets (λ k, get_sys_bit (s_asyn_pending (priv_of k caller)) (s_id (privtab k i)));
      if nr =? NONE then try_async_loop caller privs'
      else if negb bit then try_async_loop caller privs'
      else
        assert_ (λ k, negb (delivering k caller)) "try_async: MF_DELIVERMSG";;
        r ← try_one nr caller;
        if r =? OK then mret r else try_async_loop caller privs'
  end.
Definition priv_ids : list Z := seqZ 0 NR_SYS_PROCS.
Definition try_async (caller : Z) : K Z := try_async_loop caller priv_ids.

(** ** [cancel_async] *)

(** The loop: [None] when it was left through [asyn_error]. *)
Fixpoint cancel_loop (src_ptr dst_ptr table_v : Z) (idxs : list Z) (done do_notify : bool)
  : K (option (bool * bool)) :=
  match idxs with
  | [] => mret (Some (done, do_notify))
  | i :: idxs' =>
      tab ← A_RETR src_ptr table_v i;
      match tab with
      | None => mret None
      | Some tabent =>
          let flgs := flags tabent in
          let r := if amf_bad flgs then EINVAL else EDEADSRCDST in
          if flgs =? 0 then cancel_loop src_ptr dst_ptr table_v idxs' done do_notify
          else if negb (amf_bad flgs) && has flgs AMF_DONE
          then cancel_loop src_ptr dst_ptr table_v idxs' done do_notify
          else
            dst_e ← gets (λ k, p_endpoint (proctab k dst_ptr));
            if negb (dst tabent =? dst_e) then cancel_loop src_ptr dst_ptr table_v idxs' false do_notify
            else
              ok ← A_INSRT src_ptr table_v i (amf_result r tabent);
              if ok : bool
              then cancel_loop src_ptr dst_ptr table_v idxs' done (do_notify || amf_notify r flgs)
              else mret None
      end
  end.

Definition cancel_async (src_ptr dst_ptr : Z) : K Z :=
  privp ← gets (λ k, priv_id k src_ptr);
  sys ← gets (λ k, has (s_flags (privtab k privp)) SYS_PROC);
  if negb sys then mret EPERM
  else
    size ← gets (λ k, s_asynsize (privtab k privp));
    table_v ← gets (λ k, s_asyntab (privtab k privp));
    id ← gets (λ k, s_id (privtab k privp));
    clear_asyntab privp;;
    dpriv ← gets (λ k, priv_id k dst_ptr);
    modify_priv dpriv (λ s, s <| s_asyn_pending ::= unset_sys_bit id |>);;
    may ← gets (λ k, may_send_to k src_ptr dst_ptr);
    if size =? 0 then mret EAGAIN
    else if negb may then mret ECALLDENIED
    else
      res ← cancel_loop src_ptr dst_ptr table_v (seqZ 0 size) true false;
      match res with
      | None => mret OK
      | Some (done, do_notify) =>
          (if do_notify : bool then
             e ← gets (λ k, p_endpoint (proctab k src_ptr));
             mini_notify ASYNCM e;;
             mret ()
           else mret ());;
          (if negb done then modify_priv privp (λ s, s <| s_asyntab := table_v |> <| s_asynsize := size |>)
           else mret ());;
          mret OK
      end.
