(* ===== verification/Ipc.v ===== *)
(** * Synchronous message passing (kernel/proc.c)

    [mini_send], [mini_receive], [deadlock] and the entry points [do_sync_ipc] and [do_ipc],
    with what they call of the other components: notifications (Notify), asynchronous
    messages (Async), the run queues (Sched).

    A send goes straight to a destination that waits for it (rendezvous) or blocks the sender
    at the end of the destination's queue, unless that would close a cycle of processes that
    wait for each other.  A receive takes, in this order, a pending notification, a pending
    asynchronous message, or the first acceptable sender of the queue, or blocks.

    Loops: the walk over a sender queue and the walk of [deadlock] over the processes that
    wait for each other are bounded by [BLOCKED_FUEL], more than there are processes. *)
From S2P Require Import Prelude LinkedList Kernel Endpoint Sched IpcInv Notify Async.

(** ** [deadlock] *)

Fixpoint deadlock_loop (fuel : nat) (function cp src_dst_e group_size : Z) : K Z :=
  match fuel with
  | O => panic "deadlock: does not end"
  | S fuel' =>
      if src_dst_e =? ANY then mret 0
      else
        xp ← okendpt src_dst_e;
        assert_ (λ k, negb (RTS_ISSET k xp RTS_SLOT_FREE)) "deadlock: RTS_SLOT_FREE";;
        next ← gets (λ k, P_BLOCKEDON k xp);
        cp_e ← gets (λ k, p_endpoint (proctab k cp));
        flgs ← gets (λ k, p_rts_flags (proctab k xp));
        let group_size := group_size + 1 in
        if next =? NONE then mret 0
        else if next =? cp_e then
          if (group_size =? 2) && has (Z.lxor flgs (Z.shiftl function 2)) RTS_SENDING then mret 0
          else mret group_size
        else deadlock_loop fuel' function cp next group_size
  end.
Definition deadlock (function cp src_dst_e : Z) : K Z := deadlock_loop BLOCKED_FUEL function cp src_dst_e 1.

(** ** Copying messages *)

(** What the message pointer of a send gives: [None] is a fault.  [copy_msg_from_user] reads
    the address space that is loaded, which is the caller's; with FROM_KERNEL the pointer is
    dereferenced in the kernel. *)
Definition fetch_msg (caller : Z) (m_ptr : msgref) (flgs : Z) : K (option message) :=
  match m_ptr with
  | KernMsg m => mret (Some m)
  | UserPtr a =>
      if has flgs FROM_KERNEL then panic "user pointer used as a kernel message"
      else gets (λ k, umsg k caller a)
  end.

(** ** [mini_send] *)

Definition send_call (k : kstate) (caller flgs : Z) : Z :=
  if has (p_misc_flags (proctab k caller)) MF_REPLY_PEND then SENDREC
  else if has flgs NON_BLOCKING then SENDNB else SEND.

(** The destination waits for the message. *)
Definition send_deliver (caller dst_ptr : Z) (m_ptr : msgref) (flgs : Z) : K Z :=
  assert_ (λ k, negb (delivering k dst_ptr)) "mini_send: MF_DELIVERMSG";;
  m ← fetch_msg caller m_ptr flgs;
  match m with
  | None => mret EFAULT
  | Some m =>
      modify_proc dst_ptr (λ p, p <| p_delivermsg := m |>);;
      (if has flgs FROM_KERNEL then modify_proc dst_ptr (IPC_STATUS_ADD_FLAGS IPC_FLG_MSG_FROM_KERNEL)
       else mret ());;
      caller_e ← gets (λ k, p_endpoint (proctab k caller));
      modify_proc dst_ptr (λ p, p <| p_delivermsg ::= λ m, m <| m_source := caller_e |> |>);;
      modify_proc dst_ptr (λ p, p <| p_misc_flags ::= set_flag MF_DELIVERMSG |>);;
      call ← gets (λ k, send_call k caller flgs);
      modify_proc dst_ptr (IPC_STATUS_ADD_CALL call);;
      modify_proc dst_ptr (λ p, if has (p_misc_flags p) MF_REPLY_PEND
                                then p <| p_misc_flags ::= clear_flag MF_REPLY_PEND |> else p);;
      RTS_UNSET dst_ptr RTS_RECEIVING;;
      mret OK
  end.

(** [*xpp = v] for a cell of the queue of senders of [d]. *)
Definition write_caller_cell (d : Z) (c : cell Z) (v : option Z) : kstate → kstate :=
  match c with
  | CHead => upd_proc d (λ p, p <| p_caller_q := v |>)
  | CNext x => upd_proc x (λ p, p <| p_q_link := v |>)
  end.

(** Put the caller at the end of the queue of [d]. *)
Definition append_caller (caller d : Z) : K unit :=
  assert_ (λ k, bool_decide (q_link k caller = None)) "mini_send: p_q_link == NULL";;
  found ← gets (λ k, pp_find BLOCKED_FUEL (q_link k) (p_caller_q (proctab k d)) (λ _, false) CHead);
  match found with
  | None => panic "mini_send: caller queue does not end"
  | Some c => modify (write_caller_cell d c (Some caller))
  end.

(** Keep the message and mark the caller as sending. *)
Definition mark_sending (caller dst_e flgs : Z) (m : message) : K unit :=
  modify_proc caller (λ p, p <| p_sendmsg := m |>);;
  (if has flgs FROM_KERNEL
   then modify_proc caller (λ p, p <| p_misc_flags ::= set_flag MF_SENDING_FROM_KERNEL |>)
   else mret ());;
  RTS_SET caller RTS_SENDING;;
  modify_proc caller (λ p, p <| p_sendto_e := dst_e |>).

(** The destination does not wait: block the caller. *)
Definition send_block (caller dst_ptr dst_e : Z) (m_ptr : msgref) (flgs : Z) : K Z :=
  if has flgs NON_BLOCKING then mret ENOTREADY
  else
    dl ← deadlock SEND caller dst_e;
    if negb (dl =? 0) then mret ELOCKED
    else
      m ← fetch_msg caller m_ptr flgs;
      match m with
      | None => mret EFAULT
      | Some m =>
          mark_sending caller dst_e flgs m;;
          append_caller caller dst_ptr;;
          mret OK
      end.

Definition mini_send (caller dst_e : Z) (m_ptr : msgref) (flgs : Z) : K Z :=
  let dst_ptr := ENDPOINT_P dst_e in
  dead ← gets (λ k, RTS_ISSET k dst_ptr RTS_NO_ENDPOINT);
  if dead : bool then mret EDEADSRCDST
  else
    ready ← gets (λ k, WILLRECEIVE k dst_ptr (p_endpoint (proctab k caller)));
    if ready : bool then send_deliver caller dst_ptr m_ptr flgs
    else send_block caller dst_ptr dst_e m_ptr flgs.

(** ** [mini_receive] *)

(** A pending notification, with privilege id [src_id]. *)
Definition receive_notify (caller src_e src_id : Z) : K unit :=
  src_proc_nr ← gets (λ k, id_to_nr k src_id);
  assert_ (λ _, negb (src_proc_nr =? NONE)) "mini_receive: src_proc_nr != NONE";;
  unset_notify_pending caller src_id;;
  hisep ← gets (λ k, p_endpoint (proctab k src_proc_nr));
  assert_ (λ k, negb (delivering k caller)) "mini_receive: MF_DELIVERMSG";;
  assert_ (λ _, (src_e =? ANY) || (hisep =? src_e)) "mini_receive: hisep == src_e";;
  BuildNotifyMessage src_proc_nr caller;;
  modify_proc caller (λ p, p <| p_delivermsg ::= λ m, m <| m_source := hisep |> |>
                             <| p_misc_flags ::= set_flag MF_DELIVERMSG |>);;
  modify_proc caller (IPC_STATUS_ADD_CALL NOTIFY).

(** The status that the receiver gets about the call of the sender. *)
Definition receive_status (caller sender : Z) : K unit :=
  call ← gets (λ k, if has (p_misc_flags (proctab k sender)) MF_REPLY_PEND then SENDREC else SEND);
  modify_proc caller (IPC_STATUS_ADD_CALL call);;
  kern ← gets (λ k, has (p_misc_flags (proctab k sender)) MF_SENDING_FROM_KERNEL);
  if kern : bool then
    modify_proc caller (IPC_STATUS_ADD_FLAGS IPC_FLG_MSG_FROM_KERNEL);;
    modify_proc sender (λ p, p <| p_misc_flags ::= clear_flag MF_SENDING_FROM_KERNEL |>)
  else mret ().

(** A process that was stopped while sending can now be told. *)
Definition receive_delay (sender : Z) : K unit :=
  delay ← gets (λ k, has (p_misc_flags (proctab k sender)) MF_SIG_DELAY);
  if delay : bool then sig_delay_done sender else mret ().

(** The sender found in the queue, in cell [c]. *)
Definition receive_from (caller sender : Z) (c : cell Z) : K unit :=
  assert_ (λ k, negb (RTS_ISSET k sender RTS_SLOT_FREE)) "mini_receive: RTS_SLOT_FREE";;
  assert_ (λ k, negb (RTS_ISSET k sender RTS_NO_ENDPOINT)) "mini_receive: RTS_NO_ENDPOINT";;
  assert_ (λ k, negb (delivering k caller)) "mini_receive: MF_DELIVERMSG";;
  sp ← gets (λ k, proctab k sender);
  put_delivermsg caller (p_endpoint sp) (p_sendmsg sp);;
  RTS_UNSET sender RTS_SENDING;;
  receive_status caller sender;;
  receive_delay sender;;
  link ← gets (λ k, q_link k sender);
  modify (write_caller_cell caller c link);;
  modify_proc sender (λ p, p <| p_q_link := None |>).

(** The walk over the queue of senders; [true] when a message was taken. *)
Definition receive_queued (caller src_e src_p : Z) : K bool :=
  found ← gets (λ k, pp_find BLOCKED_FUEL (q_link k) (p_caller_q (proctab k caller))
                       (λ sender, (src_e =? ANY) || (src_p =? sender)) CHead);
  match found with
  | None => panic "mini_receive: caller queue does not end"
  | Some c =>
      here ← gets (λ k, cell_read (q_link k) (p_caller_q (proctab k caller)) c);
      match here with
      | None => mret false
      | Some sender => receive_from caller sender c;; mret true
      end
  end.

(** A message that is available now; [true] when one was taken. *)
Definition receive_now (caller src_e src_p : Z) : K bool :=
  src_id ← gets (λ k, if has (p_misc_flags (proctab k caller)) MF_REPLY_PEND then NULL_PRIV_ID
                      else has_pending_notify k caller src_p);
  if negb (src_id =? NULL_PRIV_ID) then receive_notify caller src_e src_id;; mret true
  else
    asyn ← gets (λ k, negb (has_pending_asend k caller src_p =? NULL_PRIV_ID));
    got ← (if asyn : bool then
             r ← (if negb (src_p =? ANY) then try_one src_p caller else try_async caller);
             mret (r =? OK)
           else mret false);
    if got : bool then modify_proc caller (IPC_STATUS_ADD_CALL SENDA);; mret true
    else receive_queued caller src_e src_p.

Definition receive_block (caller src_e flgs : Z) : K Z :=
  if negb (has flgs NON_BLOCKING) then
    dl ← deadlock RECEIVE caller src_e;
    if negb (dl =? 0) then mret ELOCKED
    else
      modify_proc caller (λ p, p <| p_getfrom_e := src_e |>);;
      RTS_SET caller RTS_RECEIVING;;
      mret OK
  else mret ENOTREADY.

(** From where the source has been checked on. *)
Definition receive_body (caller src_e src_p flgs : Z) : K Z :=
  blocked ← gets (λ k, RTS_ISSET k caller RTS_SENDING);
  got ← (if blocked : bool then mret false else receive_now caller src_e src_p);
  if got : bool then
    modify_proc caller (λ p, if has (p_misc_flags p) MF_REPLY_PEND
                             then p <| p_misc_flags ::= clear_flag MF_REPLY_PEND |> else p);;
    mret OK
  else receive_block caller src_e flgs.

Definition mini_receive (caller src_e m_buff_usr flgs : Z) : K Z :=
  assert_ (λ k, negb (delivering k caller)) "mini_receive: MF_DELIVERMSG";;
  modify_proc caller (λ p, p <| p_delivermsg_vir := m_buff_usr |>);;
  if src_e =? ANY then receive_body caller src_e ANY flgs
  else
    src_p ← okendpt src_e;
    dead ← gets (λ k, RTS_ISSET k src_p RTS_NO_ENDPOINT);
    if dead : bool then mret EDEADSRCDST else receive_body caller src_e src_p flgs.

Definition hmini_receive : Z → Z → Z → Z → K Z := mini_receive.

(** ** [do_sync_ipc] and [do_ipc] *)

Definition ipc_call_known (call_nr : Z) : bool :=
  bool_decide (call_nr ∈ [SEND; RECEIVE; SENDREC; NOTIFY; SENDNB; SENDA]).

(** The checks: [inl] is the error, [inr] the slot of the peer. *)
Definition check_sync_ipc (k : kstate) (caller call_nr src_dst_e : Z) : Z + Z :=
  if (call_nr <? 0) || (IPCNO_HIGHEST <? call_nr) || (32 <=? call_nr) || negb (ipc_call_known call_nr)
  then inl ETRAPDENIED
  else
    let peer :=
      if src_dst_e =? ANY then
        if negb (call_nr =? RECEIVE) then inl EINVAL else inr src_dst_e
      else
        match isokendpt k src_dst_e with
        | None => inl EDEADSRCDST
        | Some src_dst_p =>
            if negb (call_nr =? RECEIVE) && negb (may_send_to k caller src_dst_p) then inl ECALLDENIED
            else inr src_dst_p
        end in
    match peer with
    | inl e => inl e
    | inr src_dst_p =>
        if negb (has (s_trap_mask (priv_of k caller)) (Z.shiftl 1 call_nr)) then inl ETRAPDENIED
        else if negb (call_nr =? SENDREC) && negb (call_nr =? RECEIVE) && iskerneln src_dst_p
        then inl ETRAPDENIED
        else inr src_dst_p
    end.

Definition do_sync_ipc (caller call_nr src_dst_e m_ptr : Z) : K Z :=
  assert_ (λ _, negb (call_nr =? SENDA)) "do_sync_ipc: call_nr != SENDA";;
  chk ← gets (λ k, check_sync_ipc k caller call_nr src_dst_e);
  match chk with
  | inl e => mret e
  | inr _ =>
      if call_nr =? SENDREC then
        modify_proc caller (λ p, p <| p_misc_flags ::= set_flag MF_REPLY_PEND |>);;
        result ← mini_send caller src_dst_e (UserPtr m_ptr) 0;
        if negb (result =? OK) then mret result
        else mini_receive caller src_dst_e m_ptr 0
      else if call_nr =? SEND then mini_send caller src_dst_e (UserPtr m_ptr) 0
      else if call_nr =? RECEIVE then
        modify_proc caller (λ p, p <| p_misc_flags ::= clear_flag MF_REPLY_PEND |>);;
        modify_proc caller IPC_STATUS_CLEAR;;
        mini_receive caller src_dst_e m_ptr 0
      else if call_nr =? NOTIFY then mini_notify caller src_dst_e
      else if call_nr =? SENDNB then mini_send caller src_dst_e (UserPtr m_ptr) NON_BLOCKING
      else mret EBADCALL
  end.

Definition do_ipc_call (caller call_nr r2 r3 : Z) : K Z :=
  if bool_decide (call_nr ∈ [SENDREC; SEND; RECEIVE; NOTIFY; SENDNB]) then
    modify_acct caller (λ a, a <| ipc_sync ::= λ n, u32 (n + 1) |>);;
    do_sync_ipc caller call_nr (i32 r2) r3
  else if call_nr =? SENDA then
    modify_acct caller (λ a, a <| ipc_async ::= λ n, u32 (n + 1) |>);;
    if SENDA_LIMIT <? u32 r2 then mret EDOM else mini_senda caller r3 (u32 r2)
  else if call_nr =? MINIX_KERNINFO then
    info ← gets minix_kerninfo_user;
    if info =? 0 then mret EBADCALL
    else modify_proc caller (λ p, p <| p_reg ::= λ r, r <| bx := info |> |>);; mret OK
  else mret EBADCALL.

Definition do_ipc (r1 r2 r3 : Z) : K Z :=
  caller ← gets proc_ptr;
  let call_nr := i32 r1 in
  unstable ← gets (λ k, h_unstable_state (kh k));
  if unstable =? H_UNSTABLE then mret OK
  else
    assert_ (λ k, negb (RTS_ISSET k caller RTS_SLOT_FREE)) "do_ipc: RTS_SLOT_FREE";;
    modify (λ k, k <| kbill_ipc := Some caller |>);;
    misc ← gets (λ k, p_misc_flags (proctab k caller));
    let trace := Z.land misc (Z.lor MF_SC_TRACE MF_SC_DEFER) in
    if trace =? MF_SC_TRACE then
      (* first entry of a traced call: postpone it and tell the tracer *)
      modify_proc caller (λ p, p <| p_misc_flags ::= clear_flag MF_SC_TRACE |>);;
      assert_ (λ k, negb (has (p_misc_flags (proctab k caller)) MF_SC_DEFER)) "do_ipc: MF_SC_DEFER";;
      modify_proc caller (λ p, p <| p_misc_flags ::= set_flag MF_SC_DEFER |> <| p_defer := (r1, r2, r3) |>);;
      cause_sig caller SIGTRAP;;
      gets (λ k, retreg (p_reg (proctab k caller)))
    else
      (if negb (trace =? 0) then
         modify_proc caller (λ p, p <| p_misc_flags ::= clear_flag MF_SC_DEFER |>);;
         assert_ (λ k, negb (has (p_misc_flags (proctab k caller)) MF_SC_ACTIVE)) "do_ipc: MF_SC_ACTIVE";;
         modify_proc caller (λ p, p <| p_misc_flags ::= set_flag MF_SC_ACTIVE |>)
       else mret ());;
      pending ← gets (λ k, delivering k caller);
      if pending : bool then panic "sys_call: MF_DELIVERMSG on"
      else do_ipc_call caller call_nr r2 r3.

(** ** Out of quantum *)

Definition SCHEDULING_NO_QUANTUM : Z := 0xF01.

(** Percentage of busy cycles since the last call. *)
Definition cpu_load : K Z :=
  current_tsc ← gets tsc;
  last_tsc ← gets cpu_last_tsc;
  last_idle ← gets cpu_last_idle;
  current_idle ← gets (λ k, p_cycles (proctab k IDLE_PTR));
  let load :=
    if last_tsc =? 0 then 0
    else
      let tsc_delta := u64 (current_tsc - last_tsc) in
      let idle_delta := u64 (current_idle - last_idle) in
      let busy := u64 (u64 (tsc_delta - idle_delta) * 100) in
      let load := i16 (u32 (busy / tsc_delta)) in
      if 100 <? load then 100 else load in
  modify (λ k, k <| cpu_last_tsc := current_tsc |> <| cpu_last_idle := current_idle |>);;
  mret load.

(** The message: [m9_l1..m9_l5], then the shorts [m9_s1] (the CPU, always 0) and [m9_s2]. *)
Definition no_quantum_msg (k : kstate) (p load : Z) : message :=
  let a := p_accounting (proctab k p) in
  mk_message (p_endpoint (proctab k p)) SCHEDULING_NO_QUANTUM
    [dequeues a; ipc_sync a; ipc_async a; preempted a; cpu_time_2_ms k (time_in_queue a);
     Z.shiftl (load mod 2 ^ 16) 16].

Definition notify_scheduler (p : Z) : K unit :=
  assert_ (λ k, negb (proc_kernel_scheduler k p)) "notify_scheduler: kernel scheduler";;
  RTS_SET p RTS_NO_QUANTUM;;
  load ← cpu_load;
  m ← gets (λ k, no_quantum_msg k p load);
  reset_proc_accounting p;;
  sched ← gets (λ k, p_scheduler (proctab k p));
  match sched with
  | None => panic "p_scheduler is NULL"
  | Some s =>
      e ← gets (λ k, p_endpoint (proctab k s));
      err ← mini_send p e (KernMsg m) FROM_KERNEL;
      if err =? 0 then mret () else panic "WARNING: Scheduling: mini_send returned error"
  end.

Definition proc_no_time (p : Z) : K unit :=
  user ← gets (λ k, negb (proc_kernel_scheduler k p) && has (s_flags (priv_of k p)) PREEMPTIBLE);
  if user : bool then notify_scheduler p
  else
    t ← gets (λ k, ms_2_cpu_time k (p_quantum_size_ms (proctab k p)));
    modify_proc p (λ r, r <| p_cpu_time_left := t |>).

(** ** [deadlock] walks the processes that wait for each other *)

(** A SEND and a RECEIVE that meet: the pair that [deadlock] lets pass. *)
Definition rendezvous (k : kstate) (function x : Z) : bool :=
  has (Z.lxor (rts k x) (Z.shiftl function 2)) RTS_SENDING.

Lemma ANY_not_slot : ¬ valid_slot (ENDPOINT_P ANY).
Proof. unfold valid_slot. vm_compute. by intros [_ ?]. Qed.

Section deadlock.
Context (k : kstate) (Q C : Z → list Z) (HI : ipc_inv k Q C) (cp : Z) (Hcp : valid_slot cp).

Lemma wait_next_valid x y :
  valid_slot x → wait_next k x = Some y →
  P_BLOCKEDON k x ≠ NONE ∧ P_BLOCKEDON k x ≠ ANY ∧ isokendpt k (P_BLOCKEDON k x) = Some y.
Proof using HI.
  intros Hx. unfold wait_next.
  destruct (Z.eqb_spec (P_BLOCKEDON k x) NONE) as [|H1]; [done|].
  destruct (Z.eqb_spec (P_BLOCKEDON k x) ANY) as [|H2]; [done|]. intros [= <-]. split_and!; [done..|].
  rewrite P_BLOCKEDON_eq in *. destruct (sending k x) eqn:Hs; [by apply (ii_sendto _ _ _ HI)|].
  destruct (receiving k x) eqn:Hr; [|done]. by destruct (ii_getfrom _ _ _ HI x Hx Hr).
Qed.

Lemma deadlock_loop_spec f e d l fuel g :
  isokendpt k e = Some d → chain (wait_next k) (Some d) (d :: l) None → (length l + 1 < fuel)%nat →
  1 ≤ g → e ≠ ANY →
  ∃ r, deadlock_loop fuel f cp e g k = Ret (r, k) ∧
    (r ≠ 0 → cp ∈ l) ∧ (r = 0 → cp ∉ l ∨ (g = 1 ∧ head l = Some cp ∧ rendezvous k f d = true)).
Proof using HI Hcp.
  revert e d fuel g. induction l as [|y l IH]; intros e d fuel g Hok Hc Hfuel Hg He;
    (destruct fuel as [|fuel]; [simpl in Hfuel; lia|]);
    pose proof Hok as (Hv & _ & _ & Hep)%isokendpt_Some;
    simpl; rewrite (proj2 (Z.eqb_neq _ _) He); unfold okendpt, isokendpt_f, gets, assert_, mbind, M_bind;
    rewrite Hok; simpl; rewrite isset_slot_free, (isokendpt_not_free _ _ (ii_base _ _ _ HI) _ _ Hok); simpl.
  - simpl in Hc. destruct Hc as [_ Hc]. unfold wait_next in Hc.
    destruct (Z.eqb_spec (P_BLOCKEDON k d) NONE) as [H1|H1].
    { exists 0. split_and!; [done..|]. intros _. left. apply not_elem_of_nil. }
    destruct (Z.eqb_spec (P_BLOCKEDON k d) ANY) as [H2|H2]; [|done].
    assert (P_BLOCKEDON k d ≠ p_endpoint (proctab k cp)) as Hne.
    { intros Heq. pose proof (ib_endpt _ _ (ii_base _ _ _ HI) cp Hcp) as H. rewrite <-Heq, H2 in H.
      subst cp. by apply ANY_not_slot. }
    rewrite (proj2 (Z.eqb_neq _ _) Hne). destruct fuel as [|fuel]; [simpl in Hfuel; lia|]. simpl.
    rewrite H2. exists 0. split_and!; [done..|]. intros _. left. apply not_elem_of_nil.
  - change (chain (wait_next k) (Some d) (d :: y :: l) None)
      with (Some d = Some d ∧ wait_next k d = Some y ∧ chain (wait_next k) (wait_next k y) l None) in Hc.
    destruct Hc as (_ & Hw & Hc).
    destruct (wait_next_valid d y Hv Hw) as (H1 & H2 & Hoky).
    rewrite (proj2 (Z.eqb_neq _ _) H1).
    pose proof Hoky as (Hvy & _ & Hepy & _)%isokendpt_Some.
    destruct (Z.eqb_spec (P_BLOCKEDON k d) (p_endpoint (proctab k cp))) as [Heq|Hne].
    + assert (y = cp) as ->.
      { rewrite <-(ib_endpt _ _ (ii_base _ _ _ HI) cp Hcp), <-Heq. by apply isokendpt_Some in Hoky as (_ & _ & _ & ->). }
      fold (rts k d). fold (rendezvous k f d).
      destruct (Z.eqb_spec (g + 1) 2) as [Hg2|Hg2]; simpl.
      * destruct (rendezvous k f d) eqn:Hren.
        -- exists 0. split_and!; [done..|]. intros _. right. split_and!; [lia|done..].
        -- exists (g + 1). split_and!; [done|intros _; left|lia].
      * exists (g + 1). split_and!; [done|intros _; left|lia].
    + destruct (IH (P_BLOCKEDON k d) y fuel (g + 1)) as (r & -> & Hr1 & Hr2);
        [done|split; done|simpl in Hfuel; lia|lia|done|].
      exists r. split_and!; [done|intros; right; auto|]. intros ->. left.
      destruct (Hr2 eq_refl) as [Hnin|[? _]]; [|lia].
      apply not_elem_of_cons. split; [|done]. intros ->. by apply Hne.
Qed.

(** A path of waiting processes is shorter than the bound of the walk. *)
Lemma wait_path_length d l :
  valid_slot d → chain (wait_next k) (Some d) l None → (length l < BLOCKED_FUEL)%nat.
Proof using HI.
  intros Hd Hc. assert (length l ≤ length proc_nrs)%nat.
  { apply submseteq_length, NoDup_submseteq; [by eapply chain_NoDup|]. intros x Hx.
    apply elem_of_proc_nrs. revert d Hd Hc Hx. induction l as [|y l IH]; intros d Hd Hc Hx;
      [by apply not_elem_of_nil in Hx|].
    simpl in Hc. destruct Hc as [[= ->] Hc]. apply elem_of_cons in Hx as [->|Hx]; [done|].
    destruct l as [|z l]; [by apply not_elem_of_nil in Hx|].
    assert (wait_next k y = Some z) as Hw by by destruct Hc.
    apply (IH z); [|by rewrite <-Hw|done].
    destruct (wait_next_valid y z Hd Hw) as (_ & _ & H). by apply isokendpt_Some in H as [? _]. }
  unfold BLOCKED_FUEL. change (length proc_nrs) with 261%nat in *. lia.
Qed.

Lemma deadlock_spec f e d :
  isokendpt k e = Some d →
  ∃ r l, deadlock f cp e k = Ret (r, k) ∧ chain (wait_next k) (Some d) (d :: l) None ∧
    (r ≠ 0 → cp ∈ l) ∧ (r = 0 → cp ∉ l ∨ (head l = Some cp ∧ rendezvous k f d = true)).
Proof using HI Hcp.
  intros Hok. pose proof Hok as (Hv & _ & _ & Hep)%isokendpt_Some.
  destruct (ii_waits _ _ _ HI d Hv) as [l Hl]. destruct l as [|x l]; [done|].
  assert (x = d) as -> by (destruct Hl as [[= ->] _]; done).
  pose proof (wait_path_length _ _ Hv Hl) as Hlen. simpl in Hlen.
  assert (e ≠ ANY) as He by (intros ->; subst d; by apply ANY_not_slot).
  destruct (deadlock_loop_spec f e d l BLOCKED_FUEL 1) as (r & Hr & H1 & H2); [done..|lia|lia|done|].
  exists r, l. split; [exact Hr|]. split; [exact Hl|]. split; [exact H1|].
  intros H0. destruct (H2 H0) as [?|(_ & ? & ?)]; auto.
Qed.
End deadlock.
Lemma deadlock_ANY f cp k : deadlock f cp ANY k = Ret (0, k).
Proof. done. Qed.
#[global] Opaque deadlock.

(** ** [mini_send] to a process that waits *)

(** What [fetch_msg] gives. *)
Definition fetched (k : kstate) (caller : Z) (m_ptr : msgref) : option message :=
  match m_ptr with KernMsg m => Some m | UserPtr a => umsg k caller a end.
(** FROM_KERNEL goes with a kernel message only. *)
Definition msg_ok (m_ptr : msgref) (flgs : Z) : Prop :=
  match m_ptr with KernMsg _ => True | UserPtr _ => has flgs FROM_KERNEL = false end.

Lemma fetch_msg_wp caller m_ptr flgs (P : option message → kstate → Prop) k :
  msg_ok m_ptr flgs → P (fetched k caller m_ptr) k → wp (fetch_msg caller m_ptr flgs) P k.
Proof. unfold fetch_msg, msg_ok. destruct m_ptr; [intros ->|intros _]; intros; by wp_steps. Qed.

(** The receiver of a message, after the rendezvous. *)
Definition send_received (caller_e call flgs : Z) (m : message) (p : proc) : proc :=
  let p := p <| p_delivermsg := m |> in
  let p := if has flgs FROM_KERNEL then IPC_STATUS_ADD_FLAGS IPC_FLG_MSG_FROM_KERNEL p else p in
  let p := p <| p_delivermsg ::= λ m, m <| m_source := caller_e |> |> in
  let p := IPC_STATUS_ADD_CALL call (p <| p_misc_flags ::= set_flag MF_DELIVERMSG |>) in
  if has (p_misc_flags p) MF_REPLY_PEND then p <| p_misc_flags ::= clear_flag MF_REPLY_PEND |> else p.

Lemma send_received_view {A} (f : proc → A) e call flgs m p :
  (∀ p r, f (p <| p_reg := r |>) = f p) → (∀ p g, f (p <| p_delivermsg ::= g |>) = f p) →
  (∀ p g, f (p <| p_misc_flags ::= g |>) = f p) →
  f (send_received e call flgs m p) = f p.
Proof.
  intros H1 H2 H3. unfold send_received, IPC_STATUS_ADD_CALL, IPC_STATUS_ADD_FLAGS.
  case_bool; rewrite ?H3, (IPC_STATUS_ADD_view f), H3, H2 by done;
    destruct (has flgs FROM_KERNEL); rewrite ?(IPC_STATUS_ADD_view f), H2 by done; done.
Qed.
Lemma send_received_msg e call flgs m p :
  p_delivermsg (send_received e call flgs m p) = m <| m_source := e |> ∧
  has (p_misc_flags (send_received e call flgs m p)) MF_DELIVERMSG = true.
Proof.
  unfold send_received, IPC_STATUS_ADD_CALL, IPC_STATUS_ADD_FLAGS.
  set (p1 := if has flgs FROM_KERNEL then _ else _).
  assert (p_delivermsg p1 = m) as H1.
  { subst p1. case_bool; [by rewrite (IPC_STATUS_ADD_view p_delivermsg)|done]. }
  set (p2 := IPC_STATUS_ADD _ _).
  assert (p_delivermsg p2 = p_delivermsg p1 <| m_source := e |> ∧ p_misc_flags p2 = set_flag MF_DELIVERMSG (p_misc_flags p1)) as [H2 H3].
  { subst p2. by rewrite (IPC_STATUS_ADD_view p_delivermsg), (IPC_STATUS_ADD_view p_misc_flags). }
  case_bool; simpl; rewrite H2, H3, ?H1; (split; [done|]); rewrite ?has_clear_other by done; by apply has_set_self.
Qed.

Section mini_send.
Context (k : kstate) (Q C : Z → list Z) (HI : ipc_inv k Q C) (caller d : Z) (m_ptr : msgref) (flgs : Z).
Context (Hok : msg_ok m_ptr flgs).

Lemma send_deliver_fault :
  valid_slot d → receiving k d = true → fetched k caller m_ptr = None →
  send_deliver caller d m_ptr flgs k = Ret (EFAULT, k).
Proof using HI Hok.
  intros Hv Hr Hm. unfold send_deliver, assert_, mbind, M_bind.
  rewrite (ib_deliver _ _ (ii_base _ _ _ HI)) by done. simpl. unfold fetch_msg, msg_ok, fetched in *.
  destruct m_ptr; [|done]. rewrite Hok. unfold gets. by rewrite Hm.
Qed.

Lemma send_deliver_spec m :
  valid_slot d → caller ≠ d → receiving k d = true → fetched k caller m_ptr = Some m →
  wp (send_deliver caller d m_ptr flgs) (λ r k', r = OK ∧ (∃ Q', ipc_inv k' Q' C) ∧
    sched_frame (upd_proc d (send_received (p_endpoint (proctab k caller)) (send_call k caller flgs) flgs m) k) k' ∧
    ∀ n, rts k' n = rts_unset k d RTS_RECEIVING n) k.
Proof using HI Hok.
  intros Hv Hne Hr Hm. unfold send_deliver, modify_proc. wp_steps.
  apply wp_assert; [by rewrite (ib_deliver _ _ (ii_base _ _ _ HI))|]. wp_steps.
  apply fetch_msg_wp; [done|]. rewrite Hm. wp_steps.
  set (k1 := upd_proc d (λ p, p <| p_delivermsg := m |>) k).
  set (k2 := if has flgs FROM_KERNEL then upd_proc d (IPC_STATUS_ADD_FLAGS IPC_FLG_MSG_FROM_KERNEL) k1 else k1).
  eapply wp_intro with (a := ()) (s' := k2); [subst k2; by case_bool|]. wp_steps.
  assert (∀ n, n ≠ d → proctab k2 n = proctab k n) as Hother.
  { intros n Hn. subst k2 k1. case_bool; rewrite ?proctab_upd_proc, ?decide_False by done; done. }
  rewrite (Hother caller Hne).
  set (k3 := upd_proc d (λ p, p <| p_misc_flags ::= set_flag MF_DELIVERMSG |>) _).
  assert (send_call k3 caller flgs = send_call k caller flgs) as ->.
  { unfold send_call. subst k3. rewrite !proctab_upd_proc, !decide_False by done. by rewrite Hother. }
  match goal with |- wp _ _ ?s => set (k4 := s) end.
  set (g := send_received (p_endpoint (proctab k caller)) (send_call k caller flgs) flgs m).
  assert (∀ n, proctab k4 n = proctab (upd_proc d g k) n) as Hk4.
  { intros n. subst k4 k3. rewrite !proctab_upd_proc. case_decide as Hn; [|by apply Hother].
    rewrite !decide_True by done. subst g k2 k1. unfold send_received.
    destruct (has flgs FROM_KERNEL); rewrite ?proctab_upd_proc, ?decide_True by done; done. }
  assert (k4 = upd_proc d g k <| proctab := proctab k4 |>) as Hrest by (subst k4 k3 k2; by case_bool).
  assert (sched_same k k4) as Hs4.
  { etrans; [apply (sched_same_upd_proc k d g)|].
    - intros p. by apply (send_received_view sview).
    - split; try (by rewrite Hrest). intros n. by rewrite Hk4. }
  eapply wp_mono; [apply (RTS_UNSET_same k k4 Q d RTS_RECEIVING)|].
  - apply (ii_base _ _ _ HI).
  - done.
  - done.
  - by apply (ib_prio _ _ (ii_base _ _ _ HI)).
  - intros [] k' ((Q' & HS) & Hf & Hr'). wp_steps.
    assert (sched_frame (upd_proc d g k) k4) as Hf4.
    { apply sched_frame_pointwise; [done|]. by rewrite Hrest. }
    split_and!; [done| |frame_trans|done].
    eapply ipc_inv_step, (base_step_delivered k k4 k' Q Q' d); eauto using ii_base.
    + intros n. rewrite Hk4, proctab_upd_proc. case_decide; [subst|done].
      by apply (send_received_view ipcview).
    + intros n Hn. unfold delivering. by rewrite Hk4, proctab_upd_proc, decide_False.
Qed.
End mini_send.

(** ** Editing the queue of senders of one process *)

Section caller_queues.
Context (k : kstate) (Q C : Z → list Z) (HI : ipc_inv k Q C).

Lemma callers_disjoint d1 d2 n : valid_slot d1 → valid_slot d2 → n ∈ C d1 → n ∈ C d2 → d1 = d2.
Proof using HI.
  intros H1 H2 Hn1 Hn2. apply (ii_queued _ _ _ HI) in Hn1 as (_ & _ & <-); [|done].
  by apply (ii_queued _ _ _ HI) in Hn2 as (_ & _ & <-).
Qed.

Lemma callers_length d : valid_slot d → (length (C d) < BLOCKED_FUEL)%nat.
Proof using HI.
  intros Hd. assert (length (C d) ≤ length proc_nrs)%nat.
  { apply submseteq_length, NoDup_submseteq; [eapply chain_NoDup; by apply (ii_callers _ _ _ HI)|].
    intros n Hn. apply elem_of_proc_nrs. by apply (ii_queued _ _ _ HI) in Hn as (? & _). }
  unfold BLOCKED_FUEL. change (length proc_nrs) with 261%nat in *. lia.
Qed.
End caller_queues.

(** [*xpp = v] in the queue of [d] replaces that queue by [L] and no other. *)
Lemma write_caller_chain k C d c v L d' :
  (∀ d, valid_slot d → chain (q_link k) (p_caller_q (proctab k d)) (C d) None) →
  (∀ n, n ∈ C d → n ∈ C d' → d = d') →
  valid_slot d → valid_slot d' → (∀ x, c = CNext x → x ∈ C d) →
  (let st := cell_write c v (q_link k, p_caller_q (proctab k d)) in chain st.1 st.2 L None) →
  let k' := write_caller_cell d c v k in
  chain (q_link k') (p_caller_q (proctab k' d')) (if decide (d' = d) then L else C d') None.
Proof.
  intros HC Hdis Hd Hd' Hx Hst. destruct c as [|x]; simpl in Hst |- *.
  - assert (∀ l h, chain (q_link (upd_proc d (λ p, p <| p_caller_q := v |>) k)) h l None ↔ chain (q_link k) h l None) as Hq.
    { intros l h. by apply (chain_table_same p_q_link). }
    unfold upd. case_decide as Hdd; [subst; simpl|]; apply Hq; [done|]. by apply HC.
  - assert (∀ l h, chain (q_link (upd_proc x (λ p, p <| p_q_link := v |>) k)) h l None ↔
      chain (upd (q_link k) x v) h l None) as Hq.
    { intros l h. by apply (chain_table p_q_link). }
    assert (p_caller_q (upd (proctab k) x (proctab k x <| p_q_link := v |>) d') = p_caller_q (proctab k d')) as ->.
    { unfold upd. case_decide; by subst. }
    apply Hq. case_decide as Hdd; [by subst|].
    apply chain_frame; [|by apply HC]. intros Hin. apply Hdd. symmetry. apply (Hdis x); [|done]. by apply Hx.
Qed.

Lemma write_caller_same d c v k : sched_same k (write_caller_cell d c v k).
Proof. destruct c; by apply sched_same_upd_proc. Qed.
Lemma write_caller_view {A} (f : proc → A) d c v k n :
  (∀ p x, f (p <| p_caller_q := x |>) = f p) → (∀ p x, f (p <| p_q_link := x |>) = f p) →
  f (proctab (write_caller_cell d c v k) n) = f (proctab k n).
Proof.
  intros H1 H2. destruct c; simpl; unfold upd; case_decide; subst; rewrite ?H1, ?H2; done.
Qed.
Lemma write_caller_link d c v k n :
  (∀ x, c = CNext x → n ≠ x) → q_link (write_caller_cell d c v k) n = q_link k n.
Proof.
  intros Hn. unfold q_link. destruct c as [|x]; simpl; unfold upd; case_decide; subst; try done.
  by destruct (Hn x).
Qed.

(** ** Blocking a sender *)

Section blocked.
Context (k k' : kstate) (Q Q' C : Z → list Z) (HI : ipc_inv k Q C) (caller d dst_e : Z).
Context (Hc : valid_slot caller) (Hfree : slot_free k caller = false) (Hns : sending k caller = false)
  (Hnr : receiving k caller = false) (Hd : isokendpt k dst_e = Some d).
Context (Hdl : ∀ l, chain (wait_next k) (Some d) l None → caller ∉ l).
Context (HS : sched_rel k' Q') (Hptr : proc_ptr k' = proc_ptr k)
  (Hrts : ∀ n, rts k' n = rts_after_set caller RTS_SENDING k n)
  (Hview : ∀ n, p_priority (proctab k' n) = p_priority (proctab k n) ∧
     p_endpoint (proctab k' n) = p_endpoint (proctab k n) ∧
     p_getfrom_e (proctab k' n) = p_getfrom_e (proctab k n) ∧
     p_sendto_e (proctab k' n) = if decide (n = caller) then dst_e else p_sendto_e (proctab k n))
  (Hdel : ∀ n, delivering k' n = delivering k n)
  (Hlink : ∀ n, n ∉ C d → q_link k' n = q_link k n)
  (Hchain : ∀ d', valid_slot d' → chain (q_link k') (p_caller_q (proctab k' d')) (upd C d (C d ++ [caller]) d') None).

Lemma blocked_sending n : sending k' n = if decide (n = caller) then true else sending k n.
Proof using Hrts.
  unfold sending. rewrite Hrts. unfold rts_after_set. case_decide; [|done]. by apply has_set_self.
Qed.
Lemma blocked_receiving n : receiving k' n = receiving k n.
Proof using Hrts. unfold receiving. rewrite Hrts. by apply has_rts_set_other. Qed.
Lemma blocked_free n : slot_free k' n = slot_free k n.
Proof using Hrts. unfold slot_free. rewrite Hrts. by apply has_rts_set_other. Qed.

Lemma blocked_isok e p : isokendpt k e = Some p → isokendpt k' e = Some p.
Proof using HI Hrts Hview.
  intros He. eapply isokendpt_stable; [| |done].
  - intros n. apply Hview.
  - intros _. apply isemptyp_free. rewrite blocked_free. by eapply (isokendpt_not_free _ _ (ii_base _ _ _ HI)).
Qed.

Lemma blocked_waits : no_deadlock k'.
Proof using HI Hc Hns Hnr Hd Hdl Hrts Hview.
  pose proof Hd as (Hdv & _ & _ & Hep)%isokendpt_Some.
  destruct (ii_waits _ _ _ HI d Hdv) as [l Hl].
  intros n Hn. destruct (ii_waits _ _ _ HI n Hn) as [ln Hln].
  eapply (wait_add (wait_next k) (wait_next k') caller d l); eauto.
  - intros x Hx. unfold wait_next. rewrite !P_BLOCKEDON_eq, blocked_sending, blocked_receiving.
    rewrite decide_False by done. destruct (Hview x) as (_ & _ & -> & ->). by rewrite decide_False.
  - unfold wait_next. by rewrite P_BLOCKEDON_eq, Hns, Hnr.
  - unfold wait_next. rewrite P_BLOCKEDON_eq, blocked_sending, decide_True by done.
    destruct (Hview caller) as (_ & _ & _ & ->). rewrite decide_True by done.
    destruct (Z.eqb_spec dst_e NONE) as [->|]; [done|]. destruct (Z.eqb_spec dst_e ANY) as [->|]; [done|].
    simpl. by rewrite Hep.
Qed.

Lemma blocked_base : ipc_base k' Q'.
Proof using HI Hfree Hns Hnr HS Hptr Hrts Hview Hdel.
  split.
  - done.
  - intros n Hn. destruct (Hview n) as [-> _]. by apply (ib_prio _ _ (ii_base _ _ _ HI)).
  - intros n Hn. destruct (Hview n) as (_ & -> & _). by apply (ib_endpt _ _ (ii_base _ _ _ HI)).
  - intros n Hn. rewrite blocked_receiving, Hdel. by apply (ib_deliver _ _ (ii_base _ _ _ HI)).
  - intros n Hn. rewrite blocked_free, Hrts. unfold rts_after_set. intros H.
    rewrite decide_False; [by apply (ib_free _ _ (ii_base _ _ _ HI))|]. intros ->. congruence.
  - rewrite Hptr, blocked_free. apply (ii_base _ _ _ HI).
Qed.

Lemma blocked_inv : ipc_inv k' Q' (upd C d (C d ++ [caller])).
Proof using All.
  pose proof Hd as (Hdv & _ & _ & Hep)%isokendpt_Some.
  split.
  - apply blocked_base.
  - done.
  - intros d' n Hd'. rewrite blocked_sending. destruct (Hview n) as (_ & _ & _ & ->).
    pose proof (ii_queued _ _ _ HI d' n Hd') as Hq. unfold upd.
    destruct (decide (n = caller)) as [->|Hn].
    + rewrite Hep. case_decide as Hdd; [subst; set_solver|]. rewrite Hq, Hns. naive_solver.
    + case_decide as Hdd; [subst|done]. rewrite elem_of_app, list_elem_of_singleton, Hq. naive_solver.
  - intros n Hn. rewrite blocked_sending. case_decide as Hcd; [done|]. intros H. rewrite Hlink.
    + by apply (ii_link _ _ _ HI).
    + rewrite (ii_queued _ _ _ HI) by done. rewrite H. naive_solver.
  - intros n Hn. rewrite blocked_sending. destruct (Hview n) as (_ & _ & _ & ->).
    case_decide as Hcd; [intros _; apply blocked_isok; by rewrite Hep|].
    intros H. by apply blocked_isok, (ii_sendto _ _ _ HI).
  - intros n Hn. rewrite blocked_receiving. destruct (Hview n) as (_ & _ & -> & _). intros H.
    destruct (ii_getfrom _ _ _ HI n Hn H); [by left|right; by apply blocked_isok].
  - intros n Hn. rewrite blocked_sending, blocked_receiving. destruct (Hview n) as (_ & _ & -> & ->).
    case_decide as Hcd; [subst; rewrite Hnr; done|]. by apply (ii_sendrec _ _ _ HI).
  - apply blocked_waits.
Qed.
End blocked.

Lemma append_caller_eq k caller d l :
  q_link k caller = None → chain (q_link k) (p_caller_q (proctab k d)) l None →
  (length l < BLOCKED_FUEL)%nat →
  append_caller caller d k = Ret ((), write_caller_cell d (cell_after CHead l) (Some caller) k).
Proof.
  intros Hn Hc Hl. unfold append_caller, assert_, mbind, M_bind, gets.
  rewrite bool_decide_true by done. by rewrite (pp_find_end _ _ _ _ Hc Hl).
Qed.

(** What the IPC fields of a process become when it blocks; the queues aside. *)
Definition send_saved (flgs : Z) (m : message) (p : proc) : proc :=
  let p := p <| p_sendmsg := m |> in
  if has flgs FROM_KERNEL then p <| p_misc_flags ::= set_flag MF_SENDING_FROM_KERNEL |> else p.

(** Fields that neither scheduling nor the queues of senders touch. *)
Class ipc_field {A} (f : proc → A) : Prop := {
  if_core : ∀ p, f (core p) = f p;
  if_sendto : ∀ p x, f (p <| p_sendto_e := x |>) = f p;
  if_callerq : ∀ p x, f (p <| p_caller_q := x |>) = f p;
  if_link : ∀ p x, f (p <| p_q_link := x |>) = f p;
}.
#[export] Hint Extern 1 (ipc_field _) => split; reflexivity : typeclass_instances.

Lemma mark_sending_spec k Q caller dst_e flgs m :
  sched_rel k Q →
  wp (mark_sending caller dst_e flgs m) (λ _ k3, (∃ Q3, sched_rel k3 Q3) ∧ proc_ptr k3 = proc_ptr k ∧
    (∀ n, rts k3 n = rts_after_set caller RTS_SENDING k n) ∧
    (∀ A (f : proc → A) n, (∀ p, f (core p) = f p) → (∀ p x, f (p <| p_sendto_e := x |>) = f p) →
      f (proctab k3 n) = f (proctab (upd_proc caller (send_saved flgs m) k) n)) ∧
    (∀ n, p_sendto_e (proctab k3 n) = if decide (n = caller) then dst_e else p_sendto_e (proctab k n))) k.
Proof.
  intros HQ. unfold mark_sending, modify_proc. wp_steps.
  set (k1 := if has flgs FROM_KERNEL
    then upd_proc caller (λ p, p <| p_misc_flags ::= set_flag MF_SENDING_FROM_KERNEL |>) (upd_proc caller (λ p, p <| p_sendmsg := m |>) k)
    else upd_proc caller (λ p, p <| p_sendmsg := m |>) k).
  eapply wp_intro with (a := ()) (s' := k1); [subst k1; by case_bool|]. wp_steps.
  assert (∀ n, proctab k1 n = proctab (upd_proc caller (send_saved flgs m) k) n) as Hk1.
  { intros n. subst k1. unfold send_saved. case_bool; rewrite !proctab_upd_proc; case_decide;
      rewrite ?decide_True by done; done. }
  assert (sched_same k k1) as Hs1.
  { etrans; [apply (sched_same_upd_proc k caller (send_saved flgs m))|].
    - intros p. unfold send_saved. by case_bool.
    - split; try (subst k1; by case_bool). intros n. by rewrite Hk1. }
  eapply wp_mono; [by apply (RTS_SET_same k k1 Q caller RTS_SENDING)|].
  intros [] k2 ((Q2 & HS2) & Hf2 & Hr2). wp_steps. split_and!.
  - exists Q2. eapply sched_rel_same; [by apply sched_same_upd_proc|done].
  - transitivity (proc_ptr k1); [|apply Hs1]. by rewrite <-(sched_frame_state proc_ptr _ _ Hf2).
  - intros n. rewrite <-Hr2. by apply rts_upd_same.
  - intros A f n H1 H2. rewrite <-Hk1, <-(sched_frame_field f _ _ n Hf2) by done.
    rewrite proctab_upd_proc. case_decide; subst; auto.
  - intros n. rewrite proctab_upd_proc. case_decide; [done|].
    rewrite (sched_frame_field p_sendto_e _ _ n Hf2), Hk1, proctab_upd_proc by done. by rewrite decide_False.
Qed.

Section send_block.
Context (k : kstate) (Q C : Z → list Z) (HI : ipc_inv k Q C) (caller d dst_e : Z) (m_ptr : msgref) (flgs : Z).
Context (Hok : msg_ok m_ptr flgs) (Hc : valid_slot caller) (Hfree : slot_free k caller = false)
  (Hns : sending k caller = false) (Hnr : receiving k caller = false) (Hd : isokendpt k dst_e = Some d)
  (Hnb : has flgs NON_BLOCKING = false) (Hnw : WILLRECEIVE k d (p_endpoint (proctab k caller)) = false)
  (Hself : caller ≠ d).

(** A pair that [deadlock] lets pass would have met. *)
Lemma send_no_rendezvous l :
  chain (wait_next k) (Some d) (d :: l) None → head l = Some caller → rendezvous k SEND d = false.
Proof using HI Hc Hd Hnw Hself.
  intros Hl Hh. destruct l as [|x l]; simplify_eq/=. destruct Hl as (_ & Hw & _).
  pose proof Hd as (Hdv & _ & _ & Hep)%isokendpt_Some.
  destruct (wait_next_valid _ _ _ HI d caller Hdv Hw) as (H1 & H2 & H3).
  apply isokendpt_Some in H3 as (_ & _ & H3 & _).
  destruct (sending k d) eqn:Hs.
  - unfold rendezvous. change (Z.shiftl SEND 2) with RTS_SENDING.
    apply has_false. unfold sending in Hs. apply Z.bits_inj'. intros i Hi.
    rewrite Z.land_spec, Z.lxor_spec, Z.testbit_0_l. change RTS_SENDING with (2 ^ 2) in *.
    rewrite has_bit in Hs by lia. destruct (decide (i = 2)) as [->|Hne].
    + by rewrite Hs, Z.pow2_bits_true.
    + rewrite (Z.pow2_bits_false 2 i) by lia. apply andb_false_r.
  - exfalso. rewrite WILLRECEIVE_eq, Hs in Hnw. unfold wait_next in Hw.
    rewrite P_BLOCKEDON_eq, Hs in *. destruct (receiving k d) eqn:Hr; [|done].
    simpl in Hnw. rewrite <-H3, Z.eqb_refl, orb_true_r in Hnw. done.
Qed.

Lemma send_block_deadlock :
  ∃ r, deadlock SEND caller dst_e k = Ret (r, k) ∧
    (r ≠ 0 → ∃ l, chain (wait_next k) (Some d) l None ∧ caller ∈ l) ∧
    (r = 0 → ∀ l, chain (wait_next k) (Some d) l None → caller ∉ l).
Proof using HI Hc Hd Hnw Hself.
  destruct (deadlock_spec k Q C HI caller Hc SEND dst_e d Hd) as (r & l & Hr & Hl & H1 & H2).
  exists r. split_and!; [exact Hr| |].
  - intros Hne. exists (d :: l). split; [exact Hl|]. right. auto.
  - intros H0 l' Hl'. rewrite (chain_det _ _ _ _ Hl' Hl). apply not_elem_of_cons. split; [done|].
    destruct (H2 H0) as [?|[Hh Hren]]; [done|]. by rewrite (send_no_rendezvous l) in Hren.
Qed.

(** The invariant once the caller has been put on the queue in [k3]. *)
Lemma send_blocked_inv k3 Q2 m :
  let k4 := write_caller_cell d (cell_after CHead (C d)) (Some caller) k3 in
  (∀ l, chain (wait_next k) (Some d) l None → caller ∉ l) → sched_rel k3 Q2 → proc_ptr k3 = proc_ptr k →
  (∀ n, q_link k3 n = q_link k n ∧ p_caller_q (proctab k3 n) = p_caller_q (proctab k n)) →
  (∀ d, valid_slot d → chain (q_link k3) (p_caller_q (proctab k3 d)) (C d) None) →
  (∀ A (f : proc → A) n, ipc_field f → f (proctab k4 n) = f (proctab (upd_proc caller (send_saved flgs m) k) n)) →
  (∀ n, rts k4 n = rts_after_set caller RTS_SENDING k n) →
  (∀ n, p_sendto_e (proctab k4 n) = if decide (n = caller) then dst_e else p_sendto_e (proctab k n)) →
  ipc_inv k4 Q2 (upd C d (C d ++ [caller])).
Proof using HI Hc Hfree Hns Hnr Hd Hself.
  intros k4 Hacyc HS3 Hptr Hq3 HC3 Hk4 Hr4 Hto4. pose proof Hd as (Hdv & _)%isokendpt_Some.
  assert (caller ∉ C d) as Hnin.
  { rewrite (ii_queued _ _ _ HI) by done. rewrite Hns. naive_solver. }
  apply (blocked_inv k k4 Q Q2 C HI caller d dst_e); auto.
  - apply (sched_rel_same k3); [|done]. apply write_caller_same.
  - unfold k4. by destruct (cell_after CHead (C d)).
  - intros n. rewrite (Hk4 _ p_priority n _), (Hk4 _ p_endpoint n _), (Hk4 _ p_getfrom_e n _).
    rewrite proctab_upd_proc. split_and!; [..|done];
      (case_decide; [subst; unfold send_saved; by case_bool|done]).
  - intros n. unfold delivering. rewrite (Hk4 _ p_misc_flags n _). rewrite proctab_upd_proc.
    case_decide; [subst|done]. unfold send_saved. case_bool; [|done]. by apply has_set_other.
  - intros n Hn. destruct (Hq3 n) as [<- _]. apply write_caller_link. intros x Hx ->.
    apply Hn. rewrite <-(app_nil_r (C d)). by eapply owner_in.
  - intros d' Hd'. unfold upd. apply (write_caller_chain k3 C d _ (Some caller)); auto.
    + intros n Hn1 Hn2. by eapply (callers_disjoint k Q C HI).
    + intros x Hx. rewrite <-(app_nil_r (C d)). by eapply owner_in.
    + apply splice_append; [by apply HC3|done|]. destruct (Hq3 caller) as [-> _]. by apply (ii_link _ _ _ HI).
Qed.

Lemma send_block_spec :
  wp (send_block caller d dst_e m_ptr flgs) (λ r k',
    (r = ELOCKED ∧ k' = k ∧ ∃ l, chain (wait_next k) (Some d) l None ∧ caller ∈ l) ∨
    (r = EFAULT ∧ k' = k ∧ fetched k caller m_ptr = None) ∨
    (∃ m, r = OK ∧ fetched k caller m_ptr = Some m ∧
      (∃ Q', ipc_inv k' Q' (upd C d (C d ++ [caller]))) ∧
      p_sendmsg (proctab k' caller) = m ∧ p_sendto_e (proctab k' caller) = dst_e ∧
      (∀ n, rts k' n = rts_after_set caller RTS_SENDING k n) ∧
      (∀ n, p_delivermsg (proctab k' n) = p_delivermsg (proctab k n)))) k.
Proof using All.
  unfold send_block. rewrite Hnb. wp_steps.
  destruct send_block_deadlock as (r & Hr & Hcyc & Hacyc).
  eapply wp_intro; [exact Hr|]. cbv beta. destruct (Z.eqb_spec r 0) as [Hr0|Hr0]; simpl; [|wp_steps; by eauto].
  wp_steps. apply fetch_msg_wp; [done|]. destruct (fetched k caller m_ptr) as [m|] eqn:Hm; wp_steps; [|by eauto].
  eapply wp_mono; [apply (mark_sending_spec k Q), (ii_base _ _ _ HI)|].
  intros [] k3 ((Q2 & HS2) & Hptr3 & Hr3 & Hk3 & Hto3).
  pose proof Hd as (Hdv & _)%isokendpt_Some.
  assert (∀ n, q_link k3 n = q_link k n ∧ p_caller_q (proctab k3 n) = p_caller_q (proctab k n)) as Hq3.
  { intros n. unfold q_link. rewrite (Hk3 _ p_q_link), (Hk3 _ p_caller_q) by done.
    rewrite !proctab_upd_proc. unfold send_saved. case_decide; [subst|done]. by case_bool. }
  assert (∀ d, valid_slot d → chain (q_link k3) (p_caller_q (proctab k3 d)) (C d) None) as HC3.
  { intros d' Hd'. destruct (Hq3 d') as [_ ->]. eapply chain_ext; [|by apply (ii_callers _ _ _ HI)].
    intros n _. symmetry. apply Hq3. }
  wp_steps. eapply wp_intro.
  { apply append_caller_eq; [|by apply HC3|by apply (callers_length k Q C HI)].
    destruct (Hq3 caller) as [-> _]. by apply (ii_link _ _ _ HI). }
  wp_steps. set (k4 := write_caller_cell d _ (Some caller) k3).
  assert (∀ A (f : proc → A) n, ipc_field f → f (proctab k4 n) = f (proctab (upd_proc caller (send_saved flgs m) k) n)) as Hk4.
  { intros A f n []. rewrite <-Hk3 by done. by apply (write_caller_view f). }
  assert (∀ n, rts k4 n = rts_after_set caller RTS_SENDING k n) as Hr4.
  { intros n. rewrite <-Hr3. unfold rts, k4. by rewrite (write_caller_view p_rts_flags). }
  assert (∀ n, p_sendto_e (proctab k4 n) = if decide (n = caller) then dst_e else p_sendto_e (proctab k n)) as Hto4.
  { intros n. rewrite <-Hto3. by apply (write_caller_view p_sendto_e). }
  right; right. exists m. split_and!; [done..| | | |done|].
  - exists Q2. apply (send_blocked_inv k3 Q2 m); auto.
  - rewrite (Hk4 _ p_sendmsg caller _). rewrite proctab_upd_proc, decide_True by done.
    unfold send_saved. by case_bool.
  - rewrite Hto4. by rewrite decide_True.
  - intros n. rewrite (Hk4 _ p_delivermsg n _). rewrite proctab_upd_proc. case_decide; [subst|done].
    unfold send_saved. by case_bool.
Qed.
End send_block.

(** ** Properties *)



(** C7. Rendezvous: a send to a process that waits for it delivers exactly the caller's
    message, with the caller's own endpoint as its source whatever the caller wrote there;
    the receiver stops waiting, the caller is not blocked, and the invariant (sender queues,
    run queues, absence of wait cycles) is kept.  A message that cannot be read is refused
    with EFAULT and a destination without endpoint with EDEADSRCDST, and nothing changes. *)
Theorem mini_send_rendezvous k Q C caller dst_e d m_ptr flgs :
  ipc_inv k Q C → isokendpt k dst_e = Some d → caller ≠ d → msg_ok m_ptr flgs →
  WILLRECEIVE k d (p_endpoint (proctab k caller)) = true →
  wp (mini_send caller dst_e m_ptr flgs) (λ r k',
    if has (rts k d) RTS_NO_ENDPOINT then r = EDEADSRCDST ∧ k' = k
    else match fetched k caller m_ptr with
    | None => r = EFAULT ∧ k' = k
    | Some m => r = OK ∧ (∃ Q', ipc_inv k' Q' C) ∧
        delivering k' d = true ∧ receiving k' d = false ∧
        p_delivermsg (proctab k' d) = m <| m_source := p_endpoint (proctab k caller) |> ∧
        sending k' caller = sending k caller ∧ receiving k' caller = receiving k caller
    end) k.
Proof.
  intros HI Hd Hne Hok Hw. pose proof Hd as (Hv & _ & _ & Hep)%isokendpt_Some.
  unfold mini_send. wp_steps. rewrite Hep, isset_no_endpoint.
  destruct (has (rts k d) RTS_NO_ENDPOINT); wp_steps; [done|]. rewrite Hw. wp_steps.
  assert (receiving k d = true) as Hr.
  { rewrite WILLRECEIVE_eq in Hw. by apply andb_prop in Hw as [[? _]%andb_prop _]. }
  destruct (fetched k caller m_ptr) as [m|] eqn:Hm.
  2: { eapply wp_intro; [by eapply send_deliver_fault|done]. }
  eapply wp_mono; [by eapply send_deliver_spec|]. intros r k' (-> & HQ & Hf & Hr').
  unfold delivering. rewrite (sched_frame_field p_misc_flags _ _ d Hf), (sched_frame_field p_delivermsg _ _ d Hf) by done.
  rewrite proctab_upd_proc, decide_True by done.
  destruct (send_received_msg (p_endpoint (proctab k caller)) (send_call k caller flgs) flgs m (proctab k d)) as [-> ->].
  split_and!; [done..| |done|by eapply sending_unset_receiving|].
  - rewrite (receiving_unset_receiving k k' d) by done. by rewrite decide_True.
  - rewrite (receiving_unset_receiving k k' d) by done. by rewrite decide_False.
Qed.

Lemma mini_send_rendezvous_witness :
  wp (mini_send 20 0 (KernMsg (mk_message 12345 7 [])) FROM_KERNEL)
    (λ r k', r = OK ∧ p_delivermsg (proctab k' 0) = mk_message 20 7 []) ipc_demo.
Proof.
  eapply wp_mono.
  - by apply (mini_send_rendezvous ipc_demo _ _ 20 0 0 (KernMsg (mk_message 12345 7 [])) FROM_KERNEL ipc_demo_inv).
  - intros r k' (-> & _ & _ & _ & -> & _). done.
Defined.



(** [deadlock] does not end when it reaches a process that waits for itself: [mini_receive]
    lets a process receive from its own endpoint, and after that, for every bound on the number
    of steps, the walk started by another process runs past it. *)
Theorem deadlock_self_receive_diverges k f cp e a fuel g :
  isokendpt k e = Some a → slot_free k a = false → e ≠ NONE → e ≠ ANY →
  sending k a = false → receiving k a = true → p_getfrom_e (proctab k a) = e →
  p_endpoint (proctab k cp) ≠ e →
  deadlock_loop fuel f cp e g k = Panic "deadlock: does not end".
Proof.
  intros Hok Hfree Hn Ha Hs Hr Hg Hcp. revert g. induction fuel as [|fuel IH]; intros g; [done|]. simpl.
  rewrite (proj2 (Z.eqb_neq _ _) Ha). unfold okendpt, isokendpt_f, gets, assert_, mbind, M_bind.
  rewrite Hok. simpl. rewrite isset_slot_free, Hfree. simpl.
  rewrite P_BLOCKEDON_eq, Hs, Hr, Hg, (proj2 (Z.eqb_neq _ _) Hn), (proj2 (Z.eqb_neq _ _) (not_eq_sym Hcp)).
  apply IH.
Qed.

Lemma deadlock_self_receive_diverges_witness :
  let k := upd_proc 20 (λ p, p <| p_rts_flags := RTS_RECEIVING |> <| p_getfrom_e := 20 |>) ipc_demo in
  deadlock_loop 1000 RECEIVE 0 20 1 k = Panic "deadlock: does not end".
Proof. by apply (deadlock_self_receive_diverges _ RECEIVE 0 20 20). Defined.
