(* ===== verification/IpcRecv.v ===== *)
(** * Receiving: what [mini_receive] of Ipc guarantees

    The order in which messages are taken (notifications, asynchronous messages, the queue of
    senders from its front), the invariant, and blocking. *)
From S2P Require Import Prelude LinkedList Kernel Endpoint Sched IpcInv Notify Async Ipc.

(** ** Taking a sender off a queue *)

Section unblocked.
Context (k k' : kstate) (Q Q' C : Z → list Z) (HI : ipc_inv k Q C) (HB : ipc_base k' Q').
Context (d sender : Z) (L : list Z) (Hd : valid_slot d).
Context (HL : ∀ n, n ∈ L ↔ n ∈ C d ∧ n ≠ sender) (Hin : sender ∈ C d).
Context (Hsend : ∀ n, sending k' n = if decide (n = sender) then false else sending k n)
  (Hfree : ∀ n, slot_free k' n = slot_free k n) (Hrecv : ∀ n, receiving k' n = true → receiving k n = true)
  (Hview : ∀ n, p_endpoint (proctab k' n) = p_endpoint (proctab k n) ∧
     p_getfrom_e (proctab k' n) = p_getfrom_e (proctab k n) ∧
     p_sendto_e (proctab k' n) = p_sendto_e (proctab k n))
  (Hlink : ∀ n, valid_slot n → sending k' n = false → q_link k' n = None)
  (Hchain : ∀ d', valid_slot d' → chain (q_link k') (p_caller_q (proctab k' d')) (upd C d L d') None).

Lemma unblocked_isok e p : isokendpt k e = Some p → isokendpt k' e = Some p.
Proof using HI Hfree Hview.
  intros He. eapply isokendpt_stable; [| |done].
  - intros n. apply Hview.
  - intros _. apply isemptyp_free. rewrite Hfree. by eapply (isokendpt_not_free _ _ (ii_base _ _ _ HI)).
Qed.

Lemma unblocked_inv : ipc_inv k' Q' (upd C d L).
Proof using All.
  split; [done|done| |done| | | |].
  - intros d' n Hd'. rewrite Hsend. destruct (Hview n) as (_ & _ & ->).
    pose proof (ii_queued _ _ _ HI d' n Hd') as Hq. unfold upd. destruct (decide (n = sender)) as [->|Hn].
    + case_decide as Hdd; [rewrite HL; naive_solver|]. rewrite Hq.
      apply (ii_queued _ _ _ HI d sender Hd) in Hin as (_ & _ & Hs). naive_solver.
    + case_decide as Hdd; [subst|done]. rewrite HL, Hq. naive_solver.
  - intros n Hn. rewrite Hsend. destruct (Hview n) as (_ & _ & ->). case_decide as Hcd; [done|].
    intros H. by apply unblocked_isok, (ii_sendto _ _ _ HI).
  - intros n Hn H%Hrecv. destruct (Hview n) as (_ & -> & _).
    destruct (ii_getfrom _ _ _ HI n Hn H); [by left|right; by apply unblocked_isok].
  - intros n Hn. rewrite Hsend. destruct (Hview n) as (_ & -> & ->). case_decide as Hcd; [done|].
    intros H1 H2%Hrecv. by apply (ii_sendrec _ _ _ HI).
  - apply (no_deadlock_shrink k); [|apply HI]. intros n. unfold wait_next.
    rewrite !P_BLOCKEDON_eq, Hsend. destruct (Hview n) as (_ & -> & ->).
    destruct (decide (n = sender)) as [->|Hn].
    + apply (ii_queued _ _ _ HI d sender Hd) in Hin as (Hv & Hs & _). rewrite Hs.
      destruct (receiving k' sender) eqn:E; [|by right]. left.
      by rewrite (ii_sendrec _ _ _ HI sender Hv Hs (Hrecv _ E)).
    + destruct (sending k n); [by left|]. destruct (receiving k' n) eqn:E; [|by right].
      apply Hrecv in E as ->. by left.
Qed.
End unblocked.

(** ** [receive_from] *)

(** Signal delivery for a sender that was stopped with a delay is set up properly. *)
Definition delay_ok (k : kstate) (n : Z) : Prop :=
  has (p_misc_flags (proctab k n)) MF_SIG_DELAY = true →
  h_unstable_state (kh k) ≠ H_UNSTABLE ∧ ∃ m, managed k n m.

(** A step that keeps the message buffers; one that keeps privileges and delayed signals. *)
Definition mail_eq (k k' : kstate) : Prop := ∀ n, mailview (proctab k' n) = mailview (proctab k n).
Lemma mail_eq_trans k1 k2 k3 : mail_eq k1 k2 → mail_eq k2 k3 → mail_eq k1 k3.
Proof. intros H1 H2 n. by rewrite H2. Qed.
Lemma mail_eq_frame k k' : sched_frame k k' → mail_eq k k'.
Proof. intros Hf n. by apply (sched_frame_field mailview _ _ n Hf). Qed.
Lemma mail_eq_upd_proc k n f : (∀ p, mailview (f p) = mailview p) → mail_eq k (upd_proc n f k).
Proof. intros Hf m. rewrite proctab_upd_proc. case_decide; subst; auto. Qed.

Definition keepview (p : proc) : option Z * Z * bool * message :=
  (p_priv p, p_endpoint p, has (p_misc_flags p) MF_SIG_DELAY, p_sendmsg p).
Definition sigview (s : priv) : Z * Z := (s_sig_mgr s, s_id s).
Record keeps (k k' : kstate) : Prop := {
  kp_privtab : ∀ i, sigview (privtab k' i) = sigview (privtab k i);
  kp_kh : kh k' = kh k;
  kp_view : ∀ n, keepview (proctab k' n) = keepview (proctab k n);
}.
Lemma keeps_trans k1 k2 k3 : keeps k1 k2 → keeps k2 k3 → keeps k1 k3.
Proof. intros [] []. split; intros; etrans; eauto. Qed.
Lemma keeps_frame k k' : sched_frame k k' → keeps k k'.
Proof.
  intros Hf. split; [by rewrite (sched_frame_state privtab _ _ Hf)|by apply (sched_frame_state kh _ _ Hf)|].
  intros n. by apply (sched_frame_field keepview _ _ n Hf).
Qed.
Lemma keeps_upd_proc k n f : (∀ p, keepview (f p) = keepview p) → keeps k (upd_proc n f k).
Proof. intros Hf. split; [done..|]. intros m. rewrite proctab_upd_proc. case_decide; subst; auto. Qed.

Lemma keeps_upd_priv k i f : (∀ s, sigview (f s) = sigview s) → keeps k (upd_priv i f k).
Proof. intros Hf. split; [|done..]. intros j. rewrite privtab_upd_priv. case_decide; subst; auto. Qed.

Lemma delay_ok_keeps k k' Q n :
  ipc_base k Q → keeps k k' → (∀ m, slot_free k' m = slot_free k m) → delay_ok k n → delay_ok k' n.
Proof.
  intros HB [Hpt Hkh Hv] Hfree Hok.
  assert (∀ m, p_priv (proctab k' m) = p_priv (proctab k m) ∧ p_endpoint (proctab k' m) = p_endpoint (proctab k m) ∧
    has (p_misc_flags (proctab k' m)) MF_SIG_DELAY = has (p_misc_flags (proctab k m)) MF_SIG_DELAY) as Hf.
  { intros m. pose proof (Hv m) as E. unfold keepview in E. by simplify_eq. }
  assert (∀ m, s_sig_mgr (priv_of k' m) = s_sig_mgr (priv_of k m) ∧ s_id (priv_of k' m) = s_id (priv_of k m)) as Hpo.
  { intros m. unfold priv_of, priv_id. destruct (Hf m) as (-> & _). pose proof (Hpt (default IDLE_PRIV (p_priv (proctab k m)))) as E.
    unfold sigview in E. by simplify_eq. }
  unfold delay_ok. destruct (Hf n) as (_ & _ & ->). rewrite Hkh. intros H. destruct (Hok H) as (Hst & m & H1 & H2 & H3 & (i & H4) & H5).
  split; [done|]. exists m. unfold managed. destruct (Hpo n) as [-> _], (Hpo SYSTEM) as [_ ->]. destruct (Hf n) as (_ & -> & _), (Hf m) as (-> & _ & _).
  split_and!; [done..| |by eexists|done].
  eapply isokendpt_stable; [apply Hf| |done]. intros _. apply isemptyp_free. rewrite Hfree.
  by eapply isokendpt_not_free.
Qed.

Lemma base_step_IPC_STATUS k Q n m :
  ipc_base k Q → base_step k (upd_proc n (IPC_STATUS_ADD m) k) ∧ ipc_base (upd_proc n (IPC_STATUS_ADD m) k) Q.
Proof.
  intros HB. apply base_step_upd_proc; [..|done].
  - intros p. by apply (IPC_STATUS_ADD_view ipcview).
  - intros p. by apply (IPC_STATUS_ADD_view sview).
  - intros _. by rewrite (IPC_STATUS_ADD_view p_misc_flags).
Qed.

Lemma receive_status_spec k Q caller sender :
  ipc_base k Q →
  wp (receive_status caller sender) (λ _ k', base_step k k' ∧ mail_eq k k' ∧ keeps k k' ∧ ∀ n, rts k' n = rts k n) k.
Proof.
  intros HB. unfold receive_status, modify_proc, IPC_STATUS_ADD_CALL, IPC_STATUS_ADD_FLAGS. wp_steps.
  assert (∀ k n m, mail_eq k (upd_proc n (IPC_STATUS_ADD m) k) ∧ keeps k (upd_proc n (IPC_STATUS_ADD m) k) ∧
    ∀ x, rts (upd_proc n (IPC_STATUS_ADD m) k) x = rts k x) as Hstat.
  { intros k' n m. split_and!; [apply mail_eq_upd_proc|apply keeps_upd_proc|intros x; apply rts_upd_same];
      intros p; [by apply (IPC_STATUS_ADD_view mailview)|by apply (IPC_STATUS_ADD_view keepview)|by apply (IPC_STATUS_ADD_view p_rts_flags)]. }
  set (m := IPC_STATUS_CALL_TO _).
  destruct (base_step_IPC_STATUS k Q caller m HB) as [Hst1 HB1]. destruct (Hstat k caller m) as (Hm1 & Hk1 & Hr1).
  set (k1 := upd_proc caller (IPC_STATUS_ADD m) k) in *.
  destruct (has _ MF_SENDING_FROM_KERNEL); wp_steps; [|done].
  set (m2 := IPC_STATUS_FLAGS _).
  destruct (base_step_IPC_STATUS k1 Q caller m2 HB1) as [Hst2 HB2]. destruct (Hstat k1 caller m2) as (Hm2 & Hk2 & Hr2).
  set (k2 := upd_proc caller (IPC_STATUS_ADD m2) k1) in *.
  destruct (base_step_upd_proc k2 Q sender (λ p, p <| p_misc_flags ::= clear_flag MF_SENDING_FROM_KERNEL |>))
    as [Hst3 HB3]; [done..| |done|].
  { intros _. by apply has_clear_other. }
  split_and!.
  - eapply base_step_trans; [done|]. by eapply base_step_trans.
  - eapply mail_eq_trans; [done|]. eapply mail_eq_trans; [done|]. apply mail_eq_upd_proc. intros p.
    unfold mailview. simpl. by rewrite has_clear_other.
  - eapply keeps_trans; [done|]. eapply keeps_trans; [done|]. apply keeps_upd_proc. intros p.
    unfold keepview. simpl. by rewrite has_clear_other.
  - intros n. rewrite rts_upd_same by done. by rewrite Hr2.
Qed.

(** Editing links keeps the base invariant. *)
Lemma base_links k Q n f :
  (∀ p, sview (f p) = sview p) → (∀ p, p_endpoint (f p) = p_endpoint p) →
  (∀ p, p_misc_flags (f p) = p_misc_flags p) → ipc_base k Q → ipc_base (upd_proc n f k) Q.
Proof.
  intros Hs He Hm HB. assert (sched_same k (upd_proc n f k)) as Hsame by by apply sched_same_upd_proc.
  pose proof (rts_same _ _ Hsame) as Hr.
  split.
  - eapply sched_rel_same; [done|apply HB].
  - intros m Hv. rewrite (priority_same k _ Hsame). by apply (ib_prio _ _ HB).
  - intros m Hv. rewrite proctab_upd_proc. case_decide; [subst; rewrite He|]; by apply (ib_endpt _ _ HB).
  - intros m Hv. unfold receiving, delivering. rewrite Hr, proctab_upd_proc. intros H.
    pose proof (ib_deliver _ _ HB m Hv H) as Hd. case_decide; [subst; by rewrite Hm|done].
  - intros m Hv. unfold slot_free. rewrite Hr. by apply (ib_free _ _ HB).
  - unfold slot_free. rewrite Hr. apply HB.
Qed.
Lemma base_write_caller k Q d c v : ipc_base k Q → ipc_base (write_caller_cell d c v k) Q.
Proof. destruct c; by apply base_links. Qed.

(** Unlinking a sender whose flags have been cleared. *)
Definition unlink_caller (d sender : Z) (c : cell Z) (k : kstate) : kstate :=
  upd_proc sender (λ p, p <| p_q_link := None |>) (write_caller_cell d c (q_link k sender) k).

Lemma unlink_view {A} (f : proc → A) d sender c k n :
  (∀ p x, f (p <| p_caller_q := x |>) = f p) → (∀ p x, f (p <| p_q_link := x |>) = f p) →
  f (proctab (unlink_caller d sender c k) n) = f (proctab k n).
Proof.
  intros H1 H2. unfold unlink_caller. rewrite proctab_upd_proc.
  case_decide; [subst; rewrite H2|]; by apply (write_caller_view f).
Qed.

Section unlink.
Context (k4 : kstate) (Q4 C : Z → list Z) (HB : ipc_base k4 Q4).
Context (HC : ∀ d, valid_slot d → chain (q_link k4) (p_caller_q (proctab k4 d)) (C d) None)
  (Hdis : ∀ d1 d2 n, valid_slot d1 → valid_slot d2 → n ∈ C d1 → n ∈ C d2 → d1 = d2).
Context (d sender : Z) (l1 l2 : list Z) (Hd : valid_slot d) (HCd : C d = l1 ++ sender :: l2).
Let c := cell_after CHead l1.
Let k' := unlink_caller d sender c k4.

Lemma unlink_base : ipc_base k' Q4.
Proof using HB. apply base_links; [done..|]. by apply base_write_caller. Qed.

Lemma unlink_members n : n ∈ l1 ++ l2 ↔ n ∈ C d ∧ n ≠ sender.
Proof using HC HCd Hd.
  pose proof (chain_NoDup _ _ _ (HC d Hd)) as Hnd. rewrite HCd in *.
  rewrite <-(filter_ne_split l1 l2 sender Hnd), list_elem_of_filter. naive_solver.
Qed.

Lemma unlink_chain d' :
  valid_slot d' → chain (q_link k') (p_caller_q (proctab k' d')) (upd C d (l1 ++ l2) d') None.
Proof using HB HC HCd Hd Hdis.
  intros Hd'. unfold k', unlink_caller. set (k5 := write_caller_cell _ _ _ _).
  assert (p_caller_q (proctab (upd_proc sender (λ p, p <| p_q_link := None |>) k5) d') = p_caller_q (proctab k5 d')) as ->.
  { rewrite proctab_upd_proc. case_decide; by subst. }
  apply (chain_table p_q_link). apply chain_frame.
  - intros Hin. unfold upd in Hin. case_decide as Hdd.
    + by apply unlink_members in Hin as [_ ?].
    + apply Hdd. eapply (Hdis d' d sender); [done..|]. rewrite HCd. set_solver.
  - unfold upd. apply write_caller_chain; auto.
    + intros n Hn1 Hn2. by eapply Hdis.
    + intros x Hx. rewrite HCd. by eapply owner_in.
    + apply splice_remove. rewrite <-HCd. by apply HC.
Qed.

Lemma unlink_link n : n ∉ C d → q_link k' n = q_link k4 n.
Proof using HB HC HCd Hd Hdis.
  intros Hn. unfold k', unlink_caller, q_link. rewrite proctab_upd_proc.
  case_decide as Hns; [subst n; exfalso; apply Hn; rewrite HCd; set_solver|].
  apply write_caller_link. intros x Hx ->. apply Hn. rewrite HCd. by eapply owner_in.
Qed.
Lemma unlink_sender : q_link k' sender = None.
Proof. unfold k', unlink_caller, q_link. by rewrite proctab_upd_proc, decide_True. Qed.
End unlink.

(** The delayed signal, when there is one. *)
Lemma receive_delay_spec k Q sender :
  ipc_base k Q → valid_slot sender → slot_free k sender = false → delay_ok k sender →
  wp (receive_delay sender) (λ _ k', base_step k k' ∧ mail_same k k') k.
Proof.
  intros HB Hv Hfree Hok. unfold receive_delay. wp_steps.
  destruct (has _ MF_SIG_DELAY) eqn:Hd; wp_steps; [|by repeat split; eauto].
  unfold sig_delay_done, modify_proc. wp_steps.
  destruct (base_step_upd_proc k Q sender (λ p, p <| p_misc_flags ::= clear_flag MF_SIG_DELAY |>))
    as [Hst1 HB1]; [done..| |done|].
  { intros _. by apply has_clear_other. }
  set (k1 := upd_proc sender _ k) in *.
  assert (mail_same k k1) as Hmail1.
  { intros n _. apply mail_eq_upd_proc. intros p. unfold mailview. simpl. by rewrite has_clear_other. }
  destruct (Hok Hd) as (Hst & m & H1 & H2 & H3 & (i & H4) & H5).
  eapply wp_mono; [apply (cause_sig_ordinary k1 Q HB1 sender SIGSNDELAY m)|].
  - done.
  - by rewrite (ip_free _ _ (proj2 Hst1)).
  - done.
  - assert (∀ n, p_priv (proctab k1 n) = p_priv (proctab k n)) as Hp.
    { intros n. subst k1. rewrite proctab_upd_proc. case_decide; by subst. }
    assert (∀ n, priv_of k1 n = priv_of k n) as Hpo by (intros n; unfold priv_of, priv_id; by rewrite Hp).
    unfold managed. rewrite !Hpo, (pres_endpoint _ _ (proj2 Hst1)), Hp.
    split_and!; [done..| |by eexists|done]. by apply (isokendpt_pres k Q HB); [apply Hst1|].
  - done.
  - intros [] k2 (Hst2 & Hmail2 & _). split; [by eapply base_step_trans|].
    eapply mail_same_trans; [apply Hst1|done..].
Qed.

(** The end of [receive_from]: in [k4] the sender is unblocked but still linked. *)
Lemma receive_unlinked k k4 Q Q4 C (HI : ipc_inv k Q C) caller sender l1 l2 mail :
  valid_slot caller → receiving k caller = false → sending k caller = false →
  C caller = l1 ++ sender :: l2 → ipc_base k4 Q4 →
  (∀ n, ipcview (proctab k4 n) = ipcview (proctab k n)) →
  (∀ n, sending k4 n = if decide (n = sender) then false else sending k n) →
  (∀ n, slot_free k4 n = slot_free k n) → (∀ n, receiving k4 n = true → receiving k n = true) →
  mailview (proctab k4 caller) = mail →
  let k' := unlink_caller caller sender (cell_after CHead l1) k4 in
  (∃ Q', ipc_inv k' Q' (upd C caller (l1 ++ l2))) ∧ mailview (proctab k' caller) = mail ∧
  sending k' sender = false ∧ sending k' caller = false ∧ receiving k' caller = false.
Proof.
  intros Hv Hnr Hns HCd HB4 Hv4 Hs4 Hf4 Hr4 Hm4 k'.
  assert (∀ n, p_caller_q (proctab k4 n) = p_caller_q (proctab k n) ∧ q_link k4 n = q_link k n ∧
    p_endpoint (proctab k4 n) = p_endpoint (proctab k n) ∧ p_getfrom_e (proctab k4 n) = p_getfrom_e (proctab k n) ∧
    p_sendto_e (proctab k4 n) = p_sendto_e (proctab k n)) as Hf.
  { intros n. pose proof (Hv4 n) as E. unfold ipcview in E. by simplify_eq. }
  assert (∀ d, valid_slot d → chain (q_link k4) (p_caller_q (proctab k4 d)) (C d) None) as HC4.
  { intros d Hd. destruct (Hf d) as [-> _]. eapply chain_ext; [|by apply (ii_callers _ _ _ HI)].
    intros n _. symmetry. apply Hf. }
  assert (∀ n, rts k' n = rts k4 n) as Hrts by (intros n; by apply (unlink_view p_rts_flags)).
  assert (sender ∈ C caller) as Hin by (rewrite HCd; set_solver).
  assert (sending k' sender = false ∧ sending k' caller = false) as [Hss Hsc].
  { unfold sending. rewrite !Hrts. fold (sending k4 sender) (sending k4 caller). rewrite !Hs4.
    rewrite decide_True by done. split; [done|]. by case_decide. }
  split_and!; [|subst mail; by apply (unlink_view mailview)|done..|].
  - exists Q4. apply (unblocked_inv k k' Q Q4 C HI) with (sender := sender); auto.
    + by apply unlink_base.
    + intros n. by apply (unlink_members k4 C HC4).
    + intros n. rewrite <-Hs4. unfold sending. by rewrite Hrts.
    + intros n. rewrite <-Hf4. unfold slot_free. by rewrite Hrts.
    + intros n. unfold receiving. rewrite Hrts. apply Hr4.
    + intros n. unfold k'. rewrite (unlink_view p_endpoint), (unlink_view p_getfrom_e), (unlink_view p_sendto_e) by done.
      split_and!; apply Hf.
    + intros n Hn Hsn. destruct (decide (n = sender)) as [->|Hne]; [apply unlink_sender|].
      assert (sending k n = false) as Hsn'.
      { unfold sending in Hsn. rewrite Hrts in Hsn. fold (sending k4 n) in Hsn. rewrite Hs4 in Hsn. by rewrite decide_False in Hsn. }
      unfold k'. rewrite (unlink_link k4 Q4 C HB4 HC4) with (l2 := l2); auto.
      * destruct (Hf n) as (_ & -> & _). by apply (ii_link _ _ _ HI).
      * intros d1 d2 x. by apply (callers_disjoint k Q C HI).
      * rewrite (ii_queued _ _ _ HI) by done. rewrite Hsn'. naive_solver.
    + intros d' Hd'. apply (unlink_chain k4 Q4 C HB4 HC4); auto. intros d1 d2 x. by apply (callers_disjoint k Q C HI).
  - unfold receiving. rewrite Hrts. destruct (has (rts k4 caller) RTS_RECEIVING) eqn:E; [|done].
    apply Hr4 in E. congruence.
Qed.

Lemma receive_from_spec k Q C caller sender l1 l2 :
  ipc_inv k Q C → valid_slot caller → receiving k caller = false → sending k caller = false →
  delivering k caller = false → C caller = l1 ++ sender :: l2 →
  has (rts k sender) RTS_NO_ENDPOINT = false → delay_ok k sender →
  wp (receive_from caller sender (cell_after CHead l1)) (λ _ k',
    (∃ Q', ipc_inv k' Q' (upd C caller (l1 ++ l2))) ∧
    mailview (proctab k' caller) = (p_sendmsg (proctab k sender) <| m_source := p_endpoint (proctab k sender) |>, true) ∧
    sending k' sender = false ∧ sending k' caller = false ∧ receiving k' caller = false) k.
Proof.
  intros HI Hv Hnr Hns Hnd HCd Hne Hdelay. pose proof (ii_base _ _ _ HI) as HB.
  assert (sender ∈ C caller) as Hin by (rewrite HCd; set_solver).
  pose proof (proj1 (ii_queued _ _ _ HI caller sender Hv) Hin) as (Hvs & Hss & Hto).
  pose proof (sending_not_free _ _ HB _ Hvs Hss) as Hfree.
  assert (sender ≠ caller) as Hsc by congruence.
  unfold receive_from. wp_steps. apply wp_assert; [by rewrite isset_slot_free, Hfree|].
  wp_steps. apply wp_assert; [by rewrite isset_no_endpoint, Hne|].
  wp_steps. apply wp_assert; [by rewrite Hnd|]. unfold put_delivermsg, modify_proc. wp_steps.
  set (g := λ p : proc, p <| p_delivermsg := p_sendmsg (proctab k sender) <| m_source := p_endpoint (proctab k sender) |> |>
     <| p_misc_flags ::= set_flag MF_DELIVERMSG |>).
  destruct (base_step_upd_proc k Q caller g) as [Hst1 HB1]; [done..|congruence|done|].
  set (k1 := upd_proc caller g k) in *.
  assert (keeps k k1) as Hkp1.
  { apply keeps_upd_proc. intros p. unfold keepview. simpl. by rewrite has_set_other. }
  assert (mailview (proctab k1 caller) =
    (p_sendmsg (proctab k sender) <| m_source := p_endpoint (proctab k sender) |>, true)) as Hmail1.
  { subst k1. rewrite proctab_upd_proc, decide_True by done. unfold mailview. simpl. by rewrite has_set_self. }
  assert (∀ n, rts k1 n = rts k n) as Hr1 by (intros n; by apply rts_upd_same).
  eapply wp_mono; [apply (base_RTS_UNSET_any k1 Q sender RTS_SENDING HB1); [done| |done]|].
  { by rewrite (ip_free _ _ (proj2 Hst1)). }
  intros [] k2 ((Q2 & HB2) & Hf2 & Hr2). wp_steps.
  eapply wp_mono; [by apply (receive_status_spec k2 Q2)|]. intros [] k3 ([[Q3 HB3] HP3] & Hm3 & Hk3 & Hr3).
  assert (∀ n, slot_free k3 n = slot_free k n) as Hfree3.
  { intros n. rewrite (ip_free _ _ HP3). unfold slot_free. by rewrite Hr2, has_rts_unset_other, Hr1. }
  wp_steps. eapply wp_mono; [apply (receive_delay_spec k3 Q3 sender HB3 Hvs)|].
  { by rewrite Hfree3. }
  { eapply (delay_ok_keeps k k3 Q); [done|exact (keeps_trans _ _ _ Hkp1 (keeps_trans _ _ _ (keeps_frame _ _ Hf2) Hk3))|done..]. }
  intros [] k4 ([[Q4 HB4] HP4] & Hm4). wp_steps.
  change (upd_proc sender _ (write_caller_cell caller (cell_after CHead l1) (q_link k4 sender) k4))
    with (unlink_caller caller sender (cell_after CHead l1) k4).
  pose proof (ipc_pres_trans _ _ _ HP3 HP4) as HP24.
  assert (∀ n, ipcview (proctab k4 n) = ipcview (proctab k n)) as Hv4.
  { intros n. rewrite (ip_view _ _ HP24), (ipcview_frame _ _ n Hf2). apply Hst1. }
  apply (receive_unlinked k k4 Q Q4 C HI caller sender l1 l2); auto.
  - intros n. rewrite (ip_sending _ _ HP24). unfold sending. rewrite Hr2, has_rts_unset by done.
    unfold rts_after_unset. rewrite !Hr1. case_decide; [apply has_clear_self|done].
  - intros n. by rewrite (ip_free _ _ HP4).
  - intros n Hn%(ip_recv _ _ HP24). unfold receiving in Hn. by rewrite Hr2, has_rts_unset_other, Hr1 in Hn.
  - assert (receiving k3 caller = false) as Hr3c.
    { unfold receiving. by rewrite Hr3, Hr2, has_rts_unset_other, Hr1. }
    by rewrite (Hm4 _ Hr3c), Hm3, (mail_eq_frame _ _ Hf2).
Qed.

(** ** The queue of senders is served from its front *)

Definition acceptable (src_e src_p n : Z) : bool := (src_e =? ANY) || (src_p =? n).

(** What a process got from the queue of senders. *)
Definition took_from_queue (k k' : kstate) (C : Z → list Z) (caller src_e src_p : Z) : Prop :=
  ∃ l1 sender l2, C caller = l1 ++ sender :: l2 ∧ Forall (λ n, acceptable src_e src_p n = false) l1 ∧
    acceptable src_e src_p sender = true ∧ (∃ Q', ipc_inv k' Q' (upd C caller (l1 ++ l2))) ∧
    mailview (proctab k' caller) = (p_sendmsg (proctab k sender) <| m_source := p_endpoint (proctab k sender) |>, true) ∧
    sending k' sender = false ∧ sending k' caller = false ∧ receiving k' caller = false.

Section receive.
Context (k : kstate) (Q C : Z → list Z) (HI : ipc_inv k Q C) (caller : Z).
Context (Hv : valid_slot caller) (Hnr : receiving k caller = false) (Hnd : delivering k caller = false).
(** The queued senders are live processes with their signal set-up in order. *)
Context (Hlive : ∀ n, n ∈ C caller → has (rts k n) RTS_NO_ENDPOINT = false ∧ delay_ok k n).

Lemma receive_queued_spec src_e src_p :
  sending k caller = false →
  wp (receive_queued caller src_e src_p) (λ got k',
    if got then took_from_queue k k' C caller src_e src_p
    else k' = k ∧ Forall (λ n, acceptable src_e src_p n = false) (C caller)) k.
Proof using HI Hv Hnr Hnd Hlive.
  intros Hns. unfold receive_queued. wp_steps.
  pose proof (ii_callers _ _ _ HI caller Hv) as Hc.
  pose proof (callers_length k Q C HI caller Hv) as Hlen.
  destruct (pp_find_spec BLOCKED_FUEL (q_link k) (p_caller_q (proctab k caller)) (acceptable src_e src_p) CHead _ Hc Hlen)
    as (l1 & l2 & HCd & Hf & Hrd & Hall & Hend). unfold acceptable in Hf. rewrite Hf. wp_steps. rewrite Hrd.
  destruct l2 as [|sender l2]; simpl; wp_steps.
  - rewrite app_nil_r in HCd. by rewrite HCd.
  - destruct (Hlive sender) as [Hne Hdel]; [rewrite HCd; set_solver|].
    eapply wp_mono; [by apply (receive_from_spec k Q C caller sender l1 l2)|].
    intros [] k' Hpost. wp_steps. by exists l1, sender, l2.
Qed.
End receive.

(** ** Blocking a receiver *)

Section recv_blocked.
Context (k k' : kstate) (Q Q' C : Z → list Z) (HI : ipc_inv k Q C) (caller src_e : Z).
Context (Hc : valid_slot caller) (Hfree : slot_free k caller = false) (Hnr : receiving k caller = false)
  (Hnd : delivering k caller = false).
Context (Hsrc : src_e = ANY ∨ ∃ s, isokendpt k src_e = Some s ∧
  (sending k caller = false → ∀ l, chain (wait_next k) (Some s) l None → caller ∉ l)).
Context (Hsr : sending k caller = true → src_e = p_sendto_e (proctab k caller)).
Context (HS : sched_rel k' Q') (Hptr : proc_ptr k' = proc_ptr k)
  (Hrts : ∀ n, rts k' n = rts_after_set caller RTS_RECEIVING k n)
  (Hview : ∀ n, p_priority (proctab k' n) = p_priority (proctab k n) ∧
     p_endpoint (proctab k' n) = p_endpoint (proctab k n) ∧
     p_sendto_e (proctab k' n) = p_sendto_e (proctab k n) ∧ q_link k' n = q_link k n ∧
     p_caller_q (proctab k' n) = p_caller_q (proctab k n) ∧
     p_getfrom_e (proctab k' n) = (if decide (n = caller) then src_e else p_getfrom_e (proctab k n)) ∧
     delivering k' n = delivering k n).

Lemma recv_sending n : sending k' n = sending k n.
Proof using Hrts. unfold sending. rewrite Hrts. by apply has_rts_set_other. Qed.
Lemma recv_receiving n : receiving k' n = if decide (n = caller) then true else receiving k n.
Proof using Hrts.
  unfold receiving. rewrite Hrts. unfold rts_after_set. case_decide; [|done]. by apply has_set_self.
Qed.
Lemma recv_free n : slot_free k' n = slot_free k n.
Proof using Hrts. unfold slot_free. rewrite Hrts. by apply has_rts_set_other. Qed.
Lemma recv_isok e p : isokendpt k e = Some p → isokendpt k' e = Some p.
Proof using HI Hrts Hview.
  intros He. eapply isokendpt_stable; [| |done].
  - intros n. apply Hview.
  - intros _. apply isemptyp_free. rewrite recv_free. by eapply (isokendpt_not_free _ _ (ii_base _ _ _ HI)).
Qed.

Lemma recv_base : ipc_base k' Q'.
Proof using HI Hfree Hnr Hnd HS Hptr Hrts Hview.
  pose proof (ii_base _ _ _ HI) as HB. split.
  - done.
  - intros n Hn. destruct (Hview n) as [-> _]. by apply (ib_prio _ _ HB).
  - intros n Hn. destruct (Hview n) as (_ & -> & _). by apply (ib_endpt _ _ HB).
  - intros n Hn. rewrite recv_receiving. destruct (Hview n) as (_ & _ & _ & _ & _ & _ & ->).
    case_decide as Hcd; [by subst|by apply (ib_deliver _ _ HB)].
  - intros n Hn. rewrite recv_free, Hrts. unfold rts_after_set. intros H.
    rewrite decide_False; [by apply (ib_free _ _ HB)|]. intros ->. congruence.
  - rewrite Hptr, recv_free. apply HB.
Qed.

Lemma recv_waits : no_deadlock k'.
Proof using HI Hc Hnr Hsrc Hsr Hrts Hview.
  assert (∀ n, n ≠ caller ∨ sending k caller = true → wait_next k' n = wait_next k n) as Hsame.
  { intros n Hn. unfold wait_next. rewrite !P_BLOCKEDON_eq, recv_sending, recv_receiving.
    destruct (Hview n) as (_ & _ & -> & _ & _ & -> & _). destruct (sending k n) eqn:E; [done|].
    rewrite !decide_False; [done|..]; intros ->; destruct Hn; congruence. }
  destruct (sending k caller) eqn:Hs.
  { apply (no_deadlock_shrink k); [|apply HI]. intros n. left. apply Hsame. by right. }
  assert (wait_next k' caller = if (src_e =? NONE) || (src_e =? ANY) then None else Some (ENDPOINT_P src_e)) as Hw'.
  { unfold wait_next. rewrite P_BLOCKEDON_eq, recv_sending, recv_receiving, Hs, decide_True by done.
    destruct (Hview caller) as (_ & _ & _ & _ & _ & -> & _). by rewrite decide_True. }
  destruct Hsrc as [->|(s & Hok & Hnin)].
  - apply (no_deadlock_shrink k); [|apply HI]. intros n. destruct (decide (n = caller)) as [->|Hn].
    + right. by rewrite Hw'.
    + left. apply Hsame. by left.
  - pose proof Hok as (Hsv & _ & _ & Hep)%isokendpt_Some. destruct (ii_waits _ _ _ HI s Hsv) as [l Hl].
    intros n Hn. destruct (ii_waits _ _ _ HI n Hn) as [ln Hln].
    destruct (wait_next k caller) eqn:Hw.
    { exfalso. unfold wait_next in Hw. rewrite P_BLOCKEDON_eq, Hs in Hw.
      destruct (receiving k caller) eqn:Hr; [|done]. by rewrite Hnr in Hr. }
    eapply (wait_add (wait_next k) (wait_next k') caller s l); eauto.
    rewrite Hw'. destruct (Z.eqb_spec src_e NONE) as [->|]; [done|].
    destruct (Z.eqb_spec src_e ANY) as [->|]; [done|]. simpl. by rewrite Hep.
Qed.

Lemma recv_blocked_inv : ipc_inv k' Q' C.
Proof using All.
  split.
  - apply recv_base.
  - intros d Hd. destruct (Hview d) as (_ & _ & _ & _ & -> & _).
    eapply chain_ext; [|by apply (ii_callers _ _ _ HI)]. intros n _. symmetry. apply Hview.
  - intros d n Hd. rewrite recv_sending. destruct (Hview n) as (_ & _ & -> & _). by apply (ii_queued _ _ _ HI).
  - intros n Hn. rewrite recv_sending. destruct (Hview n) as (_ & _ & _ & -> & _). by apply (ii_link _ _ _ HI).
  - intros n Hn. rewrite recv_sending. destruct (Hview n) as (_ & _ & -> & _). intros H.
    by apply recv_isok, (ii_sendto _ _ _ HI).
  - intros n Hn. rewrite recv_receiving. destruct (Hview n) as (_ & _ & _ & _ & _ & -> & _).
    case_decide as Hcd.
    + intros _. destruct Hsrc as [->|(s & Hok & _)]; [by left|right]. apply recv_isok.
      by pose proof Hok as (_ & _ & _ & ->)%isokendpt_Some.
    + intros H. destruct (ii_getfrom _ _ _ HI n Hn H); [by left|right]. by apply recv_isok.
  - intros n Hn. rewrite recv_sending, recv_receiving. destruct (Hview n) as (_ & _ & -> & _ & _ & -> & _).
    case_decide as Hcd; [subst; auto|]. by apply (ii_sendrec _ _ _ HI).
  - apply recv_waits.
Qed.
End recv_blocked.

Section receive_block.
Context (k : kstate) (Q C : Z → list Z) (HI : ipc_inv k Q C) (caller src_e src_p : Z).
Context (Hc : valid_slot caller) (Hfree : slot_free k caller = false) (Hnr : receiving k caller = false)
  (Hnd : delivering k caller = false).
Context (Hsrc : src_e = ANY ∨ (isokendpt k src_e = Some src_p ∧ src_p ≠ caller)).
Context (Hsr : sending k caller = true → src_e = p_sendto_e (proctab k caller)).
Context (Hnone : sending k caller = false → Forall (λ n, acceptable src_e src_p n = false) (C caller)).

(** The pair that [deadlock] lets pass is in the queue. *)
Lemma receive_no_rendezvous l :
  sending k caller = false → isokendpt k src_e = Some src_p →
  chain (wait_next k) (Some src_p) (src_p :: l) None → head l = Some caller → rendezvous k RECEIVE src_p = false.
Proof using HI Hc Hnone.
  intros Hns Hok Hl Hh. destruct l as [|x l]; simplify_eq/=. destruct Hl as (_ & Hw & _).
  pose proof Hok as (Hsv & _)%isokendpt_Some.
  assert (rendezvous k RECEIVE src_p = sending k src_p) as ->.
  { unfold rendezvous, sending. change (Z.shiftl RECEIVE 2) with (2 ^ 3). change RTS_SENDING with (2 ^ 2).
    rewrite !has_bit by lia. rewrite Z.lxor_spec. by rewrite Z.pow2_bits_false, xorb_false_r. }
  destruct (sending k src_p) eqn:Hs; [|done]. exfalso.
  unfold wait_next in Hw. rewrite P_BLOCKEDON_eq, Hs in Hw. destruct (_ || _); [done|]. injection Hw as Hto.
  assert (src_p ∈ C caller) as Hin by by apply (ii_queued _ _ _ HI).
  specialize (Hnone Hns). rewrite Forall_forall in Hnone. specialize (Hnone _ Hin).
  unfold acceptable in Hnone. by rewrite Z.eqb_refl, orb_true_r in Hnone.
Qed.

Lemma receive_deadlock :
  ∃ r, deadlock RECEIVE caller src_e k = Ret (r, k) ∧
    (r ≠ 0 → ∃ l, chain (wait_next k) (Some src_p) l None ∧ caller ∈ l) ∧
    (r = 0 → src_e = ANY ∨ ∃ s, isokendpt k src_e = Some s ∧
       (sending k caller = false → ∀ l, chain (wait_next k) (Some s) l None → caller ∉ l)).
Proof using HI Hc Hsrc Hsr Hnone.
  destruct Hsrc as [->|[Hok Hne]]; [exists 0; rewrite deadlock_ANY; split_and!; [done..|auto]|].
  destruct (deadlock_spec k Q C HI caller Hc RECEIVE src_e src_p Hok) as (r & l & Hr & Hl & H1 & H2).
  exists r. split_and!; [exact Hr| |].
  - intros H. exists (src_p :: l). split; [exact Hl|]. right. auto.
  - intros H0. right. exists src_p. split; [done|]. intros Hns l' Hl'.
    rewrite (chain_det _ _ _ _ Hl' Hl). apply not_elem_of_cons. split; [done|].
    destruct (H2 H0) as [?|[Hh Hren]]; [done|]. by rewrite (receive_no_rendezvous l) in Hren.
Qed.

Definition receive_blocked (k' : kstate) : Prop :=
  (∃ Q', ipc_inv k' Q' C) ∧ p_getfrom_e (proctab k' caller) = src_e ∧
  (∀ n, rts k' n = rts_after_set caller RTS_RECEIVING k n).

Lemma receive_block_spec flgs :
  wp (receive_block caller src_e flgs) (λ r k',
    if has flgs NON_BLOCKING then r = ENOTREADY ∧ k' = k
    else (r = ELOCKED ∧ k' = k ∧ ∃ l, chain (wait_next k) (Some src_p) l None ∧ caller ∈ l) ∨
         (r = OK ∧ receive_blocked k')) k.
Proof using All.
  unfold receive_block. destruct (has flgs NON_BLOCKING); simpl; wp_steps; [done|].
  destruct receive_deadlock as (r & Hr & Hcyc & Hacyc). eapply wp_intro; [exact Hr|]. cbv beta.
  destruct (Z.eqb_spec r 0) as [Hr0|Hr0]; simpl; [|wp_steps; by eauto]. unfold modify_proc. wp_steps.
  set (k1 := upd_proc caller _ k).
  assert (sched_same k k1) as Hs1 by by apply sched_same_upd_proc.
  eapply wp_mono; [apply (RTS_SET_same k k1 Q caller RTS_RECEIVING); [apply (ii_base _ _ _ HI)|done|done]|].
  intros [] k2 ((Q2 & HS2) & Hf2 & Hr2). wp_steps. right. split; [done|].
  assert (∀ n, p_getfrom_e (proctab k2 n) = if decide (n = caller) then src_e else p_getfrom_e (proctab k n)) as Hg.
  { intros n. rewrite (sched_frame_field p_getfrom_e _ _ n Hf2) by done. unfold k1. rewrite proctab_upd_proc. by case_decide. }
  assert (∀ A (f : proc → A) n, (∀ p, f (core p) = f p) → (∀ p x, f (p <| p_getfrom_e := x |>) = f p) →
    f (proctab k2 n) = f (proctab k n)) as Hk2.
  { intros A f n H1 H2. rewrite (sched_frame_field f _ _ n Hf2) by done. unfold k1. rewrite proctab_upd_proc.
    case_decide; subst; auto. }
  split_and!; [|rewrite Hg; by rewrite decide_True|done]. exists Q2.
  apply (recv_blocked_inv k k2 Q Q2 C HI caller src_e); auto.
  - transitivity (proc_ptr k1); [|apply Hs1]. by rewrite <-(sched_frame_state proc_ptr _ _ Hf2).
  - intros n. unfold q_link, delivering.
    rewrite (Hk2 _ p_priority n), (Hk2 _ p_endpoint n), (Hk2 _ p_sendto_e n), (Hk2 _ p_q_link n), (Hk2 _ p_caller_q n),
      (Hk2 _ p_misc_flags n) by done. by rewrite Hg.
Qed.
End receive_block.
