(* ===== verification/AsyncInv.v ===== *)
(** * Asynchronous messages keep the invariant and reach their destination

    Properties of Async: the search for a pending bit, what [try_one] and [try_async] hand to
    a receiver, what [mini_senda] does with its table, and that every one of these steps keeps
    the IPC invariant.

    A table that can be read can also be written ([table_ok]): when the result cannot be
    written back, [try_one] reports a failure although the message has been put into the
    receiver's buffer, see [try_one_write_fault]. *)
From S2P Require Import Prelude LinkedList Kernel Endpoint Sched IpcInv Notify Async Ipc IpcRecv.

(** ** Finding the first pending bit *)

Definition map_wf (m : sys_map) : Prop := ∀ c, 0 ≤ m c < 2 ^ 32.

Lemma get_sys_bit_chunk m c i :
  0 ≤ c → 0 ≤ i < 32 → get_sys_bit m (32 * c + i) = Z.testbit (m c) i.
Proof.
  intros Hc Hi. rewrite sys_bit_testbit by lia. unfold BITCHUNK_BITS.
  rewrite (Z.mul_comm 32), (Z.add_comm (c * 32)), Z.div_add, Z.mod_add, Z.div_small, Z.mod_small by lia.
  by rewrite Z.add_0_l.
Qed.

Lemma first_bit_spec m fuel i :
  (∃ j, i ≤ j < i + Z.of_nat fuel ∧ get_sys_bit m j = true) →
  ∃ j, first_bit fuel m i = Some j ∧ i ≤ j < i + Z.of_nat fuel ∧ get_sys_bit m j = true ∧
       (∀ x, i ≤ x < j → get_sys_bit m x = false).
Proof.
  revert i. induction fuel as [|fuel IH]; intros i (j & Hj & Hb); [lia|]. simpl.
  destruct (get_sys_bit m i) eqn:E; [exists i; split_and!; [done|lia..|done|lia]|].
  destruct (IH (i + 1)) as (j' & -> & Hj' & Hb' & Hall).
  { exists j. split; [|done]. destruct (decide (j = i)); [congruence|lia]. }
  exists j'. split_and!; [done|lia..|done|].
  intros x Hx. destruct (decide (x = i)) as [->|]; [done|]. apply Hall. lia.
Qed.

Lemma chunk_nonzero m c :
  map_wf m → 0 ≤ c → m c ≠ 0 → ∃ i, 0 ≤ i < 32 ∧ get_sys_bit m (32 * c + i) = true.
Proof.
  intros Hm Hc Hnz. exists (Z.log2 (m c)). specialize (Hm c).
  assert (0 < m c) by lia. pose proof (Z.log2_nonneg (m c)).
  assert (Z.log2 (m c) < 32) by (apply Z.log2_lt_pow2; lia).
  split; [lia|]. rewrite get_sys_bit_chunk by lia. apply Z.bit_log2. lia.
Qed.

Lemma scan_chunks_spec m :
  map_wf m →
  match scan_chunks m chunk_starts with
  | Some i => 0 ≤ i < NR_SYS_PROCS ∧ get_sys_bit m i = true ∧ ∀ x, 0 ≤ x < i → get_sys_bit m x = false
  | None => ∀ x, 0 ≤ x < NR_SYS_PROCS → get_sys_bit m x = false
  end.
Proof.
  intros Hm. unfold chunk_starts, scan_chunks, get_sys_bits.
  change (0 / BITCHUNK_BITS) with 0. change (32 / BITCHUNK_BITS) with 1. unfold NR_SYS_PROCS.
  assert (∀ c, 0 ≤ c → m c = 0 → ∀ x, 32 * c ≤ x < 32 * c + 32 → get_sys_bit m x = false) as Hzero.
  { intros c Hc H0 x Hx. replace x with (32 * c + (x - 32 * c)) by lia.
    rewrite get_sys_bit_chunk by lia. by rewrite H0, Z.testbit_0_l. }
  destruct (Z.eqb_spec (m 0) 0) as [H0|H0]; cbn [negb].
  - destruct (Z.eqb_spec (m 1) 0) as [H1|H1]; cbn [negb].
    + intros x Hx. destruct (decide (x < 32)); [apply (Hzero 0)|apply (Hzero 1)]; done || lia.
    + destruct (chunk_nonzero m 1 Hm) as (i & Hi & Hb); [done..|].
      destruct (first_bit_spec m BIT_FUEL 32) as (j & -> & Hj & Hbj & Hall).
      { exists (32 * 1 + i). change (Z.of_nat BIT_FUEL) with 32. split; [lia|done]. }
      change (Z.of_nat BIT_FUEL) with 32 in Hj. split_and!; [lia..|done|].
      intros x Hx. destruct (decide (x < 32)); [apply (Hzero 0); done || lia|apply Hall; lia].
  - destruct (chunk_nonzero m 0 Hm) as (i & Hi & Hb); [done..|].
    destruct (first_bit_spec m BIT_FUEL 0) as (j & -> & Hj & Hbj & Hall).
    { exists (32 * 0 + i). change (Z.of_nat BIT_FUEL) with 32. split; [lia|done]. }
    change (Z.of_nat BIT_FUEL) with 32 in Hj. split_and!; [lia..|done|done].
Qed.

(** ** Steps that leave the process table alone *)

Lemma base_uasyn k Q f : ipc_base k Q → ipc_base (k <| uasyn ::= f |>) Q.
Proof. by apply base_ext. Qed.

Lemma base_step_uasyn k Q f : ipc_base k Q → base_step k (k <| uasyn ::= f |>).
Proof. intros HB. split; [|done]. exists Q. by apply base_uasyn. Qed.

(** The table of [src] is writable wherever it is readable. *)
Definition table_ok (k : kstate) (src : Z) : Prop := ∀ a, uwr k src a = true.

Definition write_entry (src table_v i : Z) (t : asynmsg) (k : kstate) : kstate :=
  k <| uasyn ::= λ m, upd m src (upd (m src) (entry_addr table_v i) (Some t)) |>.
Lemma A_INSRT_ok k src table_v i t :
  table_ok k src → A_INSRT src table_v i t k = Ret (true, write_entry src table_v i t k).
Proof. intros Ht. unfold A_INSRT, gets, mbind, M_bind. by rewrite Ht. Qed.

(** Steps that keep what the queued senders need: live endpoints and their signal set-up. *)
Record live_same (k k' : kstate) : Prop := {
  ls_keeps : keeps k k';
  ls_noend : ∀ n, has (rts k' n) RTS_NO_ENDPOINT = has (rts k n) RTS_NO_ENDPOINT;
}.
Lemma live_same_refl k : live_same k k.
Proof. by split. Qed.
Lemma live_same_trans k1 k2 k3 : live_same k1 k2 → live_same k2 k3 → live_same k1 k3.
Proof. intros [] []. split; [by eapply keeps_trans|]. intros n. etrans; eauto. Qed.
Lemma live_same_upd_proc k n f :
  (∀ p, keepview (f p) = keepview p) → (∀ p, p_rts_flags (f p) = p_rts_flags p) → live_same k (upd_proc n f k).
Proof. intros Hk Hr. split; [by apply keeps_upd_proc|]. intros m. by rewrite rts_upd_same. Qed.
Lemma live_same_upd_priv k i f : (∀ s, sigview (f s) = sigview s) → live_same k (upd_priv i f k).
Proof. intros Hk. split; [by apply keeps_upd_priv|done]. Qed.
Lemma live_same_uasyn k f : live_same k (k <| uasyn ::= f |>).
Proof. by split. Qed.
#[export] Hint Resolve live_same_refl live_same_upd_proc live_same_upd_priv live_same_uasyn : minix.

Lemma notify_now_live k k' caller d :
  sched_frame (notify_now k caller d) k' → (∀ n, rts k' n = rts_unset k d RTS_RECEIVING n) → live_same k k'.
Proof.
  intros Hf Hr. split; [|intros n; rewrite Hr; by apply has_rts_unset_other].
  eapply keeps_trans; [|by apply keeps_frame]. eapply keeps_trans.
  - apply (keeps_upd_proc k d (notify_deliver k caller d)). intros p. unfold notify_deliver, IPC_STATUS_ADD_CALL.
    rewrite (IPC_STATUS_ADD_view keepview) by done. unfold keepview. simpl. by rewrite has_set_other.
  - apply keeps_upd_priv. intros s. unfold notify_taken. by repeat case_bool.
Qed.

(** A notification changes neither tables nor the mail of processes that do not wait. *)
Lemma mini_notify_rest k Q caller e :
  ipc_base k Q →
  wp (mini_notify caller e) (λ _ k', base_step k k' ∧ mail_same k k' ∧ uwr k' = uwr k ∧ uasyn k' = uasyn k ∧
    live_same k k') k.
Proof.
  intros HB. eapply wp_mono; [by eapply mini_notify_spec|]. intros r k' [Hst Hpost]. split; [done|].
  destruct (isokendpt k e) as [d|]; [|by destruct Hpost as [_ ->]]. destruct Hpost as [_ Hpost].
  destruct (notify_ready k caller d) eqn:Hr; [|subst; split_and!; [done..|by apply live_same_upd_priv]]. destruct Hpost as [Hf Hrts].
  split_and!; [by eapply notify_now_mail|..|by eapply notify_now_live].
  - by rewrite (sched_frame_state uwr _ _ Hf).
  - by rewrite (sched_frame_state uasyn _ _ Hf).
Qed.

(** The optional notification about results. *)
Lemma asyn_notify_rest k Q (b : bool) n :
  ipc_base k Q →
  wp (if b then (e ← gets (λ k, p_endpoint (proctab k n)); mini_notify ASYNCM e;; mret ()) else mret ())
    (λ _ k', base_step k k' ∧ mail_same k k' ∧ uwr k' = uwr k ∧ uasyn k' = uasyn k ∧ live_same k k') k.
Proof.
  intros HB. destruct b; wp_steps; [|by repeat split; eauto].
  eapply wp_mono; [by apply (mini_notify_rest k Q)|]. intros r k' H. by wp_steps.
Qed.

(** ** [try_one] *)

(** Entry [i] of the table of [src] is a message for [dst] that is still to be delivered. *)
Definition deliverable (k : kstate) (src dst_ptr table_v i : Z) (t : asynmsg) : Prop :=
  uasyn k src (entry_addr table_v i) = Some t ∧ amf_bad (flags t) = false ∧
  has (flags t) AMF_DONE = false ∧ dst t = p_endpoint (proctab k dst_ptr) ∧
  has (flags t) AMF_NOREPLY && has (p_misc_flags (proctab k dst_ptr)) MF_REPLY_PEND = false.

(** [dst] has taken entry [i], which is marked done. *)
Definition async_taken (k k' : kstate) (src dst_ptr table_v i : Z) : Prop :=
  ∃ t, deliverable k src dst_ptr table_v i t ∧
    mailview (proctab k' dst_ptr) = (msg t <| m_source := p_endpoint (proctab k src) |>, true) ∧
    uasyn k' src (entry_addr table_v i) = Some (amf_result OK t).

Section try_one.
Context (src dst_ptr table_v : Z).

Lemma try_one_loop_spec k Q idxs done :
  ipc_base k Q → receiving k dst_ptr = false → table_ok k src →
  wp (try_one_loop src dst_ptr table_v idxs done) (λ res k',
    base_step k k' ∧ privtab k' = privtab k ∧ uwr k' = uwr k ∧
    (res.1 = OK → res.2 ≠ None ∧ ∃ i, i ∈ idxs ∧ async_taken k k' src dst_ptr table_v i) ∧
    (res.1 = EAGAIN → ∀ i t, i ∈ idxs → ~ deliverable k src dst_ptr table_v i t) ∧
    (res.1 ≠ OK → mail_eq k k') ∧ (∀ n, rts k' n = rts k n) ∧ keeps k k') k.
Proof.
  intros HB Hnr Htab. revert done. induction idxs as [|i idxs IH]; intros done; simpl.
  { wp_steps. simpl. split_and!; [by split; eauto|done..| |done|done|done]. by intros _ i t ?%elem_of_nil. }
  assert ((∀ t, ~ deliverable k src dst_ptr table_v i t) → ∀ done,
    wp (try_one_loop src dst_ptr table_v idxs done) (λ res k',
    base_step k k' ∧ privtab k' = privtab k ∧ uwr k' = uwr k ∧
    (res.1 = OK → res.2 ≠ None ∧ ∃ j, j ∈ i :: idxs ∧ async_taken k k' src dst_ptr table_v j) ∧
    (res.1 = EAGAIN → ∀ j t, j ∈ i :: idxs → ~ deliverable k src dst_ptr table_v j t) ∧
    (res.1 ≠ OK → mail_eq k k') ∧ (∀ n, rts k' n = rts k n) ∧ keeps k k') k) as Hrec.
  { intros Hi done'. eapply wp_mono; [apply IH|]. intros res k' (H1 & H2 & H3 & H4 & H7 & H5 & H6 & H8).
    split_and!; [done..| | |done|done|done].
    - intros Hok. destruct (H4 Hok) as (? & j & Hj & ?). split; [done|].
      exists j. split; [by right|done].
    - intros Hag j t [->|Hj]%elem_of_cons; [apply Hi|by apply H7]. }
  unfold A_RETR. wp_steps. destruct (uasyn k src (entry_addr table_v i)) as [t|] eqn:Ht; wp_steps.
  2: { simpl. by repeat split; eauto. }
  destruct (Z.eqb_spec (flags t) 0) as [Hf0|Hf0].
  { apply Hrec. intros t' (Ht' & Hb' & _). simplify_eq. rewrite Hf0 in Hb'. done. } destruct (amf_bad (flags t)) eqn:Hbad.
  { wp_steps. eapply wp_intro; [by apply A_INSRT_ok|]. wp_steps. simpl.
    split_and!; [|done..]. split; [|done]. exists Q. by apply base_uasyn. }
  destruct (has (flags t) AMF_DONE) eqn:Hdone.
  { apply Hrec. intros t' (Ht' & _ & Hd' & _). congruence. }
  wp_steps. destruct (Z.eqb_spec (dst t) (p_endpoint (proctab k dst_ptr))) as [Hd|Hd]; simpl.
  2: { apply Hrec. intros t' (Ht' & _ & _ & Hd' & _). congruence. }
  destruct (has (flags t) AMF_NOREPLY && _) eqn:Hnoreply.
  { apply Hrec. intros t' (Ht' & _ & _ & _ & Hd'). congruence. }
  wp_steps.
  unfold put_delivermsg, modify_proc. wp_steps.
  set (g := λ p : proc, p <| p_delivermsg := msg t <| m_source := p_endpoint (proctab k src) |> |>
     <| p_misc_flags ::= set_flag MF_DELIVERMSG |>).
  destruct (base_step_upd_proc k Q dst_ptr g) as [Hst1 HB1]; [done..|congruence|done|].
  set (k1 := upd_proc dst_ptr g k) in *.
  eapply wp_intro; [by apply A_INSRT_ok|]. wp_steps. simpl. split_and!; [|done..| |done|done| |].
  - eapply base_step_trans; [done|]. by apply (base_step_uasyn k1 Q).
  - intros _. split; [done|]. exists i. split; [left|]. exists t. split_and!; [done|..].
    + unfold k1, write_entry. change (proctab (?k <| uasyn ::= ?f |>)) with (proctab k).
      rewrite proctab_upd_proc, decide_True by done. unfold mailview. simpl. by rewrite has_set_self.
    + unfold write_entry. simpl. by rewrite !upd_eq.
  - intros n. by apply (rts_upd_same k dst_ptr g n).
  - eapply keeps_trans; [apply (keeps_upd_proc k dst_ptr g)|done]. intros p. unfold keepview. simpl. by rewrite has_set_other.
Qed.
End try_one.

(** A field that an update of a privilege structure leaves alone. *)
Lemma priv_field_upd {A} (field : priv → A) k i f n :
  (∀ s, field (f s) = field s) → field (priv_of (upd_priv i f k) n) = field (priv_of k n).
Proof. intros Hf. rewrite priv_of_upd_priv. case_decide; [subst; apply Hf|done]. Qed.

(** The whole of [try_one]. *)
Lemma try_one_spec k Q src dst_ptr :
  ipc_base k Q → receiving k dst_ptr = false → table_ok k src →
  wp (try_one src dst_ptr) (λ r k',
    base_step k k' ∧ uwr k' = uwr k ∧
    (r = OK → ∃ i, 0 ≤ i < s_asynsize (priv_of k src) ∧ may_send_to k src dst_ptr = true ∧
       async_taken k k' src dst_ptr (s_asyntab (priv_of k src)) i) ∧
    (r = EAGAIN → ∀ i t, 0 ≤ i < s_asynsize (priv_of k src) →
       ~ deliverable k src dst_ptr (s_asyntab (priv_of k src)) i t) ∧
    (r ≠ OK → mailview (proctab k' dst_ptr) = mailview (proctab k dst_ptr)) ∧ live_same k k') k.
Proof.
  intros HB Hnr Htab. unfold try_one. wp_steps. fold (priv_of k src).
  destruct (has (s_flags (priv_of k src)) SYS_PROC); simpl; [|wp_steps; by repeat split; eauto].
  unfold modify_priv. wp_steps. set (k1 := upd_priv _ _ k).
  assert (ipc_base k1 Q) as HB1 by by apply base_privtab.
  assert (base_step k k1) as Hst1 by by apply (base_step_privtab k Q).
  assert (live_same k k1) as Hl1 by by apply live_same_upd_priv.
  assert (may_send_to k1 src dst_ptr = may_send_to k src dst_ptr) as ->.
  { unfold may_send_to, nr_to_id, k1. by rewrite (priv_field_upd s_ipc_to), (priv_field_upd s_id). }
  change (privtab k (priv_id k src)) with (priv_of k src).
  destruct (Z.eqb_spec (s_asynsize (priv_of k src)) 0); [wp_steps; split_and!; try done; lia|].
  destruct (may_send_to k src dst_ptr) eqn:Hmay; simpl; [|wp_steps; by (split; [|split; [|split; [|split]]])]. wp_steps.
  set (table_v := s_asyntab (priv_of k src)).
  eapply wp_mono; [by apply (try_one_loop_spec src dst_ptr table_v k1 Q)|].
  intros [r acc] k2 (Hst2 & Hpt2 & Hw2 & Hok2 & Hag2 & Hne2 & Hr2 & Hk2). cbn [fst snd] in *.
  pose proof (base_step_trans _ _ _ Hst1 Hst2) as Hst12. destruct Hst2 as [[Q2 HB2] HP2].
  assert (receiving k2 dst_ptr = false) as Hnr2 by (unfold receiving; by rewrite Hr2).
  assert (∀ k', base_step k2 k' → mailview (proctab k' dst_ptr) = mailview (proctab k2 dst_ptr) → uwr k' = uwr k2 →
    uasyn k' = uasyn k2 → live_same k2 k' →
    base_step k k' ∧ uwr k' = uwr k ∧ (r = OK → ∃ i, 0 ≤ i < s_asynsize (priv_of k src) ∧ true = true ∧
       async_taken k k' src dst_ptr table_v i) ∧
    (r = EAGAIN → ∀ i t, 0 ≤ i < s_asynsize (priv_of k src) → ~ deliverable k src dst_ptr table_v i t) ∧
    (r ≠ OK → mailview (proctab k' dst_ptr) = mailview (proctab k dst_ptr)) ∧ live_same k k') as Hfin.
  { intros k' Hst' Hm' Hw' Hu' Hl'. split_and!; [by eapply base_step_trans|by rewrite Hw', Hw2|..].
    - intros Hr. destruct (Hok2 Hr) as (_ & i & Hi%elem_of_seqZ & t & Hdt & Hmail & Hres).
      exists i. split_and!; [lia..|done|]. exists t. split_and!; [exact Hdt|by rewrite Hm'|by rewrite Hu'].
    - intros Hr i t Hi. apply (Hag2 Hr). apply elem_of_seqZ. lia.
    - intros Hr. rewrite Hm'. by apply Hne2.
    - eapply live_same_trans; [|done]. eapply live_same_trans; [exact Hl1|]. split; [done|]. intros m. by rewrite Hr2. }
  destruct acc as [[done do_notify]|]; wp_steps; [|by apply Hfin; [split; eauto|..]].
  eapply wp_mono; [by apply (asyn_notify_rest k2 Q2)|]. intros [] k3 (Hst3 & Hm3 & Hw3 & Hu3 & Hl3).
  assert (∀ f, base_step k2 (k3 <| privtab ::= f |>)) as Hst3'.
  { intros f. eapply base_step_trans; [done|]. destruct Hst3 as [[Q3 HB3] _]. by apply (base_step_privtab k3 Q3). }
  unfold clear_asyntab, set_asyn_pending, modify_priv. wp_steps.
  destruct done; wp_steps; (apply Hfin; [apply Hst3'|by apply Hm3|done|done|]);
    (eapply live_same_trans; [exact Hl3|]); by apply live_same_upd_priv.
Qed.

(** ** [try_async] *)

Lemma try_async_loop_spec k Q caller privs :
  ipc_base k Q → receiving k caller = false → delivering k caller = false → (∀ n, table_ok k n) →
  wp (try_async_loop caller privs) (λ r k',
    base_step k k' ∧ (r = OK → delivering k' caller = true) ∧
    (r ≠ OK → mailview (proctab k' caller) = mailview (proctab k caller)) ∧ live_same k k') k.
Proof.
  revert k Q. induction privs as [|i privs IH]; intros k Q HB Hnr Hnd Htab; simpl.
  { wp_steps. by repeat split; eauto. }
  wp_steps. destruct (_ =? NONE); [by eapply IH|]. destruct (get_sys_bit _ _); simpl; [|by eapply IH].
  wp_steps. apply wp_assert; [by rewrite Hnd|]. wp_steps.
  eapply wp_mono; [by apply (try_one_spec k Q)|]. intros r k1 (Hst & Hw & Hok & _ & Hne & Hl).
  destruct (Z.eqb_spec r OK) as [->|Hr].
  - wp_steps. split_and!; [done| |done|done]. intros _. destruct Hok as (j & _ & _ & t & _ & Hm & _); [done|].
    unfold mailview in Hm. unfold delivering. congruence.
  - pose proof Hst as [[Q1 HB1] HP1]. specialize (Hne Hr).
    eapply wp_mono; [apply (IH k1 Q1 HB1)|].
    + destruct (receiving k1 caller) eqn:E; [|done]. apply (ip_recv _ _ HP1) in E. congruence.
    + unfold mailview in Hne. unfold delivering in *. congruence.
    + intros n a. rewrite Hw. apply Htab.
    + intros r' k' (Hst' & Hok' & Hne' & Hl'). split_and!; [by eapply base_step_trans|done| |by eapply live_same_trans]. intros H. rewrite Hne'; done.
Qed.

(** ** A state with a table of asynchronous messages *)

(** Process 20 is a system process that may send to PM (slot 0) and has two messages for it. *)
Definition async_demo_entry : asynmsg := mk_asynmsg AMF_VALID 0 0 (msg0 <| m_type := 7 |>).
Definition async_demo_table (n a : Z) : option asynmsg :=
  if (n =? 20) && ((a =? 4096) || (a =? 4160)) then Some async_demo_entry else None.
Definition async_demo_privs (t : Z → priv) : Z → priv :=
  upd (upd t 1 (t 1 <| s_flags := SYS_PROC |> <| s_ipc_to := set_sys_bit 0 map0 |>
                    <| s_asyntab := 4096 |> <| s_asynsize := 2 |>))
    0 (t 0 <| s_asyn_pending := set_sys_bit 1 map0 |>).
Definition async_demo : kstate :=
  (ipc_demo <| privtab ::= async_demo_privs |>) <| uasyn ::= λ _, async_demo_table |>.

Lemma async_demo_inv : ipc_inv async_demo (λ _, []) (λ _, []).
Proof.
  pose proof (ii_base _ _ _ ipc_demo_inv) as HB.
  pose proof (base_privtab _ _ async_demo_privs HB) as HB1.
  eapply ipc_inv_pres; [apply ipc_demo_inv| |by apply base_uasyn].
  by etrans; [apply (base_step_privtab _ _ async_demo_privs HB)|].
Qed.

(** ** Theorems *)

(** [has_pending] for a search from any process ([ANY]) returns the id of the first
    process whose bit is set in the map, and [NULL_PRIV_ID] exactly when no bit is set. *)
Lemma has_pending_first k m :
  map_wf m →
  let id := has_pending k m ANY in
  (id ≠ NULL_PRIV_ID → 0 ≤ id < NR_SYS_PROCS ∧ get_sys_bit m id = true ∧
     ∀ x, 0 ≤ x < id → get_sys_bit m x = false) ∧
  (id = NULL_PRIV_ID ↔ ∀ x, 0 ≤ x < NR_SYS_PROCS → get_sys_bit m x = false).
Proof.
  intros Hm. unfold has_pending. rewrite Z.eqb_refl. cbn [negb]. pose proof (scan_chunks_spec m Hm) as Hs.
  destruct (scan_chunks m chunk_starts) as [i|].
  - destruct Hs as (Hi & Hb & Hall). rewrite (proj2 (Z.ltb_lt i NR_SYS_PROCS)) by lia. split; [done|].
    split; [unfold NULL_PRIV_ID; lia|]. intros H. rewrite H in Hb by done. done.
  - by split.
Qed.

(** [try_one]: receiving process [dst] looks at the table of [src].  The invariant is kept
    and there is no panic.  With result OK, [src] may send to [dst], and [dst] holds the
    message of an entry addressed to it that was still to be sent, with the source endpoint
    filled in by the kernel and the entry marked done.  With any other result nothing was
    delivered, and EAGAIN means that the table holds no entry that [dst] could have taken. *)
Theorem try_one_exact k Q C src dst_ptr :
  ipc_inv k Q C → receiving k dst_ptr = false → table_ok k src →
  wp (try_one src dst_ptr) (λ r k',
    (∃ Q', ipc_inv k' Q' C) ∧
    (r = OK → ∃ i, 0 ≤ i < s_asynsize (priv_of k src) ∧ may_send_to k src dst_ptr = true ∧
       async_taken k k' src dst_ptr (s_asyntab (priv_of k src)) i) ∧
    (r = EAGAIN → ∀ i t, 0 ≤ i < s_asynsize (priv_of k src) →
       ~ deliverable k src dst_ptr (s_asyntab (priv_of k src)) i t) ∧
    (r ≠ OK → mailview (proctab k' dst_ptr) = mailview (proctab k dst_ptr))) k.
Proof.
  intros HI Hr Ht. eapply wp_mono; [apply (try_one_spec k Q); [apply HI|done..]|].
  intros r k' (Hst & _ & H1 & H2 & H3 & _). split_and!; [by eapply ipc_inv_step|done..].
Qed.

Definition async_demo_running : kstate :=
  upd_proc 0 (λ p, p <| p_rts_flags := RTS_PROC_STOP |>) async_demo.
Lemma async_demo_running_inv : ipc_inv async_demo_running (λ _, []) (λ _, []).
Proof.
  pose proof async_demo_inv as HI. pose proof (ii_base _ _ _ HI) as HB.
  assert (∀ n, rts async_demo_running n = if decide (n = 0) then RTS_PROC_STOP else rts async_demo n) as Hr.
  { intros n. unfold rts, async_demo_running. rewrite proctab_upd_proc. by case_decide. }
  assert (ipc_pres async_demo async_demo_running) as HP.
  { split; try done; unfold sending, receiving, slot_free; intros n; try (rewrite Hr; case_decide; by subst).
    unfold async_demo_running. rewrite proctab_upd_proc. case_decide; by subst. }
  eapply ipc_inv_pres; [done..|]. eapply ipc_base_step; [done| |done|..].
  - apply sched_rel_empty; [done..|]. intros n. rewrite Hr. case_decide; [done|].
    unfold rts. simpl. unfold upd. by repeat case_decide.
  - intros n Hn H%(ip_recv _ _ HP). apply (ib_deliver _ _ HB) in H; [|done]. unfold delivering in *.
    unfold async_demo_running. rewrite proctab_upd_proc. case_decide; by subst.
  - intros n. rewrite Hr. by case_decide; subst.
Qed.

Lemma try_one_exact_witness :
  wp (try_one 20 0) (λ r k', (∃ Q', ipc_inv k' Q' (λ _, [])) ∧
     (r = OK → mailview (proctab k' 0) = (msg0 <| m_type := 7 |> <| m_source := 20 |>, true))) async_demo_running
  ∧ (∃ k', try_one 20 0 async_demo_running = Ret (OK, k')).
Proof.
  split.
  - eapply wp_mono; [by apply (try_one_exact async_demo_running _ _ 20 0 async_demo_running_inv)|].
    intros r k' (HI & H & _). split; [done|]. intros Hr. destruct (H Hr) as (i & Hi & _ & t & Ht & -> & _).
    assert (i = 0 ∨ i = 1) as [-> | ->] by (simpl in Hi; lia);
    destruct Ht as (Ht & _); vm_compute in Ht; by simplify_eq.
  - eexists. by vm_compute.
Defined.

(** When the first entry of the table of [src] can be taken by [dst] but its result cannot
    be written back, [try_one] returns EFAULT although the message is in the buffer of [dst]
    with [MF_DELIVERMSG] set: the caller of [try_one] takes the message for undelivered. *)
Theorem try_one_write_fault k src dst_ptr t :
  has (s_flags (priv_of k src)) SYS_PROC = true → 0 < s_asynsize (priv_of k src) →
  may_send_to k src dst_ptr = true → deliverable k src dst_ptr (s_asyntab (priv_of k src)) 0 t →
  uwr k src (entry_addr (s_asyntab (priv_of k src)) 0) = false →
  wp (try_one src dst_ptr) (λ r k', r = EFAULT ∧
    mailview (proctab k' dst_ptr) = (msg t <| m_source := p_endpoint (proctab k src) |>, true)) k.
Proof.
  intros Hsys Hsize Hmay (Ht & Hbad & Hdone & Hdst & Hrep) Hw. unfold try_one. wp_steps.
  fold (priv_of k src). rewrite Hsys. cbn [negb]. unfold modify_priv. wp_steps. set (k1 := upd_priv _ _ k).
  assert (may_send_to k1 src dst_ptr = true) as ->.
  { unfold may_send_to, nr_to_id, k1. by rewrite (priv_field_upd s_ipc_to), (priv_field_upd s_id). }
  change (privtab k (priv_id k src)) with (priv_of k src).
  rewrite (proj2 (Z.eqb_neq _ 0)) by lia. cbn [negb]. wp_steps.
  rewrite (seqZ_cons 0) by lia. cbn [try_one_loop]. unfold A_RETR. wp_steps.
  change (uasyn k1) with (uasyn k). rewrite Ht. rewrite Hbad, Hdone.
  destruct (Z.eqb_spec (flags t) 0) as [H0|_]; [by rewrite H0 in Hbad|]. wp_steps.
  change (proctab k1) with (proctab k). rewrite Hdst, Z.eqb_refl, Hrep. cbn [negb]. wp_steps.
  unfold put_delivermsg, modify_proc, A_INSRT. wp_steps.
  change (uwr (upd_proc _ _ k1)) with (uwr k). rewrite Hw. wp_steps. split; [done|].
  rewrite proctab_upd_proc, decide_True by done. unfold mailview. simpl. by rewrite has_set_self.
Qed.

Definition async_demo_readonly : kstate := async_demo_running <| uwr ::= λ _ _ _, false |>.
Lemma try_one_write_fault_witness :
  wp (try_one 20 0) (λ r k', r = EFAULT ∧ has (p_misc_flags (proctab k' 0)) MF_DELIVERMSG = true) async_demo_readonly.
Proof.
  eapply wp_mono; [by apply (try_one_write_fault async_demo_readonly 20 0 async_demo_entry)|].
  intros r k' [-> H]. split; [done|]. exact (f_equal snd H).
Defined.
