(* ===== verification/AsyncSend.v ===== *)
(** * [mini_senda] loses no message

    [try_deliver_senda] (kernel/proc.c) goes once over the table of asynchronous messages that
    a process hands to the kernel.  Afterwards every entry that was still to be sent has been
    dealt with: it carries its result (and with result OK, the destination that waited for it
    holds the message), or the kernel remembers the table and the sender's bit is set in the
    map of the destination, which will look at the table when it receives. *)
From S2P Require Import Prelude LinkedList Kernel Endpoint Sched IpcInv Notify Async Ipc IpcRecv AsyncInv.

(** What a round of the loop leaves alone, seen from [caller]. *)
Record senda_pres (caller : Z) (k k' : kstate) : Prop := {
  sp_base : base_step k k';
  sp_mail : mail_same k k';
  sp_uwr : uwr k' = uwr k;
  sp_check : ∀ e, senda_check k' caller e = senda_check k caller e;
  sp_id : s_id (priv_of k' caller) = s_id (priv_of k caller);
  sp_pending : ∀ n b, 0 ≤ b → get_sys_bit (s_asyn_pending (priv_of k n)) b = true →
    get_sys_bit (s_asyn_pending (priv_of k' n)) b = true;
}.

(** The message of entry [t] has been handed to a process that may get it. *)
Definition senda_delivered (k k' : kstate) (caller : Z) (t : asynmsg) : Prop :=
  ∃ d, senda_check k caller (dst t) = (OK, d) ∧ receiving k' d = false ∧
    mailview (proctab k' d) = (msg t <| m_source := p_endpoint (proctab k caller) |>, true).
(** The receiver has been told to look at the sender's table. *)
Definition senda_pending (k k' : kstate) (caller : Z) (t : asynmsg) : Prop :=
  ∃ d, senda_check k caller (dst t) = (OK, d) ∧
    get_sys_bit (s_asyn_pending (priv_of k' d)) (s_id (priv_of k caller)) = true.

(** Entry [i] of the table is a message that is still to be sent. *)
Definition unsent (k : kstate) (caller table_v i : Z) (t : asynmsg) : Prop :=
  uasyn k caller (entry_addr table_v i) = Some t ∧
  amf_bad (flags t) = false ∧ has (flags t) AMF_DONE = false.

(** What became of the message [t] of entry [i] between [k] and [k'], with [done] the
    variable that tells whether the table can be forgotten. *)
Definition senda_handled (k k' : kstate) (caller table_v i : Z) (t : asynmsg) (done : bool) : Prop :=
  (done = false ∧ senda_pending k k' caller t) ∨
  (∃ r, uasyn k' caller (entry_addr table_v i) = Some (amf_result r t) ∧
        r = (senda_check k caller (dst t)).1 ∧ (r = OK → senda_delivered k k' caller t)).

(** ** Steps *)

Lemma senda_pres_refl caller k Q : ipc_base k Q → senda_pres caller k k.
Proof. intros HB. by split; eauto; split; eauto. Qed.

Lemma senda_pres_trans caller k1 k2 k3 :
  senda_pres caller k1 k2 → senda_pres caller k2 k3 → senda_pres caller k1 k3.
Proof.
  intros [] []. split; try (etrans; eauto); eauto.
  - by eapply base_step_trans.
  - eapply mail_same_trans; [|done..]. by destruct sp_base0.
Qed.

Lemma isokendpt_base_step k k' Q e : ipc_base k Q → base_step k k' → isokendpt k' e = isokendpt k e.
Proof.
  intros HB [[Q' HB'] HP]. destruct (isokendpt k e) as [d|] eqn:E; [by apply (isokendpt_pres k Q HB)|].
  destruct (isokendpt k' e) as [d|] eqn:E'; [|done].
  pose proof (isokendpt_not_free _ _ HB' _ _ E') as Hf. rewrite (ip_free _ _ HP) in Hf.
  apply isokendpt_Some in E' as (Hv & _ & He & Hp). rewrite (pres_endpoint _ _ HP) in He.
  rewrite <-E. symmetry. apply isokendpt_Some. split; [done|]. by split; [apply isemptyp_free|].
Qed.

(** The part of a privilege structure that decides about asynchronous sends. *)
Definition permview (s : priv) : sys_map * Z := (s_ipc_to s, s_id s).

Lemma senda_pres_intro caller k k' Q :
  ipc_base k Q → base_step k k' → mail_same k k' → uwr k' = uwr k →
  (∀ n, has (rts k' n) RTS_NO_ENDPOINT = has (rts k n) RTS_NO_ENDPOINT) →
  (∀ n, permview (priv_of k' n) = permview (priv_of k n)) →
  (∀ n b, 0 ≤ b → get_sys_bit (s_asyn_pending (priv_of k n)) b = true →
    get_sys_bit (s_asyn_pending (priv_of k' n)) b = true) →
  senda_pres caller k k'.
Proof.
  intros HB Hst Hm Hw Hn Hp Hbits.
  assert (∀ n, s_ipc_to (priv_of k' n) = s_ipc_to (priv_of k n)) as Hto by (intros n; exact (f_equal fst (Hp n))).
  assert (∀ n, s_id (priv_of k' n) = s_id (priv_of k n)) as Hid by (intros n; exact (f_equal snd (Hp n))).
  split; [done..| |done|done].
  - intros e. unfold senda_check. rewrite (isokendpt_base_step k k' Q) by done.
    destruct (isokendpt k e) as [d|]; [|done]. unfold may_send_to, nr_to_id.
    by rewrite !isset_no_endpoint, Hn, Hto, Hid.
Qed.

(** An update of the bit maps. *)
Lemma senda_pres_pending caller k Q i id :
  ipc_base k Q → 0 ≤ id →
  senda_pres caller k (upd_priv i (λ s, s <| s_asyn_pending ::= set_sys_bit id |>) k).
Proof.
  intros HB Hid. apply (senda_pres_intro caller _ _ Q); try done.
  - by apply (base_step_privtab k Q).
  - intros n. by apply (priv_field_upd permview).
  - intros n b Hb. rewrite priv_of_upd_priv. case_decide as Hi; [|done].
    unfold priv_of. rewrite Hi. simpl. intros Hbit. by rewrite get_set_sys_bit, Hbit, orb_true_r.
Qed.
Lemma senda_pres_asyntab caller k Q i (f : priv → priv) :
  ipc_base k Q → (∀ s, permview (f s) = permview s) → (∀ s, s_asyn_pending (f s) = s_asyn_pending s) →
  senda_pres caller k (upd_priv i f k).
Proof.
  intros HB Hp Ha. apply (senda_pres_intro caller _ _ Q); try done.
  - by apply (base_step_privtab k Q).
  - intros n. by apply (priv_field_upd permview).
  - intros n b Hb. by rewrite (priv_field_upd s_asyn_pending).
Qed.
Lemma senda_pres_write caller k Q table_v i t :
  ipc_base k Q → senda_pres caller k (write_entry caller table_v i t k).
Proof. intros HB. apply (senda_pres_intro caller _ _ Q); try done. by apply (base_step_uasyn k Q). Qed.

Lemma mini_notify_senda_pres caller k Q e :
  ipc_base k Q → wp (mini_notify ASYNCM e) (λ _ k', senda_pres caller k k' ∧ uasyn k' = uasyn k) k.
Proof.
  intros HB. eapply wp_mono; [apply wp_and; [by apply (mini_notify_spec k Q)|by apply (mini_notify_rest k Q)]|].
  intros r k' [[_ Hpost] (Hst & Hm & Hw & Hu & _)]. split; [|done]. destruct (isokendpt k e) as [d|].
  2: { destruct Hpost as [_ ->]. by eapply senda_pres_refl. }
  destruct Hpost as [_ Hpost]. destruct (notify_ready k ASYNCM d).
  - destruct Hpost as [Hf Hr].
    assert (∀ n, priv_of k' n = priv_of (notify_now k ASYNCM d) n) as Hpr.
    { intros n. unfold priv_of, priv_id. rewrite (sched_frame_state privtab _ _ Hf) by done.
      by rewrite (sched_frame_field p_priv _ _ n Hf). }
    assert (∀ n, p_priv (proctab (notify_now k ASYNCM d) n) = p_priv (proctab k n)) as Hid.
    { intros n. unfold notify_now. change (proctab (upd_priv ?i ?f ?k)) with (proctab k). rewrite proctab_upd_proc.
      case_decide; [subst|done]. unfold notify_deliver, IPC_STATUS_ADD_CALL. by rewrite (IPC_STATUS_ADD_view p_priv). }
    assert (∀ {A} (f : priv → A) n, (∀ src s, f (notify_taken src s) = f s) → f (priv_of k' n) = f (priv_of k n)) as Hfld.
    { intros A f n Hnt. rewrite Hpr. unfold priv_of, priv_id. rewrite Hid. unfold notify_now.
      rewrite privtab_upd_priv. case_decide as Hi; [|done]. by rewrite Hnt, <-Hi. }
    apply (senda_pres_intro caller _ _ Q); try done.
    + intros n. rewrite Hr. by apply has_rts_unset_other.
    + intros n. apply Hfld. intros src s. unfold notify_taken. by repeat case_bool.
    + intros n b Hb. rewrite (Hfld _ s_asyn_pending); [done|]. intros src s. unfold notify_taken. by repeat case_bool.
  - subst k'. by apply (senda_pres_asyntab caller k Q).
Qed.

(** Handing the message of an entry to [d]. *)
Definition senda_received (e : Z) (m : message) (p : proc) : proc :=
  IPC_STATUS_ADD_CALL SENDA (p <| p_delivermsg := m <| m_source := e |> |> <| p_misc_flags ::= set_flag MF_DELIVERMSG |>).

Lemma senda_received_view {A} (f : proc → A) e m p :
  (∀ p r, f (p <| p_reg := r |>) = f p) →
  f (senda_received e m p) = f (p <| p_delivermsg := m <| m_source := e |> |> <| p_misc_flags ::= set_flag MF_DELIVERMSG |>).
Proof. intros Hf. unfold senda_received, IPC_STATUS_ADD_CALL. by rewrite (IPC_STATUS_ADD_view f). Qed.

Lemma senda_deliver_spec caller k Q d e m :
  ipc_base k Q → valid_slot d → receiving k d = true →
  wp (put_delivermsg d e m;; modify_proc d (IPC_STATUS_ADD_CALL SENDA);; RTS_UNSET d RTS_RECEIVING) (λ _ k',
    senda_pres caller k k' ∧ uasyn k' = uasyn k ∧ receiving k' d = false ∧
    mailview (proctab k' d) = (m <| m_source := e |>, true)) k.
Proof.
  intros HB Hv Hrecv. unfold put_delivermsg, modify_proc. wp_steps.
  match goal with |- wp _ _ ?s => set (k1 := s) end.
  assert (∀ n, proctab k1 n = if decide (n = d) then senda_received e m (proctab k d) else proctab k n) as Hk1.
  { intros n. subst k1. rewrite !proctab_upd_proc. case_decide; [|done]. by rewrite decide_True. }
  assert (sched_same k k1) as Hs1.
  { etrans; [|apply sched_same_upd_proc]; [by apply sched_same_upd_proc|].
    intros p. unfold IPC_STATUS_ADD_CALL. by rewrite (IPC_STATUS_ADD_view sview). }
  eapply wp_mono; [apply (RTS_UNSET_same k k1 Q d RTS_RECEIVING); [apply HB|done..|by apply (ib_prio _ _ HB)]|].
  intros [] k' ((Q' & HS) & Hf & Hr).
  assert (∀ n, n ≠ d → mailview (proctab k' n) = mailview (proctab k n)) as Hm.
  { intros n Hn. rewrite (sched_frame_field mailview _ _ n Hf), Hk1 by done. by rewrite decide_False. }
  assert (∀ n, priv_of k' n = priv_of k n) as Hpr.
  { intros n. unfold priv_of, priv_id. rewrite (sched_frame_state privtab _ _ Hf) by done.
    rewrite (sched_frame_field p_priv _ _ n Hf), Hk1 by done. case_decide; [subst|done].
    by rewrite (senda_received_view p_priv). }
  split_and!.
  - apply (senda_pres_intro caller _ _ Q); try done.
    + eapply (base_step_delivered k k1 k' Q Q' d); try done.
      * intros n. rewrite Hk1. case_decide; [subst|done]. by rewrite (senda_received_view ipcview).
      * intros n Hn. unfold delivering. by rewrite Hk1, decide_False.
    + intros n Hn. apply Hm. intros ->. congruence.
    + by rewrite (sched_frame_state uwr _ _ Hf).
    + intros n. rewrite Hr. by apply has_rts_unset_other.
    + intros n. by rewrite Hpr.
    + intros n b. by rewrite Hpr.
  - by rewrite (sched_frame_state uasyn _ _ Hf).
  - rewrite (receiving_unset_receiving k k' d) by done. by rewrite decide_True.
  - rewrite (sched_frame_field mailview _ _ d Hf), Hk1, decide_True by done.
    rewrite (senda_received_view mailview) by done. unfold mailview. simpl. by rewrite has_set_self.
Qed.

Lemma senda_handled_after k k1 k2 caller table_v i t done done' :
  0 ≤ s_id (priv_of k caller) → senda_pres caller k1 k2 → (done = false → done' = false) →
  uasyn k2 caller (entry_addr table_v i) = uasyn k1 caller (entry_addr table_v i) →
  senda_handled k k1 caller table_v i t done → senda_handled k k2 caller table_v i t done'.
Proof.
  intros Hid Hp Hd Hu [[Hdone (d & Hc & Hbit)]|(r & Ha & Hr & Hdel)].
  - left. split; [auto|]. exists d. split; [done|]. by apply (sp_pending _ _ _ Hp).
  - right. exists r. split_and!; [by rewrite Hu|done|]. intros (d & Hc & Hrecv & Hm)%Hdel.
    exists d. split_and!; [done| |].
    + destruct (receiving k2 d) eqn:E; [|done]. apply (ip_recv _ _ (proj2 (sp_base _ _ _ Hp))) in E. congruence.
    + by rewrite (sp_mail _ _ _ Hp).
Qed.
Lemma senda_handled_before k k1 k2 caller table_v i t done :
  senda_pres caller k k1 →
  senda_handled k1 k2 caller table_v i t done → senda_handled k k2 caller table_v i t done.
Proof.
  intros Hp. unfold senda_handled, senda_pending, senda_delivered.
  setoid_rewrite (sp_check _ _ _ Hp). rewrite (sp_id _ _ _ Hp).
  by rewrite (pres_endpoint _ _ (proj2 (sp_base _ _ _ Hp))).
Qed.

Section senda.
Context (caller table_v : Z).

(** What is common to a round and to the loop, for the entries [idxs]. *)
Definition senda_post (k : kstate) (idxs : list Z) (acc acc' : bool * bool) (k' : kstate) : Prop :=
  senda_pres caller k k' ∧
  (∀ c a, c ≠ caller ∨ a ∉ entry_addr table_v <$> idxs → uasyn k' c a = uasyn k c a) ∧
  (acc.1 = false → acc'.1 = false) ∧
  ∀ i t, i ∈ idxs → unsent k caller table_v i t → senda_handled k k' caller table_v i t acc'.1.

Lemma senda_entry_skip k Q i acc :
  ipc_base k Q → (∀ t, ~ unsent k caller table_v i t) → senda_post k [i] acc acc k.
Proof.
  intros HB Hn. split_and!; [by eapply senda_pres_refl|done..|].
  intros j t ->%list_elem_of_singleton Ht. by destruct (Hn t).
Qed.

Lemma senda_entry_spec k Q i acc :
  ipc_base k Q → table_ok k caller → 0 ≤ s_id (priv_of k caller) →
  wp (senda_entry caller table_v i acc) (senda_post k [i] acc) k.
Proof.
  intros HB Htab Hid. unfold senda_entry, A_RETR. wp_steps.
  assert ((∀ t, ~ unsent k caller table_v i t) → senda_post k [i] acc acc k) as Hskip
    by by apply (senda_entry_skip k Q).
  destruct (uasyn k caller (entry_addr table_v i)) as [t|] eqn:Ht; wp_steps.
  2: { apply Hskip. intros t [??]. congruence. }
  destruct (Z.eqb_spec (flags t) 0) as [Hf0|Hf0]; wp_steps.
  { apply Hskip. intros t' (? & Hb & _). simplify_eq. by rewrite Hf0 in Hb. }
  destruct (amf_bad (flags t)) eqn:Hbad; wp_steps.
  { apply Hskip. intros t' (? & Hb & _). congruence. }
  destruct (has (flags t) AMF_DONE) eqn:Hdone; wp_steps.
  { apply Hskip. intros t' (? & _ & Hb). congruence. }
  destruct (senda_check k caller (dst t)) as [r d] eqn:Hchk. wp_steps.
  set (ready := (r =? OK) && _ && _). destruct (negb ready && (r =? OK)) eqn:Hpend.
  - apply andb_prop in Hpend as [_ ->%Z.eqb_eq]. unfold set_asyn_pending, modify_priv. wp_steps.
    split_and!; [by apply (senda_pres_pending caller k Q)|done..|]. simpl.
    intros j t' ->%list_elem_of_singleton (Ht' & _). simplify_eq. left. split; [done|].
    exists d. split; [done|]. rewrite priv_of_upd_priv, decide_True by done. simpl.
    by rewrite get_set_sys_bit, Z.eqb_refl.
  - wp_steps.
    eapply (wp_mono _ (λ _ k1, senda_pres caller k k1 ∧ uasyn k1 = uasyn k ∧ (r = OK → senda_delivered k k1 caller t))).
    { destruct ready eqn:Hready; subst ready.
      + apply andb_prop in Hready as [[->%Z.eqb_eq Hw]%andb_prop _]. rewrite WILLRECEIVE_eq in Hw.
        apply andb_prop in Hw as [[Hrecv _]%andb_prop _].
        assert (valid_slot d) as Hv.
        { revert Hchk. unfold senda_check. destruct (isokendpt k (dst t)) as [p|] eqn:Hok; [|done].
          apply isokendpt_Some in Hok as [Hv _]. do 3 (case_bool; [done|]). by intros [= ->]. }
        eapply wp_mono; [by apply (senda_deliver_spec caller k Q)|]. intros [] k1 (H1 & H2 & H3 & H4).
        split_and!; [done..|]. intros _. by exists d.
      + wp_steps. split_and!; [by eapply senda_pres_refl|done|]. intros ->. by rewrite Z.eqb_refl in Hpend. }
    intros [] k1 (Hp1 & Hu1 & Hdel). wp_steps. eapply wp_intro; [apply A_INSRT_ok|].
    { intros a. rewrite (sp_uwr _ _ _ Hp1). apply Htab. }
    wp_steps. destruct (sp_base _ _ _ Hp1) as [[Q1 HB1] _].
    pose proof (senda_pres_write caller k1 Q1 table_v i (amf_result r t) HB1) as Hp2.
    split_and!; [by eapply senda_pres_trans|..|done|]; simpl.
    + intros c a Hca. rewrite !upd_case. case_decide as Hc; [subst c|by rewrite Hu1].
      rewrite upd_ne, Hu1; [done|]. intros ->. destruct Hca as [|Hn]; [done|]. apply Hn. by left.
    + intros j t' ->%list_elem_of_singleton (Ht' & _). simplify_eq. right. exists r. split_and!.
      * unfold write_entry. simpl. by rewrite !upd_eq.
      * by rewrite Hchk.
      * intros Hr. destruct (Hdel Hr) as (d' & H1 & H2 & H3). exists d'. by split_and!.
Qed.

Lemma senda_loop_spec k Q idxs acc :
  ipc_base k Q → table_ok k caller → 0 ≤ s_id (priv_of k caller) → NoDup (entry_addr table_v <$> idxs) →
  wp (senda_loop caller table_v idxs acc) (senda_post k idxs acc) k.
Proof.
  revert k Q acc. induction idxs as [|i idxs IH]; intros k Q acc HB Htab Hid Hnd; simpl.
  { wp_steps. split_and!; [by eapply senda_pres_refl|done..|]. by intros i t ?%elem_of_nil. }
  apply NoDup_cons in Hnd as [Hni Hnd]. wp_steps.
  eapply wp_mono; [by apply (senda_entry_spec k Q)|]. intros acc1 k1 (Hp1 & Hu1 & Hd1 & Hh1).
  destruct (sp_base _ _ _ Hp1) as [[Q1 HB1] _].
  eapply wp_mono; [apply (IH k1 Q1); [done| | |done]|].
  { intros a. rewrite (sp_uwr _ _ _ Hp1). apply Htab. }
  { by rewrite (sp_id _ _ _ Hp1). }
  intros acc2 k2 (Hp2 & Hu2 & Hd2 & Hh2). split_and!; [by eapply senda_pres_trans| |auto|].
  - intros c a Hca. rewrite Hu2, Hu1; [done|..]; destruct Hca as [|Hn]; auto;
      right; intros Hin; apply Hn; rewrite fmap_cons.
    + apply list_elem_of_singleton in Hin as ->. left.
    + by right.
  - intros j t [->|Hj]%elem_of_cons Ht.
    + eapply (senda_handled_after k k1); [done..| |by apply Hh1; [left|]]. apply Hu2. by right.
    + eapply senda_handled_before; [done|]. apply Hh2; [done|]. destruct Ht as (Ht & Hx). split; [|done].
      rewrite Hu1; [done|]. right. intros Hin%list_elem_of_singleton. apply Hni. rewrite <-Hin.
      by apply list_elem_of_fmap_2.
Qed.
End senda.

Lemma entry_addr_NoDup table_v size : size ≤ SENDA_LIMIT → NoDup (entry_addr table_v <$> seqZ 0 size).
Proof.
  intros Hs. apply NoDup_fmap_2_strong; [|apply NoDup_seqZ]. change SENDA_LIMIT with 4176 in Hs.
  intros i j Hi%elem_of_seqZ Hj%elem_of_seqZ. unfold entry_addr, u32. change SIZEOF_ASYNMSG with 64.
  intros He. pose proof (Z.mod_eq (table_v + i * 64) (2 ^ 32) ltac:(done)).
  pose proof (Z.mod_eq (table_v + j * 64) (2 ^ 32) ltac:(done)). lia.
Qed.

(** ** The theorem *)

(** C5. A system process that calls [mini_senda] with a table it can write loses no message:
    the call succeeds, keeps the IPC invariant, and each entry that was still to be sent has
    afterwards either been marked done with the result of the checks on its destination (with
    result OK, its message is in the buffer of that destination, which waited for it), or the
    destination has the sender's bit set and the kernel remembers the whole table. *)
Theorem mini_senda_loses_nothing k Q C caller table size :
  ipc_inv k Q C → has (s_flags (priv_of k caller)) SYS_PROC = true → 0 ≤ s_id (priv_of k caller) →
  0 < size ≤ SENDA_LIMIT → table_ok k caller →
  wp (mini_senda caller table size) (λ r k',
    r = OK ∧ (∃ Q', ipc_inv k' Q' C) ∧
    ∀ i t, 0 ≤ i < size → unsent k caller table i t →
      (senda_pending k k' caller t ∧ s_asyntab (privtab k' (priv_id k caller)) = table ∧
       s_asynsize (privtab k' (priv_id k caller)) = size) ∨
      (∃ res, uasyn k' caller (entry_addr table i) = Some (amf_result res t) ∧
         res = (senda_check k caller (dst t)).1 ∧ (res = OK → senda_delivered k k' caller t))) k.
Proof.
  intros HI Hsys Hid Hsize Htab. pose proof (ii_base _ _ _ HI) as HB.
  unfold mini_senda. wp_steps. rewrite Hsys. cbn [negb]. unfold try_deliver_senda, clear_asyntab, modify_priv.
  wp_steps. rewrite (proj2 (Z.eqb_neq size 0)), (proj2 (Z.ltb_ge SENDA_LIMIT size)) by lia.
  set (k1 := upd_priv _ _ k).
  assert (senda_pres caller k k1) as Hp1 by by apply (senda_pres_asyntab caller k Q).
  destruct (sp_base _ _ _ Hp1) as [[Q1 HB1] _]. wp_steps.
  eapply wp_mono; [apply (senda_loop_spec caller table k1 Q1); [done|done|by rewrite (sp_id _ _ _ Hp1)|]|].
  { apply entry_addr_NoDup. lia. }
  intros [done do_notify] k2 (Hp2 & _ & _ & Hh). destruct (sp_base _ _ _ Hp2) as [[Q2 HB2] _]. wp_steps.
  eapply (wp_mono _ (λ _ k3, senda_pres caller k2 k3 ∧ uasyn k3 = uasyn k2)).
  { destruct do_notify; wp_steps; [|by split; [eapply senda_pres_refl|]].
    eapply wp_mono; [by apply (mini_notify_senda_pres caller k2 Q2)|]. intros ? k3 H. by wp_steps. }
  intros [] k3 [Hp3 Hu3]. destruct (sp_base _ _ _ Hp3) as [[Q3 HB3] _]. wp_steps.
  pose proof (senda_pres_trans _ _ _ _ Hp1 (senda_pres_trans _ _ _ _ Hp2 Hp3)) as Hp13.
  assert (∀ i t, 0 ≤ i < size → unsent k caller table i t → senda_handled k k3 caller table i t done) as Hall.
  { intros i t Hi Ht. eapply senda_handled_before; [exact Hp1|].
    eapply senda_handled_after; [by rewrite (sp_id _ _ _ Hp1)|exact Hp3|done|by rewrite Hu3|].
    apply Hh; [apply elem_of_seqZ; lia|done]. }
  destruct done; cbn [negb]; wp_steps; (split_and!; [done| |]).
  - eapply ipc_inv_step; [done|]. apply Hp13.
  - intros i t Hi Ht. destruct (Hall i t Hi Ht) as [[? _]|H']; [done|]. by right.
  - eapply ipc_inv_step; [done|].
    apply (sp_base caller), (senda_pres_trans _ _ k3); [done|]. by apply (senda_pres_asyntab caller k3 Q3).
  - intros i t Hi Ht. assert (senda_handled k (upd_priv (priv_id k caller)
      (λ s, s <| s_asyntab := table |> <| s_asynsize := size |>) k3) caller table i t false) as Hf.
    { eapply senda_handled_after; [done|by apply (senda_pres_asyntab caller k3 Q3)|done|done|by apply Hall]. }
    destruct Hf as [[_ Hf]|Hf]; [left|by right]. by rewrite !privtab_upd_priv, decide_True.
Qed.

Lemma mini_senda_loses_nothing_witness :
  wp (mini_senda 20 4096 2) (λ r k', r = OK ∧ (∃ Q', ipc_inv k' Q' (λ _, []))) async_demo
  ∧ unsent async_demo 20 4096 0 async_demo_entry ∧ unsent async_demo 20 4096 1 async_demo_entry.
Proof.
  split; [|split; repeat split].
  eapply wp_mono; [by apply (mini_senda_loses_nothing async_demo _ _ 20 4096 2 async_demo_inv)|].
  intros r k' (-> & H & _). by split.
Defined.
