(* ===== verification/Receive.v ===== *)
(** * What a process receives, and in which order

    [mini_receive] (kernel/proc.c): notifications go before asynchronous messages, those go
    before the queue of blocked senders, which is served first come, first served; when there
    is nothing the process blocks, unless that would close a cycle of waiting processes. *)
From S2P Require Import Prelude LinkedList Kernel Endpoint Sched IpcInv Notify Async Ipc IpcRecv AsyncInv.

(** The pending notification that a receive looks at: none while a reply is awaited. *)
Definition notify_id (k : kstate) (caller src_p : Z) : Z :=
  if has (p_misc_flags (proctab k caller)) MF_REPLY_PEND then NULL_PRIV_ID else has_pending_notify k caller src_p.

(** Privilege ids with a pending notification belong to processes. *)
Definition notify_srcs_ok (k : kstate) (caller src_e src_p : Z) : Prop :=
  notify_id k caller src_p ≠ NULL_PRIV_ID →
  id_to_nr k (notify_id k caller src_p) ≠ NONE ∧ 0 ≤ notify_id k caller src_p ∧
  (src_e ≠ ANY → p_endpoint (proctab k (id_to_nr k (notify_id k caller src_p))) = src_e).

(** A notification from [src] has been taken. *)
Definition took_notify (k k' : kstate) (caller id : Z) : Prop :=
  let src := id_to_nr k id in
  get_sys_bit (s_notify_pending (priv_of k' caller)) id = false ∧
  delivering k' caller = true ∧ m_type (p_delivermsg (proctab k' caller)) = NOTIFY_MESSAGE ∧
  m_source (p_delivermsg (proctab k' caller)) = p_endpoint (proctab k src).

(** There is nothing to receive from [src_e]: always so while the send part of a SENDREC blocks. *)
Definition nothing_there (k : kstate) (C : Z → list Z) (caller src_e src_p : Z) : Prop :=
  sending k caller = false →
  notify_id k caller src_p = NULL_PRIV_ID ∧ Forall (λ n, acceptable src_e src_p n = false) (C caller).

Inductive recv_outcome (k : kstate) (C : Z → list Z) (caller src_e src_p flgs : Z) : Z → kstate → Prop :=
| recv_notify k' Q' :
    sending k caller = false → notify_id k caller src_p ≠ NULL_PRIV_ID → ipc_inv k' Q' C →
    took_notify k k' caller (notify_id k caller src_p) → recv_outcome k C caller src_e src_p flgs OK k'
| recv_async k' Q' :
    sending k caller = false → notify_id k caller src_p = NULL_PRIV_ID →
    has_pending_asend k caller src_p ≠ NULL_PRIV_ID →
    ipc_inv k' Q' C → delivering k' caller = true → recv_outcome k C caller src_e src_p flgs OK k'
| recv_queue k' :
    sending k caller = false → notify_id k caller src_p = NULL_PRIV_ID →
    took_from_queue k k' C caller src_e src_p → recv_outcome k C caller src_e src_p flgs OK k'
| recv_nothing k' Q' :
    nothing_there k C caller src_e src_p → has flgs NON_BLOCKING = true → ipc_inv k' Q' C →
    delivering k' caller = false → recv_outcome k C caller src_e src_p flgs ENOTREADY k'
| recv_locked k' Q' l :
    nothing_there k C caller src_e src_p → has flgs NON_BLOCKING = false → ipc_inv k' Q' C →
    delivering k' caller = false → chain (wait_next k') (Some src_p) l None → caller ∈ l →
    recv_outcome k C caller src_e src_p flgs ELOCKED k'
| recv_blocks k' Q' :
    nothing_there k C caller src_e src_p → has flgs NON_BLOCKING = false → ipc_inv k' Q' C →
    delivering k' caller = false → receiving k' caller = true → p_getfrom_e (proctab k' caller) = src_e →
    recv_outcome k C caller src_e src_p flgs OK k'.

(** ** Notifications *)

Lemma receive_notify_spec k Q caller src_e id :
  ipc_base k Q → receiving k caller = false → delivering k caller = false → 0 ≤ id →
  id_to_nr k id ≠ NONE → (src_e ≠ ANY → p_endpoint (proctab k (id_to_nr k id)) = src_e) →
  wp (receive_notify caller src_e id) (λ _ k', base_step k k' ∧ took_notify k k' caller id) k.
Proof.
  intros HB Hnr Hnd Hid Hnr' Hep. unfold receive_notify. wp_steps.
  apply wp_assert; [by rewrite (proj2 (Z.eqb_neq _ _) Hnr')|].
  unfold unset_notify_pending, modify_priv. wp_steps. set (k1 := upd_priv _ _ k).
  apply wp_assert; [by change (delivering k1 caller) with (delivering k caller); rewrite Hnd|].
  wp_steps. apply wp_assert.
  { change (proctab k1) with (proctab k). destruct (Z.eqb_spec src_e ANY); [done|].
    by rewrite Hep, Z.eqb_refl. }
  unfold BuildNotifyMessage, modify_proc, modify_priv. wp_steps.
  set (src := id_to_nr k id). set (f1 := λ p : proc, p <| p_delivermsg ::= notify_message k1 src caller |>).
  set (k2 := upd_priv _ (notify_taken src) (upd_proc caller f1 k1)).
  set (f2 := λ p : proc, p <| p_delivermsg ::= _ |> <| p_misc_flags ::= _ |>).
  pose proof (base_privtab k Q _ HB : ipc_base k1 Q) as HB1.
  destruct (base_step_upd_proc k1 Q caller f1) as [Hst1 HB1']; [done..|].
  pose proof (base_privtab _ Q _ HB1' : ipc_base k2 Q) as HB2.
  destruct (base_step_upd_proc k2 Q caller f2) as [Hst2 HB2']; [done..| |done|].
  { intros H. exfalso. change (receiving (upd_proc caller f1 k) caller = true) in H.
    unfold receiving in H, Hnr. by rewrite (rts_upd_same k caller f1) in H; [congruence|]. }
  destruct (base_step_IPC_STATUS (upd_proc caller f2 k2) Q caller (IPC_STATUS_CALL_TO NOTIFY) HB2') as [Hst3 _].
  split.
  { eapply base_step_trans; [by apply (base_step_privtab k Q)|]. eapply base_step_trans; [exact Hst1|].
    eapply base_step_trans; [by apply (base_step_privtab _ Q)|]. by eapply base_step_trans. }
  set (k3 := upd_proc caller _ (upd_proc caller f2 k2)).
  assert (proctab k3 caller = IPC_STATUS_ADD_CALL NOTIFY (f2 (f1 (proctab k caller)))) as Hp.
  { unfold k3, k2. rewrite !proctab_upd_proc, !decide_True by done. change (proctab (upd_priv ?i ?f ?k)) with (proctab k).
    by rewrite proctab_upd_proc, decide_True. }
  unfold took_notify, delivering. rewrite Hp. unfold IPC_STATUS_ADD_CALL.
  rewrite (IPC_STATUS_ADD_view p_misc_flags), (IPC_STATUS_ADD_view p_delivermsg) by done. split_and!.
  - assert (priv_id k3 caller = priv_id k caller) as Hpid.
    { unfold priv_id. rewrite Hp. unfold IPC_STATUS_ADD_CALL. by rewrite (IPC_STATUS_ADD_view p_priv). }
    unfold priv_of. rewrite Hpid. change (privtab k3) with (privtab k2). unfold k2.
    rewrite privtab_upd_priv. assert (∀ s, s_notify_pending (notify_taken src s) = s_notify_pending s) as Hnt
      by (intros s; unfold notify_taken; by repeat case_bool).
    assert (s_notify_pending (privtab k1 (priv_id k caller)) = unset_sys_bit id (s_notify_pending (priv_of k caller))) as Hbit.
    { unfold k1. rewrite privtab_upd_priv. by rewrite decide_True. }
    case_decide as Hi; rewrite ?Hnt, <-?Hi; change (privtab (upd_proc ?n ?f ?k)) with (privtab k); rewrite Hbit.
    all: rewrite get_unset_sys_bit by done; by rewrite Z.eqb_refl.
  - unfold f2. simpl. by apply has_set_self.
  - simpl. apply notify_message_type.
  - done.
Qed.

(** ** The three sources of messages *)

Lemma live_same_sender k k' Q n :
  ipc_base k Q → base_step k k' → live_same k k' →
  (has (rts k n) RTS_NO_ENDPOINT = false ∧ delay_ok k n) → has (rts k' n) RTS_NO_ENDPOINT = false ∧ delay_ok k' n.
Proof.
  intros HB Hst [Hk Hn] [H1 H2]. rewrite Hn. split; [done|].
  eapply delay_ok_keeps; eauto. apply (ip_free _ _ (proj2 Hst)).
Qed.
Lemma keeps_msg k k' n : keeps k k' →
  p_sendmsg (proctab k' n) = p_sendmsg (proctab k n) ∧ p_endpoint (proctab k' n) = p_endpoint (proctab k n).
Proof. intros Hk. pose proof (kp_view _ _ Hk n) as E. unfold keepview in E. by simplify_eq. Qed.

Lemma took_from_queue_before k k1 k' C caller src_e src_p :
  keeps k k1 → took_from_queue k1 k' C caller src_e src_p → took_from_queue k k' C caller src_e src_p.
Proof.
  intros Hk (l1 & sender & l2 & H1 & H2 & H3 & H4 & H5 & H6).
  destruct (keeps_msg _ _ sender Hk) as [Hm He]. rewrite Hm, He in H5. by exists l1, sender, l2.
Qed.

Section receive_now.
Context (k : kstate) (Q C : Z → list Z) (HI : ipc_inv k Q C) (caller src_e src_p flgs : Z).
Context (Hv : valid_slot caller) (Hnr : receiving k caller = false) (Hnd : delivering k caller = false).
Context (Hlive : ∀ n, n ∈ C caller → has (rts k n) RTS_NO_ENDPOINT = false ∧ delay_ok k n).
Context (Htab : ∀ n, table_ok k n) (Hsrcs : notify_srcs_ok k caller src_e src_p).

Lemma receive_async_spec :
  wp (if negb (has_pending_asend k caller src_p =? NULL_PRIV_ID) then
        r ← (if negb (src_p =? ANY) then try_one src_p caller else try_async caller);
        mret (r =? OK)
      else mret false) (λ got k',
    base_step k k' ∧ live_same k k' ∧ delivering k' caller = got ∧
    (got = true → has_pending_asend k caller src_p ≠ NULL_PRIV_ID)) k.
Proof using HI Hnr Hnd Htab.
  pose proof (ii_base _ _ _ HI) as HB.
  destruct (Z.eqb_spec (has_pending_asend k caller src_p) NULL_PRIV_ID) as [Hp|Hp]; simpl; wp_steps.
  { split_and!; [by split; eauto|apply live_same_refl|done..]. }
  eapply (wp_mono _ (λ r k', base_step k k' ∧ (r = OK → delivering k' caller = true) ∧
    (r ≠ OK → mailview (proctab k' caller) = mailview (proctab k caller)) ∧ live_same k k')).
  - destruct (src_p =? ANY); simpl; [by apply (try_async_loop_spec k Q)|].
    eapply wp_mono; [by apply (try_one_spec k Q)|]. intros r k' (H1 & _ & H2 & _ & H3 & H4). split_and!; try done.
    intros Hr. destruct (H2 Hr) as (i & _ & _ & t & _ & Hm & _). exact (f_equal snd Hm).
  - intros r k' (H1 & H2 & H3 & H4). wp_steps. split_and!; [done..| |done].
    destruct (Z.eqb_spec r OK) as [Hr|Hr]; [by apply H2|]. specialize (H3 Hr).
    unfold delivering in *. rewrite <-Hnd. exact (f_equal snd H3).
Qed.

Lemma receive_now_spec :
  sending k caller = false →
  wp (receive_now caller src_e src_p) (λ got k',
    if got then recv_outcome k C caller src_e src_p flgs OK k'
    else nothing_there k C caller src_e src_p ∧ base_step k k' ∧ delivering k' caller = false) k.
Proof using All.
  intros Hns. pose proof (ii_base _ _ _ HI) as HB. unfold receive_now. wp_steps. fold (notify_id k caller src_p).
  destruct (Z.eqb_spec (notify_id k caller src_p) NULL_PRIV_ID) as [Hn|Hn]; simpl.
  2: { destruct (Hsrcs Hn) as (H1 & H2 & H3). wp_steps.
       eapply wp_mono; [by apply (receive_notify_spec k Q)|]. intros [] k' [Hst Ht]. wp_steps.
       destruct (ipc_inv_step _ _ _ _ HI Hst) as [Q' HI']. by eapply recv_notify. }
  wp_steps. eapply wp_mono; [apply receive_async_spec|].
  intros got k1 (Hst1 & Hl1 & Hd1 & Hp1). destruct (ipc_inv_step _ _ _ _ HI Hst1) as [Q1 HI1].
  destruct got.
  - unfold modify_proc. wp_steps.
    destruct (base_step_IPC_STATUS k1 Q1 caller (IPC_STATUS_CALL_TO SENDA) (ii_base _ _ _ HI1)) as [Hst2 _].
    destruct (ipc_inv_step _ _ _ _ HI1 Hst2) as [Q2 HI2]. eapply recv_async; eauto.
    unfold delivering, IPC_STATUS_ADD_CALL. rewrite proctab_upd_proc, decide_True by done.
    by rewrite (IPC_STATUS_ADD_view p_misc_flags).
  - assert (receiving k1 caller = false) as Hnr1.
    { destruct (receiving k1 caller) eqn:E; [|done]. apply (ip_recv _ _ (proj2 Hst1)) in E. congruence. }
    assert (sending k1 caller = false) as Hns1 by by rewrite (ip_sending _ _ (proj2 Hst1)).
    eapply wp_mono; [apply (receive_queued_spec k1 Q1 C HI1 caller Hv Hnr1 Hd1)|].
    { intros n Hin. eapply live_same_sender; eauto. }
    { done. }
    intros got k2 Hgot. destruct got.
    + apply recv_queue; [done..|]. eapply took_from_queue_before; [apply Hl1|done].
    + by destruct Hgot as [-> HF].
Qed.
End receive_now.

(** The last step of a successful receive: no reply is awaited any more. *)
Definition reply_done (p : proc) : proc :=
  if has (p_misc_flags p) MF_REPLY_PEND then p <| p_misc_flags ::= clear_flag MF_REPLY_PEND |> else p.

Lemma reply_done_view {A} (f : proc → A) p :
  (∀ p, f (p <| p_misc_flags ::= clear_flag MF_REPLY_PEND |>) = f p) → f (reply_done p) = f p.
Proof. intros Hf. unfold reply_done. by case_bool. Qed.
Lemma reply_done_mail p : mailview (reply_done p) = mailview p.
Proof. apply reply_done_view. intros q. unfold mailview. simpl. by rewrite has_clear_other. Qed.

Lemma recv_outcome_done k C caller src_e src_p flgs r k' :
  recv_outcome k C caller src_e src_p flgs r k' →
  recv_outcome k C caller src_e src_p flgs r (upd_proc caller reply_done k').
Proof.
  set (k2 := upd_proc caller reply_done k').
  assert (∀ {A} (f : proc → A) n, (∀ p, f (reply_done p) = f p) → f (proctab k2 n) = f (proctab k' n)) as Hf.
  { intros A f n H. unfold k2. rewrite proctab_upd_proc. case_decide; subst; auto. }
  assert (∀ n, delivering k2 n = delivering k' n) as Hdel.
  { intros n. exact (f_equal snd (Hf _ mailview n reply_done_mail)). }
  assert (∀ n, rts k2 n = rts k' n) as Hr by (intros n; by apply rts_upd_same; intros; apply reply_done_view).
  assert (∀ Q' C', ipc_inv k' Q' C' → ipc_inv k2 Q' C') as Hinv.
  { intros Q' C' HI. destruct (base_step_upd_proc k' Q' caller reply_done) as [[_ HP] HB].
    - intros p. by apply (reply_done_view ipcview).
    - intros p. by apply (reply_done_view sview).
    - intros _. exact (f_equal snd (reply_done_mail (proctab k' caller))).
    - apply HI.
    - by eapply ipc_inv_pres. }
  assert (∀ n, priv_of k2 n = priv_of k' n) as Hpr.
  { intros n. unfold priv_of, priv_id. rewrite (Hf _ p_priv n); [done|]. intros p. by apply reply_done_view. }
  assert (∀ n, wait_next k2 n = wait_next k' n) as Hw.
  { intros n. unfold wait_next. rewrite !P_BLOCKEDON_eq. unfold sending, receiving. rewrite Hr.
    rewrite (Hf _ p_sendto_e n), (Hf _ p_getfrom_e n) by (intros p; by apply reply_done_view). done. }
  destruct 1.
  - eapply recv_notify; eauto. destruct H2 as (H2 & H3 & H4 & H5). unfold took_notify.
    rewrite Hpr, Hdel, (Hf _ p_delivermsg caller) by (intros p; by apply reply_done_view). by split_and!.
  - eapply recv_async; [done..|by eapply Hinv|by rewrite Hdel].
  - eapply recv_queue; eauto. destruct H1 as (l1 & sender & l2 & H1 & H2 & H3 & [Q' H4] & H5 & H6 & H7 & H8).
    exists l1, sender, l2. unfold sending, receiving. rewrite !Hr, (Hf _ mailview caller) by apply reply_done_mail.
    split_and!; eauto.
  - eapply recv_nothing; [done..|by eapply Hinv|by rewrite Hdel].
  - eapply recv_locked; [done..|by eapply Hinv|by rewrite Hdel| |done]. eapply chain_ext; [|done]. intros n _. by rewrite Hw.
  - eapply recv_blocks; [done..|by eapply Hinv|by rewrite Hdel|unfold receiving; by rewrite Hr|].
    by rewrite (Hf _ p_getfrom_e caller) by (intros p; by apply reply_done_view).
Qed.

(** What a process that calls [mini_receive] with a good source has to satisfy. *)
Record recv_pre (k : kstate) (Q C : Z → list Z) (caller src_e src_p : Z) : Prop := {
  rp_inv : ipc_inv k Q C;
  rp_valid : valid_slot caller;
  rp_used : slot_free k caller = false;
  rp_receiving : receiving k caller = false;
  rp_delivering : delivering k caller = false;
  (* the source: any process, or another live one *)
  rp_src : (src_e = ANY ∧ src_p = ANY) ∨
    (src_e ≠ ANY ∧ isokendpt k src_e = Some src_p ∧ src_p ≠ caller ∧ has (rts k src_p) RTS_NO_ENDPOINT = false);
  (* the receive part of a SENDREC that blocks is for the same process *)
  rp_sendrec : sending k caller = true → src_e = p_sendto_e (proctab k caller);
  (* queued senders are live, with their delayed signals in order *)
  rp_live : ∀ n, n ∈ C caller → has (rts k n) RTS_NO_ENDPOINT = false ∧ delay_ok k n;
  rp_tables : ∀ n, table_ok k n;
  rp_srcs : notify_srcs_ok k caller src_e src_p;
}.

Lemma receive_body_spec k Q C caller src_e src_p flgs :
  recv_pre k Q C caller src_e src_p →
  wp (receive_body caller src_e src_p flgs) (recv_outcome k C caller src_e src_p flgs) k.
Proof.
  intros [HI Hv Hfree Hnr Hnd Hsrc Hsr Hlive Htab Hsrcs]. unfold receive_body. wp_steps. rewrite isset_sending.
  eapply (wp_mono _ (λ (got : bool) k', if got then recv_outcome k C caller src_e src_p flgs OK k'
    else nothing_there k C caller src_e src_p ∧ base_step k k' ∧ delivering k' caller = false)).
  { destruct (sending k caller) eqn:Hs.
    - wp_steps. split_and!; [unfold nothing_there; congruence| |done]. split; [|done]. exists Q. apply HI.
    - by apply (receive_now_spec k Q C). }
  intros got k1 Hgot. destruct got.
  { unfold modify_proc. wp_steps. by apply recv_outcome_done. }
  destruct Hgot as (Hno & Hst & Hnd1). destruct (ipc_inv_step _ _ _ _ HI Hst) as [Q1 HI1]. destruct Hst as [_ HP].
  destruct (pres_fields _ _ HP caller) as (_ & _ & _ & _ & Hto & _).
  assert (receiving k1 caller = false) as Hnr1.
  { destruct (receiving k1 caller) eqn:E; [|done]. apply (ip_recv _ _ HP) in E. congruence. }
  eapply wp_mono; [apply (receive_block_spec k1 Q1 C HI1 caller src_e src_p Hv)|].
  - by rewrite (ip_free _ _ HP).
  - done.
  - done.
  - destruct Hsrc as [[-> _]|(_ & Hok & Hne & _)]; [by left|right]. split; [|done].
    by apply (isokendpt_pres k Q (ii_base _ _ _ HI)).
  - rewrite (ip_sending _ _ HP), Hto. done.
  - rewrite (ip_sending _ _ HP). intros H. by apply Hno.
  - intros r k' Hr. destruct (has flgs NON_BLOCKING) eqn:Hnb.
    + destruct Hr as [-> ->]. by eapply recv_nothing.
    + destruct Hr as [(-> & -> & l & Hl & Hin)|(-> & (Q' & HI') & Hg & Hrts)]; [by eapply recv_locked|].
      assert (receiving k' caller = true) as Hr'.
      { unfold receiving. rewrite Hrts. unfold rts_after_set. rewrite decide_True by done. by apply has_set_self. }
      eapply recv_blocks; try done. by apply (ib_deliver _ _ (ii_base _ _ _ HI')).
Qed.

(** Where the message goes does not matter. *)
Section set_buffer.
Context (k : kstate) (caller v : Z).
Let k1 := upd_proc caller (λ p, p <| p_delivermsg_vir := v |>) k.

Lemma set_buffer_view {A} (f : proc → A) n :
  (∀ p, f (p <| p_delivermsg_vir := v |>) = f p) → f (proctab k1 n) = f (proctab k n).
Proof. intros Hf. unfold k1. rewrite proctab_upd_proc. case_decide; subst; auto. Qed.
Lemma set_buffer_priv n : priv_of k1 n = priv_of k n.
Proof. unfold priv_of, priv_id. by rewrite (set_buffer_view p_priv). Qed.
Lemma set_buffer_rts n : rts k1 n = rts k n.
Proof. by apply rts_upd_same. Qed.
Lemma set_buffer_pending src_p :
  has_pending_notify k1 caller src_p = has_pending_notify k caller src_p ∧
  has_pending_asend k1 caller src_p = has_pending_asend k caller src_p.
Proof. unfold has_pending_notify, has_pending_asend, has_pending, nr_to_id. by rewrite !set_buffer_priv. Qed.
Lemma set_buffer_notify src_p : notify_id k1 caller src_p = notify_id k caller src_p.
Proof.
  unfold notify_id. rewrite (set_buffer_view p_misc_flags) by done. by destruct (set_buffer_pending src_p) as [-> _].
Qed.
Lemma set_buffer_keeps : keeps k k1.
Proof. by apply keeps_upd_proc. Qed.
Lemma set_buffer_inv Q C : ipc_inv k Q C → ipc_inv k1 Q C ∧ base_step k k1.
Proof.
  intros HI. pose proof (ii_base _ _ _ HI) as HB.
  destruct (base_step_upd_proc k Q caller (λ p, p <| p_delivermsg_vir := v |>)) as [Hst HB1]; [done..|].
  split; [|done]. eapply ipc_inv_pres; [done|apply Hst|done].
Qed.

Lemma set_buffer_pre Q C src_e src_p : recv_pre k Q C caller src_e src_p → recv_pre k1 Q C caller src_e src_p.
Proof.
  intros [HI Hv Hfree Hnr Hnd Hsrc Hsr Hlive Htab Hsrcs]. destruct (set_buffer_inv Q C HI) as [HI1 Hst].
  split; try done; unfold slot_free, receiving, sending, delivering; rewrite ?set_buffer_rts.
  - done.
  - done.
  - by rewrite (set_buffer_view p_misc_flags).
  - destruct Hsrc as [H|(H1 & H2 & H3 & H4)]; [by left|right]. rewrite (isokendpt_pres k Q (ii_base _ _ _ HI) k1 _ src_p);
      [done|apply Hst|done].
  - by rewrite (set_buffer_view p_sendto_e).
  - intros n Hn. rewrite set_buffer_rts. destruct (Hlive n Hn). split; [done|].
    eapply delay_ok_keeps; [apply HI|apply set_buffer_keeps| |done]. intros m. apply (ip_free _ _ (proj2 Hst)).
  - unfold notify_srcs_ok. rewrite set_buffer_notify, (set_buffer_view p_endpoint) by done. done.
Qed.

Lemma set_buffer_outcome C src_e src_p flgs r k' :
  recv_outcome k1 C caller src_e src_p flgs r k' → recv_outcome k C caller src_e src_p flgs r k'.
Proof.
  assert (nothing_there k1 C caller src_e src_p → nothing_there k C caller src_e src_p) as Hno.
  { unfold nothing_there, sending. by rewrite set_buffer_rts, set_buffer_notify. }
  assert (sending k1 caller = sending k caller) as Hs by (unfold sending; by rewrite set_buffer_rts).
  destruct (set_buffer_pending src_p) as [_ Ha].
  destruct 1; rewrite ?Hs, ?set_buffer_notify, ?Ha in *.
  - eapply recv_notify; eauto. destruct H2 as (H2 & H3 & H4 & H5). split; [exact H2|]. split; [exact H3|]. split; [exact H4|].
    rewrite H5. by apply (set_buffer_view p_endpoint).
  - by eapply recv_async.
  - apply recv_queue; [done..|]. eapply took_from_queue_before; [apply set_buffer_keeps|done].
  - eapply recv_nothing; eauto.
  - eapply recv_locked; eauto.
  - eapply recv_blocks; eauto.
Qed.
End set_buffer.


