(* ===== verification/SyncIpc.v ===== *)
(** * Who may call which IPC primitive

    [do_sync_ipc] and [do_ipc] (kernel/proc.c) are the gate in front of the primitives: they
    check the call number, the endpoint, the caller's IPC and trap masks, hold back calls of
    traced processes, and do nothing while the hardening code is in its unstable state. *)
From S2P Require Import Prelude LinkedList Kernel Endpoint Sched IpcInv Notify Async Ipc.

(** The policy. *)
Record sync_allowed (k : kstate) (caller call_nr e : Z) : Prop := {
  sa_known : call_nr ∈ [SEND; RECEIVE; SENDREC; NOTIFY; SENDNB; SENDA];
  (* the caller may use this primitive *)
  sa_trap : Z.testbit (s_trap_mask (priv_of k caller)) call_nr = true;
  (* the peer is a process in use that the caller may send to; only receiving may name ANY,
     and only SENDREC and RECEIVE may name a kernel task *)
  sa_peer : if e =? ANY then call_nr = RECEIVE
            else ∃ p, isokendpt k e = Some p ∧ (call_nr = RECEIVE ∨ may_send_to k caller p = true) ∧
                      (call_nr = SENDREC ∨ call_nr = RECEIVE ∨ iskerneln p = false);
}.

(** The primitive behind an allowed call. *)
Definition sync_primitive (caller call_nr e m_ptr : Z) : K Z :=
  if call_nr =? SENDREC then
    modify_proc caller (λ p, p <| p_misc_flags ::= set_flag MF_REPLY_PEND |>);;
    result ← mini_send caller e (UserPtr m_ptr) 0;
    if negb (result =? OK) then mret result else mini_receive caller e m_ptr 0
  else if call_nr =? SEND then mini_send caller e (UserPtr m_ptr) 0
  else if call_nr =? RECEIVE then
    modify_proc caller (λ p, p <| p_misc_flags ::= clear_flag MF_REPLY_PEND |>);;
    modify_proc caller IPC_STATUS_CLEAR;;
    mini_receive caller e m_ptr 0
  else if call_nr =? NOTIFY then mini_notify caller e
  else mini_send caller e (UserPtr m_ptr) NON_BLOCKING.

Lemma call_known_bounds call_nr :
  call_nr ∈ [SEND; RECEIVE; SENDREC; NOTIFY; SENDNB; SENDA] →
  (call_nr <? 0) || (IPCNO_HIGHEST <? call_nr) || (32 <=? call_nr) || negb (ipc_call_known call_nr) = false.
Proof.
  intros Hin. assert (ipc_call_known call_nr = true) as -> by by apply bool_decide_eq_true.
  rewrite !elem_of_cons, elem_of_nil in Hin. destruct Hin as [->|[->|[->|[->|[->|[->|[]]]]]]]; done.
Qed.

Lemma check_sync_ipc_allowed k caller call_nr e :
  match check_sync_ipc k caller call_nr e with
  | inl err => ~ sync_allowed k caller call_nr e ∧ err ∈ [ETRAPDENIED; EINVAL; EDEADSRCDST; ECALLDENIED]
  | inr _ => sync_allowed k caller call_nr e
  end.
Proof.
  assert (∀ x : Z, ETRAPDENIED ∈ [ETRAPDENIED; x; EDEADSRCDST; ECALLDENIED]) as Hin1 by (intros; left).
  assert (∀ P : Prop, ~ P → ∀ err, err ∈ [ETRAPDENIED; EINVAL; EDEADSRCDST; ECALLDENIED] →
    ~ P ∧ err ∈ [ETRAPDENIED; EINVAL; EDEADSRCDST; ECALLDENIED]) as Hno by done.
  unfold check_sync_ipc.
  destruct ((call_nr <? 0) || _ || _ || _) eqn:Hk.
  { apply Hno; [|left]. intros []. by rewrite call_known_bounds in Hk. }
  assert (call_nr ∈ [SEND; RECEIVE; SENDREC; NOTIFY; SENDNB; SENDA] ∧ 0 ≤ call_nr) as [Hknown Hpos].
  { apply orb_false_elim in Hk as [[[Hk1 _]%orb_false_elim _]%orb_false_elim Hk4].
    apply negb_false_iff, bool_decide_eq_true in Hk4. split; [done|]. by apply Z.ltb_ge. }
  assert (has (s_trap_mask (priv_of k caller)) (Z.shiftl 1 call_nr) = Z.testbit (s_trap_mask (priv_of k caller)) call_nr) as ->.
  { rewrite Z.shiftl_1_l. by apply has_bit. }
  destruct (Z.eqb_spec e ANY) as [He|He].
  - destruct (Z.eqb_spec call_nr RECEIVE) as [Hr|Hr]; simpl.
    + destruct (Z.testbit _ call_nr) eqn:Ht; simpl.
      * rewrite andb_false_r. simpl. split; [done..|]. by rewrite He.
      * apply Hno; [|left]. intros []. congruence.
    + apply Hno; [|right; left]. intros [_ _ Hp]. by rewrite He in Hp.
  - destruct (isokendpt k e) as [p|] eqn:Hok; simpl.
    2: { apply Hno; [|do 2 right; left]. intros [_ _ Hp]. rewrite (proj2 (Z.eqb_neq _ _) He) in Hp.
         destruct Hp as (p & ? & _). congruence. }
    assert (sync_allowed k caller call_nr e ↔ Z.testbit (s_trap_mask (priv_of k caller)) call_nr = true ∧
      (call_nr = RECEIVE ∨ may_send_to k caller p = true) ∧
      (call_nr = SENDREC ∨ call_nr = RECEIVE ∨ iskerneln p = false)) as Hiff.
    { split.
      - intros [_ Ht Hp]. rewrite (proj2 (Z.eqb_neq _ _) He) in Hp. destruct Hp as (p' & ? & ? & ?). simplify_eq. done.
      - intros (Ht & H1 & H2). split; [done..|]. rewrite (proj2 (Z.eqb_neq _ _) He). eauto. }
    destruct (negb (call_nr =? RECEIVE) && negb (may_send_to k caller p)) eqn:Hm.
    { apply andb_prop in Hm as [Hm1%negb_true_iff%Z.eqb_neq Hm2%negb_true_iff].
      apply Hno; [|do 3 right; left]. rewrite Hiff. intros (_ & [?|?] & _); congruence. }
    assert (call_nr = RECEIVE ∨ may_send_to k caller p = true) as Hms.
    { apply andb_false_iff in Hm as [Hm%negb_false_iff%Z.eqb_eq|Hm%negb_false_iff]; auto. }
    destruct (Z.testbit _ call_nr) eqn:Ht; simpl.
    2: { apply Hno; [|left]. rewrite Hiff. naive_solver. }
    destruct (Z.eqb_spec call_nr SENDREC) as [Hs|Hs], (Z.eqb_spec call_nr RECEIVE) as [Hr|Hr]; simpl; try (apply Hiff; by auto).
    destruct (iskerneln p) eqn:Hkn; simpl; [|apply Hiff; by auto].
    apply Hno; [|left]. rewrite Hiff. naive_solver.
Qed.

(** C20. The gate of synchronous IPC is exact: [do_sync_ipc] runs the primitive precisely for
    the calls the policy allows; every other call returns one of four error codes and leaves
    the kernel state, the caller's flags included, as it was. *)
Theorem do_sync_ipc_gate k caller call_nr e m_ptr :
  call_nr ≠ SENDA →
  (sync_allowed k caller call_nr e → do_sync_ipc caller call_nr e m_ptr k = sync_primitive caller call_nr e m_ptr k) ∧
  (~ sync_allowed k caller call_nr e →
   ∃ err, err ∈ [ETRAPDENIED; EINVAL; EDEADSRCDST; ECALLDENIED] ∧ do_sync_ipc caller call_nr e m_ptr k = Ret (err, k)).
Proof.
  intros Hne. pose proof (check_sync_ipc_allowed k caller call_nr e) as Hchk.
  unfold do_sync_ipc, assert_, gets, mbind, M_bind. rewrite (proj2 (Z.eqb_neq _ _) Hne). cbn [negb].
  destruct (check_sync_ipc k caller call_nr e) as [err|p].
  - destruct Hchk as [Hno Herr]. split; [by intros ?%Hno|]. intros _. by exists err.
  - split; [|by intros ?%(λ H, H Hchk)]. intros [Hk _ _]. unfold sync_primitive.
    rewrite !elem_of_cons, elem_of_nil in Hk. destruct Hk as [->|[->|[->|[->|[->|[->|[]]]]]]]; done.
Qed.

Lemma do_sync_ipc_gate_witness :
  ~ sync_allowed ipc_demo 20 SEND 0 ∧
  ∃ err, err ∈ [ETRAPDENIED; EINVAL; EDEADSRCDST; ECALLDENIED] ∧ do_sync_ipc 20 SEND 0 4096 ipc_demo = Ret (err, ipc_demo).
Proof.
  assert (~ sync_allowed ipc_demo 20 SEND 0) as Hno by by intros [_ H _].
  split; [exact Hno|]. by apply (do_sync_ipc_gate ipc_demo 20 SEND 0 4096).
Defined.
