(* ===== verification/HMem.v ===== *)
(** * Physical memory and page tables, as the hardening code uses them

    The constants of kernel/arch/i386/htype.h and the macros of machine/vm.h; reading and
    writing physical memory ([phys_get32], [phys_set32], [cpy_frames], [cmp_frames] of
    kernel/arch/i386/memory.c); walking a linked list of blocks.

    Physical memory is a total function of the address of a 32-bit word: the copies go through
    the kernel's own mapping of memory and do not fault. *)
From S2P Require Import Prelude LinkedList Kernel.

(** ** Constants *)

Definition MAP_NONE : Z := 0xFFFFFFFE.
Definition WORKING_SET_SIZE : Z := 32768.
Definition HARDENING_MEM_EVENTS : Z := 10000.
Definition HARDENING_SHARED_REGIONS : Z := 50.
Definition HARDENING_SHARED_PROCS : Z := 100.
Definition H_DISABLE : Z := 0.
Definition H_ENABLE : Z := 1.
(** [HME_SLOT_FREE], [PRAM_SLOT_FREE], [HSR_SLOT_FREE] and [HSP_SLOT_FREE]. *)
Definition HSLOT_FREE : Z := 1.
Definition RESTORE_FOR_SECOND_RUN : Z := 1.
Definition RESTORE_FOR_FISRT_RUN : Z := 2.
Definition NO_HARD_RUN : Z := 0.
Definition FIRST_RUN : Z := 1.
Definition SECOND_RUN : Z := 2.
Definition VM_RUN : Z := 3.
Definition FIRST_STEPPING : Z := 4.
Definition H_STEPPING : Z := 4.
Definition H_YES : Z := 1.
Definition H_NO : Z := 0.
Definition VM_HANDLED_PF_ABS_WS : Z := -2.
Definition VM_HANDLED_NO_ACESS : Z := -3.
Definition VM_HANDLED_NO_PRESENT : Z := -4.
Definition VM_VADDR_NOT_FOUND : Z := -6.
Definition PROC_NOT_SHARING : Z := -7.
Definition VM_HANDLED_GLOBAL : Z := -8.
Definition VM_HANDLED_BIG : Z := -9.
Definition RO_PAGE_FIRST_RUN : Z := 1.
Definition RO_PAGE_SECOND_RUN : Z := 2.
Definition K_HANDLE_PF : Z := 6.
Definition NORMAL_PF : Z := 1.
Definition PRAM_LAST_PF : Z := 2.
Definition HGET_PF : Z := 0x2000.
Definition IWS_PF_FIRST : Z := 0x4000.
Definition IWS_PF_SECOND : Z := 0x8000.
Definition IWS_MOD_KERNEL : Z := 0x10000.
Definition FWS : Z := 0x20000.
Definition WS_SHARED : Z := 0x40000.
Definition H_HAS_NULL_PRAM : Z := 0x80000.
Definition H_TO_UPDATE : Z := 0x100000.
Definition H_FORK : Z := 0x200000.
Definition H_EXEC : Z := 0x400000.
Definition CPY_RAM_FIRST : Z := 0.
Definition CPY_RAM_PRAM : Z := 2.
Definition CMP_FAILED : Z := 3.
Definition CPY_RAM_FIRST_STEPPING : Z := 8.
Definition ABORT_PE : Z := 0x10.
Definition PROC_TO_HARD : Z := 2.
Definition PROC_SHARING_MEM : Z := 4.
Definition REG_SIZE : Z := 32.
Definition FROM_EXEC : Z := 0x10.
Definition PE_END_IN_NMI : Z := 7.

Definition I386_PAGE_SIZE : Z := 4096.
Definition I386_VM_PT_ENTRIES : Z := 1024.
Definition I386_VM_DIR_ENTRIES : Z := 1024.
Definition I386_VM_PRESENT : Z := 0x001.
Definition I386_VM_WRITE : Z := 0x002.
Definition I386_VM_USER : Z := 0x004.
Definition I386_VM_DIRTY : Z := 0x040.
Definition I386_VM_BIGPAGE : Z := 0x080.
Definition I386_VM_GLOBAL : Z := 0x100.
Definition I386_VM_ADDR_MASK : Z := 0xFFFFF000.
Definition I386_VM_ADDR_MASK_INV : Z := 0x00000FFF.
Definition I386_VM_PDE (v : Z) : Z := Z.shiftr v 22.
Definition I386_VM_PTE (v : Z) : Z := Z.land (Z.shiftr v 12) 0x3FF.
Definition I386_VM_PFA (e : Z) : Z := Z.land e I386_VM_ADDR_MASK.

(** ** Memory *)

Definition phys_get32 (a : Z) : K Z := gets (λ k, phys k a).
Definition set_phys (a v : Z) (k : kstate) : kstate := k <| phys ::= λ m, upd m a v |>.
Definition phys_set32 (a v : Z) : K unit := modify (set_phys a v).

Definition in_frame (f a : Z) : bool := (f <=? a) && (a <? f + I386_PAGE_SIZE).
Definition copy_frame (src dst : Z) (m : Z → Z) : Z → Z :=
  λ a, if in_frame dst a then m (src + (a - dst)) else m a.
Definition cpy_frames (src dst : Z) : K unit := modify (λ k, k <| phys ::= copy_frame src dst |>).

(** The words of a frame. *)
Definition frame_words : list Z := (λ i, 4 * i) <$> seqZ 0 (I386_PAGE_SIZE / 4).
Definition cmp_frames (k : kstate) (frame1 frame2 : Z) : bool :=
  forallb (λ i, phys k (frame1 + i) =? phys k (frame2 + i)) frame_words.

(** Where the page table entry of a virtual address is: [pte_a + pte], with [pte_a] from the
    page directory entry [root + pde]. *)
Definition pde_addr (root v : Z) : Z := root + 4 * I386_VM_PDE v.
Definition pte_addr (m : Z → Z) (root v : Z) : Z := I386_VM_PFA (m (pde_addr root v)) + 4 * I386_VM_PTE v.

Definition check_pt_entry (pte_v : Z) : Z :=
  if negb (has pte_v I386_VM_PRESENT) then VM_HANDLED_NO_PRESENT
  else if negb (has pte_v I386_VM_USER) then VM_HANDLED_NO_ACESS
  else if has pte_v I386_VM_GLOBAL then VM_HANDLED_GLOBAL
  else if has pte_v I386_VM_BIGPAGE then VM_HANDLED_BIG
  else if negb (has pte_v I386_VM_WRITE) then VM_HANDLED_NO_ACESS
  else OK.

(** ** Linked lists of blocks *)

(** Long enough for every list of blocks of a table. *)
Definition HLIST_FUEL : nat := Z.to_nat WORKING_SET_SIZE.
Arguments HLIST_FUEL : simpl never.

(** [while (b) { body; b = b->next; }]: the next block is read after the body. *)
Fixpoint walk (fuel : nat) (next : kstate → Z → option Z) (start : option Z) (body : Z → K unit) : K unit :=
  match start with
  | None => mret ()
  | Some b =>
      match fuel with
      | O => panic "list does not end"
      | S fuel' =>
          body b;;
          n ← gets (λ k, next k b);
          walk fuel' next n body
      end
  end.

(** The same loop with an early [return]: [body] gives the value to return, if any. *)
Fixpoint walk_ret {A} (fuel : nat) (next : kstate → Z → option Z) (start : option Z) (body : Z → K (option A))
  : K (option A) :=
  match start with
  | None => mret None
  | Some b =>
      match fuel with
      | O => panic "list does not end"
      | S fuel' =>
          r ← body b;
          match r with
          | Some v => mret (Some v)
          | None => n ← gets (λ k, next k b); walk_ret fuel' next n body
          end
      end
  end.

(** Walks that only look. *)
Fixpoint find_block (fuel : nat) (next : Z → option Z) (start : option Z) (stop : Z → bool) : option Z :=
  match start, fuel with
  | Some b, S fuel' => if stop b then Some b else find_block fuel' next (next b) stop
  | _, _ => None
  end.
Fixpoint count_blocks (fuel : nat) (next : Z → option Z) (start : option Z) (p : Z → bool) : Z :=
  match start, fuel with
  | Some b, S fuel' => (if p b then 1 else 0) + count_blocks fuel' next (next b) p
  | _, _ => 0
  end.
(** [while (b->next) b = b->next;]. *)
Fixpoint last_block (fuel : nat) (next : Z → option Z) (b : Z) : Z :=
  match fuel with
  | O => b
  | S fuel' => match next b with Some b' => last_block fuel' next b' | None => b end
  end.

(** [do { offset++; b++; } while (!(b->flags & SLOT_FREE) && b < END)]: the block where the
    search for a free slot stops.  END is the last slot of the table. *)
Fixpoint scan_slot (fuel : nat) (free : Z → bool) (end_ b : Z) : Z :=
  match fuel with
  | O => b
  | S fuel' => if negb (free (b + 1)) && (b + 1 <? end_) then scan_slot fuel' free end_ (b + 1) else b + 1
  end.
