(* ===== verification/WorkingSet.v ===== *)
(** * The working set of a hardened process, and its memory events

    kernel/arch/i386/pram.c (the list of blocks of a process), us0h.c (refreshing the copies of
    a page), sch.c (memory the kernel has written on behalf of the process) and hm.c
    ([init_hardening]).

    A block ([struct pram_mem_block]) describes a page of the process: frame [us0] holds the
    committed content, [us1] and [us2] the copies that the first and the second run write to.
    Blocks come from the table [working_set]; the blocks of a process form a linked list from
    [p_lus1_us2].  The time stamps that the code accumulates for statistics are left out. *)
From S2P Require Import Prelude LinkedList Kernel HMem.

Definition upd_pmb (b : Z) (f : pram_mem_block → pram_mem_block) (k : kstate) : kstate :=
  k <| working_set ::= λ t, upd t b (f (t b)) |>.
Definition modify_pmb (b : Z) (f : pram_mem_block → pram_mem_block) : K unit := modify (upd_pmb b f).
Definition set_pmb_flag (b f : Z) : K unit := modify_pmb b (λ x, x <| pmb_flags ::= set_flag f |>).
Definition clear_pmb_flag (b f : Z) : K unit := modify_pmb b (λ x, x <| pmb_flags ::= clear_flag f |>).
Definition modify_hproc (p : Z) (f : hproc → hproc) : K unit := modify_proc p (λ q, q <| p_h ::= f |>).
Definition hp (k : kstate) (p : Z) : hproc := p_h (proctab k p).
Definition pmb_next (k : kstate) (b : Z) : option Z := next_pmb (working_set k b).

(** The page of an address, and how many pages [len] bytes at [a] cover. *)
Definition page_base (a : Z) : Z :=
  u32 (I386_VM_PDE a * I386_VM_PT_ENTRIES * I386_PAGE_SIZE + I386_VM_PTE a * I386_PAGE_SIZE).
Definition n_pages_covered (a len : Z) : Z := u32 (len + (a - page_base a) - 1) / (4 * 1024) + 1.
Definition same_page (k : kstate) (pde pte b : Z) : bool :=
  (I386_VM_PTE (vaddr (working_set k b)) =? pte) && (I386_VM_PDE (vaddr (working_set k b)) =? pde).

(** ** Looking up blocks *)

Definition look_up_pte (k : kstate) (p pde pte : Z) : option Z :=
  if 0 <? p_lus1_us2_size (hp k p)
  then find_block HLIST_FUEL (pmb_next k) (p_lus1_us2 (hp k p)) (same_page k pde pte)
  else None.

(** Not set when the list is empty. *)
Definition look_up_unique_pte (k : kstate) (p pde pte : Z) : option Z :=
  if 0 <? p_lus1_us2_size (hp k p)
  then Some (count_blocks HLIST_FUEL (pmb_next k) (p_lus1_us2 (hp k p)) (same_page k pde pte))
  else None.

Definition look_up_lastpf_pte (p : Z) : K (option Z) :=
  found ← gets (λ k, if 0 <? p_lus1_us2_size (hp k p)
    then find_block HLIST_FUEL (pmb_next k) (p_lus1_us2 (hp k p)) (λ b, has (pmb_flags (working_set k b)) PRAM_LAST_PF)
    else None);
  match found with
  | Some b => clear_pmb_flag b PRAM_LAST_PF;; mret (Some b)
  | None => mret None
  end.

(** ** Allocating blocks *)

Definition pmb_free (k : kstate) (b : Z) : bool := has (pmb_flags (working_set k b)) HSLOT_FREE.
Definition pmb_taken (x : pram_mem_block) : pram_mem_block :=
  x <| pmb_flags ::= clear_flag HSLOT_FREE |> <| us1 := MAP_NONE |> <| us2 := MAP_NONE |>
    <| us0 := MAP_NONE |> <| vaddr := MAP_NONE |> <| next_pmb := None |>.

Definition get_pmb : K Z :=
  first ← gets (λ k, pmb_free k 0);
  if first : bool then modify_pmb 0 pmb_taken;; mret 0
  else
    b ← gets (λ k, scan_slot HLIST_FUEL (pmb_free k) (WORKING_SET_SIZE - 1) 0);
    if WORKING_SET_SIZE <=? b then panic "ALERT BLOCK LIST IS FULL STOP STOP"
    else modify_pmb b pmb_taken;; mret b.

(** Insert the block at the end of the list of the process. *)
Definition link_pmb (p b : Z) : K unit :=
  size ← gets (λ k, p_lus1_us2_size (hp k p));
  first ← gets (λ k, p_lus1_us2 (hp k p));
  (if size =? 0 then modify_hproc p (λ h, h <| p_lus1_us2 := Some b |>)
   else match first with
        | None => panic "NULL next_pmb"
        | Some f =>
            l ← gets (λ k, last_block HLIST_FUEL (pmb_next k) f);
            modify_pmb l (λ x, x <| next_pmb := Some b |>);;
            modify_pmb b (λ x, x <| next_pmb := None |>)
        end);;
  modify_pmb b (λ x, x <| pmb_id := size |>);;
  modify_hproc p (λ h, h <| p_lus1_us2_size ::= λ n, n + 1 |>).

Definition add_pmb (p pfa v pte : Z) : K Z :=
  b ← get_pmb;
  modify_pmb b (λ x, x <| us0 := pfa |> <| vaddr := u32 (v + pte * I386_PAGE_SIZE) |>);;
  (if pfa =? 0 then set_pmb_flag b H_HAS_NULL_PRAM else mret ());;
  link_pmb p b;;
  mret b.

Definition add_pmb_vaddr (p pfa va us1_ us2_ : Z) : K Z :=
  b ← get_pmb;
  modify_pmb b (λ x, x <| us0 := pfa |> <| vaddr := va |> <| us1 := us1_ |> <| us2 := us2_ |>);;
  link_pmb p b;;
  mret b.

(** One page of [add_region_to_ws]. *)
Definition add_page_to_ws (p root va us1_ us2_ : Z) : K unit :=
  pfa ← gets (λ k, I386_VM_PFA (phys k (pte_addr (phys k) root va)));
  found ← gets (λ k, look_up_pte k p (I386_VM_PDE va) (I386_VM_PTE va));
  b ← (match found with
       | None => add_pmb_vaddr p pfa va us1_ us2_
       | Some b => modify_pmb b (λ x, x <| us0 := pfa |>);; mret b
       end);
  modify_pmb b (λ x, if has (pmb_flags x) H_FORK then x <| pmb_flags := clear_flag H_FORK (pmb_iflags x) |> else x);;
  modify_pmb b (λ x, if has (pmb_flags x) H_EXEC then x <| pmb_flags := clear_flag H_EXEC (pmb_iflags x) |> else x);;
  set_pmb_flag b H_TO_UPDATE.

Definition add_region_to_ws (p root r_base_addr length us1_ us2_ : Z) : K Z :=
  forM_ (seqZ 0 (n_pages_covered r_base_addr length))
    (λ i, add_page_to_ws p root (u32 (page_base r_base_addr + i * 4 * 1024)) us1_ us2_);;
  mret OK.

(** ** Freeing blocks *)

Definition pmb_freed (x : pram_mem_block) : pram_mem_block :=
  x <| pmb_flags := HSLOT_FREE |> <| vaddr := MAP_NONE |> <| pmb_id := 0 |>
    <| us0 := MAP_NONE |> <| us1 := MAP_NONE |> <| us2 := MAP_NONE |>.

Fixpoint free_pmb_loop (fuel : nat) (p pde pte : Z) (prev : option Z) (pmb : option Z) : K unit :=
  match pmb, fuel with
  | None, _ => mret ()
  | Some b, O => panic "list does not end"
  | Some b, S fuel' =>
      here ← gets (λ k, same_page k pde pte b);
      if here : bool then
        modify_pmb b pmb_freed;;
        modify_hproc p (λ h, h <| p_lus1_us2_size ::= λ n, n - 1 |>);;
        n ← gets (λ k, pmb_next k b);
        match prev with
        | Some pr => modify_pmb pr (λ x, x <| next_pmb := n |>)
        | None => modify_hproc p (λ h, h <| p_lus1_us2 := n |>)
        end
      else
        n ← gets (λ k, pmb_next k b);
        free_pmb_loop fuel' p pde pte (Some b) n
  end.

Definition free_pram_mem_block (p va : Z) : K unit :=
  size ← gets (λ k, p_lus1_us2_size (hp k p));
  if size <=? 0 then mret ()
  else
    first ← gets (λ k, p_lus1_us2 (hp k p));
    free_pmb_loop HLIST_FUEL p (I386_VM_PDE va) (I386_VM_PTE va) None first.

Definition free_pram_mem_blocks (p no_msg_to_vm : Z) : K unit :=
  size ← gets (λ k, p_lus1_us2_size (hp k p));
  if size <=? 0 then mret ()
  else
    first ← gets (λ k, p_lus1_us2 (hp k p));
    walk HLIST_FUEL pmb_next first (λ b,
      pmb ← gets (λ k, working_set k b);
      if has (pmb_flags pmb) H_TO_UPDATE && (no_msg_to_vm =? FROM_EXEC) then mret ()
      else free_pram_mem_block p (vaddr pmb));;
    if negb (no_msg_to_vm =? FROM_EXEC) then
      assert_ (λ k, p_lus1_us2_size (hp k p) =? 0) "free_pram_mem_blocks: size == 0";;
      assert_ (λ k, bool_decide (p_lus1_us2 (hp k p) = None)) "free_pram_mem_blocks: list == NULL"
    else mret ().

Definition free_pram_mem_block_vaddr (p raddr len : Z) : K unit :=
  size ← gets (λ k, p_lus1_us2_size (hp k p));
  if size <=? 0 then mret ()
  else
    forM_ (seqZ 0 (n_pages_covered raddr len)) (λ i,
      let va := u32 (page_base raddr + i * 4 * 1024) in
      found ← gets (λ k, look_up_pte k p (I386_VM_PDE va) (I386_VM_PTE va));
      match found with
      | None => mret ()
      | Some b => v ← gets (λ k, vaddr (working_set k b)); free_pram_mem_block p v
      end).

(** [set_fork_label] and [set_exec_label]. *)
Definition set_label (lbl p : Z) : K unit :=
  size ← gets (λ k, p_lus1_us2_size (hp k p));
  if size <=? 0 then mret ()
  else
    first ← gets (λ k, p_lus1_us2 (hp k p));
    walk HLIST_FUEL pmb_next first (λ b,
      modify_pmb b (λ x, x <| pmb_iflags := pmb_flags x |> <| pmb_flags := lbl |>)).
Definition set_fork_label : Z → K unit := set_label H_FORK.
Definition set_exec_label : Z → K unit := set_label H_EXEC.

(** ** Refreshing the copies of a page (us0h.c) *)

Definition has_copies (x : pram_mem_block) : bool :=
  negb (us0 x =? MAP_NONE) && negb (us1 x =? MAP_NONE) && negb (us2 x =? MAP_NONE).

Definition update_ws_us1_us2_data_vaddr (p va : Z) : K Z :=
  found ← gets (λ k, look_up_pte k p (I386_VM_PDE va) (I386_VM_PTE va));
  match found with
  | None => panic "update_ws_us1_us2_data_vaddr: NULL pmb"
  | Some b =>
      pmb ← gets (λ k, working_set k b);
      if has (pmb_flags pmb) H_EXEC then mret OK
      else if has_copies pmb then
        cpy_frames (us0 pmb) (us1 pmb);;
        cpy_frames (us0 pmb) (us2 pmb);;
        set_pmb_flag b IWS_MOD_KERNEL;;
        mret OK
      else mret OK
  end.

Definition update_ws_us1_us2_data_pmb (b : Z) : K Z :=
  pmb ← gets (λ k, working_set k b);
  if has_copies pmb then
    cpy_frames (us0 pmb) (us1 pmb);;
    cpy_frames (us0 pmb) (us2 pmb);;
    mret OK
  else mret OK.

Definition update_all_ws_us1_us2_data (p : Z) : K Z :=
  size ← gets (λ k, p_lus1_us2_size (hp k p));
  if size <=? 0 then mret OK
  else
    first ← gets (λ k, p_lus1_us2 (hp k p));
    r ← walk_ret HLIST_FUEL pmb_next first (λ b,
          r ← update_ws_us1_us2_data_pmb b; mret (if r =? OK then None else Some r));
    mret (default OK r).

(** The loop over the pages, left at the first failure. *)
Fixpoint update_pages (p : Z) (pages : list Z) : K Z :=
  match pages with
  | [] => mret OK
  | va :: pages' =>
      r ← update_ws_us1_us2_data_vaddr p va;
      if negb (r =? OK) then mret EFAULT else update_pages p pages'
  end.
Definition update_range_ws_us1_us2_data (p offset n : Z) : K Z :=
  update_pages p ((λ i, u32 (page_base offset + i * 4 * 1024)) <$> seqZ 0 n).
