(* ===== verification/HShared.v ===== *)
(** * Memory events and shared regions of hardened processes

    kernel/arch/i386/sch.c: ranges that the kernel has written into [us0] on behalf of a
    process, to be copied into [us1] and [us2] before its next run; kernel/arch/i386/smh.c:
    the regions that hardened processes share and the processes that share them;
    kernel/arch/i386/hm.c: [init_hardening]. *)
From S2P Require Import Prelude LinkedList Kernel HMem WorkingSet.

(** ** Memory events (sch.c) *)

Definition upd_hme (b : Z) (f : hardening_mem_event → hardening_mem_event) (k : kstate) : kstate :=
  k <| hardening_mem_events ::= λ t, upd t b (f (t b)) |>.
Definition modify_hme (b : Z) (f : hardening_mem_event → hardening_mem_event) : K unit := modify (upd_hme b f).
Definition hme_next (k : kstate) (b : Z) : option Z := next_hme (hardening_mem_events k b).
Definition hme_free (k : kstate) (b : Z) : bool := has (hme_flags (hardening_mem_events k b)) HSLOT_FREE.
Definition hme_taken (x : hardening_mem_event) : hardening_mem_event :=
  x <| hme_flags ::= clear_flag HSLOT_FREE |> <| next_hme := None |> <| addr_base := MAP_NONE |> <| nbytes := 0 |>.

Definition get_hme : K Z :=
  first ← gets (λ k, hme_free k 0);
  if first : bool then modify_hme 0 hme_taken;; mret 0
  else
    b ← gets (λ k, scan_slot HLIST_FUEL (hme_free k) (HARDENING_MEM_EVENTS - 1) 0);
    if HARDENING_MEM_EVENTS <=? b then panic "ALERT BLOCK LIST EVENTS IS FULL STOP STOP"
    else modify_hme b hme_taken;; mret b.

Definition look_up_hme (k : kstate) (p offset : Z) : option Z :=
  if p_nb_hardening_mem_events (hp k p) <=? 0 then None
  else find_block HLIST_FUEL (hme_next k) (p_hardening_mem_events (hp k p)) (λ b,
    (I386_VM_PTE (addr_base (hardening_mem_events k b)) =? I386_VM_PTE offset) &&
    (I386_VM_PDE (addr_base (hardening_mem_events k b)) =? I386_VM_PDE offset)).

Definition hme_range (offset size n : Z) (x : hardening_mem_event) : hardening_mem_event :=
  x <| addr_base := offset |> <| nbytes := size |> <| npages := n |>.

Definition add_hme_event (p offset size : Z) : K Z :=
  let n := n_pages_covered offset size in
  found ← gets (λ k, look_up_hme k p offset);
  match found with
  | None =>
      b ← get_hme;
      modify_hme b (hme_range offset size n);;
      nb ← gets (λ k, p_nb_hardening_mem_events (hp k p));
      first ← gets (λ k, p_hardening_mem_events (hp k p));
      (if nb =? 0 then modify_hproc p (λ h, h <| p_hardening_mem_events := Some b |>)
       else match first with
            | None => panic "NULL next_hme"
            | Some f =>
                l ← gets (λ k, last_block HLIST_FUEL (hme_next k) f);
                modify_hme l (λ x, x <| next_hme := Some b |>);;
                modify_hme b (λ x, x <| next_hme := None |>)
            end);;
      modify_hme b (λ x, x <| hme_id := nb |>);;
      modify_hproc p (λ h, h <| p_nb_hardening_mem_events := nb + 1 |>);;
      mret (nb + 1)
  | Some b =>
      few ← gets (λ k, npages (hardening_mem_events k b) <? n);
      (if few : bool then modify_hme b (hme_range offset size n) else mret ());;
      gets (λ k, p_nb_hardening_mem_events (hp k p))
  end.

Definition handle_hme_events (p : Z) : K Z :=
  nb ← gets (λ k, p_nb_hardening_mem_events (hp k p));
  if nb <=? 0 then mret OK
  else
    first ← gets (λ k, p_hardening_mem_events (hp k p));
    r ← walk_ret HLIST_FUEL hme_next first (λ b,
          e ← gets (λ k, hardening_mem_events k b);
          r ← update_range_ws_us1_us2_data p (addr_base e) (npages e);
          mret (if r =? OK then None else Some EFAULT));
    mret (default OK r).

Definition hme_freed (x : hardening_mem_event) : hardening_mem_event :=
  x <| hme_flags := HSLOT_FREE |> <| hme_id := 0 |> <| addr_base := 0 |> <| nbytes := 0 |> <| npages := 0 |>.

Fixpoint free_hme_loop (fuel : nat) (p id : Z) (prev : option Z) (hme : option Z) : K unit :=
  match hme, fuel with
  | None, _ => mret ()
  | Some b, O => panic "list does not end"
  | Some b, S fuel' =>
      here ← gets (λ k, hme_id (hardening_mem_events k b) =? id);
      if here : bool then
        modify_hme b hme_freed;;
        modify_hproc p (λ h, h <| p_nb_hardening_mem_events ::= λ n, n - 1 |>);;
        n ← gets (λ k, hme_next k b);
        match prev with
        | Some pr => modify_hme pr (λ x, x <| next_hme := n |>)
        | None => modify_hproc p (λ h, h <| p_hardening_mem_events := n |>)
        end
      else
        n ← gets (λ k, hme_next k b);
        free_hme_loop fuel' p id (Some b) n
  end.

Definition free_hardening_mem_event (p id : Z) : K Z :=
  nb ← gets (λ k, p_nb_hardening_mem_events (hp k p));
  if nb <=? 0 then mret 0
  else
    first ← gets (λ k, p_hardening_mem_events (hp k p));
    free_hme_loop HLIST_FUEL p id None first;;
    gets (λ k, p_nb_hardening_mem_events (hp k p)).

Definition free_hardening_mem_events (p : Z) : K unit :=
  nb ← gets (λ k, p_nb_hardening_mem_events (hp k p));
  if nb <=? 0 then mret ()
  else
    first ← gets (λ k, p_hardening_mem_events (hp k p));
    walk HLIST_FUEL hme_next first (λ b,
      id ← gets (λ k, hme_id (hardening_mem_events k b));
      free_hardening_mem_event p id;; mret ());;
    assert_ (λ k, p_nb_hardening_mem_events (hp k p) =? 0) "free_hardening_mem_events: 0";;
    assert_ (λ k, bool_decide (p_hardening_mem_events (hp k p) = None)) "free_hardening_mem_events: NULL".

(** ** Shared regions (smh.c) *)

Definition upd_hsr (b : Z) (f : hardening_shared_region → hardening_shared_region) (k : kstate) : kstate :=
  k <| hardening_shared_regions ::= λ t, upd t b (f (t b)) |>.
Definition modify_hsr (b : Z) (f : hardening_shared_region → hardening_shared_region) : K unit := modify (upd_hsr b f).
Definition upd_hsp (b : Z) (f : hardening_shared_proc → hardening_shared_proc) (k : kstate) : kstate :=
  k <| hardening_shared_procs ::= λ t, upd t b (f (t b)) |>.
Definition modify_hsp (b : Z) (f : hardening_shared_proc → hardening_shared_proc) : K unit := modify (upd_hsp b f).
Definition hsr_next (k : kstate) (b : Z) : option Z := next_hsr (hardening_shared_regions k b).
Definition hsp_next (k : kstate) (b : Z) : option Z := next_hsp (hardening_shared_procs k b).

Definition hsr_free (k : kstate) (b : Z) : bool := has (hsr_flags (hardening_shared_regions k b)) HSLOT_FREE.
Definition hsr_taken (x : hardening_shared_region) : hardening_shared_region :=
  x <| hsr_flags ::= clear_flag HSLOT_FREE |> <| next_hsr := None |> <| hsr_vaddr := 0 |> <| hsr_length := 0 |>
    <| r_hsp := None |>.
Definition get_hsr : K Z :=
  first ← gets (λ k, hsr_free k 0);
  if first : bool then modify_hsr 0 hsr_taken;; mret 0
  else
    b ← gets (λ k, scan_slot HLIST_FUEL (hsr_free k) (HARDENING_SHARED_REGIONS - 1) 0);
    if HARDENING_SHARED_REGIONS <=? b then panic "ALERT HARDENING_SHARED_REGIONS IS FULL STOP STOP"
    else modify_hsr b hsr_taken;; mret b.

Definition hsp_free (k : kstate) (b : Z) : bool := has (hsp_flags (hardening_shared_procs k b)) HSLOT_FREE.
Definition hsp_taken (x : hardening_shared_proc) : hardening_shared_proc :=
  x <| hsp_flags ::= clear_flag HSLOT_FREE |> <| next_hsp := None |> <| hsp_endpoint := 0 |>.
Definition get_hsp : K Z :=
  first ← gets (λ k, hsp_free k 0);
  if first : bool then modify_hsp 0 hsp_taken;; mret 0
  else
    b ← gets (λ k, scan_slot HLIST_FUEL (hsp_free k) (HARDENING_SHARED_PROCS - 1) 0);
    if HARDENING_SHARED_PROCS <=? b then panic "ALERT HARDENING_SHARED_REGIONS IS FULL STOP STOP"
    else modify_hsp b hsp_taken;; mret b.

Definition look_up_hsr (k : kstate) (p offset length rid : Z) : option Z :=
  if p_nb_hardening_shared_regions (hp k p) <=? 0 then None
  else find_block HLIST_FUEL (hsr_next k) (p_hardening_shared_regions (hp k p)) (λ b,
    let r := hardening_shared_regions k b in
    (hsr_vaddr r =? offset) && (length =? hsr_length r) && (r_id r =? rid)).
Definition look_up_hsp (k : kstate) (p hsr : Z) : option Z :=
  if n_hsp (hardening_shared_regions k hsr) <=? 0 then None
  else find_block HLIST_FUEL (hsp_next k) (r_hsp (hardening_shared_regions k hsr)) (λ b,
    hsp_endpoint (hardening_shared_procs k b) =? p_endpoint (proctab k p)).
Definition look_up_unique_hsp (k : kstate) (p : Z) : option Z :=
  if n_hsps k <=? 0 then None
  else find_block HLIST_FUEL (hsp_next k) (all_hsp_s k) (λ b,
    hsp_endpoint (hardening_shared_procs k b) =? p_endpoint (proctab k p)).
Definition look_up_unique_hsr (k : kstate) (rid : Z) : option Z :=
  if n_hsrs k <=? 0 then None
  else find_block HLIST_FUEL (hsr_next k) (all_hsr_s k) (λ b, r_id (hardening_shared_regions k b) =? rid).

(** Append [b] after the last element of the list that starts at [f]; the links are the same
    for the list of all regions and for the list of a process. *)
Definition append_hsr (f b : Z) : K unit :=
  l ← gets (λ k, last_block HLIST_FUEL (hsr_next k) f);
  modify_hsr l (λ x, x <| next_hsr := Some b |>);;
  modify_hsr b (λ x, x <| next_hsr := None |>).
Definition append_hsp (f b : Z) : K unit :=
  l ← gets (λ k, last_block HLIST_FUEL (hsp_next k) f);
  modify_hsp l (λ x, x <| next_hsp := Some b |>);;
  modify_hsp b (λ x, x <| next_hsp := None |>).

Definition add_all_hsr_s (b : Z) : K unit :=
  first ← gets all_hsr_s;
  (match first with
   | None => modify (λ k, k <| all_hsr_s := Some b |>)
   | Some f => append_hsr f b
   end);;
  modify (λ k, k <| n_hsrs ::= λ n, n + 1 |>).
Definition add_all_hsp_s (b : Z) : K unit :=
  first ← gets all_hsp_s;
  (match first with
   | None => modify (λ k, k <| all_hsp_s := Some b |>)
   | Some f => append_hsp f b
   end);;
  modify (λ k, k <| n_hsps ::= λ n, n + 1 |>).

Definition add_hsp (p hsr : Z) : K Z :=
  found ← gets (λ k, look_up_hsp k p hsr);
  match found with
  | Some _ => gets (λ k, n_hsp (hardening_shared_regions k hsr))
  | None =>
      known ← gets (λ k, look_up_unique_hsp k p);
      b ← (match known with
           | Some b => mret b
           | None =>
               b ← get_hsp;
               e ← gets (λ k, p_endpoint (proctab k p));
               n ← gets (λ k, n_hsp (hardening_shared_regions k hsr));
               modify_hsp b (λ x, x <| hsp_endpoint := e |> <| hsp_id := n |>);;
               add_all_hsp_s b;;
               mret b
           end);
      n ← gets (λ k, n_hsp (hardening_shared_regions k hsr));
      first ← gets (λ k, r_hsp (hardening_shared_regions k hsr));
      (if n =? 0 then modify_hsr hsr (λ x, x <| r_hsp := Some b |>)
       else match first with None => panic "NULL next_hsp" | Some f => append_hsp f b end);;
      modify_hsr hsr (λ x, x <| n_hsp := n + 1 |>);;
      mret (n + 1)
  end.

Definition add_hsr (p offset size rid : Z) : K Z :=
  found ← gets (λ k, look_up_hsr k p offset size rid);
  match found with
  | Some _ => gets (λ k, p_nb_hardening_shared_regions (hp k p))
  | None =>
      known ← gets (λ k, look_up_unique_hsr k rid);
      b ← (match known with
           | Some b => mret b
           | None =>
               b ← get_hsr;
               nb ← gets (λ k, p_nb_hardening_shared_regions (hp k p));
               modify_hsr b (λ x, x <| hsr_vaddr := offset |> <| hsr_length := size |> <| r_id := rid |> <| hsr_id := nb |>);;
               add_all_hsr_s b;;
               mret b
           end);
      nb ← gets (λ k, p_nb_hardening_shared_regions (hp k p));
      first ← gets (λ k, p_hardening_shared_regions (hp k p));
      (if nb =? 0 then modify_hproc p (λ h, h <| p_hardening_shared_regions := Some b |>)
       else match first with None => panic "NULL next_hsr" | Some f => append_hsr f b end);;
      add_hsp p b;;
      modify_hproc p (λ h, h <| p_nb_hardening_shared_regions := nb + 1 |>);;
      mret (nb + 1)
  end.

Definition look_up_page_in_hsr (k : kstate) (p va : Z) : Z :=
  if p_nb_hardening_shared_regions (hp k p) <=? 0 then VM_VADDR_NOT_FOUND
  else if negb (has (p_hflags (hp k p)) PROC_SHARING_MEM) then PROC_NOT_SHARING
  else match find_block HLIST_FUEL (hsr_next k) (p_hardening_shared_regions (hp k p)) (λ b,
               let r := hardening_shared_regions k b in
               (hsr_vaddr r <=? va) && (va <=? u32 (hsr_vaddr r + hsr_length r))) with
       | Some _ => OK
       | None => VM_VADDR_NOT_FOUND
       end.

Definition look_up_hsr_vaddr (k : kstate) (p va size : Z) : option Z :=
  if p_nb_hardening_shared_regions (hp k p) <=? 0 then None
  else find_block HLIST_FUEL (hsr_next k) (p_hardening_shared_regions (hp k p)) (λ b,
    let r := hardening_shared_regions k b in
    (hsr_vaddr r <=? u32 (va + size)) && (u32 (va + size) <=? u32 (hsr_vaddr r + hsr_length r))).

(** The events go to [rp] itself, once per process that shares the region. *)
Definition enable_hme_event_in_procs (rp va size : Z) : K unit :=
  nb ← gets (λ k, p_nb_hardening_shared_regions (hp k rp));
  if nb <=? 0 then mret ()
  else
    found ← gets (λ k, look_up_hsr_vaddr k rp va size);
    match found with
    | None => panic "enable_hme_event_in_procs: NULL hsr"
    | Some hsr =>
        first ← gets (λ k, r_hsp (hardening_shared_regions k hsr));
        walk HLIST_FUEL hsp_next first (λ _, add_hme_event rp va size;; mret ())
    end.

(** Remove from the processes of region [hsr] the one with the endpoint of [p]. *)
Fixpoint free_hsp_loop (fuel : nat) (p hsr : Z) (prev hsp : option Z) : K unit :=
  match hsp, fuel with
  | None, _ => mret ()
  | Some b, O => panic "list does not end"
  | Some b, S fuel' =>
      here ← gets (λ k, hsp_endpoint (hardening_shared_procs k b) =? p_endpoint (proctab k p));
      n ← gets (λ k, hsp_next k b);
      if here : bool then
        modify_hsr hsr (λ x, x <| n_hsp ::= λ n, n - 1 |>);;
        match prev with
        | Some pr => modify_hsp pr (λ x, x <| next_hsp := n |>)
        | None => modify_hsr hsr (λ x, x <| r_hsp := n |>)
        end
      else free_hsp_loop fuel' p hsr (Some b) n
  end.
Definition free_hsp_from_hsr (p hsr : Z) : K Z :=
  first ← gets (λ k, r_hsp (hardening_shared_regions k hsr));
  free_hsp_loop HLIST_FUEL p hsr None first;;
  gets (λ k, n_hsp (hardening_shared_regions k hsr)).

Fixpoint free_all_hsr_loop (fuel : nat) (rid : Z) (prev hsr : option Z) : K unit :=
  match hsr, fuel with
  | None, _ => mret ()
  | Some b, O => panic "list does not end"
  | Some b, S fuel' =>
      here ← gets (λ k, r_id (hardening_shared_regions k b) =? rid);
      n ← gets (λ k, hsr_next k b);
      if here : bool then
        modify (λ k, k <| n_hsrs ::= λ n, n - 1 |>);;
        match prev with
        | Some pr => modify_hsr pr (λ x, x <| next_hsr := n |>)
        | None => modify (λ k, k <| all_hsr_s := n |>)
        end
      else free_all_hsr_loop fuel' rid (Some b) n
  end.
Definition free_hsr_from_all_hsr_s (phsr : Z) : K Z :=
  rid ← gets (λ k, r_id (hardening_shared_regions k phsr));
  first ← gets all_hsr_s;
  free_all_hsr_loop HLIST_FUEL rid None first;;
  gets n_hsrs.

Fixpoint free_all_hsp_loop (fuel : nat) (p : Z) (prev hsp : option Z) : K unit :=
  match hsp, fuel with
  | None, _ => mret ()
  | Some b, O => panic "list does not end"
  | Some b, S fuel' =>
      here ← gets (λ k, hsp_endpoint (hardening_shared_procs k b) =? p_endpoint (proctab k p));
      n ← gets (λ k, hsp_next k b);
      if here : bool then
        modify (λ k, k <| n_hsps ::= λ n, n - 1 |>);;
        modify_hsp b (λ x, x <| hsp_endpoint := 0 |> <| hsp_flags := HSLOT_FREE |> <| hsp_id := 0 |>);;
        match prev with
        | Some pr => modify_hsp pr (λ x, x <| next_hsp := n |>)
        | None => modify (λ k, k <| all_hsp_s := n |>)
        end
      else free_all_hsp_loop fuel' p (Some b) n
  end.
Definition free_hsp_from_all_hsp_s (p : Z) : K Z :=
  first ← gets all_hsp_s;
  free_all_hsp_loop HLIST_FUEL p None first;;
  gets n_hsps.

Fixpoint free_hsr_loop (fuel : nat) (p id : Z) (prev hsr : option Z) : K unit :=
  match hsr, fuel with
  | None, _ => mret ()
  | Some b, O => panic "list does not end"
  | Some b, S fuel' =>
      here ← gets (λ k, hsr_id (hardening_shared_regions k b) =? id);
      if here : bool then
        free_hsp_from_hsr p b;;
        unused ← gets (λ k, bool_decide (r_hsp (hardening_shared_regions k b) = None));
        (if unused : bool then
           modify_hsr b (λ x, x <| hsr_flags := HSLOT_FREE |> <| hsr_id := 0 |> <| hsr_vaddr := 0 |> <| hsr_length := 0 |>);;
           free_hsr_from_all_hsr_s b;; mret ()
         else mret ());;
        modify_hproc p (λ h, h <| p_nb_hardening_shared_regions ::= λ n, n - 1 |>);;
        n ← gets (λ k, hsr_next k b);
        match prev with
        | Some pr => modify_hsr pr (λ x, x <| next_hsr := n |>)
        | None => modify_hproc p (λ h, h <| p_hardening_shared_regions := n |>)
        end
      else
        n ← gets (λ k, hsr_next k b);
        free_hsr_loop fuel' p id (Some b) n
  end.
Definition free_hsr (p id : Z) : K Z :=
  first ← gets (λ k, p_hardening_shared_regions (hp k p));
  free_hsr_loop HLIST_FUEL p id None first;;
  gets (λ k, p_nb_hardening_shared_regions (hp k p)).

Definition free_hsrs (p : Z) : K unit :=
  nb ← gets (λ k, p_nb_hardening_shared_regions (hp k p));
  if nb <=? 0 then mret ()
  else
    first ← gets (λ k, p_hardening_shared_regions (hp k p));
    walk HLIST_FUEL hsr_next first (λ b,
      id ← gets (λ k, hsr_id (hardening_shared_regions k b));
      free_hsr p id;; mret ());;
    assert_ (λ k, p_nb_hardening_shared_regions (hp k p) =? 0) "free_hsrs: 0";;
    assert_ (λ k, bool_decide (p_hardening_shared_regions (hp k p) = None)) "free_hsrs: NULL";;
    free_hsp_from_all_hsp_s p;;
    mret ().

(** ** [init_hardening] (hm.c) *)

(** Most variables that the function sets are locals that shadow the globals. *)
Definition init_tables (k : kstate) : kstate :=
  k <| working_set ::= λ t b, if (0 <=? b) && (b <? WORKING_SET_SIZE - 1)
         then t b <| pmb_flags := HSLOT_FREE |> <| vaddr := 0 |> <| pmb_id := 0 |> <| us0 := 0 |> <| us1 := 0 |>
                  <| us2 := 0 |> <| next_pmb := None |> else t b |>
    <| hardening_mem_events ::= λ t b, if (0 <=? b) && (b <? HARDENING_MEM_EVENTS - 1)
         then mk_hme 0 HSLOT_FREE 0 0 0 None else t b |>
    <| hardening_shared_regions ::= λ t b, if (0 <=? b) && (b <? HARDENING_SHARED_REGIONS - 1)
         then mk_hsr 0 HSLOT_FREE 0 0 0 None None 0 else t b |>
    <| hardening_shared_procs ::= λ t b, if (0 <=? b) && (b <? HARDENING_SHARED_PROCS - 1)
         then mk_hsp 0 HSLOT_FREE 0 None else t b |>.
Definition init_hardening : K unit :=
  modify_h (λ h, h <| h_can_start_hardening := 0 |> <| could_inject := H_YES |>);;
  modify init_tables.

(** [reset_hardening_attri] (hcow.c). *)
Definition reset_hardening_attri (p : Z) : K unit :=
  modify_hproc p (λ h, h <| p_hflags := 0 |> <| p_lus1_us2 := None |> <| p_lus1_us2_size := 0 |>
    <| p_workingset_size := 0 |> <| p_remaining_ins := 0 |> <| p_ins_first := 0 |> <| p_ins_secnd := 0 |>
    <| p_ins_last := 0 |> <| p_start_count_ins := 0 |> <| p_hardening_mem_events := None |>
    <| p_nb_hardening_mem_events := 0 |> <| p_hardening_shared_regions := None |>
    <| p_nb_hardening_shared_regions := 0 |>).
