(* ===== verification/Pram.v ===== *)
(** * Copy on write for hardened processes (kernel/arch/i386/pram.c)

    [set_pe_mem_to_ro] maps the pages of a process to the copies of the run that starts and
    takes away the right to write; [check_vaddr_2] answers the page faults that this causes;
    [vm_reset_pram] ends a run: it commits the second run's copies, rolls back, or prepares
    the next run.  ([vm_setpt_root_to_ro], the older version of [set_pe_mem_to_ro], goes over
    the whole page table.)  The page tables are words of physical memory. *)
From S2P Require Import Prelude LinkedList Kernel HMem WorkingSet HShared.

(** [(pte_v & I386_VM_ADDR_MASK_INV) | frame]. *)
Definition remap (frame pte_v : Z) : Z := Z.lor (Z.land pte_v I386_VM_ADDR_MASK_INV) frame.
(** [(pte_v & I386_VM_ADDR_MASK_INV) | I386_VM_WRITE | frame]. *)
Definition remap_rw (frame pte_v : Z) : Z :=
  Z.lor (Z.lor (Z.land pte_v I386_VM_ADDR_MASK_INV) I386_VM_WRITE) frame.

(** ** [check_vaddr_2] *)

(** The page has its copies: map the one of this run; [None] when the page waits for VM after
    a fork. *)
Definition fault_entry (step : Z) (pmb : pram_mem_block) (pte_v : Z) : option (Z * Z) :=
  if step =? FIRST_RUN then
    if has (pmb_flags pmb) H_FORK then None else Some (remap_rw (us1 pmb) pte_v, IWS_PF_FIRST)
  else if step =? SECOND_RUN then
    if has (pmb_flags pmb) H_FORK then None else Some (remap_rw (us2 pmb) pte_v, IWS_PF_SECOND)
  else Some (pte_v, 0).

(** The result and what the caller finds in [*rw], when it is set. *)
Definition check_vaddr_2 (p root va : Z) : K (Z * option Z) :=
  step ← gets (λ k, h_step (kh k));
  assert_ (λ _, (step =? FIRST_RUN) || (step =? SECOND_RUN) || (step =? FIRST_STEPPING)) "check_vaddr_2: h_step";;
  (if step =? FIRST_RUN then modify_h (λ h, h <| pagefault_addr_1 := va |>) else mret ());;
  (if step =? SECOND_RUN then modify_h (λ h, h <| pagefault_addr_2 := va |>) else mret ());;
  pde_v ← phys_get32 (pde_addr root va);
  if negb (check_pt_entry pde_v =? OK) then mret (VM_HANDLED_NO_ACESS, None)
  else
    let pte_a := I386_VM_PFA pde_v + 4 * I386_VM_PTE va in
    pte_v ← phys_get32 pte_a;
    if negb (has pte_v I386_VM_PRESENT) then mret (VM_HANDLED_NO_PRESENT, None)
    else
      found ← gets (λ k, look_up_pte k p (I386_VM_PDE va) (I386_VM_PTE va));
      match found with
      | None => mret (VM_HANDLED_PF_ABS_WS, None)
      | Some b =>
          pmb ← gets (λ k, working_set k b);
          if negb (us1 pmb =? MAP_NONE) && negb (us2 pmb =? MAP_NONE) then
            match fault_entry step pmb pte_v with
            | None => mret (VM_HANDLED_PF_ABS_WS, None)
            | Some (pte_v', flag) =>
                set_pmb_flag b flag;;
                phys_set32 pte_a pte_v';;
                set_pmb_flag b HGET_PF;;
                mret (OK, Some K_HANDLE_PF)
            end
          else
            let rw := if step =? FIRST_RUN then Some RO_PAGE_FIRST_RUN
                      else if step =? SECOND_RUN then Some RO_PAGE_SECOND_RUN else None in
            (if step =? FIRST_RUN then set_pmb_flag b IWS_PF_FIRST
             else if step =? SECOND_RUN then set_pmb_flag b IWS_PF_SECOND else mret ());;
            set_pmb_flag b PRAM_LAST_PF;;
            set_pmb_flag b HGET_PF;;
            nblocks ← gets (λ k, look_up_unique_pte k p (I386_VM_PDE va) (I386_VM_PTE va));
            assert_ (λ _, default 0 nblocks <=? 1) "check_vaddr_2: nblocks <= 1";;
            mret (OK, rw)
      end.

(** ** [vm_reset_pram] *)

(** Throw the copies away: [us0] goes back into both, and the page is mapped to [us0]. *)
Definition reset_rollback (b pte_a pte_v : Z) : K unit :=
  clear_pmb_flag b IWS_PF_SECOND;;
  clear_pmb_flag b IWS_PF_FIRST;;
  clear_pmb_flag b HGET_PF;;
  clear_pmb_flag b IWS_MOD_KERNEL;;
  pmb ← gets (λ k, working_set k b);
  if (negb (us1 pmb =? MAP_NONE) || negb (us2 pmb =? MAP_NONE)) && negb (us0 pmb =? MAP_NONE) then
    (if negb (us1 pmb =? MAP_NONE) then cpy_frames (us0 pmb) (us1 pmb) else mret ());;
    (if negb (us2 pmb =? MAP_NONE) then cpy_frames (us0 pmb) (us2 pmb) else mret ());;
    phys_set32 pte_a (remap_rw (us0 pmb) pte_v)
  else mret ().

(** The end of the first run: note which pages were written. *)
Definition reset_first (b pte_a pte_v : Z) : K unit :=
  pmb ← gets (λ k, working_set k b);
  if negb (us1 pmb =? MAP_NONE) && negb (us0 pmb =? MAP_NONE) &&
     (has (pmb_flags pmb) HGET_PF || has pte_v I386_VM_DIRTY) then
    (if has (pmb_flags pmb) IWS_MOD_KERNEL && has pte_v I386_VM_DIRTY then set_pmb_flag b IWS_PF_FIRST else mret ());;
    phys_set32 pte_a (clear_flag I386_VM_DIRTY pte_v);;
    clear_pmb_flag b HGET_PF;;
    set_pmb_flag b FWS
  else mret ().

(** The comparison succeeded: the copy of the second run goes into [us0]. *)
Definition reset_commit (p b pte_a pte_v : Z) : K unit :=
  pmb ← gets (λ k, working_set k b);
  pte_v' ← (if negb (us2 pmb =? MAP_NONE) && negb (us0 pmb =? MAP_NONE) &&
               (has (pmb_flags pmb) HGET_PF || has pte_v I386_VM_DIRTY) then
              (if has (pmb_flags pmb) IWS_MOD_KERNEL && has pte_v I386_VM_DIRTY
               then set_pmb_flag b IWS_PF_SECOND else mret ());;
              cpy_frames (us2 pmb) (us0 pmb);;
              (if has (pmb_flags pmb) WS_SHARED
               then enable_hme_event_in_procs p (vaddr pmb) I386_PAGE_SIZE else mret ());;
              clear_pmb_flag b HGET_PF;;
              mret (clear_flag I386_VM_DIRTY pte_v)
            else mret pte_v);
  phys_set32 pte_a (remap_rw (us0 pmb) pte_v');;
  (if has (pmb_flags pmb) IWS_MOD_KERNEL then clear_pmb_flag b IWS_MOD_KERNEL else mret ()).

(** Back to the copies of the first run, to step through it. *)
Definition reset_stepping (b pte_a pte_v : Z) : K unit :=
  pmb ← gets (λ k, working_set k b);
  if negb (us1 pmb =? MAP_NONE) then
    phys_set32 pte_a (if has (pmb_flags pmb) IWS_PF_FIRST then remap_rw (us1 pmb) pte_v else remap (us1 pmb) pte_v)
  else mret ().

Definition reset_block (p root endcmp b : Z) : K unit :=
  v ← gets (λ k, vaddr (working_set k b));
  pde_v ← phys_get32 (pde_addr root v);
  let pte_a := I386_VM_PFA pde_v + 4 * I386_VM_PTE v in
  pte_v ← phys_get32 pte_a;
  if endcmp =? ABORT_PE then reset_rollback b pte_a pte_v
  else
    step ← gets (λ k, h_step (kh k));
    (if (step =? FIRST_RUN) && (endcmp =? CPY_RAM_FIRST) then reset_first b pte_a pte_v else mret ());;
    (if step =? SECOND_RUN then
       if endcmp =? CPY_RAM_PRAM then reset_commit p b pte_a pte_v
       else if endcmp =? CMP_FAILED then reset_rollback b pte_a pte_v
       else if endcmp =? CPY_RAM_FIRST_STEPPING then reset_stepping b pte_a pte_v
       else panic "Should never happen"
     else mret ()).

Definition vm_reset_pram (p root endcmp : Z) : K unit :=
  assert_ (λ k, negb (p_nr (proctab k p) =? VM_PROC_NR)) "vm_reset_pram: VM_PROC_NR";;
  size ← gets (λ k, p_lus1_us2_size (hp k p));
  if size <=? 0 then mret ()
  else
    first ← gets (λ k, p_lus1_us2 (hp k p));
    walk HLIST_FUEL pmb_next first (reset_block p root endcmp).

(** ** [set_pe_mem_to_ro] *)

(** The entry that the run uses: the run's copy, writable only if the page is known to be
    written, or [us0] without the right to write. *)
Definition run_entry (copy pf_flag : Z) (pmb : pram_mem_block) (pte_v : Z) : Z :=
  if negb (copy =? MAP_NONE) then
    let pte_v := remap copy pte_v in
    if negb (has (pmb_flags pmb) pf_flag) && negb (has (pmb_flags pmb) IWS_MOD_KERNEL)
    then clear_flag I386_VM_WRITE pte_v else pte_v
  else clear_flag I386_VM_WRITE pte_v.
Definition ro_entry (step : Z) (pmb : pram_mem_block) (pte_v : Z) : Z :=
  let pte_v := if step =? FIRST_RUN then run_entry (us1 pmb) IWS_PF_FIRST pmb pte_v
               else run_entry (us2 pmb) IWS_PF_SECOND pmb pte_v in
  let pte_v := if negb (us1 pmb =? MAP_NONE) && (us2 pmb =? MAP_NONE) then remap (us0 pmb) pte_v else pte_v in
  clear_flag I386_VM_DIRTY pte_v.

Definition set_block_to_ro (p root b : Z) : K unit :=
  v ← gets (λ k, vaddr (working_set k b));
  pde_v ← phys_get32 (pde_addr root v);
  if negb (check_pt_entry pde_v =? OK) then mret ()
  else
    let pte_a := I386_VM_PFA pde_v + 4 * I386_VM_PTE v in
    pte_v ← phys_get32 pte_a;
    if negb (check_pt_entry pte_v =? OK) then mret ()
    else
      pmb ← gets (λ k, working_set k b);
      shared ← gets (λ k, has (p_hflags (hp k p)) PROC_SHARING_MEM && negb (has (pmb_flags pmb) WS_SHARED) &&
                          (look_up_page_in_hsr k p (vaddr pmb) =? OK));
      (if shared : bool then set_pmb_flag b WS_SHARED else mret ());;
      pte_v' ← (if has (pmb_flags pmb) H_TO_UPDATE && negb (us1 pmb =? MAP_NONE) && negb (us2 pmb =? MAP_NONE) then
                  cpy_frames (us0 pmb) (us1 pmb);;
                  cpy_frames (us0 pmb) (us2 pmb);;
                  clear_pmb_flag b H_TO_UPDATE;;
                  mret (clear_flag I386_VM_DIRTY pte_v)
                else mret pte_v);
      step ← gets (λ k, h_step (kh k));
      if (step =? FIRST_RUN) && (I386_VM_PFA pte_v =? 0) then free_pram_mem_block p (vaddr pmb)
      else
        pmb' ← gets (λ k, working_set k b);
        phys_set32 pte_a (ro_entry step pmb' pte_v').

Definition set_pe_mem_to_ro (p root : Z) : K Z :=
  size ← gets (λ k, p_lus1_us2_size (hp k p));
  if size <=? 0 then mret OK
  else
    step ← gets (λ k, h_step (kh k));
    (if step =? FIRST_RUN then
       r ← handle_hme_events p;
       (if negb (r =? OK) then panic "vm_setpt_root_to_ro: handle_hme_events failed" else mret ());;
       free_hardening_mem_events p
     else mret ());;
    first ← gets (λ k, p_lus1_us2 (hp k p));
    walk HLIST_FUEL pmb_next first (set_block_to_ro p root);;
    mret OK.

(** ** [vm_setpt_root_to_ro] *)

(** As [run_entry], for a page that a fork has labelled [us0] is used. *)
Definition pt_entry_copy (copy pf_flag : Z) (pmb : pram_mem_block) (pte_v : Z) : Z :=
  if negb (copy =? MAP_NONE) then
    let pte_v := remap (if has (pmb_flags pmb) H_FORK then us0 pmb else copy) pte_v in
    if negb (has (pmb_flags pmb) pf_flag) && negb (has (pmb_flags pmb) IWS_MOD_KERNEL)
    then clear_flag I386_VM_WRITE pte_v else pte_v
  else clear_flag I386_VM_WRITE pte_v.
Definition pt_entry_ro (step : Z) (pmb : pram_mem_block) (pte_v : Z) : Z :=
  let pte_v := if step =? FIRST_RUN then pt_entry_copy (us1 pmb) IWS_PF_FIRST pmb pte_v
               else pt_entry_copy (us2 pmb) IWS_PF_SECOND pmb pte_v in
  let pte_v := if negb (us1 pmb =? MAP_NONE) && (us2 pmb =? MAP_NONE) then remap (us0 pmb) pte_v else pte_v in
  clear_flag I386_VM_DIRTY pte_v.

Definition vm_setpt_entry (p pagetable v pte : Z) : K unit :=
  pte_v ← phys_get32 (pagetable + 4 * pte);
  if negb (check_pt_entry pte_v =? OK) then mret ()
  else
    let va := u32 (v + pte * I386_PAGE_SIZE) in
    found ← gets (λ k, look_up_pte k p (I386_VM_PDE va) (I386_VM_PTE va));
    b ← (match found with Some b => mret b | None => add_pmb p (I386_VM_PFA pte_v) v pte end);
    pmb ← gets (λ k, working_set k b);
    shared ← gets (λ k, has (p_hflags (hp k p)) PROC_SHARING_MEM && negb (has (pmb_flags pmb) WS_SHARED) &&
                        (look_up_page_in_hsr k p (vaddr pmb) =? OK));
    (if shared : bool then set_pmb_flag b WS_SHARED else mret ());;
    step ← gets (λ k, h_step (kh k));
    phys_set32 (pagetable + 4 * pte) (pt_entry_ro step pmb pte_v).

Definition vm_setpt_to_ro (p pagetable v : Z) : K unit :=
  assert_ (λ _, pagetable mod I386_PAGE_SIZE =? 0) "vm_setpt_to_ro: pagetable";;
  assert_ (λ k, negb (p_nr (proctab k p) =? VM_PROC_NR)) "vm_setpt_to_ro: VM_PROC_NR";;
  forM_ (seqZ 0 I386_VM_PT_ENTRIES) (vm_setpt_entry p pagetable v).

Definition vm_setpt_root_to_ro (p root : Z) : K unit :=
  assert_ (λ _, root mod I386_PAGE_SIZE =? 0) "vm_setpt_root_to_ro: root";;
  assert_ (λ k, negb (p_nr (proctab k p) =? VM_PROC_NR)) "vm_setpt_root_to_ro: VM_PROC_NR";;
  step ← gets (λ k, h_step (kh k));
  (if step =? FIRST_RUN then
     r ← handle_hme_events p;
     (if negb (r =? OK) then panic "vm_setpt_root_to_ro: handle_hme_events failed" else mret ());;
     free_hardening_mem_events p
   else mret ());;
  forM_ (seqZ 0 I386_VM_DIR_ENTRIES) (λ pde,
    pde_v ← phys_get32 (root + 4 * pde);
    if negb (check_pt_entry pde_v =? OK) then mret ()
    else vm_setpt_to_ro p (I386_VM_PFA pde_v) (pde * I386_VM_PT_ENTRIES * I386_PAGE_SIZE)).
