(* ===== verification/PramInv.v ===== *)
(** * What the copy-on-write code does to memory

    The working set of a hardened process with its frames and page table entries kept apart
    ([ws_wf]); the loops of pram.c over the blocks are sequences of independent changes, one
    per block, so that what they do to memory can be stated block by block. *)
From S2P Require Import Prelude LinkedList Kernel HMem WorkingSet HShared Pram.

(** ** Walking a list of blocks *)

Lemma wp_walk fuel next (nx : Z → option Z) start l body (I : list Z → kstate → Prop) k :
  chain nx start l None → (length l ≤ fuel)%nat → I l k →
  (∀ b l' k1, I (b :: l') k1 → wp (body b) (λ _ k2, next k2 b = nx b ∧ I l' k2) k1) →
  wp (walk fuel next start body) (λ _, I []) k.
Proof.
  intros Hc Hlen HI Hstep. revert start fuel k Hc Hlen HI.
  induction l as [|b l IH]; intros start fuel k Hc Hlen HI; simpl in Hc.
  { subst. destruct fuel; by wp_steps. }
  destruct Hc as [-> Hc]. destruct fuel as [|fuel]; simpl in Hlen; [lia|]. cbn [walk].
  wp_steps. eapply wp_mono; [by apply Hstep|]. intros [] k2 [Hn HI2]. wp_steps. rewrite Hn.
  apply IH; [done|lia|done].
Qed.

(** ** Independent changes of memory *)

Section fold_local.
Context (step : Z → (Z → Z) → Z → Z) (fp rd : Z → Z → Prop) (m0 : Z → Z) (l : list Z).
Definition agree (m : Z → Z) (P : Z → Prop) : Prop := ∀ a, P a → m a = m0 a.

(** What [step b] writes depends on what it reads, and it writes its footprint only. *)
Context (Hlocal : ∀ b m a, b ∈ l → agree m (rd b) → fp b a → step b m a = step b m0 a)
  (Hframe : ∀ b m a, b ∈ l → agree m (rd b) → ~ fp b a → step b m a = m a)
  (Hsep : ∀ b b' a, b ∈ l → b' ∈ l → b ≠ b' → fp b a → ~ fp b' a ∧ ~ rd b' a).

Definition done_upto (dn : list Z) (m : Z → Z) : Prop :=
  (∀ b a, b ∈ dn → fp b a → m a = step b m0 a) ∧ (∀ a, (∀ b, b ∈ dn → ~ fp b a) → m a = m0 a).

Lemma done_agree dn b m : dn ⊆ l → b ∈ l → b ∉ dn → done_upto dn m → agree m (rd b).
Proof using Hsep.
  intros Hdn Hb Hn [_ Hrest] a Ha. apply Hrest. intros b' Hb' Hf.
  destruct (Hsep b' b a) as [_ ?]; auto. by intros ->.
Qed.
Lemma done_step dn b m :
  dn ⊆ l → b ∈ l → b ∉ dn → done_upto dn m → done_upto (dn ++ [b]) (step b m).
Proof using Hlocal Hframe Hsep.
  intros Hdn Hb Hn HD. pose proof (done_agree _ _ _ Hdn Hb Hn HD) as Hag. destruct HD as [Hdone Hrest]. split.
  - intros b' a [Hb'| ->%list_elem_of_singleton]%elem_of_app Hf; [|by apply Hlocal].
    assert (b' ≠ b) by (by intros ->). rewrite Hframe; [by apply Hdone|done..|].
    by eapply (Hsep b' b); auto.
  - intros a Ha. rewrite Hframe; [|done..|].
    + apply Hrest. intros b' Hb'. apply Ha. set_solver.
    + apply Ha. set_solver.
Qed.
Lemma done_nil : done_upto [] m0.
Proof. split; [|done]. by intros b a ?%elem_of_nil. Qed.
End fold_local.

(** States that differ in memory and in the blocks only. *)
Definition mem_only (k k' : kstate) : Prop :=
  k' = k <| phys := phys k' |> <| working_set := working_set k' |>.
Lemma mem_only_refl k : mem_only k k.
Proof. by destruct k. Qed.
Lemma mem_only_trans k1 k2 k3 : mem_only k1 k2 → mem_only k2 k3 → mem_only k1 k3.
Proof. unfold mem_only. intros H1 H2. rewrite H2, H1. by destruct k3. Qed.
Lemma mem_only_field {A} (f : kstate → A) k k' :
  mem_only k k' → (∀ k m w, f (k <| phys := m |> <| working_set := w |>) = f k) → f k' = f k.
Proof. intros -> Hf. apply Hf. Qed.

(** The part of a block that says where its page is. *)
Definition shape (x : pram_mem_block) : Z * Z * Z * Z * option Z := (vaddr x, us0 x, us1 x, us2 x, next_pmb x).

Section walk_blocks.
Context (k0 : kstate) (l : list Z) (start : option Z) (body : Z → K unit).
Context (step : Z → (Z → Z) → Z → Z) (fp rd : Z → Z → Prop) (R : Z → pram_mem_block → pram_mem_block → Prop).
Context (Hlocal : ∀ b m a, b ∈ l → agree (phys k0) m (rd b) → fp b a → step b m a = step b (phys k0) a)
  (Hframe : ∀ b m a, b ∈ l → agree (phys k0) m (rd b) → ~ fp b a → step b m a = m a)
  (Hsep : ∀ b b' a, b ∈ l → b' ∈ l → b ≠ b' → fp b a → ~ fp b' a ∧ ~ rd b' a).

(** What one round does. *)
Definition round_ok : Prop := ∀ b k, b ∈ l → mem_only k0 k → working_set k b = working_set k0 b →
  agree (phys k0) (phys k) (rd b) →
  wp (body b) (λ _ k', mem_only k k' ∧ (∀ a, phys k' a = step b (phys k) a) ∧
    (∀ b', b' ≠ b → working_set k' b' = working_set k b') ∧ R b (working_set k b) (working_set k' b) ∧
    shape (working_set k' b) = shape (working_set k b)) k.

(** What the loop has done. *)
Definition blocks_done (k' : kstate) : Prop :=
  mem_only k0 k' ∧ (∀ b a, b ∈ l → fp b a → phys k' a = step b (phys k0) a) ∧
  (∀ a, (∀ b, b ∈ l → ~ fp b a) → phys k' a = phys k0 a) ∧
  (∀ b, b ∈ l → R b (working_set k0 b) (working_set k' b) ∧ shape (working_set k' b) = shape (working_set k0 b)) ∧
  (∀ b, b ∉ l → working_set k' b = working_set k0 b).

Lemma walk_blocks fuel :
  chain (pmb_next k0) start l None → (length l ≤ fuel)%nat → round_ok →
  wp (walk fuel pmb_next start body) (λ _, blocks_done) k0.
Proof using Hlocal Hframe Hsep.
  intros Hc Hlen Hround. pose proof (chain_NoDup _ _ _ Hc) as Hnd.
  set (I := λ rem k, ∃ dn, l = dn ++ rem ∧ mem_only k0 k ∧ done_upto step fp (phys k0) dn (phys k) ∧
    (∀ b, b ∈ dn → R b (working_set k0 b) (working_set k b) ∧ shape (working_set k b) = shape (working_set k0 b)) ∧
    (∀ b, b ∉ dn → working_set k b = working_set k0 b)).
  eapply wp_mono; [apply (wp_walk fuel pmb_next (pmb_next k0) start l body I)|]; [done..| | |].
  - exists []. split_and!; [done|apply mem_only_refl|apply done_nil| |done]. by intros b ?%elem_of_nil.
  - intros b rem k1 (dn & Hl & Hmo & HD & Hdn & Hrest).
    assert (b ∈ l ∧ dn ⊆ l ∧ b ∉ dn) as (Hb & Hsub & Hnin).
    { rewrite Hl in Hnd |- *. apply NoDup_app in Hnd as (_ & Hd & _). split_and!; [set_solver|set_solver|].
      intros Hin. apply (Hd b Hin). by left. }
    eapply wp_mono; [apply Hround; [done..|by apply Hrest|]|].
    { eapply done_agree; [exact Hsep|done..]. }
    intros [] k2 (Hmo2 & Hph & Hother & HR & Hsh). split.
    { unfold pmb_next. rewrite (Hrest b Hnin) in Hsh. unfold shape in Hsh. by simplify_eq. }
    exists (dn ++ [b]). split_and!.
    + by rewrite Hl, <-app_assoc.
    + by eapply mem_only_trans.
    + destruct (done_step step fp rd (phys k0) l Hlocal Hframe Hsep dn b (phys k1) Hsub Hb Hnin HD) as [Hd1 Hd2].
      split; intros; rewrite Hph; auto.
    + intros b' [Hb'| ->%list_elem_of_singleton]%elem_of_app.
      * rewrite Hother by (by intros ->). by apply Hdn.
      * by rewrite <-(Hrest b Hnin).
    + intros b' Hb'. apply not_elem_of_app in Hb' as [Hb1 Hb2]. rewrite Hother by set_solver. by apply Hrest.
  - intros [] k' (dn & Hl & Hmo & [Hd1 Hd2] & Hdn & Hrest). rewrite app_nil_r in Hl. subst dn. by split_and!.
Qed.
End walk_blocks.

(** ** A well-formed working set *)

Definition block_frames (x : pram_mem_block) : list Z := filter (λ f, f ≠ MAP_NONE) [us0 x; us1 x; us2 x].

Record ws_wf (k : kstate) (p root : Z) (l : list Z) : Prop := {
  ww_nr : p_nr (proctab k p) ≠ VM_PROC_NR;
  ww_chain : chain (pmb_next k) (p_lus1_us2 (hp k p)) l None;
  ww_size : p_lus1_us2_size (hp k p) = Z.of_nat (length l);
  ww_len : (length l ≤ HLIST_FUEL)%nat;
  (* frames are page aligned and no two frames overlap *)
  ww_aligned : ∀ b f, b ∈ l → f ∈ block_frames (working_set k b) → I386_VM_PFA f = f;
  ww_distinct : ∀ b, b ∈ l → NoDup (block_frames (working_set k b));
  ww_frames : ∀ b b' f f' a, b ∈ l → b' ∈ l → f ∈ block_frames (working_set k b) →
    f' ∈ block_frames (working_set k b') → in_frame f a = true → in_frame f' a = true → b = b' ∧ f = f';
  (* nor do they hold the page directory or the page tables *)
  ww_tables : ∀ b b' f, b ∈ l → b' ∈ l → f ∈ block_frames (working_set k b) →
    in_frame f (pte_addr (phys k) root (vaddr (working_set k b'))) = false ∧
    in_frame f (pde_addr root (vaddr (working_set k b'))) = false;
  ww_dirs : ∀ b b', b ∈ l → b' ∈ l →
    pte_addr (phys k) root (vaddr (working_set k b)) ≠ pde_addr root (vaddr (working_set k b'));
  ww_entries : ∀ b b', b ∈ l → b' ∈ l →
    pte_addr (phys k) root (vaddr (working_set k b)) = pte_addr (phys k) root (vaddr (working_set k b')) → b = b';
}.

(** The page of block [b] is mapped to frame [f], writable. *)
Definition mapped_rw (m : Z → Z) (root v f : Z) : Prop :=
  I386_VM_PFA (m (pte_addr m root v)) = f ∧ has (m (pte_addr m root v)) I386_VM_WRITE = true.

Lemma in_frame_spec f a : in_frame f a = true ↔ f ≤ a < f + I386_PAGE_SIZE.
Proof. unfold in_frame. rewrite andb_true_iff, Z.leb_le, Z.ltb_lt. done. Qed.
Lemma in_frame_off f i : 0 ≤ i < I386_PAGE_SIZE → in_frame f (f + i) = true.
Proof. rewrite in_frame_spec. lia. Qed.
Lemma block_frames_elem x f : f ∈ block_frames x ↔ f ≠ MAP_NONE ∧ (f = us0 x ∨ f = us1 x ∨ f = us2 x).
Proof. unfold block_frames. rewrite list_elem_of_filter. set_solver. Qed.

Lemma remap_rw_spec f v : I386_VM_PFA f = f → I386_VM_PFA (remap_rw f v) = f ∧ has (remap_rw f v) I386_VM_WRITE = true.
Proof.
  intros Hf. unfold remap_rw. split.
  - unfold I386_VM_PFA in *. rewrite !Z.land_lor_distr_l, Hf, <-Z.land_assoc.
    change (Z.land I386_VM_ADDR_MASK_INV I386_VM_ADDR_MASK) with 0.
    change (Z.land I386_VM_WRITE I386_VM_ADDR_MASK) with 0. by rewrite Z.land_0_r.
  - apply has_true. intros H0. rewrite !Z.land_lor_distr_l in H0. apply Z.lor_eq_0_iff in H0 as [H0 _].
    apply Z.lor_eq_0_iff in H0 as [_ H0]. done.
Qed.

Lemma copy_frame_in src dst m i :
  0 ≤ i < I386_PAGE_SIZE → copy_frame src dst m (dst + i) = m (src + i).
Proof. intros Hi. unfold copy_frame. rewrite in_frame_off by done. f_equal. lia. Qed.
Lemma copy_frame_out src dst m a : in_frame dst a = false → copy_frame src dst m a = m a.
Proof. intros Ha. unfold copy_frame. by rewrite Ha. Qed.

(** [cpy_frames] to a frame that may be missing. *)
Definition copy_to (src dst : Z) (m : Z → Z) : Z → Z := if dst =? MAP_NONE then m else copy_frame src dst m.
Definition real_frame (f a : Z) : Prop := f ≠ MAP_NONE ∧ in_frame f a = true.
Lemma copy_to_in src dst m i : dst ≠ MAP_NONE → 0 ≤ i < I386_PAGE_SIZE → copy_to src dst m (dst + i) = m (src + i).
Proof. intros Hd Hi. unfold copy_to. rewrite (proj2 (Z.eqb_neq _ _) Hd). by apply copy_frame_in. Qed.
Lemma copy_to_out src dst m a : ~ real_frame dst a → copy_to src dst m a = m a.
Proof.
  intros Ha. unfold copy_to. destruct (Z.eqb_spec dst MAP_NONE); [done|]. apply copy_frame_out.
  destruct (in_frame dst a) eqn:E; [|done]. by destruct Ha.
Qed.
Lemma real_frame_off f a : real_frame f a → ∃ i, a = f + i ∧ 0 ≤ i < I386_PAGE_SIZE.
Proof. intros [_ Ha%in_frame_spec]. exists (a - f). lia. Qed.

Section geometry.
Context (k0 : kstate) (p root : Z) (l : list Z) (HW : ws_wf k0 p root l).
Definition blk (b : Z) : pram_mem_block := working_set k0 b.
Definition PA (b : Z) : Z := pte_addr (phys k0) root (vaddr (blk b)).
Definition DA (b : Z) : Z := pde_addr root (vaddr (blk b)).

Lemma agree_PA b m : agree (phys k0) m (eq (DA b)) → pte_addr m root (vaddr (blk b)) = PA b.
Proof. intros Ha. unfold PA, pte_addr. by rewrite Ha. Qed.

Lemma frame_elem0 b : us0 (blk b) ≠ MAP_NONE → us0 (blk b) ∈ block_frames (blk b).
Proof. intros. apply block_frames_elem. auto. Qed.
Lemma frame_elem1 b : us1 (blk b) ≠ MAP_NONE → us1 (blk b) ∈ block_frames (blk b).
Proof. intros. apply block_frames_elem. auto. Qed.
Lemma frame_elem2 b : us2 (blk b) ≠ MAP_NONE → us2 (blk b) ∈ block_frames (blk b).
Proof. intros. apply block_frames_elem. auto. Qed.

(** Inside a block the three frames are distinct. *)
Lemma frames_ne b :
  b ∈ l → us0 (blk b) ≠ MAP_NONE →
  (us1 (blk b) ≠ MAP_NONE → us1 (blk b) ≠ us0 (blk b)) ∧ (us2 (blk b) ≠ MAP_NONE → us2 (blk b) ≠ us0 (blk b)).
Proof using HW.
  intros Hb H0. pose proof (ww_distinct _ _ _ _ HW b Hb) as Hnd. fold (blk b) in Hnd. unfold block_frames in Hnd.
  rewrite !filter_cons in Hnd. rewrite decide_True in Hnd by done. apply NoDup_cons in Hnd as [Hn _].
  split; intros H1 He; apply Hn; rewrite <-He; repeat case_decide; set_solver.
Qed.

Lemma frame_not_table b b' f a : b ∈ l → b' ∈ l → f ∈ block_frames (blk b) → in_frame f a = true → a ≠ PA b' ∧ a ≠ DA b'.
Proof using HW.
  intros Hb Hb' Hf Ha. destruct (ww_tables _ _ _ _ HW b b' f Hb Hb' Hf) as [H1 H2].
  split; intros ->; unfold PA, DA, blk in Ha; congruence.
Qed.
End geometry.

(** ** Rolling back *)

Definition has_shadow (x : pram_mem_block) : bool :=
  (negb (us1 x =? MAP_NONE) || negb (us2 x =? MAP_NONE)) && negb (us0 x =? MAP_NONE).
Lemma has_shadow_us0 x : has_shadow x = true → us0 x ≠ MAP_NONE.
Proof. intros [_ H%negb_true_iff]%andb_prop. by apply Z.eqb_neq. Qed.

(** Flags of a page that has been rolled back. *)
Definition flags_rolled (f : Z) : Z :=
  clear_flag IWS_MOD_KERNEL (clear_flag HGET_PF (clear_flag IWS_PF_FIRST (clear_flag IWS_PF_SECOND f))).

Section rollback.
Context (k0 : kstate) (p root : Z) (l : list Z) (HW : ws_wf k0 p root l).
Local Notation blk := (blk k0).
Local Notation PA := (PA k0 root).
Local Notation DA := (DA k0 root).

Definition rb_step (b : Z) (m : Z → Z) : Z → Z :=
  let x := blk b in
  let pa := pte_addr m root (vaddr x) in
  if has_shadow x then upd (copy_to (us0 x) (us2 x) (copy_to (us0 x) (us1 x) m)) pa (remap_rw (us0 x) (m pa)) else m.
Definition rb_fp (b a : Z) : Prop :=
  has_shadow (blk b) = true ∧ (a = PA b ∨ real_frame (us1 (blk b)) a ∨ real_frame (us2 (blk b)) a).
Definition rb_rd (b a : Z) : Prop :=
  DA b = a ∨ (has_shadow (blk b) = true ∧ (a = PA b ∨ in_frame (us0 (blk b)) a = true)).

Lemma rb_agree_PA b m : agree (phys k0) m (rb_rd b) → pte_addr m root (vaddr (blk b)) = PA b.
Proof. intros Ha. apply agree_PA. intros a <-. apply Ha. by left. Qed.

Lemma us0_not_copied b a :
  b ∈ l → has_shadow (blk b) = true → in_frame (us0 (blk b)) a = true →
  ~ real_frame (us1 (blk b)) a ∧ ~ real_frame (us2 (blk b)) a.
Proof using HW.
  intros Hb Hs Ha. pose proof (has_shadow_us0 _ Hs) as H0. destruct (frames_ne k0 p root l HW b Hb H0) as [H1 H2].
  split; intros [Hn Hf].
  - destruct (ww_frames _ _ _ _ HW b b (us0 (blk b)) (us1 (blk b)) a); auto using frame_elem0, frame_elem1.
    by eapply H1; eauto.
  - destruct (ww_frames _ _ _ _ HW b b (us0 (blk b)) (us2 (blk b)) a); auto using frame_elem0, frame_elem2.
    by eapply H2; eauto.
Qed.

(** The new value of a cell of the footprint. *)
Lemma rb_step_value b m a :
  b ∈ l → agree (phys k0) m (rb_rd b) → rb_fp b a →
  rb_step b m a = if decide (a = PA b) then remap_rw (us0 (blk b)) (phys k0 (PA b))
                  else if in_frame (us2 (blk b)) a && negb (us2 (blk b) =? MAP_NONE)
                  then phys k0 (us0 (blk b) + (a - us2 (blk b))) else phys k0 (us0 (blk b) + (a - us1 (blk b))).
Proof using HW.
  intros Hb Hag [Hs Ha]. unfold rb_step. rewrite Hs, (rb_agree_PA b m Hag), upd_case.
  case_decide as Hpa; [by rewrite (Hag (PA b)) by (right; auto)|]. destruct Ha as [|Ha]; [done|].
  assert (∀ i, 0 ≤ i < I386_PAGE_SIZE → copy_to (us0 (blk b)) (us1 (blk b)) m (us0 (blk b) + i) = phys k0 (us0 (blk b) + i)) as Hsrc.
  { intros i Hi. pose proof (in_frame_off (us0 (blk b)) i Hi) as Hin.
    rewrite copy_to_out by (by apply us0_not_copied). apply Hag. right. auto. }
  destruct (in_frame (us2 (blk b)) a && negb (us2 (blk b) =? MAP_NONE)) eqn:E2.
  - apply andb_prop in E2 as [Hin Hne%negb_true_iff%Z.eqb_neq].
    destruct (real_frame_off (us2 (blk b)) a (conj Hne Hin)) as (i & -> & Hi).
    rewrite copy_to_in by done. rewrite Hsrc by done. f_equal. lia.
  - assert (~ real_frame (us2 (blk b)) a) as Hn2.
    { intros [Hne Hin]. by rewrite Hin, (proj2 (Z.eqb_neq _ _) Hne) in E2. }
    destruct Ha as [Ha|]; [|done]. rewrite copy_to_out by done.
    destruct (real_frame_off _ _ Ha) as (i & -> & Hi). destruct Ha as [Hne _]. rewrite copy_to_in by done.
    replace (us1 (blk b) + i - us1 (blk b)) with i by lia. apply Hag. right. split; [done|right].
    by apply in_frame_off.
Qed.

Lemma rb_local b m a : b ∈ l → agree (phys k0) m (rb_rd b) → rb_fp b a → rb_step b m a = rb_step b (phys k0) a.
Proof using HW. intros Hb Hag Ha. by rewrite !rb_step_value. Qed.

Lemma rb_frame b m a : b ∈ l → agree (phys k0) m (rb_rd b) → ~ rb_fp b a → rb_step b m a = m a.
Proof.
  intros Hb Hag Ha. unfold rb_step. destruct (has_shadow (blk b)) eqn:Hs; [|done].
  rewrite (rb_agree_PA b m Hag). unfold rb_fp in Ha. rewrite Hs in Ha.
  rewrite upd_ne by tauto. rewrite !copy_to_out by tauto. done.
Qed.

Lemma rb_sep b b' a : b ∈ l → b' ∈ l → b ≠ b' → rb_fp b a → ~ rb_fp b' a ∧ ~ rb_rd b' a.
Proof using HW.
  intros Hb Hb' Hne [Hs Ha].
  assert (∀ f f', f ∈ block_frames (blk b) → f' ∈ block_frames (blk b') → in_frame f a = true → in_frame f' a = true → False) as Hfr.
  { intros f f' H1 H2 H3 H4. by destruct (ww_frames _ _ _ _ HW b b' f f' a). }
  assert (∀ f', f' ∈ block_frames (blk b') → in_frame f' a = true → a ≠ PA b) as Hpa.
  { intros f' H1 H2. by eapply (frame_not_table k0 p root l HW b' b). }
  assert (a = PA b ∨ ∃ f, f ∈ block_frames (blk b) ∧ in_frame f a = true) as Hcases.
  { destruct Ha as [->|[[H1 H2]|[H1 H2]]]; [by left|right; eauto using frame_elem1|right; eauto using frame_elem2]. }
  assert (a ≠ PA b' ∧ a ≠ DA b') as [Hn1 Hn2].
  { destruct Hcases as [->|(f & H1 & H2)].
    - split; [intros He; apply Hne; by apply (ww_entries _ _ _ _ HW)|by apply (ww_dirs _ _ _ _ HW)].
    - by eapply (frame_not_table k0 p root l HW b b'). }
  assert (∀ f', f' ∈ block_frames (blk b') → in_frame f' a = true → False) as Hno.
  { intros f' H1 H2. destruct Hcases as [->|(f & H3 & H4)]; [by eapply Hpa|by eapply Hfr]. }
  split.
  - intros [Hs' [?|[[H1 H2]|[H1 H2]]]]; [done|eapply Hno; eauto using frame_elem1|eapply Hno; eauto using frame_elem2].
  - intros [?|[Hs' [?|H1]]]; [congruence|done|]. eapply Hno; [|done]. apply frame_elem0. by apply has_shadow_us0.
Qed.

(** The flags and the frames of a block after the round. *)
Definition rb_block (b : Z) (x x' : pram_mem_block) : Prop := x' = x <| pmb_flags ::= flags_rolled |>.

Lemma reset_rollback_eq b k :
  working_set k b = blk b →
  let pa := pte_addr (phys k) root (vaddr (blk b)) in
  wp (reset_rollback b pa (phys k pa)) (λ _ k',
    mem_only k k' ∧ (∀ a, phys k' a = rb_step b (phys k) a) ∧
    (∀ b', b' ≠ b → working_set k' b' = working_set k b') ∧ rb_block b (working_set k b) (working_set k' b) ∧
    shape (working_set k' b) = shape (working_set k b)) k.
Proof.
  intros Hb pa. unfold reset_rollback, clear_pmb_flag, modify_pmb. wp_steps.
  match goal with |- context [working_set ?s b] => set (k1 := s) end.
  assert (working_set k1 b = blk b <| pmb_flags ::= flags_rolled |>) as Hx.
  { subst k1. unfold upd_pmb. simpl. rewrite !upd_eq, Hb. done. }
  assert (∀ b', b' ≠ b → working_set k1 b' = working_set k b') as Hother.
  { intros b' Hne. subst k1. unfold upd_pmb. simpl. by rewrite !upd_ne. }
  assert (phys k1 = phys k ∧ mem_only k k1) as [Hph Hmo] by (subst k1; by destruct k).
  clearbody k1. rewrite Hx. cbn [us0 us1 us2 set]. fold (has_shadow (blk b)).
  change (us1 (blk b <| pmb_flags ::= flags_rolled |>)) with (us1 (blk b)).
  change (us2 (blk b <| pmb_flags ::= flags_rolled |>)) with (us2 (blk b)).
  change (us0 (blk b <| pmb_flags ::= flags_rolled |>)) with (us0 (blk b)).
  fold (has_shadow (blk b)). unfold rb_step. destruct (has_shadow (blk b)) eqn:Hs; wp_steps.
  2: { rewrite Hx, Hph, Hb. split_and!; done. }
  eapply wp_intro with (a := ()) (s' := k1 <| phys ::= copy_to (us0 (blk b)) (us1 (blk b)) |>).
  { unfold copy_to. destruct (us1 (blk b) =? MAP_NONE); [by destruct k1|done]. }
  wp_steps. eapply wp_intro with (a := ()) (s' := k1 <| phys ::= copy_to (us0 (blk b)) (us1 (blk b)) |>
    <| phys ::= copy_to (us0 (blk b)) (us2 (blk b)) |>).
  { unfold copy_to. destruct (us1 (blk b) =? MAP_NONE), (us2 (blk b) =? MAP_NONE); by destruct k1. }
  unfold phys_set32. wp_steps. simpl. rewrite Hx, Hph, Hb. split_and!; try done.
  eapply mem_only_trans; [exact Hmo|]. by destruct k1.
Qed.
End rollback.

(** [vm_reset_pram] rolls back when asked to abort, or when the comparison after the second
    run has failed. *)
Definition rolls_back (k : kstate) (endcmp : Z) : Prop :=
  endcmp = ABORT_PE ∨ (endcmp = CMP_FAILED ∧ h_step (kh k) = SECOND_RUN).

(** Same content: frame [f] in [m] and frame [f'] in [m']. *)
Definition frame_same (m : Z → Z) (f : Z) (m' : Z → Z) (f' : Z) : Prop :=
  ∀ i, 0 ≤ i < I386_PAGE_SIZE → m' (f' + i) = m (f + i).

(** What a roll back leaves: the committed content, in all three frames. *)
Record rolled_back (k k' : kstate) (root : Z) (l : list Z) : Prop := {
  rb_only : mem_only k k';
  rb_us0 : ∀ b, b ∈ l → us0 (working_set k b) ≠ MAP_NONE →
    frame_same (phys k) (us0 (working_set k b)) (phys k') (us0 (working_set k b));
  rb_us1 : ∀ b, b ∈ l → us0 (working_set k b) ≠ MAP_NONE → us1 (working_set k b) ≠ MAP_NONE →
    frame_same (phys k) (us0 (working_set k b)) (phys k') (us1 (working_set k b));
  rb_us2 : ∀ b, b ∈ l → us0 (working_set k b) ≠ MAP_NONE → us2 (working_set k b) ≠ MAP_NONE →
    frame_same (phys k) (us0 (working_set k b)) (phys k') (us2 (working_set k b));
  rb_mapped : ∀ b, b ∈ l → has_shadow (working_set k b) = true →
    mapped_rw (phys k') root (vaddr (working_set k b)) (us0 (working_set k b));
  rb_dirs : ∀ b, b ∈ l → phys k' (pde_addr root (vaddr (working_set k b))) = phys k (pde_addr root (vaddr (working_set k b)));
  rb_bare : ∀ b, b ∈ l → has_shadow (working_set k b) = false →
    phys k' (pte_addr (phys k) root (vaddr (working_set k b))) = phys k (pte_addr (phys k) root (vaddr (working_set k b)));
  rb_blocks : ∀ b, b ∈ l → working_set k' b = working_set k b <| pmb_flags ::= flags_rolled |>;
  rb_others : ∀ b, b ∉ l → working_set k' b = working_set k b;
}.

Section rollback_all.
Context (k0 : kstate) (p root : Z) (l : list Z) (HW : ws_wf k0 p root l).

Lemma blocks_done_rolled k' :
  blocks_done k0 l (rb_step k0 root) (rb_fp k0 root) rb_block k' → rolled_back k0 k' root l.
Proof using HW.
  intros (Hmo & Hin & Hout & Hblk & Hoth).
  assert (∀ b, agree (phys k0) (phys k0) (rb_rd k0 root b)) as Hag by done.
  assert (∀ b, b ∈ l → has_shadow (blk k0 b) = true → phys k' (PA k0 root b) = remap_rw (us0 (blk k0 b)) (phys k0 (PA k0 root b))) as Hpte.
  { intros b Hb Hs. rewrite (Hin b) by (done || (split; [done|by left])).
    rewrite (rb_step_value k0 p root l HW) by (done || (split; [done|by left])). by rewrite decide_True. }
  assert (∀ b, b ∈ l → phys k' (DA k0 root b) = phys k0 (DA k0 root b)) as Hda.
  { intros b Hb. apply Hout. intros b' Hb' [Hs [He|[[H1 H2]|[H1 H2]]]].
    - by apply (ww_dirs _ _ _ _ HW b' b Hb' Hb).
    - destruct (frame_not_table k0 p root l HW b' b _ _ Hb' Hb (frame_elem1 k0 b' H1) H2). done.
    - destruct (frame_not_table k0 p root l HW b' b _ _ Hb' Hb (frame_elem2 k0 b' H1) H2). done. }
  assert (∀ b i, b ∈ l → 0 ≤ i < I386_PAGE_SIZE → us0 (blk k0 b) ≠ MAP_NONE → us1 (blk k0 b) ≠ MAP_NONE →
    us1 (blk k0 b) + i ≠ PA k0 root b ∧ ~ real_frame (us2 (blk k0 b)) (us1 (blk k0 b) + i) ∨
    us1 (blk k0 b) = us2 (blk k0 b)) as Hcase1.
  { intros b i Hb Hi H0 H1. destruct (decide (us1 (blk k0 b) = us2 (blk k0 b))) as [|Hne]; [by right|left].
    split; [by eapply (frame_not_table k0 p root l HW b b); eauto using frame_elem1, in_frame_off|].
    intros [H2 H3]. destruct (ww_frames _ _ _ _ HW b b (us1 (blk k0 b)) (us2 (blk k0 b)) (us1 (blk k0 b) + i));
      auto using frame_elem1, frame_elem2, in_frame_off. }
  assert (∀ b, us0 (blk k0 b) ≠ MAP_NONE → us1 (blk k0 b) ≠ MAP_NONE ∨ us2 (blk k0 b) ≠ MAP_NONE → has_shadow (blk k0 b) = true) as Hsh.
  { intros b H0 H12. unfold has_shadow. rewrite (proj2 (Z.eqb_neq _ _) H0). simpl. rewrite andb_true_r.
    destruct H12 as [H|H]; rewrite (proj2 (Z.eqb_neq _ _) H); simpl; [done|apply orb_true_r]. }
  assert (∀ b, b ∈ l → us0 (blk k0 b) ≠ MAP_NONE → us2 (blk k0 b) ≠ MAP_NONE →
    frame_same (phys k0) (us0 (blk k0 b)) (phys k') (us2 (blk k0 b))) as H2.
  { intros b Hb H0 H2 i Hi. pose proof (in_frame_off (us2 (blk k0 b)) i Hi) as Hin2.
    assert (rb_fp k0 root b (us2 (blk k0 b) + i)) as Hfp by (split; [apply Hsh; auto|right; right; by split]).
    rewrite (Hin b), (rb_step_value k0 p root l HW) by done. rewrite decide_False.
    - rewrite Hin2, (proj2 (Z.eqb_neq _ _) H2). simpl. f_equal. lia.
    - by eapply (frame_not_table k0 p root l HW b b); eauto using frame_elem2. }
  split; [done| | |done| |done| |intros b Hb; by apply Hblk|done].
  - intros b Hb H0 i Hi. pose proof (in_frame_off (us0 (blk k0 b)) i Hi) as Hin0. apply Hout.
    intros b' Hb' [Hs [He|H12]].
    + by destruct (frame_not_table k0 p root l HW b b' _ _ Hb Hb' (frame_elem0 k0 b H0) Hin0).
    + destruct (decide (b' = b)) as [->|Hne].
      { destruct (us0_not_copied k0 p root l HW b _ Hb Hs Hin0). tauto. }
      destruct H12 as [[H3 H4]|[H3 H4]];
        [destruct (ww_frames _ _ _ _ HW b b' (us0 (blk k0 b)) (us1 (blk k0 b')) (us0 (blk k0 b) + i))
        |destruct (ww_frames _ _ _ _ HW b b' (us0 (blk k0 b)) (us2 (blk k0 b')) (us0 (blk k0 b) + i))];
        auto using frame_elem0, frame_elem1, frame_elem2.
  - intros b Hb H0 H1 i Hi. fold (blk k0 b) in *. destruct (Hcase1 b i Hb Hi H0 H1) as [[Hn1 Hn2]|He].
    + pose proof (in_frame_off (us1 (blk k0 b)) i Hi) as Hin1.
      assert (rb_fp k0 root b (us1 (blk k0 b) + i)) as Hfp by (split; [apply Hsh; auto|right; left; by split]).
      rewrite (Hin b _ Hb Hfp), (rb_step_value k0 p root l HW) by done. rewrite decide_False by done.
      destruct (in_frame (us2 (blk k0 b)) (us1 (blk k0 b) + i) && negb (us2 (blk k0 b) =? MAP_NONE)) eqn:E.
      * apply andb_prop in E as [E1 E2%negb_true_iff%Z.eqb_neq]. by destruct Hn2.
      * f_equal. lia.
    + rewrite He. apply H2; [done..|congruence|done].
  - intros b Hb Hs. assert (pte_addr (phys k') root (vaddr (working_set k0 b)) = PA k0 root b) as Hpa.
    { unfold PA, pte_addr. fold (blk k0 b). fold (DA k0 root b). by rewrite Hda. }
    unfold mapped_rw. rewrite Hpa, Hpte by done. apply remap_rw_spec. apply (ww_aligned _ _ _ _ HW b); [done|].
    apply frame_elem0. by apply has_shadow_us0.
  - intros b Hb Hs. fold (blk k0 b) in *. fold (PA k0 root b). apply Hout. intros b' Hb' [Hs' [He|[[H1 H3]|[H1 H3]]]].
    + assert (b = b') as -> by (apply (ww_entries _ _ _ _ HW); done). congruence.
    + by destruct (frame_not_table k0 p root l HW b' b _ _ Hb' Hb (frame_elem1 k0 b' H1) H3).
    + by destruct (frame_not_table k0 p root l HW b' b _ _ Hb' Hb (frame_elem2 k0 b' H1) H3).
Qed.

Lemma vm_reset_pram_rollback endcmp :
  rolls_back k0 endcmp → wp (vm_reset_pram p root endcmp) (λ _ k', rolled_back k0 k' root l) k0.
Proof using HW.
  intros Hend. unfold vm_reset_pram. wp_steps. apply wp_assert.
  { by rewrite (proj2 (Z.eqb_neq _ _) (ww_nr _ _ _ _ HW)). }
  wp_steps. rewrite (ww_size _ _ _ _ HW). pose proof (ww_chain _ _ _ _ HW) as Hc. destruct (Z.leb_spec (Z.of_nat (length l)) 0) as [Hl|Hl].
  { destruct l; [|simpl in Hl; lia]. wp_steps. split; try (by intros b ?%elem_of_nil); [apply mem_only_refl|done]. }
  wp_steps. eapply wp_mono; [apply (walk_blocks k0 l _ _ (rb_step k0 root) (rb_fp k0 root) (rb_rd k0 root) rb_block)|].
  - by apply (rb_local k0 p root l HW).
  - by apply (rb_frame k0 root l).
  - by apply (rb_sep k0 p root l HW).
  - done.
  - apply HW.
  - intros b k Hb Hmo Hws Hag. unfold reset_block, phys_get32. wp_steps. rewrite Hws.
    fold (pte_addr (phys k) root (vaddr (working_set k0 b))). fold (blk k0 b).
    pose proof (reset_rollback_eq k0 root b k Hws) as Hrb. cbv zeta in Hrb. rewrite Hws in Hrb.
    destruct Hend as [->|[-> Hstep]]; simpl; [exact Hrb|]. wp_steps.
    rewrite (mem_only_field (λ k, h_step (kh k)) k0 k Hmo), Hstep by done. simpl. wp_steps. exact Hrb.
  - intros [] k' Hd. by apply blocks_done_rolled.
Qed.
End rollback_all.

(** ** Committing *)

(** The page was written in the second run: a page fault was answered or the entry is dirty. *)
Definition page_written (x : pram_mem_block) (pte_v : Z) : bool :=
  negb (us2 x =? MAP_NONE) && negb (us0 x =? MAP_NONE) && (has (pmb_flags x) HGET_PF || has pte_v I386_VM_DIRTY).
Definition written_at (k : kstate) (root b : Z) : bool :=
  page_written (working_set k b) (phys k (pte_addr (phys k) root (vaddr (working_set k b)))).

Section commit.
Context (k0 : kstate) (p root : Z) (l : list Z) (HW : ws_wf k0 p root l).
Context (Hus0 : ∀ b, b ∈ l → us0 (working_set k0 b) ≠ MAP_NONE)
  (Hunshared : ∀ b, b ∈ l → has (pmb_flags (working_set k0 b)) WS_SHARED = false).
Local Notation blk := (blk k0).
Local Notation PA := (PA k0 root).
Local Notation DA := (DA k0 root).

Definition cm_step (b : Z) (m : Z → Z) : Z → Z :=
  let x := blk b in
  let pa := pte_addr m root (vaddr x) in
  if page_written x (m pa) then upd (copy_frame (us2 x) (us0 x) m) pa (remap_rw (us0 x) (clear_flag I386_VM_DIRTY (m pa)))
  else upd m pa (remap_rw (us0 x) (m pa)).
Definition cm_fp (b a : Z) : Prop := a = PA b ∨ (written_at k0 root b = true ∧ in_frame (us0 (blk b)) a = true).
Definition cm_rd (b a : Z) : Prop := DA b = a ∨ a = PA b ∨ real_frame (us2 (blk b)) a.

Lemma cm_step_value b m a :
  b ∈ l → agree (phys k0) m (cm_rd b) →
  cm_step b m a =
    if decide (a = PA b) then
      remap_rw (us0 (blk b)) (if written_at k0 root b then clear_flag I386_VM_DIRTY (phys k0 (PA b)) else phys k0 (PA b))
    else if written_at k0 root b && in_frame (us0 (blk b)) a then phys k0 (us2 (blk b) + (a - us0 (blk b))) else m a.
Proof.
  intros Hb Hag. assert (pte_addr m root (vaddr (blk b)) = PA b) as Hpa.
  { apply agree_PA. intros ? <-. apply Hag. by left. }
  assert (m (PA b) = phys k0 (PA b)) as Hv by (apply Hag; right; by left).
  unfold cm_step. rewrite Hpa, Hv. change (page_written (blk b) (phys k0 (PA b))) with (written_at k0 root b).
  destruct (written_at k0 root b) eqn:Hw; rewrite upd_case; (case_decide; [done|]); [|done]. simpl.
  unfold copy_frame. destruct (in_frame (us0 (blk b)) a) eqn:Ha; [|done].
  apply Hag. right; right. unfold written_at, page_written in Hw.
  apply andb_prop in Hw as [[Hu2%negb_true_iff%Z.eqb_neq _]%andb_prop _]. split; [done|].
  apply in_frame_spec in Ha. apply in_frame_spec. unfold PramInv.blk in *. lia.
Qed.
Lemma cm_local b m a : b ∈ l → agree (phys k0) m (cm_rd b) → cm_fp b a → cm_step b m a = cm_step b (phys k0) a.
Proof.
  intros Hb Hag Ha. rewrite !cm_step_value by done. case_decide; [done|].
  destruct Ha as [|[-> ->]]; done.
Qed.
Lemma cm_frame b m a : b ∈ l → agree (phys k0) m (cm_rd b) → ~ cm_fp b a → cm_step b m a = m a.
Proof.
  intros Hb Hag Ha. rewrite cm_step_value by done. unfold cm_fp in Ha. rewrite decide_False by tauto.
  destruct (written_at k0 root b), (in_frame (us0 (blk b)) a) eqn:E; simpl; tauto.
Qed.

Lemma us0_cell b b' f a :
  b ∈ l → b' ∈ l → in_frame (us0 (blk b)) a = true → f ∈ block_frames (blk b') → in_frame f a = true →
  b = b' ∧ f = us0 (blk b').
Proof using HW Hus0.
  intros Hb Hb' Ha Hf Hfa.
  destruct (ww_frames _ _ _ _ HW b b' (us0 (blk b)) f a) as [-> ->]; auto using frame_elem0.
Qed.
Lemma cm_sep b b' a : b ∈ l → b' ∈ l → b ≠ b' → cm_fp b a → ~ cm_fp b' a ∧ ~ cm_rd b' a.
Proof using HW Hus0.
  intros Hb Hb' Hne Ha.
  assert (a ≠ PA b' ∧ a ≠ DA b') as [Hn1 Hn2].
  { destruct Ha as [->|[_ Ha]].
    - split; [intros He; apply Hne; by apply (ww_entries _ _ _ _ HW)|by apply (ww_dirs _ _ _ _ HW)].
    - eapply (frame_not_table k0 p root l HW b b'); eauto using frame_elem0. }
  assert (∀ f', f' ∈ block_frames (blk b') → in_frame f' a = true → False) as Hno.
  { intros f' H1 H2. destruct Ha as [->|[_ Ha]].
    - by destruct (frame_not_table k0 p root l HW b' b f' _ Hb' Hb H1 H2).
    - by destruct (us0_cell b b' f' a). }
  split.
  - intros [?|[_ H]]; [done|]. eapply Hno; [|done]. by apply frame_elem0, Hus0.
  - intros [?|[?|[H1 H2]]]; [congruence|done|]. eapply Hno; [by apply frame_elem2|done].
Qed.

Definition cm_block (b : Z) (x x' : pram_mem_block) : Prop := written_at k0 root b = true → has (pmb_flags x') HGET_PF = false.

Lemma reset_commit_spec b k :
  b ∈ l → working_set k b = blk b → agree (phys k0) (phys k) (cm_rd b) →
  let pa := pte_addr (phys k) root (vaddr (blk b)) in
  wp (reset_commit p b pa (phys k pa)) (λ _ k',
    mem_only k k' ∧ (∀ a, phys k' a = cm_step b (phys k) a) ∧
    (∀ b', b' ≠ b → working_set k' b' = working_set k b') ∧ cm_block b (working_set k b) (working_set k' b) ∧
    shape (working_set k' b) = shape (working_set k b)) k.
Proof using Hunshared.
  intros Hb Hws Hag pa. pose proof (Hunshared b Hb) as Hsh. fold (blk b) in Hsh.
  assert (phys k pa = phys k0 (PA b)) as Hv.
  { subst pa. rewrite (agree_PA k0 root b (phys k)) by (intros ? <-; apply Hag; by left). apply Hag. right. by left. }
  assert (page_written (blk b) (phys k pa) = written_at k0 root b) as Hwr by by rewrite Hv.
  unfold reset_commit, set_pmb_flag, clear_pmb_flag, modify_pmb, phys_set32, cpy_frames. wp_steps. rewrite Hws.
  fold (page_written (blk b) (phys k pa)). rewrite Hsh.
  assert (∀ k1 b', b' ≠ b → ∀ f, working_set (upd_pmb b f k1) b' = working_set k1 b') as Hne.
  { intros k1 b' Hb' f. unfold upd_pmb. simpl. by rewrite upd_ne. }
  unfold cm_step. fold pa. unfold cm_block. rewrite <-Hwr.
  destruct (page_written (blk b) (phys k pa)) eqn:Hw; destruct (has (pmb_flags (blk b)) IWS_MOD_KERNEL) eqn:Hm;
    destruct (has (phys k pa) I386_VM_DIRTY) eqn:Hdirty; simpl; wp_steps; simpl;
    rewrite ?upd_eq; (split; [by destruct k|]); (split; [done|]);
    (split; [intros b' Hb'; by rewrite ?upd_ne|]); rewrite ?Hws; simpl; (split; [|done]); intros; try done;
    rewrite ?has_clear_other by done; apply has_clear_self.
Qed.
End commit.

(** What a commit leaves: the content of the second run in [us0], which the pages map. *)
Record committed (k k' : kstate) (root : Z) (l : list Z) : Prop := {
  cm_only : mem_only k k';
  cm_written : ∀ b, b ∈ l → written_at k root b = true →
    frame_same (phys k) (us2 (working_set k b)) (phys k') (us0 (working_set k b));
  cm_kept : ∀ b, b ∈ l → written_at k root b = false →
    frame_same (phys k) (us0 (working_set k b)) (phys k') (us0 (working_set k b));
  cm_mapped : ∀ b, b ∈ l → mapped_rw (phys k') root (vaddr (working_set k b)) (us0 (working_set k b));
  cm_flags : ∀ b, b ∈ l → written_at k root b = true → has (pmb_flags (working_set k' b)) HGET_PF = false;
  cm_shape : ∀ b, shape (working_set k' b) = shape (working_set k b);
}.

Section commit_all.
Context (k0 : kstate) (p root : Z) (l : list Z) (HW : ws_wf k0 p root l).
Context (Hus0 : ∀ b, b ∈ l → us0 (working_set k0 b) ≠ MAP_NONE)
  (Hunshared : ∀ b, b ∈ l → has (pmb_flags (working_set k0 b)) WS_SHARED = false).

Lemma blocks_done_committed k' :
  blocks_done k0 l (cm_step k0 root) (cm_fp k0 root) (cm_block k0 root) k' → committed k0 k' root l.
Proof using HW Hus0.
  intros (Hmo & Hin & Hout & Hblk & Hoth).
  assert (∀ b a, b ∈ l → cm_fp k0 root b a → phys k' a = cm_step k0 root b (phys k0) a) as Hin' by auto.
  assert (∀ b i, b ∈ l → 0 ≤ i < I386_PAGE_SIZE → us0 (blk k0 b) + i ≠ PA k0 root b) as Hnpa.
  { intros b i Hb Hi. eapply (frame_not_table k0 p root l HW b b); eauto using frame_elem0, in_frame_off. }
  assert (∀ b, b ∈ l → phys k' (DA k0 root b) = phys k0 (DA k0 root b)) as Hda.
  { intros b Hb. apply Hout. intros b' Hb' [He|[_ H2]].
    - by apply (ww_dirs _ _ _ _ HW b' b Hb' Hb).
    - by destruct (frame_not_table k0 p root l HW b' b _ _ Hb' Hb (frame_elem0 k0 b' (Hus0 b' Hb')) H2). }
  split; [done|..].
  - intros b Hb Hw i Hi. fold (blk k0 b). pose proof (in_frame_off (us0 (blk k0 b)) i Hi) as Hif.
    rewrite (Hin' b) by (done || (right; done)). rewrite (cm_step_value k0 root l b) by done.
    rewrite decide_False by auto. rewrite Hw, Hif. simpl. f_equal. lia.
  - intros b Hb Hw i Hi. fold (blk k0 b). pose proof (in_frame_off (us0 (blk k0 b)) i Hi) as Hif. apply Hout.
    intros b' Hb' [He|[Hw' H2]].
    + by destruct (frame_not_table k0 p root l HW b b' _ _ Hb Hb' (frame_elem0 k0 b (Hus0 b Hb)) Hif).
    + destruct (us0_cell k0 p root l HW Hus0 b b' (us0 (blk k0 b')) (us0 (blk k0 b) + i)) as [-> _];
        auto using frame_elem0. congruence.
  - intros b Hb. assert (pte_addr (phys k') root (vaddr (working_set k0 b)) = PA k0 root b) as Hpa.
    { unfold PA, pte_addr. fold (blk k0 b). fold (DA k0 root b). by rewrite Hda. }
    unfold mapped_rw. rewrite Hpa, (Hin' b) by (done || (by left)). rewrite (cm_step_value k0 root l b) by done.
    rewrite decide_True by done. apply remap_rw_spec. apply (ww_aligned _ _ _ _ HW b); [done|]. by apply frame_elem0, Hus0.
  - intros b Hb. by apply Hblk.
  - intros b. destruct (decide (b ∈ l)) as [Hb|Hb]; [by apply Hblk|by rewrite Hoth].
Qed.

Lemma vm_reset_pram_commit :
  h_step (kh k0) = SECOND_RUN → wp (vm_reset_pram p root CPY_RAM_PRAM) (λ _ k', committed k0 k' root l) k0.
Proof using HW Hus0 Hunshared.
  intros Hstep. unfold vm_reset_pram. wp_steps. apply wp_assert.
  { by rewrite (proj2 (Z.eqb_neq _ _) (ww_nr _ _ _ _ HW)). }
  wp_steps. rewrite (ww_size _ _ _ _ HW). destruct (Z.leb_spec (Z.of_nat (length l)) 0) as [Hl|Hl].
  { destruct l; [|simpl in Hl; lia]. wp_steps. split; try (by intros b ?%elem_of_nil); [apply mem_only_refl|done]. }
  wp_steps. eapply wp_mono; [apply (walk_blocks k0 l _ _ (cm_step k0 root) (cm_fp k0 root) (cm_rd k0 root) (cm_block k0 root))|].
  - by apply (cm_local k0 root l).
  - by apply (cm_frame k0 root l).
  - by apply (cm_sep k0 p root l HW Hus0).
  - apply HW.
  - apply HW.
  - intros b k Hb Hmo Hws Hag. unfold reset_block, phys_get32. wp_steps. rewrite Hws.
    fold (pte_addr (phys k) root (vaddr (working_set k0 b))). fold (blk k0 b). simpl. wp_steps.
    rewrite (mem_only_field (λ k, h_step (kh k)) k0 k Hmo), Hstep by done. simpl. wp_steps.
    pose proof (reset_commit_spec k0 p root l Hunshared b k Hb Hws Hag) as Hrb. cbv zeta in Hrb. rewrite Hws in Hrb. exact Hrb.
  - intros [] k' Hd. by apply blocks_done_committed.
Qed.
End commit_all.
