(* ===== verification/PramRun.v ===== *)
(** * A run writes to its own copies only

    [set_pe_mem_to_ro], called before each run, and [check_vaddr_2], called on the page faults
    of a run (kernel/arch/i386/pram.c): the user-writable pages of the working set are mapped
    to the copies of the current run, [us1] in the first and [us2] in the second, never to the
    committed frame [us0]. *)
From S2P Require Import Prelude LinkedList Kernel HMem WorkingSet HShared Pram PramInv.

(** The frame that a run writes to. *)
Definition run_copy (step : Z) (x : pram_mem_block) : Z := if step =? FIRST_RUN then us1 x else us2 x.

(** If the page is user-writable, it is mapped to the copy of the run. *)
Definition isolated (m : Z → Z) (root step : Z) (x : pram_mem_block) : Prop :=
  check_pt_entry (m (pde_addr root (vaddr x))) = OK →
  check_pt_entry (m (pte_addr m root (vaddr x))) = OK →
  run_copy step x ≠ MAP_NONE ∧ I386_VM_PFA (m (pte_addr m root (vaddr x))) = run_copy step x.

(** A page has both copies or none. *)
Definition paired (x : pram_mem_block) : Prop := us1 x = MAP_NONE ↔ us2 x = MAP_NONE.

(** ** Entries *)

Lemma check_pt_entry_write v : check_pt_entry v = OK → has v I386_VM_WRITE = true.
Proof. unfold check_pt_entry. do 4 (case_bool; [done|]). by destruct (has v I386_VM_WRITE). Qed.

Lemma PFA_remap f v : I386_VM_PFA f = f → I386_VM_PFA (remap f v) = f.
Proof.
  intros Hf. unfold remap, I386_VM_PFA in *. rewrite Z.land_lor_distr_l, Hf, <-Z.land_assoc.
  change (Z.land I386_VM_ADDR_MASK_INV I386_VM_ADDR_MASK) with 0. by rewrite Z.land_0_r.
Qed.
Lemma PFA_clear f v : Z.land f I386_VM_ADDR_MASK = 0 → I386_VM_PFA (clear_flag f v) = I386_VM_PFA v.
Proof.
  intros Hf. unfold I386_VM_PFA, clear_flag. apply Z.bits_inj'. intros i Hi.
  rewrite !Z.land_spec, Z.lnot_spec by done.
  assert (Z.testbit f i && Z.testbit I386_VM_ADDR_MASK i = false) as Hb by by rewrite <-Z.land_spec, Hf, Z.testbit_0_l.
  destruct (Z.testbit v i), (Z.testbit f i), (Z.testbit I386_VM_ADDR_MASK i); done.
Qed.

Lemma ro_entry_isolated step x v :
  paired x → (us1 x ≠ MAP_NONE → I386_VM_PFA (us1 x) = us1 x) → (us2 x ≠ MAP_NONE → I386_VM_PFA (us2 x) = us2 x) →
  check_pt_entry (ro_entry step x v) = OK →
  run_copy step x ≠ MAP_NONE ∧ I386_VM_PFA (ro_entry step x v) = run_copy step x.
Proof.
  intros Hp H1 H2 Hc%check_pt_entry_write. unfold ro_entry in *.
  assert (negb (us1 x =? MAP_NONE) && (us2 x =? MAP_NONE) = false) as Hpair.
  { destruct (Z.eqb_spec (us1 x) MAP_NONE) as [|Hn]; [done|]. destruct (Z.eqb_spec (us2 x) MAP_NONE) as [He|]; [|done].
    by apply Hp in He. }
  rewrite Hpair in *. rewrite has_clear_other in Hc by done. rewrite PFA_clear by done.
  assert (∀ c f, (c ≠ MAP_NONE → I386_VM_PFA c = c) → has (run_entry c f x v) I386_VM_WRITE = true →
    c ≠ MAP_NONE ∧ I386_VM_PFA (run_entry c f x v) = c) as Hrun.
  { intros c f Hal Hw. unfold run_entry in *. destruct (Z.eqb_spec c MAP_NONE) as [|Hn]; simpl in *.
    - by rewrite has_clear_self in Hw.
    - split; [done|]. case_bool; [by rewrite has_clear_self in Hw|]. by apply PFA_remap, Hal. }
  unfold run_copy. destruct (step =? FIRST_RUN); by apply Hrun.
Qed.

Lemma ro_entry_flags step x v f :
  Z.land f IWS_PF_FIRST = 0 → Z.land f IWS_PF_SECOND = 0 → Z.land f IWS_MOD_KERNEL = 0 →
  ro_entry step (x <| pmb_flags ::= set_flag f |>) v = ro_entry step x v ∧
  ro_entry step (x <| pmb_flags ::= clear_flag f |>) v = ro_entry step x v.
Proof.
  intros H1 H2 H3. unfold ro_entry, run_entry. simpl. rewrite !has_set_other, !has_clear_other by done. done.
Qed.

(** ** Page faults *)

Lemma set_phys_eq a v k : phys (set_phys a v k) a = v.
Proof. unfold set_phys. simpl. by rewrite upd_eq. Qed.

Lemma find_block_Some fuel next start stop b :
  find_block fuel next start stop = Some b → stop b = true.
Proof.
  revert start. induction fuel as [|fuel IH]; intros [s|]; simpl; try done.
  destruct (stop s) eqn:E; [by intros [= <-]|apply IH].
Qed.
Lemma look_up_pte_page k p pde pte b : look_up_pte k p pde pte = Some b → same_page k pde pte b = true.
Proof. unfold look_up_pte. case_bool; [|done]. apply find_block_Some. Qed.

(** A page fault of a run on a page whose copies exist is answered by mapping the page,
    writable, to the copy of that run: the first run gets [us1], the second [us2]; nothing but
    that entry, the block's flags and the recorded fault address change. *)
Theorem check_vaddr_2_maps_copy k p root va b :
  let x := working_set k b in
  let pa := pte_addr (phys k) root va in
  h_step (kh k) = FIRST_RUN ∨ h_step (kh k) = SECOND_RUN →
  look_up_pte k p (I386_VM_PDE va) (I386_VM_PTE va) = Some b →
  us1 x ≠ MAP_NONE → us2 x ≠ MAP_NONE → I386_VM_PFA (us1 x) = us1 x → I386_VM_PFA (us2 x) = us2 x →
  has (pmb_flags x) H_FORK = false →
  check_pt_entry (phys k (pde_addr root va)) = OK → has (phys k pa) I386_VM_PRESENT = true →
  wp (check_vaddr_2 p root va) (λ r k',
    r = (OK, Some K_HANDLE_PF) ∧
    I386_VM_PFA (phys k' pa) = run_copy (h_step (kh k)) x ∧ has (phys k' pa) I386_VM_WRITE = true ∧
    (∀ a, a ≠ pa → phys k' a = phys k a) ∧ has (pmb_flags (working_set k' b)) HGET_PF = true ∧
    proctab k' = proctab k) k.
Proof.
  intros x pa Hstep Hlook H1 H2 Ha1 Ha2 Hfork Hpde Hpte. unfold check_vaddr_2. wp_steps.
  assert (((h_step (kh k) =? FIRST_RUN) || (h_step (kh k) =? SECOND_RUN) || (h_step (kh k) =? FIRST_STEPPING)) = true) as Hs
    by (destruct Hstep as [-> | ->]; done).
  apply wp_assert; [exact Hs|]. unfold modify_h, phys_get32. wp_steps.
  set (k1 := if h_step (kh k) =? FIRST_RUN then k <| kh ::= λ h, h <| pagefault_addr_1 := va |> |>
             else k <| kh ::= λ h, h <| pagefault_addr_2 := va |> |>).
  eapply wp_intro with (a := ()) (s' := if h_step (kh k) =? FIRST_RUN then k1 else k).
  { subst k1. by case_bool. }
  wp_steps. eapply wp_intro with (a := ()) (s' := k1).
  { subst k1. by destruct Hstep as [-> | ->]. }
  assert (phys k1 = phys k ∧ working_set k1 = working_set k ∧ proctab k1 = proctab k) as (Hp & Hw & Hpt)
    by (subst k1; by case_bool).
  assert (look_up_pte k1 p (I386_VM_PDE va) (I386_VM_PTE va) = Some b) as Hlook1 by (subst k1; by case_bool).
  clearbody k1. wp_steps. rewrite Hp, Hpde. simpl. wp_steps. rewrite Hp.
  fold (pte_addr (phys k) root va). fold pa. rewrite Hpte. simpl. wp_steps. rewrite Hlook1. wp_steps.
  rewrite Hw. fold x. rewrite (proj2 (Z.eqb_neq _ _) H1), (proj2 (Z.eqb_neq _ _) H2). simpl.
  assert (∃ f, fault_entry (h_step (kh k)) x (phys k pa) = Some (remap_rw (run_copy (h_step (kh k)) x) (phys k pa), f)) as [f ->].
  { unfold fault_entry, run_copy. rewrite Hfork. destruct Hstep as [-> | ->]; simpl; eauto. }
  unfold set_pmb_flag, modify_pmb, phys_set32. wp_steps. simpl. rewrite !upd_eq.
  assert (I386_VM_PFA (run_copy (h_step (kh k)) x) = run_copy (h_step (kh k)) x) as Hal.
  { unfold run_copy. by destruct Hstep as [-> | ->]. }
  destruct (remap_rw_spec _ (phys k pa) Hal) as [-> ->]. split_and!; try done.
  - intros a Ha. by rewrite upd_ne, Hp.
  - by apply has_set_self.
Qed.

(** ** Before a run *)

(** The copies are out of date. *)
Definition stale (x : pram_mem_block) : bool :=
  has (pmb_flags x) H_TO_UPDATE && negb (us1 x =? MAP_NONE) && negb (us2 x =? MAP_NONE).
Lemma stale_copies x : stale x = true → us1 x ≠ MAP_NONE ∧ us2 x ≠ MAP_NONE.
Proof. intros [[_ H1%negb_true_iff]%andb_prop H2%negb_true_iff]%andb_prop. by rewrite <-!Z.eqb_neq. Qed.

Section to_ro.
Context (k0 : kstate) (p root : Z) (l : list Z) (HW : ws_wf k0 p root l).
Context (Hus0 : ∀ b, b ∈ l → us0 (working_set k0 b) ≠ MAP_NONE) (Hpair : ∀ b, b ∈ l → paired (working_set k0 b)).
Let stp := h_step (kh k0).
Local Notation blk := (blk k0).
Local Notation PA := (PA k0 root).
Local Notation DA := (DA k0 root).

Definition ro_active (m : Z → Z) (b : Z) : bool :=
  (check_pt_entry (m (pde_addr root (vaddr (blk b)))) =? OK) && (check_pt_entry (m (pte_addr m root (vaddr (blk b)))) =? OK).
Definition ro_step (b : Z) (m : Z → Z) : Z → Z :=
  let x := blk b in
  let pa := pte_addr m root (vaddr x) in
  if ro_active m b then
    upd (if stale x then copy_frame (us0 x) (us2 x) (copy_frame (us0 x) (us1 x) m) else m) pa
      (ro_entry stp x (if stale x then clear_flag I386_VM_DIRTY (m pa) else m pa))
  else m.
Definition ro_fp (b a : Z) : Prop :=
  ro_active (phys k0) b = true ∧
  (a = PA b ∨ (stale (blk b) = true ∧ (in_frame (us1 (blk b)) a = true ∨ in_frame (us2 (blk b)) a = true))).
Definition ro_rd (b a : Z) : Prop := DA b = a ∨ a = PA b ∨ (stale (blk b) = true ∧ in_frame (us0 (blk b)) a = true).

Lemma ro_agree b m : agree (phys k0) m (ro_rd b) →
  pte_addr m root (vaddr (blk b)) = PA b ∧ ro_active m b = ro_active (phys k0) b ∧ m (PA b) = phys k0 (PA b).
Proof.
  intros Hag. assert (pte_addr m root (vaddr (blk b)) = PA b) as Hpa.
  { apply agree_PA. intros ? <-. apply Hag. by left. }
  assert (m (PA b) = phys k0 (PA b)) as Hv by (apply Hag; right; by left).
  split_and!; [done| |done]. unfold ro_active. rewrite Hpa, Hv. fold (DA b). by rewrite (Hag (DA b)) by by left.
Qed.

(** A cell of [us0] is in neither copy. *)
Lemma us0_no_copy b a :
  b ∈ l → stale (blk b) = true → in_frame (us0 (blk b)) a = true →
  in_frame (us1 (blk b)) a = false ∧ in_frame (us2 (blk b)) a = false.
Proof using HW Hus0.
  intros Hb Hs Ha. destruct (stale_copies _ Hs) as [H1 H2]. pose proof (Hus0 b Hb) as H0.
  destruct (frames_ne k0 p root l HW b Hb H0) as [Hn1 Hn2].
  split; apply not_true_is_false; intros Hf.
  - destruct (ww_frames _ _ _ _ HW b b (us0 (blk b)) (us1 (blk b)) a); auto using frame_elem0, frame_elem1. by apply Hn1.
  - destruct (ww_frames _ _ _ _ HW b b (us0 (blk b)) (us2 (blk b)) a); auto using frame_elem0, frame_elem2. by apply Hn2.
Qed.

Lemma ro_local b m a : b ∈ l → agree (phys k0) m (ro_rd b) → ro_fp b a → ro_step b m a = ro_step b (phys k0) a.
Proof using HW Hus0.
  intros Hb Hag [Hact Ha]. destruct (ro_agree b m Hag) as (Hpa & Ha' & Hv). unfold ro_step.
  rewrite Ha', Hact, Hpa. fold (PA b). rewrite Hv, !upd_case. case_decide as Hne; [done|].
  destruct Ha as [|[Hs Ha]]; [done|]. rewrite Hs.
  assert (∀ i, 0 ≤ i < I386_PAGE_SIZE → m (us0 (blk b) + i) = phys k0 (us0 (blk b) + i)) as Hsrc.
  { intros i Hi. apply Hag. right; right. split; [done|by apply in_frame_off]. }
  assert (∀ i, 0 ≤ i < I386_PAGE_SIZE → ∀ m', copy_frame (us0 (blk b)) (us1 (blk b)) m' (us0 (blk b) + i) = m' (us0 (blk b) + i)) as Hs1.
  { intros i Hi m'. apply copy_frame_out. by apply us0_no_copy; [..|apply in_frame_off]. }
  destruct (in_frame (us2 (blk b)) a) eqn:E2.
  - apply in_frame_spec in E2. replace a with (us2 (blk b) + (a - us2 (blk b))) by lia.
    rewrite !copy_frame_in, !Hs1 by lia. apply Hsrc. lia.
  - rewrite !(copy_frame_out _ (us2 (blk b))) by done. destruct Ha as [E1|]; [|done]. apply in_frame_spec in E1.
    replace a with (us1 (blk b) + (a - us1 (blk b))) by lia. rewrite !copy_frame_in by lia. apply Hsrc. lia.
Qed.

Lemma ro_frame b m a : b ∈ l → agree (phys k0) m (ro_rd b) → ~ ro_fp b a → ro_step b m a = m a.
Proof.
  intros Hb Hag Ha. destruct (ro_agree b m Hag) as (Hpa & Ha' & Hv). unfold ro_step. rewrite Ha', Hpa.
  unfold ro_fp in Ha. destruct (ro_active (phys k0) b); [|done]. rewrite upd_ne by tauto.
  destruct (stale (blk b)); [|done].
  assert (in_frame (us1 (blk b)) a = false ∧ in_frame (us2 (blk b)) a = false) as [H1 H2].
  { split; apply not_true_is_false; intros Hf; apply Ha; eauto. }
  by rewrite !copy_frame_out.
Qed.

Lemma ro_sep b b' a : b ∈ l → b' ∈ l → b ≠ b' → ro_fp b a → ~ ro_fp b' a ∧ ~ ro_rd b' a.
Proof using HW Hus0.
  intros Hb Hb' Hne [Hact Ha].
  assert (a = PA b ∨ ∃ f, f ∈ block_frames (blk b) ∧ in_frame f a = true) as Hcases.
  { destruct Ha as [->|[Hs Ha]]; [by left|right]. destruct (stale_copies _ Hs).
    destruct Ha; eauto using frame_elem1, frame_elem2. }
  assert (a ≠ PA b' ∧ a ≠ DA b') as [Hn1 Hn2].
  { destruct Hcases as [->|(f & H1 & H2)].
    - split; [intros He; apply Hne; by apply (ww_entries _ _ _ _ HW)|by apply (ww_dirs _ _ _ _ HW)].
    - by eapply (frame_not_table k0 p root l HW b b'). }
  assert (∀ f', f' ∈ block_frames (blk b') → in_frame f' a = true → False) as Hno.
  { intros f' H1 H2. destruct Hcases as [->|(f & H3 & H4)].
    - by destruct (frame_not_table k0 p root l HW b' b f' _ Hb' Hb H1 H2).
    - by destruct (ww_frames _ _ _ _ HW b b' f f' a). }
  split.
  - intros [_ [?|[Hs' Ha']]]; [done|]. destruct (stale_copies _ Hs').
    destruct Ha'; eapply Hno; eauto using frame_elem1, frame_elem2.
  - intros [?|[?|[_ H1]]]; [congruence|done|]. eapply Hno; [|done]. by apply frame_elem0, Hus0.
Qed.

Definition ro_block (b : Z) (x x' : pram_mem_block) : Prop :=
  ro_active (phys k0) b = true → stale x = true → has (pmb_flags x') H_TO_UPDATE = false.

(** Every page has a frame (pages without one are dropped from the list in the first run). *)
Context (Hpfa : ∀ b, b ∈ l → I386_VM_PFA (phys k0 (PA b)) ≠ 0).

Lemma set_block_to_ro_spec b k :
  b ∈ l → mem_only k0 k → working_set k b = blk b → agree (phys k0) (phys k) (ro_rd b) →
  wp (set_block_to_ro p root b) (λ _ k',
    mem_only k k' ∧ (∀ a, phys k' a = ro_step b (phys k) a) ∧
    (∀ b', b' ≠ b → working_set k' b' = working_set k b') ∧ ro_block b (working_set k b) (working_set k' b) ∧
    shape (working_set k' b) = shape (working_set k b)) k.
Proof using Hpfa.
  intros Hb Hmo Hws Hag. destruct (ro_agree b (phys k) Hag) as (Hpa & Hact & Hv). unfold ro_step, ro_block. rewrite Hpa, <-Hact.
  unfold set_block_to_ro, phys_get32. wp_steps. rewrite Hws. fold (pte_addr (phys k) root (vaddr (blk b))). rewrite Hpa.
  fold (DA b). unfold ro_active. rewrite Hpa. fold (DA b). pose proof (mem_only_refl k) as Hrefl.
  destruct (Z.eqb_spec (check_pt_entry (phys k (DA b))) OK) as [Hc1|Hc1]; simpl; wp_steps; [|rewrite ?Hws; by split_and!].
  destruct (Z.eqb_spec (check_pt_entry (phys k (PA b))) OK) as [Hc2|Hc2]; simpl; wp_steps; [|rewrite ?Hws; by split_and!].
  unfold set_pmb_flag, clear_pmb_flag, modify_pmb, cpy_frames, phys_set32. wp_steps. rewrite Hws.
  set (shared := has _ PROC_SHARING_MEM && _ && _).
  set (k1 := if shared then upd_pmb b (λ x, x <| pmb_flags ::= set_flag WS_SHARED |>) k else k).
  eapply wp_intro with (a := ()) (s' := k1); [subst k1; by destruct shared|].
  assert (working_set k1 b = blk b ∨ working_set k1 b = blk b <| pmb_flags ::= set_flag WS_SHARED |>) as Hk1.
  { subst k1. destruct shared; [right|by left]. unfold upd_pmb. simpl. by rewrite upd_eq, Hws. }
  assert (phys k1 = phys k ∧ kh k1 = kh k ∧ mem_only k k1) as (Hp1 & Hkh1 & Hmo1).
  { subst k1. by destruct shared, k. }
  assert (∀ b', b' ≠ b → working_set k1 b' = working_set k b') as Ho1.
  { intros b' Hne. subst k1. destruct shared; [|done]. unfold upd_pmb. simpl. by rewrite upd_ne. }
  clearbody k1 shared. fold (stale (blk b)). wp_steps.
  assert (h_step (kh k1) = stp) as Hstep.
  { rewrite Hkh1. by apply (mem_only_field (λ k, h_step (kh k)) k0 k). }
  assert ((I386_VM_PFA (phys k (PA b)) =? 0) = false) as Hn0.
  { rewrite Hv. by apply Z.eqb_neq, Hpfa. }
  assert (∀ x v, (x = blk b ∨ x = blk b <| pmb_flags ::= set_flag WS_SHARED |>) →
    ro_entry stp x v = ro_entry stp (blk b) v ∧ ro_entry stp (x <| pmb_flags ::= clear_flag H_TO_UPDATE |>) v = ro_entry stp (blk b) v ∧
    shape x = shape (blk b)) as Hro.
  { intros x v [-> | ->]; (split_and!; [..|done]); try done.
    - by apply (ro_entry_flags stp (blk b) v H_TO_UPDATE).
    - by apply (ro_entry_flags stp (blk b) v WS_SHARED).
    - etrans; [by apply (ro_entry_flags stp (blk b <| pmb_flags ::= set_flag WS_SHARED |>) v H_TO_UPDATE)|].
      by apply (ro_entry_flags stp (blk b) v WS_SHARED). }
  destruct (stale (blk b)) eqn:Hst; wp_steps; simpl; rewrite ?Hstep, Hn0, andb_false_r; wp_steps; simpl;
    destruct (Hro _ (clear_flag I386_VM_DIRTY (phys k (PA b))) Hk1) as (R1 & R2 & R3);
    destruct (Hro _ (phys k (PA b)) Hk1) as (R4 & _ & _); rewrite ?upd_eq, ?R2, ?R4, Hp1.
  - split_and!; [|done| |..].
    + eapply mem_only_trans; [exact Hmo1|]. by destruct k1.
    + intros b' Hne. rewrite upd_ne by done. by apply Ho1.
    + intros _ _. apply has_clear_self.
    + exact R3.
  - split_and!; [|done|done|done|exact R3]. eapply mem_only_trans; [exact Hmo1|]. by destruct k1.
Qed.

Lemma set_pe_walk :
  wp (walk HLIST_FUEL pmb_next (p_lus1_us2 (hp k0 p)) (set_block_to_ro p root)) (λ _,
    blocks_done k0 l ro_step ro_fp ro_block) k0.
Proof using HW Hus0 Hpfa.
  apply (walk_blocks k0 l _ _ ro_step ro_fp ro_rd ro_block); try apply HW.
  - apply ro_local.
  - apply ro_frame.
  - apply ro_sep.
  - intros b k Hb Hmo Hws Hag. by apply set_block_to_ro_spec.
Qed.

Lemma blocks_done_isolated k' :
  blocks_done k0 l ro_step ro_fp ro_block k' →
  mem_only k0 k' ∧ (∀ b, b ∈ l → isolated (phys k') root stp (blk b)) ∧
  (∀ b, b ∈ l → frame_same (phys k0) (us0 (blk b)) (phys k') (us0 (blk b))).
Proof using HW Hus0 Hpair.
  intros (Hmo & Hin & Hout & _). 
  assert (∀ b, b ∈ l → phys k' (DA b) = phys k0 (DA b)) as Hda.
  { intros b Hb. apply Hout. intros b' Hb' [_ [He|[Hs [H2|H2]]]].
    - by apply (ww_dirs _ _ _ _ HW b' b Hb' Hb).
    - destruct (stale_copies _ Hs) as [H1 _].
      by destruct (frame_not_table k0 p root l HW b' b _ _ Hb' Hb (frame_elem1 k0 b' H1) H2).
    - destruct (stale_copies _ Hs) as [_ H1].
      by destruct (frame_not_table k0 p root l HW b' b _ _ Hb' Hb (frame_elem2 k0 b' H1) H2). }
  split_and!; [done|..].
  - intros b Hb Hpde Hpte. assert (pte_addr (phys k') root (vaddr (blk b)) = PA b) as Hpa.
    { unfold PramInv.PA, pte_addr. fold (DA b). by rewrite Hda. }
    rewrite Hpa in *. fold (DA b) in Hpde. rewrite Hda in Hpde by done.
    destruct (ro_active (phys k0) b) eqn:Hact.
    + rewrite (Hin b) in * by (done || (split; [done|by left])). unfold ro_step in *. rewrite Hact in *.
      fold (PA b) in *. rewrite !upd_eq in *. apply ro_entry_isolated; [by apply Hpair|..|done].
      * intros H1. apply (ww_aligned _ _ _ _ HW b); [done|by apply frame_elem1].
      * intros H1. apply (ww_aligned _ _ _ _ HW b); [done|by apply frame_elem2].
    + exfalso. rewrite Hout in Hpte.
      * unfold ro_active in Hact. fold (DA b) (PA b) in Hact. by rewrite Hpde, Hpte in Hact.
      * intros b' Hb' Hfp. assert (b' = b) as ->; [|destruct Hfp; congruence].
        destruct (decide (b' = b)); [done|]. destruct (ro_sep b' b (PA b)) as [_ Hn]; auto.
        exfalso. apply Hn. right. by left.
  - intros b Hb i Hi. pose proof (in_frame_off (us0 (blk b)) i Hi) as Hin0. apply Hout.
    intros b' Hb' [_ [He|[Hs H12]]].
    + by destruct (frame_not_table k0 p root l HW b b' _ _ Hb Hb' (frame_elem0 k0 b (Hus0 b Hb)) Hin0).
    + destruct (decide (b' = b)) as [->|Hne].
      { destruct (us0_no_copy b (us0 (blk b) + i)) as [E1 E2]; [done..|]. destruct H12; congruence. }
      destruct (stale_copies _ Hs) as [H1 H2]. destruct H12 as [H4|H4];
        [destruct (ww_frames _ _ _ _ HW b b' (us0 (blk b)) (us1 (blk b')) (us0 (blk b) + i))
        |destruct (ww_frames _ _ _ _ HW b b' (us0 (blk b)) (us2 (blk b')) (us0 (blk b) + i))];
        auto using frame_elem0, frame_elem1, frame_elem2.
Qed.
End to_ro.

(** The process has no memory events that [handle_hme_events] must copy first. *)
Definition no_events (k : kstate) (p : Z) : Prop :=
  p_nb_hardening_mem_events (hp k p) = 0 ∧ p_hardening_mem_events (hp k p) = None.

Lemma handle_no_events k p : p_nb_hardening_mem_events (hp k p) = 0 → handle_hme_events p k = Ret (OK, k).
Proof. intros Hn. unfold handle_hme_events, mbind, M_bind, gets. rewrite Hn. reflexivity. Qed.
Lemma free_no_events k p : p_nb_hardening_mem_events (hp k p) = 0 → free_hardening_mem_events p k = Ret ((), k).
Proof. intros Hn. unfold free_hardening_mem_events, mbind, M_bind, gets. rewrite Hn. reflexivity. Qed.

Lemma set_pe_mem_to_ro_spec k p root l :
  ws_wf k p root l →
  (∀ b, b ∈ l → us0 (working_set k b) ≠ MAP_NONE) → (∀ b, b ∈ l → paired (working_set k b)) →
  (∀ b, b ∈ l → I386_VM_PFA (phys k (pte_addr (phys k) root (vaddr (working_set k b)))) ≠ 0) →
  h_step (kh k) = SECOND_RUN ∨ no_events k p →
  wp (set_pe_mem_to_ro p root) (λ r k', r = OK ∧ mem_only k k' ∧
    (∀ b, b ∈ l → isolated (phys k') root (h_step (kh k)) (working_set k b)) ∧
    (∀ b, b ∈ l → frame_same (phys k) (us0 (working_set k b)) (phys k') (us0 (working_set k b)))) k.
Proof.
  intros HW Hus0 Hpair Hpfa Hev. unfold set_pe_mem_to_ro. wp_steps. rewrite (ww_size _ _ _ _ HW).
  destruct (Z.leb_spec (Z.of_nat (length l)) 0) as [Hl|Hl].
  { destruct l; [|simpl in Hl; lia]. wp_steps. split_and!; [done|apply mem_only_refl|by intros b ?%elem_of_nil..]. }
  wp_steps. eapply wp_intro with (a := ()) (s' := k).
  { destruct Hev as [->|[Hn Hnone]]; [done|]. destruct (h_step (kh k) =? FIRST_RUN); [|done].
    unfold mbind, M_bind. rewrite (handle_no_events k p Hn). exact (free_no_events k p Hn). }
  wp_steps. eapply wp_mono; [exact (set_pe_walk k p root l HW Hus0 Hpfa)|]. intros [] k' Hd. wp_steps. split; [done|].
  by apply (blocks_done_isolated k p root l).
Qed.


(** Roll back: [vm_reset_pram], called to abort a run or because the two runs disagree,
    leaves the committed content of every page in all of its three frames, maps the pages that
    have copies to [us0], and forgets that they were written. *)
Theorem reset_pram_rolls_back k p root l endcmp :
  ws_wf k p root l → rolls_back k endcmp →
  wp (vm_reset_pram p root endcmp) (λ _ k', rolled_back k k' root l) k.
Proof. intros. by apply vm_reset_pram_rollback. Qed.

(** Commit: [vm_reset_pram], called because the two runs agree, puts the pages that the
    second run wrote into the committed frames, leaves the other committed frames alone, and
    maps every page to its committed frame. *)
Theorem reset_pram_commits k p root l :
  ws_wf k p root l → (∀ b, b ∈ l → us0 (working_set k b) ≠ MAP_NONE) →
  (∀ b, b ∈ l → has (pmb_flags (working_set k b)) WS_SHARED = false) → h_step (kh k) = SECOND_RUN →
  wp (vm_reset_pram p root CPY_RAM_PRAM) (λ _ k', committed k k' root l) k.
Proof. intros. by apply vm_reset_pram_commit. Qed.

(** ** A process with two pages *)

Definition demo_pmb (b : Z) : pram_mem_block :=
  if b =? 0 then mk_pmb 0 0 0 0x08048000 0x200000 0x201000 0x202000 (Some 1)
  else if b =? 1 then mk_pmb 1 HGET_PF 0 0x08049000 0x203000 0x204000 0x205000 None
  else pmb0.
(** The page directory is at 0x100000, the page table at 0x101000. *)
Definition demo_mem (a : Z) : Z :=
  if a =? 0x100080 then 0x101007
  else if a =? 0x101120 then 0x200007
  else if a =? 0x101124 then 0x203007
  else a.
Definition pram_demo (step : Z) : kstate :=
  upd_proc 20 (λ q, q <| p_h ::= λ h, h <| p_lus1_us2 := Some 0 |> <| p_lus1_us2_size := 2 |> |>)
    (k0 <| working_set := demo_pmb |> <| phys := demo_mem |> <| kh ::= λ h, h <| h_step := step |> |>).

Lemma pram_demo_wf step : ws_wf (pram_demo step) 20 0x100000 [0; 1].
Proof.
  assert (∀ b, b ∈ [0; 1] → b = 0 ∨ b = 1) as Hb by set_solver.
  assert (∀ f, f ∈ block_frames (demo_pmb 0) → f = 0x200000 ∨ f = 0x201000 ∨ f = 0x202000) as F0.
  { intros f Hf. change (block_frames (demo_pmb 0)) with [0x200000; 0x201000; 0x202000] in Hf. set_solver. }
  assert (∀ f, f ∈ block_frames (demo_pmb 1) → f = 0x203000 ∨ f = 0x204000 ∨ f = 0x205000) as F1.
  { intros f Hf. change (block_frames (demo_pmb 1)) with [0x203000; 0x204000; 0x205000] in Hf. set_solver. }
  split.
  - vm_compute. congruence.
  - repeat (split; [reflexivity|]). done.
  - done.
  - unfold HLIST_FUEL. simpl. apply Nat2Z.inj_le. rewrite Z2Nat.id; done.
  - intros b f [-> | ->]%Hb; [intros [-> |[-> | ->]]%F0|intros [-> |[-> | ->]]%F1]; vm_compute; reflexivity.
  - intros b [-> | ->]%Hb; apply (bool_decide_unpack _); vm_compute; exact I.
  - intros b b' f f' a [-> | ->]%Hb [-> | ->]%Hb;
      [intros H1%F0 H2%F0|intros H1%F0 H2%F1|intros H1%F1 H2%F0|intros H1%F1 H2%F1];
      intros H3%in_frame_spec H4%in_frame_spec; unfold I386_PAGE_SIZE in *; lia.
  - intros b b' f [-> | ->]%Hb [-> | ->]%Hb; [intros [-> |[-> | ->]]%F0..|intros [-> |[-> | ->]]%F1|intros [-> |[-> | ->]]%F1];
      vm_compute; split; reflexivity.
  - intros b b' [-> | ->]%Hb [-> | ->]%Hb; vm_compute; congruence.
  - intros b b' [-> | ->]%Hb [-> | ->]%Hb; vm_compute; congruence.
Qed.

Lemma check_vaddr_2_maps_copy_witness :
  wp (check_vaddr_2 20 0x100000 0x08048123) (λ r k',
    r = (OK, Some K_HANDLE_PF) ∧ I386_VM_PFA (phys k' 0x101120) = 0x202000 ∧
    has (phys k' 0x101120) I386_VM_WRITE = true) (pram_demo SECOND_RUN).
Proof.
  eapply wp_mono.
  - apply (check_vaddr_2_maps_copy (pram_demo SECOND_RUN) 20 0x100000 0x08048123 0);
      try (vm_compute; reflexivity); [by right|vm_compute; congruence..].
  - intros r k' (-> & H1 & H2 & _). split; [reflexivity|]. split; [exact H1|exact H2].
Defined.

Lemma demo_blocks (P : pram_mem_block → Prop) step :
  P (demo_pmb 0) → P (demo_pmb 1) → ∀ b, b ∈ [0; 1] → P (working_set (pram_demo step) b).
Proof. intros H0 H1 b Hb. assert (b = 0 ∨ b = 1) as [-> | ->] by set_solver; [exact H0|exact H1]. Qed.


Lemma reset_pram_rolls_back_witness :
  wp (vm_reset_pram 20 0x100000 CMP_FAILED) (λ _ k', rolled_back (pram_demo SECOND_RUN) k' 0x100000 [0; 1])
    (pram_demo SECOND_RUN).
Proof.
  apply (reset_pram_rolls_back (pram_demo SECOND_RUN) 20 0x100000 [0; 1] CMP_FAILED (pram_demo_wf SECOND_RUN)).
  right. split; reflexivity.
Defined.

Lemma reset_pram_commits_witness :
  wp (vm_reset_pram 20 0x100000 CPY_RAM_PRAM) (λ _ k', committed (pram_demo SECOND_RUN) k' 0x100000 [0; 1])
    (pram_demo SECOND_RUN).
Proof.
  apply (reset_pram_commits (pram_demo SECOND_RUN) 20 0x100000 [0; 1] (pram_demo_wf SECOND_RUN)).
  - apply (demo_blocks (λ x, us0 x ≠ MAP_NONE)); vm_compute; congruence.
  - apply (demo_blocks (λ x, has (pmb_flags x) WS_SHARED = false)); vm_compute; reflexivity.
  - reflexivity.
Defined.
