(* ===== verification/Dwc.v ===== *)
(** * Duplication with comparison: the runs of a processing element

    kernel/arch/i386/dwc.c with what it calls: the retirement counter (irh.c), single stepping
    (ssh.c), fault injection ([inject_error_in_gpregs] of hcow.c), the machine check handler
    (mca.c), [context_stop] of arch_clock.c and [restore_user_context] of arch_system.c.

    A processing element is what a hardened process does between two kernel entries.  It is run
    twice from the same context; at the end of the second run the registers and the written
    pages of both runs are compared, and the process goes on only if they agree.

    - The mode switch to a process is the end of a computation: [restore_user_context] returns
      in the state that the process finds, and [task_end] tells whether [hardening_task]
      returned to its caller or switched to the process.
    - The retirement counter reads what was last written to it; the process advances it while
      it runs.  The local APIC is not modelled.
    - The statistics kept in time stamps are left out. *)
From S2P Require Import Prelude LinkedList Kernel Sched Notify Ipc HMem WorkingSet HShared Pram.

Definition KTS_NONE : Z := 1.
Definition KTS_INT_HARD : Z := 2.
Definition KTS_INT_ORIG : Z := 3.
Definition KTS_INT_UM : Z := 4.
Definition KTS_FULLCONTEXT : Z := 5.
Definition KTS_SYSENTER : Z := 6.
Definition KTS_SYSCALL : Z := 7.
Definition TRACEBIT : Z := 0x100.
Definition INS_2_EXEC : Z := 0x7270E00.
Definition INS_THRESHOLD : Z := 0xFFFFFFFF.
Definition RIPV : Z := 1.
Definition MCIP : Z := 4.

Definition u16 (x : Z) : Z := x mod 2 ^ 16.
Definition make64 (lo hi : Z) : Z := hi * 2 ^ 32 + lo.
Definition ex64lo (x : Z) : Z := x mod 2 ^ 32.
Definition ex64hi (x : Z) : Z := x / 2 ^ 32.

(** ** The retirement counter (irh.c) *)

(** [ia32_msr_write(INTEL_MSR_PERFMON_CRT1, hi, lo)]. *)
Definition write_ins_ctr (hi lo : Z) : K unit := modify (λ k, k <| ins_ctr := make64 lo hi |>).
Definition reset_counter : K unit :=
  modify (λ k, k <| ins_ctr_on := false |>);;
  write_ins_ctr 0 0.
Definition enable_counter : K unit := modify (λ k, k <| ins_ctr_on := true |>).
Definition update_ins_ctr_switch : K unit := modify (λ k, k <| ins_ctr_switch := ins_ctr k |>).

Definition get_remain_ins_counter_value_0 (p : Z) : K unit :=
  ins ← gets ins_ctr;
  modify (λ k, k <| ins_ctr_switch := ins |>);;
  modify_hproc p (λ h, h <| p_remaining_ins := ins |>).
Definition get_remain_ins_counter_value (p : Z) : K unit :=
  get_remain_ins_counter_value_0 p;;
  modify_hproc p (λ h, h <| p_ins_last := p_remaining_ins h |>).

Definition set_remain_ins_counter_value (p : Z) : K unit :=
  write_ins_ctr 0 0;;
  h ← gets (λ k, hp k p);
  (if negb (p_start_count_ins h =? 0) then
     write_ins_ctr (ex64hi (p_remaining_ins h)) (ex64lo (p_remaining_ins h));;
     modify_hproc p (λ h, h <| p_remaining_ins := 0 |>)
   else
     write_ins_ctr 0xffff (u32 (INS_THRESHOLD - INS_2_EXEC + 1));;
     modify_hproc p (λ h, h <| p_start_count_ins := 1 |>));;
  update_ins_ctr_switch.
Definition set_remain_ins_counter_value_0 (p : Z) : K unit :=
  write_ins_ctr INS_THRESHOLD (u32 (INS_THRESHOLD - INS_2_EXEC + 1));;
  modify_hproc p (λ h, h <| p_start_count_ins := 1 |>);;
  ins ← gets ins_ctr;
  modify_hproc p (λ h, h <| p_ins_last := ins |>);;
  update_ins_ctr_switch;;
  get_remain_ins_counter_value_0 p.
Definition set_remain_ins_counter_value_1 (p : Z) : K unit :=
  h ← gets (λ k, hp k p);
  write_ins_ctr (ex64hi (p_remaining_ins h)) (ex64lo (p_remaining_ins h));;
  modify_hproc p (λ h, h <| p_remaining_ins := 0 |>);;
  update_ins_ctr_switch.

Definition irh : K Z :=
  p ← gets proc_ptr;
  ovf ← gets ovf_pmc0;
  if ovf : bool then
    modify (λ k, k <| ovf_pmc0 := false |>);;
    write_ins_ctr 0 0;;
    step ← gets (λ k, h_step (kh k));
    last ← gets (λ k, p_ins_last (hp k p));
    (if step =? FIRST_RUN then modify_h (λ h, h <| first_run_ins := u32 last |>) else mret ());;
    (if step =? SECOND_RUN then modify_h (λ h, h <| secnd_run_ins := u32 last |>) else mret ());;
    modify_h (λ h, h <| origin_syscall := PE_END_IN_NMI |> <| nb_nmi ::= Z.succ |>);;
    modify_hproc p (λ h, h <| p_nb_nmi ::= Z.succ |>);;
    mret OK
  else mret EFAULT.

Definition reset_ins_params (p : Z) : K unit :=
  modify_hproc p (λ h, h <| p_ins_last := 0 |> <| p_remaining_ins := 0 |>);;
  step ← gets (λ k, h_step (kh k));
  if step =? FIRST_RUN then modify_hproc p (λ h, h <| p_ins_first := 0 |>)
  else modify_hproc p (λ h, h <| p_ins_secnd := 0 |>).

(** ** Saving and restoring contexts *)

Definition modify_reg (p : Z) (f : stackframe → stackframe) : K unit := modify_proc p (λ q, q <| p_reg ::= f |>).

(** The registers that a copy holds; [st] and [retadr] of the copy keep their values unless
    the code assigns them. *)
Definition saved_regs (r old : stackframe) (st' : Z) : stackframe :=
  mk_stackframe (u16 (gs r)) (u16 (fs r)) (u16 (es r)) (u16 (ds r)) (di r) (si r) (fp r) st'
    (bx r) (dx r) (cx r) (retreg r) (retadr old) (pc r) (cs r) (psw r) (sp r) (ss r).
(** The registers of the process after they were restored from a copy. *)
Definition restored_regs (c r : stackframe) : stackframe :=
  mk_stackframe (u16 (gs c)) (u16 (fs c)) (u16 (es c)) (u16 (ds c)) (di c) (si c) (fp c) (st r)
    (bx c) (dx c) (cx c) (retreg c) (retadr r) (pc c) (cs c) (psw c) (sp c) (ss c).

Definition save_copy_0 (p : Z) : K unit :=
  q ← gets (λ k, proctab k p);
  cr ← gets cpu_cr;
  modify_h (λ h, h <| copy_0 ::= λ c,
    mk_copy0 (saved_regs (p_reg q) (c0_regs c) (st (c0_regs c))) (p_kern_trap_style q) (p_rts_flags q)
      (p_cpu_time_left q) cr |>).

(** [cr2] is not written. *)
Definition write_cr (c : cregs) : K unit :=
  modify (λ k, k <| cpu_cr ::= λ r, mk_cregs (cr0 c) (cr2 r) (cr3 c) (cr4 c) |>).

Definition restore_copy_0 (p : Z) : K unit :=
  c ← gets (λ k, copy_0 (kh k));
  modify_proc p (λ q, q <| p_reg ::= restored_regs (c0_regs c) |>
    <| p_cpu_time_left := c0_cpu_time_left c |> <| p_kern_trap_style := c0_trap_style c |>
    <| p_rts_flags := c0_rts_flags c |>);;
  write_cr (c0_cr c).

(** [st_1] is given [ss], [st_2] is given [st]. *)
Definition run_context (q : proc) (st' : Z) (h : hglobals) (cr : cregs) (old : copy12) : copy12 :=
  mk_copy12 (saved_regs (p_reg q) (c_regs old) st') (p_kern_trap_style q) (origin_syscall h) (kregs_s h) cr.
Definition save_copy_1 (p : Z) : K unit :=
  q ← gets (λ k, proctab k p);
  cr ← gets cpu_cr;
  modify_h (λ h, h <| copy_1 := run_context q (ss (p_reg q)) h cr (copy_1 h) |>).
Definition save_copy_2 (p : Z) : K unit :=
  q ← gets (λ k, proctab k p);
  cr ← gets cpu_cr;
  modify_h (λ h, h <| copy_2 := run_context q (st (p_reg q)) h cr (copy_2 h) |>).
Definition restore_copy_1 (p : Z) : K unit :=
  c ← gets (λ k, copy_1 (kh k));
  modify_proc p (λ q, q <| p_reg ::= restored_regs (c_regs c) |> <| p_kern_trap_style := c_trap_style c |>);;
  write_cr (c_cr c).

Definition save_context (p : Z) : K unit :=
  step ← gets (λ k, h_step (kh k));
  (if step =? FIRST_RUN then save_copy_1 p else mret ());;
  (if step =? SECOND_RUN then save_copy_2 p else mret ()).

(** The list of the working set is put back as it was. *)
Definition keep_ws (p : Z) (restore : K unit) : K unit :=
  pmb ← gets (λ k, p_lus1_us2 (hp k p));
  lus1_us2_size ← gets (λ k, p_lus1_us2_size (hp k p));
  restore;;
  modify_hproc p (λ h, h <| p_lus1_us2 := pmb |> <| p_lus1_us2_size := lus1_us2_size |>).

Definition restore_for_stepping_first_run (p : Z) : K unit :=
  keep_ws p (restore_copy_1 p);;
  left ← gets (λ k, ms_2_cpu_time k (p_quantum_size_ms (proctab k p)));
  modify_proc p (λ q, q <| p_cpu_time_left := left |>).

(** ** Comparing the runs *)

(** The words that are compared: few for a system call ([origin_syscall] 1 and 2). *)
Definition cmp_words (h : hglobals) (pagefault_addr : Z) (c : copy12) : list Z :=
  let r := c_regs c in
  if origin_syscall h =? 1 then [pc r; psw r; sp r; c_origin c]
  else if origin_syscall h =? 2 then
    [di r; si r; fp r; bx r; dx r; cx r; retreg r; pc r; cs r; psw r; sp r; c_origin c]
  else
    [gs r; fs r; es r; ds r; di r; si r; fp r; bx r; dx r; cx r; retreg r; pc r; cs r; psw r; sp r; ss r;
     c_origin c;
     eax_s (c_kregs c); ebx_s (c_kregs c); ecx_s (c_kregs c); edx_s (c_kregs c);
     esi_s (c_kregs c); edi_s (c_kregs c); esp_s (c_kregs c); ebp_s (c_kregs c);
     pagefault_addr; cr0 (c_cr c); cr2 (c_cr c); cr3 (c_cr c); cr4 (c_cr c)].
Definition cmp_reg (k : kstate) : bool :=
  bool_decide (cmp_words (kh k) (pagefault_addr_1 (kh k)) (copy_1 (kh k)) =
               cmp_words (kh k) (pagefault_addr_2 (kh k)) (copy_2 (kh k))).

(** One page of [cmp_mem]: the value to return, if the comparison ends here. *)
Definition cmp_block (p b : Z) : K (option Z) :=
  pmb ← gets (λ k, working_set k b);
  if (us2 pmb =? MAP_NONE) || (us1 pmb =? MAP_NONE) then mret None
  else if has (pmb_flags pmb) FWS then
    same ← gets (λ k, cmp_frames k (us2 pmb) (us1 pmb));
    if same : bool then
      modify_hproc p (λ h, h <| p_workingset_size ::= Z.succ |>);;
      clear_pmb_flag b FWS;;
      mret None
    else mret (Some EFAULT)
  else mret None.
Definition cmp_mem (p : Z) : K Z :=
  size ← gets (λ k, p_lus1_us2_size (hp k p));
  if size <=? 0 then mret OK
  else
    first ← gets (λ k, p_lus1_us2 (hp k p));
    modify_hproc p (λ h, h <| p_workingset_size := 0 |>);;
    r ← walk_ret HLIST_FUEL pmb_next first (cmp_block p);
    mret (default OK r).

(** ** Single stepping (ssh.c) *)

Definition clear_trace (p : Z) : K unit := modify_reg p (λ r, r <| psw ::= clear_flag TRACEBIT |>).
Definition start_stepping (p : Z) : K unit :=
  modify_proc p (λ q, q <| p_misc_flags ::= set_flag MF_STEP |>);;
  modify_h (λ h, h <| h_unstable_state := H_STEPPING |>).

Definition ssh (p : Z) : K Z :=
  mode ← gets (λ k, h_ss_mode (kh k));
  if mode =? 0 then mret OK
  else
    modify_h (λ h, h <| origin_syscall := PE_END_IN_NMI |>);;
    clear_trace p;;
    save_context p;;
    step ← gets (λ k, h_step (kh k));
    (if step =? FIRST_STEPPING then modify_h (λ h, h <| first_run_ins ::= λ n, u32 (n + 1) |>)
     else modify_h (λ h, h <| secnd_run_ins ::= λ n, u32 (n + 1) |>));;
    differ ← gets (λ k, negb (secnd_run_ins (kh k) =? first_run_ins (kh k)) && negb (cmp_reg k));
    if differ : bool then
      modify_h (λ h, h <| h_stop_pe := H_NO |>);;
      start_stepping p;;
      clear_trace p;;
      mret EFAULT
    else
      modify_proc p (λ q, q <| p_misc_flags ::= clear_flag MF_STEP |>);;
      modify_h (λ h, h <| h_unstable_state := H_STEPPING |>);;
      clear_trace p;;
      (if step =? FIRST_STEPPING then modify_h (λ h, h <| h_step := SECOND_RUN |>) else mret ());;
      mret OK.

Definition ssh_init (p : Z) : K unit :=
  modify_hproc p (λ h, h <| p_nb_ss ::= Z.succ |>);;
  modify_h (λ h, h <| h_ss_mode := 1 |>);;
  h ← gets kh;
  if secnd_run_ins h <? first_run_ins h then start_stepping p
  else if first_run_ins h <? secnd_run_ins h then
    root ← gets (λ k, p_cr3 (proctab k p));
    vm_reset_pram p root CPY_RAM_FIRST_STEPPING;;
    restore_for_stepping_first_run p;;
    start_stepping p;;
    modify_h (λ h, h <| h_step := FIRST_STEPPING |>)
  else mret ().

(** ** Fault injection ([inject_error_in_gpregs] of hcow.c) *)

Definition flip (i x : Z) : Z := if has x (Z.shiftl 1 i) then clear_flag (Z.shiftl 1 i) x else set_flag (Z.shiftl 1 i) x.
(** The segment registers are 16 bits wide. *)
Definition flip16 (i x : Z) : Z := u16 (flip i x).

Definition injected (id : Z) (r : stackframe) : stackframe :=
  let i := id mod REG_SIZE in
  match id / REG_SIZE with
  | 0 => if i =? 17 then r else r <| psw ::= flip i |>
  | 1 => r <| ss ::= flip i |>
  | 2 => r <| sp ::= flip i |>
  | 3 => r <| cs ::= flip i |>
  | 4 => r <| di ::= flip i |>
  | 5 => r <| si ::= flip i |>
  | 6 => r <| fp ::= flip i |>
  | 7 => r <| bx ::= flip i |>
  | 8 => r <| dx ::= flip i |>
  | 9 => r <| cx ::= flip i |>
  | 10 => r <| retreg ::= flip i |>
  | 11 => r <| pc ::= flip i |>
  | 12 => r <| ds ::= flip16 i |>
  | 13 => r <| es ::= flip16 i |>
  | 14 => r <| fs ::= flip16 i |>
  | 15 => r <| gs ::= flip16 i |>
  | _ => r
  end.
Definition inject_error_in_gpregs (p : Z) : K Z :=
  id ← gets (λ k, gpr_bit_id (kh k));
  modify_reg p (injected id);;
  modify_h (λ h, h <| gpr_bit_id := if 16 * REG_SIZE <=? id + 1 then 0 else id + 1 |>);;
  mret OK.

(** ** From the kernel to a process *)

(** [if (a < b)] on the halves of 64-bit values. *)
Definition lt64 (a b : Z) : bool :=
  (ex64hi a <? ex64hi b) || ((ex64hi a =? ex64hi b) && (ex64lo a <? ex64lo b)).

Definition context_stop (p : Z) : K unit :=
  t ← gets tsc;
  sw ← gets tsc_ctr_switch;
  let tsc_delta := u64 (t - sw) in
  modify_proc p (λ q, q <| p_cycles ::= λ c, u64 (c + tsc_delta) |>);;
  ipc ← gets kbill_ipc;
  (match ipc with
   | Some q => modify_proc q (λ x, x <| p_kipc_cycles ::= λ c, u64 (c + tsc_delta) |>);;
               modify (λ k, k <| kbill_ipc := None |>)
   | None => mret ()
   end);;
  kcall ← gets kbill_kcall;
  (match kcall with
   | Some q => modify_proc q (λ x, x <| p_kcall_cycles ::= λ c, u64 (c + tsc_delta) |>);;
               modify (λ k, k <| kbill_kcall := None |>)
   | None => mret ()
   end);;
  e ← gets (λ k, p_endpoint (proctab k p));
  (if 0 <=? e then
     modify_proc p (λ q, q <| p_cpu_time_left ::= λ l, if lt64 tsc_delta l then u64 (l - tsc_delta) else 0 |>)
   else mret ());;
  modify (λ k, k <| tsc_ctr_switch := t |>);;
  mine ← gets (λ k, negb (h_enable (kh k) =? 0) && (h_proc_nr (kh k) =? p_nr (proctab k p)));
  if mine : bool then get_remain_ins_counter_value p else mret ().

(** [switch_address_space] (klib.S). *)
Definition switch_address_space (p : Z) : K unit :=
  new ← gets (λ k, p_cr3 (proctab k p));
  cur ← gets (λ k, cr3 (cpu_cr k));
  if (new =? 0) || (new =? cur) then mret ()
  else modify (λ k, k <| cpu_cr ::= λ r, r <| cr3 := new |> |> <| ptproc := p |>).

(** Inject a fault when the turn of this run has come. *)
Definition maybe_inject (p : Z) (turn : Z → bool) : K unit :=
  h ← gets kh;
  nb ← gets (λ k, p_nb_pe (hp k p));
  if negb (h_inject_fault h =? 0) && (could_inject h =? H_YES) && turn nb then
    inject_error_in_gpregs p;;
    modify_h (λ h, h <| could_inject := H_NO |> <| nb_injected_faults ::= Z.succ |>);;
    modify_hproc p (λ h, h <| p_nb_inj_fault ::= Z.succ |>)
  else mret ().

Definition update_step (step : Z) : K unit := modify_h (λ h, h <| h_step := step |>).

(** A new processing element starts. *)
Definition dwc_start (p : Z) : K unit :=
  assert_ (λ k, h_wait_vm_reply (kh k) =? H_NO) "start_dwc: h_wait_vm_reply";;
  assert_ (λ k, h_step (kh k) =? NO_HARD_RUN) "start_dwc: h_step";;
  nr ← gets (λ k, p_nr (proctab k p));
  modify_h (λ h, h <| h_proc_nr := nr |>);;
  update_step FIRST_RUN;;
  root ← gets (λ k, p_cr3 (proctab k p));
  set_pe_mem_to_ro p root;;
  save_copy_0 p;;
  set_remain_ins_counter_value_0 p;;
  modify_h (λ h, h <| h_enable := H_ENABLE |>);;
  maybe_inject p (λ nb, Z.rem nb 2 =? 0).

(** A run starts from the saved context. *)
Definition dwc_restore (p : Z) : K unit :=
  assert_ (λ k, h_proc_nr (kh k) =? p_nr (proctab k p)) "start_dwc: h_proc_nr";;
  keep_ws p (restore_copy_0 p);;
  restore ← gets (λ k, h_restore (kh k));
  (if restore =? RESTORE_FOR_SECOND_RUN then update_step SECOND_RUN
   else if restore =? RESTORE_FOR_FISRT_RUN then update_step FIRST_RUN
   else panic "UNKOWN RESTORING STATE");;
  root ← gets (λ k, p_cr3 (proctab k p));
  set_pe_mem_to_ro p root;;
  modify_h (λ h, h <| h_restore := 0 |>);;
  set_remain_ins_counter_value_0 p;;
  assert_ (λ k, proc_is_runnable k p) "start_dwc: proc_is_runnable";;
  maybe_inject p (λ nb, negb (Z.rem nb 2 =? 0)).

Definition start_dwc (p : Z) : K unit :=
  fresh ← gets (λ k, (h_enable (kh k) =? H_DISABLE) && negb (p_nr (proctab k p) =? VM_PROC_NR) &&
                     has (p_hflags (hp k p)) PROC_TO_HARD);
  (if fresh : bool then dwc_start p else mret ());;
  again ← gets (λ k, (h_enable (kh k) =? H_ENABLE) &&
                     ((h_restore (kh k) =? RESTORE_FOR_SECOND_RUN) || (h_restore (kh k) =? RESTORE_FOR_FISRT_RUN)));
  (if again : bool then dwc_restore p else mret ());;
  nr ← gets (λ k, p_nr (proctab k p));
  h ← gets kh;
  (if negb (h_enable h =? 0) && negb (h_proc_nr h =? nr) && negb (nr =? VM_PROC_NR)
   then panic "Interference in the hardening task" else mret ());;
  pf ← gets (λ k, RTS_ISSET k (h_proc_nr h) RTS_PAGEFAULT);
  (if negb (h_enable h =? 0) && (nr =? VM_PROC_NR) && negb pf && negb (h_step h =? VM_RUN)
   then panic "Le VM tente de s'executer sans une page fault" else mret ());;
  (if (h_enable h =? H_ENABLE) && (nr =? h_proc_nr h)
   then set_remain_ins_counter_value_1 p;; enable_counter
   else reset_counter);;
  (if (h_enable h =? H_ENABLE) && ((h_step h =? FIRST_RUN) || (h_step h =? SECOND_RUN))
   then assert_ (λ _, h_proc_nr h =? nr) "start_dwc: only the PE runs" else mret ());;
  if (h_enable h =? H_ENABLE) && ((h_step h =? VM_RUN) || negb (vm_should_run h =? 0))
  then assert_ (λ _, VM_PROC_NR =? nr) "start_dwc: only VM runs" else mret ().

(** Ends in the state in which the process goes on. *)
Definition restore_user_context (p : Z) : K unit :=
  start_dwc p;;
  trap_style ← gets (λ k, p_kern_trap_style (proctab k p));
  modify_proc p (λ q, q <| p_kern_trap_style := KTS_NONE |>);;
  if bool_decide (trap_style ∈ [KTS_SYSENTER; KTS_SYSCALL; KTS_INT_HARD; KTS_INT_UM; KTS_FULLCONTEXT; KTS_INT_ORIG])
  then mret ()
  else if trap_style =? KTS_NONE then panic "no entry trap style known"
  else panic "unknown trap style recorded".

Definition run_proc_2 (p : Z) : K unit :=
  modify (λ k, k <| proc_ptr := p |>);;
  switch_address_space p;;
  context_stop KERNEL;;
  assert_ (λ k, negb (p_cr3 (proctab k p) =? 0)) "run_proc_2: p_cr3 != 0";;
  restore_user_context p.

(** ** The end of a run *)

Definition reset_hardened_run (p : Z) : K unit :=
  modify_h (λ h, if origin_syscall h =? PE_END_IN_NMI then h <| h_exception := 1 |> else h);;
  modify_h (λ h, h <| h_enable := 0 |> <| h_proc_nr := 0 |> <| h_step_back := 0 |> <| h_step := 0 |>
    <| h_do_sys_call := 0 |> <| h_do_nmi := 0 |> <| vm_should_run := 0 |> <| pe_should_run := 0 |>
    <| h_restore := 0 |> <| h_normal_pf := 0 |> <| h_pf_handle_by_k := 0 |> <| h_unstable_state := H_STABLE |>
    <| h_rw := 0 |> <| id_current_pe ::= Z.succ |> <| pagefault_addr_1 := 0 |> <| pagefault_addr_2 := 0 |>
    <| nbpe ::= Z.succ |>);;
  modify_hproc p (λ h, h <| p_start_count_ins := 0 |> <| p_nb_pe ::= Z.succ |>);;
  modify_proc p (λ q, q <| p_misc_flags ::= clear_flag MF_STEP |>);;
  sig ← gets (λ k, p_sig_delay (hp k p));
  if negb (sig =? -1) then
    nr ← gets (λ k, p_nr (proctab k p));
    cause_sig nr sig;;
    modify_hproc p (λ h, h <| p_sig_delay := -1 |>)
  else mret ().

Inductive task_end : Type :=
| TaskReturned
| SwitchedTo (p : Z).

(** The comparison of the runs and what follows from it (label [cmp_step]). *)
Definition cmp_step (p : Z) : K task_end :=
  root ← gets (λ k, p_cr3 (proctab k p));
  same ← gets cmp_reg;
  r ← (if same : bool then cmp_mem p else mret EFAULT);
  if negb (r =? OK) then
    vm_reset_pram p root CMP_FAILED;;
    modify_h (λ h, h <| h_restore := RESTORE_FOR_FISRT_RUN |>);;
    modify_proc p (λ q, q <| p_rts_flags ::= set_flag RTS_UNSTABLE_STATE |>);;
    modify_h (λ h, h <| nbpe_f ::= Z.succ |>);;
    modify_hproc p (λ h, h <| p_nb_dwc_d_f ::= Z.succ |>);;
    origin ← gets (λ k, origin_syscall (kh k));
    (if (origin =? 6) || (origin =? 7) || (origin =? 8)
     then modify_hproc p (λ h, h <| p_nb_exception_d_f ::= Z.succ |>) else mret ());;
    run_proc_2 p;;
    mret (SwitchedTo p)
  else
    vm_reset_pram p root CPY_RAM_PRAM;;
    reset_hardened_run p;;
    mret TaskReturned.

Definition hardening_task : K task_end :=
  assert_ (λ k, negb (h_enable (kh k) =? 0)) "hardening_task: h_enable";;
  p ← gets proc_ptr;
  assert_ (λ k, h_proc_nr (kh k) =? p_nr (proctab k p)) "hardening_task: h_proc_nr";;
  assert_ (λ k, negb (h_proc_nr (kh k) =? VM_PROC_NR)) "hardening_task: VM_PROC_NR";;
  get_remain_ins_counter_value p;;
  save_context p;;
  step ← gets (λ k, h_step (kh k));
  if step =? FIRST_RUN then
    assert_ (λ k, h_restore (kh k) =? 0) "hardening_task: h_restore";;
    modify_h (λ h, h <| h_restore := RESTORE_FOR_SECOND_RUN |>);;
    root ← gets (λ k, p_cr3 (proctab k p));
    vm_reset_pram p root CPY_RAM_FIRST;;
    run_proc_2 p;;
    mret (SwitchedTo p)
  else if step =? SECOND_RUN then
    stepping ← gets (λ k, (origin_syscall (kh k) =? PE_END_IN_NMI) &&
                          negb (secnd_run_ins (kh k) =? first_run_ins (kh k)) && negb (cmp_reg k));
    if stepping : bool then ssh_init p;; mret TaskReturned else cmp_step p
  else cmp_step p.

Definition abort_pe (p : Z) : K unit :=
  root ← gets (λ k, p_cr3 (proctab k p));
  vm_reset_pram p root ABORT_PE;;
  restore_copy_0 p;;
  reset_hardened_run p;;
  modify_hproc p (λ h, h <| p_nb_abort ::= Z.succ |>).
