(* ===== verification/Hardening.v ===== *)
(** * Exceptions of a processing element, and who runs next

    [hardening_exception_handler] (kernel/arch/i386/heh.c) with [mcah] (mca.c); [pagefault] and
    [exception_handler] (exception.c) for an exception that a user process causes
    ([is_nested] = 0); [hpick_proc] and [pick_proc] (kernel/proc.c); the kernel call
    [do_hardening] (kernel/system/do_hardening.c) and [sendmsg2vm] (hcow.c). *)
From S2P Require Import Prelude LinkedList Kernel Endpoint Sched Notify Ipc HMem WorkingSet HShared Pram Dwc.

Definition DEBUG_VECTOR : Z := 1.
Definition NMI_VECTOR : Z := 2.
Definition PAGE_FAULT_VECTOR : Z := 14.
Definition MACHINE_CHECK_VECTOR : Z := 18.
Definition VM_RQ_BASE : Z := 0xC00.
Definition VM_HR1PAGEFAULT : Z := VM_RQ_BASE + 0x49.
Definition VM_HR2PAGEFAULT : Z := VM_RQ_BASE + 0x50.
Definition VM_TELL_VM_H_ENABLE : Z := VM_RQ_BASE + 0x51.
Definition VM_TELL_VM_H_DISABLE : Z := VM_RQ_BASE + 0x52.
Definition VM_TELL_VM_H_ENABLE_P : Z := VM_RQ_BASE + 0x53.
Definition VM_TELL_VM_H_DISABLE_P : Z := VM_RQ_BASE + 0x54.
Definition VM_HCONFMEM : Z := VM_RQ_BASE + 0x55.
Definition VM_PAGEFAULT : Z := VM_RQ_BASE + 0xff.

(** ** Exceptions while a processing element runs (heh.c) *)

(** [low] is what IA32_MCG_STATUS reads; the processor halts when the error was not corrected. *)
Definition mcah (low : Z) : Z := if has low MCIP && has low RIPV then OK else EFAULT.

Definition stop_pe (v : Z) : K unit := modify_h (λ h, h <| h_stop_pe := v |>).

Definition hardening_exception_handler (vector mcg_status : Z) : K unit :=
  assert_ (λ k, negb (h_enable (kh k) =? 0)) "hardening_exception_handler: h_enable";;
  p ← gets proc_ptr;
  assert_ (λ k, h_proc_nr (kh k) =? p_nr (proctab k p)) "hardening_exception_handler: h_proc_nr";;
  assert_ (λ k, negb (h_proc_nr (kh k) =? VM_PROC_NR)) "hardening_exception_handler: VM_PROC_NR";;
  get_remain_ins_counter_value p;;
  stop_pe H_YES;;
  if vector =? DEBUG_VECTOR then
    r ← ssh p; if negb (r =? OK) then stop_pe H_NO else mret ()
  else if vector =? NMI_VECTOR then
    r ← irh; if negb (r =? OK) then stop_pe H_NO else mret ()
  else if vector =? PAGE_FAULT_VECTOR then
    modify_h (λ h, h <| h_normal_pf := 0 |> <| h_rw := 0 |>);;
    pagefaultcr2 ← gets (λ k, cr2 (cpu_cr k));
    root ← gets (λ k, p_cr3 (proctab k p));
    '(check_r, rw) ← check_vaddr_2 p root pagefaultcr2;
    (match rw with Some v => modify_h (λ h, h <| h_rw := v |>) | None => mret () end);;
    if check_r =? OK then stop_pe H_NO else modify_h (λ h, h <| h_normal_pf := NORMAL_PF |>)
  else if vector =? MACHINE_CHECK_VECTOR then
    if mcah mcg_status =? OK then stop_pe H_NO else mret ()
  else mret ().

(** ** [pagefault] and [exception_handler] (exception.c) *)

Definition pagefault_msg (src addr errcode type : Z) : message :=
  set_m_word 1 errcode (set_m_word 0 addr (mk_message src type [])).

Definition pagefault (pr errcode : Z) : K unit :=
  pagefaultcr2 ← gets (λ k, cr2 (cpu_cr k));
  rw ← gets (λ k, h_rw (kh k));
  if rw =? K_HANDLE_PF then mret ()
  else
    (let change := (rw =? RO_PAGE_FIRST_RUN) || (rw =? RO_PAGE_SECOND_RUN) in
     (if change then
        assert_ (λ k, h_step_back (kh k) =? 0) "pagefault: h_step_back";;
        modify_h (λ h, h <| h_step_back := h_step h |>);;
        modify_h (λ h, h <| h_step := VM_RUN |>)
      else mret ());;
     e ← gets (λ k, p_endpoint (proctab k pr));
     if e =? VM_PROC_NR then panic "pagefault in VM"
     else
       RTS_SET pr RTS_PAGEFAULT;;
       let type := if negb change then VM_PAGEFAULT
                   else if rw =? RO_PAGE_FIRST_RUN then VM_HR1PAGEFAULT else VM_HR2PAGEFAULT in
       err ← mini_send pr VM_PROC_NR (KernMsg (pagefault_msg e pagefaultcr2 errcode type)) FROM_KERNEL;
       if negb (err =? 0) then panic "WARNING: pagefault: mini_send returned" else mret ()).

(** The signal of each vector ([ex_data]). *)
Definition ex_signum : list Z :=
  [SIGFPE; SIGTRAP; SIGBUS; SIGEMT; SIGFPE; SIGFPE; SIGILL; SIGFPE; SIGBUS; SIGSEGV; SIGSEGV; SIGSEGV;
   SIGSEGV; SIGSEGV; SIGSEGV; SIGILL; SIGFPE; SIGBUS; SIGBUS; SIGFPE].

(** An exception in a user process; the answer says whether TRACEBIT is cleared in the flags
    that the exception frame holds. *)
Definition exception_handler (vector errcode : Z) : K bool :=
  saved_proc ← gets proc_ptr;
  h ← gets kh;
  if h_unstable_state h =? H_UNSTABLE then
    modify_hproc saved_proc (λ x, x <| p_nb_exception_d_f ::= Z.succ |>);;
    mret false
  else if h_unstable_state h =? H_STEPPING then mret true
  else if negb (h_exception h =? 0) then
    modify_h (λ h, h <| h_exception := 0 |> <| h_ss_mode := 0 |>);;
    mret false
  else if vector =? 2 then mret false
  else if vector =? PAGE_FAULT_VECTOR then pagefault saved_proc errcode;; mret false
  else
    nr ← gets (λ k, p_nr (proctab k saved_proc));
    cause_sig nr (default 0 (ex_signum !! Z.to_nat vector));;
    mret false.

(** ** Who runs next (kernel/proc.c) *)

Definition bill (p : Z) : K unit :=
  billable ← gets (λ k, has (s_flags (priv_of k p)) BILLABLE);
  if billable : bool then modify (λ k, k <| bill_ptr := p |>) else mret ().
(** Bill the process and choose it, if it is runnable. *)
Definition choose_pe (hp_ : Z) (otherwise : string) : K (option Z) :=
  ready ← gets (λ k, proc_is_runnable k hp_);
  if ready : bool then bill hp_;; mret (Some hp_) else panic otherwise.

Definition hpick_proc : K (option Z) :=
  h ← gets kh;
  let hp_ := h_proc_nr h in
  if negb (h_enable h =? 0) then
    flg ← gets (λ k, p_rts_flags (proctab k hp_));
    if h_step h =? VM_RUN then
      if has flg RTS_PAGEFAULT then
        vm ← gets (λ k, proc_is_runnable k VM_PROC_NR);
        if negb vm then panic "hardening page fault but VM is not runnable" else mret (Some VM_PROC_NR)
      else
        ready ← gets (λ k, proc_is_runnable k hp_);
        if ready : bool then
          assert_ (λ k, (h_step_back (kh k) =? FIRST_RUN) || (h_step_back (kh k) =? SECOND_RUN)) "hpick_proc: h_step_back";;
          modify_h (λ h, h <| h_step := h_step_back h |>);;
          modify_h (λ h, h <| h_step_back := 0 |>);;
          bill hp_;;
          mret (Some hp_)
        else panic "Hardened process is not runnable after page fault handled 1"
    else if isset flg RTS_NO_QUANTUM then abort_pe hp_;; mret None
    else if has flg RTS_INS_COUNTER then
      RTS_UNSET hp_ RTS_INS_COUNTER;;
      choose_pe hp_ "Hardened process is not runnable during hardening enable 3"
    else choose_pe hp_ "Hardened process is not runnable during hardening enable 4"
  else mret None.

Definition pick_proc : K (option Z) :=
  rp ← hpick_proc;
  match rp with
  | Some p => mret (Some p)
  | None => pick_runq
  end.

(** ** Switching hardening on and off *)

Definition HTASK_EN_HARDENING_ALL_F : Z := 0x1.
Definition HTASK_DIS_HARDENING_ALL_F : Z := 0x2.
Definition HTASK_EN_HARDENING_PID : Z := 0x4.
Definition HTASK_DIS_HARDENING_PID : Z := 0x8.
Definition HTASK_EN_INJECT : Z := 0x80.
Definition HTASK_DIS_INJECT : Z := 0x100.
Definition HTASK_TYPE : message → Z := m_word 0.
Definition HTASK_P_ENDPT : message → Z := m_word 1.
Definition HTASK_ENDPT : message → Z := m_word 2.

(** Tell VM about process [p]. *)
Definition tell_vm (p type : Z) : K unit :=
  e ← gets (λ k, p_endpoint (proctab k p));
  err ← mini_send p VM_PROC_NR (KernMsg (mk_message e type [])) FROM_KERNEL;
  if negb (err =? 0) then panic "hardening: mini_send returned an error" else mret ().

(** For one process: set or clear PROC_TO_HARD. *)
Definition harden_pid (m_ptr : message) (f : Z → Z) (type : Z) : K Z :=
  ok ← gets (λ k, isokendpt k (HTASK_P_ENDPT m_ptr));
  match ok with
  | None => mret EINVAL
  | Some nr =>
      modify_hproc nr (λ h, h <| p_hflags ::= f |>);;
      tell_vm nr type;;
      mret OK
  end.

Definition do_hardening (m_ptr : message) : K Z :=
  ok ← gets (λ k, isokendpt k (HTASK_ENDPT m_ptr));
  match ok with
  | None => mret EINVAL
  | Some p =>
      let t := HTASK_TYPE m_ptr in
      if t =? HTASK_EN_HARDENING_ALL_F then
        modify_h (λ h, h <| h_can_start_hardening := 1 |>);; tell_vm p VM_TELL_VM_H_ENABLE;; mret OK
      else if t =? HTASK_DIS_HARDENING_ALL_F then
        modify_h (λ h, h <| h_can_start_hardening := 0 |>);; tell_vm p VM_TELL_VM_H_DISABLE;; mret OK
      else if t =? HTASK_EN_HARDENING_PID then harden_pid m_ptr (set_flag PROC_TO_HARD) VM_TELL_VM_H_ENABLE_P
      else if t =? HTASK_DIS_HARDENING_PID then harden_pid m_ptr (clear_flag PROC_TO_HARD) VM_TELL_VM_H_DISABLE_P
      else if t =? HTASK_EN_INJECT then modify_h (λ h, h <| h_inject_fault := 1 |>);; mret OK
      else if t =? HTASK_DIS_INJECT then modify_h (λ h, h <| h_inject_fault := 0 |>);; mret OK
      else mret OK
  end.

(** [buf] is the address of VM's [p_sendmsg]. *)
Definition sendmsg2vm (buf pr : Z) : K Z :=
  e ← gets (λ k, p_endpoint (proctab k pr));
  d ← deadlock SEND pr VM_PROC_NR;
  if negb (d =? 0) then hmini_receive pr VM_PROC_NR buf 0;; mret ELOCKED
  else
    err ← mini_send pr VM_PROC_NR (KernMsg (mk_message e VM_HCONFMEM [])) FROM_KERNEL;
    if negb (err =? 0) then panic "WARNING: pagefault: mini_send returned" else mret err.
