(* ===== verification/DwcInv.v ===== *)
(** * The comparison of the two runs, and the end of the first run

    What [cmp_mem] and [vm_reset_pram] with CPY_RAM_FIRST do to the working set, and which
    parts of the state the bookkeeping around them ([context_stop], the retirement counter)
    leaves alone. *)
From S2P Require Import Prelude LinkedList Kernel Sched Notify Ipc HMem WorkingSet HShared Pram PramInv PramRun Dwc.

(** ** Walks with an early return *)

Lemma wp_walk_ret {A} fuel next (nx : Z → option Z) start l (body : Z → K (option A)) (I : list Z → kstate → Prop)
    (Q : option A → kstate → Prop) k :
  chain nx start l None → (length l ≤ fuel)%nat → I l k →
  (∀ b l' k1, I (b :: l') k1 →
     wp (body b) (λ r k2, match r with Some v => Q (Some v) k2 | None => next k2 b = nx b ∧ I l' k2 end) k1) →
  (∀ k1, I [] k1 → Q None k1) →
  wp (walk_ret fuel next start body) Q k.
Proof.
  intros Hc Hlen HI Hstep Hend. revert start fuel k Hc Hlen HI.
  induction l as [|b l IH]; intros start fuel k Hc Hlen HI; simpl in Hc.
  { subst. destruct fuel; wp_steps; by apply Hend. }
  destruct Hc as [-> Hc]. destruct fuel as [|fuel]; simpl in Hlen; [lia|]. cbn [walk_ret].
  wp_steps. eapply wp_mono; [by apply Hstep|]. intros [v|] k2; [by wp_steps|]. intros [Hn HI2]. wp_steps. rewrite Hn.
  apply IH; [done|lia|done].
Qed.

(** ** [cmp_mem] *)

(** The page was written in the first run and has both copies. *)
Definition compared (x : pram_mem_block) : bool :=
  has (pmb_flags x) FWS && negb (us1 x =? MAP_NONE) && negb (us2 x =? MAP_NONE).
Definition page_agrees (k : kstate) (x : pram_mem_block) : Prop :=
  ∀ i, i ∈ frame_words → phys k (us2 x + i) = phys k (us1 x + i).
Definition pages_agree (k : kstate) (l : list Z) : Prop :=
  ∀ b, b ∈ l → compared (working_set k b) = true → page_agrees k (working_set k b).

Lemma cmp_frames_spec k x : cmp_frames k (us2 x) (us1 x) = true ↔ page_agrees k x.
Proof.
  unfold cmp_frames, page_agrees. rewrite forallb_forall. split; intros H i Hi.
  - apply Z.eqb_eq, H. by apply list_elem_of_In.
  - apply Z.eqb_eq, H. by apply list_elem_of_In.
Qed.

(** What [cmp_mem] may change: marks of written pages and a statistic of the process. *)
Record cmp_keeps (p : Z) (k k' : kstate) : Prop := {
  ck_phys : phys k' = phys k;
  ck_kh : kh k' = kh k;
  ck_blocks : ∀ b, working_set k' b = working_set k b ∨
    working_set k' b = working_set k b <| pmb_flags ::= clear_flag FWS |>;
  ck_procs : ∀ n, n ≠ p → proctab k' n = proctab k n;
  ck_proc : proctab k' p = proctab k p <| p_h ::= λ h, h <| p_workingset_size := p_workingset_size (hp k' p) |> |>;
  ck_rest : k' = k <| proctab := proctab k' |> <| working_set := working_set k' |>;
}.

Lemma ws_size_same q : q <| p_h ::= λ h, h <| p_workingset_size := p_workingset_size (p_h q) |> |> = q.
Proof. destruct q; unfold set; cbn; f_equal; by match goal with h : hproc |- _ => destruct h end. Qed.
Lemma cmp_keeps_refl p k : cmp_keeps p k k.
Proof. split; try done; [by left|unfold hp; by rewrite ws_size_same|by destruct k]. Qed.
Lemma cmp_keeps_size p k k' f :
  cmp_keeps p k k' → cmp_keeps p k (upd_proc p (λ q, q <| p_h ::= λ h, h <| p_workingset_size ::= f |> |>) k').
Proof.
  intros [H1 H2 H3 H4 H5 H6]. split; simpl; try done.
  - intros n Hn. rewrite upd_ne by done. by apply H4.
  - unfold hp. simpl. rewrite !upd_eq, H5. by destruct (proctab k p) as [? ? ? ? ? ? ? ? ? ? ? ? ? ? ? ? ? ? ? ? ? ? ? ? ? ? ? ? ? ? ? []].
  - rewrite H6. by destruct k.
Qed.
Lemma cmp_keeps_fws p k k' b :
  cmp_keeps p k k' → cmp_keeps p k (upd_pmb b (λ x, x <| pmb_flags ::= clear_flag FWS |>) k').
Proof.
  intros [H1 H2 H3 H4 H5 H6]. split; simpl; try done.
  - intros b'. rewrite upd_case. case_decide as Hb; [subst b'|by apply H3]. right.
    destruct (H3 b) as [-> | ->]; [done|]. destruct (working_set k b) as [i f0 fi v u0 u1 u2 nx].
    unfold set. simpl. f_equal. unfold clear_flag. by rewrite <-Z.land_assoc, Z.land_diag.
  - rewrite H6. by destruct k.
Qed.
Lemma cmp_keeps_shape p k k' b : cmp_keeps p k k' → shape (working_set k' b) = shape (working_set k b).
Proof. intros HK. by destruct (ck_blocks _ _ _ HK b) as [-> | ->]. Qed.
Lemma cmp_keeps_has p k k' b f :
  cmp_keeps p k k' → Z.land FWS f = 0 → has (pmb_flags (working_set k' b)) f = has (pmb_flags (working_set k b)) f.
Proof. intros HK Hf. destruct (ck_blocks _ _ _ HK b) as [-> | ->]; [done|]. simpl. by apply has_clear_other. Qed.

Lemma cmp_block_spec p b k0 k :
  cmp_keeps p k0 k → working_set k b = working_set k0 b →
  wp (cmp_block p b) (λ r k', cmp_keeps p k0 k' ∧ pmb_next k' b = pmb_next k b ∧
    (∀ b', b' ≠ b → working_set k' b' = working_set k b') ∧
    match r with
    | Some v => v = EFAULT ∧ ~ pages_agree k0 [b]
    | None => pages_agree k0 [b]
    end) k.
Proof.
  intros HK Hws. unfold cmp_block. wp_steps. rewrite Hws.
  assert (compared (working_set k0 b) = false → pages_agree k0 [b]) as Hskip.
  { intros H b' ->%list_elem_of_singleton. congruence. }
  unfold compared in Hskip. destruct (us2 (working_set k0 b) =? MAP_NONE) eqn:E2; simpl.
  { wp_steps. split_and!; [done..|]. apply Hskip. by rewrite andb_false_r. }
  destruct (us1 (working_set k0 b) =? MAP_NONE) eqn:E1; simpl.
  { wp_steps. split_and!; [done..|]. apply Hskip. by rewrite andb_false_r. }
  destruct (has (pmb_flags (working_set k0 b)) FWS) eqn:Ef; [|wp_steps; by split_and!; [..|apply Hskip]].
  assert (compared (working_set k0 b) = true) as Hcmp by (unfold compared; by rewrite E1, E2, Ef).
  assert (cmp_frames k (us2 (working_set k0 b)) (us1 (working_set k0 b)) = true ↔ page_agrees k0 (working_set k0 b)) as Heq.
  { rewrite cmp_frames_spec. unfold page_agrees. by rewrite (ck_phys _ _ _ HK). }
  wp_steps. destruct (cmp_frames k _ _) eqn:Ec.
  - unfold modify_hproc, modify_proc, clear_pmb_flag, modify_pmb. wp_steps. split_and!.
    + by apply cmp_keeps_fws, cmp_keeps_size.
    + unfold pmb_next. simpl. by rewrite upd_eq.
    + intros b' Hne. simpl. by rewrite upd_ne.
    + intros b' ->%list_elem_of_singleton _. by apply Heq.
  - wp_steps. split_and!; [done..|]. intros H. assert (false = true); [|done]. apply Heq, H; [by left|done].
Qed.

Lemma pages_agree_app k l1 l2 : pages_agree k (l1 ++ l2) ↔ pages_agree k l1 ∧ pages_agree k l2.
Proof. unfold pages_agree. setoid_rewrite elem_of_app. naive_solver. Qed.

Lemma cmp_mem_spec k p l :
  chain (pmb_next k) (p_lus1_us2 (hp k p)) l None → p_lus1_us2_size (hp k p) = Z.of_nat (length l) →
  (length l ≤ HLIST_FUEL)%nat →
  wp (cmp_mem p) (λ r k', cmp_keeps p k k' ∧ (r = OK ∧ pages_agree k l ∨ r = EFAULT ∧ ~ pages_agree k l)) k.
Proof.
  intros Hc Hsz Hlen. unfold cmp_mem. wp_steps. rewrite Hsz.
  destruct (Z.leb_spec (Z.of_nat (length l)) 0) as [Hl|Hl].
  { destruct l; [|simpl in Hl; lia]. wp_steps. split; [apply cmp_keeps_refl|left; split; [done|]]. by intros b ?%elem_of_nil. }
  unfold modify_hproc at 1, modify_proc at 1. wp_steps. set (k1 := upd_proc p _ k).
  assert (cmp_keeps p k k1) as HK1 by apply (cmp_keeps_size p k k (λ _, 0)), cmp_keeps_refl.
  pose proof (chain_NoDup _ _ _ Hc) as Hnd.
  set (I := λ rem k', ∃ dn, l = dn ++ rem ∧ cmp_keeps p k k' ∧ pages_agree k dn ∧ (∀ b, b ∉ dn → working_set k' b = working_set k b)).
  eapply wp_mono; [apply (wp_walk_ret HLIST_FUEL pmb_next (pmb_next k) (p_lus1_us2 (hp k p)) l (cmp_block p) I
    (λ r k', cmp_keeps p k k' ∧ match r with Some v => v = EFAULT ∧ ~ pages_agree k l | None => pages_agree k l end) k1)|];
    [exact Hc|exact Hlen| | | |].
  - exists []. split; [done|]. split; [done|]. split; [by intros b ?%elem_of_nil|done].
  - intros b rem k2 (dn & Hdn & HK & Hag & Hrest).
    assert (b ∉ dn) as Hnin.
    { rewrite Hdn in Hnd. apply NoDup_app in Hnd as (_ & Hd & _). intros Hin. apply (Hd b Hin). by left. }
    eapply wp_mono; [apply (cmp_block_spec p b k k2); auto|]. intros r k3 (HK3 & Hnx & Hoth & Hr).
    destruct r as [v|].
    + destruct Hr as [-> Hn]. split; [done|]. split; [done|]. intros H. apply Hn. intros b' ->%list_elem_of_singleton.
      apply H. rewrite Hdn. set_solver.
    + split; [rewrite Hnx; unfold pmb_next; by rewrite Hrest|].
      exists (dn ++ [b]). split; [by rewrite Hdn, <-app_assoc|]. split; [done|].
      split; [by apply pages_agree_app|]. intros b' [Hb1 Hb2]%not_elem_of_app. rewrite Hoth by set_solver. by apply Hrest.
  - intros k2 (dn & Hdn & HK & Hag & _). rewrite app_nil_r in Hdn. subst dn. by split.
  - intros r k2 [HK Hr]. wp_steps. split; [done|]. destruct r as [v|]; [|left; by split].
    destruct Hr as [-> Hr]. by right.
Qed.

(** ** Working sets that look alike *)

Lemma shape_frames x x' : shape x = shape x' → block_frames x = block_frames x'.
Proof. unfold shape, block_frames. intros [= _ E0 E1 E2 _]. by rewrite E0, E1, E2. Qed.

Lemma ws_wf_ext k k' p root l :
  ws_wf k p root l → p_nr (proctab k' p) = p_nr (proctab k p) →
  p_lus1_us2 (hp k' p) = p_lus1_us2 (hp k p) → p_lus1_us2_size (hp k' p) = p_lus1_us2_size (hp k p) →
  (∀ b, shape (working_set k' b) = shape (working_set k b)) →
  (∀ b, b ∈ l → phys k' (pde_addr root (vaddr (working_set k b))) = phys k (pde_addr root (vaddr (working_set k b)))) →
  ws_wf k' p root l.
Proof.
  intros HW Hnr Hl Hsz Hsh Hda.
  assert (∀ b, vaddr (working_set k' b) = vaddr (working_set k b)) as Hv.
  { intros b. pose proof (Hsh b) as H. unfold shape in H. congruence. }
  assert (∀ b, block_frames (working_set k' b) = block_frames (working_set k b)) as Hf by (intros b; by apply shape_frames).
  assert (∀ b, b ∈ l → pte_addr (phys k') root (vaddr (working_set k' b)) = pte_addr (phys k) root (vaddr (working_set k b))) as Hpa.
  { intros b Hb. unfold pte_addr. by rewrite Hv, Hda. }
  split.
  - rewrite Hnr. apply HW.
  - rewrite Hl. eapply chain_ext; [|apply HW]. intros b _. pose proof (Hsh b) as H. unfold shape in H. unfold pmb_next. congruence.
  - rewrite Hsz. apply HW.
  - apply HW.
  - intros b f. rewrite Hf. by apply HW.
  - intros b. rewrite Hf. by apply HW.
  - intros b b' f f' a. rewrite !Hf. by apply HW.
  - intros b b' f Hb Hb'. rewrite Hf, Hpa, Hv by done. by apply HW.
  - intros b b' Hb Hb'. rewrite Hpa, Hv by done. by apply HW.
  - intros b b' Hb Hb'. rewrite !Hpa by done. by apply HW.
Qed.

(** ** The end of the first run *)

(** The first run wrote the page. *)
Definition page_written1 (x : pram_mem_block) (pte_v : Z) : bool :=
  negb (us1 x =? MAP_NONE) && negb (us0 x =? MAP_NONE) && (has (pmb_flags x) HGET_PF || has pte_v I386_VM_DIRTY).
Definition written1_at (k : kstate) (root b : Z) : bool :=
  page_written1 (working_set k b) (phys k (pte_addr (phys k) root (vaddr (working_set k b)))).

Record first_run_ended (k k' : kstate) (root : Z) (l : list Z) : Prop := {
  fe_only : mem_only k k';
  fe_mem : ∀ a, (∀ b, b ∈ l → a ≠ pte_addr (phys k) root (vaddr (working_set k b))) → phys k' a = phys k a;
  fe_entries : ∀ b, b ∈ l → let pa := pte_addr (phys k) root (vaddr (working_set k b)) in
    phys k' pa = if written1_at k root b then clear_flag I386_VM_DIRTY (phys k pa) else phys k pa;
  fe_fws : ∀ b, b ∈ l → written1_at k root b = true → has (pmb_flags (working_set k' b)) FWS = true;
  fe_shape : ∀ b, shape (working_set k' b) = shape (working_set k b);
}.

Section first_end.
Context (k0 : kstate) (p root : Z) (l : list Z) (HW : ws_wf k0 p root l).
Let PA (b : Z) : Z := pte_addr (phys k0) root (vaddr (working_set k0 b)).
Let DA (b : Z) : Z := pde_addr root (vaddr (working_set k0 b)).

Definition fe_step (b : Z) (m : Z → Z) : Z → Z :=
  let x := working_set k0 b in
  let pa := pte_addr m root (vaddr x) in
  if page_written1 x (m pa) then upd m pa (clear_flag I386_VM_DIRTY (m pa)) else m.
Definition fe_fp (b a : Z) : Prop := a = PA b.
Definition fe_rd (b a : Z) : Prop := a = DA b ∨ a = PA b.

Lemma fe_agree b m : agree (phys k0) m (fe_rd b) →
  pte_addr m root (vaddr (working_set k0 b)) = PA b ∧ m (PA b) = phys k0 (PA b).
Proof.
  intros Hag. split; [|apply Hag; by right]. unfold PA, pte_addr. fold (DA b). rewrite (Hag (DA b)); [done|by left].
Qed.
Lemma fe_step_eq b m : agree (phys k0) m (fe_rd b) →
  ∀ a, fe_step b m a = if decide (a = PA b) then if written1_at k0 root b then clear_flag I386_VM_DIRTY (phys k0 (PA b)) else phys k0 (PA b) else m a.
Proof.
  intros Hag a. destruct (fe_agree b m Hag) as [Hpa Hv]. unfold fe_step, written1_at. rewrite Hpa, Hv. fold (PA b).
  destruct (page_written1 _ _); [apply upd_case|]. case_decide; [by subst|done].
Qed.

Lemma reset_first_spec b k :
  working_set k b = working_set k0 b →
  let pa := pte_addr (phys k) root (vaddr (working_set k0 b)) in
  wp (reset_first b pa (phys k pa)) (λ _ k',
    mem_only k k' ∧ (∀ a, phys k' a = fe_step b (phys k) a) ∧
    (∀ b', b' ≠ b → working_set k' b' = working_set k b') ∧
    (page_written1 (working_set k0 b) (phys k pa) = true → has (pmb_flags (working_set k' b)) FWS = true) ∧
    shape (working_set k' b) = shape (working_set k b)) k.
Proof.
  intros Hws pa. unfold reset_first, set_pmb_flag, clear_pmb_flag, modify_pmb, phys_set32. wp_steps. rewrite Hws.
  unfold fe_step. fold pa. fold (page_written1 (working_set k0 b) (phys k pa)).
  destruct (page_written1 _ _); [|wp_steps; rewrite ?Hws; by split_and!; [apply mem_only_refl|..]].
  destruct (has (pmb_flags (working_set k0 b)) IWS_MOD_KERNEL && has (phys k pa) I386_VM_DIRTY); simpl; wp_steps; simpl;
    rewrite ?upd_eq; (split; [by destruct k|]); (split; [done|]);
    (split; [intros b' Hb'; by rewrite ?upd_ne|]); rewrite ?Hws; (split; [intros _; by apply has_set_self|done]).
Qed.

Lemma vm_reset_pram_first :
  h_step (kh k0) = FIRST_RUN → wp (vm_reset_pram p root CPY_RAM_FIRST) (λ _ k', first_run_ended k0 k' root l) k0.
Proof using HW.
  intros Hstep. unfold vm_reset_pram. wp_steps. apply wp_assert.
  { by rewrite (proj2 (Z.eqb_neq _ _) (ww_nr _ _ _ _ HW)). }
  wp_steps. rewrite (ww_size _ _ _ _ HW). destruct (Z.leb_spec (Z.of_nat (length l)) 0) as [Hl|Hl].
  { destruct l; [|simpl in Hl; lia]. wp_steps. split; try (by intros b ?%elem_of_nil); [apply mem_only_refl|done..]. }
  wp_steps. eapply wp_mono; [apply (walk_blocks k0 l _ _ fe_step fe_fp fe_rd
    (λ b _ x', written1_at k0 root b = true → has (pmb_flags x') FWS = true))|].
  - intros b m a Hb Hag ->. rewrite !fe_step_eq by done. by rewrite !decide_True.
  - intros b m a Hb Hag Ha. rewrite fe_step_eq by done. by rewrite decide_False.
  - intros b b' a Hb Hb' Hne ->. split.
    + intros He. apply Hne. by apply (ww_entries _ _ _ _ HW).
    + intros [He|He]; [by apply (ww_dirs _ _ _ _ HW b b')|]. apply Hne. by apply (ww_entries _ _ _ _ HW).
  - apply HW.
  - apply HW.
  - intros b k Hb Hmo Hws Hag. unfold reset_block, phys_get32. wp_steps. rewrite Hws.
    fold (pte_addr (phys k) root (vaddr (working_set k0 b))). change (CPY_RAM_FIRST =? ABORT_PE) with false. cbv iota.
    wp_steps. rewrite (mem_only_field (λ k, h_step (kh k)) k0 k Hmo), Hstep by done. simpl. wp_steps.
    eapply wp_mono; [by apply reset_first_spec|]. intros [] k' (H1 & H2 & H3 & H4 & H5). wp_steps.
    split_and!; try done; [|by rewrite H5, Hws]. intros Hw. apply H4. unfold written1_at in Hw.
    destruct (fe_agree b (phys k) Hag) as [-> ->]. exact Hw.
  - intros [] k' (Hmo & Hin & Hout & Hblk & Hoth). split; [done|..].
    + intros a Ha. apply Hout. intros b Hb ->. by apply (Ha b).
    + intros b Hb pa. rewrite (Hin b) by done. rewrite fe_step_eq by done. by rewrite decide_True.
    + intros b Hb. by apply Hblk.
    + intros b. destruct (decide (b ∈ l)) as [Hb|Hb]; [by apply Hblk|by rewrite Hoth].
Qed.
End first_end.
