(* ===== verification/DwcRun.v ===== *)
(** * From one run to the next

    [run_proc_2] after [hardening_task] has asked for the saved context to be restored: the
    process goes on from the context that [save_copy_0] kept, with its pages mapped for the
    run that starts. *)
From S2P Require Import Prelude LinkedList Kernel Sched Notify Ipc HMem WorkingSet HShared Pram PramInv PramRun Dwc DwcInv.

(** ** What bookkeeping leaves alone *)

(** The part of a process that matters for a run. *)
Definition pview (q : proc) :=
  (p_reg q, p_cr3 q, p_kern_trap_style q, p_nr q, p_rts_flags q, p_cpu_time_left q,
   (p_lus1_us2 (p_h q), p_lus1_us2_size (p_h q), p_nb_hardening_mem_events (p_h q), p_hardening_mem_events (p_h q),
    p_sig_delay (p_h q))).

Record pe_same (p : Z) (k k' : kstate) : Prop := {
  ps_phys : phys k' = phys k;
  ps_ws : working_set k' = working_set k;
  ps_kh : kh k' = kh k;
  ps_proc : pview (proctab k' p) = pview (proctab k p);
  ps_nr : ∀ n, p_nr (proctab k' n) = p_nr (proctab k n);
}.
Lemma pe_same_refl p k : pe_same p k k.
Proof. done. Qed.
Lemma pe_same_trans p k1 k2 k3 : pe_same p k1 k2 → pe_same p k2 k3 → pe_same p k1 k3.
Proof. intros [] []. split; try congruence. Qed.
#[export] Hint Resolve pe_same_refl : minix.

Lemma pe_same_upd p n f k :
  (∀ q, p_nr (f q) = p_nr q) → (n = p → ∀ q, pview (f q) = pview q) → pe_same p k (upd_proc n f k).
Proof.
  intros Hnr Hv. split; try done; simpl.
  - rewrite upd_case. case_decide; [subst; by apply Hv|done].
  - intros m. rewrite upd_case. case_decide; [subst; by apply Hnr|done].
Qed.

(** A computation that keeps what matters to process [p]. *)
Definition keeps_pe {A} (p : Z) (m : K A) : Prop := ∀ k, wp m (λ _ k', pe_same p k k') k.

Lemma keeps_bind {A B} p (m : K A) (f : A → K B) : keeps_pe p m → (∀ a, keeps_pe p (f a)) → keeps_pe p (m ≫= f).
Proof.
  intros Hm Hf k. apply wp_bind. eapply wp_mono; [apply Hm|]. intros a k1 H1.
  eapply wp_mono; [apply Hf|]. intros b k2 H2. exact (pe_same_trans p k k1 k2 H1 H2).
Qed.
Lemma keeps_ret {A} p (a : A) : keeps_pe p (mret a).
Proof. intros k. by apply wp_ret. Qed.
Lemma keeps_gets {A} p (f : kstate → A) : keeps_pe p (gets f).
Proof. intros k. by apply wp_gets. Qed.
Lemma keeps_modify p f : (∀ k, pe_same p k (f k)) → keeps_pe p (modify f).
Proof. intros H k. by apply wp_modify. Qed.
Lemma keeps_modify_proc p n f :
  (∀ q, p_nr (f q) = p_nr q) → (n = p → ∀ q, pview (f q) = pview q) → keeps_pe p (modify_proc n f).
Proof. intros. apply keeps_modify. intros k. by apply pe_same_upd. Qed.

Ltac keeps_pe :=
  repeat lazymatch goal with
  | |- keeps_pe _ (mbind _ _) => apply keeps_bind; [|intros ?]
  | |- keeps_pe _ (mret _) => apply keeps_ret
  | |- keeps_pe _ (gets _) => apply keeps_gets
  | |- keeps_pe _ (modify _) => apply keeps_modify; intros ?; done
  | |- keeps_pe _ (modify_proc _ _) => apply keeps_modify_proc; [done|done]
  | |- keeps_pe _ (modify_hproc _ _) => unfold modify_hproc
  | |- keeps_pe _ (if ?b then _ else _) => destruct b
  | |- keeps_pe _ (match ?o with Some _ => _ | None => _ end) => destruct o
  end.

Lemma get_remain_keeps p q : keeps_pe p (get_remain_ins_counter_value q).
Proof. unfold get_remain_ins_counter_value, get_remain_ins_counter_value_0. keeps_pe. Qed.
Lemma set_remain_0_keeps p q : keeps_pe p (set_remain_ins_counter_value_0 q).
Proof. unfold set_remain_ins_counter_value_0, write_ins_ctr, update_ins_ctr_switch, get_remain_ins_counter_value_0. keeps_pe. Qed.
Lemma set_remain_1_keeps p q : keeps_pe p (set_remain_ins_counter_value_1 q).
Proof. unfold set_remain_ins_counter_value_1, write_ins_ctr, update_ins_ctr_switch. keeps_pe. Qed.
Lemma enable_counter_keeps p : keeps_pe p enable_counter.
Proof. unfold enable_counter. keeps_pe. Qed.
Lemma switch_address_space_keeps p q : keeps_pe p (switch_address_space q).
Proof. unfold switch_address_space. keeps_pe. Qed.
Lemma context_stop_keeps p q : p ≠ q → keeps_pe p (context_stop q).
Proof. intros Hne. unfold context_stop. keeps_pe. apply get_remain_keeps. Qed.

(** ** Restoring the saved context *)

Definition restored (c : copy0) (q : proc) : proc :=
  q <| p_reg ::= restored_regs (c0_regs c) |> <| p_cpu_time_left := c0_cpu_time_left c |>
    <| p_kern_trap_style := c0_trap_style c |> <| p_rts_flags := c0_rts_flags c |>.

Lemma same_ws_proc q : q <| p_h ::= λ h, h <| p_lus1_us2 := p_lus1_us2 (p_h q) |> <| p_lus1_us2_size := p_lus1_us2_size (p_h q) |> |> = q.
Proof. destruct q; unfold set; cbn; f_equal; by match goal with h : hproc |- _ => destruct h end. Qed.

Lemma keep_ws_restore p k :
  wp (keep_ws p (restore_copy_0 p)) (λ _ k', phys k' = phys k ∧ working_set k' = working_set k ∧ kh k' = kh k ∧
    proctab k' p = restored (copy_0 (kh k)) (proctab k p) ∧ (∀ n, n ≠ p → proctab k' n = proctab k n)) k.
Proof.
  unfold keep_ws, restore_copy_0, write_cr, modify_hproc, modify_proc. wp_steps. simpl. rewrite !upd_eq.
  split_and!; try done.
  - symmetry. etrans; [symmetry; apply (same_ws_proc (restored (copy_0 (kh k)) (proctab k p)))|done].
  - intros n Hn. by rewrite !upd_ne.
Qed.

(** The styles in which a process can be resumed. *)
Definition known_style (s : Z) : bool :=
  bool_decide (s ∈ [KTS_SYSENTER; KTS_SYSCALL; KTS_INT_HARD; KTS_INT_UM; KTS_FULLCONTEXT; KTS_INT_ORIG]).

(** What holds when [hardening_task] starts a run of [p] again. *)
Record restartable (k : kstate) (p root : Z) (l : list Z) (step : Z) : Prop := {
  rs_wf : ws_wf k p root l;
  rs_nr : ∀ n, p_nr (proctab k n) = n;
  rs_user : 0 ≤ p;
  rs_step : step = FIRST_RUN ∧ h_restore (kh k) = RESTORE_FOR_FISRT_RUN ∨ step = SECOND_RUN ∧ h_restore (kh k) = RESTORE_FOR_SECOND_RUN;
  rs_enable : h_enable (kh k) = H_ENABLE;
  rs_proc : h_proc_nr (kh k) = p;
  rs_novm : vm_should_run (kh k) = 0;
  rs_noinj : h_inject_fault (kh k) = 0;
  rs_root : p_cr3 (proctab k p) = root;
  rs_root0 : root ≠ 0;
  rs_style : known_style (c0_trap_style (copy_0 (kh k))) = true;
  rs_run : c0_rts_flags (copy_0 (kh k)) = 0;
  rs_us0 : ∀ b, b ∈ l → us0 (working_set k b) ≠ MAP_NONE;
  rs_paired : ∀ b, b ∈ l → paired (working_set k b);
  rs_pfa : ∀ b, b ∈ l → I386_VM_PFA (phys k (pte_addr (phys k) root (vaddr (working_set k b)))) ≠ 0;
  rs_events : step = SECOND_RUN ∨ no_events k p;
}.

(** The run that has started. *)
Record run_started (k k' : kstate) (p root : Z) (l : list Z) (step : Z) : Prop := {
  st_step : h_step (kh k') = step;
  st_restore : h_restore (kh k') = 0;
  st_enable : h_enable (kh k') = H_ENABLE;
  st_proc : h_proc_nr (kh k') = p;
  st_copy_0 : copy_0 (kh k') = copy_0 (kh k);
  st_regs : p_reg (proctab k' p) = restored_regs (c0_regs (copy_0 (kh k))) (p_reg (proctab k p));
  st_runnable : proc_is_runnable k' p = true;
  st_time : p_cpu_time_left (proctab k' p) = c0_cpu_time_left (copy_0 (kh k));
  st_isolated : ∀ b, b ∈ l → isolated (phys k') root step (working_set k b);
  st_us0 : ∀ b, b ∈ l → frame_same (phys k) (us0 (working_set k b)) (phys k') (us0 (working_set k b));
}.

(** The state just before the pages are mapped. *)
Record start_ready (k k2 : kstate) (p step : Z) : Prop := {
  sr_phys : phys k2 = phys k;
  sr_ws : working_set k2 = working_set k;
  sr_kh : kh k2 = kh k <| h_step := step |>;
  sr_proc : pview (proctab k2 p) = pview (restored (copy_0 (kh k)) (proctab k p));
  sr_nr : ∀ n, p_nr (proctab k2 n) = n;
}.

Lemma restore_ready k k1 p root l step (m : K unit) Q :
  restartable k p root l step → pe_same p k k1 → (∀ k2, start_ready k k2 p step → wp m Q k2) →
  wp (keep_ws p (restore_copy_0 p);;
      r ← gets (λ k, h_restore (kh k));
      (if r =? RESTORE_FOR_SECOND_RUN then update_step SECOND_RUN
       else if r =? RESTORE_FOR_FISRT_RUN then update_step FIRST_RUN
       else panic "UNKOWN RESTORING STATE");;
      m) Q k1.
Proof.
  intros HR HS Hm. apply wp_bind. eapply wp_mono; [apply keep_ws_restore|].
  intros [] k2 (Hp & Hw & Hh & Hq & Ho). wp_steps. rewrite Hh, (ps_kh _ _ _ HS).
  assert (∀ n, p_nr (proctab k2 n) = n) as Hnr.
  { intros n. destruct (decide (n = p)) as [->|Hn]; [rewrite Hq; simpl|rewrite Ho by done];
      rewrite (ps_nr _ _ _ HS); apply (rs_nr _ _ _ _ _ HR). }
  assert (pview (proctab k2 p) = pview (restored (copy_0 (kh k)) (proctab k p))) as Hv.
  { pose proof (ps_proc _ _ _ HS) as Hv. rewrite Hq, (ps_kh _ _ _ HS). unfold pview in *. simpl. congruence. }
  rewrite (ps_phys _ _ _ HS) in Hp. rewrite (ps_ws _ _ _ HS) in Hw. rewrite (ps_kh _ _ _ HS) in Hh.
  unfold update_step, modify_h.
  destruct (rs_step _ _ _ _ _ HR) as [[-> ->]|[-> ->]]; simpl; wp_steps; apply Hm; split; simpl; by rewrite ?Hh.
Qed.

(** The pages of the run are mapped. *)
Record run_mapped (k k3 : kstate) (p root : Z) (l : list Z) (step : Z) : Prop := {
  rm_kh : kh k3 = kh k <| h_step := step |>;
  rm_proc : pview (proctab k3 p) = pview (restored (copy_0 (kh k)) (proctab k p));
  rm_nr : ∀ n, p_nr (proctab k3 n) = n;
  rm_isolated : ∀ b, b ∈ l → isolated (phys k3) root step (working_set k b);
  rm_us0 : ∀ b, b ∈ l → frame_same (phys k) (us0 (working_set k b)) (phys k3) (us0 (working_set k b));
}.

Lemma start_maps k k2 p root l step :
  restartable k p root l step → start_ready k k2 p step →
  wp (set_pe_mem_to_ro p root) (λ _ k3, run_mapped k k3 p root l step) k2.
Proof.
  intros HR [Hp Hw Hh Hv Hnr]. pose proof (rs_wf _ _ _ _ _ HR) as HW.
  assert (p_lus1_us2 (hp k2 p) = p_lus1_us2 (hp k p) ∧ p_lus1_us2_size (hp k2 p) = p_lus1_us2_size (hp k p) ∧
    (no_events k p → no_events k2 p)) as (Hl & Hsz & Hev).
  { unfold pview, no_events, hp in *. simpl in Hv. injection Hv. intros. split_and!; congruence. }
  assert (h_step (kh k2) = step) as Hst by by rewrite Hh.
  eapply wp_mono; [apply (set_pe_mem_to_ro_spec k2 p root l)|].
  - apply (ws_wf_ext k); rewrite ?Hp, ?Hw; try done. by rewrite Hnr, (rs_nr _ _ _ _ _ HR).
  - rewrite Hw. apply HR.
  - rewrite Hw. apply HR.
  - rewrite Hp, Hw. apply HR.
  - rewrite Hst. destruct (rs_events _ _ _ _ _ HR); auto.
  - intros r k3 (_ & Hmo & Hiso & Hus). rewrite Hst, Hw, Hp in *.
    assert (∀ n, proctab k3 n = proctab k2 n) as Hpt by (intros n; by apply (mem_only_field (λ k, proctab k n) k2 k3)).
    split; [|by rewrite Hpt|intros n; by rewrite Hpt|done|done].
    rewrite <-Hh. by apply (mem_only_field kh k2 k3).
Qed.

Lemma dwc_restore_spec k k1 p root l step :
  restartable k p root l step → pe_same p k k1 →
  wp (dwc_restore p) (λ _ k', ∃ k3, run_mapped k k3 p root l step ∧
    phys k' = phys k3 ∧ kh k' = kh k3 <| h_restore := 0 |> ∧ pview (proctab k' p) = pview (proctab k3 p) ∧
    (∀ n, p_nr (proctab k' n) = n)) k1.
Proof.
  intros HR HS. unfold dwc_restore. apply wp_bind, wp_assert.
  { rewrite (ps_kh _ _ _ HS), (ps_nr _ _ _ HS), (rs_nr _ _ _ _ _ HR), (rs_proc _ _ _ _ _ HR). apply Z.eqb_refl. }
  apply (restore_ready k k1 p root l step); [done..|]. intros k2 HS2. wp_steps.
  assert (p_cr3 (proctab k2 p) = root) as ->.
  { pose proof (sr_proc _ _ _ _ HS2) as Hv. unfold pview in Hv. simpl in Hv. injection Hv. intros.
    rewrite <-(rs_root _ _ _ _ _ HR). congruence. }
  eapply wp_mono; [by apply start_maps|]. intros ? k3 HM. unfold modify_h. wp_steps.
  set (k4 := k3 <| kh ::= _ |>). eapply wp_mono; [apply (set_remain_0_keeps p p k4)|]. intros [] k5 HS5.
  assert (pview (proctab k5 p) = pview (proctab k3 p)) as Hv by apply (ps_proc _ _ _ HS5).
  assert (kh k5 = kh k3 <| h_restore := 0 |>) as Hh by apply (ps_kh _ _ _ HS5).
  wp_steps. apply wp_assert.
  { unfold proc_is_runnable. pose proof (rm_proc _ _ _ _ _ _ HM) as Hv3. unfold pview in Hv, Hv3. simpl in Hv3.
    assert (p_rts_flags (proctab k5 p) = 0) as ->; [|done]. rewrite <-(rs_run _ _ _ _ _ HR). congruence. }
  unfold maybe_inject. wp_steps. rewrite Hh, (rm_kh _ _ _ _ _ _ HM). simpl. rewrite (rs_noinj _ _ _ _ _ HR). simpl. wp_steps.
  exists k3. split; [done|]. split; [apply (ps_phys _ _ _ HS5)|]. split; [by rewrite Hh, (rm_kh _ _ _ _ _ _ HM)|]. split; [done|].
  intros n. rewrite (ps_nr _ _ _ HS5). apply (rm_nr _ _ _ _ _ _ HM).
Qed.

Lemma start_dwc_restarts k k1 p root l step :
  restartable k p root l step → pe_same p k k1 →
  wp (start_dwc p) (λ _ k', run_started k k' p root l step ∧ copy_1 (kh k') = copy_1 (kh k) ∧
    p_kern_trap_style (proctab k' p) = c0_trap_style (copy_0 (kh k))) k1.
Proof.
  intros HR HS. pose proof (rs_enable _ _ _ _ _ HR) as Hen. pose proof (rs_proc _ _ _ _ _ HR) as Hpr.
  unfold start_dwc. wp_steps. rewrite (ps_kh _ _ _ HS), Hen. simpl. wp_steps.
  rewrite (ps_kh _ _ _ HS), Hen.
  assert (((h_restore (kh k) =? RESTORE_FOR_SECOND_RUN) || (h_restore (kh k) =? RESTORE_FOR_FISRT_RUN)) = true) as Hre.
  { destruct (rs_step _ _ _ _ _ HR) as [[_ ->]|[_ ->]]; done. }
  rewrite Hre. simpl. wp_steps. eapply wp_mono; [by apply dwc_restore_spec|].
  intros [] k2 (k3 & HM & Hph & Hh & Hv & Hnr). wp_steps. rewrite Hnr, Hh, (rm_kh _ _ _ _ _ _ HM). simpl. rewrite Hen, Hpr, Z.eqb_refl.
  assert ((p =? VM_PROC_NR) = false) as Hvm.
  { apply Z.eqb_neq. rewrite <-(rs_nr _ _ _ _ _ HR p). apply (ww_nr _ _ _ _ (rs_wf _ _ _ _ _ HR)). }
  rewrite Hvm. simpl. wp_steps. eapply wp_mono; [apply (set_remain_1_keeps p p k2)|]. intros [] k4 HS4. wp_steps.
  eapply wp_mono; [apply (enable_counter_keeps p k4)|]. intros [] k5 HS5. pose proof (pe_same_trans _ _ _ _ HS4 HS5) as HSt.
  clear k4 HS4 HS5. wp_steps. rewrite (rs_novm _ _ _ _ _ HR). simpl.
  assert (step = FIRST_RUN ∨ step = SECOND_RUN) as Hstep by (destruct (rs_step _ _ _ _ _ HR) as [[-> _]|[-> _]]; auto).
  eapply wp_intro with (a := ()) (s' := k5); [by destruct Hstep as [-> | ->]|].
  eapply wp_intro with (a := ()) (s' := k5); [by destruct Hstep as [-> | ->]|].
  assert (kh k5 = kh k <| h_step := step |> <| h_restore := 0 |>) as Hh5.
  { by rewrite (ps_kh _ _ _ HSt), Hh, (rm_kh _ _ _ _ _ _ HM). }
  assert (pview (proctab k5 p) = pview (restored (copy_0 (kh k)) (proctab k p))) as Hv5.
  { by rewrite (ps_proc _ _ _ HSt), Hv, (rm_proc _ _ _ _ _ _ HM). }
  unfold pview in Hv5. simpl in Hv5. split; [|split; [by rewrite Hh5|congruence]].
  split; rewrite ?Hh5; simpl; try done; try congruence.
  - unfold proc_is_runnable. assert (p_rts_flags (proctab k5 p) = 0) as ->; [|done].
    rewrite <-(rs_run _ _ _ _ _ HR). congruence.
  - intros b Hb. rewrite (ps_phys _ _ _ HSt), Hph. by apply (rm_isolated _ _ _ _ _ _ HM).
  - intros b Hb. rewrite (ps_phys _ _ _ HSt), Hph. by apply (rm_us0 _ _ _ _ _ _ HM).
Qed.

Lemma run_proc_2_restarts k p root l step :
  restartable k p root l step →
  wp (run_proc_2 p) (λ _ k', run_started k k' p root l step ∧ copy_1 (kh k') = copy_1 (kh k)) k.
Proof.
  intros HR. unfold run_proc_2. wp_steps. set (k1 := k <| proc_ptr := p |>).
  assert (pe_same p k k1) as HS1 by done.
  eapply wp_mono; [apply (switch_address_space_keeps p p k1)|]. intros [] k2 HS2.
  pose proof (pe_same_trans _ _ _ _ HS1 HS2) as HS. clear HS1 HS2. wp_steps.
  assert (p ≠ KERNEL) as Hne by (pose proof (rs_user _ _ _ _ _ HR); unfold KERNEL; lia).
  eapply wp_mono; [apply (context_stop_keeps p KERNEL Hne k2)|]. intros [] k3 HS3.
  pose proof (pe_same_trans _ _ _ _ HS HS3) as HS4. clear HS HS3. wp_steps.
  apply wp_assert.
  { pose proof (ps_proc _ _ _ HS4) as Hv. unfold pview in Hv. assert (p_cr3 (proctab k3 p) = root) as ->.
    - rewrite <-(rs_root _ _ _ _ _ HR). congruence.
    - by rewrite (proj2 (Z.eqb_neq _ _) (rs_root0 _ _ _ _ _ HR)). }
  unfold restore_user_context. wp_steps. eapply wp_mono; [by apply (start_dwc_restarts k)|].
  intros [] k4 (HR4 & Hc & Hs). unfold modify_proc. wp_steps. rewrite Hs.
  fold (known_style (c0_trap_style (copy_0 (kh k)))). rewrite (rs_style _ _ _ _ _ HR). wp_steps.
  destruct HR4 as [H1 H2 H3 H4 H5 H6 H7 H8 H9 H10]. unfold proc_is_runnable in H7.
  split; [|exact Hc]. split; simpl; rewrite ?upd_eq; try done. unfold proc_is_runnable. simpl. by rewrite upd_eq.
Qed.

(** A run started from a state that looks the same. *)
Lemma isolated_shape m root step x x' : shape x' = shape x → isolated m root step x → isolated m root step x'.
Proof. unfold shape, isolated, run_copy. intros [= -> _ -> -> _]. done. Qed.

Lemma run_started_from k k1 k' p root l step :
  run_started k1 k' p root l step → copy_0 (kh k1) = copy_0 (kh k) → p_reg (proctab k1 p) = p_reg (proctab k p) →
  (∀ b, shape (working_set k1 b) = shape (working_set k b)) →
  (∀ b, b ∈ l → frame_same (phys k) (us0 (working_set k b)) (phys k1) (us0 (working_set k b))) →
  run_started k k' p root l step.
Proof.
  intros [H1 H2 H3 H4 H5 H6 H7 H8 H9 H10] Hc Hr Hsh Hfr.
  assert (∀ b, us0 (working_set k1 b) = us0 (working_set k b)) as H0.
  { intros b. pose proof (Hsh b) as H. unfold shape in H. congruence. }
  split; try done; try congruence.
  - intros b Hb. eapply isolated_shape; [symmetry; apply Hsh|by apply H9].
  - intros b Hb i Hi. specialize (H10 b Hb i Hi). rewrite H0 in H10. rewrite H10. by apply Hfr.
Qed.
