(* ===== verification/DwcThm.v ===== *)
(** * Duplication with comparison does what it is for

    The theorems on [hardening_task]: the first run hands over to the second, which starts from
    the same context; if the runs agree the second run is committed, and if they do not,
    nothing of them remains and the first run starts again. *)
From S2P Require Import Prelude LinkedList Kernel Sched Notify Ipc HMem WorkingSet HShared Pram PramInv PramRun Dwc DwcInv DwcRun.

(** A processing element of [p] is in run [step], and the kernel has been entered. *)
Record pe_running (k : kstate) (p root : Z) (l : list Z) (step : Z) : Prop := {
  pr_ptr : proc_ptr k = p;
  pr_wf : ws_wf k p root l;
  pr_nr : ∀ n, p_nr (proctab k n) = n;
  pr_user : 0 ≤ p;
  pr_step : h_step (kh k) = step;
  pr_enable : h_enable (kh k) = H_ENABLE;
  pr_proc : h_proc_nr (kh k) = p;
  pr_novm : vm_should_run (kh k) = 0;
  pr_noinj : h_inject_fault (kh k) = 0;
  pr_root : p_cr3 (proctab k p) = root;
  pr_root0 : root ≠ 0;
  pr_style : known_style (c0_trap_style (copy_0 (kh k))) = true;
  pr_run : c0_rts_flags (copy_0 (kh k)) = 0;
  pr_us0 : ∀ b, b ∈ l → us0 (working_set k b) ≠ MAP_NONE ∧ us0 (working_set k b) ≠ 0;
  pr_paired : ∀ b, b ∈ l → paired (working_set k b);
  pr_pfa : ∀ b, b ∈ l → I386_VM_PFA (phys k (pte_addr (phys k) root (vaddr (working_set k b)))) ≠ 0;
}.

(** The context in which the second run ends, as [save_copy_2] keeps it. *)
Definition second_ctx (k : kstate) (p : Z) : copy12 :=
  run_context (proctab k p) (st (p_reg (proctab k p))) (kh k) (cpu_cr k) (copy_2 (kh k)).
Definition first_ctx (k : kstate) (p : Z) : copy12 :=
  run_context (proctab k p) (ss (p_reg (proctab k p))) (kh k) (cpu_cr k) (copy_1 (kh k)).
(** The registers at the end of the second run are those at the end of the first. *)
Definition regs_agree (k : kstate) (p : Z) : Prop :=
  cmp_words (kh k) (pagefault_addr_1 (kh k)) (copy_1 (kh k)) =
  cmp_words (kh k) (pagefault_addr_2 (kh k)) (second_ctx k p).
(** The runs ended after different numbers of instructions and are brought in step first. *)
Definition needs_stepping (k : kstate) : bool :=
  (origin_syscall (kh k) =? PE_END_IN_NMI) && negb (secnd_run_ins (kh k) =? first_run_ins (kh k)).

(** ** The common part *)

(** The state after the counter has been read and the context saved. *)
Record ctx_saved (k k1 : kstate) (p : Z) (h : hglobals) : Prop := {
  cs_phys : phys k1 = phys k;
  cs_ws : working_set k1 = working_set k;
  cs_kh : kh k1 = h;
  cs_proc : pview (proctab k1 p) = pview (proctab k p);
  cs_nr : ∀ n, p_nr (proctab k1 n) = n;
}.

Lemma get_remain_spec p k :
  wp (get_remain_ins_counter_value p) (λ _ k', pe_same p k k' ∧ cpu_cr k' = cpu_cr k) k.
Proof.
  apply wp_and; [apply get_remain_keeps|]. unfold get_remain_ins_counter_value, get_remain_ins_counter_value_0,
    modify_hproc, modify_proc. by wp_steps.
Qed.

Lemma run_context_view q q' st' h cr old :
  pview q = pview q' → run_context q st' h cr old = run_context q' st' h cr old.
Proof. unfold pview, run_context. intros H. injection H. intros. congruence. Qed.

Lemma task_prefix k p root l step (m : K task_end) Q :
  pe_running k p root l step → step = FIRST_RUN ∨ step = SECOND_RUN →
  (∀ k1, ctx_saved k k1 p (if step =? FIRST_RUN then kh k <| copy_1 := first_ctx k p |> else kh k <| copy_2 := second_ctx k p |>) →
    wp m Q k1) →
  wp (get_remain_ins_counter_value p;; save_context p;; m) Q k.
Proof.
  intros HP Hstep Hm. wp_steps. eapply wp_mono; [apply get_remain_spec|]. intros [] k1 [HS Hcr].
  pose proof (ps_kh _ _ _ HS) as Hh. pose proof (ps_proc _ _ _ HS) as Hv.
  assert (p_reg (proctab k1 p) = p_reg (proctab k p)) as Hreg by (unfold pview in Hv; congruence).
  assert (∀ n, p_nr (proctab k1 n) = n) as Hnr by (intros n; rewrite (ps_nr _ _ _ HS); apply (pr_nr _ _ _ _ _ HP)).
  unfold save_context, save_copy_1, save_copy_2, modify_h. wp_steps. rewrite Hh, (pr_step _ _ _ _ _ HP).
  destruct Hstep as [-> | ->]; simpl; wp_steps; apply Hm; (split; simpl; [apply (ps_phys _ _ _ HS)|apply (ps_ws _ _ _ HS)| |exact Hv|exact Hnr]);
    rewrite Hh, Hcr, Hreg; unfold first_ctx, second_ctx; by rewrite (run_context_view _ _ _ _ _ _ Hv).
Qed.

Lemma hardening_task_start k p root l step (m : Z → K task_end) Q :
  pe_running k p root l step → wp (m p) Q k →
  wp (assert_ (λ k, negb (h_enable (kh k) =? 0)) "hardening_task: h_enable";;
      p ← gets proc_ptr;
      assert_ (λ k, h_proc_nr (kh k) =? p_nr (proctab k p)) "hardening_task: h_proc_nr";;
      assert_ (λ k, negb (h_proc_nr (kh k) =? VM_PROC_NR)) "hardening_task: VM_PROC_NR";;
      m p) Q k.
Proof.
  intros HP Hm. apply wp_bind, wp_assert; [by rewrite (pr_enable _ _ _ _ _ HP)|]. wp_steps. rewrite (pr_ptr _ _ _ _ _ HP).
  apply wp_assert; [by rewrite (pr_proc _ _ _ _ _ HP), (pr_nr _ _ _ _ _ HP), Z.eqb_refl|].
  apply wp_bind, wp_assert; [|done]. rewrite (pr_proc _ _ _ _ _ HP).
  pose proof (ww_nr _ _ _ _ (pr_wf _ _ _ _ _ HP)) as Hvm. rewrite (pr_nr _ _ _ _ _ HP) in Hvm.
  by rewrite (proj2 (Z.eqb_neq _ _) Hvm).
Qed.

Lemma ctx_saved_wf k k1 p root l h : ctx_saved k k1 p h → (∀ n, p_nr (proctab k n) = n) → ws_wf k p root l → ws_wf k1 p root l.
Proof.
  intros [Hp Hw Hh Hv Hnr] Hn HW. unfold pview in Hv. apply (ws_wf_ext k); rewrite ?Hp, ?Hw; try done; unfold hp; congruence.
Qed.

(** ** The end of the first run *)

Lemma first_run_ended_pfa k k1 root l b :
  (∀ b, b ∈ l → I386_VM_PFA (phys k (pte_addr (phys k) root (vaddr (working_set k b)))) ≠ 0) →
  first_run_ended k k1 root l → b ∈ l →
  (∀ b, b ∈ l → phys k1 (pde_addr root (vaddr (working_set k b))) = phys k (pde_addr root (vaddr (working_set k b)))) →
  I386_VM_PFA (phys k1 (pte_addr (phys k1) root (vaddr (working_set k1 b)))) ≠ 0.
Proof.
  intros Hpfa HF Hb Hda. pose proof (fe_shape _ _ _ _ HF b) as Hsh. unfold shape in Hsh.
  assert (vaddr (working_set k1 b) = vaddr (working_set k b)) as -> by congruence.
  assert (pte_addr (phys k1) root (vaddr (working_set k b)) = pte_addr (phys k) root (vaddr (working_set k b))) as ->.
  { unfold pte_addr. by rewrite Hda. }
  rewrite (fe_entries _ _ _ _ HF b Hb). case_bool; [rewrite PFA_clear by done|]; by apply Hpfa.
Qed.

(** The entries of the page directory are not touched. *)
Lemma first_run_ended_dirs k k1 p root l :
  ws_wf k p root l → first_run_ended k k1 root l →
  ∀ b, b ∈ l → phys k1 (pde_addr root (vaddr (working_set k b))) = phys k (pde_addr root (vaddr (working_set k b))).
Proof. intros HW HF b Hb. apply (fe_mem _ _ _ _ HF). intros b' Hb' He. by apply (ww_dirs _ _ _ _ HW b' b). Qed.

Lemma paired_shape x x' : shape x' = shape x → paired x → paired x'.
Proof. unfold shape, paired. intros [= _ _ -> -> _]. done. Qed.

Lemma first_run_hands_over k p root l :
  pe_running k p root l FIRST_RUN → h_restore (kh k) = 0 →
  wp hardening_task (λ e k', e = SwitchedTo p ∧ run_started k k' p root l SECOND_RUN ∧
    copy_1 (kh k') = first_ctx k p) k.
Proof.
  intros HP Hre. unfold hardening_task. eapply hardening_task_start; [exact HP|].
  eapply task_prefix; [exact HP|by left|]. simpl. intros k1 HS. pose proof (cs_kh _ _ _ _ HS) as Hh.
  wp_steps. rewrite Hh. simpl. rewrite (pr_step _ _ _ _ _ HP). simpl. apply wp_bind, wp_assert.
  { rewrite Hh. simpl. by rewrite Hre. }
  unfold modify_h. wp_steps. simpl. pose proof (cs_proc _ _ _ _ HS) as Hv.
  assert (p_cr3 (proctab k1 p) = root) as -> by (rewrite <-(pr_root _ _ _ _ _ HP); unfold pview in Hv; congruence).
  set (k2 := k1 <| kh ::= _ |>). pose proof (pr_wf _ _ _ _ _ HP) as HW0.
  assert (ws_wf k1 p root l) as HW1 by exact (ctx_saved_wf _ _ _ _ _ _ HS (pr_nr _ _ _ _ _ HP) HW0).
  assert (ws_wf k2 p root l) as HW by by apply (ws_wf_ext k1).
  eapply wp_mono; [apply (vm_reset_pram_first k2 p root l HW)|].
  { subst k2. simpl. rewrite Hh. exact (pr_step _ _ _ _ _ HP). }
  intros [] k3 HF. wp_steps. pose proof (first_run_ended_dirs _ _ _ _ _ HW HF) as Hda.
  assert (phys k2 = phys k ∧ working_set k2 = working_set k) as [Hp2 Hw2].
  { subst k2. simpl. by rewrite (cs_phys _ _ _ _ HS), (cs_ws _ _ _ _ HS). }
  assert (proctab k3 = proctab k1) as Hpt by by apply (mem_only_field proctab k2 k3 (fe_only _ _ _ _ HF)).
  assert (kh k3 = kh k <| copy_1 := first_ctx k p |> <| h_restore := RESTORE_FOR_SECOND_RUN |>) as Hh3.
  { rewrite (mem_only_field kh k2 k3 (fe_only _ _ _ _ HF)) by done. subst k2. simpl. by rewrite Hh. }
  pose proof (fe_shape _ _ _ _ HF) as Hsh. unfold pview in Hv.
  eapply wp_mono; [apply (run_proc_2_restarts k3 p root l SECOND_RUN)|].
  - split; rewrite ?Hpt, ?Hh3; simpl; try (by destruct HP).
    + apply (ws_wf_ext k2); try done; unfold hp; by rewrite Hpt.
    + apply (cs_nr _ _ _ _ HS).
    + by right.
    + rewrite <-(pr_root _ _ _ _ _ HP). congruence.
    + intros b Hb. specialize (Hsh b). rewrite Hw2 in Hsh. unfold shape in Hsh. destruct (pr_us0 _ _ _ _ _ HP b Hb). congruence.
    + intros b Hb. eapply paired_shape; [apply Hsh|]. rewrite Hw2. by apply (pr_paired _ _ _ _ _ HP).
    + intros b Hb. apply (first_run_ended_pfa k2 k3 root l b); try done. rewrite Hp2, Hw2. apply (pr_pfa _ _ _ _ _ HP).
    + by left.
  - intros [] k4 [HR Hc]. wp_steps. split; [done|]. split; [|by rewrite Hc, Hh3].
    apply (run_started_from k k3); [done|by rewrite Hh3|rewrite Hpt; congruence|intros b; by rewrite Hsh, Hw2|].
    intros b Hb i Hi. rewrite (fe_mem _ _ _ _ HF); [by rewrite Hp2|]. intros b' Hb' He.
    assert (us0 (working_set k b) ∈ block_frames (working_set k b)) as Hf.
    { apply block_frames_elem. destruct (pr_us0 _ _ _ _ _ HP b Hb). auto. }
    destruct (ww_tables _ _ _ _ HW0 b b' _ Hb Hb' Hf) as [Hn _]. rewrite Hp2, Hw2 in He.
    rewrite <-He, in_frame_off in Hn by done. done.
Qed.

(** ** The end of the second run *)

Lemma cmp_runs_spec k1 p root l :
  ws_wf k1 p root l →
  wp (if cmp_reg k1 then cmp_mem p else mret EFAULT) (λ r k2, cmp_keeps p k1 k2 ∧
    (r = OK ∧ cmp_reg k1 = true ∧ pages_agree k1 l ∨ r = EFAULT ∧ ~ (cmp_reg k1 = true ∧ pages_agree k1 l))) k1.
Proof.
  intros HW. destruct (cmp_reg k1).
  - eapply wp_mono; [by apply (cmp_mem_spec k1 p l); apply HW|]. intros r k2 [HK [[-> Ha]|[-> Ha]]]; (split; [done|]); [by left|right]. tauto.
  - wp_steps. split; [apply cmp_keeps_refl|right]. by split; [|intros []].
Qed.

Lemma cmp_keeps_wf p k k' root l : cmp_keeps p k k' → ws_wf k p root l → ws_wf k' p root l.
Proof.
  intros HK HW. pose proof (ck_proc _ _ _ HK) as Hp. apply (ws_wf_ext k); rewrite ?(ck_phys _ _ _ HK); try done.
  - by rewrite Hp.
  - unfold hp. by rewrite Hp.
  - unfold hp. by rewrite Hp.
  - intros b. by eapply cmp_keeps_shape.
Qed.

Lemma cmp_reg_agree k k1 p :
  kh k1 = kh k <| copy_2 := second_ctx k p |> → (cmp_reg k1 = true ↔ regs_agree k p).
Proof. intros Hh. unfold cmp_reg, regs_agree. rewrite Hh. simpl. apply bool_decide_eq_true. Qed.

(** The part shared by both outcomes: the comparison. *)
Lemma second_run_compares k p root l Q :
  pe_running k p root l SECOND_RUN → needs_stepping k = false ∨ regs_agree k p →
  (∀ r k2, ws_wf k2 p root l → phys k2 = phys k → (∀ b, shape (working_set k2 b) = shape (working_set k b)) →
    (∀ b f, Z.land FWS f = 0 → has (pmb_flags (working_set k2 b)) f = has (pmb_flags (working_set k b)) f) →
    kh k2 = kh k <| copy_2 := second_ctx k p |> → pview (proctab k2 p) = pview (proctab k p) →
    (∀ n, p_nr (proctab k2 n) = n) →
    (r = OK ∧ regs_agree k p ∧ pages_agree k l ∨ r = EFAULT ∧ ~ (regs_agree k p ∧ pages_agree k l)) →
    wp (if negb (r =? OK) then
          vm_reset_pram p root CMP_FAILED;;
          modify_h (λ h, h <| h_restore := RESTORE_FOR_FISRT_RUN |>);;
          modify_proc p (λ q, q <| p_rts_flags ::= set_flag RTS_UNSTABLE_STATE |>);;
          modify_h (λ h, h <| nbpe_f ::= Z.succ |>);;
          modify_hproc p (λ h, h <| p_nb_dwc_d_f ::= Z.succ |>);;
          origin ← gets (λ k, origin_syscall (kh k));
          (if (origin =? 6) || (origin =? 7) || (origin =? 8)
           then modify_hproc p (λ h, h <| p_nb_exception_d_f ::= Z.succ |>) else mret ());;
          run_proc_2 p;;
          mret (SwitchedTo p)
        else
          vm_reset_pram p root CPY_RAM_PRAM;;
          reset_hardened_run p;;
          mret TaskReturned) Q k2) →
  wp hardening_task Q k.
Proof.
  intros HP Hns Hm. unfold hardening_task. eapply hardening_task_start; [exact HP|].
  eapply task_prefix; [exact HP|by right|]. simpl. intros k1 HS. pose proof (cs_kh _ _ _ _ HS) as Hh.
  pose proof (cmp_reg_agree k k1 p Hh) as Hca.
  wp_steps. rewrite Hh. simpl. rewrite (pr_step _ _ _ _ _ HP). simpl. wp_steps.
  assert ((origin_syscall (kh k1) =? PE_END_IN_NMI) && negb (secnd_run_ins (kh k1) =? first_run_ins (kh k1)) && negb (cmp_reg k1) = false) as ->.
  { rewrite Hh. simpl. fold (needs_stepping k). destruct Hns as [->|Ha]; [done|]. rewrite (proj2 Hca Ha). apply andb_false_r. }
  pose proof (cs_proc _ _ _ _ HS) as Hv. unfold cmp_step. wp_steps.
  assert (p_cr3 (proctab k1 p) = root) as -> by (rewrite <-(pr_root _ _ _ _ _ HP); unfold pview in Hv; congruence).
  assert (ws_wf k1 p root l) as HW by exact (ctx_saved_wf _ _ _ _ _ _ HS (pr_nr _ _ _ _ _ HP) (pr_wf _ _ _ _ _ HP)).
  eapply wp_mono; [apply (cmp_runs_spec k1 p root l HW)|]. intros r k2 [HK Hr].
  pose proof (ck_proc _ _ _ HK) as Hq. apply (Hm r k2).
  - by eapply cmp_keeps_wf.
  - by rewrite (ck_phys _ _ _ HK), (cs_phys _ _ _ _ HS).
  - intros b. rewrite (cmp_keeps_shape _ _ _ b HK). by rewrite (cs_ws _ _ _ _ HS).
  - intros b f Hf. rewrite (cmp_keeps_has _ _ _ b f HK Hf). by rewrite (cs_ws _ _ _ _ HS).
  - by rewrite (ck_kh _ _ _ HK), Hh.
  - rewrite Hq, <-Hv. done.
  - intros n. destruct (decide (n = p)) as [->|Hn]; [rewrite Hq; simpl|rewrite (ck_procs _ _ _ HK) by done]; apply (cs_nr _ _ _ _ HS).
  - rewrite Hca in Hr. assert (pages_agree k1 l ↔ pages_agree k l) as Hpa.
    { unfold pages_agree, page_agrees. by rewrite (cs_ws _ _ _ _ HS), (cs_phys _ _ _ _ HS). }
    rewrite Hpa in Hr. done.
Qed.

(** What a commit leaves of the processing element. *)
Record pe_committed (k k' : kstate) (p root : Z) (l : list Z) : Prop := {
  pc_off : h_enable (kh k') = H_DISABLE ∧ h_step (kh k') = NO_HARD_RUN ∧ h_restore (kh k') = 0;
  pc_regs : p_reg (proctab k' p) = p_reg (proctab k p) ∧ p_rts_flags (proctab k' p) = p_rts_flags (proctab k p);
  pc_written : ∀ b, b ∈ l → written_at k root b = true →
    frame_same (phys k) (us2 (working_set k b)) (phys k') (us0 (working_set k b));
  pc_kept : ∀ b, b ∈ l → written_at k root b = false →
    frame_same (phys k) (us0 (working_set k b)) (phys k') (us0 (working_set k b));
  pc_mapped : ∀ b, b ∈ l → mapped_rw (phys k') root (vaddr (working_set k b)) (us0 (working_set k b));
}.

Lemma reset_hardened_run_spec p k :
  p_sig_delay (hp k p) = -1 →
  wp (reset_hardened_run p) (λ _ k', phys k' = phys k ∧ working_set k' = working_set k ∧
    pview (proctab k' p) = pview (proctab k p) ∧
    h_enable (kh k') = H_DISABLE ∧ h_step (kh k') = NO_HARD_RUN ∧ h_restore (kh k') = 0) k.
Proof.
  intros Hsig. unfold reset_hardened_run, modify_h, modify_hproc, modify_proc. wp_steps. simpl. unfold hp. simpl.
  rewrite !upd_eq. simpl. unfold hp in Hsig. rewrite Hsig. simpl. wp_steps. simpl. by rewrite !upd_eq.
Qed.

Lemma written_at_same k k2 root b :
  phys k2 = phys k → shape (working_set k2 b) = shape (working_set k b) →
  (∀ f, Z.land FWS f = 0 → has (pmb_flags (working_set k2 b)) f = has (pmb_flags (working_set k b)) f) →
  written_at k2 root b = written_at k root b.
Proof.
  intros Hp Hsh Hf. unfold written_at, page_written. rewrite Hp, Hf by done. unfold shape in Hsh.
  injection Hsh as Ev E0 E1 E2 _. by rewrite Ev, E0, E2.
Qed.

Lemma second_run_agrees k p root l :
  pe_running k p root l SECOND_RUN → regs_agree k p → pages_agree k l →
  (∀ b, b ∈ l → has (pmb_flags (working_set k b)) WS_SHARED = false) → p_sig_delay (hp k p) = -1 →
  wp hardening_task (λ e k', e = TaskReturned ∧ pe_committed k k' p root l) k.
Proof.
  intros HP Hra Hpa Hsh Hsig. apply (second_run_compares k p root l); [done|by right|].
  intros r k2 HW2 Hp2 Hs2 Hf2 Hh2 Hv2 Hnr2 [[-> _]|[_ []]]; [|by split]. simpl. wp_steps.
  assert (∀ b, us0 (working_set k2 b) = us0 (working_set k b) ∧ us2 (working_set k2 b) = us2 (working_set k b) ∧
    vaddr (working_set k2 b) = vaddr (working_set k b)) as Hx.
  { intros b. specialize (Hs2 b). unfold shape in Hs2. split_and!; congruence. }
  eapply wp_mono; [apply (vm_reset_pram_commit k2 p root l HW2)|].
  - intros b Hb. destruct (Hx b) as (-> & _). by apply (pr_us0 _ _ _ _ _ HP).
  - intros b Hb. rewrite Hf2 by done. by apply Hsh.
  - rewrite Hh2. exact (pr_step _ _ _ _ _ HP).
  - intros [] k3 HC. wp_steps. assert (proctab k3 = proctab k2) as Hpt by by apply (mem_only_field proctab k2 k3 (cm_only _ _ _ _ HC)).
    eapply wp_mono; [apply (reset_hardened_run_spec p k3)|].
    { unfold pview, hp in *. rewrite Hpt. congruence. }
    intros [] k4 (Hp4 & Hw4 & Hv4 & He4). wp_steps. split; [done|]. rewrite Hpt, Hv2 in Hv4.
    split; rewrite ?Hp4; [done|unfold pview in Hv4; split; congruence|..]; intros b Hb.
    + intros Hw. destruct (Hx b) as (<- & <- & _). rewrite <-Hp2. apply (cm_written _ _ _ _ HC); [done|]. by rewrite (written_at_same k k2 root b Hp2 (Hs2 b) (Hf2 b)).
    + intros Hw. destruct (Hx b) as (<- & _ & _). rewrite <-Hp2. apply (cm_kept _ _ _ _ HC); [done|]. by rewrite (written_at_same k k2 root b Hp2 (Hs2 b) (Hf2 b)).
    + destruct (Hx b) as (<- & _ & <-). by apply (cm_mapped _ _ _ _ HC).
Qed.

Lemma rolled_back_pfa k k1 root l b :
  (∀ b, b ∈ l → us0 (working_set k b) ≠ 0) →
  (∀ b, b ∈ l → I386_VM_PFA (phys k (pte_addr (phys k) root (vaddr (working_set k b)))) ≠ 0) →
  rolled_back k k1 root l → b ∈ l →
  I386_VM_PFA (phys k1 (pte_addr (phys k1) root (vaddr (working_set k1 b)))) ≠ 0.
Proof.
  intros H0 Hpfa HR Hb. rewrite (rb_blocks _ _ _ _ HR b Hb). simpl.
  destruct (has_shadow (working_set k b)) eqn:Hs.
  - destruct (rb_mapped _ _ _ _ HR b Hb Hs) as [-> _]. by apply H0.
  - assert (pte_addr (phys k1) root (vaddr (working_set k b)) = pte_addr (phys k) root (vaddr (working_set k b))) as ->.
    { unfold pte_addr. by rewrite (rb_dirs _ _ _ _ HR). }
    rewrite (rb_bare _ _ _ _ HR) by done. by apply Hpfa.
Qed.

Lemma second_run_differs k p root l :
  pe_running k p root l SECOND_RUN → needs_stepping k = false → no_events k p →
  ~ (regs_agree k p ∧ pages_agree k l) →
  wp hardening_task (λ e k', e = SwitchedTo p ∧ run_started k k' p root l FIRST_RUN) k.
Proof.
  intros HP Hns Hev Hd. apply (second_run_compares k p root l); [done|by left|].
  intros r k2 HW2 Hp2 Hs2 Hf2 Hh2 Hv2 Hnr2 [[_ H]|[-> _]]; [done|].
  change (negb (EFAULT =? OK)) with true. cbv iota. wp_steps.
  eapply wp_mono; [apply (vm_reset_pram_rollback k2 p root l HW2 CMP_FAILED)|].
  { right. split; [done|]. rewrite Hh2. exact (pr_step _ _ _ _ _ HP). }
  intros [] k3 HC. unfold modify_h, modify_hproc, modify_proc. wp_steps.
  assert (proctab k3 = proctab k2) as Hpt by by apply (mem_only_field proctab k2 k3 (rb_only _ _ _ _ HC)).
  assert (kh k3 = kh k2) as Hkh by by apply (mem_only_field kh k2 k3 (rb_only _ _ _ _ HC)).
  assert (∀ b, shape (working_set k3 b) = shape (working_set k2 b)) as Hs3.
  { intros b. destruct (decide (b ∈ l)) as [Hb|Hb]; [by rewrite (rb_blocks _ _ _ _ HC)|by rewrite (rb_others _ _ _ _ HC)]. }
  match goal with |- wp (if ?b then modify ?f else mret ()) _ ?s =>
    set (k4 := if b then f s else s); eapply wp_intro with (a := ()) (s' := k4); [subst k4; by destruct b|] end.
  assert (phys k4 = phys k3 ∧ working_set k4 = working_set k3 ∧
    kh k4 = kh k2 <| h_restore := RESTORE_FOR_FISRT_RUN |> <| nbpe_f ::= Z.succ |>) as (Hp4 & Hw4 & Hh4).
  { subst k4. rewrite <-Hkh. by case_bool. }
  assert (∀ n, p_nr (proctab k4 n) = n) as Hnr4.
  { intros n. transitivity (p_nr (proctab k2 n)); [|done]. rewrite <-Hpt. subst k4.
    destruct (_ || _); simpl; rewrite !upd_case; by repeat case_decide; subst. }
  assert (pview (proctab k4 p) = pview (proctab k2 p <| p_rts_flags ::= set_flag RTS_UNSTABLE_STATE |>)) as Hv4.
  { rewrite <-Hpt. subst k4. case_bool; simpl; rewrite ?upd_eq; done. }
  clearbody k4. wp_steps. unfold pview in Hv2, Hv4. simpl in Hv4.
  assert (∀ b, us0 (working_set k2 b) = us0 (working_set k b)) as Hx.
  { intros b. specialize (Hs2 b). unfold shape in Hs2. congruence. }
  assert (∀ b, vaddr (working_set k2 b) = vaddr (working_set k b)) as Hxv.
  { intros b. specialize (Hs2 b). unfold shape in Hs2. congruence. }
  eapply wp_mono; [apply (run_proc_2_restarts k4 p root l FIRST_RUN)|].
  - split; rewrite ?Hh4, ?Hh2; simpl; try (by destruct HP).
    + apply (ws_wf_ext k2); [exact HW2|by rewrite Hnr4, Hnr2|unfold hp; congruence..| |]; [intros b; by rewrite Hw4|].
      intros b Hb. rewrite Hp4. by apply (rb_dirs _ _ _ _ HC).
    + by left.
    + rewrite <-(pr_root _ _ _ _ _ HP). congruence.
    + intros b Hb. rewrite Hw4. specialize (Hs3 b). unfold shape in Hs3. destruct (pr_us0 _ _ _ _ _ HP b Hb). pose proof (Hx b). congruence.
    + intros b Hb. eapply paired_shape; [rewrite Hw4, Hs3; apply Hs2|]. by apply (pr_paired _ _ _ _ _ HP).
    + rewrite Hw4, Hp4. intros b Hb. apply (rolled_back_pfa k2 k3 root l b); try done.
      * intros b' Hb'. rewrite Hx. by apply (pr_us0 _ _ _ _ _ HP).
      * intros b' Hb'. rewrite Hp2, Hxv. by apply (pr_pfa _ _ _ _ _ HP).
    + right. unfold no_events, hp in *. destruct Hev. split; congruence.
  - intros [] k5 [HR _]. wp_steps. split; [done|].
    apply (run_started_from k k4); [done|by rewrite Hh4, Hh2|congruence|intros b; by rewrite Hw4, Hs3|].
    intros b Hb. rewrite Hp4, <-Hp2, <-Hx. apply (rb_us0 _ _ _ _ HC b Hb). rewrite Hx. by apply (pr_us0 _ _ _ _ _ HP).
Qed.
