(* ===== verification/DwcProps.v ===== *)
(** * Properties of duplication with comparison *)
From S2P Require Import Prelude LinkedList Kernel Sched Notify Ipc HMem WorkingSet HShared Pram PramInv PramRun Dwc DwcInv DwcRun DwcThm.

(** ** Contexts *)

(** The context that [save_copy_0] keeps of a process. *)
Definition saved_view (q : proc) :=
  let r := p_reg q in
  ((gs r, fs r, es r, ds r, di r, si r, fp r, bx r, dx r, cx r), (retreg r, pc r, cs r, psw r, sp r, ss r),
   p_kern_trap_style q, p_rts_flags q, p_cpu_time_left q).
(** Segment registers are 16 bits wide. *)
Definition seg_ok (r : stackframe) : Prop :=
  0 ≤ gs r < 2 ^ 16 ∧ 0 ≤ fs r < 2 ^ 16 ∧ 0 ≤ es r < 2 ^ 16 ∧ 0 ≤ ds r < 2 ^ 16.

Lemma u16_id x : 0 ≤ x < 2 ^ 16 → u16 x = x.
Proof. intros. by apply Z.mod_small. Qed.
Lemma u16_u16 x : u16 (u16 x) = u16 x.
Proof. unfold u16. by rewrite Z.mod_mod. Qed.

(** Saving and restoring a context is a round trip: [save_copy_0], then a run that does
    what it likes to the process table and memory but not to the kernel's copy, then
    [restore_copy_0], gives the process the registers, the trap style, the run-time flags and
    the time left that it had, and the processor its control registers. *)
Theorem save_restore_copy_0 k p :
  seg_ok (p_reg (proctab k p)) →
  wp (save_copy_0 p) (λ _ k1, ∀ k2, copy_0 (kh k2) = copy_0 (kh k1) →
    wp (restore_copy_0 p) (λ _ k3, saved_view (proctab k3 p) = saved_view (proctab k p) ∧
      cpu_cr k3 = cpu_cr k <| cr2 := cr2 (cpu_cr k2) |> ∧ phys k3 = phys k2 ∧ kh k3 = kh k2) k2) k.
Proof.
  intros (Hgs & Hfs & Hes & Hds). unfold save_copy_0, modify_h. wp_steps. intros k2 Hc.
  unfold restore_copy_0, modify_proc, write_cr. wp_steps. rewrite Hc. simpl. rewrite upd_eq.
  split; [|done]. unfold saved_view. simpl. by rewrite !u16_u16, !u16_id.
Qed.

(** ** Fault injection and its detection *)

Lemma flip_xor i x : 0 ≤ i → flip i x = Z.lxor x (2 ^ i).
Proof.
  intros Hi. unfold flip. rewrite Z.shiftl_1_l, has_bit by done. apply Z.bits_inj'. intros j Hj. rewrite Z.lxor_spec.
  destruct (Z.testbit x i) eqn:E.
  - rewrite clear_flag_bit by done. destruct (decide (j = i)) as [->|Hne].
    + by rewrite Z.pow2_bits_true, E.
    + rewrite Z.pow2_bits_false by done. by rewrite andb_true_r, xorb_false_r.
  - rewrite set_flag_bit. destruct (decide (j = i)) as [->|Hne].
    + by rewrite Z.pow2_bits_true, E.
    + rewrite Z.pow2_bits_false by done. by rewrite orb_false_r, xorb_false_r.
Qed.
Lemma flip_ne i x : 0 ≤ i → x ≠ flip i x.
Proof.
  intros Hi He. rewrite flip_xor in He by done. assert (2 ^ i = 0) as H0.
  { rewrite <-(Z.lxor_0_l (2 ^ i)), <-(Z.lxor_nilpotent x), Z.lxor_assoc, <-He. done. }
  pose proof (Z.pow_pos_nonneg 2 i). lia.
Qed.
Lemma flip16_ne i x : 0 ≤ i < 16 → x ≠ flip16 i x.
Proof.
  intros Hi He. assert (Z.testbit x i = Z.testbit (flip i x) i) as Hb.
  { rewrite He at 1. unfold flip16, u16. by rewrite Z.mod_pow2_bits_low by lia. }
  rewrite flip_xor, Z.lxor_spec, Z.pow2_bits_true in Hb by lia. by destruct (Z.testbit x i).
Qed.

(** The bit of [gpr_bit_id] exists: not the virtual-8086 flag, and within the width of the
    segment registers. *)
Definition effective (id : Z) : Prop :=
  0 ≤ id < 16 * REG_SIZE ∧ id ≠ 17 ∧ (id < 12 * REG_SIZE ∨ id mod REG_SIZE < 16).

(** Every fault that [inject_error_in_gpregs] can inject into the registers of one run is
    seen: if the contexts in which the two runs end are those of the same registers, but for
    the bit flipped in one of them, [cmp_reg] tells them apart (unless the processing element
    ended in a system call, for which fewer registers are compared). *)
Theorem injection_detected k id r old1 old2 st1 st2 :
  c_regs (copy_1 (kh k)) = saved_regs r old1 st1 →
  c_regs (copy_2 (kh k)) = saved_regs (injected id r) old2 st2 →
  seg_ok r → effective id → origin_syscall (kh k) ≠ 1 → origin_syscall (kh k) ≠ 2 →
  cmp_reg k = false.
Proof.
  intros H1 H2 (Hgs & Hfs & Hes & Hds) (Hid & H17 & Hw) Ho1 Ho2. unfold cmp_reg, cmp_words.
  rewrite (proj2 (Z.eqb_neq _ _) Ho1), (proj2 (Z.eqb_neq _ _) Ho2), H1, H2. apply bool_decide_eq_false. intros He.
  unfold REG_SIZE in *. injection He. intros. unfold saved_regs in *. simpl in *.
  pose proof (Z.mod_pos_bound id 32 ltac:(lia)) as Hm. pose proof (Z.div_mod id 32 ltac:(lia)) as Hdm.
  assert (0 ≤ id / 32 < 16) as Hq by (split; [apply Z.div_pos; lia|apply Z.div_lt_upper_bound; lia]).
  rewrite !(u16_id (gs r)), !(u16_id (fs r)), !(u16_id (es r)), !(u16_id (ds r)) in * by done.
  unfold injected, REG_SIZE in *.
  assert (id / 32 = 0 → id mod 32 ≠ 17) as Hno by lia. assert (12 ≤ id / 32 → id mod 32 < 16) as Hseg by lia.
  set (n := id / 32) in *. set (i := id mod 32) in *. clearbody n i. clear He Hdm H17 Hw H1 H2 Hid.
  assert (∀ x, x ≠ flip i x) as Hf by (intros x; apply flip_ne; lia).
  assert (n = 0 ∨ n = 1 ∨ n = 2 ∨ n = 3 ∨ n = 4 ∨ n = 5 ∨ n = 6 ∨ n = 7 ∨ n = 8 ∨ n = 9 ∨ n = 10 ∨ n = 11 ∨ n = 12 ∨ n = 13 ∨ n = 14 ∨ n = 15)
    as Hn by lia.
  repeat (destruct Hn as [Hn|Hn]); subst n; simpl in *; try (by eapply Hf; eauto).
  all: try (unfold flip16 in *; rewrite ?u16_u16 in *; eapply (flip16_ne i); [|unfold flip16; eassumption]; lia).
  destruct (Z.eqb_spec i 17); [lia|]. simpl in *. by eapply Hf; eauto.
Qed.

(** ** Memory *)

(** C39. [cmp_mem] is exact: it succeeds if and only if the pages that the first run wrote, and
    that have both copies, are the same in both runs; it touches no memory and no register. *)
Theorem cmp_mem_exact k p l :
  chain (pmb_next k) (p_lus1_us2 (hp k p)) l None → p_lus1_us2_size (hp k p) = Z.of_nat (length l) →
  (length l ≤ HLIST_FUEL)%nat →
  wp (cmp_mem p) (λ r k', cmp_keeps p k k' ∧ (r = OK ∧ pages_agree k l ∨ r = EFAULT ∧ ~ pages_agree k l)) k.
Proof. apply cmp_mem_spec. Qed.

(** What a process can do to memory while it runs: store to the frames of its user-writable
    pages, all of which are in the working set. *)
Definition user_stores (k k' : kstate) (root : Z) (l : list Z) : Prop :=
  ∀ a, phys k' a ≠ phys k a → ∃ b, b ∈ l ∧
    let v := vaddr (working_set k b) in
    check_pt_entry (phys k (pde_addr root v)) = OK ∧
    check_pt_entry (phys k (pte_addr (phys k) root v)) = OK ∧
    in_frame (I386_VM_PFA (phys k (pte_addr (phys k) root v))) a = true.

(** While its pages are mapped for a run, a process cannot change the committed content of
    any of its pages, nor the page tables. *)
Theorem run_cannot_touch_committed k k' p root l step :
  ws_wf k p root l → (∀ b, b ∈ l → us0 (working_set k b) ≠ MAP_NONE) →
  (∀ b, b ∈ l → isolated (phys k) root step (working_set k b)) → user_stores k k' root l →
  ∀ b, b ∈ l →
    frame_same (phys k) (us0 (working_set k b)) (phys k') (us0 (working_set k b)) ∧
    phys k' (pde_addr root (vaddr (working_set k b))) = phys k (pde_addr root (vaddr (working_set k b))) ∧
    phys k' (pte_addr (phys k) root (vaddr (working_set k b))) = phys k (pte_addr (phys k) root (vaddr (working_set k b))).
Proof.
  intros HW H0 Hiso Hst b Hb.
  assert (∀ a, phys k' a ≠ phys k a → ∃ b' f, b' ∈ l ∧ f ∈ block_frames (working_set k b') ∧ f ≠ us0 (working_set k b') ∧ in_frame f a = true) as Hw.
  { intros a Ha. destruct (Hst a Ha) as (b' & Hb' & Hd & Ht & Hf). destruct (Hiso b' Hb' Hd Ht) as [Hn He]. rewrite He in Hf.
    destruct (frames_ne k p root l HW b' Hb' (H0 b' Hb')) as [Hn1 Hn2]. unfold run_copy, blk in *.
    exists b'. destruct (step =? FIRST_RUN); (eexists; split_and!; [done| | |exact Hf]);
      try (apply block_frames_elem; auto); intros E; [by apply Hn1|by apply Hn2]. }
  split_and!.
  - intros i Hi. destruct (decide (phys k' (us0 (working_set k b) + i) = phys k (us0 (working_set k b) + i))) as [|Hne]; [done|].
    destruct (Hw _ Hne) as (b' & f & Hb' & Hf & Hn & Hin). exfalso.
    destruct (ww_frames _ _ _ _ HW b' b f (us0 (working_set k b)) (us0 (working_set k b) + i)) as [-> ->]; try done.
    + apply block_frames_elem. auto.
    + by apply in_frame_off.
  - match goal with |- phys k' ?a = _ => destruct (decide (phys k' a = phys k a)) as [|Hne]; [done|] end.
    destruct (Hw _ Hne) as (b' & f & Hb' & Hf & _ & Hin). destruct (ww_tables _ _ _ _ HW b' b f Hb' Hb Hf). congruence.
  - match goal with |- phys k' ?a = _ => destruct (decide (phys k' a = phys k a)) as [|Hne]; [done|] end.
    destruct (Hw _ Hne) as (b' & f & Hb' & Hf & _ & Hin). destruct (ww_tables _ _ _ _ HW b' b f Hb' Hb Hf). congruence.
Qed.

(** ** Runs *)

(** C3. The end of the first run: [hardening_task] keeps the context in which it ended and
    switches to the process, which starts its second run from the context in which it started
    the first, with its pages isolated from the committed frames, whose content has not
    changed. *)
Theorem hardening_task_first_run k p root l :
  pe_running k p root l FIRST_RUN → h_restore (kh k) = 0 →
  wp hardening_task (λ e k', e = SwitchedTo p ∧ run_started k k' p root l SECOND_RUN ∧
    copy_1 (kh k') = first_ctx k p) k.
Proof. apply first_run_hands_over. Qed.

(** C2. The runs agree: [hardening_task] returns, the processing element is over, the process
    keeps its registers, and the pages that the second run wrote are in the committed frames. *)
Theorem hardening_task_commits k p root l :
  pe_running k p root l SECOND_RUN → regs_agree k p → pages_agree k l →
  (∀ b, b ∈ l → has (pmb_flags (working_set k b)) WS_SHARED = false) → p_sig_delay (hp k p) = -1 →
  wp hardening_task (λ e k', e = TaskReturned ∧ pe_committed k k' p root l) k.
Proof. apply second_run_agrees. Qed.


(** ** A processing element of process 20 *)

(** Block 1 was written in both runs; [same] tells whether the frames agree. *)
Definition dwc_pmb (fws : Z) (b : Z) : pram_mem_block :=
  if b =? 1 then demo_pmb 1 <| pmb_flags := set_flag fws HGET_PF |> else demo_pmb b.
Definition dwc_mem (same : bool) (a : Z) : Z :=
  if bool_decide (a ∈ [0x100080; 0x101120; 0x101124]) then demo_mem a else if same then a mod 0x1000 else a.
Definition dwc_demo (step fws : Z) (same : bool) : kstate :=
  upd_proc 20 (λ q, q <| p_cr3 := 0x100000 |>
      <| p_h ::= λ h, h <| p_lus1_us2 := Some 0 |> <| p_lus1_us2_size := 2 |> <| p_sig_delay := -1 |> |>)
    (k0 <| working_set := dwc_pmb fws |> <| phys := dwc_mem same |> <| proc_ptr := 20 |>
       <| kh ::= λ h, h <| h_step := step |> <| h_enable := H_ENABLE |> <| h_proc_nr := 20 |>
            <| copy_0 := mk_copy0 (regs0 <| pc := 0x1234 |>) KTS_INT_HARD 0 1000 cregs0 |> |>).

Lemma dwc_demo_blocks (P : pram_mem_block → Prop) step fws same :
  P (dwc_pmb fws 0) → P (dwc_pmb fws 1) → ∀ b, b ∈ [0; 1] → P (working_set (dwc_demo step fws same) b).
Proof. intros H0 H1 b Hb. assert (b = 0 ∨ b = 1) as [-> | ->] by set_solver; [exact H0|exact H1]. Qed.

Lemma dwc_demo_wf step fws same : ws_wf (dwc_demo step fws same) 20 0x100000 [0; 1].
Proof.
  apply (ws_wf_ext (pram_demo step)); [apply pram_demo_wf|reflexivity|reflexivity|reflexivity| |].
  - intros b. change (working_set (dwc_demo step fws same) b) with (dwc_pmb fws b). unfold dwc_pmb.
    destruct (Z.eqb_spec b 1) as [->|]; reflexivity.
  - intros b Hb. assert (b = 0 ∨ b = 1) as [-> | ->] by set_solver; reflexivity.
Qed.

Lemma dwc_demo_running step fws same : pe_running (dwc_demo step fws same) 20 0x100000 [0; 1] step.
Proof.
  split; [reflexivity|apply dwc_demo_wf| |done|reflexivity..|done|reflexivity|reflexivity| | |].
  - intros n. change (p_nr (upd proc0 20 (proc0 20 <| p_cr3 := 0x100000 |>
      <| p_h ::= λ h, h <| p_lus1_us2 := Some 0 |> <| p_lus1_us2_size := 2 |> <| p_sig_delay := -1 |> |>) n) = n).
    rewrite upd_case. case_decide; [by subst|done].
  - apply (dwc_demo_blocks (λ x, us0 x ≠ MAP_NONE ∧ us0 x ≠ 0)); vm_compute; split; congruence.
  - apply (dwc_demo_blocks paired); vm_compute; split; congruence.
  - apply (dwc_demo_blocks (λ x, I386_VM_PFA (dwc_mem same (pte_addr (dwc_mem same) 0x100000 (vaddr x))) ≠ 0)); vm_compute; congruence.
Qed.

Lemma dwc_demo_pages step : pages_agree (dwc_demo step FWS true) [0; 1].
Proof.
  refine (dwc_demo_blocks (λ x, compared x = true → page_agrees (dwc_demo step FWS true) x) step FWS true _ _).
  - intros H. discriminate H.
  - intros _. apply cmp_frames_spec. vm_compute. reflexivity.
Qed.
Lemma dwc_demo_differ step : ~ pages_agree (dwc_demo step FWS false) [0; 1].
Proof.
  intros H. assert (0x205000 = 0x204000); [|done].
  apply (H 1) with (i := 0); [set_solver|vm_compute; reflexivity|]. apply list_elem_of_fmap. exists 0. split; [done|].
  apply elem_of_seqZ. done.
Qed.
Lemma dwc_demo_regs step fws same : regs_agree (dwc_demo step fws same) 20.
Proof. vm_compute. reflexivity. Qed.

Lemma save_restore_copy_0_witness :
  wp (save_copy_0 20) (λ _ k1, ∀ k2, copy_0 (kh k2) = copy_0 (kh k1) →
    wp (restore_copy_0 20) (λ _ k3, saved_view (proctab k3 20) = saved_view (proctab k0 20)) k2) k0.
Proof.
  eapply wp_mono; [apply (save_restore_copy_0 k0 20); vm_compute; split_and!; congruence|].
  intros a k1 H k2 Hc. eapply wp_mono; [exact (H k2 Hc)|]. intros b k3 [H3 _]. exact H3.
Defined.

Definition injected_demo : kstate :=
  k0 <| kh ::= λ h, h <| copy_1 := mk_copy12 (saved_regs regs0 regs0 0) 0 7 kregs0 cregs0 |>
    <| copy_2 := mk_copy12 (saved_regs (injected 40 regs0) regs0 0) 0 7 kregs0 cregs0 |> <| origin_syscall := 7 |> |>.
Lemma injection_detected_witness : cmp_reg injected_demo = false.
Proof.
  apply (injection_detected injected_demo 40 regs0 regs0 regs0 0 0); try reflexivity.
  - vm_compute. split_and!; congruence.
  - split; [vm_compute; split; congruence|]. split; [vm_compute; congruence|left; vm_compute; congruence].
  - vm_compute. congruence.
  - vm_compute. congruence.
Defined.

Lemma cmp_mem_exact_witness :
  wp (cmp_mem 20) (λ r _, r = EFAULT) (dwc_demo SECOND_RUN FWS false).
Proof.
  eapply wp_mono; [apply (cmp_mem_exact (dwc_demo SECOND_RUN FWS false) 20 [0; 1])|].
  - apply (ww_chain _ _ _ _ (dwc_demo_wf SECOND_RUN FWS false)).
  - reflexivity.
  - apply (ww_len _ _ _ _ (dwc_demo_wf SECOND_RUN FWS false)).
  - intros r k' [_ [[_ H]|[H _]]]; [exfalso; exact (dwc_demo_differ SECOND_RUN H)|exact H].
Defined.

(** In the first run, with block 0 read-only and block 1 mapped to its first copy. *)
Definition mapped_demo : kstate :=
  dwc_demo FIRST_RUN FWS true <| phys ::= λ m, upd (upd m 0x101120 0x200005) 0x101124 0x204007 |>.
Lemma mapped_demo_wf : ws_wf mapped_demo 20 0x100000 [0; 1].
Proof.
  assert (∀ k f, let k' := k <| phys ::= f |> in
    ws_wf k 20 0x100000 [0; 1] →
    (∀ b, b ∈ [0; 1] → f (phys k) (pde_addr 0x100000 (vaddr (working_set k b))) = phys k (pde_addr 0x100000 (vaddr (working_set k b)))) →
    ws_wf k' 20 0x100000 [0; 1]) as H.
  { intros k f k' HW Hd. by apply (ws_wf_ext k). }
  apply H; [apply dwc_demo_wf|]. intros b Hb. assert (b = 0 ∨ b = 1) as [-> | ->] by set_solver; vm_compute; reflexivity.
Qed.
Definition stored_demo : kstate := mapped_demo <| phys ::= λ m, upd m 0x204010 77 |>.
Lemma run_cannot_touch_committed_witness :
  frame_same (phys mapped_demo) (us0 (working_set mapped_demo 1)) (phys stored_demo) (us0 (working_set mapped_demo 1)).
Proof.
  refine (proj1 (run_cannot_touch_committed mapped_demo stored_demo 20 0x100000 [0; 1] FIRST_RUN mapped_demo_wf _ _ _ 1 _)).
  - intros b Hb. assert (b = 0 ∨ b = 1) as [-> | ->] by set_solver; vm_compute; congruence.
  - intros b Hb. assert (b = 0 ∨ b = 1) as [-> | ->] by set_solver; vm_compute; [congruence|split; congruence].
  - intros a Ha. exists 1. split; [set_solver|]. change (upd (phys mapped_demo) 0x204010 77 a ≠ phys mapped_demo a) in Ha.
    rewrite upd_case in Ha. case_decide as E; [rewrite E|done]. vm_compute. auto.
  - set_solver.
Defined.

Lemma hardening_task_first_run_witness :
  wp hardening_task (λ e k', e = SwitchedTo 20 ∧ h_step (kh k') = SECOND_RUN ∧ pc (p_reg (proctab k' 20)) = 0x1234)
    (dwc_demo FIRST_RUN FWS false).
Proof.
  eapply wp_mono; [apply (hardening_task_first_run (dwc_demo FIRST_RUN FWS false) 20 0x100000 [0; 1]
    (dwc_demo_running FIRST_RUN FWS false)); reflexivity|].
  intros e k' (-> & HR & _). split; [reflexivity|]. split; [exact (st_step _ _ _ _ _ _ HR)|]. by rewrite (st_regs _ _ _ _ _ _ HR).
Defined.

Lemma hardening_task_commits_witness :
  wp hardening_task (λ e k', e = TaskReturned ∧ pe_committed (dwc_demo SECOND_RUN FWS true) k' 20 0x100000 [0; 1])
    (dwc_demo SECOND_RUN FWS true).
Proof.
  apply (hardening_task_commits (dwc_demo SECOND_RUN FWS true) 20 0x100000 [0; 1] (dwc_demo_running SECOND_RUN FWS true)).
  - apply dwc_demo_regs.
  - apply dwc_demo_pages.
  - apply (dwc_demo_blocks (λ x, has (pmb_flags x) WS_SHARED = false)); vm_compute; reflexivity.
  - reflexivity.
Defined.


(** ** Faults that are not seen *)


(** [cmp_reg] does not compare every register: for a processing element that ended with
    [origin_syscall] 1 the runs may differ in every general register but the stack pointer. *)
Theorem cmp_reg_ignores_registers h c1 c2 :
  origin_syscall h = 1 → pc (c_regs c1) = pc (c_regs c2) → psw (c_regs c1) = psw (c_regs c2) →
  sp (c_regs c1) = sp (c_regs c2) → c_origin c1 = c_origin c2 →
  cmp_reg (k0 <| kh := h <| copy_1 := c1 |> <| copy_2 := c2 |> |>) = true.
Proof. intros H1 H2 H3 H4 H5. unfold cmp_reg, cmp_words. simpl. rewrite H1, H2, H3, H4, H5. by apply bool_decide_eq_true. Qed.
Lemma cmp_reg_ignores_registers_witness :
  cmp_reg (k0 <| kh := hglobals0 <| origin_syscall := 1 |> <| copy_1 := copy12_0 |>
    <| copy_2 := mk_copy12 (regs0 <| bx := 5 |> <| retreg := 6 |>) 0 0 kregs0 cregs0 |> |>) = true.
Proof. apply cmp_reg_ignores_registers; reflexivity. Defined.
