(* ===== verification/VirtCopy.v ===== *)
(** * Address translation and copying between address spaces (kernel/arch/i386/memory.c)

    - [vm_lookup], [vm_lookup_range] and [umap_virtual] walk the page tables of a process;
    - [createpde] opens a 4 MB window of the loaded page directory on another address space,
      [lin_lin_copy] and [vm_memset] work through such windows;
    - [virtual_copy_f] checks its arguments, copies, and suspends the caller on VM
      ([vm_suspend]) when a page is missing.

    The assembly routines [phys_copy] and [phys_memset] are parameters; they work on linear
    addresses of the loaded page directory and return the address of a page fault, or 0.  So are
    the page directory entries [freepdes] that the boot code reserves for windows.  What the
    kernel sees at a process's [p_cr3_v], when it is not NULL, is the directory at [p_cr3], so
    the entries are the words of physical memory there.  [catch_pagefaults] and the reload of cr3, which flushes the
    translation cache, leave no trace in the state. *)
From S2P Require Import Prelude LinkedList Kernel Endpoint Sched IpcInv Notify HMem WorkingSet HShared.

Definition I386_BIG_PAGE_SIZE : Z := 4194304.
Definition I386_VM_ADDR_MASK_4MB : Z := 0xFFC00000.
Definition I386_VM_OFFSET_MASK_4MB : Z := 0x003FFFFF.
Definition VMSUSPEND : Z := -996.
Definition EFAULT_SRC : Z := -995.
Definition EFAULT_DST : Z := -994.
Definition VMSTYPE_KERNELCALL : Z := 1.
Definition VMPTYPE_CHECK : Z := 1.

(** ** Looking up addresses *)

Definition HASPT (k : kstate) (n : Z) : bool := negb (p_cr3 (proctab k n) =? 0).
(** [p->p_seg.p_cr3_v] is not NULL. *)
Definition dir_mapped (k : kstate) (n : Z) : bool := negb (p_cr3_v (proctab k n) =? 0).

(** [vm_lookup(proc, virtual, &physical, &ptent)]: the physical address and the entry, or
    [None] for EFAULT. *)
Definition vm_lookup (proc virtual : Z) : K (option (Z * Z)) :=
  assert_ (λ k, negb (isemptyp k proc)) "!isemptyp(proc)";;
  assert_ (λ k, HASPT k proc) "HASPT(proc)";;
  root ← gets (λ k, p_cr3 (proctab k proc));
  assert_ (λ _, root mod I386_PAGE_SIZE =? 0) "root";;
  let pde := I386_VM_PDE virtual in
  assert_ (λ _, (0 <=? pde) && (pde <? I386_VM_DIR_ENTRIES)) "pde";;
  pde_v ← phys_get32 (root + 4 * pde);
  if negb (has pde_v I386_VM_PRESENT) then mret None
  else if has pde_v I386_VM_BIGPAGE then
    mret (Some (Z.land pde_v I386_VM_ADDR_MASK_4MB + Z.land virtual I386_VM_OFFSET_MASK_4MB, pde_v))
  else
    let pt := I386_VM_PFA pde_v in
    assert_ (λ _, pt mod I386_PAGE_SIZE =? 0) "pt";;
    let pte := I386_VM_PTE virtual in
    assert_ (λ _, (0 <=? pte) && (pte <? I386_VM_PT_ENTRIES)) "pte";;
    pte_v ← phys_get32 (pt + 4 * pte);
    if negb (has pte_v I386_VM_PRESENT) then mret None
    else mret (Some (I386_VM_PFA pte_v + virtual mod I386_PAGE_SIZE, pte_v)).

(** [while (len < bytes)] of [vm_lookup_range]: how much of the range is contiguous. *)
Fixpoint lookup_range_loop (fuel : nat) (proc bytes vir_addr next_phys len : Z) : K Z :=
  match fuel with
  | O => panic "vm_lookup_range does not end"
  | S fuel' =>
      if negb (len <? bytes) then mret len
      else
        r ← vm_lookup proc vir_addr;
        match r with
        | None => mret len
        | Some (phys, _) =>
            if negb (next_phys =? phys) then mret len
            else lookup_range_loop fuel' proc bytes (u32 (vir_addr + I386_PAGE_SIZE))
                   (u32 (next_phys + I386_PAGE_SIZE)) (u32 (len + I386_PAGE_SIZE))
        end
  end.

(** The size and the physical address of the first byte (0 when the size is 0). *)
Definition vm_lookup_range (proc vir_addr bytes : Z) : K (Z * Z) :=
  assert_ (λ _, 0 <? bytes) "bytes > 0";;
  assert_ (λ k, HASPT k proc) "HASPT(proc)";;
  r ← vm_lookup proc vir_addr;
  match r with
  | None => mret (0, 0)
  | Some (phys, _) =>
      let len := I386_PAGE_SIZE - vir_addr mod I386_PAGE_SIZE in
      l ← lookup_range_loop (Z.to_nat (bytes / I386_PAGE_SIZE) + 2) proc bytes (u32 (vir_addr + len))
            (u32 (phys + len)) len;
      mret (Z.min bytes l, phys)
  end.

Definition umap_virtual (rp vir_addr bytes : Z) : K Z :=
  r ← vm_lookup rp vir_addr;
  match r with
  | None => mret 0
  | Some (phys, _) =>
      if phys =? 0 then panic "vm_lookup returned phys"
      else if 0 <? bytes then
        r ← vm_lookup_range rp vir_addr bytes;
        if negb (fst r =? bytes) then mret 0 else mret phys
      else mret phys
  end.

(** ** Asking VM for help *)

(** [check_resumed_caller]: the result from VM if the call was resumed, otherwise OK. *)
Definition check_resumed_caller (caller : option Z) : K Z :=
  match caller with
  | None => mret OK
  | Some c =>
      resumed ← gets (λ k, has (p_misc_flags (proctab k c)) MF_KCALL_RESUME);
      if (resumed : bool) then
        assert_ (λ k, negb (vmresult (p_vmrequest (proctab k c)) =? VMSUSPEND)) "vmresult != VMSUSPEND";;
        gets (λ k, vmresult (p_vmrequest (proctab k c)))
      else mret OK
  end.

(** The request that [vm_suspend] leaves with the caller. *)
Definition check_request (target_e linaddr len type : Z) (r : vmreq) : vmreq :=
  r <| req_type := VMPTYPE_CHECK |> <| target := target_e |> <| check_start := linaddr |>
    <| check_length := len |> <| check_writeflag := 1 |> <| vmtype := type |>.

Definition vm_suspend (caller targetp linaddr len type : Z) : K unit :=
  assert_ (λ k, negb (RTS_ISSET k caller RTS_VMREQUEST)) "!RTS_ISSET(caller, RTS_VMREQUEST)";;
  assert_ (λ k, negb (RTS_ISSET k targetp RTS_VMREQUEST)) "!RTS_ISSET(target, RTS_VMREQUEST)";;
  RTS_SET caller RTS_VMREQUEST;;
  assert_ (λ k, negb (p_endpoint (proctab k caller) =? VM_PROC_NR)) "caller is VM";;
  te ← gets (λ k, p_endpoint (proctab k targetp));
  modify_proc caller (λ p, p <| p_vmrequest ::= check_request te linaddr len type |>);;
  first ← gets vmrequest;
  modify_proc caller (λ p, p <| p_vmrequest ::= λ r, r <| nextrequestor := first |> |>);;
  (match first with
   | Some _ => mret ()
   | None =>
       r ← send_sig VM_PROC_NR SIGKMEM;
       if r =? OK then mret () else panic "send_sig failed"
   end);;
  modify (λ k, k <| vmrequest := Some caller |>).

Definition vm_check_range (caller targetp vir_addr bytes : Z) : K Z :=
  resumed ← gets (λ k, has (p_misc_flags (proctab k caller)) MF_KCALL_RESUME);
  r ← gets (λ k, vmresult (p_vmrequest (proctab k caller)));
  if (resumed : bool) && negb (r =? OK) then mret r
  else vm_suspend caller targetp vir_addr bytes VMSTYPE_KERNELCALL;; mret VMSUSPEND.

(** ** Windows and copies *)

Section copy.
Context (freepdes : list Z).
Context (phys_copy : Z → Z → Z → K Z) (phys_memset : Z → Z → Z → K Z).

(** The page directory entry that shows [linaddr] of an address space: the entry of the
    process, or a made-up one for physical memory. *)
Definition window_pde (k : kstate) (pr : option Z) (linaddr : Z) : Z :=
  match pr with
  | Some n => phys k (pde_addr (p_cr3 (proctab k n)) linaddr)
  | None =>
      Z.lor (Z.lor (Z.lor (Z.lor (Z.land linaddr I386_VM_ADDR_MASK_4MB) I386_VM_BIGPAGE) I386_VM_PRESENT)
        I386_VM_WRITE) I386_VM_USER
  end.
Definition directly_visible (k : kstate) (pr : option Z) : bool :=
  match pr with Some n => (n =? ptproc k) || iskerneln n | None => false end.

(** [createpde(pr, linaddr, &bytes, free_pde_idx, &changed)]: the address in the loaded page
    directory, the truncated size and whether the mapping changed. *)
Definition createpde (pr : option Z) (linaddr bytes : Z) (free_pde_idx : nat) (changed : bool)
  : K (Z * Z * bool) :=
  assert_ (λ _, bool_decide (free_pde_idx < length freepdes)%nat) "free_pde_idx";;
  let pde := default 0 (freepdes !! free_pde_idx) in
  assert_ (λ _, (0 <=? pde) && (pde <? 1024)) "pde";;
  direct ← gets (λ k, directly_visible k pr);
  if (direct : bool) then mret (linaddr, bytes, changed)
  else
    assert_ (λ k, match pr with Some n => dir_mapped k n | None => true end) "pr->p_seg.p_cr3_v";;
    pdeval ← gets (λ k, window_pde k pr linaddr);
    assert_ (λ k, dir_mapped k (ptproc k)) "ptproc->p_seg.p_cr3_v";;
    slot ← gets (λ k, p_cr3 (proctab k (ptproc k)) + 4 * pde);
    old ← phys_get32 slot;
    (if old =? pdeval then mret () else phys_set32 slot pdeval);;
    let offset := Z.land linaddr I386_VM_OFFSET_MASK_4MB in
    mret (I386_BIG_PAGE_SIZE * pde + offset, Z.min bytes (I386_BIG_PAGE_SIZE - offset),
          changed || negb (old =? pdeval)).

(** The range [linaddr, linaddr+bytes) is crossed in at most 1025 windows on either side. *)
Definition WINDOW_FUEL : nat := 2050.
Arguments WINDOW_FUEL : simpl never.

Fixpoint lin_lin_loop (fuel : nat) (srcproc : option Z) (srclin : Z) (dstproc : option Z) (dstlin : Z)
    (bytes : Z) : K Z :=
  match fuel with
  | O => panic "lin_lin_copy does not end"
  | S fuel' =>
      if negb (0 <? bytes) then mret OK
      else
        s ← createpde srcproc srclin bytes 0 false;
        d ← createpde dstproc dstlin s.1.2 1 s.2;
        let srcptr := s.1.1 in
        let dstptr := d.1.1 in
        let chunk := d.1.2 in
        addr ← phys_copy srcptr dstptr chunk;
        if negb (addr =? 0) then
          if (srcptr <=? addr) && (addr <? u32 (srcptr + chunk)) then mret EFAULT_SRC
          else if (dstptr <=? addr) && (addr <? u32 (dstptr + chunk)) then mret EFAULT_DST
          else panic "lin_lin_copy fault out of range"
        else
          lin_lin_loop fuel' srcproc (u32 (srclin + chunk)) dstproc (u32 (dstlin + chunk)) (bytes - chunk)
  end.

(** The assertions at the start and the end of [lin_lin_copy]. *)
Definition usable (k : kstate) (pr : option Z) : bool :=
  match pr with Some n => negb (RTS_ISSET k n RTS_SLOT_FREE) | None => true end.
Definition not_inhibited (k : kstate) (pr : option Z) : bool :=
  match pr with Some n => negb (RTS_ISSET k n RTS_VMINHIBIT) | None => true end.
Definition lin_lin_asserts (srcproc dstproc : option Z) : K unit :=
  assert_ (λ k, usable k srcproc) "srcproc";;
  assert_ (λ k, usable k dstproc) "dstproc";;
  assert_ (λ k, usable k (Some (ptproc k))) "ptproc";;
  assert_ (λ k, dir_mapped k (ptproc k)) "ptproc->p_seg.p_cr3_v".

Definition lin_lin_copy (srcproc : option Z) (srclin : Z) (dstproc : option Z) (dstlin bytes : Z) : K Z :=
  assert_ (λ k, cr3 (cpu_cr k) =? p_cr3 (proctab k (ptproc k))) "read_cr3()";;
  assert_ (λ k, let n := p_nr (proctab k (ptproc k)) in (0 <=? n) && (n <? I386_VM_DIR_ENTRIES)) "procslot";;
  lin_lin_asserts srcproc dstproc;;
  assert_ (λ k, not_inhibited k srcproc) "srcproc RTS_VMINHIBIT";;
  assert_ (λ k, not_inhibited k dstproc) "dstproc RTS_VMINHIBIT";;
  r ← lin_lin_loop WINDOW_FUEL srcproc srclin dstproc dstlin bytes;
  (if r =? OK then lin_lin_asserts srcproc dstproc else mret ());;
  mret r.

(** An address space named by an endpoint: NONE is physical memory. *)
Definition copy_space (k : kstate) (proc_e : Z) : option (option Z) :=
  if proc_e =? NONE then Some None
  else match isokendpt k proc_e with Some n => Some (Some n) | None => None end.

Definition hardened (k : kstate) (n : Z) : bool := has (p_hflags (p_h (proctab k n))) PROC_TO_HARD.

(** [virtual_copy_f(caller, src_addr, dst_addr, bytes, vmcheck)]; [caller] is NULL iff
    [vmcheck] is 0. *)
Definition virtual_copy_f (caller : option Z) (src_e src_off dst_e dst_off bytes : Z) : K Z :=
  if bytes <=? 0 then mret EDOM
  else
    src ← gets (λ k, copy_space k src_e);
    dst ← gets (λ k, copy_space k dst_e);
    match src, dst with
    | Some src, Some dst =>
        r ← check_resumed_caller caller;
        if negb (r =? OK) then mret r
        else
          r ← lin_lin_copy src src_off dst dst_off bytes;
          if negb (r =? OK) then
            if negb (r =? EFAULT_SRC) && negb (r =? EFAULT_DST) then panic "lin_lin_copy failed"
            else
              match caller with
              | None => mret r
              | Some c =>
                  match (if r =? EFAULT_SRC then src else dst) with
                  | None => panic "assert(target)"
                  | Some t =>
                      vm_suspend c t (if r =? EFAULT_SRC then src_off else dst_off) bytes VMSTYPE_KERNELCALL;;
                      mret VMSUSPEND
                  end
              end
          else
            (match dst with
             | Some d =>
                 h ← gets (λ k, hardened k d);
                 if (h : bool) then add_hme_event d dst_off bytes;; mret () else mret ()
             | None => mret ()
             end);;
            mret OK
    | _, _ => mret ESRCH
    end.

Definition virtual_copy : Z → Z → Z → Z → Z → K Z := virtual_copy_f None.
Definition virtual_copy_vmcheck (caller : Z) : Z → Z → Z → Z → Z → K Z := virtual_copy_f (Some caller).

Definition data_copy (from_proc from_addr to_proc to_addr bytes : Z) : K Z :=
  assert_ (λ _, negb (from_proc =? NONE)) "src";;
  assert_ (λ _, negb (to_proc =? NONE)) "dst";;
  virtual_copy from_proc from_addr to_proc to_addr bytes.
Definition data_copy_vmcheck (caller from_proc from_addr to_proc to_addr bytes : Z) : K Z :=
  assert_ (λ _, negb (from_proc =? NONE)) "src";;
  assert_ (λ _, negb (to_proc =? NONE)) "dst";;
  virtual_copy_vmcheck caller from_proc from_addr to_proc to_addr bytes.

(** [vm_memset]: the pattern byte in every byte of the range. *)
Definition memset_pattern (c : Z) : Z :=
  let c := Z.land c 0xFF in
  Z.lor (Z.lor (Z.lor c (Z.shiftl c 8)) (Z.shiftl c 16)) (Z.shiftl c 24).

Fixpoint memset_loop (fuel : nat) (caller : Z) (whoptr : option Z) (ph count pattern cur_ph left : Z) : K Z :=
  match fuel with
  | O => panic "vm_memset does not end"
  | S fuel' =>
      if negb (0 <? left) then mret OK
      else
        w ← createpde whoptr cur_ph left 0 false;
        let chunk := w.1.2 in
        pfa ← phys_memset w.1.1 pattern chunk;
        if negb (pfa =? 0) then
          match whoptr with
          | Some who => vm_suspend caller who ph count VMSTYPE_KERNELCALL;; mret VMSUSPEND
          | None => panic "vm_memset: pf"
          end
        else memset_loop fuel' caller whoptr ph count pattern (u32 (cur_ph + chunk)) (left - chunk)
  end.

Definition vm_memset (caller who ph c count : Z) : K Z :=
  r ← check_resumed_caller (Some caller);
  if negb (r =? OK) then mret r
  else
    whoptr ← gets (λ k, copy_space k who);
    match whoptr with
    | None => mret ESRCH
    | Some whoptr =>
        assert_ (λ k, dir_mapped k (ptproc k)) "ptproc->p_seg.p_cr3_v";;
        memset_loop WINDOW_FUEL caller whoptr ph count (memset_pattern c) ph count
    end.
End copy.

(** ** What a look-up finds *)

(** The translation of an address by the tables of a process. *)
Definition lookup_page (k : kstate) (n v : Z) : option (Z * Z) :=
  let pde_v := phys k (pde_addr (p_cr3 (proctab k n)) v) in
  if negb (has pde_v I386_VM_PRESENT) then None
  else if has pde_v I386_VM_BIGPAGE then
    Some (Z.land pde_v I386_VM_ADDR_MASK_4MB + Z.land v I386_VM_OFFSET_MASK_4MB, pde_v)
  else
    let pte_v := phys k (pte_addr (phys k) (p_cr3 (proctab k n)) v) in
    if negb (has pte_v I386_VM_PRESENT) then None
    else Some (I386_VM_PFA pte_v + v mod I386_PAGE_SIZE, pte_v).
(** Address [v] of process [n] is byte [p] of physical memory. *)
Definition maps (k : kstate) (n v p : Z) : Prop := ∃ e, lookup_page k n v = Some (p, e).

(** A process with a page directory. *)
Record has_pt (k : kstate) (n : Z) : Prop := {
  pt_used : isemptyp k n = false;
  pt_dir : p_cr3 (proctab k n) ≠ 0;
  pt_aligned : p_cr3 (proctab k n) mod I386_PAGE_SIZE = 0;
}.

Lemma land_mask_div x n : 0 ≤ n → Z.land x (Z.lnot (Z.ones n)) = x / 2 ^ n * 2 ^ n.
Proof.
  intros Hn. rewrite <-Z.ldiff_land, Z.ldiff_ones_r by done.
  by rewrite Z.shiftl_mul_pow2, Z.shiftr_div_pow2.
Qed.
Lemma PFA_div e : I386_VM_PFA e = e mod 2 ^ 32 / 4096 * 4096.
Proof.
  unfold I386_VM_PFA. change I386_VM_ADDR_MASK with (Z.land (Z.lnot (Z.ones 12)) (Z.ones 32)).
  rewrite (Z.land_comm (Z.lnot _)), Z.land_assoc, Z.land_ones by lia.
  by rewrite land_mask_div.
Qed.
Lemma mask_4MB_div e : Z.land e I386_VM_ADDR_MASK_4MB = e mod 2 ^ 32 / I386_BIG_PAGE_SIZE * I386_BIG_PAGE_SIZE.
Proof.
  change I386_VM_ADDR_MASK_4MB with (Z.land (Z.lnot (Z.ones 22)) (Z.ones 32)).
  rewrite (Z.land_comm (Z.lnot _)), Z.land_assoc, Z.land_ones by lia.
  by rewrite land_mask_div.
Qed.
Lemma offset_4MB_mod v : Z.land v I386_VM_OFFSET_MASK_4MB = v mod I386_BIG_PAGE_SIZE.
Proof. change I386_VM_OFFSET_MASK_4MB with (Z.ones 22). by rewrite Z.land_ones by lia. Qed.
Lemma PDE_div v : I386_VM_PDE v = v / I386_BIG_PAGE_SIZE.
Proof. unfold I386_VM_PDE. by rewrite Z.shiftr_div_pow2 by lia. Qed.
Lemma PTE_div v : I386_VM_PTE v = v / I386_PAGE_SIZE mod 1024.
Proof.
  unfold I386_VM_PTE. change 1023 with (Z.ones 10). rewrite Z.land_ones by lia.
  by rewrite Z.shiftr_div_pow2 by lia.
Qed.

Lemma u32_range x : 0 ≤ u32 x < 2 ^ 32.
Proof. apply Z.mod_pos_bound. lia. Qed.
Lemma vm_lookup_run k n v :
  has_pt k n → 0 ≤ v < 2 ^ 32 → vm_lookup n v k = Ret (lookup_page k n v, k).
Proof.
  intros [Hu Hd Ha] Hv. unfold vm_lookup, phys_get32.
  rewrite run_assert by (by rewrite Hu).
  rewrite run_assert by (unfold HASPT; by rewrite (proj2 (Z.eqb_neq _ _) Hd)).
  rewrite run_gets, run_assert by (by rewrite Ha).
  assert (0 ≤ I386_VM_PDE v < I386_VM_DIR_ENTRIES).
  { rewrite PDE_div. unfold I386_BIG_PAGE_SIZE, I386_VM_DIR_ENTRIES. split; [apply Z.div_pos; lia|].
    apply Z.div_lt_upper_bound; lia. }
  rewrite run_assert by (rewrite (proj2 (Z.leb_le _ _)), (proj2 (Z.ltb_lt _ _)) by lia; done).
  rewrite run_gets. unfold lookup_page. unfold pte_addr. fold (pde_addr (p_cr3 (proctab k n)) v).
  set (pde_v := phys k _). destruct (has pde_v I386_VM_PRESENT); [|done].
  cbv beta iota delta [negb]. destruct (has pde_v I386_VM_BIGPAGE); [done|].
  rewrite run_assert by (rewrite PFA_div; unfold I386_PAGE_SIZE; by rewrite Z.mod_mul).
  pose proof (Z.mod_pos_bound (v / I386_PAGE_SIZE) 1024 ltac:(lia)). rewrite <-PTE_div in *.
  rewrite run_assert
    by (unfold I386_VM_PT_ENTRIES; rewrite (proj2 (Z.leb_le _ _)), (proj2 (Z.ltb_lt _ _)) by lia; done).
  rewrite run_gets. by destruct (has _ I386_VM_PRESENT).
Qed.

Lemma lookup_page_range k n v p e : lookup_page k n v = Some (p, e) → 0 ≤ p < 2 ^ 32.
Proof.
  unfold lookup_page. repeat (case_match; try done); intros [= <- <-].
  - rewrite mask_4MB_div, offset_4MB_mod.
    pose proof (Z.mod_pos_bound v I386_BIG_PAGE_SIZE ltac:(done)).
    pose proof (u32_range (phys k (pde_addr (p_cr3 (proctab k n)) v))) as Hw.
    unfold u32 in Hw. set (x := _ mod 2 ^ 32) in *. clearbody x. unfold I386_BIG_PAGE_SIZE in *. div_lia.
  - rewrite PFA_div. set (w := phys k (pte_addr _ _ _)). clearbody w.
    pose proof (Z.mod_pos_bound v I386_PAGE_SIZE ltac:(done)).
    pose proof (u32_range w) as Hw.
    unfold u32 in Hw. set (x := _ mod 2 ^ 32) in *. clearbody x. unfold I386_PAGE_SIZE in *. div_lia.
Qed.

(** All bytes of a page are mapped alike. *)
Lemma lookup_page_same k n v i p e :
  0 ≤ i < I386_PAGE_SIZE - v mod I386_PAGE_SIZE →
  lookup_page k n v = Some (p, e) → lookup_page k n (v + i) = Some (p + i, e).
Proof.
  unfold I386_PAGE_SIZE. intros Hi.
  pose proof (Z.mod_pos_bound v 4096 ltac:(lia)) as Hm.
  assert (Hd : (v + i) / 4096 = v / 4096) by div_lia.
  assert (Hb : (v + i) / I386_BIG_PAGE_SIZE = v / I386_BIG_PAGE_SIZE).
  { change I386_BIG_PAGE_SIZE with (4096 * 1024). by rewrite <-!Z.div_div, Hd by lia. }
  assert (Hr : (v + i) mod I386_BIG_PAGE_SIZE = v mod I386_BIG_PAGE_SIZE + i).
  { rewrite !Z.mod_eq, Hb by done. lia. }
  assert (Hr' : (v + i) mod I386_PAGE_SIZE = v mod I386_PAGE_SIZE + i).
  { unfold I386_PAGE_SIZE. div_lia. }
  unfold lookup_page, pte_addr, pde_addr. rewrite !PDE_div, !PTE_div, Hb.
  change I386_PAGE_SIZE with 4096 in *. rewrite Hd, Hr'.
  rewrite !offset_4MB_mod, Hr.
  repeat (case_match; try done); intros [= <- <-]; do 2 f_equal; lia.
Qed.

Definition contiguous (k : kstate) (n va p len : Z) : Prop :=
  ∀ i, 0 ≤ i < len → maps k n (u32 (va + i)) (u32 (p + i)).

Lemma u32_add a b : u32 (u32 a + b) = u32 (a + b).
Proof. unfold u32. apply Zplus_mod_idemp_l. Qed.
Lemma u32_page x : u32 x mod I386_PAGE_SIZE = x mod I386_PAGE_SIZE.
Proof. unfold u32, I386_PAGE_SIZE. change (2 ^ 32) with (4096 * 1048576). rewrite Z.rem_mul_r by lia.
  rewrite Z.mul_comm, Z.mod_add, Z.mod_mod by lia. done.
Qed.

(** A page that is mapped where it should be extends a contiguous range. *)
Lemma contiguous_page k n va p len e :
  contiguous k n va p len → 0 ≤ len → (va + len) mod I386_PAGE_SIZE = 0 →
  lookup_page k n (u32 (va + len)) = Some (u32 (p + len), e) →
  contiguous k n va p (len + I386_PAGE_SIZE).
Proof.
  intros Hc Hl Ha Hp i Hi. destruct (decide (i < len)); [apply Hc; lia|].
  exists e. assert (Hn : 0 ≤ i - len < 4096) by (unfold I386_PAGE_SIZE in *; lia).
  assert (Hm : u32 (va + len) mod I386_PAGE_SIZE = 0) by (by rewrite u32_page).
  assert (∀ x, x mod 4096 = 0 → u32 (x + (i - len)) = u32 x + (i - len)) as Hnw.
  { intros x Hx. unfold u32. div_lia. }
  pose proof (lookup_page_same k n _ (i - len) _ _ ltac:(rewrite Hm; unfold I386_PAGE_SIZE; lia) Hp) as Hs.
  replace (va + i) with (va + len + (i - len)) by lia. replace (p + i) with (p + len + (i - len)) by lia.
  rewrite Hnw by done. pose proof (lookup_page_range _ _ _ _ _ Hs) as Hr.
  replace (u32 (p + len + (i - len))) with (u32 (p + len) + (i - len)); [done|].
  rewrite <-(u32_add (p + len)). symmetry. by apply u32_id.
Qed.

Lemma lookup_range_loop_spec k n fuel bytes va p len :
  has_pt k n → 0 < len ≤ 2 ^ 32 - 1 → bytes ≤ 2 ^ 32 - I386_PAGE_SIZE →
  (va + len) mod I386_PAGE_SIZE = 0 → contiguous k n va p len →
  bytes - len < I386_PAGE_SIZE * (Z.of_nat fuel - 1) → (0 < fuel)%nat →
  ∃ l, lookup_range_loop fuel n bytes (u32 (va + len)) (u32 (p + len)) len k = Ret (l, k) ∧
    len ≤ l ∧ contiguous k n va p l ∧ (l < bytes → ¬ maps k n (u32 (va + l)) (u32 (p + l))).
Proof.
  intros Hpt. revert len. induction fuel as [|fuel IH]; intros len Hlen Hb Ha Hc Hf H0; [lia|].
  simpl. destruct (Z.ltb_spec len bytes); simpl; [|exists len; split; [done|]; split; [lia|]; split; [done|lia]].
  rewrite (run_bind _ _ _ _ _ (vm_lookup_run k n _ Hpt (u32_range _))).
  destruct (lookup_page _ _ _) as [[q e]|] eqn:Hq.
  - destruct (Z.eqb_spec (u32 (p + len)) q) as [<-|Hne]; simpl.
    + rewrite !u32_add, <-!Z.add_assoc. unfold I386_PAGE_SIZE in *.
      rewrite (u32_id (len + 4096)) by lia.
      destruct (IH (len + 4096)) as (l & Hr & Hll & Hcl & Hs); [lia|lia| | |lia|lia|].
      * rewrite Z.add_assoc. rewrite <-(Z.mul_1_l 4096) at 1. by rewrite Z.mod_add.
      * apply (contiguous_page k n va p len e); [done|lia|done|done].
      * exists l. split; [exact Hr|]. split; [lia|done].
    + exists len. split; [done|]. split; [lia|]. split; [done|]. intros _ [e' He']. congruence.
  - exists len. split; [done|]. split; [lia|]. split; [done|]. intros _ [e' He']. congruence.
Qed.

Lemma vm_lookup_range_spec k n va bytes :
  has_pt k n → 0 ≤ va < 2 ^ 32 → 0 < bytes ≤ 2 ^ 32 - I386_PAGE_SIZE →
  ∃ len p, vm_lookup_range n va bytes k = Ret ((len, p), k) ∧ 0 ≤ len ≤ bytes ∧
    (0 < len → maps k n va p) ∧ (len = 0 → ∀ q, ¬ maps k n va q) ∧
    contiguous k n va p len ∧ (len < bytes → ¬ maps k n (u32 (va + len)) (u32 (p + len))).
Proof.
  intros Hpt Hva Hb. unfold vm_lookup_range.
  rewrite run_assert by (apply Z.ltb_lt; lia).
  rewrite run_assert by (unfold HASPT; by rewrite (proj2 (Z.eqb_neq _ _) (pt_dir _ _ Hpt))).
  rewrite (run_bind _ _ _ _ _ (vm_lookup_run k n va Hpt Hva)). destruct (lookup_page k n va) as [[p e]|] eqn:Hp.
  - pose proof (Z.mod_pos_bound va 4096 ltac:(lia)) as Hm. unfold I386_PAGE_SIZE in *.
    set (len := 4096 - va mod 4096). pose proof (lookup_page_range _ _ _ _ _ Hp) as Hpr.
    destruct (lookup_range_loop_spec k n (Z.to_nat (bytes / 4096) + 2) bytes va p len)
      as (l & Hr & Hl & Hc & Hs); [done|unfold I386_PAGE_SIZE; lia|unfold I386_PAGE_SIZE; lia| | | |lia|].
    + unfold I386_PAGE_SIZE, len. div_lia.
    + intros i Hi. pose proof (lookup_page_same k n va i p e Hi Hp) as Hs.
      pose proof (lookup_page_range _ _ _ _ _ Hs). exists e. rewrite (u32_id (p + i)) by lia.
      rewrite u32_id; [done|]. unfold len in *. clear -Hva Hi. div_lia.
    + unfold I386_PAGE_SIZE. clear -Hb Hm. div_lia.
    + rewrite (run_bind _ _ _ _ _ Hr). eexists _, _. split; [done|]. repeat split; [lia|lia|by eexists|lia| |].
      * intros i Hi. apply Hc. lia.
      * intros Hlt. rewrite Z.min_r by lia. apply Hs. lia.
  - eexists _, _. split; [done|]. split; [lia|]. split; [lia|]. split; [by intros _ q [e He]; congruence|].
    split; [intros i; lia|].
    intros _ [e He]. rewrite u32_id in He by lia. rewrite Z.add_0_r in He. congruence.
Qed.

(** ** Copying through windows *)

(** At linear address [ptr] the loaded directory shows [c] bytes of address [lin] of an
    address space. *)
Definition window (freepdes : list Z) (k : kstate) (pr : option Z) (lin ptr c : Z) : Prop :=
  if directly_visible k pr then ptr = lin
  else ∃ pde, pde ∈ freepdes ∧ ptr = I386_BIG_PAGE_SIZE * pde + lin mod I386_BIG_PAGE_SIZE ∧
    c ≤ I386_BIG_PAGE_SIZE - lin mod I386_BIG_PAGE_SIZE ∧
    phys k (p_cr3 (proctab k (ptproc k)) + 4 * pde) = window_pde k pr lin.

(** What copying leaves alone. *)
Definition same_procs (k k' : kstate) : Prop :=
  proctab k' = proctab k ∧ ptproc k' = ptproc k ∧ cpu_cr k' = cpu_cr k.

(** The loaded page directory can hold windows and belongs to nobody else in the copy. *)
Record window_ok (k : kstate) (pr : option Z) : Prop := {
  wo_loaded : has_pt k (ptproc k);
  wo_has : ∀ n, pr = Some n → has_pt k n;
  wo_mapped : dir_mapped k (ptproc k) = true ∧ ∀ n, pr = Some n → dir_mapped k n = true;
  wo_apart : ∀ n, pr = Some n → n ≠ ptproc k → p_cr3 (proctab k n) ≠ p_cr3 (proctab k (ptproc k));
}.

(** What [lin_lin_copy] expects of [phys_copy], for a copy of [bytes] bytes of which the
    first [i] have been copied when [copied i] holds: a chunk that is visible on both sides is
    copied, or the fault address lies in it; writing a window undoes nothing. *)
Class CopyEngine (freepdes : list Z) (phys_copy : Z → Z → Z → K Z) (src dst : option Z)
    (srclin dstlin bytes : Z) (copied : Z → kstate → Prop) : Prop := {
  ce_chunk k i c sp dp :
    0 ≤ i → 0 < c → i + c ≤ bytes → copied i k →
    window freepdes k src (u32 (srclin + i)) sp c → window freepdes k dst (u32 (dstlin + i)) dp c →
    wp (phys_copy sp dp c) (λ a k', same_procs k k' ∧
      ((a = 0 ∧ copied (i + c) k') ∨
       (a ≠ 0 ∧ (sp ≤ a < u32 (sp + c) ∨ dp ≤ a < u32 (dp + c))))) k;
  ce_window k i pde v :
    pde ∈ freepdes → copied i k → copied i (set_phys (p_cr3 (proctab k (ptproc k)) + 4 * pde) v k);
}.

Lemma same_procs_refl k : same_procs k k.
Proof. done. Qed.
Lemma same_procs_trans k1 k2 k3 : same_procs k1 k2 → same_procs k2 k3 → same_procs k1 k3.
Proof. intros (?&?&?) (?&?&?). repeat split; congruence. Qed.
Lemma same_procs_window_ok k k' pr : same_procs k k' → window_ok k pr → window_ok k' pr.
Proof.
  intros (Hp & Ht & _) [[Hl1 Hl2 Hl3] Hh Hm Ha].
  constructor; unfold isemptyp, dir_mapped in *; rewrite ?Hp, ?Ht; try done.
  - constructor; unfold isemptyp; by rewrite Hp.
  - intros n Hn. destruct (Hh n Hn) as [H1 H2 H3]. constructor; unfold isemptyp in *; by rewrite Hp.
Qed.
Lemma same_procs_visible k k' pr : same_procs k k' → directly_visible k' pr = directly_visible k pr.
Proof. intros (_ & Ht & _). unfold directly_visible. by rewrite Ht. Qed.
Lemma same_procs_set_phys k a v : same_procs k (set_phys a v k).
Proof. done. Qed.

Section windows.
Context (freepdes : list Z).

(** A window survives the opening of the other one. *)
Lemma window_other k pr lin ptr c c' pde v :
  window_ok k pr → window freepdes k pr lin ptr c → c' ≤ c →
  0 ≤ lin < 2 ^ 32 → 0 ≤ pde < 1024 →
  (∀ q, directly_visible k pr = false → ptr = I386_BIG_PAGE_SIZE * q + lin mod I386_BIG_PAGE_SIZE → q ≠ pde) →
  window freepdes (set_phys (p_cr3 (proctab k (ptproc k)) + 4 * pde) v k) pr lin ptr c'.
Proof using.
  intros [[_ _ Hal] Hh _ Ha] Hwin Hc Hlin Hpde Hne. unfold window in *.
  change (directly_visible (set_phys _ _ _) pr) with (directly_visible k pr).
  destruct (directly_visible k pr) eqn:Hv; [done|].
  destruct Hwin as (q & Hq & Hptr & Hcq & Heq). exists q. split; [done|]. split; [done|]. split; [lia|].
  specialize (Hne q eq_refl Hptr). simpl. rewrite upd_ne by lia. rewrite Heq.
  unfold window_pde. destruct pr as [n|]; [|done]. simpl. rewrite upd_ne; [done|].
  destruct (Hh n eq_refl) as [_ _ Hn].
  assert (n ≠ ptproc k) as Hnp.
  { simpl in Hv. apply orb_false_iff in Hv as [Hv _]. by apply Z.eqb_neq. }
  specialize (Ha n eq_refl Hnp). unfold pde_addr. rewrite PDE_div. unfold I386_PAGE_SIZE, I386_BIG_PAGE_SIZE in *.
  assert (0 ≤ lin / 4194304 < 1024) by div_lia. div_lia.
Qed.

(** [createpde] opens a window on the first bytes of the range. *)
Lemma createpde_spec pr lin b idx ch Q k pde :
  window_ok k pr → freepdes !! idx = Some pde → 0 ≤ pde < 1024 → 0 ≤ lin < 2 ^ 32 → 0 < b →
  (∀ ptr c ch' k',
     (k' = k ∨ ∃ v, k' = set_phys (p_cr3 (proctab k (ptproc k)) + 4 * pde) v k) →
     window freepdes k' pr lin ptr c → 0 < c ≤ b →
     (directly_visible k pr = false → ptr = I386_BIG_PAGE_SIZE * pde + lin mod I386_BIG_PAGE_SIZE) →
     (c = b ∨ c = I386_BIG_PAGE_SIZE - lin mod I386_BIG_PAGE_SIZE) →
     Q (ptr, c, ch') k') →
  wp (createpde freepdes pr lin b idx ch) Q k.
Proof using.
  intros Hok Hidx Hpde Hlin Hb HQ. pose proof Hok as [[_ Hl2 Hl3] Hh [Hm1 Hm2] Ha]. unfold createpde.
  assert (Hlt : (idx < length freepdes)%nat) by (by eapply lookup_lt_Some).
  apply wp_bind, wp_assert; [by apply bool_decide_eq_true|]. rewrite Hidx. cbv beta iota delta [default from_option id].
  apply wp_bind, wp_assert; [rewrite (proj2 (Z.leb_le _ _)), (proj2 (Z.ltb_lt _ _)) by lia; done|].
  wp_steps. destruct (directly_visible k pr) eqn:Hv.
  { wp_steps. apply (HQ lin b ch k); [by left| |lia|done|by left]. unfold window. by rewrite Hv. }
  apply wp_bind, wp_assert.
  { destruct pr as [n|]; [|done]. by apply Hm2. }
  wp_steps. apply wp_assert; [done|].
  wp_steps. unfold phys_get32. wp_steps. rewrite offset_4MB_mod.
  pose proof (Z.mod_pos_bound lin I386_BIG_PAGE_SIZE ltac:(done)) as Hm.
  assert (Hin : pde ∈ freepdes) by (by eapply list_elem_of_lookup_2).
  destruct (Z.eqb_spec (phys k (p_cr3 (proctab k (ptproc k)) + 4 * pde)) (window_pde k pr lin)) as [He|He].
  - wp_steps. apply HQ; [by left| |lia|done|lia]. unfold window. rewrite Hv. exists pde.
    split; [done|]. split; [done|]. split; [lia|done].
  - unfold phys_set32. wp_steps. apply HQ; [by right; eexists| |lia|done|lia].
    unfold window. change (directly_visible (set_phys _ _ _) pr) with (directly_visible k pr). rewrite Hv.
    exists pde. split; [done|]. split; [done|]. split; [lia|]. simpl. rewrite upd_eq.
    unfold window_pde. destruct pr as [n|]; [|done]. simpl. rewrite upd_ne; [done|].
    destruct (Hh n eq_refl) as [_ _ Hn].
    assert (n ≠ ptproc k) as Hnp.
    { simpl in Hv. apply orb_false_iff in Hv as [Hv _]. by apply Z.eqb_neq. }
    specialize (Ha n eq_refl Hnp). unfold pde_addr. rewrite PDE_div.
    clear -Hn Hl3 Ha Hpde Hlin. unfold I386_PAGE_SIZE, I386_BIG_PAGE_SIZE in *.
    assert (0 ≤ lin / 4194304 < 1024) by div_lia. div_lia.
Qed.

(** How many window boundaries a range crosses. *)
Definition crossings (a b : Z) : Z := (a mod I386_BIG_PAGE_SIZE + b - 1) / I386_BIG_PAGE_SIZE.

Lemma crossings_nonneg a b : 0 < b → 0 ≤ crossings a b.
Proof using. intros. unfold crossings, I386_BIG_PAGE_SIZE. apply Z.div_pos; div_lia. Qed.
Lemma crossings_le a b c : 0 < c < b → crossings (a + c) (b - c) ≤ crossings a b.
Proof using.
  intros Hc. unfold crossings, I386_BIG_PAGE_SIZE. apply Z.div_le_mono; [done|]. div_lia.
Qed.
Lemma crossings_lt a b c :
  0 < c < b → c = I386_BIG_PAGE_SIZE - a mod I386_BIG_PAGE_SIZE → crossings (a + c) (b - c) < crossings a b.
Proof using.
  intros Hc Heq. unfold crossings.
  assert (Hz : (a + c) mod I386_BIG_PAGE_SIZE = 0) by (unfold I386_BIG_PAGE_SIZE in *; div_lia).
  rewrite Hz. unfold I386_BIG_PAGE_SIZE in *. clear Hz. div_lia.
Qed.
Lemma u32_window a : u32 a mod I386_BIG_PAGE_SIZE = a mod I386_BIG_PAGE_SIZE.
Proof using.
  unfold u32, I386_BIG_PAGE_SIZE. change (2 ^ 32) with (4194304 * 1024). rewrite Z.rem_mul_r by lia.
  by rewrite Z.mul_comm, Z.mod_add, Z.mod_mod by lia.
Qed.

Context (src dst : option Z).

(** What [lin_lin_copy] asserts. *)
Record copy_ready (k : kstate) : Prop := {
  cr_loaded : cr3 (cpu_cr k) = p_cr3 (proctab k (ptproc k));
  cr_slot : 0 ≤ p_nr (proctab k (ptproc k)) < I386_VM_DIR_ENTRIES;
  cr_usable : ∀ pr, pr ∈ [src; dst; Some (ptproc k)] → usable k pr = true;
  cr_free : ∀ pr, pr ∈ [src; dst] → not_inhibited k pr = true;
  cr_src : window_ok k src;
  cr_dst : window_ok k dst;
}.

Lemma lin_lin_asserts_spec k (Q : unit → kstate → Prop) :
  copy_ready k → Q () k → wp (lin_lin_asserts src dst) Q k.
Proof using.
  intros [_ _ Hu _ [_ _ [Hm _] _] _] HQ. unfold lin_lin_asserts.
  do 3 (apply wp_bind, wp_assert; [apply Hu; set_solver|]).
  by apply wp_assert.
Qed.
Lemma copy_ready_same k k' : same_procs k k' → copy_ready k → copy_ready k'.
Proof using.
  intros Hs [Hl Hn Hu Hf Hos Hod]. pose proof Hs as (Hp & Ht & Hcr).
  constructor; rewrite ?Hp, ?Ht, ?Hcr; try done.
  - intros pr Hpr. rewrite <-(Hu pr Hpr). unfold usable, RTS_ISSET. by rewrite Hp.
  - intros pr Hpr. rewrite <-(Hf pr Hpr). unfold not_inhibited, RTS_ISSET. by rewrite Hp.
  - by eapply same_procs_window_ok.
  - by eapply same_procs_window_ok.
Qed.

Context (w0 w1 : Z) (Hfree : freepdes = [w0; w1]) (Hw0 : 0 ≤ w0 < 1024) (Hw1 : 0 ≤ w1 < 1024) (Hw : w0 ≠ w1).
Context (phys_copy : Z → Z → Z → K Z) (srclin dstlin bytes : Z).
Context (copied : Z → kstate → Prop) `{HE : !CopyEngine freepdes phys_copy src dst srclin dstlin bytes copied}.

(** The result of a copy: everything was copied, or one side faulted. *)
Definition copy_result (k : kstate) (r : Z) (k' : kstate) : Prop :=
  same_procs k k' ∧ ((r = OK ∧ copied bytes k') ∨ r = EFAULT_SRC ∨ r = EFAULT_DST).

Definition rounds_left (i : Z) : Z :=
  if decide (i = bytes) then 0 else 1 + crossings (srclin + i) (bytes - i) + crossings (dstlin + i) (bytes - i).

(** Both windows are open before a chunk is copied. *)
Lemma open_windows k i Q :
  window_ok k src → window_ok k dst → copied i k → 0 ≤ i < bytes →
  (∀ sp dp c k', same_procs k k' → copied i k' → 0 < c ≤ bytes - i →
     window freepdes k' src (u32 (srclin + i)) sp c → window freepdes k' dst (u32 (dstlin + i)) dp c →
     rounds_left (i + c) < rounds_left i →
     wp (a ← phys_copy sp dp c;
         if negb (a =? 0) then
           if (sp <=? a) && (a <? u32 (sp + c)) then mret EFAULT_SRC
           else if (dp <=? a) && (a <? u32 (dp + c)) then mret EFAULT_DST
           else panic "lin_lin_copy fault out of range"
         else Q c) (copy_result k) k') →
  wp (s ← createpde freepdes src (u32 (srclin + i)) (bytes - i) 0 false;
      d ← createpde freepdes dst (u32 (dstlin + i)) s.1.2 1 s.2;
      let srcptr := s.1.1 in
      let dstptr := d.1.1 in
      let chunk := d.1.2 in
      addr ← phys_copy srcptr dstptr chunk;
      if negb (addr =? 0) then
        if (srcptr <=? addr) && (addr <? u32 (srcptr + chunk)) then mret EFAULT_SRC
        else if (dstptr <=? addr) && (addr <? u32 (dstptr + chunk)) then mret EFAULT_DST
        else panic "lin_lin_copy fault out of range"
      else Q chunk) (copy_result k) k.
Proof using HE Hfree Hw Hw0 Hw1.
  intros Hos Hod Hc Hi HQ. apply wp_bind.
  apply createpde_spec with (pde := w0); [done|by rewrite Hfree|done|apply u32_range|lia|].
  intros sp c1 ch1 k1 Hk1 Hwin1 Hc1 Hptr1 Hmax1.
  assert (Hs1 : same_procs k k1 ∧ copied i k1).
  { destruct Hk1 as [-> | [v ->]]; [done|]. split; [done|]. apply ce_window; [set_solver|done]. }
  destruct Hs1 as [Hs1 Hc1k]. apply wp_bind. cbn [fst snd].
  apply createpde_spec with (pde := w1);
    [by eapply same_procs_window_ok|by rewrite Hfree|done|apply u32_range|lia|].
  intros dp c2 ch2 k2 Hk2 Hwin2 Hc2 Hptr2 Hmax2. cbn [fst snd]. apply HQ.
  - eapply same_procs_trans; [done|]. by destruct Hk2 as [-> | [v ->]].
  - destruct Hk2 as [-> | [v ->]]; [done|]. apply ce_window; [set_solver|done].
  - lia.
  - destruct Hk2 as [-> | [v ->]].
    + unfold window in Hwin1 |- *. destruct (directly_visible k1 src); [done|].
      destruct Hwin1 as (q & ? & ? & ? & ?). exists q. split; [done|]. split; [done|]. split; [lia|done].
    + apply window_other with (c := c1); [by eapply same_procs_window_ok|done|lia|apply u32_range|done|].
      intros q Hv Heq ->. rewrite (same_procs_visible _ _ _ Hs1) in Hv. specialize (Hptr1 Hv).
      unfold I386_BIG_PAGE_SIZE in *. lia.
  - done.
  - rewrite u32_window in Hmax1, Hmax2. unfold rounds_left. rewrite !Z.add_assoc, Z.sub_add_distr.
    rewrite (decide_False (P := i = bytes)) by lia.
    pose proof (crossings_nonneg (srclin + i) (bytes - i)).
    pose proof (crossings_nonneg (dstlin + i) (bytes - i)).
    case_decide; [lia|].
    pose proof (crossings_le (srclin + i) (bytes - i) c2). pose proof (crossings_le (dstlin + i) (bytes - i) c2).
    pose proof (crossings_lt (srclin + i) (bytes - i) c2). pose proof (crossings_lt (dstlin + i) (bytes - i) c2).
    lia.
Qed.

Lemma lin_lin_loop_spec fuel i k :
  window_ok k src → window_ok k dst → copied i k → 0 ≤ i ≤ bytes → rounds_left i < Z.of_nat fuel →
  wp (lin_lin_loop freepdes phys_copy fuel src (u32 (srclin + i)) dst (u32 (dstlin + i)) (bytes - i))
    (copy_result k) k.
Proof using HE Hfree Hw Hw0 Hw1.
  revert i k. induction fuel as [|fuel IH]; intros i k Hos Hod Hc Hi Hf.
  { unfold rounds_left in Hf. case_decide; [lia|].
    pose proof (crossings_nonneg (srclin + i) (bytes - i)).
    pose proof (crossings_nonneg (dstlin + i) (bytes - i)). lia. }
  cbn [lin_lin_loop]. destruct (Z.ltb_spec 0 (bytes - i)); cbv beta iota delta [negb].
  2: { wp_steps. assert (i = bytes) as -> by lia. split; [done|]. by left. }
  apply (open_windows k i (λ chunk, lin_lin_loop freepdes phys_copy fuel src (u32 (u32 (srclin + i) + chunk)) dst
    (u32 (u32 (dstlin + i) + chunk)) (bytes - i - chunk))); [done|done|done|lia|].
  intros sp dp c k' Hs Hc' Hcb Hw1' Hw2' Hr. apply wp_bind.
  eapply wp_mono; [apply (ce_chunk k' i c sp dp); [lia|lia|lia|done|done|done]|].
  intros a k'' (Hs' & [[-> Hcc] | [Ha Hin]]).
  - cbn [Z.eqb negb]. rewrite !u32_add, <-!Z.add_assoc, <-Z.sub_add_distr.
    pose proof (same_procs_trans _ _ _ Hs Hs') as Hss.
    eapply wp_mono; [apply IH; [by eapply same_procs_window_ok|by eapply same_procs_window_ok|done|lia|lia]|].
    intros r k3 [Hs3 Hres]. split; [by eapply same_procs_trans|done].
  - rewrite (proj2 (Z.eqb_neq _ _) Ha). cbv beta iota delta [negb].
    pose proof (same_procs_trans _ _ _ Hs Hs') as Hss.
    repeat case_bool; try (wp_steps; split; auto).
    apply andb_false_iff in Heqb, Heqb0. rewrite !Z.leb_gt, !Z.ltb_ge in *. lia.
Qed.

Lemma rounds_left_0 : 0 < bytes < 2 ^ 32 → rounds_left 0 < Z.of_nat WINDOW_FUEL.
Proof using.
  clear Hw0 Hw1. intros Hb. unfold rounds_left, crossings. change (Z.of_nat WINDOW_FUEL) with 2050.
  case_decide; [lia|]. unfold I386_BIG_PAGE_SIZE. rewrite !Z.add_0_r, Z.sub_0_r.
  assert (∀ a, (a mod 4194304 + bytes - 1) / 4194304 ≤ 1024) as Hx by (intros a; div_lia).
  pose proof (Hx srclin). pose proof (Hx dstlin). lia.
Qed.

Lemma lin_lin_copy_spec k :
  copy_ready k → copied 0 k → 0 < bytes < 2 ^ 32 → 0 ≤ srclin < 2 ^ 32 → 0 ≤ dstlin < 2 ^ 32 →
  wp (lin_lin_copy freepdes phys_copy src srclin dst dstlin bytes) (copy_result k) k.
Proof using HE Hfree Hw Hw0 Hw1.
  intros Hr Hc Hb Hsl Hdl. pose proof Hr as [Hl Hn Hu Hf Hos Hod]. unfold lin_lin_copy.
  apply wp_bind, wp_assert; [by apply Z.eqb_eq|].
  apply wp_bind, wp_assert; [rewrite (proj2 (Z.leb_le _ _)), (proj2 (Z.ltb_lt _ _)) by lia; done|].
  apply wp_bind, lin_lin_asserts_spec; [done|].
  do 2 (apply wp_bind, wp_assert; [apply Hf; set_solver|]).
  apply wp_bind. pose proof (lin_lin_loop_spec WINDOW_FUEL 0 k Hos Hod Hc ltac:(lia) (rounds_left_0 Hb)) as Hloop.
  rewrite !Z.add_0_r, Z.sub_0_r, !u32_id in Hloop by lia. eapply wp_mono; [exact Hloop|].
  intros r k' [Hs Hres]. apply wp_bind. destruct (Z.eqb_spec r OK).
  - apply lin_lin_asserts_spec; [by eapply copy_ready_same|]. by wp_steps.
  - by wp_steps.
Qed.
End windows.

(** ** Properties *)

(** [umap_virtual] is exact: for a range of at least one byte whose first byte is not
    mapped to physical address 0, it returns without touching the state; a non-zero address is
    returned iff the whole range is mapped, byte by byte, to consecutive physical addresses
    that start there, and the result is 0 iff no such address exists.  The walk over the page
    tables ends for every range of up to 2^32 - 4096 bytes. *)
Theorem umap_virtual_exact k n va bytes :
  has_pt k n → 0 ≤ va < 2 ^ 32 → 0 < bytes ≤ 2 ^ 32 - I386_PAGE_SIZE → ¬ maps k n va 0 →
  ∃ r, umap_virtual n va bytes k = Ret (r, k) ∧ 0 ≤ r < 2 ^ 32 ∧
    ∀ p, 0 < p < 2 ^ 32 → r = p ↔ contiguous k n va p bytes.
Proof.
  intros Hpt Hva Hb H0. unfold umap_virtual.
  rewrite (run_bind _ _ _ _ _ (vm_lookup_run k n va Hpt Hva)).
  assert (Hfst : ∀ p, 0 < p < 2 ^ 32 → contiguous k n va p bytes → maps k n va p).
  { intros p Hp Hc. specialize (Hc 0 ltac:(lia)). by rewrite !Z.add_0_r, (u32_id va), (u32_id p) in Hc by lia. }
  destruct (lookup_page k n va) as [[q e]|] eqn:Hq.
  2: { exists 0. split; [done|]. split; [lia|]. intros p Hp. split; [lia|].
       intros [e He]%Hfst; [congruence|done]. }
  destruct (Z.eqb_spec q 0) as [->|Hne]; [by destruct H0; eexists|].
  rewrite (proj2 (Z.ltb_lt 0 bytes)) by lia. pose proof (lookup_page_range _ _ _ _ _ Hq).
  destruct (vm_lookup_range_spec k n va bytes Hpt Hva Hb) as (len & p' & Hrun & Hl & Hm & Hz & Hc & Hs).
  rewrite (run_bind _ _ _ _ _ Hrun). cbn [fst].
  destruct (Z.eqb_spec len bytes) as [->|Hlb]; cbv beta iota delta [negb].
  - exists q. split; [done|]. split; [lia|]. destruct (Hm ltac:(lia)) as [e' He']. intros p Hp. split.
    + intros <-. assert (p' = q) as -> by congruence. done.
    + intros [e'' He'']%Hfst; [congruence|done].
  - exists 0. split; [done|]. split; [lia|]. intros p Hp. split; [lia|]. intros Hcp. exfalso.
    apply Hs; [lia|]. destruct (decide (0 < len)) as [Hl0|Hl0].
    + destruct (Hm Hl0) as [e' He']. destruct (Hfst p Hp Hcp) as [e'' He'']. assert (p = p') as -> by congruence.
      apply Hcp. lia.
    + destruct (Hz ltac:(lia) q). by eexists.
Qed.

(** Process 20 has a directory at 0x1000 and a table at 0x2000 that maps pages 0 and 1 of its
    address space to the frames at 0x5000 and 0x6000. *)
Definition umap_demo : kstate :=
  upd_proc 20 (λ p, p <| p_rts_flags := 0 |> <| p_cr3 := 0x1000 |> <| p_cr3_v := 0xF0001000 |>)
    (set_phys 0x1000 0x2007 (set_phys 0x2000 0x5007 (set_phys 0x2004 0x6007 k0))).

Lemma umap_virtual_exact_witness :
  ∃ r, umap_virtual 20 0xFF0 0x20 umap_demo = Ret (r, umap_demo) ∧ r = 0x5FF0.
Proof.
  destruct (umap_virtual_exact umap_demo 20 0xFF0 0x20) as (r & Hr & _ & _).
  - by constructor.
  - lia.
  - unfold I386_PAGE_SIZE. lia.
  - intros [e He]. vm_compute in He. discriminate.
  - exists r. split; [exact Hr|]. vm_compute in Hr. by injection Hr as ->.
Defined.


(** A copy of four bytes of process 20 at 0xFF0, which is loaded, to physical memory at 0x9000. *)
Definition copy_cells (s d c : Z) (m : Z → Z) : Z → Z :=
  λ a, if (d <=? a) && (a <? d + c) then m (s + (a - d)) else m a.
Definition cell_copy (sp dp c : Z) : K Z :=
  modify (λ k, match lookup_page k 20 sp, lookup_page k 20 dp with
               | Some (s, _), Some (d, _) => k <| phys ::= copy_cells s d c |>
               | _, _ => k
               end);; mret 0.
Definition copy_demo : kstate :=
  umap_demo <| phys ::= λ m a, if (0x5FF0 <=? a) && (a <? 0x6000) then a else m a |>
    <| ptproc := 20 |> <| cpu_cr ::= λ r, r <| cr3 := 0x1000 |> |>.
Definition cells_copied (i : Z) (k : kstate) : Prop :=
  proctab k = proctab copy_demo ∧ ptproc k = 20 ∧
  phys k 0x1000 = 0x2007 ∧ phys k 0x2000 = 0x5007 ∧
  ∀ j, 0 ≤ j < 4 → phys k (0x5FF0 + j) = 0x5FF0 + j ∧ (j < i → phys k (0x9000 + j) = 0x5FF0 + j).

Lemma cells_copied_window i pde k v :
  cells_copied i k → pde ∈ [1022; 1023] →
  cells_copied i (set_phys (p_cr3 (proctab k (ptproc k)) + 4 * pde) v k).
Proof.
  intros (Hp & Ht & H1 & H2 & H3) Hj. unfold cells_copied. simpl. rewrite Hp, Ht.
  change (p_cr3 (proctab copy_demo 20)) with 0x1000.
  assert (0x1ff8 ≤ 0x1000 + 4 * pde ≤ 0x1ffc) as Hor by (set_unfold; lia).
  rewrite !upd_ne by lia. split_and!; [done..|]. intros j Hj'. rewrite !upd_ne by lia. by apply H3.
Qed.

Lemma cell_copy_pages k i sp dp c :
  0 ≤ i < 4 → cells_copied i k → window [1022; 1023] k (Some 20) (u32 (0xFF0 + i)) sp c →
  window [1022; 1023] k None (u32 (0x9000 + i)) dp c →
  lookup_page k 20 sp = Some (0x5FF0 + i, 0x5007) ∧ lookup_page k 20 dp = Some (0x9000 + i, 135).
Proof.
  intros Hi (Hp & Ht & H1 & H2 & _) Hs Hd. rewrite u32_id in Hs, Hd by lia.
  unfold window, directly_visible in Hs. rewrite Ht in Hs. simpl in Hs. subst sp.
  unfold window in Hd. cbn [directly_visible] in Hd. destruct Hd as (pde & Hpde & -> & _ & Hd).
  rewrite Ht, Hp in Hd. change (p_cr3 (proctab copy_demo 20)) with 0x1000 in Hd. split.
  - apply lookup_page_same; [unfold I386_PAGE_SIZE; change (0xFF0 mod 4096) with 0xFF0; lia|].
    unfold lookup_page, pte_addr. rewrite Hp. change (p_cr3 (proctab copy_demo 20)) with 0x1000.
    change (pde_addr 0x1000 0xFF0) with 0x1000. rewrite H1.
    change (I386_VM_PFA 0x2007 + 4 * I386_VM_PTE 0xFF0) with 0x2000. by rewrite H2.
  - rewrite Z.mod_small by (unfold I386_BIG_PAGE_SIZE; lia). rewrite Z.add_assoc.
    assert (window_pde k None (0x9000 + i) = 135) as Hw.
    { unfold window_pde. rewrite mask_4MB_div, Z.mod_small, Z.div_small by (unfold I386_BIG_PAGE_SIZE; lia). done. }
    rewrite Hw in Hd.
    unfold I386_BIG_PAGE_SIZE. apply lookup_page_same; [unfold I386_PAGE_SIZE; div_lia|].
    assert (pde_addr 0x1000 (4194304 * pde + 0x9000) = 0x1000 + 4 * pde) as Ha.
    { unfold pde_addr. rewrite PDE_div. unfold I386_BIG_PAGE_SIZE. div_lia. }
    assert ((4194304 * pde + 0x9000) mod I386_BIG_PAGE_SIZE = 0x9000) as Hm.
    { unfold I386_BIG_PAGE_SIZE. div_lia. }
    unfold lookup_page. rewrite Hp. change (p_cr3 (proctab copy_demo 20)) with 0x1000.
    by rewrite Ha, Hd, offset_4MB_mod, Hm.
Qed.

#[export] Instance cell_copy_engine : CopyEngine [1022; 1023] cell_copy (Some 20) None 0xFF0 0x9000 4 cells_copied.
Proof.
  split.
  - intros k i c sp dp Hi Hc Hb Hcop Hs Hd. unfold cell_copy. wp_steps.
    destruct (cell_copy_pages k i sp dp c ltac:(lia) Hcop Hs Hd) as [-> ->].
    split; [done|]. left. split; [done|]. destruct Hcop as (Hp & Ht & H1 & H2 & H3).
    unfold cells_copied, copy_cells. simpl. split_and!; [done|done| | |].
    1,2: by rewrite (proj2 (Z.leb_gt _ _)) by lia.
    intros j Hj. rewrite (proj2 (Z.leb_gt (0x9000 + i) (0x5FF0 + j))) by lia. simpl. split; [by apply H3|].
    intros Hji. destruct (Z.leb_spec (0x9000 + i) (0x9000 + j)); simpl; [|apply H3; lia].
    rewrite (proj2 (Z.ltb_lt _ _)) by lia.
    replace (0x5FF0 + i + (0x9000 + j - (0x9000 + i))) with (0x5FF0 + j) by lia. by apply H3.
  - intros k i pde v Hpde Hc. by apply cells_copied_window.
Qed.

