(* ===== verification/VmReq.v ===== *)
(** * Requests to VM (kernel/system/do_vmctl.c and kernel/arch/i386/arch_do_vmctl.c)

    A kernel call that needs memory VM has not yet mapped suspends its caller on the list
    [vmrequest] ([vm_suspend], VirtCopy.v).  VM takes the requests off the list with
    VMCTL_MEMREQ_GET and answers each with VMCTL_MEMREQ_REPLY, after which the call is run
    again.  [do_vmctl] is the whole handler; the mapping of device memory for the kernel at
    boot ([arch_phys_map] and [arch_phys_map_reply]) is a parameter.  A kernel call gets its
    message and returns a result and the message it replies with. *)
From S2P Require Import Prelude LinkedList Kernel Endpoint Sched IpcInv Notify HMem WorkingSet HShared Dwc VirtCopy.

Definition VMCTL_CLEAR_PAGEFAULT : Z := 12.
Definition VMCTL_GET_PDBR : Z := 13.
Definition VMCTL_MEMREQ_GET : Z := 14.
Definition VMCTL_MEMREQ_REPLY : Z := 15.
Definition VMCTL_I386_INVLPG : Z := 25.
Definition VMCTL_FLUSHTLB : Z := 26.
Definition VMCTL_KERN_PHYSMAP : Z := 27.
Definition VMCTL_KERN_MAP_REPLY : Z := 28.
Definition VMCTL_SETADDRSPACE : Z := 29.
Definition VMCTL_VMINHIBIT_SET : Z := 30.
Definition VMCTL_VMINHIBIT_CLEAR : Z := 31.
Definition VMCTL_CLEARMAPCACHE : Z := 32.
Definition VMCTL_BOOTINHIBIT_CLEAR : Z := 33.
Definition VMSTYPE_DELIVERMSG : Z := 2.
Definition VMSTYPE_MAP : Z := 3.

(** Fields of the message ([m1] and [m2] of include/minix/ipc.h). *)
Definition SVMCTL_WHO : message → Z := m_word 0.
Definition SVMCTL_PARAM : message → Z := m_word 1.
Definition SVMCTL_VALUE : message → Z := m_word 2.
Definition SVMCTL_PTROOT : message → Z := m_word 2.
Definition SVMCTL_PTROOT_V : message → Z := m_word 3.
Definition SVMCTL_MAP_VIR_ADDR : message → Z := m_word 3.
Definition SVMCTL_MRG_TARGET : message → Z := m_word 0.
Definition SVMCTL_MRG_ADDR : message → Z := m_word 1.
Definition SVMCTL_MRG_LENGTH : message → Z := m_word 2.
Definition SVMCTL_MRG_REQUESTOR : message → Z := m_word 5.
Definition SVMCTL_MRG_FLAG : message → Z := m_word 6.

(** What VMCTL_MEMREQ_GET stores in the reply. *)
Definition memreq_reply (r : vmreq) (requestor : Z) (m : message) : message :=
  set_m_word 5 requestor (set_m_word 6 (check_writeflag r) (set_m_word 2 (check_length r)
    (set_m_word 1 (check_start r) (set_m_word 0 (target r) m)))).

Definition vmctl_memreq_get (m : message) : K (Z * message) :=
  first ← gets vmrequest;
  match first with
  | None => mret (ESRCH, m)
  | Some rp =>
      assert_ (λ k, RTS_ISSET k rp RTS_VMREQUEST) "RTS_ISSET(rp, RTS_VMREQUEST)";;
      r ← gets (λ k, p_vmrequest (proctab k rp));
      okendpt (target r);;
      if req_type r =? VMPTYPE_CHECK then
        e ← gets (λ k, p_endpoint (proctab k rp));
        modify_proc rp (λ p, p <| p_vmrequest ::= λ r, r <| vmresult := VMSUSPEND |> |>);;
        modify (λ k, k <| vmrequest := nextrequestor r |>);;
        mret (req_type r, memreq_reply r e m)
      else panic "VMREQUEST wrong type"
  end.

Definition vmctl_memreq_reply (p : Z) (m : message) : K (Z * message) :=
  assert_ (λ k, RTS_ISSET k p RTS_VMREQUEST) "RTS_ISSET(p, RTS_VMREQUEST)";;
  assert_ (λ k, vmresult (p_vmrequest (proctab k p)) =? VMSUSPEND) "vmresult == VMSUSPEND";;
  te ← gets (λ k, target (p_vmrequest (proctab k p)));
  targetp ← okendpt te;
  modify_proc p (λ q, q <| p_vmrequest ::= λ r, r <| vmresult := SVMCTL_VALUE m |> |>);;
  assert_ (λ _, negb (SVMCTL_VALUE m =? VMSUSPEND)) "vmresult != VMSUSPEND";;
  type ← gets (λ k, vmtype (p_vmrequest (proctab k p)));
  (if type =? VMSTYPE_KERNELCALL then modify_proc p (λ q, q <| p_misc_flags ::= set_flag MF_KCALL_RESUME |>)
   else if type =? VMSTYPE_DELIVERMSG then
     assert_ (λ k, delivering k p) "MF_DELIVERMSG";;
     assert_ (λ _, p =? targetp) "p == target";;
     assert_ (λ k, RTS_ISSET k p RTS_VMREQUEST) "RTS_ISSET(p, RTS_VMREQUEST)"
   else if type =? VMSTYPE_MAP then assert_ (λ k, RTS_ISSET k p RTS_VMREQUEST) "RTS_ISSET(p, RTS_VMREQUEST)"
   else panic "strange request type");;
  RTS_UNSET p RTS_VMREQUEST;;
  mret (OK, m).

(** [arch_enable_paging]: what it does besides giving device registers their virtual
    addresses. *)
Definition arch_enable_paging (caller : Z) : K Z :=
  assert_ (λ k, HASPT k caller) "caller->p_seg.p_cr3";;
  switch_address_space caller;;
  mret OK.

Definition setcr3 (p cr3_new v : Z) : K unit :=
  modify_proc p (λ q, q <| p_cr3 := cr3_new |>);;
  assert_ (λ k, HASPT k p) "p->p_seg.p_cr3";;
  modify_proc p (λ q, q <| p_cr3_v := v |>);;
  loaded ← gets (λ k, p =? ptproc k);
  (if (loaded : bool) then modify (λ k, k <| cpu_cr ::= λ r, r <| cr3 := cr3_new |> |>) else mret ());;
  nr ← gets (λ k, p_nr (proctab k p));
  (if nr =? VM_PROC_NR then
     r ← arch_enable_paging p;
     if r =? OK then mret () else panic "arch_enable_paging failed"
   else mret ());;
  RTS_UNSET p RTS_VMINHIBIT.

(** Reloading cr3 and [invlpg] only change what the processor has cached. *)
Definition arch_do_vmctl (p : Z) (m : message) : K (Z * message) :=
  let param := SVMCTL_PARAM m in
  if param =? VMCTL_GET_PDBR then
    c ← gets (λ k, p_cr3 (proctab k p));
    mret (OK, set_m_word 2 c m)
  else if param =? VMCTL_SETADDRSPACE then setcr3 p (SVMCTL_PTROOT m) (SVMCTL_PTROOT_V m);; mret (OK, m)
  else if param =? VMCTL_FLUSHTLB then mret (OK, m)
  else if param =? VMCTL_I386_INVLPG then mret (OK, m)
  else mret (EINVAL, m).

Section vmctl.
Context (freepdes : list Z).
Context (arch_phys_map : Z → message → K (Z * message)) (arch_phys_map_reply : Z → Z → K Z).

(** [mem_clear_mapcache]: close the windows of the loaded page directory. *)
Definition mem_clear_mapcache : K unit :=
  forM_ freepdes (λ pde,
    assert_ (λ k, dir_mapped k (ptproc k)) "ptv";;
    root ← gets (λ k, p_cr3 (proctab k (ptproc k)));
    phys_set32 (root + 4 * pde) 0).

Definition do_vmctl (caller : Z) (m : message) : K (Z * message) :=
  self ← gets (λ k, p_endpoint (proctab k caller));
  ok ← gets (λ k, isokendpt k (if SVMCTL_WHO m =? SELF then self else SVMCTL_WHO m));
  match ok with
  | None => mret (EINVAL, m)
  | Some p =>
      let param := SVMCTL_PARAM m in
      if param =? VMCTL_CLEAR_PAGEFAULT then
        assert_ (λ k, RTS_ISSET k p RTS_PAGEFAULT) "RTS_ISSET(p,RTS_PAGEFAULT)";;
        RTS_UNSET p RTS_PAGEFAULT;;
        mret (OK, m)
      else if param =? VMCTL_MEMREQ_GET then vmctl_memreq_get m
      else if param =? VMCTL_MEMREQ_REPLY then vmctl_memreq_reply p m
      else if param =? VMCTL_KERN_PHYSMAP then arch_phys_map (SVMCTL_VALUE m) m
      else if param =? VMCTL_KERN_MAP_REPLY then
        r ← arch_phys_map_reply (SVMCTL_VALUE m) (SVMCTL_MAP_VIR_ADDR m);
        mret (r, m)
      else if param =? VMCTL_VMINHIBIT_SET then RTS_SET p RTS_VMINHIBIT;; mret (OK, m)
      else if param =? VMCTL_VMINHIBIT_CLEAR then
        assert_ (λ k, RTS_ISSET k p RTS_VMINHIBIT) "RTS_ISSET(p, RTS_VMINHIBIT)";;
        RTS_UNSET p RTS_VMINHIBIT;;
        mret (OK, m)
      else if param =? VMCTL_CLEARMAPCACHE then mem_clear_mapcache;; mret (OK, m)
      else if param =? VMCTL_BOOTINHIBIT_CLEAR then RTS_UNSET p RTS_BOOTINHIBIT;; mret (OK, m)
      else arch_do_vmctl p m
  end.
End vmctl.

(** ** The protocol *)

Definition requests (k : kstate) (n : Z) : bool := has (rts k n) RTS_VMREQUEST.
Definition next_request (k : kstate) : Z → option Z := λ n, nextrequestor (p_vmrequest (proctab k n)).

(** [L]: the requests VM has not yet asked for, newest first.  A process whose request VM is
    working on has result VMSUSPEND; nobody else has. *)
Record vmreq_inv (k : kstate) (L : list Z) : Prop := {
  vi_list : chain (next_request k) (vmrequest k) L None;
  vi_queued : ∀ n, n ∈ L → valid_slot n ∧ requests k n = true ∧
    req_type (p_vmrequest (proctab k n)) = VMPTYPE_CHECK ∧
    is_Some (isokendpt k (target (p_vmrequest (proctab k n))));
  vi_served : ∀ n, vmresult (p_vmrequest (proctab k n)) = VMSUSPEND → requests k n = true ∧ n ∉ L;
}.

Lemma isset_vmrequest k n : RTS_ISSET k n RTS_VMREQUEST = requests k n.
Proof. exact (isset_has_bit (rts k n) 11 ltac:(lia)). Qed.

(** What the list of requests depends on. *)
Record vmreq_same (k k' : kstate) : Prop := {
  vs_head : vmrequest k' = vmrequest k;
  vs_reqs : ∀ n, p_vmrequest (proctab k' n) = p_vmrequest (proctab k n);
  vs_rts : ∀ n, requests k' n = requests k n;
  vs_endpt : ∀ n, p_endpoint (proctab k' n) = p_endpoint (proctab k n);
  vs_empty : ∀ n, valid_slot n → isemptyp k n = false → isemptyp k' n = false;
}.
Lemma isokendpt_same k k' e p :
  (∀ n, p_endpoint (proctab k' n) = p_endpoint (proctab k n)) → (∀ n, valid_slot n → isemptyp k n = false → isemptyp k' n = false) →
  isokendpt k e = Some p → isokendpt k' e = Some p.
Proof.
  intros He Hm (Hv & Hn & Hp & Hep)%isokendpt_Some. apply isokendpt_Some. rewrite He. auto.
Qed.
Lemma vmreq_inv_same k k' L : vmreq_same k k' → vmreq_inv k L → vmreq_inv k' L.
Proof.
  intros [Hh Hr Ht He Hm] [Hl Hq Hs]. split.
  - rewrite Hh. eapply chain_ext; [|done]. intros x _. unfold next_request. by rewrite Hr.
  - intros n Hn. destruct (Hq n Hn) as (? & ? & ? & [t Htok]). rewrite Hr, Ht. split_and!; [done..|].
    exists t. by eapply isokendpt_same.
  - intros n. rewrite Hr, Ht. apply Hs.
Qed.
Lemma vmreq_same_trans k1 k2 k3 : vmreq_same k1 k2 → vmreq_same k2 k3 → vmreq_same k1 k3.
Proof. intros [] []. split; intros; etrans; eauto. Qed.

(** A slot in use stays in use. *)
Lemma in_use_free k Q n : ipc_base k Q → valid_slot n → isemptyp k n = false → slot_free k n = false.
Proof.
  intros HB Hv He. destruct (slot_free k n) eqn:Hf; [|done]. apply (ib_free _ _ HB) in Hf; [|done].
  unfold isemptyp in He. unfold rts in Hf. by rewrite Hf in He.
Qed.
Lemma not_free_in_use k n : slot_free k n = false → isemptyp k n = false.
Proof.
  unfold slot_free, isemptyp, rts. destruct (Z.eqb_spec (p_rts_flags (proctab k n)) RTS_SLOT_FREE) as [->|]; done.
Qed.
Lemma base_step_in_use k Q k' n :
  ipc_base k Q → base_step k k' → valid_slot n → isemptyp k n = false → isemptyp k' n = false.
Proof.
  intros HB [_ HP] Hv He. apply not_free_in_use. rewrite (ip_free _ _ HP). by eapply in_use_free.
Qed.

Lemma sched_frame_vmreq k Q k' :
  ipc_base k Q → base_step k k' → sched_frame k k' → (∀ n, requests k' n = requests k n) → vmreq_same k k'.
Proof.
  intros HB Hst Hf Hr. split; [by apply (sched_frame_state vmrequest)| |done| |].
  - intros n. by apply (sched_frame_field p_vmrequest _ _ n Hf).
  - intros n. by apply (sched_frame_field p_endpoint _ _ n Hf).
  - intros n Hv. by eapply base_step_in_use.
Qed.

Lemma send_sig_vmreq k Q ep sig_nr rp i :
  ipc_base k Q → isokendpt k ep = Some rp → p_priv (proctab k rp) = Some i → 0 ≤ sig_nr →
  0 ≤ s_id (priv_of k SYSTEM) →
  wp (send_sig ep sig_nr) (λ r k', r = OK ∧ base_step k k' ∧ vmreq_same k k' ∧ sig_told k' rp sig_nr) k.
Proof.
  intros HB Hok Hp Hs Hid. eapply wp_mono; [by eapply send_sig_spec|]. intros r k' [Hst Hpost].
  rewrite Hok, Hp in Hpost. destruct Hpost as [-> Hpost]. split_and!; [done|done| |].
  - destruct (notify_ready k SYSTEM rp) eqn:Hready.
    + destruct Hpost as [Hf Hr].
      assert (∀ {A} (f : proc → A) n, (∀ p, f (core p) = f p) →
        f (notify_deliver (sig_noted i sig_nr k) SYSTEM rp (proctab k n)) = f (proctab k n) →
        f (proctab k' n) = f (proctab k n)) as Hfield.
      { intros A f n Hc Hd. rewrite (sched_frame_field f _ _ n Hf) by done. unfold notify_now.
        change (proctab (upd_priv ?i ?f ?k)) with (proctab k). rewrite proctab_upd_proc.
        case_decide; [by subst|done]. }
      split.
      * by rewrite (sched_frame_state vmrequest _ _ Hf).
      * intros n. apply Hfield; [done|]. unfold notify_deliver, IPC_STATUS_ADD_CALL. by rewrite (IPC_STATUS_ADD_view p_vmrequest).
      * intros n. unfold requests. rewrite Hr. by apply has_rts_unset_other.
      * intros n. apply Hfield; [done|]. unfold notify_deliver, IPC_STATUS_ADD_CALL. by rewrite (IPC_STATUS_ADD_view p_endpoint).
      * intros n Hv. by eapply base_step_in_use.
    + rewrite Hpost. by split.
  - destruct (notify_ready k SYSTEM rp) eqn:Hready.
    + destruct Hpost as [Hf Hr]. by eapply notify_now_told.
    + rewrite Hpost. by apply notify_later_told.
Qed.

(** The list with a new request in front. *)
Lemma vmreq_push k k' L c te lin len type :
  vmreq_inv k L → valid_slot c → requests k c = false → requests k' c = true →
  is_Some (isokendpt k' te) →
  (∀ n, n ≠ c → requests k' n = requests k n) →
  (∀ n, n ≠ c → p_vmrequest (proctab k' n) = p_vmrequest (proctab k n)) →
  p_vmrequest (proctab k' c) =
    check_request te lin len type (p_vmrequest (proctab k c)) <| nextrequestor := vmrequest k |> →
  (∀ n, p_endpoint (proctab k' n) = p_endpoint (proctab k n)) →
  (∀ n, valid_slot n → isemptyp k n = false → isemptyp k' n = false) →
  vmrequest k' = Some c → vmreq_inv k' (c :: L).
Proof.
  intros [Hl Hq Hs] Hv Hc Hc' Hte Hr Hv' Hvc He Hm Hh.
  assert (c ∉ L) as HcL by (intros Hin; destruct (Hq c Hin) as (_ & ? & _); congruence).
  split.
  - split; [done|]. unfold next_request at 2. rewrite Hvc. simpl. eapply chain_ext; [|done].
    intros x Hx. unfold next_request. rewrite Hv'; [done|congruence].
  - intros n [->|Hn]%elem_of_cons; [by rewrite Hvc|].
    destruct (Hq n Hn) as (? & ? & ? & [t Ht]). assert (n ≠ c) by congruence. rewrite Hv', Hr by done.
    split_and!; [done..|]. exists t. by eapply isokendpt_same.
  - intros n Hn. destruct (decide (n = c)) as [->|Hne].
    + rewrite Hvc in Hn. simpl in Hn. destruct (Hs c Hn). congruence.
    + rewrite Hv' in Hn by done. rewrite Hr by done. destruct (Hs n Hn). set_solver.
Qed.

Lemma vm_suspend_spec k Q L c t lin len type vm i :
  ipc_base k Q → vmreq_inv k L → valid_slot c → isemptyp k c = false → requests k c = false →
  p_endpoint (proctab k c) ≠ VM_PROC_NR → requests k t = false → isokendpt k (p_endpoint (proctab k t)) = Some t →
  isokendpt k VM_PROC_NR = Some vm → p_priv (proctab k vm) = Some i → 0 ≤ s_id (priv_of k SYSTEM) →
  wp (vm_suspend c t lin len type) (λ _ k', base_step k k' ∧ vmreq_inv k' (c :: L) ∧
    p_vmrequest (proctab k' c) =
      check_request (p_endpoint (proctab k t)) lin len type (p_vmrequest (proctab k c)) <| nextrequestor := head L |> ∧
    (L = [] → sig_told k' vm SIGKMEM)) k.
Proof.
  intros HB HV Hv He Hc Hne Ht Htok Hvm Hi Hid. unfold vm_suspend.
  apply wp_bind, wp_assert; [by rewrite isset_vmrequest, Hc|].
  apply wp_bind, wp_assert; [by rewrite isset_vmrequest, Ht|].
  apply wp_bind. eapply wp_mono; [eapply base_RTS_SET; [done|done|by eapply in_use_free|done|done|done]|].
  intros [] k1 (Hst1 & Hf1 & Hr1). pose proof Hst1 as [[Q1 HB1] _].
  assert (Hep : ∀ n, p_endpoint (proctab k1 n) = p_endpoint (proctab k n)) by (intros n; by apply (sched_frame_field p_endpoint)).
  assert (Hvr : ∀ n, p_vmrequest (proctab k1 n) = p_vmrequest (proctab k n)) by (intros n; by apply (sched_frame_field p_vmrequest)).
  assert (Hhd : vmrequest k1 = vmrequest k) by (by apply (sched_frame_state vmrequest)).
  apply wp_bind, wp_assert; [rewrite Hep; by apply negb_true_iff, Z.eqb_neq|].
  wp_steps. unfold modify_proc. wp_steps.
  set (k2 := upd_proc c _ (upd_proc c _ k1)).
  change (vmrequest (upd_proc c _ k1)) with (vmrequest k1) in *.
  assert (Hup : base_step k1 k2 ∧ ipc_base k2 Q1).
  { destruct (base_step_upd_proc k1 Q1 c (λ p, p <| p_vmrequest ::= check_request (p_endpoint (proctab k1 t)) lin len type |>))
      as [Ha HBa]; [done..|].
    destruct (base_step_upd_proc _ Q1 c (λ p, p <| p_vmrequest ::= λ r, r <| nextrequestor := vmrequest k1 |> |>) ltac:(done) ltac:(done) ltac:(done) HBa)
      as [Hb HBb]. split; [by eapply base_step_trans|done]. }
  destruct Hup as [Hst2 HB2]. pose proof (base_step_trans _ _ _ Hst1 Hst2) as Hst02.
  assert (Hreq2 : ∀ n, requests k2 n = has (rts_after_set c RTS_VMREQUEST k n) RTS_VMREQUEST).
  { intros n. unfold requests. rewrite <-Hr1. unfold k2. by rewrite !rts_upd_same. }
  assert (Hvm2 : p_vmrequest (proctab k2 c) =
    check_request (p_endpoint (proctab k t)) lin len type (p_vmrequest (proctab k c)) <| nextrequestor := vmrequest k |>).
  { unfold k2. rewrite !proctab_upd_proc, !decide_True by done. simpl. by rewrite Hvr, Hep, Hhd. }
  assert (Hoth : ∀ n, n ≠ c → p_vmrequest (proctab k2 n) = p_vmrequest (proctab k n)).
  { intros n Hn. unfold k2. by rewrite !proctab_upd_proc, !decide_False. }
  assert (Hep2 : ∀ n, p_endpoint (proctab k2 n) = p_endpoint (proctab k n)).
  { intros n. rewrite <-Hep. unfold k2. rewrite !proctab_upd_proc. repeat case_decide; by subst. }
  assert (Hvmok : isokendpt k2 VM_PROC_NR = Some vm).
  { eapply (isokendpt_same k); [done| |done]. intros n. by eapply base_step_in_use. }
  assert (Hhead : vmrequest k = head L) by (eapply chain_head, HV).
  rewrite Hhd.
  apply wp_mono with (Q := λ _ k3, base_step k2 k3 ∧ vmreq_same k2 k3 ∧ (L = [] → sig_told k3 vm SIGKMEM)).
  - destruct (vmrequest k) as [n|] eqn:Hn.
    + wp_steps. split; [split; [by eexists|done]|]. split; [by split|]. intros ->. done.
    + apply wp_bind. eapply wp_mono.
      { eapply (send_sig_vmreq k2 Q1 VM_PROC_NR SIGKMEM vm i); [done|done| |done|].
        - rewrite <-Hi. unfold k2. rewrite !proctab_upd_proc. rewrite <-(sched_frame_field p_priv _ _ vm Hf1) by done.
          repeat case_decide; by subst.
        - replace (priv_of k2 SYSTEM) with (priv_of k1 SYSTEM); [by rewrite (priv_of_frame _ _ _ Hf1)|].
          unfold priv_of, priv_id. unfold k2. rewrite !proctab_upd_proc. repeat case_decide; by subst. }
      intros r k3 (-> & Hb & Hs & Htold). by wp_steps.
  - intros [] k3 (Hst3 & Hs3 & Htold). wp_steps. destruct Hs3 as [Hs3h Hs3v Hs3r Hs3e Hs3m].
    assert (base_step k3 (k3 <| vmrequest := Some c |>)) as Hst4.
    { destruct Hst3 as [[Q3 HB3] _]. by apply (base_ext _ _ Q3). }
    pose proof (base_step_trans _ _ _ Hst02 Hst3) as Hst03.
    split; [by eapply base_step_trans|]. split; [|split; [|exact Htold]].
    + apply (vmreq_push k _ L c (p_endpoint (proctab k t)) lin len type); [done|done|done| | | | | | | |done].
      * change (requests k3 c = true). rewrite Hs3r, Hreq2. unfold rts_after_set. rewrite decide_True by done.
        by apply has_set_self.
      * exists t. change (isokendpt k3 (p_endpoint (proctab k t)) = Some t). eapply (isokendpt_same k); [| |done].
        -- intros n. by rewrite Hs3e.
        -- intros n. by eapply base_step_in_use.
      * intros n Hn. change (requests k3 n = requests k n). rewrite Hs3r, Hreq2. unfold rts_after_set.
        by rewrite decide_False.
      * intros n Hn. simpl. rewrite Hs3v. by apply Hoth.
      * simpl. rewrite Hs3v. exact Hvm2.
      * intros n. simpl. by rewrite Hs3e.
      * intros n Hn. exact (base_step_in_use k Q k3 n HB Hst03 Hn).
    + simpl. by rewrite Hs3v, Hvm2, Hhead.
Qed.

(** ** Serving the requests *)

Lemma vmreq_pop k L c :
  vmreq_inv k (c :: L) →
  vmreq_inv (upd_proc c (λ p, p <| p_vmrequest ::= λ r, r <| vmresult := VMSUSPEND |> |>) k
    <| vmrequest := nextrequestor (p_vmrequest (proctab k c)) |>) L.
Proof.
  intros [Hl Hq Hs]. pose proof (chain_NoDup _ _ _ Hl) as [HcL _]%NoDup_cons. destruct Hl as [Hh Hl].
  set (k' := upd_proc _ _ _ <| vmrequest := _ |>).
  assert (Hp : ∀ n, proctab k' n = if decide (n = c) then proctab k c <| p_vmrequest ::= λ r, r <| vmresult := VMSUSPEND |> |>
    else proctab k n) by (intros n; apply proctab_upd_proc).
  assert (Hr : ∀ n, requests k' n = requests k n).
  { intros n. unfold requests, rts. rewrite Hp. by case_decide; subst. }
  split.
  - eapply chain_ext; [|done]. intros x Hx. unfold next_request. rewrite Hp. by case_decide; subst.
  - intros n Hn. rewrite Hr, Hp, decide_False by (intros ->; done).
    destruct (Hq n) as (? & ? & ? & [t Ht]); [set_solver|]. split_and!; [done..|]. exists t.
    eapply isokendpt_same; [| |done].
    + intros m. rewrite Hp. by case_decide; subst.
    + intros m _. unfold isemptyp. rewrite Hp. by case_decide; subst.
  - intros n. rewrite Hr, Hp. case_decide; subst.
    + intros _. split; [apply Hq; set_solver|done].
    + intros Hn. destruct (Hs n Hn). set_solver.
Qed.

Lemma okendpt_run e p k : isokendpt k e = Some p → okendpt e k = Ret (p, k).
Proof. intros H. unfold okendpt, isokendpt_f, mbind, M_bind, gets. by rewrite H. Qed.

Lemma memreq_get_spec k L m :
  vmreq_inv k L →
  match L with
  | [] => vmctl_memreq_get m k = Ret ((ESRCH, m), k)
  | c :: L' => ∃ k', vmctl_memreq_get m k =
        Ret ((VMPTYPE_CHECK, memreq_reply (p_vmrequest (proctab k c)) (p_endpoint (proctab k c)) m), k') ∧
      vmreq_inv k' L' ∧ vmresult (p_vmrequest (proctab k' c)) = VMSUSPEND ∧ requests k' c = true ∧
      ∀ n, n ≠ c → proctab k' n = proctab k n
  end.
Proof.
  intros HV. unfold vmctl_memreq_get. rewrite run_gets. destruct L as [|c L].
  - by rewrite (chain_head _ _ _ (vi_list _ _ HV)).
  - destruct (vi_queued _ _ HV c) as (Hv & Hr & Ht & [t Hok]); [set_solver|].
    rewrite (chain_head _ _ _ (vi_list _ _ HV)). change (head (c :: L)) with (Some c). cbv iota.
    rewrite run_assert by (by rewrite isset_vmrequest). rewrite run_gets.
    rewrite (run_bind _ _ _ _ _ (okendpt_run _ _ _ Hok)). rewrite Ht. cbn [Z.eqb Pos.eqb VMPTYPE_CHECK].
    rewrite run_gets. unfold modify_proc. rewrite !run_modify. eexists. split; [done|].
    split; [by apply vmreq_pop|]. split; [|split].
    + simpl. by rewrite upd_eq.
    + unfold requests, rts. simpl. by rewrite upd_eq.
    + intros n Hn. simpl. by rewrite upd_ne.
Qed.

(** A process whose request has been answered leaves the protocol. *)
Lemma vmreq_done k k' L p v :
  vmreq_inv k L → vmresult (p_vmrequest (proctab k p)) = VMSUSPEND → v ≠ VMSUSPEND →
  vmrequest k' = vmrequest k →
  p_vmrequest (proctab k' p) = p_vmrequest (proctab k p) <| vmresult := v |> →
  (∀ n, n ≠ p → p_vmrequest (proctab k' n) = p_vmrequest (proctab k n) ∧ requests k' n = requests k n) →
  (∀ n, p_endpoint (proctab k' n) = p_endpoint (proctab k n)) →
  (∀ n, valid_slot n → isemptyp k n = false → isemptyp k' n = false) → vmreq_inv k' L.
Proof.
  intros [Hl Hq Hs] Hres Hv Hh Hp Ho He Hm. destruct (Hs p Hres) as [_ HpL].
  assert (∀ n, n ∈ L → n ≠ p) as HL by (intros n Hn ->; done). split.
  - rewrite Hh. eapply chain_ext; [|done]. intros x Hx. unfold next_request. by destruct (Ho x (HL x Hx)) as [-> _].
  - intros n Hn. destruct (Ho n (HL n Hn)) as [-> ->]. destruct (Hq n Hn) as (? & ? & ? & [t Ht]).
    split_and!; [done..|]. exists t. by eapply isokendpt_same.
  - intros n Hn. destruct (decide (n = p)) as [->|Hne]; [rewrite Hp in Hn; simpl in Hn; congruence|].
    destruct (Ho n Hne) as [E1 E2]. rewrite E1 in Hn. rewrite E2. by apply Hs.
Qed.

Lemma memreq_reply_spec k Q L p m :
  ipc_base k Q → vmreq_inv k L → valid_slot p → isemptyp k p = false →
  vmresult (p_vmrequest (proctab k p)) = VMSUSPEND →
  is_Some (isokendpt k (target (p_vmrequest (proctab k p)))) →
  vmtype (p_vmrequest (proctab k p)) = VMSTYPE_KERNELCALL → SVMCTL_VALUE m ≠ VMSUSPEND →
  wp (vmctl_memreq_reply p m) (λ r k', r = (OK, m) ∧ base_step k k' ∧ vmreq_inv k' L ∧
    requests k' p = false ∧ check_resumed_caller (Some p) k' = Ret (SVMCTL_VALUE m, k') ∧
    (rts k p = RTS_VMREQUEST → rts k' p = 0 ∨ rts k' p = RTS_PREEMPTED)) k.
Proof.
  intros HB HV Hv He Hres [t Hok] Hty Hval. pose proof (vi_served _ _ HV p Hres) as [Hreq _].
  unfold vmctl_memreq_reply.
  apply wp_bind, wp_assert; [by rewrite isset_vmrequest|].
  apply wp_bind, wp_assert; [by rewrite Hres|]. wp_steps.
  eapply okendpt_wp; [done|]. unfold modify_proc. wp_steps.
  apply wp_assert; [by apply negb_true_iff, Z.eqb_neq|]. wp_steps.
  set (k1 := upd_proc p _ k).
  assert (vmtype (p_vmrequest (proctab k1 p)) = VMSTYPE_KERNELCALL) as ->.
  { unfold k1. rewrite proctab_upd_proc, decide_True by done. done. }
  cbn [Z.eqb Pos.eqb VMSTYPE_KERNELCALL]. wp_steps. set (k2 := upd_proc p _ k1).
  destruct (base_step_upd_proc k Q p (λ q, q <| p_vmrequest ::= λ r, r <| vmresult := SVMCTL_VALUE m |> |>)
    ltac:(done) ltac:(done) ltac:(done) HB) as [Hst1 HB1]. fold k1 in Hst1, HB1.
  destruct (base_step_upd_proc k1 Q p (λ q, q <| p_misc_flags ::= set_flag MF_KCALL_RESUME |>)) as [Hst2 HB2];
    [done|done|intros _; by apply has_set_other|done|]. fold k2 in Hst2, HB2.
  pose proof (base_step_trans _ _ _ Hst1 Hst2) as Hst02.
  assert (Hrts : ∀ n, rts k2 n = rts k n) by (intros n; unfold k2, k1; by rewrite !rts_upd_same).
  eapply wp_mono; [eapply (base_RTS_UNSET k2 Q); [done|done| |done|done|done]|].
  { destruct Hst02 as [_ HP]. rewrite (ip_free _ _ HP). by eapply in_use_free. }
  intros [] k3 (Hst3 & Hf3 & Hr3). wp_steps. pose proof (base_step_trans _ _ _ Hst02 Hst3) as Hst03.
  assert (Hp2 : p_vmrequest (proctab k2 p) = p_vmrequest (proctab k p) <| vmresult := SVMCTL_VALUE m |>).
  { unfold k2, k1. by rewrite !proctab_upd_proc, !decide_True. }
  assert (Hm2 : has (p_misc_flags (proctab k2 p)) MF_KCALL_RESUME = true).
  { unfold k2. rewrite proctab_upd_proc, decide_True by done. simpl. by apply has_set_self. }
  assert (Hself : requests k3 p = false).
  { unfold requests. rewrite Hr3. by apply rts_unset_self. }
  split; [done|]. split; [done|]. split; [|split; [done|split]].
  - eapply (vmreq_done k k3 L p (SVMCTL_VALUE m)); [done|done|done| | | | |].
    + by rewrite (sched_frame_state vmrequest _ _ Hf3).
    + by rewrite (sched_frame_field p_vmrequest _ _ p Hf3).
    + intros n Hn. rewrite (sched_frame_field p_vmrequest _ _ n Hf3) by done. split.
      * unfold k2, k1. by rewrite !proctab_upd_proc, !decide_False.
      * unfold requests. rewrite Hr3, has_rts_unset by done. unfold rts_after_unset. by rewrite decide_False, Hrts.
    + intros n. rewrite (sched_frame_field p_endpoint _ _ n Hf3) by done.
      unfold k2, k1. rewrite !proctab_upd_proc. by repeat case_decide; subst.
    + intros n Hn. exact (base_step_in_use k Q k3 n HB Hst03 Hn).
  - unfold check_resumed_caller. rewrite run_gets.
    rewrite (sched_frame_field p_misc_flags _ _ p Hf3), Hm2 by done. cbv iota.
    assert (vmresult (p_vmrequest (proctab k3 p)) = SVMCTL_VALUE m) as Hv3.
    { by rewrite (sched_frame_field p_vmrequest _ _ p Hf3), Hp2. }
    rewrite run_assert by (rewrite Hv3; by apply negb_true_iff, Z.eqb_neq). unfold gets. by rewrite Hv3.
  - intros Hrp. rewrite Hr3. unfold rts_unset, rts_after_unset. rewrite decide_True, Hrts, Hrp by done.
    case_bool; [by right|by left].
Qed.

(** ** Properties *)

Section protocol.
Context (freepdes : list Z).
Context (arch_phys_map : Z → message → K (Z * message)) (arch_phys_map_reply : Z → Z → K Z).
#[local] Notation vmctl := (do_vmctl freepdes arch_phys_map arch_phys_map_reply).

(** VM asks for requests until there are none: the requestors, in the order they are handed
    out, and the kernel's state afterwards. *)
Fixpoint drain (fuel : nat) (vm : Z) (m : message) : K (list Z) :=
  match fuel with
  | O => mret []
  | S fuel' =>
      r ← vmctl vm m;
      if fst r =? VMPTYPE_CHECK then
        l ← drain fuel' vm m;
        mret (SVMCTL_MRG_REQUESTOR (snd r) :: l)
      else mret []
  end.

Lemma vmctl_get vm m k :
  SVMCTL_WHO m = SELF → SVMCTL_PARAM m = VMCTL_MEMREQ_GET → isokendpt k (p_endpoint (proctab k vm)) = Some vm →
  vmctl vm m k = vmctl_memreq_get m k.
Proof using Type.
  intros Hw Hp Hok. unfold do_vmctl. rewrite run_gets, run_gets, Hw. change (SELF =? SELF) with true. cbv iota.
  by rewrite Hok, Hp.
Qed.

Lemma drain_spec vm m k L :
  vmreq_inv k L → SVMCTL_WHO m = SELF → SVMCTL_PARAM m = VMCTL_MEMREQ_GET →
  isokendpt k (p_endpoint (proctab k vm)) = Some vm → vm ∉ L →
  ∃ k', drain (S (length L)) vm m k = Ret ((λ n, p_endpoint (proctab k n)) <$> L, k') ∧ vmreq_inv k' [] ∧
    (∀ n, n ∈ L → vmresult (p_vmrequest (proctab k' n)) = VMSUSPEND) ∧
    (∀ n, n ∉ L → proctab k' n = proctab k n).
Proof using Type.
  intros HV Hw Hp. revert k HV. induction L as [|c L IH]; intros k HV Hok Hvm; cbn [drain length].
  - assert (Hget := memreq_get_spec k [] m HV). rewrite <-(vmctl_get vm) in Hget by done.
    rewrite (run_bind _ _ _ _ _ Hget). exists k. split_and!; [done|done|set_solver|done].
  - destruct (memreq_get_spec k (c :: L) m HV) as (k1 & Hget & HV1 & Hres & Hreq & Hoth).
    rewrite <-(vmctl_get vm) in Hget by done. rewrite (run_bind _ _ _ _ _ Hget).
    cbn [fst snd Z.eqb Pos.eqb VMPTYPE_CHECK].
    pose proof (chain_NoDup _ _ _ (vi_list _ _ HV)) as [HcL _]%NoDup_cons.
    destruct (IH k1 HV1) as (k2 & Hrun & HV2 & Hall & Hrest).
    + rewrite Hoth by set_solver. pose proof Hok as (Hv & He & ? & ?)%isokendpt_Some. apply isokendpt_Some.
      unfold isemptyp in *. rewrite Hoth by set_solver. done.
    + set_solver.
    + rewrite (run_bind _ _ _ _ _ Hrun). exists k2. split; [|split; [done|split]].
      * unfold mret, M_ret, memreq_reply, SVMCTL_MRG_REQUESTOR. rewrite m_word_set. do 3 f_equal. simpl. f_equal.
        apply list_fmap_ext. intros i x Hx. rewrite Hoth; [done|].
        intros ->. apply HcL. by eapply list_elem_of_lookup_2.
      * intros n [->|Hn]%elem_of_cons; [by rewrite Hrest|by apply Hall].
      * intros n Hn. rewrite Hrest, Hoth by set_solver. done.
Qed.
End protocol.

(** Process 20 runs a kernel call; VM (slot 8) waits for messages. *)
Definition vm_demo : kstate :=
  upd_proc 8 (λ p, p <| p_rts_flags := RTS_RECEIVING |> <| p_getfrom_e := ANY |> <| p_priv := Some 3 |>)
    (ipc_demo <| privtab ::= λ t, upd t 3 (priv0 3 <| s_proc_nr := 8 |>) |>).
Lemma vm_demo_inv : ipc_inv vm_demo (λ _, []) (λ _, []).
Proof.
  apply (ipc_inv_quiet_slots _ [SYSTEM; 0; 8; 20; IDLE_PTR]); [done..|].
  intros n Hn. unfold vm_demo, ipc_demo. simpl. rewrite !upd_ne by (intros ->; set_solver). done.
Qed.
(** The same after process 20 had to wait for its page 0x4000. *)
Definition vm_demo_wait : kstate :=
  upd_proc 20 (λ p, p <| p_rts_flags := RTS_VMREQUEST |>
                      <| p_vmrequest ::= check_request 20 0x4000 16 VMSTYPE_KERNELCALL |>)
    (vm_demo <| vmrequest := Some 20 |>).

Lemma vm_demo_no_requests : vmreq_inv vm_demo [].
Proof.
  split; [done|set_solver|]. intros n. unfold vm_demo, ipc_demo. simpl. unfold upd.
  repeat (case_decide; [done|]). done.
Qed.
Lemma vm_demo_wait_inv : vmreq_inv vm_demo_wait [20].
Proof.
  split; [done| |].
  - intros n ->%list_elem_of_singleton. split_and!; [done|done|done|]. by exists 20.
  - intros n. unfold vm_demo_wait, vm_demo, ipc_demo. simpl. unfold upd. repeat (case_decide; [done|]). done.
Qed.

(** [vm_suspend] never loses a request: the caller, which is in use and not VM itself, is
    no longer runnable, and heads the list of requests with the range and the process it needs;
    the others stay on the list behind it; if VM had nothing left to do it is told (SIGKMEM is
    pending for it or in a notification being delivered); no assertion fails, and the
    invariants of scheduling, message passing and the list hold again. *)
Theorem vm_suspend_queues k Q C L c t lin len type vm i :
  ipc_inv k Q C → vmreq_inv k L → valid_slot c → isemptyp k c = false → requests k c = false →
  p_endpoint (proctab k c) ≠ VM_PROC_NR → requests k t = false → isokendpt k (p_endpoint (proctab k t)) = Some t →
  isokendpt k VM_PROC_NR = Some vm → p_priv (proctab k vm) = Some i → 0 ≤ s_id (priv_of k SYSTEM) →
  wp (vm_suspend c t lin len type) (λ _ k', (∃ Q', ipc_inv k' Q' C) ∧ vmreq_inv k' (c :: L) ∧
    proc_is_runnable k' c = false ∧
    target (p_vmrequest (proctab k' c)) = p_endpoint (proctab k t) ∧
    check_start (p_vmrequest (proctab k' c)) = lin ∧ check_length (p_vmrequest (proctab k' c)) = len ∧
    (L = [] → sig_told k' vm SIGKMEM)) k.
Proof.
  intros HI HV Hv He Hc Hne Ht Htok Hvm Hi Hid.
  eapply wp_mono; [eapply (vm_suspend_spec k Q L c t lin len type vm i); try done; apply HI|].
  intros [] k' (Hst & HV' & Hreq & Htold). split; [by eapply ipc_inv_step|]. split; [done|].
  split; [|by rewrite Hreq].
  destruct (vi_queued _ _ HV' c) as (_ & Hr & _); [set_solver|]. rewrite runnable_rts.
  apply Z.eqb_neq. intros E. unfold requests in Hr. by rewrite E in Hr.
Qed.

Lemma vm_suspend_queues_witness :
  wp (vm_suspend 20 20 0x4000 16 VMSTYPE_KERNELCALL) (λ _ k', vmreq_inv k' [20] ∧ sig_told k' 8 SIGKMEM) vm_demo.
Proof.
  eapply wp_mono.
  - apply (vm_suspend_queues vm_demo _ _ [] 20 20 0x4000 16 VMSTYPE_KERNELCALL 8 3 vm_demo_inv vm_demo_no_requests); done.
  - intros [] k' (_ & ? & _ & _ & _ & _ & Ht). split; [done|by apply Ht].
Defined.



(** VM's answer resumes the call: VMCTL_MEMREQ_REPLY for a process whose request VM is
    working on, with a result other than VMSUSPEND, returns OK; the process no longer waits for
    VM and, if that was all it waited for, is runnable (or preempted); when its kernel call is
    run again it finds VM's result; the other requests stay as they are. *)
Theorem memreq_reply_resumes freepdes map map_reply k Q C L vm p m :
  ipc_inv k Q C → vmreq_inv k L → isokendpt k (SVMCTL_WHO m) = Some p → SVMCTL_WHO m ≠ SELF →
  SVMCTL_PARAM m = VMCTL_MEMREQ_REPLY → vmresult (p_vmrequest (proctab k p)) = VMSUSPEND →
  is_Some (isokendpt k (target (p_vmrequest (proctab k p)))) →
  vmtype (p_vmrequest (proctab k p)) = VMSTYPE_KERNELCALL → SVMCTL_VALUE m ≠ VMSUSPEND →
  wp (do_vmctl freepdes map map_reply vm m) (λ r k', fst r = OK ∧ (∃ Q', ipc_inv k' Q' C) ∧ vmreq_inv k' L ∧
    requests k' p = false ∧ check_resumed_caller (Some p) k' = Ret (SVMCTL_VALUE m, k') ∧
    (rts k p = RTS_VMREQUEST → rts k' p = 0 ∨ rts k' p = RTS_PREEMPTED)) k.
Proof.
  intros HI HV Hok Hself Hp Hres Ht Hty Hval. pose proof Hok as (Hv & He & _)%isokendpt_Some.
  unfold do_vmctl. wp_steps. rewrite (proj2 (Z.eqb_neq _ _) Hself), Hok, Hp.
  change (wp (vmctl_memreq_reply p m) (λ r k', fst r = OK ∧ (∃ Q', ipc_inv k' Q' C) ∧ vmreq_inv k' L ∧
    requests k' p = false ∧ check_resumed_caller (Some p) k' = Ret (SVMCTL_VALUE m, k') ∧
    (rts k p = RTS_VMREQUEST → rts k' p = 0 ∨ rts k' p = RTS_PREEMPTED)) k).
  eapply wp_mono; [eapply (memreq_reply_spec k Q L); try done; apply HI|].
  intros r k' (-> & Hst & HV' & Hrest). split; [done|]. split; [by eapply ipc_inv_step|]. done.
Qed.

(** Process 20 while VM works on its request. *)
Definition vm_demo_served : kstate :=
  upd_proc 20 (λ p, p <| p_vmrequest ::= λ r, r <| vmresult := VMSUSPEND |> |>) (vm_demo_wait <| vmrequest := None |>).
Lemma vm_demo_served_inv : ipc_inv vm_demo_served (λ _, []) (λ _, []) ∧ vmreq_inv vm_demo_served [].
Proof.
  split; [|split; [done|set_solver|]].
  2: { intros n Hn. split; [|set_solver]. revert Hn. unfold requests, rts.
       unfold vm_demo_served, vm_demo_wait, vm_demo, ipc_demo. simpl. unfold upd.
       repeat (case_decide; [by subst|]). done. }
  apply (ipc_inv_quiet_slots _ [SYSTEM; 0; 8; 20; IDLE_PTR]); [done..|].
  intros n Hn. unfold vm_demo_served, vm_demo_wait, vm_demo, ipc_demo. simpl. rewrite !upd_ne by (intros ->; set_solver). done.
Qed.

Lemma memreq_reply_resumes_witness :
  wp (do_vmctl [] (λ _ m, mret (OK, m)) (λ _ _, mret OK) 8 (mk_message 8 0 [20; VMCTL_MEMREQ_REPLY; EFAULT]))
    (λ r k', fst r = OK ∧ check_resumed_caller (Some 20) k' = Ret (EFAULT, k')) vm_demo_served.
Proof.
  eapply wp_mono.
  - apply (memreq_reply_resumes [] (λ _ m, mret (OK, m)) (λ _ _, mret OK) vm_demo_served _ _ [] 8 20
      (mk_message 8 0 [20; VMCTL_MEMREQ_REPLY; EFAULT]) (proj1 vm_demo_served_inv) (proj2 vm_demo_served_inv));
      [done|done|done|done|by exists 20|done|done].
  - intros r k' (? & _ & _ & _ & ? & _). done.
Defined.

