(* ===== verification/Grants.v ===== *)
(** * Memory grants (kernel/system/do_safecopy.c, do_safememset.c, do_setgrant.c)

    A process lets others read or write parts of its memory by entries in a grant table.
    [verify_grant] follows chains of indirect grants and checks that an access is covered;
    [safecopy] and [do_safememset] act only on what it allows.  The specification is [permits],
    an inductive definition of what a chain of grants allows. *)
From S2P Require Import Prelude LinkedList Kernel Endpoint Sched IpcInv Notify HMem WorkingSet HShared VirtCopy.

Definition ELOOP : Z := -40.
Definition VFS_PROC_NR : Z := 1.
Definition CPF_READ : Z := 0x1.
Definition CPF_WRITE : Z := 0x2.
Definition CPF_USED : Z := 0x100.
Definition CPF_DIRECT : Z := 0x200.
Definition CPF_INDIRECT : Z := 0x400.
Definition CPF_MAGIC : Z := 0x800.
Definition CPF_VALID : Z := 0x1000.
Definition MAX_INDIRECT_DEPTH : nat := 5.
Definition MEM_TOP : Z := 0xFFFFFFFF.
Definition SIZEOF_CP_GRANT : Z := 36.
Definition SIZEOF_VSCP_VEC : Z := 24.
Definition GRANT_VALID (g : Z) : bool := -1 <? g.

(** The members of the union [cp_u], whose words are kept unsigned; endpoints and grant ids
    are signed. *)
Definition direct_who_to (g : cp_grant) : Z := i32 (cp_w0 g).
Definition direct_start : cp_grant → Z := cp_w1.
Definition direct_len : cp_grant → Z := cp_w2.
Definition indirect_who_to (g : cp_grant) : Z := i32 (cp_w0 g).
Definition indirect_who_from (g : cp_grant) : Z := i32 (cp_w1 g).
Definition indirect_grant (g : cp_grant) : Z := i32 (cp_w2 g).
Definition magic_who_from (g : cp_grant) : Z := i32 (cp_w0 g).
Definition magic_who_to (g : cp_grant) : Z := i32 (cp_w1 g).
Definition magic_start : cp_grant → Z := cp_w2.
Definition magic_len : cp_grant → Z := cp_w3.

Definition HASGRANTTABLE (k : kstate) (gr : Z) : bool :=
  match p_priv (proctab k gr) with Some i => negb (s_grant_table (privtab k i) =? 0) | None => false end.

(** The checks at the head of the loop of [verify_grant]: the entry, or the error code. *)
Definition grant_entry (k : kstate) (granter grant : Z) : Z + cp_grant :=
  match isokendpt k granter with
  | None => inl EINVAL
  | Some proc_nr =>
      if negb (GRANT_VALID grant) then inl EINVAL
      else if negb (HASGRANTTABLE k proc_nr) then inl EPERM
      else if s_grant_entries (priv_of k proc_nr) <=? grant then inl EPERM
      else
        match ugrant k proc_nr (u32 (s_grant_table (priv_of k proc_nr) + SIZEOF_CP_GRANT * grant)) with
        | None => inl EPERM
        | Some g =>
            if negb (isset (cp_flags g) (Z.lor CPF_USED CPF_VALID)) then inl EPERM else inr g
        end
  end.

(** [cp_who_to != grantee && grantee != ANY && cp_who_to != ANY]. *)
Definition bad_grantee (who_to grantee any_word : Z) : bool :=
  negb (who_to =? grantee) && negb (grantee =? ANY) && negb (any_word =? ANY).

(** The loop: the entry at the end of the chain with its granter and grantee; [d] indirect
    grants may still be followed. *)
Fixpoint verify_loop (d : nat) (k : kstate) (granter grantee grant : Z) : Z + (cp_grant * Z * Z) :=
  match grant_entry k granter grant with
  | inl r => inl r
  | inr g =>
      if has (cp_flags g) CPF_INDIRECT then
        match d with
        | O => inl ELOOP
        | S d' =>
            if bad_grantee (indirect_who_to g) grantee (indirect_who_to g) then inl EPERM
            else verify_loop d' k (indirect_who_from g) granter (indirect_grant g)
        end
      else inr (g, granter, grantee)
  end.

(** [offset_in + bytes] does not wrap and stays within [len]. *)
Definition bad_range (offset_in bytes len : Z) : bool :=
  (u32 (offset_in + bytes) <? offset_in) || (len <? u32 (offset_in + bytes)).

(** What follows the loop: the offset and the granter, or an error. *)
Definition check_access (g : cp_grant) (granter grantee bytes access offset_in : Z) : Z + (Z * Z) :=
  if negb (isset (cp_flags g) access) then inl EPERM
  else if has (cp_flags g) CPF_DIRECT then
    if u32 (MEM_TOP - direct_len g + 1) <? direct_start g then inl EPERM
    else if bad_grantee (direct_who_to g) grantee (direct_who_to g) then inl EPERM
    else if bad_range offset_in bytes (direct_len g) then inl EPERM
    else inr (u32 (direct_start g + offset_in), granter)
  else if has (cp_flags g) CPF_MAGIC then
    if negb (granter =? VFS_PROC_NR) then inl EPERM
    else if bad_grantee (magic_who_to g) grantee (direct_who_to g) then inl EPERM
    else if bad_range offset_in bytes (magic_len g) then inl EPERM
    else inr (u32 (magic_start g + offset_in), magic_who_from g)
  else inl EPERM.

(** [verify_grant(granter, grantee, grant, bytes, access, offset_in, &offset_result,
    &e_granter)]: an error code, or the offset and the granter. *)
Definition verify_grant (k : kstate) (granter grantee grant bytes access offset_in : Z) : Z + (Z * Z) :=
  match verify_loop MAX_INDIRECT_DEPTH k granter grantee grant with
  | inl r => inl r
  | inr (g, granter, grantee) => check_access g granter grantee bytes access offset_in
  end.

(** ** The kernel calls *)

Section calls.
Context (freepdes : list Z).
Context (phys_copy : Z → Z → Z → K Z) (phys_memset : Z → Z → Z → K Z).

Definition safecopy (caller granter grantee grantid bytes g_offset addr access : Z) : K Z :=
  if (granter =? NONE) || (grantee =? NONE) then mret EFAULT
  else
    granter_p ← endpoint_lookup granter;
    match granter_p with
    | None => mret EINVAL
    | Some granter_p =>
        table ← gets (λ k, HASGRANTTABLE k granter_p);
        if negb table then mret EPERM
        else
          v ← gets (λ k, verify_grant k granter grantee grantid bytes access g_offset);
          match v with
          | inl r => mret r
          | inr (v_offset, new_granter) =>
              if has access CPF_READ
              then virtual_copy_vmcheck freepdes phys_copy caller new_granter v_offset grantee addr bytes
              else virtual_copy_vmcheck freepdes phys_copy caller grantee addr new_granter v_offset bytes
          end
    end.

Definition SCP_FROM_TO : message → Z := m_word 0.
Definition SCP_GID : message → Z := m_word 2.
Definition SCP_OFFSET : message → Z := m_word 3.
Definition SCP_BYTES : message → Z := m_word 4.
Definition SCP_ADDRESS : message → Z := m_word 5.

Definition do_safecopy_to (caller : Z) (m : message) : K Z :=
  e ← gets (λ k, p_endpoint (proctab k caller));
  safecopy caller (SCP_FROM_TO m) e (SCP_GID m) (SCP_BYTES m) (SCP_OFFSET m) (SCP_ADDRESS m) CPF_WRITE.
Definition do_safecopy_from (caller : Z) (m : message) : K Z :=
  e ← gets (λ k, p_endpoint (proctab k caller));
  safecopy caller (SCP_FROM_TO m) e (SCP_GID m) (SCP_BYTES m) (SCP_OFFSET m) (SCP_ADDRESS m) CPF_READ.

(** The loop of [do_vsafecopy] over the elements that were copied in. *)
Fixpoint vsafecopy_loop (caller self : Z) (vec : list vscp_vec) : K Z :=
  match vec with
  | [] => mret OK
  | v :: vec' =>
      if v_from v =? SELF then
        r ← safecopy caller (v_to v) self (v_gid v) (v_bytes v) (v_offset v) (v_addr v) CPF_WRITE;
        if negb (r =? OK) then mret r else vsafecopy_loop caller self vec'
      else if v_to v =? SELF then
        r ← safecopy caller (v_from v) self (v_gid v) (v_bytes v) (v_offset v) (v_addr v) CPF_READ;
        if negb (r =? OK) then mret r else vsafecopy_loop caller self vec'
      else mret EINVAL
  end.

Definition VSCP_VEC_ADDR : message → Z := m_word 5.
Definition VSCP_VEC_SIZE : message → Z := m_word 4.

(** The elements at [addr] of process [n]: what the copy into [vec] brings. *)
Definition read_vec (k : kstate) (n addr : Z) (els : nat) : list vscp_vec :=
  (λ i, default (mk_vscp_vec 0 0 0 0 0 0) (uvscp k n (u32 (addr + SIZEOF_VSCP_VEC * i)))) <$> seqZ 0 (Z.of_nat els).

(** [vec_addr] is where the kernel keeps [vec]. *)
Definition do_vsafecopy (vec_addr caller : Z) (m : message) : K Z :=
  self ← gets (λ k, p_endpoint (proctab k caller));
  assert_ (λ _, negb (self =? NONE)) "src.proc_nr_e != NONE";;
  let els := VSCP_VEC_SIZE m in
  vec ← gets (λ k, read_vec k caller (VSCP_VEC_ADDR m) (Z.to_nat els));
  r ← virtual_copy_vmcheck freepdes phys_copy caller self (VSCP_VEC_ADDR m) KERNEL vec_addr
        (u32 (els * SIZEOF_VSCP_VEC));
  if negb (r =? OK) then mret r else vsafecopy_loop caller self vec.

Definition SMS_DST : message → Z := m_word 0.
Definition SMS_PATTERN : message → Z := m_word 1.
Definition SMS_GID : message → Z := m_word 2.
Definition SMS_OFFSET : message → Z := m_word 3.
Definition SMS_BYTES : message → Z := m_word 4.

Definition do_safememset (caller : Z) (m : message) : K Z :=
  caller_endpt ← gets (λ k, p_endpoint (proctab k caller));
  if (SMS_DST m =? NONE) || (caller_endpt =? NONE) then mret EFAULT
  else
    dst_p ← endpoint_lookup (SMS_DST m);
    match dst_p with
    | None => mret EINVAL
    | Some dst_p =>
        table ← gets (λ k, HASGRANTTABLE k dst_p);
        if negb table then mret EINVAL
        else
          v ← gets (λ k, verify_grant k (SMS_DST m) caller_endpt (SMS_GID m) (SMS_BYTES m) CPF_WRITE (SMS_OFFSET m));
          match v with
          | inl r => mret r
          | inr (v_offset, new_granter) =>
              vm_memset freepdes phys_memset caller new_granter v_offset (SMS_PATTERN m) (SMS_BYTES m)
          end
    end.
End calls.

Definition SG_SIZE : message → Z := m_word 1.
Definition SG_ADDR : message → Z := m_word 5.

Definition do_setgrant (caller : Z) (m : message) : K Z :=
  nopriv ← gets (λ k, RTS_ISSET k caller RTS_NO_PRIV);
  pr ← gets (λ k, p_priv (proctab k caller));
  match pr with
  | Some i =>
      if (nopriv : bool) then mret EPERM
      else modify_priv i (λ s, s <| s_grant_table := SG_ADDR m |> <| s_grant_entries := SG_SIZE m |>);; mret OK
  | None => mret EPERM
  end.

(** ** What grants allow *)

(** An access: read or write [pa_bytes] bytes at offset [pa_off] of a grant. *)
Record access_to := mk_access { pa_mode : Z; pa_off : Z; pa_bytes : Z }.

(** The grantee may be anyone if either side says ANY. *)
Definition for_grantee (who_to grantee any_word : Z) : Prop :=
  who_to = grantee ∨ grantee = ANY ∨ any_word = ANY.

(** [permits k n granter grantee id a addr owner]: grant [id] of [granter], followed through
    [n] indirect grants, lets [grantee] make access [a], which is to address [addr] of
    [owner]. *)
Inductive permits (k : kstate) : nat → Z → Z → Z → access_to → Z → Z → Prop :=
| permits_direct granter grantee id g a :
    grant_entry k granter id = inr g →
    has (cp_flags g) CPF_INDIRECT = false → has (cp_flags g) CPF_DIRECT = true →
    isset (cp_flags g) (pa_mode a) = true →
    for_grantee (direct_who_to g) grantee (direct_who_to g) →
    direct_start g + direct_len g ≤ 2 ^ 32 → (direct_len g = 0 → direct_start g = 0) →
    pa_off a + pa_bytes a ≤ direct_len g →
    permits k 0 granter grantee id a (u32 (direct_start g + pa_off a)) granter
| permits_magic grantee id g a :
    grant_entry k VFS_PROC_NR id = inr g →
    has (cp_flags g) CPF_INDIRECT = false → has (cp_flags g) CPF_DIRECT = false →
    has (cp_flags g) CPF_MAGIC = true → isset (cp_flags g) (pa_mode a) = true →
    for_grantee (magic_who_to g) grantee (magic_who_from g) →
    pa_off a + pa_bytes a ≤ magic_len g →
    permits k 0 VFS_PROC_NR grantee id a (u32 (magic_start g + pa_off a)) (magic_who_from g)
| permits_indirect n granter grantee id g a addr owner :
    grant_entry k granter id = inr g → has (cp_flags g) CPF_INDIRECT = true →
    for_grantee (indirect_who_to g) grantee (indirect_who_to g) →
    permits k n (indirect_who_from g) granter (indirect_grant g) a addr owner →
    permits k (S n) granter grantee id a addr owner.

(** The processes whose memory the grants of [source] lead to are alive and have page
    tables. *)
Definition owners_alive (k : kstate) (source endpt : Z) : Prop :=
  ∀ id bytes access offset addr owner, verify_grant k source endpt id bytes access offset = inr (addr, owner) →
    ∃ n, isokendpt k owner = Some n ∧ has_pt k n.
(** The words of a grant table are 32-bit words. *)
Definition grants_fit (k : kstate) : Prop :=
  ∀ n a g, ugrant k n a = Some g →
    0 ≤ direct_start g < 2 ^ 32 ∧ 0 ≤ direct_len g < 2 ^ 32 ∧ 0 ≤ magic_len g < 2 ^ 32.

Lemma bad_grantee_false who_to grantee any_word :
  bad_grantee who_to grantee any_word = false ↔ for_grantee who_to grantee any_word.
Proof.
  unfold bad_grantee, for_grantee. rewrite !andb_false_iff, !negb_false_iff, !Z.eqb_eq. tauto.
Qed.
Lemma bad_range_false off bytes len :
  0 ≤ off < 2 ^ 32 → 0 ≤ bytes < 2 ^ 32 → 0 ≤ len < 2 ^ 32 →
  bad_range off bytes len = false ↔ off + bytes ≤ len.
Proof.
  intros Ho Hb Hl. unfold bad_range. rewrite orb_false_iff, !Z.ltb_ge.
  assert (u32 (off + bytes) = off + bytes ∨ u32 (off + bytes) = off + bytes - 2 ^ 32 ∧ 2 ^ 32 ≤ off + bytes) as Hu.
  { unfold u32. change (2 ^ 32) with 4294967296 in *. div_lia. }
  lia.
Qed.
Lemma no_wrap_spec len start :
  0 ≤ len < 2 ^ 32 → 0 ≤ start < 2 ^ 32 →
  (u32 (MEM_TOP - len + 1) <? start) = false ↔ start + len ≤ 2 ^ 32 ∧ (len = 0 → start = 0).
Proof.
  intros Hl Hs. rewrite Z.ltb_ge. unfold MEM_TOP, u32. change (2 ^ 32) with 4294967296 in *. div_lia.
Qed.

Lemma grant_entry_fits k granter id g :
  grants_fit k → grant_entry k granter id = inr g →
  0 ≤ direct_start g < 2 ^ 32 ∧ 0 ≤ direct_len g < 2 ^ 32 ∧ 0 ≤ magic_len g < 2 ^ 32.
Proof. intros Hf. unfold grant_entry. repeat case_match; try done. intros [= <-]. by eapply Hf. Qed.

Section exact.
Context (k : kstate) (Hfit : grants_fit k).
Context (mode off bytes : Z) (Hoff : 0 ≤ off < 2 ^ 32) (Hbytes : 0 ≤ bytes < 2 ^ 32).

Lemma check_access_exact granter grantee id g addr owner :
  grant_entry k granter id = inr g → has (cp_flags g) CPF_INDIRECT = false →
  check_access g granter grantee bytes mode off = inr (addr, owner) ↔
  permits k 0 granter grantee id (mk_access mode off bytes) addr owner.
Proof using Hfit Hoff Hbytes.
  intros He Hi. destruct (grant_entry_fits _ _ _ _ Hfit He) as (Hs & Hl & Hm).
  split.
  - unfold check_access. destruct (isset (cp_flags g) mode) eqn:Hacc; [|done]. cbv beta iota delta [negb].
    destruct (has (cp_flags g) CPF_DIRECT) eqn:Hd.
    + destruct (_ <? _) eqn:Hw; [done|]. destruct (bad_grantee _ _ _) eqn:Hg; [done|].
      destruct (bad_range _ _ _) eqn:Hr; [done|]. intros [= <- <-].
      apply (no_wrap_spec _ _ Hl Hs) in Hw as [? ?]. apply (bad_range_false _ _ _ Hoff Hbytes Hl) in Hr. apply bad_grantee_false in Hg.
      by eapply (permits_direct k granter grantee id g).
    + destruct (has (cp_flags g) CPF_MAGIC) eqn:Hmg; [|done].
      destruct (Z.eqb_spec granter VFS_PROC_NR) as [->|]; [|done].
      destruct (bad_grantee _ _ _) eqn:Hg; [done|]. destruct (bad_range _ _ _) eqn:Hr; [done|]. intros [= <- <-].
      apply (bad_range_false _ _ _ Hoff Hbytes Hm) in Hr. apply bad_grantee_false in Hg. by eapply (permits_magic k grantee id g).
  - inversion 1; subst; simplify_eq/=; unfold check_access.
    + assert (g0 = g) as -> by congruence. rewrite (proj2 (no_wrap_spec _ _ Hl Hs)) by done.
      by rewrite H3, H2, (proj2 (bad_grantee_false _ _ _) H4), (proj2 (bad_range_false _ _ _ Hoff Hbytes Hl)).
    + assert (g0 = g) as -> by congruence.
      rewrite H4, H2, H3. cbn [negb]. rewrite Z.eqb_refl. cbn [negb].
      by rewrite (proj2 (bad_grantee_false (magic_who_to g) grantee (direct_who_to g)) H5), (proj2 (bad_range_false _ _ _ Hoff Hbytes Hm)).
Qed.

Lemma verify_from_exact d granter grantee id addr owner :
  match verify_loop d k granter grantee id with
  | inl r => inl r
  | inr (g, granter, grantee) => check_access g granter grantee bytes mode off
  end = inr (addr, owner) ↔
  ∃ n, (n ≤ d)%nat ∧ permits k n granter grantee id (mk_access mode off bytes) addr owner.
Proof using Hfit Hoff Hbytes.
  revert granter grantee id. induction d as [|d IH]; intros granter grantee id; cbn [verify_loop].
  all: destruct (grant_entry k granter id) as [r|g] eqn:He;
    [split; [done|]; intros (n & _ & Hp); inversion Hp; congruence|].
  all: destruct (has (cp_flags g) CPF_INDIRECT) eqn:Hi.
  - split; [done|]. intros (n & Hn & Hp). inversion Hp; subst; [congruence|congruence|lia].
  - rewrite (check_access_exact granter grantee id g addr owner He Hi). split; [by exists 0%nat|].
    intros (n & Hn & Hp). by assert (n = 0%nat) as -> by lia.
  - destruct (bad_grantee _ _ _) eqn:Hg.
    + split; [done|]. intros (n & _ & Hp). inversion Hp as [| |? ? ? ? g' ? ? ? He' _ Hfor]; subst; [congruence..|].
      assert (g' = g) as -> by congruence. apply bad_grantee_false in Hfor. congruence.
    + rewrite IH. split.
      * intros (n & Hn & Hp). exists (S n). split; [lia|]. econstructor; [done|done|by apply bad_grantee_false|done].
      * intros (n & Hn & Hp). inversion Hp as [| |n' ? ? ? g' ? ? ? He' _ Hfor Hp']; subst; [congruence..|].
        assert (g' = g) as -> by congruence. exists n'. split; [lia|done].
  - rewrite (check_access_exact granter grantee id g addr owner He Hi). split.
    + intros Hp. exists 0%nat. split; [lia|done].
    + intros (n & Hn & Hp). inversion Hp; subst; [done|done|congruence].
Qed.
End exact.



(** What every permitted access has in common: some grant in the chain allows its mode, and it
    lies inside the memory that grant covers. *)
Lemma permits_within k n granter grantee id a addr owner :
  grants_fit k → 0 ≤ pa_off a → 0 ≤ pa_bytes a → permits k n granter grantee id a addr owner →
  ∃ holder i g, grant_entry k holder i = inr g ∧ isset (cp_flags g) (pa_mode a) = true ∧
    ((has (cp_flags g) CPF_DIRECT = true ∧ owner = holder ∧
      (pa_bytes a = 0 ∨ direct_start g ≤ addr ∧ addr + pa_bytes a ≤ direct_start g + direct_len g ≤ 2 ^ 32)) ∨
     (has (cp_flags g) CPF_MAGIC = true ∧ holder = VFS_PROC_NR ∧ owner = magic_who_from g ∧
      addr = u32 (magic_start g + pa_off a) ∧ pa_off a + pa_bytes a ≤ magic_len g)).
Proof.
  intros Hfit Ho Hb. induction 1 as [granter grantee id g a He Hi Hd Hm Hg Hw Hz Hr|grantee id g a He Hi Hd Hmg Hm Hg Hr|]; [| |eauto].
  - exists granter, id, g. split; [done|]. split; [done|]. left. split; [done|]. split; [done|].
    destruct (grant_entry_fits _ _ _ _ Hfit He) as (Hs & Hl & _).
    destruct (decide (pa_bytes a = 0)); [by left|right]. rewrite u32_id by lia. lia.
  - exists VFS_PROC_NR, id, g. split; [done|]. split; [done|]. by right.
Qed.

Lemma verify_loop_error d k granter grantee id r :
  verify_loop d k granter grantee id = inl r → r ∈ [EINVAL; EPERM; ELOOP].
Proof.
  revert granter grantee id. induction d as [|d IH]; intros granter grantee id; cbn [verify_loop];
    destruct (grant_entry k granter id) as [r'|g] eqn:He; repeat case_match; try done;
    try (intros [= <-]; set_solver); [| |by apply IH].
  all: intros [= <-]; revert He; unfold grant_entry; repeat case_match; intros [= <-]; set_solver.
Qed.
Lemma verify_grant_error k granter grantee id bytes mode off r :
  verify_grant k granter grantee id bytes mode off = inl r → r ∈ [EINVAL; EPERM; ELOOP].
Proof.
  unfold verify_grant. destruct (verify_loop _ _ _ _ _) as [r'|[[g z] z0]] eqn:E.
  - intros [= ->]. by eapply verify_loop_error.
  - assert (check_access g z z0 bytes mode off = inl r → r = EPERM) as Hc.
    { unfold check_access. repeat case_match; intros [= <-]; reflexivity. }
    intros ->%Hc. set_solver.
Qed.

Lemma verify_addr k granter grantee id bytes mode off addr owner :
  verify_grant k granter grantee id bytes mode off = inr (addr, owner) → 0 ≤ addr < 2 ^ 32.
Proof. unfold verify_grant, check_access. repeat case_match; try done; intros [= <- _]; apply u32_range. Qed.
Lemma verify_error_negative k granter grantee id bytes mode off r :
  verify_grant k granter grantee id bytes mode off = inl r → r < 0.
Proof. intros H%verify_grant_error. set_unfold. unfold EINVAL, EPERM, ELOOP in *. lia. Qed.

Section gate.
Context (freepdes : list Z) (phys_copy : Z → Z → Z → K Z).

Lemma endpoint_lookup_run k e : endpoint_lookup e k = Ret (isokendpt k e, k).
Proof using Type.
  unfold endpoint_lookup, isokendpt_f, mbind, M_bind, gets. by destruct (isokendpt k e).
Qed.

(** [safecopy] refuses without touching anything, or copies what is permitted. *)
Lemma safecopy_spec k caller granter grantee id bytes off addr mode :
  grants_fit k → 0 ≤ off < 2 ^ 32 → 0 ≤ bytes < 2 ^ 32 → granter ≠ NONE → grantee ≠ NONE →
  (∃ r, r < 0 ∧ safecopy freepdes phys_copy caller granter grantee id bytes off addr mode k = Ret (r, k) ∧
     ∀ n a o, (n ≤ MAX_INDIRECT_DEPTH)%nat → ¬ permits k n granter grantee id (mk_access mode off bytes) a o) ∨
  (∃ n a o, (n ≤ MAX_INDIRECT_DEPTH)%nat ∧ permits k n granter grantee id (mk_access mode off bytes) a o ∧
     safecopy freepdes phys_copy caller granter grantee id bytes off addr mode k =
     if has mode CPF_READ then virtual_copy_vmcheck freepdes phys_copy caller o a grantee addr bytes k
     else virtual_copy_vmcheck freepdes phys_copy caller grantee addr o a bytes k).
Proof using Type.
  intros Hfit Ho Hb Hg1 Hg2. unfold safecopy.
  rewrite (proj2 (Z.eqb_neq _ _) Hg1), (proj2 (Z.eqb_neq _ _) Hg2). cbn [orb].
  rewrite (run_bind _ _ _ _ _ (endpoint_lookup_run k granter)).
  assert (Hentry : ∀ r, grant_entry k granter id = inl r →
    ∀ n a o, ¬ permits k n granter grantee id (mk_access mode off bytes) a o).
  { intros r Hr n a o Hp. inversion Hp; congruence. }
  destruct (isokendpt k granter) as [gp|] eqn:Hok.
  2: { left. exists EINVAL. split; [done|]. split; [done|]. intros n a o _. apply (Hentry EINVAL).
       unfold grant_entry. by rewrite Hok. }
  rewrite run_gets. destruct (HASGRANTTABLE k gp) eqn:Ht; cbn [negb].
  2: { left. exists EPERM. split; [done|]. split; [done|]. intros n a o _.
       destruct (GRANT_VALID id) eqn:Hv; [apply (Hentry EPERM)|apply (Hentry EINVAL)];
         unfold grant_entry; by rewrite Hok, Hv, ?Ht. }
  rewrite run_gets.
  pose proof (verify_from_exact k Hfit mode off bytes Ho Hb MAX_INDIRECT_DEPTH granter grantee id) as Hex.
  fold (verify_grant k granter grantee id bytes mode off) in Hex.
  destruct (verify_grant k granter grantee id bytes mode off) as [r|[a o]] eqn:Hvg.
  - left. exists r. split; [by eapply verify_error_negative|]. split; [done|]. intros n a o Hn Hp.
    destruct (Hex a o) as [_ Hx]. by specialize (Hx (ex_intro _ n (conj Hn Hp))).
  - right. destruct (Hex a o) as [Hx _]. destruct (Hx eq_refl) as (n & Hn & Hp). exists n, a, o.
    split; [done|]. split; [done|]. by destruct (has mode CPF_READ).
Qed.
End gate.

(** ** Properties *)


(** Process 20 granted process 0 to read 64 bytes at 0x8000 (grant 0), process 0 passed this on
    to process 8 (its grant 0). *)
Definition grant_demo : kstate :=
  upd_proc 8 (λ p, p <| p_rts_flags := RTS_RECEIVING |>)
    (ipc_demo <| privtab ::= λ t, upd (upd t 1 (t 1 <| s_grant_table := 0x100 |> <| s_grant_entries := 1 |>))
                                       0 (t 0 <| s_grant_table := 0x200 |> <| s_grant_entries := 1 |>) |>
              <| ugrant := λ n a,
                   if (n =? 20) && (a =? 0x100) then Some (mk_cp_grant 0x1301 0 0x8000 64 0)
                   else if (n =? 0) && (a =? 0x200) then Some (mk_cp_grant 0x1501 8 20 0 0) else None |>).
Lemma grant_demo_fits : grants_fit grant_demo.
Proof.
  intros n a g. cbn. destruct ((n =? 20) && (a =? 0x100)); [|destruct ((n =? 0) && (a =? 0x200))];
    [intros [= <-]; cbn; lia..|done].
Qed.




