(* ===== verification/System.v ===== *)
(** * The system task's core (kernel/system.c)

    Privileges ([get_priv], the send masks), the removal of a process from message passing
    ([clear_ipc], [clear_ipc_refs], [clear_endpoint]), dispatching, suspending and resuming
    kernel calls, and the delivery of a message to user memory ([delivermsg] of
    kernel/arch/i386/memory.c).  The table of handlers [call_vec] is a parameter: a handler gets
    the caller and the message and returns a result and the message as it left it. *)
From S2P Require Import Prelude LinkedList Kernel Endpoint Sched IpcInv Notify Async Ipc IpcRecv AsyncInv HMem WorkingSet HShared VirtCopy VmReq.

(** ** Privileges *)

Definition is_static_priv_id (id : Z) : bool := (0 <=? id) && (id <? NR_STATIC_PRIV_IDS).
Definition dyn_priv_ids : list Z := seqZ NR_STATIC_PRIV_IDS (NR_SYS_PROCS - NR_STATIC_PRIV_IDS).

(** The first free structure among [ids]. *)
Fixpoint free_priv (k : kstate) (ids : list Z) : option Z :=
  match ids with
  | [] => None
  | i :: ids' => if s_proc_nr (privtab k i) =? NONE then Some i else free_priv k ids'
  end.

Definition assign_priv (rc sp : Z) : K Z :=
  modify_proc rc (λ p, p <| p_priv := Some sp |>);;
  nr ← gets (λ k, p_nr (proctab k rc));
  modify_priv sp (λ s, s <| s_proc_nr := nr |>);;
  mret OK.

Definition get_priv (rc id : Z) : K Z :=
  if id =? NULL_PRIV_ID then
    sp ← gets (λ k, free_priv k dyn_priv_ids);
    match sp with
    | None => mret ENOSPC
    | Some sp => assign_priv rc sp
    end
  else if negb (is_static_priv_id id) then mret EINVAL
  else
    used ← gets (λ k, negb (s_proc_nr (privtab k id) =? NONE));
    if (used : bool) then mret EBUSY else assign_priv rc id.

(** [s_ipc_to] of a structure. *)
Definition modify_ipc_to (i : Z) (f : sys_map → sys_map) : K unit := modify_priv i (λ s, s <| s_ipc_to ::= f |>).

Definition set_sendto_bit (rp id : Z) : K unit :=
  nr ← gets (λ k, id_to_nr k id);
  rp_priv ← gets (λ k, priv_id k rp);
  rp_id ← gets (λ k, s_id (privtab k rp_priv));
  if (nr =? NONE) || (rp_id =? id) then modify_ipc_to rp_priv (unset_sys_bit id)
  else
    modify_ipc_to rp_priv (set_sys_bit id);;
    replies ← gets (λ k, has (s_trap_mask (privtab k id)) (Z.lnot (Z.shiftl 1 RECEIVE)));
    if (replies : bool) then modify_ipc_to id (set_sys_bit rp_id) else mret ().

Definition unset_sendto_bit (rp id : Z) : K unit :=
  rp_priv ← gets (λ k, priv_id k rp);
  rp_id ← gets (λ k, s_id (privtab k rp_priv));
  modify_ipc_to rp_priv (unset_sys_bit id);;
  modify_ipc_to id (unset_sys_bit rp_id).

Definition fill_sendto_mask (rp : Z) (map : sys_map) : K unit :=
  forM_ (seqZ 0 NR_SYS_PROCS) (λ i, if get_sys_bit map i then set_sendto_bit rp i else unset_sendto_bit rp i).

(** ** Taking a process out of message passing *)

Definition clear_ipc (rc : Z) : K unit :=
  snd ← gets (λ k, RTS_ISSET k rc RTS_SENDING);
  (if (snd : bool) then
     e ← gets (λ k, p_sendto_e (proctab k rc));
     target_proc ← okendpt e;
     found ← gets (λ k, pp_find BLOCKED_FUEL (q_link k) (p_caller_q (proctab k target_proc)) (λ y, bool_decide (y = rc)) CHead);
     match found with
     | None => panic "clear_ipc: caller queue does not end"
     | Some c =>
         on_queue ← gets (λ k, cell_read (q_link k) (p_caller_q (proctab k target_proc)) c);
         (match on_queue with
          | Some x => next ← gets (λ k, q_link k x); modify (write_caller_cell target_proc c next)
          | None => mret ()
          end);;
         RTS_UNSET rc RTS_SENDING
     end
   else mret ());;
  RTS_UNSET rc RTS_RECEIVING.

(** [while ((src_id = has_pending_asend(rc, ANY)) != NULL_PRIV_ID) cancel_async(...)]. *)
Fixpoint cancel_all (fuel : nat) (rc : Z) : K unit :=
  src_id ← gets (λ k, has_pending_asend k rc ANY);
  if src_id =? NULL_PRIV_ID then mret ()
  else
    match fuel with
    | O => panic "clear_ipc_refs does not end"
    | S fuel' =>
        nr ← gets (λ k, id_to_nr k src_id);
        cancel_async nr rc;;
        cancel_all fuel' rc
    end.
Definition CANCEL_FUEL : nat := 64.
Arguments CANCEL_FUEL : simpl never.

(** The body of the loop over the process table. *)
Definition clear_ref (rc caller_ret rp : Z) : K unit :=
  empty ← gets (λ k, isemptyp k rp);
  if (empty : bool) then mret ()
  else
    id ← gets (λ k, s_id (priv_of k rc));
    i ← gets (λ k, priv_id k rp);
    modify_priv i (λ s, s <| s_notify_pending ::= unset_sys_bit id |>);;
    modify_priv i (λ s, s <| s_asyn_pending ::= unset_sys_bit id |>);;
    depends ← gets (λ k, P_BLOCKEDON k rp =? p_endpoint (proctab k rc));
    if (depends : bool) then
      modify_proc rp (λ p, p <| p_reg ::= λ r, r <| retreg := caller_ret |> |>);;
      clear_ipc rp
    else mret ().

Definition clear_ipc_refs (rc caller_ret : Z) : K unit :=
  cancel_all CANCEL_FUEL rc;;
  forM_ proc_nrs (clear_ref rc caller_ret).

Definition clear_endpoint (rc : Z) : K unit :=
  empty ← gets (λ k, isemptyp k rc);
  if (empty : bool) then panic "clear_proc: empty process"
  else
    RTS_SET rc RTS_NO_ENDPOINT;;
    i ← gets (λ k, priv_id k rc);
    sys ← gets (λ k, has (s_flags (privtab k i)) SYS_PROC);
    (if (sys : bool) then modify_priv i (λ s, s <| s_asynsize := 0 |>) else mret ());;
    clear_ipc rc;;
    clear_ipc_refs rc EDEADSRCDST.

(** ** Kernel calls *)

Definition KERNEL_CALL : Z := 0x600.
Definition NR_SYS_CALLS : Z := 62.
Definition MF_CONTEXT_SET : Z := 0x4000.

(** [copy_msg_to_user] of the process whose address space is loaded: false on a fault. *)
Definition copy_msg_to_user (n a : Z) (m : message) : K bool :=
  w ← gets (λ k, uwr k n a);
  if (w : bool) then modify (λ k, k <| umsg ::= λ t, upd t n (upd (t n) a (Some m)) |>);; mret true
  else mret false.

Definition save_reqmsg (caller : Z) (f : message → message) : K unit :=
  modify_proc caller (λ p, p <| p_vmrequest ::= λ r, r <| reqmsg ::= f |> |>).

(** [kernel_call_finish(caller, msg, result)]; [saved] when [msg] is the message kept in
    [p_vmrequest], which then changes with it. *)
Definition kernel_call_finish (caller : Z) (msg : message) (saved : bool) (result : Z) : K unit :=
  if result =? VMSUSPEND then
    assert_ (λ k, RTS_ISSET k caller RTS_VMREQUEST) "RTS_ISSET(caller, RTS_VMREQUEST)";;
    assert_ (λ k, vmtype (p_vmrequest (proctab k caller)) =? VMSTYPE_KERNELCALL) "VMSTYPE_KERNELCALL";;
    save_reqmsg caller (λ _, msg);;
    modify_proc caller (λ p, p <| p_misc_flags ::= set_flag MF_KCALL_RESUME |>)
  else
    save_reqmsg caller (λ m, m <| m_source := NONE |>);;
    if negb (result =? EDONTREPLY) then
      let msg := msg <| m_source := SYSTEM |> <| m_type := result |> in
      (if saved then save_reqmsg caller (λ _, msg) else mret ());;
      a ← gets (λ k, p_delivermsg_vir (proctab k caller));
      ok ← copy_msg_to_user caller a msg;
      if (ok : bool) then mret ()
      else nr ← gets (λ k, p_nr (proctab k caller)); cause_sig nr SIGSEGV
    else mret ().

Section calls.
Context (call_vec : Z → option (Z → message → K (Z * message))).

Definition kernel_call_dispatch (caller : Z) (msg : message) : K (Z * message) :=
  let call_nr := i32 (m_type msg - KERNEL_CALL) in
  if (call_nr <? 0) || (NR_SYS_CALLS <=? call_nr) then mret (EBADREQUEST, msg)
  else
    allowed ← gets (λ k, get_sys_bit (s_k_call_mask (priv_of k caller)) call_nr);
    if negb allowed then mret (ECALLDENIED, msg)
    else
      match call_vec call_nr with
      | Some handler => handler caller msg
      | None => mret (EBADREQUEST, msg)
      end.

Definition kernel_call (m_user caller : Z) : K unit :=
  modify_proc caller (λ p, p <| p_delivermsg_vir := m_user |>);;
  unstable ← gets (λ k, h_unstable_state (kh k) =? H_UNSTABLE);
  if (unstable : bool) then mret ()
  else
    msg ← gets (λ k, umsg k caller m_user);
    match msg with
    | Some msg =>
        e ← gets (λ k, p_endpoint (proctab k caller));
        r ← kernel_call_dispatch caller (msg <| m_source := e |>);
        modify (λ k, k <| kbill_kcall := Some caller |>);;
        kernel_call_finish caller r.2 false r.1
    | None => nr ← gets (λ k, p_nr (proctab k caller)); cause_sig nr SIGSEGV
    end.

Definition kernel_call_resume (caller : Z) : K unit :=
  assert_ (λ k, negb (RTS_ISSET k caller RTS_SLOT_FREE)) "!RTS_ISSET(caller, RTS_SLOT_FREE)";;
  assert_ (λ k, negb (RTS_ISSET k caller RTS_VMREQUEST)) "!RTS_ISSET(caller, RTS_VMREQUEST)";;
  assert_ (λ k, m_source (reqmsg (p_vmrequest (proctab k caller))) =? p_endpoint (proctab k caller)) "reqmsg.m_source";;
  msg ← gets (λ k, reqmsg (p_vmrequest (proctab k caller)));
  r ← kernel_call_dispatch caller msg;
  save_reqmsg caller (λ _, r.2);;
  modify_proc caller (λ p, p <| p_misc_flags ::= clear_flag MF_KCALL_RESUME |>);;
  kernel_call_finish caller r.2 true r.1.
End calls.

(** [delivermsg(rp)]: the message a process received goes to its buffer. *)
Definition SIZEOF_MESSAGE : Z := 48.
Definition delivermsg (rp : Z) : K unit :=
  assert_ (λ k, delivering k rp) "MF_DELIVERMSG";;
  assert_ (λ k, negb (m_source (p_delivermsg (proctab k rp)) =? NONE)) "m_source != NONE";;
  a ← gets (λ k, p_delivermsg_vir (proctab k rp));
  m ← gets (λ k, p_delivermsg (proctab k rp));
  ok ← copy_msg_to_user rp a m;
  (if (ok : bool) then mret ()
   else nr ← gets (λ k, p_nr (proctab k rp)); cause_sig nr SIGSEGV);;
  modify_proc rp (λ p, p <| p_delivermsg ::= λ m, m <| m_source := NONE |> |>
                         <| p_misc_flags ::= clear_flag MF_DELIVERMSG |>);;
  keep ← gets (λ k, has (p_misc_flags (proctab k rp)) MF_CONTEXT_SET);
  (if (keep : bool) then mret ()
   else modify_proc rp (λ p, p <| p_reg ::= λ r, r <| retreg := if (ok : bool) then OK else EFAULT |> |>));;
  h ← gets (λ k, hardened k rp);
  if (h : bool) then add_hme_event rp a SIZEOF_MESSAGE;; mret () else mret ().
