(* ===== verification/SystemInv.v ===== *)
(** * What [clear_endpoint] of System.v guarantees

    When a process goes away, nobody may be left waiting for it.  The queues of senders stay
    well linked while processes are taken off them ([ipc_queues]: the invariant of message
    passing without the clause on the links of processes that do not send, which [clear_ipc]
    does not keep). *)
From S2P Require Import Prelude LinkedList Kernel Endpoint Sched IpcInv Notify Async Ipc IpcRecv AsyncInv HMem WorkingSet HShared VirtCopy VmReq System.

Record ipc_queues (k : kstate) (Q C : Z → list Z) : Prop := {
  iq_base : ipc_base k Q;
  iq_callers : ∀ d, valid_slot d → chain (q_link k) (p_caller_q (proctab k d)) (C d) None;
  iq_queued : ∀ d n, valid_slot d →
    n ∈ C d ↔ valid_slot n ∧ sending k n = true ∧ ENDPOINT_P (p_sendto_e (proctab k n)) = d;
  iq_sendto : ∀ n, valid_slot n → sending k n = true →
    isokendpt k (p_sendto_e (proctab k n)) = Some (ENDPOINT_P (p_sendto_e (proctab k n)));
}.

Lemma queues_ext k Q C C' : ipc_queues k Q C → (∀ d, valid_slot d → C d = C' d) → ipc_queues k Q C'.
Proof.
  intros [HB Hc Hq Ht] HC. split; [done| | |done].
  - intros d Hd. rewrite <-HC by done. by apply Hc.
  - intros d n Hd. rewrite <-HC by done. by apply Hq.
Qed.
Lemma ipc_inv_queues k Q C : ipc_inv k Q C → ipc_queues k Q C.
Proof. intros []. by split. Qed.

Lemma queues_step k k' Q C : ipc_queues k Q C → base_step k k' → ∃ Q', ipc_queues k' Q' C.
Proof.
  intros [HB Hc Hq Ht] [[Q' HB'] HP]. pose proof (pres_fields _ _ HP) as Hf. exists Q'. split; [done|..].
  - intros d Hd. destruct (Hf d) as (_ & _ & -> & _). eapply chain_ext; [|by apply Hc].
    intros n _. symmetry. apply Hf.
  - intros d n Hd. rewrite (ip_sending _ _ HP). destruct (Hf n) as (_ & _ & _ & _ & -> & _). by apply Hq.
  - intros n Hn. rewrite (ip_sending _ _ HP). destruct (Hf n) as (_ & _ & _ & _ & -> & _). intros H.
    eapply isokendpt_stable; [intros m; apply Hf| |by apply Ht].
    intros _. apply isemptyp_free. rewrite (ip_free _ _ HP). eapply isokendpt_not_free; [done|]. by apply Ht.
Qed.

Section queues.
Context (k : kstate) (Q C : Z → list Z) (HI : ipc_queues k Q C).

Lemma queues_disjoint d1 d2 n : valid_slot d1 → valid_slot d2 → n ∈ C d1 → n ∈ C d2 → d1 = d2.
Proof using HI.
  intros H1 H2 Hn1 Hn2. apply (iq_queued _ _ _ HI) in Hn1 as (_ & _ & <-); [|done].
  by apply (iq_queued _ _ _ HI) in Hn2 as (_ & _ & <-).
Qed.
Lemma queues_length d : valid_slot d → (length (C d) < BLOCKED_FUEL)%nat.
Proof using HI.
  intros Hd. assert (length (C d) ≤ length proc_nrs)%nat.
  { apply submseteq_length, NoDup_submseteq; [eapply chain_NoDup; by apply (iq_callers _ _ _ HI)|].
    intros n Hn. apply elem_of_proc_nrs. by apply (iq_queued _ _ _ HI) in Hn as (? & _). }
  unfold BLOCKED_FUEL. change (length proc_nrs) with 261%nat in *. lia.
Qed.
End queues.

(** The queues without a process. *)
Definition without (rc : Z) (C : Z → list Z) : Z → list Z := λ d, filter (λ n, n ≠ rc) (C d).

(** What [clear_ipc] does to the process table. *)
Record ipc_cleared (rc : Z) (k k' : kstate) : Prop := {
  ic_sending : ∀ n, sending k' n = if decide (n = rc) then false else sending k n;
  ic_receiving : ∀ n, receiving k' n = if decide (n = rc) then false else receiving k n;
  ic_free : ∀ n, slot_free k' n = slot_free k n;
  ic_noend : ∀ n, has (rts k' n) RTS_NO_ENDPOINT = has (rts k n) RTS_NO_ENDPOINT;
  ic_view : ∀ n, (p_endpoint (proctab k' n), p_sendto_e (proctab k' n), p_getfrom_e (proctab k' n),
    p_reg (proctab k' n), p_priv (proctab k' n)) = (p_endpoint (proctab k n), p_sendto_e (proctab k n),
    p_getfrom_e (proctab k n), p_reg (proctab k n), p_priv (proctab k n));
  ic_priv : privtab k' = privtab k;
}.

Lemma cell_read_after next h (l1 : list Z) m : chain next h l1 m → cell_read next h (cell_after CHead l1) = m.
Proof.
  intros Hc. unfold cell_after. destruct (last l1) as [y|] eqn:Hl; [exact (chain_last_end _ _ _ _ _ Hc Hl)|].
  by apply last_None in Hl as ->.
Qed.

(** Clearing a flag that has to do with waiting. *)
Lemma unset_wait_spec k Q rc f :
  ipc_base k Q → valid_slot rc → slot_free k rc = false →
  Z.land f RTS_SLOT_FREE = 0 → Z.land f RTS_NO_ENDPOINT = 0 →
  wp (RTS_UNSET rc f) (λ _ k', (∃ Q', ipc_base k' Q') ∧ sched_frame k k' ∧
    (∀ n g, Z.land RTS_PREEMPTED g = 0 →
       has (rts k' n) g = has (if decide (n = rc) then clear_flag f (rts k n) else rts k n) g)) k.
Proof.
  intros HB Hv Hf H1 H2. eapply wp_mono; [by apply (base_RTS_UNSET_any k Q)|].
  intros [] k' (HB' & Hfr & Hr). split; [done|]. split; [done|]. intros n g Hg.
  rewrite Hr, has_rts_unset by done. unfold rts_after_unset. by case_decide; subst.
Qed.

Definition waitview (p : proc) := (p_endpoint p, p_sendto_e p, p_getfrom_e p, p_reg p, p_priv p).

Section clear_ipc.
Context (k k3 : kstate) (Q Q3 C C' : Z → list Z) (rc : Z) (HI : ipc_queues k Q C) (HB : ipc_base k3 Q3).
Context (Hclear : ipc_cleared rc k k3) (HC : ∀ d, valid_slot d → C' d = without rc C d)
  (Hchain : ∀ d, valid_slot d → chain (q_link k3) (p_caller_q (proctab k3 d)) (C' d) None).

Lemma cleared_isok e p : isokendpt k e = Some p → isokendpt k3 e = Some p.
Proof using HI Hclear.
  intros He. eapply isokendpt_stable; [| |done].
  - intros n. pose proof (ic_view _ _ _ Hclear n) as E. congruence.
  - intros _. apply isemptyp_free. rewrite (ic_free _ _ _ Hclear).
    by eapply (isokendpt_not_free _ _ (iq_base _ _ _ HI)).
Qed.

Lemma cleared_queues : ipc_queues k3 Q3 C'.
Proof using All.
  assert (Hto : ∀ n, p_sendto_e (proctab k3 n) = p_sendto_e (proctab k n)).
  { intros n. pose proof (ic_view _ _ _ Hclear n). congruence. }
  split; [done|done| |].
  - intros d n Hd. rewrite HC by done. unfold without. rewrite list_elem_of_filter, (iq_queued _ _ _ HI d n Hd), Hto.
    rewrite (ic_sending _ _ _ Hclear). case_decide; naive_solver.
  - intros n Hn. rewrite (ic_sending _ _ _ Hclear), Hto. case_decide; [done|]. intros Hs.
    by apply cleared_isok, (iq_sendto _ _ _ HI).
Qed.
End clear_ipc.

(** The queue of senders of [t] without [rc], as [clear_ipc] links it. *)
Lemma unlink_sender_chain k Q C t rc l1 l2 d :
  ipc_queues k Q C → valid_slot t → valid_slot d → C t = l1 ++ rc :: l2 →
  let k' := write_caller_cell t (cell_after CHead l1) (q_link k rc) k in
  chain (q_link k') (p_caller_q (proctab k' d)) (without rc C d) None.
Proof.
  intros HI Ht Hd Hl. pose proof (iq_callers _ _ _ HI t Ht) as Hc. rewrite Hl in Hc.
  pose proof (chain_NoDup _ _ _ Hc) as Hnd.
  assert (without rc C d = if decide (d = t) then l1 ++ l2 else C d) as ->.
  { unfold without. case_decide; [subst; rewrite Hl; by apply filter_ne_split|]. apply filter_ne_id. intros Hin.
    apply H. eapply (queues_disjoint _ _ _ HI); [done|done|done|]. rewrite Hl. set_solver. }
  apply write_caller_chain; [apply HI| |done|done| |].
  - intros n Hn Hn'. by eapply (queues_disjoint _ _ _ HI).
  - intros x Hx. rewrite Hl. by apply owner_in.
  - by apply splice_remove.
Qed.

(** A queue is not disturbed by scheduling. *)
Lemma frame_chain k k' d l : sched_frame k k' →
  chain (q_link k) (p_caller_q (proctab k d)) l None → chain (q_link k') (p_caller_q (proctab k' d)) l None.
Proof.
  intros Hf Hc. rewrite (sched_frame_field p_caller_q _ _ d Hf) by done.
  eapply chain_ext; [|done]. intros x _. symmetry. by apply (sched_frame_field p_q_link _ _ x Hf).
Qed.

Lemma without_absent k Q C rc d : ipc_queues k Q C → valid_slot d → sending k rc = false → without rc C d = C d.
Proof.
  intros HI Hd Hs. apply filter_ne_id. intros Hin. apply (iq_queued _ _ _ HI) in Hin as (_ & ? & _); [congruence|done].
Qed.

(** The state after the part of [clear_ipc] that is only for senders. *)
Lemma clear_ipc_finish k k2 Q Q2 C rc :
  ipc_queues k Q C → valid_slot rc → slot_free k rc = false → ipc_base k2 Q2 →
  (∀ n, waitview (proctab k2 n) = waitview (proctab k n)) → privtab k2 = privtab k →
  (∀ n g, Z.land RTS_PREEMPTED g = 0 →
     has (rts k2 n) g = has (if decide (n = rc) then clear_flag RTS_SENDING (rts k n) else rts k n) g) →
  (∀ d, valid_slot d → chain (q_link k2) (p_caller_q (proctab k2 d)) (without rc C d) None) →
  wp (RTS_UNSET rc RTS_RECEIVING) (λ _ k', (∃ Q', ipc_queues k' Q' (without rc C)) ∧ ipc_cleared rc k k') k2.
Proof.
  intros HI Hv Hf HB2 Hview Hpriv Hr2 Hch.
  eapply wp_mono; [apply (unset_wait_spec k2 Q2); [done|done| |done|done]|].
  { unfold slot_free. rewrite Hr2, decide_True, has_clear_other by done. exact Hf. }
  intros [] k3 ([Q3 HB3] & Hfr & Hr3).
  assert (ipc_cleared rc k k3) as Hcl.
  { split.
    - intros n. unfold sending. rewrite Hr3 by done. case_decide as Hn; [|by rewrite Hr2, decide_False].
      rewrite has_clear_other, Hr2, decide_True by done. apply has_clear_self.
    - intros n. unfold receiving. rewrite Hr3 by done. case_decide as Hn; [apply has_clear_self|].
      by rewrite Hr2, decide_False.
    - intros n. unfold slot_free. rewrite Hr3 by done.
      case_decide as Hn; rewrite ?has_clear_other, Hr2 by done; case_decide; rewrite ?has_clear_other; done.
    - intros n. rewrite Hr3 by done.
      case_decide as Hn; rewrite ?has_clear_other, Hr2 by done; case_decide; rewrite ?has_clear_other; done.
    - intros n. pose proof (Hview n) as E. rewrite <-(sched_frame_field waitview _ _ n Hfr) in E by done. exact E.
    - by rewrite (sched_frame_state privtab _ _ Hfr). }
  split; [|done]. exists Q3. eapply cleared_queues; [done|done|done|done|].
  intros d Hd. eapply frame_chain; [done|by apply Hch].
Qed.

Lemma clear_ipc_spec k Q C rc :
  ipc_queues k Q C → valid_slot rc → slot_free k rc = false →
  wp (clear_ipc rc) (λ _ k', (∃ Q', ipc_queues k' Q' (without rc C)) ∧ ipc_cleared rc k k') k.
Proof.
  intros HI Hv Hf. pose proof (iq_base _ _ _ HI) as HB. unfold clear_ipc. wp_steps. rewrite isset_sending.
  destruct (sending k rc) eqn:Hs; wp_steps.
  - pose proof (iq_sendto _ _ _ HI rc Hv Hs) as Hok. set (t := ENDPOINT_P _) in Hok.
    pose proof Hok as (Ht & _)%isokendpt_Some.
    eapply okendpt_wp; [done|]. wp_steps.
    assert (rc ∈ C t) as (l1 & l2 & Hl)%list_elem_of_split by (by apply (iq_queued _ _ _ HI)).
    pose proof (iq_callers _ _ _ HI t Ht) as Hc. pose proof (queues_length _ _ _ HI t Ht) as Hlen. rewrite Hl in Hc, Hlen.
    rewrite (pp_find_elem _ _ _ _ _ _ Hc Hlen). wp_steps.
    pose proof Hc as (m & Hc1 & [-> _])%chain_app. rewrite (cell_read_after _ _ _ _ Hc1). wp_steps.
    set (k1 := write_caller_cell _ _ _ k).
    assert (Hr1 : ∀ n, rts k1 n = rts k n) by (intros n; apply rts_same, write_caller_same).
    eapply wp_mono; [apply (unset_wait_spec k1 Q); [by apply base_write_caller|done| |done|done]|].
    { unfold slot_free. by rewrite Hr1. }
    intros [] k2 ([Q2 HB2] & Hfr & Hr2). eapply (clear_ipc_finish k k2 Q Q2); [done|done|done|done| | | |].
    + intros n. rewrite (sched_frame_field waitview _ _ n Hfr) by done. by apply (write_caller_view waitview).
    + rewrite (sched_frame_state privtab _ _ Hfr) by done. unfold k1. by destruct (cell_after CHead l1).
    + intros n g Hg. rewrite Hr2 by done. by rewrite Hr1.
    + intros d Hd. eapply frame_chain; [done|]. by eapply unlink_sender_chain.
  - eapply (clear_ipc_finish k k Q Q); [done|done|done|done|done|done| |].
    + intros n g Hg. case_decide; [subst|done]. by rewrite clear_flag_absent.
    + intros d Hd. rewrite (without_absent k Q) by done. by apply HI.
Qed.


(** ** Cancelling the messages that are on their way to a process *)

(** What [mini_notify] leaves alone in privilege structures; what [cancel_async] does. *)
Definition bareview (s : priv) : Z * Z * Z := (s_flags s, s_id s, s_proc_nr s).
Definition asynview (s : priv) : Z * Z * Z * sys_map := (bareview s, s_asyn_pending s).

Lemma mini_notify_asyn k Q caller e :
  ipc_base k Q →
  wp (mini_notify caller e) (λ _ k', base_step k k' ∧ live_same k k' ∧
    ∀ i, asynview (privtab k' i) = asynview (privtab k i)) k.
Proof.
  intros HB. eapply wp_mono; [apply wp_and; [by eapply mini_notify_rest|by eapply mini_notify_spec]|].
  intros r k' [(Hst & _ & _ & _ & Hl) [_ Hpost]]. split; [done|]. split; [done|].
  destruct (isokendpt k e) as [d|]; [|by destruct Hpost as [_ ->]]. destruct Hpost as [_ Hpost].
  destruct (notify_ready k caller d).
  - destruct Hpost as [Hf _]. intros i. rewrite (sched_frame_state privtab _ _ Hf) by done.
    unfold notify_now. rewrite privtab_upd_priv. case_decide; [subst|done].
    unfold notify_taken. by repeat case_bool.
  - subst. intros i. unfold notify_later. rewrite privtab_upd_priv. by case_decide; subst.
Qed.

Lemma cancel_loop_frame src dst table_v idxs done do_notify k :
  wp (cancel_loop src dst table_v idxs done do_notify) (λ _ k', ∃ u, k' = k <| uasyn := u |>) k.
Proof.
  assert (∀ k, ∃ u, k = k <| uasyn := u |>) as Hrefl by (intros k'; exists (uasyn k'); by destruct k').
  revert k done do_notify. induction idxs as [|i idxs IH]; intros k done do_notify; simpl; [by wp_steps|].
  unfold A_RETR. wp_steps. destruct (uasyn k src _) as [t|]; [|by wp_steps].
  case_bool; [apply IH|]. case_bool; [apply IH|]. wp_steps. case_bool; [apply IH|].
  unfold A_INSRT. wp_steps. case_bool; wp_steps; [|by auto].
  eapply wp_mono; [apply IH|]. intros r k' [u ->]. by exists u.
Qed.

Lemma upd_priv_view {A} (f : priv → A) i g k j :
  (∀ s, f (g s) = f s) → f (privtab (upd_priv i g k) j) = f (privtab k j).
Proof. intros Hf. rewrite privtab_upd_priv. by case_decide; subst. Qed.

Definition asyn_cancelled (k k' : kstate) (src dst : Z) : Prop :=
  ∀ i, s_asyn_pending (privtab k' i) =
    if decide (i = priv_id k dst) then unset_sys_bit (s_id (priv_of k src)) (s_asyn_pending (privtab k i))
    else s_asyn_pending (privtab k i).

Lemma cancel_async_spec k Q src dst :
  ipc_base k Q → has (s_flags (priv_of k src)) SYS_PROC = true →
  wp (cancel_async src dst) (λ _ k', base_step k k' ∧ live_same k k' ∧
    (∀ i, bareview (privtab k' i) = bareview (privtab k i)) ∧ asyn_cancelled k k' src dst) k.
Proof.
  intros HB Hsys. unfold cancel_async, clear_asyntab, modify_priv. wp_steps. fold (priv_of k src). rewrite Hsys.
  cbn [negb]. wp_steps. set (k1 := upd_priv (priv_id k src) _ k).
  change (priv_id k1 dst) with (priv_id k dst). set (k2 := upd_priv (priv_id k dst) _ k1).
  assert (base_step k k2 ∧ ipc_base k2 Q) as [Hst2 HB2].
  { split; [|by do 2 apply base_privtab]. eapply base_step_trans; [by apply (base_step_privtab k Q)|].
    apply (base_step_privtab k1 Q). by apply base_privtab. }
  assert (live_same k k2) as Hl2 by (eapply live_same_trans; by apply live_same_upd_priv).
  assert (∀ i, bareview (privtab k2 i) = bareview (privtab k i)) as Hb2.
  { intros i. unfold k2, k1. by rewrite !(upd_priv_view bareview). }
  assert (asyn_cancelled k k2 src dst) as Hc2.
  { assert (∀ s (f : sys_map → sys_map), s_asyn_pending (s <| s_asyn_pending ::= f |>) = f (s_asyn_pending s)) as Hs by done.
    intros i. unfold k2. rewrite privtab_upd_priv.
    case_decide; [subst; rewrite Hs|]; unfold k1; by rewrite (upd_priv_view s_asyn_pending). }
  assert (∀ k', base_step k2 k' → live_same k2 k' → (∀ i, asynview (privtab k' i) = asynview (privtab k2 i)) →
    base_step k k' ∧ live_same k k' ∧ (∀ i, bareview (privtab k' i) = bareview (privtab k i)) ∧
    asyn_cancelled k k' src dst) as Hfin.
  { intros k' Hst Hl Hv. split; [by eapply base_step_trans|]. split; [by eapply live_same_trans|]. split.
    - intros i. rewrite <-Hb2. pose proof (Hv i) as E. unfold asynview in E. congruence.
    - intros i. rewrite <-Hc2. pose proof (Hv i) as E. unfold asynview in E. congruence. }
  assert (base_step k2 k2) as Hrefl by (by split; eauto).
  case_bool; wp_steps; [by apply Hfin|]. case_bool; wp_steps; [by apply Hfin|].
  eapply wp_mono; [apply cancel_loop_frame|]. intros res k3 [u ->].
  assert (base_step k2 (k2 <| uasyn := u |>) ∧ ipc_base (k2 <| uasyn := u |>) Q) as [Hst3 HB3].
  { split; [by apply (base_step_uasyn k2 Q (λ _, u))|by apply (base_uasyn k2 Q (λ _, u))]. }
  destruct res as [[done do_notify]|]; wp_steps; [|by apply Hfin].
  apply wp_mono with (Q := λ _ k4, base_step (k2 <| uasyn := u |>) k4 ∧ live_same (k2 <| uasyn := u |>) k4 ∧
    ∀ i, asynview (privtab k4 i) = asynview (privtab k2 i)).
  - destruct do_notify; wp_steps; [|by repeat split; eauto].
    eapply wp_mono; [by apply (mini_notify_asyn _ Q)|]. intros r k4 ?. by wp_steps.
  - intros [] k4 (Hst4 & Hl4 & Hv4). pose proof (base_step_trans _ _ _ Hst3 Hst4) as Hst24.
    assert (live_same k2 k4) by (eapply live_same_trans; [|done]; by split).
    destruct done; wp_steps; [by apply Hfin|]. apply Hfin.
    + eapply base_step_trans; [done|]. destruct Hst24 as [[Q4 HB4] _]. by apply (base_step_privtab k4 Q4).
    + eapply live_same_trans; [done|]. by apply live_same_upd_priv.
    + intros i. by rewrite (upd_priv_view asynview), Hv4.
Qed.

(** The senders of the asynchronous messages announced to [rc] are system processes whose
    privilege structure is the one that was announced. *)
Record announced_ok (k : kstate) (rc : Z) : Prop := {
  ao_map : map_wf (s_asyn_pending (priv_of k rc));
  ao_sender : ∀ id, 0 ≤ id < NR_SYS_PROCS → get_sys_bit (s_asyn_pending (priv_of k rc)) id = true →
    s_id (priv_of k (id_to_nr k id)) = id ∧ has (s_flags (priv_of k (id_to_nr k id))) SYS_PROC = true;
}.
Definition announced (k : kstate) (rc : Z) : list Z :=
  filter (λ id, get_sys_bit (s_asyn_pending (priv_of k rc)) id = true) (seqZ 0 NR_SYS_PROCS).

Lemma map_wf_unset m id : map_wf m → map_wf (unset_sys_bit id m).
Proof.
  intros Hm c. unfold unset_sys_bit, upd, get_sys_bits. case_decide; [subst|apply Hm].
  specialize (Hm (id / BITCHUNK_BITS)). set (x := m _) in *. unfold clear_flag.
  rewrite <-(Z.mod_small x (2 ^ 32)), <-Z.land_ones by lia.
  rewrite <-Z.land_assoc, (Z.land_comm (Z.ones 32)), Z.land_assoc, Z.land_ones by lia.
  apply Z.mod_pos_bound. lia.
Qed.
Lemma filter_ext_in {A} (P1 P2 : A → Prop) `{!∀ x, Decision (P1 x), !∀ x, Decision (P2 x)} (l : list A) :
  (∀ x, x ∈ l → P1 x ↔ P2 x) → filter P1 l = filter P2 l.
Proof.
  induction l as [|x l IH]; intros Hl; [done|]. rewrite !filter_cons.
  rewrite IH by (intros y Hy; apply Hl; set_solver). specialize (Hl x ltac:(set_solver)).
  do 2 case_decide; naive_solver.
Qed.

(** Cancelling one sender shortens the list. *)
Section cancel.
Context (k k' : kstate) (rc id : Z) (Hid : 0 ≤ id < NR_SYS_PROCS).
Context (HA : announced_ok k rc) (Hbit : get_sys_bit (s_asyn_pending (priv_of k rc)) id = true).
Context (Hl : live_same k k') (Hb : ∀ i, bareview (privtab k' i) = bareview (privtab k i)).
Context (Hc : asyn_cancelled k k' (id_to_nr k id) rc).

Lemma live_priv_id n : priv_id k' n = priv_id k n.
Proof using Hl.
  clear -Hl. unfold priv_id. pose proof (kp_view _ _ (ls_keeps _ _ Hl) n) as E. unfold keepview in E.
  by assert (p_priv (proctab k' n) = p_priv (proctab k n)) as -> by congruence.
Qed.
Lemma cancelled_map : s_asyn_pending (priv_of k' rc) = unset_sys_bit id (s_asyn_pending (priv_of k rc)).
Proof using HA Hbit Hc Hid Hl.
  unfold priv_of at 1. rewrite live_priv_id, Hc, decide_True by done.
  by destruct (ao_sender _ _ HA id Hid Hbit) as [-> _].
Qed.
Lemma cancelled_bit i : 0 ≤ i → get_sys_bit (s_asyn_pending (priv_of k' rc)) i = true ↔
  i ≠ id ∧ get_sys_bit (s_asyn_pending (priv_of k rc)) i = true.
Proof using HA Hbit Hc Hid Hl.
  intros Hi. rewrite cancelled_map, get_unset_sys_bit by lia. destruct (Z.eqb_spec id i); naive_solver.
Qed.
Lemma cancelled_ok : announced_ok k' rc.
Proof using All.
  split; [rewrite cancelled_map; apply map_wf_unset, HA|].
  intros i Hi [_ Hi']%cancelled_bit; [|lia].
  assert (id_to_nr k' i = id_to_nr k i) as ->.
  { unfold id_to_nr. pose proof (Hb i) as E. unfold bareview in E. congruence. }
  unfold priv_of. rewrite live_priv_id. pose proof (Hb (priv_id k (id_to_nr k i))) as E. unfold bareview in E.
  destruct (ao_sender _ _ HA i Hi Hi') as [H1 H2]. unfold priv_of in H1, H2. split; congruence.
Qed.
Lemma cancelled_shorter : (length (announced k' rc) < length (announced k rc))%nat.
Proof using HA Hbit Hc Hid Hl.
  assert (announced k' rc = filter (λ n, n ≠ id) (announced k rc)) as ->.
  { unfold announced. rewrite list_filter_filter. apply filter_ext_in.
    intros x Hx%elem_of_seqZ. apply cancelled_bit. lia. }
  assert (id ∈ announced k rc) as (l1 & l2 & E)%list_elem_of_split.
  { unfold announced. apply list_elem_of_filter. split; [done|]. apply elem_of_seqZ. lia. }
  assert (NoDup (announced k rc)) as Hnd by (apply NoDup_filter, NoDup_seqZ).
  rewrite E in *. rewrite filter_ne_split by done. rewrite !length_app. simpl. lia.
Qed.
End cancel.

Lemma cancel_all_spec fuel k Q rc :
  ipc_base k Q → announced_ok k rc → (length (announced k rc) ≤ fuel)%nat →
  wp (cancel_all fuel rc) (λ _ k', base_step k k' ∧ live_same k k' ∧
    (∀ i, bareview (privtab k' i) = bareview (privtab k i)) ∧
    ∀ id, 0 ≤ id < NR_SYS_PROCS → get_sys_bit (s_asyn_pending (priv_of k' rc)) id = false) k.
Proof.
  revert k Q. induction fuel as [|fuel IH]; intros k Q HB HA Hlen; simpl; wp_steps.
  all: pose proof (has_pending_first k _ (ao_map _ _ HA)) as [Hne Heq];
    fold (has_pending_asend k rc ANY) in Hne, Heq; set (id := has_pending_asend k rc ANY) in *.
  all: destruct (Z.eqb_spec id NULL_PRIV_ID) as [E|E];
    [wp_steps; split; [by split; eauto|]; split; [done|]; split; [done|by apply Heq]|].
  all: destruct (Hne E) as (Hid & Hbit & _).
  - exfalso. assert (id ∈ announced k rc) as Hin; [|destruct (announced k rc); [set_solver|simpl in Hlen; lia]].
    apply list_elem_of_filter. split; [done|]. apply elem_of_seqZ. lia.
  - wp_steps. destruct (ao_sender _ _ HA id Hid Hbit) as [_ Hsys].
    eapply wp_mono; [by apply (cancel_async_spec k Q)|]. intros r k1 (Hst & Hl & Hb & Hc).
    pose proof (cancelled_shorter k k1 rc id Hid HA Hbit Hl Hc). destruct Hst as [[Q1 HB1] HP].
    eapply wp_mono; [apply (IH k1 Q1); [done|by eapply cancelled_ok|lia]|].
    intros [] k2 (Hst2 & Hl2 & Hb2 & Hnone). split; [|split; [by eapply live_same_trans|split; [|done]]].
    + eapply base_step_trans; [|done]. split; [by exists Q1|done].
    + intros i. by rewrite Hb2.
Qed.


(** ** Releasing those who wait *)

Section refs.
Context (k0 : kstate) (C : Z → list Z) (rc ret : Z).

(** [n] waits for [rc]. *)
Definition waits (n : Z) : bool := negb (slot_free k0 n) && (P_BLOCKEDON k0 n =? p_endpoint (proctab k0 rc)).
Definition released (l : list Z) (n : Z) : bool := bool_decide (n ∈ l) && waits n.
Definition refview (p : proc) := (p_endpoint p, p_sendto_e p, p_getfrom_e p, p_priv p).

(** The state after the loop has been through the slots in [l]. *)
Record refs_cleared (l : list Z) (k : kstate) : Prop := {
  rf_queues : ∃ Q, ipc_queues k Q (λ d, filter (λ n, released l n = false) (C d));
  rf_sending : ∀ n, sending k n = negb (released l n) && sending k0 n;
  rf_receiving : ∀ n, receiving k n = negb (released l n) && receiving k0 n;
  rf_ret : ∀ n, p_reg (proctab k n) =
    if released l n then p_reg (proctab k0 n) <| retreg := ret |> else p_reg (proctab k0 n);
  rf_view : ∀ n, refview (proctab k n) = refview (proctab k0 n);
  rf_free : ∀ n, slot_free k n = slot_free k0 n;
  rf_noend : ∀ n, has (rts k n) RTS_NO_ENDPOINT = has (rts k0 n) RTS_NO_ENDPOINT;
  rf_ids : ∀ i, s_id (privtab k i) = s_id (privtab k0 i);
  rf_bits : ∀ n, n ∈ l → slot_free k0 n = false →
    get_sys_bit (s_notify_pending (priv_of k n)) (s_id (priv_of k0 rc)) = false ∧
    get_sys_bit (s_asyn_pending (priv_of k n)) (s_id (priv_of k0 rc)) = false;
}.

Lemma released_cons l x n : released (x :: l) n = (bool_decide (n = x) && waits n) || released l n.
Proof using Type.
  unfold released. destruct (waits n); rewrite ?andb_false_r, ?andb_true_r; [|done].
  destruct (decide (n = x)) as [->|Hn].
  - by rewrite !bool_decide_true by (by (left || done)).
  - rewrite (bool_decide_false (n = x)) by done. simpl. apply bool_decide_ext. rewrite elem_of_cons.
    split; [by intros [?|?]|by right].
Qed.

Section step.
Context (l : list Z) (k : kstate) (HR : refs_cleared l k) (Hid : 0 ≤ s_id (priv_of k0 rc)).

Lemma refs_priv_id n : priv_id k n = priv_id k0 n.
Proof using HR.
  unfold priv_id. pose proof (rf_view _ _ HR n) as E. unfold refview in E.
  by assert (p_priv (proctab k n) = p_priv (proctab k0 n)) as -> by congruence.
Qed.
Lemma refs_id : s_id (priv_of k rc) = s_id (priv_of k0 rc).
Proof using HR. unfold priv_of. by rewrite refs_priv_id, (rf_ids _ _ HR). Qed.

(** A process that is not yet done waits for whom it waited for. *)
Lemma refs_blocked n : released l n = false → P_BLOCKEDON k n = P_BLOCKEDON k0 n.
Proof using HR.
  intros Hn. rewrite !P_BLOCKEDON_eq, (rf_sending _ _ HR), (rf_receiving _ _ HR), Hn. simpl.
  pose proof (rf_view _ _ HR n) as E. unfold refview in E.
  assert (p_sendto_e (proctab k n) = p_sendto_e (proctab k0 n) ∧ p_getfrom_e (proctab k n) = p_getfrom_e (proctab k0 n)) as [-> ->] by (split; congruence).
  done.
Qed.

(** The slots of a free process, or of one that does not wait, need no work. *)
Lemma refs_skip rp :
  waits rp = false →
  (slot_free k0 rp = false → get_sys_bit (s_notify_pending (priv_of k rp)) (s_id (priv_of k0 rc)) = false ∧
    get_sys_bit (s_asyn_pending (priv_of k rp)) (s_id (priv_of k0 rc)) = false) →
  refs_cleared (rp :: l) k.
Proof using HR.
  intros Hw Hbits. assert (∀ n, released (rp :: l) n = released l n) as Hrel.
  { intros n. rewrite released_cons. destruct (decide (n = rp)) as [->|?]; [rewrite Hw|rewrite bool_decide_false by done];
      by rewrite ?andb_false_r. }
  destruct HR as [[Q HQ] ? ? ? ? ? ? ? Hb]. split; [|by intros n; rewrite Hrel..|done|done|done|done|].
  - exists Q. eapply queues_ext; [done|]. intros d _. apply filter_ext_in. intros n _. by rewrite Hrel.
  - intros n [->|Hn]%elem_of_cons; [by apply Hbits|by apply Hb].
Qed.

(** The bits of [rc] are cleared in the maps of [rp]. *)
Definition bits_unset (rp : Z) : kstate :=
  upd_priv (priv_id k rp) (λ s, s <| s_asyn_pending ::= unset_sys_bit (s_id (priv_of k0 rc)) |>)
    (upd_priv (priv_id k rp) (λ s, s <| s_notify_pending ::= unset_sys_bit (s_id (priv_of k0 rc)) |>) k).

Lemma bits_unset_priv rp n :
  s_notify_pending (priv_of (bits_unset rp) n) =
    (if decide (priv_id k n = priv_id k rp) then unset_sys_bit (s_id (priv_of k0 rc)) (s_notify_pending (priv_of k n))
     else s_notify_pending (priv_of k n)) ∧
  s_asyn_pending (priv_of (bits_unset rp) n) =
    (if decide (priv_id k n = priv_id k rp) then unset_sys_bit (s_id (priv_of k0 rc)) (s_asyn_pending (priv_of k n))
     else s_asyn_pending (priv_of k n)).
Proof using Type.
  unfold bits_unset. rewrite priv_of_upd_priv. change (priv_id (upd_priv ?i ?f k) n) with (priv_id k n).
  case_decide as E.
  - rewrite privtab_upd_priv, decide_True by done. rewrite <-E. done.
  - by rewrite priv_of_upd_priv, decide_False.
Qed.

Lemma refs_bits_unset rp :
  refs_cleared l (bits_unset rp) ∧
  get_sys_bit (s_notify_pending (priv_of (bits_unset rp) rp)) (s_id (priv_of k0 rc)) = false ∧
  get_sys_bit (s_asyn_pending (priv_of (bits_unset rp) rp)) (s_id (priv_of k0 rc)) = false.
Proof using HR Hid.
  assert (∀ m, get_sys_bit (unset_sys_bit (s_id (priv_of k0 rc)) m) (s_id (priv_of k0 rc)) = false) as Hu.
  { intros m. by rewrite get_unset_sys_bit, Z.eqb_refl. }
  split; [|destruct (bits_unset_priv rp rp) as [-> ->]; by rewrite !decide_True].
  destruct HR as [[Q HQ] ? ? ? ? ? ? Hi Hb]. split; [|done..| |].
  - eapply queues_step; [done|]. unfold bits_unset. eapply base_step_trans; [eapply base_step_privtab, HQ|].
    eapply base_step_privtab, base_privtab, HQ.
  - intros i. unfold bits_unset. rewrite !(upd_priv_view s_id) by done. apply Hi.
  - intros n Hn Hf. destruct (Hb n Hn Hf) as [H1 H2]. destruct (bits_unset_priv rp n) as [-> ->].
    case_decide; [by rewrite !Hu|done].
Qed.

(** A process that waits is released. *)
Lemma refs_release rp k2 k3 Q2 :
  valid_slot rp → rp ∉ l → waits rp = true →
  k2 = upd_proc rp (λ p, p <| p_reg ::= λ r, r <| retreg := ret |> |>) k →
  ipc_queues k3 Q2 (without rp (λ d, filter (λ n, released l n = false) (C d))) → ipc_cleared rp k2 k3 →
  get_sys_bit (s_notify_pending (priv_of k rp)) (s_id (priv_of k0 rc)) = false →
  get_sys_bit (s_asyn_pending (priv_of k rp)) (s_id (priv_of k0 rc)) = false →
  refs_cleared (rp :: l) k3.
Proof using HR.
  intros Hv Hl Hw -> HQ [Hs Hr Hf Hne Hvw Hpt] Hb1 Hb2.
  assert (Hrel : ∀ n, released (rp :: l) n = bool_decide (n = rp) || released l n).
  { intros n. rewrite released_cons. destruct (decide (n = rp)) as [->|?]; [by rewrite Hw, andb_true_r|by rewrite !bool_decide_false]. }
  assert (Hrp : released l rp = false) by (unfold released; by rewrite bool_decide_false).
  assert (Hfield : ∀ {A} (f : proc → A) n, (∀ p r, f (p <| p_reg := r |>) = f p) →
    f (proctab (upd_proc rp (λ p, p <| p_reg ::= λ r, r <| retreg := ret |> |>) k) n) = f (proctab k n)).
  { intros A f n Hfp. rewrite proctab_upd_proc. case_decide; [subst; apply (Hfp (proctab k rp))|done]. }
  assert (Hpid : ∀ n, priv_id k3 n = priv_id k n).
  { intros n. unfold priv_id. assert (p_priv (proctab k3 n) = p_priv (proctab k n)) as ->; [|done].
    etrans; [exact (f_equal snd (Hvw n))|]. by apply (Hfield _ p_priv). }
  split.
  - exists Q2. eapply queues_ext; [done|]. intros d _. unfold without. rewrite list_filter_filter.
    apply filter_ext_in. intros n _. rewrite Hrel, orb_false_iff, bool_decide_eq_false. done.
  - intros n. rewrite Hs, Hrel. unfold sending. rewrite rts_upd_same by done. fold (sending k n).
    rewrite (rf_sending _ _ HR). case_decide; [subst; by rewrite bool_decide_true|by rewrite bool_decide_false].
  - intros n. rewrite Hr, Hrel. unfold receiving. rewrite rts_upd_same by done. fold (receiving k n).
    rewrite (rf_receiving _ _ HR). case_decide; [subst; by rewrite bool_decide_true|by rewrite bool_decide_false].
  - intros n. etrans; [exact (f_equal (λ x, x.1.2) (Hvw n))|]. cbv beta. cbn [fst snd].
    rewrite proctab_upd_proc, Hrel. case_decide; [subst; rewrite bool_decide_true by done; simpl|rewrite bool_decide_false by done].
    + by rewrite (rf_ret _ _ HR), Hrp.
    + apply (rf_ret _ _ HR).
  - intros n. rewrite <-(rf_view _ _ HR). etrans; [|by apply (Hfield _ refview)].
    exact (f_equal (λ x, (x.1.1.1.1, x.1.1.1.2, x.1.1.2, x.2)) (Hvw n)).
  - intros n. rewrite Hf. unfold slot_free. rewrite rts_upd_same by done. apply (rf_free _ _ HR).
  - intros n. rewrite Hne, rts_upd_same by done. apply (rf_noend _ _ HR).
  - intros i. rewrite Hpt. apply (rf_ids _ _ HR).
  - intros n Hn Hfn. unfold priv_of at 1 3. rewrite Hpid, Hpt. fold (priv_of k n).
    apply elem_of_cons in Hn as [->|Hn]; [done|by apply (rf_bits _ _ HR)].
Qed.
End step.

Lemma clear_ref_spec l k rp :
  refs_cleared l k → 0 ≤ s_id (priv_of k0 rc) → valid_slot rp → rp ∉ l →
  wp (clear_ref rc ret rp) (λ _ k', refs_cleared (rp :: l) k') k.
Proof using Type.
  intros HR Hid Hv Hl. unfold clear_ref. wp_steps. pose proof (rf_queues _ _ HR) as [Q HQ].
  destruct (isemptyp k rp) eqn:He.
  - wp_steps. assert (slot_free k0 rp = true) as Hf.
    { rewrite <-(rf_free _ _ HR). unfold isemptyp in He. apply Z.eqb_eq in He. unfold slot_free, rts. by rewrite He. }
    apply refs_skip; [done|unfold waits; by rewrite Hf|congruence].
  - assert (slot_free k rp = false) as Hf by (by eapply in_use_free; [apply HQ|..]).
    unfold modify_priv. wp_steps. rewrite (refs_id l k HR).
    change (priv_id (upd_priv ?i ?f k) rp) with (priv_id k rp). fold (bits_unset k rp).
    destruct (refs_bits_unset l k HR Hid rp) as (HR1 & Hb1 & Hb2). set (k1 := bits_unset k rp) in *.
    assert (released l rp = false) as Hrp by (unfold released; by rewrite bool_decide_false).
    rewrite (refs_blocked l k1 HR1 rp Hrp).
    assert (p_endpoint (proctab k1 rc) = p_endpoint (proctab k0 rc)) as ->.
    { pose proof (rf_view _ _ HR1 rc) as E. unfold refview in E. congruence. }
    assert (waits rp = (P_BLOCKEDON k0 rp =? p_endpoint (proctab k0 rc))) as Hw.
    { unfold waits. rewrite <-(rf_free _ _ HR), Hf. done. }
    rewrite <-Hw. destruct (waits rp) eqn:Hwr; [|wp_steps; by apply refs_skip].
    unfold modify_proc. wp_steps. set (k2 := upd_proc rp _ k1).
    destruct (rf_queues _ _ HR1) as [Q1 HQ1].
    destruct (queues_step k1 k2 Q1 _ HQ1) as [Q2 HQ2].
    { eapply base_step_upd_proc; [done|done|done|apply HQ1]. }
    eapply wp_mono; [apply (clear_ipc_spec k2 Q2 _ rp HQ2 Hv)|].
    { unfold slot_free, k2. rewrite rts_upd_same by done. exact Hf. }
    intros [] k3 [[Q3 HQ3] Hcl]. by eapply (refs_release l k1 HR1 rp k2 k3).
Qed.

Lemma clear_refs_loop todo l k :
  refs_cleared l k → 0 ≤ s_id (priv_of k0 rc) → NoDup todo → (∀ n, n ∈ todo → valid_slot n ∧ n ∉ l) →
  wp (forM_ todo (clear_ref rc ret)) (λ _ k', ∃ l', (∀ n, n ∈ l' ↔ n ∈ todo ∨ n ∈ l) ∧ refs_cleared l' k') k.
Proof using Type.
  intros HR Hid. revert l k HR. induction todo as [|x todo IH]; intros l k HR Hnd Hval; simpl.
  - wp_steps. exists l. split; [set_solver|done].
  - apply NoDup_cons in Hnd as [Hx Hnd]. destruct (Hval x) as [Hvx Hxl]; [by left|].
    apply wp_bind. eapply wp_mono; [by apply (clear_ref_spec l)|]. intros [] k1 HR1.
    eapply wp_mono; [apply (IH (x :: l) k1); [done|done|]|].
    + intros n Hn. destruct (Hval n) as [? ?]; [by right|]. split; [done|]. apply not_elem_of_cons. split; [congruence|done].
    + intros [] k2 (l' & Hl' & HR2). exists l'. split; [|done]. intros n. rewrite Hl', !elem_of_cons. tauto.
Qed.

(** Before the loop. *)
Lemma refs_cleared_nil Q : ipc_queues k0 Q C → refs_cleared [] k0.
Proof using Type.
  intros HQ. assert (∀ n, released [] n = false) as Hrel by done.
  split; try done; [|by intros n ?%not_elem_of_nil].
  exists Q. eapply queues_ext; [done|]. intros d _. symmetry. induction (C d) as [|x lx IH]; [done|].
  rewrite filter_cons_True by done. by rewrite IH.
Qed.
End refs.


Lemma announced_ok_ext k k' rc :
  announced_ok k rc → (∀ n, p_priv (proctab k' n) = p_priv (proctab k n)) →
  (∀ i, asynview (privtab k' i) = asynview (privtab k i)) → announced_ok k' rc.
Proof.
  intros [Hm Hs] Hp Hv.
  assert (∀ n, asynview (priv_of k' n) = asynview (priv_of k n)) as Hpo.
  { intros n. unfold priv_of, priv_id. by rewrite Hp. }
  assert (∀ i, id_to_nr k' i = id_to_nr k i) as Hnr.
  { intros i. exact (f_equal (λ x, x.1.2) (Hv i)). }
  pose proof (f_equal (λ x, x.2) (Hpo rc)) as Hmap. cbn in Hmap. split.
  - by rewrite Hmap.
  - intros id Hid. rewrite Hmap. intros H. destruct (Hs id Hid H) as [H1 H2].
    rewrite Hnr. rewrite <-H1 at 2. rewrite <-H2.
    split; [exact (f_equal (λ x, x.1.1.2) (Hpo _))|]. f_equal. exact (f_equal (λ x, x.1.1.1) (Hpo _)).
Qed.

Lemma NONE_not_slot : ¬ valid_slot (ENDPOINT_P NONE).
Proof. vm_compute. by intros [_ ?]. Qed.
Lemma endpoint_not_NONE k Q n : ipc_base k Q → valid_slot n → p_endpoint (proctab k n) ≠ NONE.
Proof. intros HB Hv E. apply NONE_not_slot. rewrite <-E. by rewrite (ib_endpt _ _ HB). Qed.

Lemma base_set_noend k Q rc :
  ipc_base k Q → slot_free k rc = false →
  wp (RTS_SET rc RTS_NO_ENDPOINT) (λ _ k', base_step k k' ∧ sched_frame k k' ∧
    has (rts k' rc) RTS_NO_ENDPOINT = true) k.
Proof.
  intros HB Hf. eapply wp_mono; [eapply base_RTS_SET; done|]. intros [] k' (Hst & Hfr & Hr).
  split; [done|]. split; [done|]. rewrite Hr. unfold rts_after_set. rewrite decide_True by done.
  by apply has_set_self.
Qed.

(** Everything [clear_endpoint] does before it looks at the other processes. *)
Lemma clear_prefix k Q C rc :
  ipc_queues k Q C → valid_slot rc → isemptyp k rc = false → announced_ok k rc →
  wp (RTS_SET rc RTS_NO_ENDPOINT;;
      i ← gets (λ k, priv_id k rc);
      sys ← gets (λ k, has (s_flags (privtab k i)) SYS_PROC);
      (if (sys : bool) then modify_priv i (λ s, s <| s_asynsize := 0 |>) else mret ());;
      clear_ipc rc;;
      cancel_all CANCEL_FUEL rc) (λ _ k', (∃ Q', ipc_queues k' Q' (without rc C)) ∧
    (∀ n, sending k' n = if decide (n = rc) then false else sending k n) ∧
    (∀ n, receiving k' n = true → n ≠ rc ∧ receiving k n = true) ∧
    (∀ n, slot_free k' n = slot_free k n) ∧ has (rts k' rc) RTS_NO_ENDPOINT = true ∧
    (∀ n, p_endpoint (proctab k' n) = p_endpoint (proctab k n) ∧ p_sendto_e (proctab k' n) = p_sendto_e (proctab k n) ∧
          p_getfrom_e (proctab k' n) = p_getfrom_e (proctab k n)) ∧
    s_id (priv_of k' rc) = s_id (priv_of k rc)) k.
Proof.
  intros HI Hv He HA. pose proof (iq_base _ _ _ HI) as HB. pose proof (in_use_free _ _ _ HB Hv He) as Hf.
  apply wp_bind. eapply wp_mono; [by apply (base_set_noend k Q)|]. intros [] k1 (Hst1 & Hfr1 & Hne1).
  wp_steps. eapply (wp_mono _ (λ _ k2, base_step k1 k2 ∧ proctab k2 = proctab k1 ∧
    ∀ i, asynview (privtab k2 i) = asynview (privtab k1 i))).
  { destruct Hst1 as [[Q1 HB1] _]. unfold modify_priv. case_bool; wp_steps.
    - split; [by apply (base_step_privtab k1 Q1)|]. split; [done|]. intros i. by apply (upd_priv_view asynview).
    - split; [by split; eauto|done]. }
  intros [] k2 (Hst2 & Hp2 & Hv2). pose proof (base_step_trans _ _ _ Hst1 Hst2) as Hst02.
  destruct (queues_step _ _ _ _ HI Hst02) as [Q2 HQ2]. pose proof Hst02 as [_ HP2].
  apply wp_bind. eapply wp_mono; [apply (clear_ipc_spec k2 Q2 C rc HQ2 Hv); by rewrite (ip_free _ _ HP2)|].
  intros [] k3 [[Q3 HQ3] Hcl].
  assert (Hpr3 : ∀ n, p_priv (proctab k3 n) = p_priv (proctab k n)).
  { intros n. etrans; [exact (f_equal snd (ic_view _ _ _ Hcl n))|]. cbn. rewrite Hp2.
    by apply (sched_frame_field p_priv _ _ n Hfr1). }
  assert (Has3 : ∀ i, asynview (privtab k3 i) = asynview (privtab k i)).
  { intros i. rewrite (ic_priv _ _ _ Hcl), Hv2. by rewrite (sched_frame_state privtab _ _ Hfr1). }
  eapply wp_mono; [apply (cancel_all_spec CANCEL_FUEL k3 Q3)|].
  { apply HQ3. }
  { by eapply announced_ok_ext. }
  { etrans; [apply length_filter|]. by vm_compute. }
  intros [] k4 (Hst4 & Hl4 & Hb4 & _). destruct (queues_step _ _ _ _ HQ3 Hst4) as [Q4 HQ4].
  pose proof Hst4 as [_ HP4]. split; [by exists Q4|].
  split; [intros n; rewrite (ip_sending _ _ HP4), (ic_sending _ _ _ Hcl); by rewrite (ip_sending _ _ HP2)|].
  split; [|split; [|split; [|split]]].
  - intros n Hn%(ip_recv _ _ HP4). rewrite (ic_receiving _ _ _ Hcl) in Hn. case_decide; [done|].
    split; [done|by apply (ip_recv _ _ HP2)].
  - intros n. by rewrite (ip_free _ _ HP4), (ic_free _ _ _ Hcl), (ip_free _ _ HP2).
  - rewrite (ls_noend _ _ Hl4), (ic_noend _ _ _ Hcl). unfold rts. rewrite Hp2. exact Hne1.
  - intros n. destruct (pres_fields _ _ HP4 n) as (_ & -> & _ & _ & -> & ->).
    destruct (pres_fields _ _ HP2 n) as (_ & <- & _ & _ & <- & <-). pose proof (ic_view _ _ _ Hcl n) as E.
    split_and!; [exact (f_equal (λ x, x.1.1.1.1) E)|exact (f_equal (λ x, x.1.1.1.2) E)|exact (f_equal (λ x, x.1.1.2) E)].
  - unfold priv_of, priv_id. pose proof (kp_view _ _ (ls_keeps _ _ Hl4) rc) as E.
    assert (p_priv (proctab k4 rc) = p_priv (proctab k rc)) as ->.
    { rewrite <-Hpr3. exact (f_equal (λ x, x.1.1.1) E). }
    etrans; [exact (f_equal (λ x, x.1.2) (Hb4 _))|]. exact (f_equal (λ x, x.1.1.2) (Has3 _)).
Qed.

(** ** Properties *)

(** Nobody waits for a process that has been cleared. *)
Definition nobody_waits (k : kstate) (rc : Z) : Prop :=
  p_caller_q (proctab k rc) = None ∧
  (∀ n, valid_slot n → isemptyp k n = false → P_BLOCKEDON k n ≠ p_endpoint (proctab k rc)) ∧
  ∀ n, valid_slot n → isemptyp k n = false →
    get_sys_bit (s_notify_pending (priv_of k n)) (s_id (priv_of k rc)) = false ∧
    get_sys_bit (s_asyn_pending (priv_of k n)) (s_id (priv_of k rc)) = false.

Lemma refs_cleared_nobody k0 C rc ret l k :
  refs_cleared k0 C rc ret l k → (∀ n, valid_slot n → n ∈ l) → (∃ Q, ipc_queues k0 Q C) → valid_slot rc →
  nobody_waits k rc.
Proof.
  intros HR Hall [Q0 HQ0] Hv. destruct (rf_queues _ _ _ _ _ _ HR) as [Q HQ].
  assert (Hep : ∀ n, p_endpoint (proctab k n) = p_endpoint (proctab k0 n)).
  { intros n. exact (f_equal (λ x, x.1.1.1) (rf_view _ _ _ _ _ _ HR n)). }
  assert (Hw : ∀ n, valid_slot n → isemptyp k n = false → P_BLOCKEDON k n ≠ p_endpoint (proctab k rc)).
  { intros n Hn He. rewrite Hep. destruct (waits k0 rc n) eqn:Hwn.
    - assert (released k0 rc l n = true) as Hrel.
      { unfold released. rewrite bool_decide_true by (by apply Hall). done. }
      rewrite P_BLOCKEDON_eq, (rf_sending _ _ _ _ _ _ HR), (rf_receiving _ _ _ _ _ _ HR), Hrel. simpl.
      intros E. symmetry in E. revert E. by eapply endpoint_not_NONE; [apply HQ0|].
    - rewrite (refs_blocked k0 C rc ret l k HR) by (unfold released; by rewrite Hwn, andb_false_r).
      unfold waits in Hwn. rewrite <-(rf_free _ _ _ _ _ _ HR), (in_use_free k Q n) in Hwn; [|apply HQ|done|done].
      simpl in Hwn. by apply Z.eqb_neq. }
  split; [|split; [exact Hw|]].
  - pose proof (iq_callers _ _ _ HQ rc Hv) as Hc. pose proof (iq_queued _ _ _ HQ rc) as Hq.
    cbv beta in Hc, Hq. set (L := filter _ (C rc)) in *. destruct L as [|x xs]; [exact Hc|].
    exfalso. destruct (proj1 (Hq x Hv) ltac:(by left)) as (Hx & Hs & Hto). apply (Hw x Hx).
    + apply isemptyp_free. destruct (slot_free k x) eqn:Hfx; [|done].
      apply (ib_free _ _ (iq_base _ _ _ HQ) x Hx) in Hfx. unfold sending in Hs. by rewrite Hfx in Hs.
    + rewrite P_BLOCKEDON_eq, Hs. pose proof (iq_sendto _ _ _ HQ x Hx Hs) as Hok. rewrite Hto in Hok.
      by apply isokendpt_Some in Hok as (_ & _ & -> & _).
  - intros n Hn He. rewrite (refs_id k0 C rc ret l k HR).
    apply (rf_bits _ _ _ _ _ _ HR n); [by apply Hall|].
    rewrite <-(rf_free _ _ _ _ _ _ HR). by eapply in_use_free; [apply HQ|..].
Qed.

(** Regroup the sequence of [clear_endpoint]. *)
Ltac peel H :=
  apply wp_bind_inv in H; apply wp_bind; eapply wp_mono; [exact H|];
  clear H; intros ? ? H; cbv beta in H |- *.

(** C23. When a process goes away nobody is left waiting for it: [clear_endpoint] of a process
    in use never panics (the loop that cancels announced asynchronous messages ends within its
    64 rounds) and leaves a state in which the process is marked RTS_NO_ENDPOINT and is itself
    neither sending nor receiving; its queue of senders is empty; no process waits for it;
    nobody has a notification or an asynchronous message from it pending; every process that
    was blocked sending to it is released, with EDEADSRCDST as the result of its call; and the
    queues of senders of all other processes are as before, without the process itself. *)
Theorem clear_endpoint_releases k Q C rc :
  ipc_inv k Q C → valid_slot rc → isemptyp k rc = false → announced_ok k rc → 0 ≤ s_id (priv_of k rc) →
  wp (clear_endpoint rc) (λ _ k',
    nobody_waits k' rc ∧
    has (rts k' rc) RTS_NO_ENDPOINT = true ∧ sending k' rc = false ∧ receiving k' rc = false ∧
    (∀ n, valid_slot n → n ≠ rc → sending k n = true → p_sendto_e (proctab k n) = p_endpoint (proctab k rc) →
       sending k' n = false ∧ receiving k' n = false ∧ retreg (p_reg (proctab k' n)) = EDEADSRCDST) ∧
    (∀ d, valid_slot d → d ≠ rc →
       chain (q_link k') (p_caller_q (proctab k' d)) (filter (λ n, n ≠ rc) (C d)) None)) k.
Proof.
  intros HI Hv He HA Hid. pose proof (ipc_inv_queues _ _ _ HI) as HQ. unfold clear_endpoint, clear_ipc_refs. wp_steps.
  rewrite He. pose proof (clear_prefix k Q C rc HQ Hv He HA) as H.
  do 5 peel H. apply wp_bind. eapply wp_mono; [exact H|]. clear H. intros [] k1.
  intros ([Q1 HQ1] & Hs & Hr & Hf & Hne & Hview & Hsid).
  eapply wp_mono; [apply (clear_refs_loop k1 (without rc C) rc EDEADSRCDST proc_nrs [] k1)|].
  { by eapply refs_cleared_nil. }
  { by rewrite Hsid. }
  { apply NoDup_seqZ. }
  { intros n Hn%elem_of_proc_nrs. split; [done|]. apply not_elem_of_nil. }
  intros [] k' (l' & Hl' & HR).
  assert (Hall : ∀ n, valid_slot n → n ∈ l') by (intros n Hn; apply Hl'; left; by apply elem_of_proc_nrs).
  split; [by eapply refs_cleared_nobody; [done|done|by eexists|]|].
  split; [by rewrite (rf_noend _ _ _ _ _ _ HR)|].
  split; [by rewrite (rf_sending _ _ _ _ _ _ HR), Hs, decide_True, andb_false_r|].
  split.
  { rewrite (rf_receiving _ _ _ _ _ _ HR). destruct (receiving k1 rc) eqn:E; [|by rewrite andb_false_r].
    by destruct (Hr rc E). }
  split.
  - intros n Hn Hnr Hsn Hto.
    assert (released k1 rc l' n = true) as Hrel.
    { unfold released, waits. rewrite bool_decide_true by (by apply Hall). rewrite Hf.
      assert (slot_free k n = false) as ->.
      { destruct (slot_free k n) eqn:E; [|done]. apply (ib_free _ _ (ii_base _ _ _ HI) n Hn) in E.
        unfold sending in Hsn. by rewrite E in Hsn. }
      rewrite P_BLOCKEDON_eq, Hs, decide_False, Hsn by done. destruct (Hview n) as (_ & -> & _), (Hview rc) as (-> & _).
      by rewrite Hto, Z.eqb_refl. }
    rewrite (rf_sending _ _ _ _ _ _ HR), (rf_receiving _ _ _ _ _ _ HR), (rf_ret _ _ _ _ _ _ HR), Hrel. done.
  - intros d Hd Hdr. destruct (rf_queues _ _ _ _ _ _ HR) as [Q' HQ']. pose proof (iq_callers _ _ _ HQ' d Hd) as Hc.
    cbv beta in Hc. replace (filter (λ n, n ≠ rc) (C d)) with (filter (λ n, released k1 rc l' n = false) (without rc C d)); [done|].
    unfold without. rewrite list_filter_filter. apply filter_ext_in. intros n Hin. split; [tauto|]. intros Hnr. split; [|done].
    apply (iq_queued _ _ _ HQ d n Hd) in Hin as (Hn & Hsn & Hto).
    unfold released, waits. rewrite P_BLOCKEDON_eq, Hs, decide_False, Hsn by done.
    destruct (Hview n) as (_ & -> & _), (Hview rc) as (-> & _).
    rewrite (proj2 (Z.eqb_neq _ _)); [by rewrite !andb_false_r|]. intros E.
    rewrite E, (ib_endpt _ _ (ii_base _ _ _ HI)) in Hto by done. congruence.
Qed.


Lemma ipc_demo_announced n : announced_ok ipc_demo n.
Proof.
  assert (s_asyn_pending (priv_of ipc_demo n) = map0) as E.
  { unfold priv_of. generalize (priv_id ipc_demo n). intros i. unfold ipc_demo. simpl. unfold upd. by repeat case_decide. }
  split; rewrite E; [by intros c|done].
Qed.

Lemma clear_endpoint_releases_witness :
  wp (clear_endpoint 20) (λ _ k', nobody_waits k' 20 ∧ has (rts k' 20) RTS_NO_ENDPOINT = true) ipc_demo.
Proof.
  eapply wp_mono.
  - by apply (clear_endpoint_releases ipc_demo _ _ 20 ipc_demo_inv); [..|apply ipc_demo_announced|].
  - intros [] k' (? & ? & _). done.
Defined.

(** Processes 20, 21 and 22 have used up their time. *)
Definition exit_demo : kstate :=
  ipc_demo <| proctab ::= λ t, upd (upd t 21 (proc0 21 <| p_rts_flags := RTS_NO_QUANTUM |> <| p_priv := Some 1 |>))
                                        22 (proc0 22 <| p_rts_flags := RTS_NO_QUANTUM |> <| p_priv := Some 1 |>) |>.

(** A process can outlive its position in a queue: [clear_ipc] does not reset [p_q_link] of
    a process that it takes off a queue.  From a state that satisfies the invariant: 20, 21 and
    22 get time to run, 21 and then 22 send to 20 and block, 20 exits, which releases both;
    21 still holds a link to 22, and its next message that cannot be delivered at once fails
    the assertion [p_q_link == NULL] of [mini_send]: the kernel panics. *)
Theorem exit_leaves_stale_link :
  ipc_inv exit_demo (λ _, []) (λ _, []) ∧
  (RTS_UNSET 20 RTS_NO_QUANTUM;; RTS_UNSET 21 RTS_NO_QUANTUM;; RTS_UNSET 22 RTS_NO_QUANTUM;;
   mini_send 21 20 (KernMsg msg0) FROM_KERNEL;;
   mini_send 22 20 (KernMsg msg0) FROM_KERNEL;;
   clear_endpoint 20;;
   mini_send 21 22 (KernMsg msg0) FROM_KERNEL) exit_demo = Panic "mini_send: p_q_link == NULL".
Proof.
  split.
  - apply (ipc_inv_quiet_slots _ [SYSTEM; 0; 20; 21; 22; IDLE_PTR]); [done..|].
    intros n Hn. unfold exit_demo, ipc_demo. simpl. rewrite !upd_ne by (intros ->; set_solver). done.
  - vm_compute. reflexivity.
Qed.

(** ** Send masks *)

(** Structure [i] may send to structure [j]. *)
Definition may_send (k : kstate) (i j : Z) : bool := get_sys_bit (s_ipc_to (privtab k i)) j.
Definition ids_wf (k : kstate) : Prop := ∀ i, 0 ≤ i < NR_SYS_PROCS → s_id (privtab k i) = i.
(** A process that uses traps other than RECEIVE can answer. *)
Definition can_reply (s : priv) : bool := has (s_trap_mask s) (Z.lnot (Z.shiftl 1 RECEIVE)).

Section masks.
Context (rp r : Z) (map : sys_map) (Hr : 0 ≤ r < NR_SYS_PROCS).

(** The mask that the caller asks for, less itself and structures nobody owns. *)
Definition wanted (k : kstate) (j : Z) : bool :=
  get_sys_bit map j && negb (s_proc_nr (privtab k j) =? NONE) && negb (j =? r).
(** Whether [j] may send to [r] afterwards. *)
Definition answers (k : kstate) (j : Z) : bool :=
  if get_sys_bit map j then
    if s_proc_nr (privtab k j) =? NONE then may_send k j r else can_reply (privtab k j) || may_send k j r
  else false.

Definition restview (s : priv) := (s_id s, s_proc_nr s, s_trap_mask s).
Definition masks_after (l : list Z) (k k' : kstate) : Prop :=
  proctab k' = proctab k ∧ (∀ i, restview (privtab k' i) = restview (privtab k i)) ∧
  ∀ i j, 0 ≤ j → may_send k' i j =
    if decide (i = r ∧ j ∈ l) then wanted k j
    else if decide (j = r ∧ i ∈ l ∧ i ≠ r) then answers k i
    else may_send k i j.

Lemma may_send_upd k i f a j :
  may_send (upd_priv i (λ s, s <| s_ipc_to ::= f |>) k) a j =
  if decide (a = i) then get_sys_bit (f (s_ipc_to (privtab k i))) j else may_send k a j.
Proof using Type. unfold may_send. rewrite privtab_upd_priv. by case_decide. Qed.

Definition mask_body (i : Z) : K unit := if get_sys_bit map i then set_sendto_bit rp i else unset_sendto_bit rp i.

Definition mask_stepped (i : Z) (k k' : kstate) : Prop :=
  proctab k' = proctab k ∧ (∀ a, restview (privtab k' a) = restview (privtab k a)) ∧
  ∀ a j, 0 ≤ j → may_send k' a j =
    if decide (a = r ∧ j = i) then wanted k i
    else if decide (a = i ∧ j = r ∧ i ≠ r) then answers k i
    else may_send k a j.

Lemma mask_step k i :
  ids_wf k → priv_id k rp = r → 0 ≤ i < NR_SYS_PROCS → wp (mask_body i) (λ _ k', mask_stepped i k k') k.
Proof using Hr.
  intros Hids Hp Hi. unfold mask_body, set_sendto_bit, unset_sendto_bit, modify_ipc_to, modify_priv, id_to_nr.
  destruct (get_sys_bit map i) eqn:Hm; wp_steps; rewrite !Hp, ?(Hids r Hr).
  - destruct (Z.eqb_spec (s_proc_nr (privtab k i)) NONE) as [En|En]; [|destruct (Z.eqb_spec r i) as [Er|Er]]; cbn [orb].
    + wp_steps. split; [done|]. split; [intros a; by apply (upd_priv_view restview)|].
      intros a j Hj. rewrite may_send_upd. unfold wanted, answers. rewrite Hm, (proj2 (Z.eqb_eq _ _) En). cbn [andb negb].
      case_decide as Ha; [subst a; rewrite get_unset_sys_bit by lia|].
      * destruct (Z.eqb_spec i j) as [<-|]; [by rewrite decide_True|]. rewrite decide_False by naive_solver.
        case_decide; [|done]. naive_solver.
      * rewrite decide_False by naive_solver. case_decide as Hd; [|done]. by destruct Hd as (-> & -> & _).
    + destruct Er. wp_steps. split; [done|]. split; [intros a; by apply (upd_priv_view restview)|].
      intros a j Hj. rewrite may_send_upd. unfold wanted, answers. rewrite Z.eqb_refl, andb_false_r.
      rewrite (decide_False (P := a = r ∧ j = r ∧ r ≠ r)) by naive_solver.
      case_decide as Ha; [subst a; rewrite get_unset_sys_bit by lia|by rewrite decide_False by naive_solver].
      destruct (Z.eqb_spec r j) as [<-|]; [by rewrite decide_True|]. by rewrite decide_False by naive_solver.
    + wp_steps. set (k1 := upd_priv r _ k).
      assert (Hcan : has (s_trap_mask (privtab k1 i)) (Z.lnot (Z.shiftl 1 RECEIVE)) = can_reply (privtab k i)).
      { unfold can_reply, k1. by rewrite (upd_priv_view s_trap_mask). }
      rewrite Hcan.
      assert (Hk1 : ∀ a j, 0 ≤ j → may_send k1 a j = if decide (a = r ∧ j = i) then true else may_send k a j).
      { intros a j Hj. unfold k1. rewrite may_send_upd. case_decide as Ha; [subst a|by rewrite decide_False by naive_solver].
        rewrite get_set_sys_bit by lia. destruct (Z.eqb_spec i j) as [<-|]; [by rewrite decide_True|].
        by rewrite decide_False by naive_solver. }
      assert (Hwi : wanted k i = true).
      { unfold wanted. rewrite Hm, (proj2 (Z.eqb_neq _ _) En), (proj2 (Z.eqb_neq i r)) by congruence. done. }
      assert (Hai : answers k i = can_reply (privtab k i) || may_send k i r).
      { unfold answers. by rewrite Hm, (proj2 (Z.eqb_neq _ _) En). }
      destruct (can_reply (privtab k i)); wp_steps.
      * split; [done|]. split; [intros a; unfold k1; by rewrite !(upd_priv_view restview)|].
        intros a j Hj. rewrite may_send_upd, Hwi, Hai. case_decide as Ha; [subst a|].
        -- rewrite get_set_sys_bit by lia. fold (may_send k1 i j). rewrite Hk1 by done.
           rewrite !(decide_False (P := i = r ∧ _)) by naive_solver.
           destruct (Z.eqb_spec r j) as [<-|]; [by rewrite decide_True|]. by rewrite decide_False by naive_solver.
        -- rewrite Hk1 by done. case_decide; [done|]. by rewrite decide_False by naive_solver.
      * split; [done|]. split; [intros a; unfold k1; by rewrite !(upd_priv_view restview)|].
        intros a j Hj. rewrite Hk1, Hwi, Hai by done. case_decide; [done|]. case_decide as Hd; [|done].
        by destruct Hd as (-> & -> & _).
  - set (k1 := upd_priv r _ k). split; [done|]. split; [intros a; unfold k1; by rewrite !(upd_priv_view restview)|].
    assert (wanted k i = false ∧ answers k i = false) as [-> ->] by (unfold wanted, answers; by rewrite Hm).
    assert (Hk1 : ∀ a j, 0 ≤ j → may_send k1 a j = if decide (a = r ∧ j = i) then false else may_send k a j).
    { intros a j Hj. unfold k1. rewrite may_send_upd. case_decide as Ha; [subst a|by rewrite decide_False by naive_solver].
      rewrite get_unset_sys_bit by lia. destruct (Z.eqb_spec i j) as [<-|]; [by rewrite decide_True|].
      by rewrite decide_False by naive_solver. }
    intros a j Hj. rewrite may_send_upd. case_decide as Ha; [subst a|].
    + rewrite get_unset_sys_bit by lia. fold (may_send k1 i j). rewrite Hk1 by done.
      destruct (Z.eqb_spec r j) as [<-|]; cbn [negb andb].
      * destruct (decide (i = r)) as [->|]; [by rewrite decide_True|].
        by rewrite decide_False, decide_True by naive_solver.
      * case_decide; [done|]. by rewrite decide_False by naive_solver.
    + rewrite Hk1 by done. case_decide; [done|]. by rewrite decide_False by naive_solver.
Qed.

Lemma masks_loop l k :
  ids_wf k → priv_id k rp = r → (∀ i, i ∈ l → 0 ≤ i < NR_SYS_PROCS) → NoDup l →
  wp (forM_ l mask_body) (λ _ k', masks_after l k k') k.
Proof using Hr.
  revert k. induction l as [|i l IH]; intros k Hids Hp Hl Hnd; cbn [forM_].
  { wp_steps. split; [done|]. split; [done|]. intros a j Hj.
    rewrite decide_False by (intros [_ ?%not_elem_of_nil]; done).
    by rewrite decide_False by (intros (_ & ?%not_elem_of_nil & _); done). }
  apply NoDup_cons in Hnd as [Hil Hnd]. apply wp_bind.
  eapply wp_mono; [apply mask_step; [done|done|]; apply Hl; by left|]. intros [] k1 (Hp1 & Hr1 & Hm1).
  assert (Hs1 : ∀ a, s_id (privtab k1 a) = s_id (privtab k a) ∧ s_proc_nr (privtab k1 a) = s_proc_nr (privtab k a) ∧
    s_trap_mask (privtab k1 a) = s_trap_mask (privtab k a)).
  { intros a. pose proof (Hr1 a) as E. unfold restview in E. by simplify_eq. }
  eapply wp_mono; [apply (IH k1)|].
  { intros a Ha. destruct (Hs1 a) as (-> & _). by apply Hids. }
  { unfold priv_id. by rewrite Hp1. }
  { intros a Ha. apply Hl. by right. }
  { done. }
  intros [] k2 (Hp2 & Hr2 & Hm2). split; [by rewrite Hp2|]. split; [intros a; by rewrite Hr2|].
  intros a j Hj. rewrite Hm2 by done.
  assert (Hw1 : wanted k1 j = wanted k j) by (unfold wanted; by destruct (Hs1 j) as (_ & -> & _)).
  destruct (decide (a = r ∧ j ∈ l)) as [[-> Hjl]|Hn1].
  { rewrite Hw1. by rewrite decide_True by (split; [done|by right]). }
  destruct (decide (j = r ∧ a ∈ l ∧ a ≠ r)) as [(-> & Hal & Har)|Hn2].
  - rewrite (decide_False (P := a = r ∧ _)) by naive_solver. rewrite decide_True by (split_and!; [done|by right|done]).
    unfold answers, can_reply. destruct (Hs1 a) as (_ & -> & ->).
    assert (may_send k1 a r = may_send k a r) as ->; [|done]. rewrite Hm1 by done.
    rewrite decide_False by naive_solver. rewrite decide_False; [done|]. intros (-> & _). done.
  - rewrite Hm1 by done. destruct (decide (a = r ∧ j = i)) as [[-> ->]|Hn3].
    + by rewrite decide_True by (split; [done|by left]).
    + rewrite (decide_False (P := a = r ∧ j ∈ i :: l)) by (intros [-> [->|?]%elem_of_cons]; naive_solver).
      destruct (decide (a = i ∧ j = r ∧ i ≠ r)) as [(-> & -> & Hir)|Hn4].
      * by rewrite decide_True by (split_and!; [done|by left|done]).
      * rewrite decide_False; [done|]. intros (-> & [->|?]%elem_of_cons & ?); naive_solver.
Qed.
End masks.

(** [fill_sendto_mask] gives a process exactly the mask it was asked to give, and answers
    get through: afterwards the process (with privilege structure [r]) may send to [j] iff [j]
    is in the map, belongs to a process and is not [r] itself; if it may send to [j] and [j]
    uses traps other than RECEIVE, then [j] may send to it too; a [j] outside the map may not
    send to [r] any more; and no permission between other processes changes. *)
Theorem fill_sendto_mask_exact k rp r map :
  ids_wf k → priv_id k rp = r → 0 ≤ r < NR_SYS_PROCS →
  wp (fill_sendto_mask rp map) (λ _ k',
    (∀ j, 0 ≤ j < NR_SYS_PROCS → may_send k' r j = wanted r map k j) ∧
    (∀ j, 0 ≤ j < NR_SYS_PROCS → may_send k' r j = true → can_reply (privtab k j) = true → may_send k' j r = true) ∧
    (∀ j, 0 ≤ j < NR_SYS_PROCS → get_sys_bit map j = false → may_send k' j r = false) ∧
    (∀ i j, 0 ≤ j → i ≠ r → j ≠ r → may_send k' i j = may_send k i j)) k.
Proof.
  intros Hids Hp Hr. unfold fill_sendto_mask.
  eapply wp_mono; [apply (masks_loop rp r map Hr (seqZ 0 NR_SYS_PROCS) k Hids Hp); [|apply NoDup_seqZ]|].
  { intros i Hi%elem_of_seqZ. lia. }
  intros [] k' (_ & _ & Hm).
  assert (Hin : ∀ j, 0 ≤ j < NR_SYS_PROCS → j ∈ seqZ 0 NR_SYS_PROCS) by (intros j Hj; apply elem_of_seqZ; lia).
  assert (Hrj : ∀ j, 0 ≤ j < NR_SYS_PROCS → may_send k' r j = wanted r map k j).
  { intros j Hj. rewrite Hm by lia. by rewrite decide_True by auto. }
  split; [done|]. split; [|split].
  - intros j Hj. rewrite Hrj by done. unfold wanted. rewrite !andb_true_iff, !negb_true_iff. intros [[H1 H2] H3] Hc.
    apply Z.eqb_neq in H3. rewrite Hm by lia. rewrite decide_False by naive_solver.
    rewrite decide_True by auto. unfold answers. by rewrite H1, H2, Hc.
  - intros j Hj Hb. rewrite Hm by lia. destruct (decide (j = r)) as [->|Hjr].
    + rewrite decide_True by auto. unfold wanted. by rewrite Hb.
    + rewrite decide_False by naive_solver. rewrite decide_True by auto. unfold answers. by rewrite Hb.
  - intros i j Hj Hi Hjr. rewrite Hm by done. by rewrite !decide_False by naive_solver.
Qed.

Lemma fill_sendto_mask_exact_witness :
  wp (fill_sendto_mask 20 (set_sys_bit 0 (set_sys_bit 5 map0)))
    (λ _ k', may_send k' 1 0 = true ∧ may_send k' 1 5 = false ∧ may_send k' 2 1 = false) ipc_demo.
Proof.
  eapply wp_mono.
  - apply (fill_sendto_mask_exact ipc_demo 20 1 (set_sys_bit 0 (set_sys_bit 5 map0))); [|done|done].
    intros i Hi. unfold ipc_demo. simpl. unfold upd. repeat (case_decide; [by subst|]). done.
  - intros [] k' (Hw & _ & Hn & _). rewrite !Hw by done. rewrite (Hn 2) by done. done.
Defined.

