(* ===== verification/Irq.v ===== *)
(** * Interrupt lines

    kernel/interrupt.c, kernel/arch/i386/i8259.c and kernel/system/do_irqctl.c, for the
    configuration with the two legacy interrupt controllers ([USE_APIC] undefined).

    Every line has a list of hooks; a hook has an identifier, one bit of the word
    [irq_actids[irq]] that tells which hooks are still busy with an interrupt.  A driver asks
    for a hook with [do_irqctl]; its interrupts then reach it as notifications.  Hooks are
    pointers: the table [irq_hooks[]] is [0 .. NR_IRQ_HOOKS-1], the hooks of the kernel itself
    have other numbers.  Their handlers are a parameter of [irq_handle]. *)
From S2P Require Import Prelude LinkedList Kernel Endpoint Sched IpcInv Notify.

Definition NR_IRQ_VECTORS : Z := 16.
Definition NR_IRQ_HOOKS : Z := 16.
Definition CASCADE_IRQ : Z := 2.
Definition IRQ_SETPOLICY : Z := 1.
Definition IRQ_RMPOLICY : Z := 2.
Definition IRQ_ENABLE : Z := 3.
Definition IRQ_DISABLE : Z := 4.
Definition IRQ_REENABLE : Z := 0x001.

(** ** The interrupt controllers *)

Definition u8 (x : Z) : Z := Z.land x 0xFF.
(** [outb(ctl_mask, f(inb(ctl_mask)))] for the register of line [irq]. *)
Definition ctl_mask_write (irq : Z) (f : Z → Z) (k : kstate) : kstate :=
  if irq <? 8 then k <| int_ctlmask ::= λ x, u8 (f x) |> else k <| int2_ctlmask ::= λ x, u8 (f x) |>.
Definition irq_8259_unmask (irq : Z) : K unit :=
  modify (ctl_mask_write irq (clear_flag (Z.shiftl 1 (Z.land irq 7)))).
Definition irq_8259_mask (irq : Z) : K unit :=
  modify (ctl_mask_write irq (set_flag (Z.shiftl 1 (Z.land irq 7)))).

(** ** Lines and hooks *)

Definition irq_next (k : kstate) (h : Z) : option Z := hk_next (irq_hooks k h).
Definition upd_hook (h : Z) (f : irq_hook → irq_hook) (k : kstate) : kstate :=
  k <| irq_hooks ::= λ t, upd t h (f (t h)) |>.
Definition upd_act (irq : Z) (f : Z → Z) (k : kstate) : kstate :=
  k <| irq_actids ::= λ t, upd t irq (f (t irq)) |>.
(** Writing through [irq_hook_t **line]. *)
Definition write_line_cell (irq : Z) (c : cell Z) (v : option Z) (k : kstate) : kstate :=
  match c with
  | CHead => k <| irq_handlers ::= λ t, upd t irq v |>
  | CNext x => upd_hook x (λ h, h <| hk_next := v |>) k
  end.

(** A line has at most 32 hooks, one for each bit. *)
Definition LINE_FUEL : nat := 34.
Arguments LINE_FUEL : simpl never.

(** The walk over the line: the cell at its end and the identifiers in use, or [None] if the
    hook is already there. *)
Fixpoint put_walk (fuel : nat) (k : kstate) (irq hook : Z) (c : cell Z) (bitmap : Z) : outcome (option (cell Z * Z)) :=
  match fuel with
  | O => Panic "put_irq_handler: line does not end"
  | S fuel' =>
      match cell_read (irq_next k) (irq_handlers k irq) c with
      | None => Ret (Some (c, bitmap))
      | Some x =>
          if hook =? x then Ret None
          else put_walk fuel' k irq hook (CNext x) (set_flag (hk_id (irq_hooks k x)) bitmap)
      end
  end.

(** [for (id = 1; id != 0; id <<= 1) if (!(bitmap & id)) break;] *)
Fixpoint lowest_id (fuel : nat) (bitmap id : Z) : Z :=
  if id =? 0 then 0
  else if negb (has bitmap id) then id
  else match fuel with O => 0 | S fuel' => lowest_id fuel' bitmap (u32 (Z.shiftl id 1)) end.
Definition ID_FUEL : nat := 32.

(** [irq_actids[hook->irq] &= ~hook->id], and unmask the line if nothing is active. *)
Definition clear_active (irq id : Z) : K unit :=
  modify (upd_act irq (clear_flag id));;
  idle ← gets (λ k, irq_actids k irq =? 0);
  if idle : bool then irq_8259_unmask irq else mret ().

Definition put_irq_handler (hook irq : Z) (handler : irq_handler_t) : K unit :=
  if (irq <? 0) || (NR_IRQ_VECTORS <=? irq) then panic "invalid call to put_irq_handler"
  else
    walk ← gets (λ k, put_walk LINE_FUEL k irq hook CHead 0);
    match walk with
    | Panic msg => panic msg
    | Ret None => mret ()
    | Ret (Some (line, bitmap)) =>
        let id := lowest_id ID_FUEL bitmap 1 in
        if id =? 0 then panic "Too many handlers for irq"
        else
          modify (upd_hook hook (λ h, h <| hk_next := None |> <| hk_handler := handler |> <| hk_irq := irq |> <| hk_id := id |>));;
          modify (write_line_cell irq line (Some hook));;
          clear_active irq id
    end.

(** The loop of [rm_irq_handler]: every hook of the line with this identifier is taken out. *)
Fixpoint rm_walk (fuel : nat) (irq id : Z) (line : cell Z) : K unit :=
  match fuel with
  | O => panic "rm_irq_handler: line does not end"
  | S fuel' =>
      cur ← gets (λ k, cell_read (irq_next k) (irq_handlers k irq) line);
      match cur with
      | None => mret ()
      | Some x =>
          xid ← gets (λ k, hk_id (irq_hooks k x));
          if xid =? id then
            next ← gets (λ k, irq_next k x);
            modify (write_line_cell irq line next);;
            active ← gets (λ k, has (irq_actids k irq) id);
            (if active : bool then modify (upd_act irq (clear_flag id)) else mret ());;
            rm_walk fuel' irq id line
          else rm_walk fuel' irq id (CNext x)
      end
  end.

Definition rm_irq_handler (hook : Z) : K unit :=
  irq ← gets (λ k, hk_irq (irq_hooks k hook));
  id ← gets (λ k, hk_id (irq_hooks k hook));
  if (irq <? 0) || (NR_IRQ_VECTORS <=? irq) then panic "invalid call to rm_irq_handler"
  else
    rm_walk LINE_FUEL irq id CHead;;
    head ← gets (λ k, irq_handlers k irq);
    idle ← gets (λ k, irq_actids k irq =? 0);
    match head with
    | None => irq_8259_mask irq
    | Some _ => if idle : bool then irq_8259_unmask irq else mret ()
    end.

Definition enable_irq (hook : Z) : K unit :=
  irq ← gets (λ k, hk_irq (irq_hooks k hook));
  id ← gets (λ k, hk_id (irq_hooks k hook));
  clear_active irq id.

(** The result tells whether the line was enabled for the hook. *)
Definition disable_irq (hook : Z) : K bool :=
  irq ← gets (λ k, hk_irq (irq_hooks k hook));
  id ← gets (λ k, hk_id (irq_hooks k hook));
  active ← gets (λ k, has (irq_actids k irq) id);
  if active : bool then mret false
  else modify (upd_act irq (set_flag id));; irq_8259_mask irq;; mret true.

(** The handler of the hooks drivers ask for; the randomness it gathers is left out. *)
Definition generic_handler (hook : Z) : K Z :=
  h ← gets (λ k, irq_hooks k hook);
  ok ← gets (λ k, isokendpt k (hk_proc_nr_e h));
  match ok with
  | None => panic "invalid interrupt handler"
  | Some proc_nr =>
      id ← gets (λ k, priv_id k proc_nr);
      modify_priv id (λ s, s <| s_int_pending ::= set_flag (Z.shiftl 1 (hk_notify_id h)) |>);;
      mini_notify HARDWARE (hk_proc_nr_e h);;
      mret (Z.land (hk_policy h) IRQ_REENABLE)
  end.

Section irq_handle.
Context (kernel_handler : Z → Z → K Z).

(** [( *hook->handler)(hook)] *)
Definition call_handler (hook : Z) : K Z :=
  f ← gets (λ k, hk_handler (irq_hooks k hook));
  match f with
  | H_generic => generic_handler hook
  | H_kernel f => kernel_handler f hook
  end.

Fixpoint handle_loop (fuel : nat) (irq : Z) (hook : option Z) : K unit :=
  match hook with
  | None => mret ()
  | Some h =>
      match fuel with
      | O => panic "irq_handle: line does not end"
      | S fuel' =>
          id ← gets (λ k, hk_id (irq_hooks k h));
          modify (upd_act irq (set_flag id));;
          r ← call_handler h;
          (if r =? 0 then mret ()
           else
             irq' ← gets (λ k, hk_irq (irq_hooks k h));
             id' ← gets (λ k, hk_id (irq_hooks k h));
             modify (upd_act irq' (clear_flag id')));;
          next ← gets (λ k, irq_next k h);
          handle_loop fuel' irq next
      end
  end.

(** The count of spurious interrupts, which is only printed, and the end-of-interrupt command
    to the controller are left out. *)
Definition irq_handle (irq : Z) : K unit :=
  assert_ (λ _, (0 <=? irq) && (irq <? NR_IRQ_VECTORS)) "irq_handle: irq";;
  irq_8259_mask irq;;
  hook ← gets (λ k, irq_handlers k irq);
  match hook with
  | None => mret ()
  | Some _ =>
      handle_loop LINE_FUEL irq hook;;
      idle ← gets (λ k, irq_actids k irq =? 0);
      if idle : bool then irq_8259_unmask irq else mret ()
  end.
End irq_handle.

(** ** The kernel call *)

Definition IRQ_REQUEST (m : message) : Z := i16 (m_word 0 m).
Definition IRQ_VECTOR (m : message) : Z := i16 (Z.shiftr (m_word 0 m) 16).
Definition IRQ_POLICY : message → Z := m_word 1.
Definition IRQ_HOOK_ID : message → Z := m_word 5.

Definition hook_table : list Z := seqZ 0 NR_IRQ_HOOKS.

(** May the caller use the line: [CHECK_IRQ] and [s_irq_tab]. *)
Definition irq_allowed (k : kstate) (caller irq_vec : Z) : bool :=
  match p_priv (proctab k caller) with
  | None => false
  | Some i => negb (has (s_flags (privtab k i)) CHECK_IRQ) || existsb (Z.eqb irq_vec) (s_irq_tab (privtab k i))
  end.

(** The hook to use: the caller's hook with this identifier, which is taken out of its line,
    or a free one. *)
Definition choose_hook (e notify_id : Z) : K (option Z) :=
  old ← gets (λ k, find (λ i, (hk_proc_nr_e (irq_hooks k i) =? e) && (hk_notify_id (irq_hooks k i) =? notify_id)) hook_table);
  match old with
  | Some i => rm_irq_handler i;; mret (Some i)
  | None => gets (λ k, find (λ i, hk_proc_nr_e (irq_hooks k i) =? NONE) hook_table)
  end.

Definition irq_setpolicy (caller : Z) (m : message) : K (Z * message) :=
  let irq_vec := IRQ_VECTOR m in
  let notify_id := i32 (IRQ_HOOK_ID m) in
  if (irq_vec <? 0) || (NR_IRQ_VECTORS <=? irq_vec) then mret (EINVAL, m)
  else
    ok ← gets (λ k, irq_allowed k caller irq_vec);
    if negb ok then mret (EPERM, m)
    else if 31 <? u32 notify_id then mret (EINVAL, m)
    else
      e ← gets (λ k, p_endpoint (proctab k caller));
      hook ← choose_hook e notify_id;
      match hook with
      | None => mret (ENOSPC, m)
      | Some i =>
          modify (upd_hook i (λ h, h <| hk_proc_nr_e := e |> <| hk_notify_id := notify_id |> <| hk_policy := u32 (IRQ_POLICY m) |>));;
          put_irq_handler i irq_vec H_generic;;
          mret (OK, set_m_word 5 (i + 1) m)
      end.

(** Is [irq_hook_id] a hook of the table that is in use, and by whom. *)
Definition hook_in_use (k : kstate) (irq_hook_id : Z) : bool :=
  (0 <=? irq_hook_id) && (irq_hook_id <? NR_IRQ_HOOKS) && negb (hk_proc_nr_e (irq_hooks k irq_hook_id) =? NONE).

(** The checks shared by the other requests, and the request itself. *)
Definition on_own_hook (caller irq_hook_id : Z) (act : K unit) (m : message) : K (Z * message) :=
  used ← gets (λ k, hook_in_use k irq_hook_id);
  if negb used then mret (EINVAL, m)
  else
    own ← gets (λ k, hk_proc_nr_e (irq_hooks k irq_hook_id) =? p_endpoint (proctab k caller));
    if negb own then mret (EPERM, m)
    else act;; mret (OK, m).

Definition do_irqctl (caller : Z) (m : message) : K (Z * message) :=
  let irq_hook_id := i32 (IRQ_HOOK_ID m - 1) in
  let req := IRQ_REQUEST m in
  if req =? IRQ_ENABLE then on_own_hook caller irq_hook_id (enable_irq irq_hook_id) m
  else if req =? IRQ_DISABLE then on_own_hook caller irq_hook_id (_ ← disable_irq irq_hook_id; mret ()) m
  else if req =? IRQ_SETPOLICY then irq_setpolicy caller m
  else if req =? IRQ_RMPOLICY then
    on_own_hook caller irq_hook_id
      (rm_irq_handler irq_hook_id;; modify (upd_hook irq_hook_id (λ h, h <| hk_proc_nr_e := NONE |>))) m
  else mret (EINVAL, m).

(** The hooks of a process that exits (the loop of [do_clear]). *)
Definition release_hooks (rc : Z) : K unit :=
  forM_ hook_table (λ i,
    mine ← gets (λ k, p_endpoint (proctab k rc) =? hk_proc_nr_e (irq_hooks k i));
    if mine : bool then
      rm_irq_handler i;; modify (upd_hook i (λ h, h <| hk_proc_nr_e := NONE |>))
    else mret ()).
