(* ===== verification/IrqInv.v ===== *)
(** * Interrupt lines: their invariant

    What the lists of hooks, the words of active identifiers and the mask registers have to do
    with each other, and that [put_irq_handler], [rm_irq_handler], [enable_irq],
    [disable_irq] and the kernel call [do_irqctl] keep it so. *)
From S2P Require Import Prelude LinkedList Kernel Endpoint Sched IpcInv Notify Irq.

(** ** Masks *)

Definition in_line (irq : Z) : Prop := 0 ≤ irq < NR_IRQ_VECTORS.
Definition line_masked (k : kstate) (irq : Z) : bool :=
  Z.testbit (if irq <? 8 then int_ctlmask k else int2_ctlmask k) (Z.land irq 7).

Lemma land7 irq : Z.land irq 7 = irq mod 8.
Proof. exact (Z.land_ones irq 3 ltac:(lia)). Qed.
Lemma u8_bit x i : 0 ≤ i < 8 → Z.testbit (u8 x) i = Z.testbit x i.
Proof.
  intros Hi. unfold u8. change 0xFF with (Z.ones 8). rewrite Z.land_spec, Z.ones_spec_low by lia. apply andb_true_r.
Qed.

Section masks.
Context (irq : Z) (k : kstate) (Hirq : in_line irq).
Let bit : Z := Z.shiftl 1 (Z.land irq 7).

Lemma line_bit irq' : in_line irq' → (irq' <? 8) = (irq <? 8) → Z.testbit bit (Z.land irq' 7) = (irq' =? irq).
Proof using Hirq.
  intros Hi Hr. unfold bit, in_line, NR_IRQ_VECTORS in *. rewrite !land7, Z.shiftl_1_l, Z.pow2_bits_eqb by div_lia.
  destruct (irq =? irq') eqn:E; [apply Z.eqb_eq in E; subst; by rewrite !Z.eqb_refl|].
  rewrite (Z.eqb_sym irq' irq), E. apply Z.eqb_neq in E. apply Z.eqb_neq. destruct (irq <? 8) eqn:?, (irq' <? 8) eqn:?; div_lia.
Qed.

Lemma masked_write f g irq' :
  (∀ x i, Z.testbit (f x) i = g (Z.testbit x i) (Z.testbit bit i)) → (∀ b, g b false = b) →
  in_line irq' →
  line_masked (ctl_mask_write irq f k) irq' = g (line_masked k irq') (irq' =? irq).
Proof using Hirq.
  intros Hf Hg Hi. unfold line_masked, ctl_mask_write.
  assert (0 ≤ Z.land irq' 7 < 8) as Hb by (rewrite land7; div_lia).
  destruct (irq <? 8) eqn:E, (irq' <? 8) eqn:E'; simpl; rewrite ?u8_bit, ?Hf by done.
  - by rewrite line_bit by congruence.
  - destruct (irq' =? irq) eqn:Ei; [lia|]. by rewrite Hg.
  - destruct (irq' =? irq) eqn:Ei; [lia|]. by rewrite Hg.
  - by rewrite line_bit by congruence.
Qed.

Lemma line_masked_mask irq' :
  in_line irq' → line_masked (ctl_mask_write irq (set_flag bit) k) irq' = line_masked k irq' || (irq' =? irq).
Proof using Hirq.
  intros. apply (masked_write _ orb); [intros; by rewrite set_flag_bit|intros []; done|done].
Qed.
Lemma line_masked_unmask irq' :
  in_line irq' → line_masked (ctl_mask_write irq (clear_flag bit) k) irq' = line_masked k irq' && negb (irq' =? irq).
Proof using Hirq.
  intros. apply (masked_write _ (λ a b, a && negb b)); [|intros []; done|done].
  intros x i. destruct (decide (0 ≤ i)) as [?|?]; [by rewrite clear_flag_bit|].
  by rewrite !(Z.testbit_neg_r _ i) by lia.
Qed.
End masks.

(** ** One line *)

Definition hook_id (k : kstate) (h : Z) : Z := hk_id (irq_hooks k h).
Definition is_id (x : Z) : Prop := ∃ j, 0 ≤ j < 32 ∧ x = 2 ^ j.

(** The hooks of a line in the order they are called: each has an identifier of its own, and
    only they can be active. *)
Record line_list (k : kstate) (irq : Z) (l : list Z) : Prop := {
  ll_chain : chain (irq_next k) (irq_handlers k irq) l None;
  ll_irq : ∀ h, h ∈ l → hk_irq (irq_hooks k h) = irq;
  ll_id : ∀ h, h ∈ l → is_id (hook_id k h);
  ll_nodup : NoDup (hook_id k <$> l);
  ll_act : ∀ j, 0 ≤ j → Z.testbit (irq_actids k irq) j = true → 2 ^ j ∈ hook_id k <$> l;
}.
(** A line that is used is masked as long as a hook is active, one that is not used is masked. *)
Record line_ok (k : kstate) (irq : Z) (l : list Z) : Prop := {
  lo_list : line_list k irq l;
  lo_mask : l ≠ [] → line_masked k irq = negb (irq_actids k irq =? 0);
  lo_unused : l = [] → irq ≠ CASCADE_IRQ → line_masked k irq = true;
}.

(** Nothing of a line but its hooks, its head, its active word and its mask matters. *)
Lemma hook_ids_ext k k' (l : list Z) :
  (∀ h, h ∈ l → irq_hooks k' h = irq_hooks k h) → hook_id k' <$> l = hook_id k <$> l.
Proof. intros Hh. apply list_fmap_ext. intros i h Hl. unfold hook_id. by rewrite Hh by (by eapply list_elem_of_lookup_2). Qed.
Lemma line_list_ext k k' irq l :
  line_list k irq l → (∀ h, h ∈ l → irq_hooks k' h = irq_hooks k h) →
  irq_handlers k' irq = irq_handlers k irq →
  (∀ j, 0 ≤ j → Z.testbit (irq_actids k' irq) j = true → 2 ^ j ∈ hook_id k <$> l) → line_list k' irq l.
Proof.
  intros [Hc Hi Hd Hn Ha] Hh Hhd Hact. split; rewrite ?(hook_ids_ext k k' l Hh), ?Hhd; try done.
  - eapply chain_ext; [|exact Hc]. intros h Hl. unfold irq_next. by rewrite Hh.
  - intros h Hl. rewrite Hh by done. by apply Hi.
  - intros h Hl. unfold hook_id. rewrite Hh by done. by apply Hd.
Qed.
Lemma line_ok_ext k k' irq l :
  line_ok k irq l → (∀ h, h ∈ l → irq_hooks k' h = irq_hooks k h) →
  irq_handlers k' irq = irq_handlers k irq → irq_actids k' irq = irq_actids k irq →
  line_masked k' irq = line_masked k irq → line_ok k' irq l.
Proof.
  intros [HL Hm Hu] Hh Hhd Hact Hmk. split; rewrite ?Hact, ?Hmk; try done.
  eapply line_list_ext; [done..|]. rewrite Hact. by apply HL.
Qed.

Definition all_ids : list Z := (λ j, 2 ^ j) <$> seqZ 0 32.
Lemma pow2_inj i j : 0 ≤ i → 0 ≤ j → 2 ^ i = 2 ^ j → i = j.
Proof. intros. by apply (Z.pow_inj_r 2); [lia..|]. Qed.
Lemma all_ids_elem x : x ∈ all_ids ↔ is_id x.
Proof.
  unfold all_ids, is_id. rewrite list_elem_of_fmap. split.
  - intros (j & -> & Hj%elem_of_seqZ). exists j. split; [lia|done].
  - intros (j & Hj & ->). exists j. split; [done|]. apply elem_of_seqZ. lia.
Qed.

Lemma line_length k irq l : line_list k irq l → (length l ≤ 32)%nat.
Proof.
  intros H. rewrite <-(length_fmap (hook_id k)). change 32%nat with (length all_ids).
  apply submseteq_length, NoDup_submseteq; [by apply H|].
  intros x (h & -> & Hh)%list_elem_of_fmap. by apply all_ids_elem, (ll_id _ _ _ H).
Qed.

(** ** Registering a hook *)

Lemma put_walk_spec fuel k irq hook c bm l :
  chain (irq_next k) (cell_read (irq_next k) (irq_handlers k irq) c) l None → (length l < fuel)%nat → hook ∉ l →
  put_walk fuel k irq hook c bm = Ret (Some (cell_after c l, foldl (λ b h, set_flag (hook_id k h) b) bm l)).
Proof.
  revert c bm l. induction fuel as [|fuel IH]; intros c bm l Hc Hlen Hh; [lia|].
  destruct l as [|x l]; simpl in *.
  - by rewrite Hc.
  - destruct Hc as [-> Hc]. apply not_elem_of_cons in Hh as [Hne Hh].
    rewrite (proj2 (Z.eqb_neq _ _)) by done. rewrite cell_after_cons. by apply IH; [..|lia|].
Qed.

Lemma ids_bitmap k l bm j :
  0 ≤ j → (∀ h, h ∈ l → is_id (hook_id k h)) →
  Z.testbit (foldl (λ b h, set_flag (hook_id k h) b) bm l) j = Z.testbit bm j || bool_decide (2 ^ j ∈ hook_id k <$> l).
Proof.
  intros Hj. revert bm. induction l as [|x l IH]; intros bm Hid; cbn [foldl]; rewrite ?fmap_cons.
  - rewrite bool_decide_eq_false_2 by set_solver. by rewrite orb_false_r.
  - rewrite IH by set_solver. rewrite set_flag_bit, <-orb_assoc. f_equal.
    destruct (Hid x ltac:(set_solver)) as (i & Hi & Hx). rewrite Hx, Z.pow2_bits_eqb by lia.
    destruct (i =? j) eqn:E; simpl.
    + apply Z.eqb_eq in E. subst i. symmetry. apply bool_decide_eq_true. set_solver.
    + apply bool_decide_ext. rewrite elem_of_cons. split; [by right|]. intros [Heq|]; [|done].
      apply pow2_inj in Heq; lia.
Qed.

Lemma lowest_id_spec n bm i :
  i + Z.of_nat n = 32 → 0 ≤ i → (∃ j, i ≤ j < 32 ∧ Z.testbit bm j = false) →
  ∃ j, i ≤ j < 32 ∧ lowest_id n bm (2 ^ i) = 2 ^ j ∧ Z.testbit bm j = false ∧ ∀ j', i ≤ j' < j → Z.testbit bm j' = true.
Proof.
  revert i. induction n as [|n IH]; intros i Hn Hi (j0 & Hj0 & Hb0); [lia|].
  cbn [lowest_id]. rewrite (proj2 (Z.eqb_neq (2 ^ i) 0)) by lia. rewrite has_bit by done.
  destruct (Z.testbit bm i) eqn:E; simpl.
  - assert (i ≠ j0) by congruence.
    assert (u32 (Z.shiftl (2 ^ i) 1) = 2 ^ (i + 1)) as ->.
    { rewrite Z.shiftl_mul_pow2 by lia. rewrite <-Z.pow_add_r by lia. apply u32_id. split; [lia|]. apply Z.pow_lt_mono_r; lia. }
    destruct (IH (i + 1)) as (j & Hj & -> & Hb & Hl); [lia|lia|exists j0; split; [lia|done]|].
    exists j. split_and!; [lia|lia|done|done|]. intros j' Hj'. destruct (decide (j' = i)) as [->|]; [done|]. apply Hl. lia.
  - exists i. split_and!; [lia|lia|done|done|lia].
Qed.
Lemma free_id k irq l : line_list k irq l → (length l < 32)%nat → ∃ j, 0 ≤ j < 32 ∧ 2 ^ j ∉ hook_id k <$> l.
Proof.
  intros H Hlen. destruct (decide (Forall (λ x, x ∈ hook_id k <$> l) all_ids)) as [Hall|Hex].
  - exfalso. assert (length all_ids ≤ length (hook_id k <$> l))%nat as Hle.
    { apply submseteq_length, NoDup_submseteq; [|by apply Forall_forall].
      apply NoDup_fmap_2_strong; [|apply NoDup_seqZ]. intros x y Hx%elem_of_seqZ Hy%elem_of_seqZ. apply pow2_inj; lia. }
    rewrite length_fmap in Hle. simpl in Hle. lia.
  - apply not_Forall_Exists, Exists_exists in Hex as (x & (j & Hj & ->)%all_ids_elem & Hx); [by exists j|tc_solve].
Qed.

(** ** What an operation on a line leaves alone *)

(** What the table of hooks says of a hook, besides its place in a line. *)
Definition owner_view (h : irq_hook) : Z * Z * Z := (hk_proc_nr_e h, hk_notify_id h, hk_policy h).

(** Only line [irq] and the hooks [hs] changed. *)
Record line_step (k k' : kstate) (irq : Z) (hs : list Z) : Prop := {
  ls_procs : proctab k' = proctab k ∧ privtab k' = privtab k;
  ls_head : ∀ i, i ≠ irq → irq_handlers k' i = irq_handlers k i;
  ls_act : ∀ i, i ≠ irq → irq_actids k' i = irq_actids k i;
  ls_mask : ∀ i, in_line i → i ≠ irq → line_masked k' i = line_masked k i;
  ls_hooks : ∀ h, h ∉ hs → irq_hooks k' h = irq_hooks k h;
  ls_owner : ∀ h, owner_view (irq_hooks k' h) = owner_view (irq_hooks k h);
}.
Lemma line_step_refl k irq hs : line_step k k irq hs.
Proof. done. Qed.
Lemma line_step_trans k1 k2 k3 irq hs :
  line_step k1 k2 irq hs → line_step k2 k3 irq hs → line_step k1 k3 irq hs.
Proof.
  intros [[P1 P1'] A1 B1 C1 D1 E1] [[P2 P2'] A2 B2 C2 D2 E2]. split.
  - split; congruence.
  - intros i Hi. by rewrite A2, A1.
  - intros i Hi. by rewrite B2, B1.
  - intros i Hl Hi. by rewrite C2, C1.
  - intros h Hh. by rewrite D2, D1.
  - intros h. by rewrite E2, E1.
Qed.
Lemma line_step_mono k k' irq hs hs' : line_step k k' irq hs → (∀ h, h ∈ hs → h ∈ hs') → line_step k k' irq hs'.
Proof. intros [] Hs. split; try done. naive_solver. Qed.
#[export] Hint Resolve line_step_refl : minix.

Definition lines_ok (k : kstate) (L : Z → list Z) : Prop := ∀ irq, in_line irq → line_ok k irq (L irq).

Lemma lines_step k k' irq hs l' L :
  lines_ok k L → line_step k k' irq hs → (∀ h i, h ∈ hs → in_line i → h ∈ L i → i = irq) → line_ok k' irq l' →
  lines_ok k' (upd L irq l').
Proof.
  intros HL Hst Hhs Hok i Hi. rewrite upd_case. case_decide as E; [by subst|].
  apply (line_ok_ext k); [by apply HL| |by apply Hst..].
  intros h Hh. apply Hst. intros Hin. by apply E, (Hhs h).
Qed.

(** ** Masking, and clearing an active identifier *)

Lemma irq_8259_mask_spec k irq Q :
  in_line irq →
  (∀ k', line_step k k' irq [] → irq_hooks k' = irq_hooks k → irq_handlers k' = irq_handlers k → irq_actids k' = irq_actids k →
     line_masked k' irq = true → Q () k') →
  wp (irq_8259_mask irq) Q k.
Proof.
  intros Hi HQ. unfold irq_8259_mask. wp_steps. apply HQ.
  - split; try (by unfold ctl_mask_write; destruct (irq <? 8)).
    intros i Hl Hne. rewrite line_masked_mask by done. rewrite (proj2 (Z.eqb_neq _ _)) by done. apply orb_false_r.
  - by unfold ctl_mask_write; destruct (irq <? 8).
  - by unfold ctl_mask_write; destruct (irq <? 8).
  - by unfold ctl_mask_write; destruct (irq <? 8).
  - rewrite line_masked_mask, Z.eqb_refl by done. apply orb_true_r.
Qed.
Lemma irq_8259_unmask_spec k irq Q :
  in_line irq →
  (∀ k', line_step k k' irq [] → irq_hooks k' = irq_hooks k → irq_handlers k' = irq_handlers k → irq_actids k' = irq_actids k →
     line_masked k' irq = false → Q () k') →
  wp (irq_8259_unmask irq) Q k.
Proof.
  intros Hi HQ. unfold irq_8259_unmask. wp_steps. apply HQ.
  - split; try (by unfold ctl_mask_write; destruct (irq <? 8)).
    intros i Hl Hne. rewrite line_masked_unmask by done. rewrite (proj2 (Z.eqb_neq _ _)) by done. apply andb_true_r.
  - by unfold ctl_mask_write; destruct (irq <? 8).
  - by unfold ctl_mask_write; destruct (irq <? 8).
  - by unfold ctl_mask_write; destruct (irq <? 8).
  - rewrite line_masked_unmask, Z.eqb_refl by done. apply andb_false_r.
Qed.

Lemma upd_act_step k irq f : line_step k (upd_act irq f k) irq [].
Proof. split; try done. intros i Hi. simpl. by rewrite upd_ne. Qed.

Lemma clear_active_spec k irq id l :
  in_line irq → line_list k irq l → l ≠ [] → (irq_actids k irq ≠ 0 → line_masked k irq = true) →
  wp (clear_active irq id) (λ _ k', line_ok k' irq l ∧ line_step k k' irq [] ∧ irq_hooks k' = irq_hooks k ∧
    irq_actids k' irq = clear_flag id (irq_actids k irq)) k.
Proof.
  intros Hi HL Hne Hm. unfold clear_active. wp_steps. set (k1 := upd_act irq (clear_flag id) k).
  assert (irq_actids k1 irq = clear_flag id (irq_actids k irq)) as Ha by (simpl; by rewrite upd_eq).
  assert (line_list k1 irq l) as HL1.
  { eapply (line_list_ext k); [done..|]. rewrite Ha. intros j Hj. rewrite clear_flag_bit by done.
    intros [? _]%andb_true_iff. by apply HL. }
  pose proof (upd_act_step k irq (clear_flag id)) as Hst. fold k1 in Hst.
  destruct (irq_actids k1 irq =? 0) eqn:E; [|wp_steps].
  - apply irq_8259_unmask_spec; [done|]. intros k2 Hst2 Hh Hhd Hact Hmk. split_and!.
    + split; [|by rewrite Hact, E|done]. eapply (line_list_ext k1); [done|by intros; rewrite Hh|by rewrite Hhd|].
      rewrite Hact. apply HL1.
    + by eapply line_step_trans.
    + by rewrite Hh.
    + by rewrite Hact.
  - split_and!; [|done..]. split; [done| |done]. intros _. rewrite E. apply Hm. intros H0. rewrite Ha, H0, clear_flag_0 in E. done.
Qed.

(** ** Writing a link of a line *)

Lemma write_line_chain irq c v k l :
  (let st := cell_write c v (irq_next k, irq_handlers k irq) in chain st.1 st.2 l None) →
  let k' := write_line_cell irq c v k in chain (irq_next k') (irq_handlers k' irq) l None.
Proof.
  destruct c as [|x]; simpl.
  - by rewrite upd_eq.
  - intros Hc. by apply (chain_table hk_next).
Qed.
Lemma write_line_step irq c v k hs :
  (∀ x, c = CNext x → x ∈ hs) → line_step k (write_line_cell irq c v k) irq hs.
Proof.
  intros Hc. destruct c as [|x]; simpl; split; try done; simpl.
  - intros i Hi. by rewrite upd_ne.
  - intros h Hh. rewrite upd_ne; [done|]. intros ->. by apply Hh, Hc.
  - intros h. rewrite upd_case. by case_decide; subst.
Qed.
(** The fields of a hook other than its link. *)
Definition hook_view (h : irq_hook) : Z * Z * irq_handler_t := (hk_irq h, hk_id h, hk_handler h).
Lemma write_line_view irq c v k h : hook_view (irq_hooks (write_line_cell irq c v k) h) = hook_view (irq_hooks k h).
Proof. destruct c as [|x]; simpl; [done|]. rewrite upd_case. by case_decide; subst. Qed.
Lemma cell_after_elem (l : list Z) x : cell_after CHead l = CNext x → x ∈ l.
Proof. unfold cell_after. destruct (last l) eqn:E; [|done]. intros [= ->]. by eapply last_Some_elem_of. Qed.

Lemma hook_id_view k k' h : hook_view (irq_hooks k' h) = hook_view (irq_hooks k h) → hook_id k' h = hook_id k h.
Proof. unfold hook_id. by intros [= _ ->]. Qed.
Lemma hook_irq_view k k' h :
  hook_view (irq_hooks k' h) = hook_view (irq_hooks k h) → hk_irq (irq_hooks k' h) = hk_irq (irq_hooks k h).
Proof. by intros [= -> _]. Qed.

Lemma hook_view_inv h a b c : hook_view h = (a, b, c) → hk_irq h = a ∧ hk_id h = b ∧ hk_handler h = c.
Proof. by intros [= -> -> ->]. Qed.

(** An active word with no bit of a hook left is zero. *)
Lemma line_idle k irq : line_list k irq [] → irq_actids k irq = 0.
Proof.
  intros HL. apply Z.bits_inj_0. intros b. destruct (decide (0 ≤ b)); [|apply Z.testbit_neg_r; lia].
  destruct (Z.testbit _ b) eqn:Eb; [|done]. apply (ll_act _ _ _ HL) in Eb; [set_solver|done].
Qed.

(** ** [put_irq_handler] *)

(** The identifier a new hook gets: the lowest bit that no hook of the line has. *)
Definition lowest_free (k : kstate) (l : list Z) (j : Z) : Prop :=
  0 ≤ j < 32 ∧ (2 ^ j ∉ hook_id k <$> l) ∧ ∀ j', 0 ≤ j' < j → 2 ^ j' ∈ hook_id k <$> l.

Lemma lowest_id_free k irq l :
  line_list k irq l → (length l < 32)%nat →
  ∃ j, lowest_free k l j ∧ lowest_id ID_FUEL (foldl (λ b h, set_flag (hook_id k h) b) 0 l) 1 = 2 ^ j.
Proof.
  intros HL Hlen. destruct (free_id _ _ _ HL Hlen) as (j0 & Hj0 & Hf0).
  assert (∀ j, 0 ≤ j → Z.testbit (foldl (λ b h, set_flag (hook_id k h) b) 0 l) j = bool_decide (2 ^ j ∈ hook_id k <$> l)) as Hb.
  { intros j Hj. rewrite ids_bitmap, Z.bits_0 by (done || apply HL). done. }
  destruct (lowest_id_spec 32 (foldl (λ b h, set_flag (hook_id k h) b) 0 l) 0) as (j & Hj & He & Hfj & Hl); [done|done| |].
  { exists j0. split; [done|]. rewrite Hb by lia. by apply bool_decide_eq_false. }
  exists j. split; [|done]. rewrite Hb in Hfj by lia. apply bool_decide_eq_false in Hfj.
  split_and!; [lia|lia|done|]. intros j' Hj'. specialize (Hl j' Hj'). rewrite Hb in Hl by lia. by apply bool_decide_eq_true in Hl.
Qed.

(** The line after the new hook was linked in. *)
Lemma put_line_list k irq l hook handler j :
  line_list k irq l → hook ∉ l → lowest_free k l j →
  let k1 := upd_hook hook (λ h, h <| hk_next := None |> <| hk_handler := handler |> <| hk_irq := irq |> <| hk_id := 2 ^ j |>) k in
  let k2 := write_line_cell irq (cell_after CHead l) (Some hook) k1 in
  line_list k2 irq (l ++ [hook]) ∧ line_step k k2 irq (hook :: l) ∧
  hk_handler (irq_hooks k2 hook) = handler ∧ hook_id k2 hook = 2 ^ j.
Proof.
  intros HL Hh (Hj & Hf & _) k1 k2.
  assert (∀ h, h ∈ l → irq_hooks k1 h = irq_hooks k h) as H1 by (intros h Hl; simpl; by rewrite upd_ne by (by intros ->)).
  assert (hook_view (irq_hooks k2 hook) = (irq, 2 ^ j, handler)) as Hv by (unfold k2; rewrite write_line_view; simpl; by rewrite upd_eq).
  assert (∀ h, h ∈ l → hook_view (irq_hooks k2 h) = hook_view (irq_hooks k h)) as Hvl.
  { intros h Hl. unfold k2. rewrite write_line_view. by rewrite H1. }
  apply hook_view_inv in Hv as (Hq & Hid & Hhd).
  assert (hook_id k2 <$> (l ++ [hook]) = (hook_id k <$> l) ++ [2 ^ j]) as Hids.
  { rewrite fmap_app. simpl. unfold hook_id at 2. rewrite Hid. f_equal. apply list_fmap_ext. intros i h Hl. apply hook_id_view, Hvl.
    by eapply list_elem_of_lookup_2. }
  split_and!; [split| |done|done].
  - apply write_line_chain, splice_append; [|done|unfold irq_next; simpl; by rewrite upd_eq].
    eapply chain_ext; [|exact (ll_chain _ _ _ HL)]. intros h Hl. unfold irq_next. by rewrite H1.
  - intros h [Hl|Hl%list_elem_of_singleton]%elem_of_app; [|by rewrite Hl].
    rewrite (hook_irq_view k k2) by (by apply Hvl). by apply HL.
  - intros h [Hl|Hl%list_elem_of_singleton]%elem_of_app; [|rewrite Hl; unfold hook_id; rewrite Hid; by exists j].
    rewrite (hook_id_view k k2) by (by apply Hvl). by apply HL.
  - rewrite Hids. apply NoDup_app. split_and!; [apply HL| |apply NoDup_singleton]. set_solver.
  - intros i Hi Hb. rewrite Hids. apply elem_of_app. left. apply (ll_act _ _ _ HL); [done|].
    revert Hb. unfold k2. by destruct (cell_after CHead l).
  - eapply line_step_trans; [|apply write_line_step; intros x Hx%cell_after_elem; set_solver].
    split; try done; simpl; intros h; [intros Hn; rewrite upd_ne by set_solver; done|].
    rewrite upd_case. case_decide as Eh; [by rewrite Eh|done].
Qed.

Lemma put_irq_handler_spec k L irq hook handler :
  lines_ok k L → in_line irq → (∀ i, in_line i → hook ∉ L i) → (length (L irq) < 32)%nat →
  wp (put_irq_handler hook irq handler) (λ _ k',
    lines_ok k' (upd L irq (L irq ++ [hook])) ∧ line_step k k' irq (hook :: L irq) ∧
    hk_handler (irq_hooks k' hook) = handler ∧ ∃ j, lowest_free k (L irq) j ∧ hook_id k' hook = 2 ^ j) k.
Proof.
  intros HL Hi Hh Hlen. pose proof (HL irq Hi) as [HLi Hm Hu]. unfold put_irq_handler.
  destruct ((irq <? 0) || (NR_IRQ_VECTORS <=? irq)) eqn:Er; [unfold in_line in Hi; lia|]. wp_steps.
  rewrite (put_walk_spec _ k irq hook CHead 0 (L irq)); [|apply HLi|unfold LINE_FUEL; lia|by apply Hh].
  destruct (lowest_id_free k irq (L irq)) as (j & Hj & ->); [done|done|].
  rewrite (proj2 (Z.eqb_neq (2 ^ j) 0)) by (destruct Hj; lia). wp_steps.
  destruct (put_line_list k irq (L irq) hook handler j) as (HL2 & Hst & Hhd & Hid); [done|by apply Hh|done|].
  set (k2 := write_line_cell _ _ _ _) in *.
  assert (irq_actids k2 irq = irq_actids k irq ∧ line_masked k2 irq = line_masked k irq) as [Ha Hmk].
  { unfold k2. by destruct (cell_after CHead (L irq)). }
  eapply wp_mono; [eapply clear_active_spec; [done|exact HL2|by destruct (L irq)|]|].
  { rewrite Ha, Hmk. intros Hne. destruct (L irq) eqn:El; [|rewrite Hm by done; by rewrite (proj2 (Z.eqb_neq _ _))].
    by rewrite line_idle in Hne. }
  intros [] k3 (Hok & Hst3 & Hhk & _).
  assert (line_step k k3 irq (hook :: L irq)) as Hst'.
  { eapply line_step_trans; [done|]. by eapply line_step_mono; [done|set_solver]. }
  split_and!; [|done|by rewrite Hhk|].
  - eapply lines_step; [done..| |done]. intros h i [->|Hin]%elem_of_cons Hl; [by intros ?%Hh|].
    intros Hin'. rewrite <-(ll_irq _ _ _ (lo_list _ _ _ (HL i Hl)) h Hin'). by apply HLi.
  - exists j. split; [done|]. unfold hook_id. by rewrite Hhk.
Qed.

(** ** [rm_irq_handler] *)

Lemma rm_walk_skip fuel irq id c k l :
  chain (irq_next k) (cell_read (irq_next k) (irq_handlers k irq) c) l None → (length l < fuel)%nat →
  (∀ h, h ∈ l → hook_id k h ≠ id) → rm_walk fuel irq id c k = Ret ((), k).
Proof.
  revert c l. induction fuel as [|fuel IH]; intros c l Hc Hlen Hid; [lia|].
  cbn [rm_walk]. rewrite run_gets. destruct l as [|x l]; simpl in Hc.
  - by rewrite Hc.
  - destruct Hc as [-> Hc]. rewrite run_gets. fold (hook_id k x). rewrite (proj2 (Z.eqb_neq _ _)) by (apply Hid; set_solver).
    apply (IH (CNext x) l); [done|simpl in Hlen; lia|set_solver].
Qed.

(** Unlinking the hook behind cell [c], and clearing its bit. *)
Definition unlink_hook (irq id : Z) (c : cell Z) (next : option Z) (k : kstate) : kstate :=
  let k1 := write_line_cell irq c next k in
  if has (irq_actids k1 irq) id then upd_act irq (clear_flag id) k1 else k1.

Lemma unlink_hooks irq id c next k : irq_hooks (unlink_hook irq id c next k) = irq_hooks (write_line_cell irq c next k).
Proof. unfold unlink_hook. by case_match. Qed.
Lemma unlink_heads irq id c next k : irq_handlers (unlink_hook irq id c next k) = irq_handlers (write_line_cell irq c next k).
Proof. unfold unlink_hook. by case_match. Qed.
Lemma unlink_act irq id c next k : irq_actids (unlink_hook irq id c next k) irq = clear_flag id (irq_actids k irq).
Proof.
  unfold unlink_hook. assert (irq_actids (write_line_cell irq c next k) = irq_actids k) as E by by destruct c.
  rewrite E. destruct (has (irq_actids k irq) id) eqn:Ha; simpl; rewrite ?E.
  - by rewrite upd_eq.
  - by rewrite clear_flag_absent.
Qed.
Lemma unlink_masked irq id c next k i : line_masked (unlink_hook irq id c next k) i = line_masked k i.
Proof. unfold unlink_hook. case_match; by destruct c. Qed.
Lemma unlink_step irq id c next k hs : (∀ x, c = CNext x → x ∈ hs) → line_step k (unlink_hook irq id c next k) irq hs.
Proof.
  intros Hc. unfold unlink_hook. pose proof (write_line_step irq c next k hs Hc) as H1. case_match; [|done].
  eapply line_step_trans; [done|]. eapply line_step_mono; [apply upd_act_step|set_solver].
Qed.

Lemma rm_walk_unlink fuel irq id c k l1 x l2 :
  chain (irq_next k) (cell_read (irq_next k) (irq_handlers k irq) c) (l1 ++ x :: l2) None →
  (length (l1 ++ x :: l2) < fuel)%nat → (∀ y, c = CNext y → y ∉ l1 ++ x :: l2) →
  (∀ h, h ∈ l1 ++ l2 → hook_id k h ≠ id) → hook_id k x = id →
  rm_walk fuel irq id c k = Ret ((), unlink_hook irq id (cell_after c l1) (irq_next k x) k).
Proof.
  revert c fuel. induction l1 as [|y l1 IH]; intros c [|fuel] Hc Hlen Hcy Hid Hx; [simpl in Hlen; lia| |simpl in Hlen; lia|];
    cbn [rm_walk]; rewrite run_gets; destruct Hc as [-> Hc]; rewrite run_gets.
  - fold (hook_id k x). rewrite Hx, Z.eqb_refl, run_gets, run_modify, run_gets. cbn [app] in *.
    set (k1 := write_line_cell irq c (irq_next k x) k).
    assert (∀ b : bool, ((if b then modify (upd_act irq (clear_flag id)) else mret ());; rm_walk fuel irq id c) k1 =
              rm_walk fuel irq id c (if b then upd_act irq (clear_flag id) k1 else k1)) as Hb by by intros [].
    rewrite Hb. change (cell_after c []) with c. fold (unlink_hook irq id c (irq_next k x) k).
    assert (unlink_hook irq id c (irq_next k x) k = if has (irq_actids k1 irq) id then upd_act irq (clear_flag id) k1 else k1) as <- by done.
    apply (rm_walk_skip _ _ _ _ _ l2); [|simpl in Hlen; lia|].
    + assert (∀ h, irq_next (unlink_hook irq id c (irq_next k x) k) h = irq_next k1 h) as Hn by (intros h; unfold irq_next; by rewrite unlink_hooks).
      apply (chain_ext (irq_next k1)); [done|]. rewrite unlink_heads. fold k1.
      destruct c as [|y]; simpl; rewrite ?Hn; unfold irq_next; simpl; rewrite !upd_eq; [done|].
      apply (chain_table hk_next). apply chain_frame; [|done]. specialize (Hcy y eq_refl). set_solver.
    + intros h Hh. rewrite (hook_id_view k); [by apply Hid|]. rewrite unlink_hooks. apply write_line_view.
  - fold (hook_id k y). rewrite (proj2 (Z.eqb_neq _ _)) by (apply Hid; set_solver). rewrite cell_after_cons.
    apply IH; [done|simpl in Hlen; lia| |set_solver|done].
    intros z [= <-] Hin. assert (NoDup (y :: l1 ++ x :: l2)) as [? _]%NoDup_cons; [|done].
    by apply (chain_NoDup (irq_next k) (Some y)).
Qed.

Lemma unlink_line_list k irq l1 x l2 :
  line_list k irq (l1 ++ x :: l2) →
  line_list (unlink_hook irq (hook_id k x) (cell_after CHead l1) (irq_next k x) k) irq (l1 ++ l2).
Proof.
  intros HL. set (k' := unlink_hook _ _ _ _ _).
  assert (∀ h, hook_view (irq_hooks k' h) = hook_view (irq_hooks k h)) as Hv.
  { intros h. unfold k'. rewrite unlink_hooks. apply write_line_view. }
  assert (∀ l : list Z, hook_id k' <$> l = hook_id k <$> l) as Hids.
  { intros l. apply list_fmap_ext. intros. by apply hook_id_view. }
  assert (∀ h, h ∈ l1 ++ l2 → h ∈ l1 ++ x :: l2) as Hin by set_solver.
  pose proof (ll_nodup _ _ _ HL) as Hnd. rewrite fmap_app, fmap_cons in Hnd.
  split.
  - unfold irq_next at 1. unfold k'. rewrite unlink_heads. eapply chain_ext.
    + intros h Hh. fold k'. unfold k'. by rewrite unlink_hooks.
    + apply write_line_chain, splice_remove. apply HL.
  - intros h Hh. rewrite (hook_irq_view k) by done. by apply HL, Hin.
  - intros h Hh. rewrite (hook_id_view k) by done. by apply HL, Hin.
  - rewrite Hids, fmap_app. apply NoDup_app in Hnd as (? & Hd & [? ?]%NoDup_cons). apply NoDup_app. set_solver.
  - intros j Hj. unfold k'. rewrite unlink_act, clear_flag_bit by done. intros [Hb Hn]%andb_true_iff. fold k'. rewrite Hids.
    apply (ll_act _ _ _ HL) in Hb; [|done]. rewrite fmap_app, fmap_cons in Hb. rewrite fmap_app.
    destruct (decide (2 ^ j = hook_id k x)) as [E|E]; [|set_solver].
    exfalso. rewrite <-E, Z.pow2_bits_true in Hn by done. done.
Qed.

Lemma rm_irq_handler_spec k L irq hook l1 l2 :
  lines_ok k L → in_line irq → L irq = l1 ++ hook :: l2 →
  wp (rm_irq_handler hook) (λ _ k', lines_ok k' (upd L irq (l1 ++ l2)) ∧ line_step k k' irq (L irq)) k.
Proof.
  intros HL Hi El. pose proof (HL irq Hi) as [HLi Hm _]. rewrite El in HLi, Hm. unfold rm_irq_handler. wp_steps.
  rewrite (ll_irq _ _ _ HLi hook) by set_solver.
  destruct ((irq <? 0) || (NR_IRQ_VECTORS <=? irq)) eqn:Er; [unfold in_line in Hi; lia|]. wp_steps. fold (hook_id k hook).
  eapply wp_intro.
  { apply (rm_walk_unlink _ _ _ _ _ l1 hook l2); [apply HLi| |done| |done].
    - pose proof (line_length _ _ _ HLi). unfold LINE_FUEL. lia.
    - intros h Hh E. pose proof (ll_nodup _ _ _ HLi) as Hnd. rewrite fmap_app, fmap_cons in Hnd.
      apply NoDup_app in Hnd as (_ & Hd & [Hn _]%NoDup_cons). apply elem_of_app in Hh as [Hh|Hh].
      + apply (Hd (hook_id k hook)); [|left]. rewrite <-E. by apply list_elem_of_fmap_2.
      + apply Hn. rewrite <-E. by apply list_elem_of_fmap_2. }
  set (k1 := unlink_hook _ _ _ _ _).
  assert (line_list k1 irq (l1 ++ l2)) as HL1 by by apply unlink_line_list.
  assert (line_step k k1 irq (L irq)) as Hst by (apply unlink_step; intros x Hx%cell_after_elem; rewrite El; apply elem_of_app; by left).
  assert (∀ k', line_step k1 k' irq [] → line_ok k' irq (l1 ++ l2) → lines_ok k' (upd L irq (l1 ++ l2)) ∧ line_step k k' irq (L irq)) as Hfin.
  { intros k' Hst' Hok. assert (line_step k k' irq (L irq)) as Hst2.
    { eapply line_step_trans; [done|]. eapply line_step_mono; [done|set_solver]. }
    split; [|done]. eapply lines_step; [done..| |done]. intros h i Hh Hl Hin. rewrite El in Hh.
    rewrite <-(ll_irq _ _ _ (lo_list _ _ _ (HL i Hl)) h Hin). by apply HLi. }
  assert (irq_handlers k1 irq = head (l1 ++ l2)) as Hhd by (apply chain_head with (next := irq_next k1), HL1).
  wp_steps. rewrite Hhd. destruct (l1 ++ l2) as [|y l'] eqn:El'; simpl.
  - apply irq_8259_mask_spec; [done|]. intros k2 Hst2 Hh2 Hd2 Ha2 Hm2. apply Hfin; [done|]. split; [|done|done].
    eapply (line_list_ext k1); [done|by intros; rewrite Hh2|by rewrite Hd2|]. rewrite Ha2. apply HL1.
  - destruct (irq_actids k1 irq =? 0) eqn:E.
    + apply irq_8259_unmask_spec; [done|]. intros k2 Hst2 Hh2 Hd2 Ha2 Hm2. apply Hfin; [done|]. split; [|by rewrite Ha2, E|done].
      eapply (line_list_ext k1); [done|by intros; rewrite Hh2|by rewrite Hd2|]. rewrite Ha2. apply HL1.
    + wp_steps. apply Hfin; [done|]. split; [done| |done]. intros _. rewrite E. unfold k1. rewrite unlink_masked.
      rewrite Hm by (by destruct l1). destruct (irq_actids k irq =? 0) eqn:E0; [|done].
      apply Z.eqb_eq in E0. unfold k1 in E. rewrite unlink_act, E0, clear_flag_0 in E. done.
Qed.

(** ** [enable_irq] and [disable_irq] *)

Lemma elem_not_nil (x : Z) l : x ∈ l → l ≠ [].
Proof. by intros Hx ->; apply elem_of_nil in Hx. Qed.
Lemma lines_upd_same k L irq : in_line irq → lines_ok k (upd L irq (L irq)) → lines_ok k L.
Proof. intros Hi H i Hl. specialize (H i Hl). rewrite upd_case in H. by case_decide; subst. Qed.

Lemma enable_irq_spec k L irq hook :
  lines_ok k L → in_line irq → hook ∈ L irq →
  wp (enable_irq hook) (λ _ k', lines_ok k' L ∧ line_step k k' irq [] ∧
    irq_actids k' irq = clear_flag (hook_id k hook) (irq_actids k irq)) k.
Proof.
  intros HL Hi Hh. pose proof (HL irq Hi) as [HLi Hm _]. unfold enable_irq. wp_steps. rewrite (ll_irq _ _ _ HLi hook Hh).
  assert (L irq ≠ []) as Hne by by eapply elem_not_nil.
  eapply wp_mono; [eapply clear_active_spec; [done|exact HLi|done|]|].
  { intros H0. rewrite Hm by done. by rewrite (proj2 (Z.eqb_neq _ _)). }
  intros [] k' (Hok & Hst & _ & Ha). split_and!; [|done|done].
  apply (lines_upd_same _ _ irq Hi). eapply lines_step; [done..|set_solver|done].
Qed.

Lemma disable_irq_spec k L irq hook :
  lines_ok k L → in_line irq → hook ∈ L irq →
  wp (disable_irq hook) (λ r k', lines_ok k' L ∧ line_step k k' irq [] ∧ r = negb (has (irq_actids k irq) (hook_id k hook)) ∧
    has (irq_actids k' irq) (hook_id k hook) = true ∧ line_masked k' irq = true) k.
Proof.
  intros HL Hi Hh. pose proof (HL irq Hi) as [HLi Hm _]. unfold disable_irq. wp_steps. rewrite (ll_irq _ _ _ HLi hook Hh).
  fold (hook_id k hook). assert (L irq ≠ []) as Hne by by eapply elem_not_nil. destruct (ll_id _ _ _ HLi hook Hh) as (j & Hj & Ej).
  destruct (has (irq_actids k irq) (hook_id k hook)) eqn:E; wp_steps.
  - split_and!; [done..|]. rewrite Hm by done. rewrite (proj2 (Z.eqb_neq _ _)); [done|]. intros E0. by rewrite E0, has_0 in E.
  - set (k1 := upd_act irq _ k). assert (irq_actids k1 irq = set_flag (hook_id k hook) (irq_actids k irq)) as Ha by (simpl; by rewrite upd_eq).
    assert (2 ^ j ≠ 0) as Hj0 by lia.
    apply irq_8259_mask_spec; [done|]. intros k2 Hst2 Hh2 Hd2 Ha2 Hm2.
    assert (line_step k k2 irq []) as Hst by (eapply line_step_trans; [apply upd_act_step|done]).
    assert (irq_actids k2 irq = set_flag (hook_id k hook) (irq_actids k irq)) as Ha' by by rewrite Ha2.
    split_and!; [|done|done| |done].
    + apply (lines_upd_same _ _ irq Hi). eapply lines_step; [done..|set_solver|]. split; [| |done].
      * eapply (line_list_ext k); [done|by intros; rewrite Hh2|by rewrite Hd2|]. rewrite Ha'. intros i Hi'.
        rewrite set_flag_bit, orb_true_iff. intros [Hb|Hb]; [by apply HLi|]. rewrite Ej, Z.pow2_bits_eqb in Hb by lia.
        apply Z.eqb_eq in Hb. subst i. rewrite <-Ej. by apply list_elem_of_fmap_2.
      * intros _. rewrite Hm2, Ha', Ej. by rewrite (proj2 (Z.eqb_neq _ _)) by (by apply set_flag_nonzero).
    + rewrite Ha', Ej. by apply has_set_self.
Qed.
