(* ===== verification/IrqCtl.v ===== *)
(** * Interrupt hooks and the drivers that own them

    The kernel call [do_irqctl] keeps the invariant of the interrupt lines together with the
    ownership of the hooks of the table: a hook is on a line exactly if a process owns it. *)
From S2P Require Import Prelude LinkedList Kernel Endpoint Sched IpcInv Notify Irq IrqInv.

Definition on_line (L : Z → list Z) (h : Z) : Prop := ∃ irq, in_line irq ∧ h ∈ L irq.
Definition owner (k : kstate) (h : Z) : Z := hk_proc_nr_e (irq_hooks k h).

(** At most 16 hooks of a line are the kernel's own. *)
Definition room (L : Z → list Z) : Prop :=
  ∀ irq, in_line irq → (length (filter (λ h, h ∉ hook_table) (L irq)) ≤ 16)%nat.

Record irq_inv (k : kstate) (L : Z → list Z) : Prop := {
  iv_lines : lines_ok k L;
  iv_owner : ∀ h, h ∈ hook_table → owner k h ≠ NONE ↔ on_line L h;
  iv_room : room L;
}.
(** The same, while hook [i] is on no line. *)
Record irq_detached (k : kstate) (L : Z → list Z) (i : Z) : Prop := {
  id_lines : lines_ok k L;
  id_owner : ∀ h, h ∈ hook_table → h ≠ i → owner k h ≠ NONE ↔ on_line L h;
  id_off : ~ on_line L i;
  id_room : room L;
}.

Lemma hook_table_elem h : h ∈ hook_table ↔ 0 ≤ h < NR_IRQ_HOOKS.
Proof. unfold hook_table. by rewrite elem_of_seqZ. Qed.

Lemma line_nodup k irq l : line_list k irq l → NoDup l.
Proof. intros HL. eapply chain_NoDup, HL. Qed.

Lemma length_split (t l : list Z) :
  length l = (length (filter (λ h, h ∈ t) l) + length (filter (λ h, h ∉ t) l))%nat.
Proof. induction l as [|x l IH]; [done|]. rewrite !filter_cons. simpl. repeat case_decide; simpl; tauto || lia. Qed.

(** A line that a hook of the table is not on has room for it. *)
Lemma room_length k L i irq :
  lines_ok k L → room L → i ∈ hook_table → in_line irq → i ∉ L irq → (length (L irq) < 32)%nat.
Proof.
  intros HL Hr Hi Hl Hn. specialize (Hr irq Hl). pose proof (line_nodup _ _ _ (lo_list _ _ _ (HL irq Hl))) as Hnd.
  rewrite (length_split hook_table).
  assert (length (i :: filter (λ h, h ∈ hook_table) (L irq)) ≤ length hook_table)%nat as Hle.
  { apply submseteq_length, NoDup_submseteq.
    - apply NoDup_cons. split; [|by apply NoDup_filter]. rewrite list_elem_of_filter. tauto.
    - intros h [->|[Hh _]%list_elem_of_filter]%elem_of_cons; done. }
  change (length hook_table) with 16%nat in Hle. simpl in Hle. lia.
Qed.

Lemma room_upd L irq l : room L → (length (filter (λ h, h ∉ hook_table) l) ≤ length (filter (λ h, h ∉ hook_table) (L irq)))%nat → room (upd L irq l).
Proof.
  intros Hr Hle i Hi. rewrite upd_case. case_decide as E; [|by apply Hr]. subst i. etrans; [done|by apply Hr].
Qed.

Lemma owner_step k k' irq hs h : line_step k k' irq hs → owner k' h = owner k h.
Proof. intros Hst. pose proof (ls_owner _ _ _ _ Hst h) as [= E _ _]. done. Qed.

Lemma detach k L i :
  irq_inv k L → i ∈ hook_table → on_line L i →
  wp (rm_irq_handler i) (λ _ k', (∃ L', irq_detached k' L' i) ∧ proctab k' = proctab k ∧
    ∀ h, owner_view (irq_hooks k' h) = owner_view (irq_hooks k h)) k.
Proof.
  intros [HL Ho Hr] Hi (irq & Hl & Hin). destruct (list_elem_of_split _ _ Hin) as (l1 & l2 & El).
  eapply wp_mono; [by eapply rm_irq_handler_spec|]. intros [] k' [HL' Hst]. split_and!; [|apply Hst|apply Hst].
  exists (upd L irq (l1 ++ l2)).
  assert (NoDup (l1 ++ i :: l2)) as Hnd by (rewrite <-El; by eapply line_nodup, HL).
  assert (∀ h, h ≠ i → on_line (upd L irq (l1 ++ l2)) h ↔ on_line L h) as Hon.
  { intros h Hne. unfold on_line. split; intros (q & Hq & Hh); exists q; (split; [done|]);
      rewrite upd_case in *; case_decide as E; try done; subst q; rewrite El in *; set_solver. }
  split; [done| | |].
  - intros h Hh Hne. rewrite (owner_step _ _ _ _ _ Hst), Hon by done. by apply Ho.
  - intros (q & Hq & Hh). rewrite upd_case in Hh. case_decide as E.
    + apply NoDup_app in Hnd as (_ & ? & [? _]%NoDup_cons). set_solver.
    + apply E. rewrite <-(ll_irq _ _ _ (lo_list _ _ _ (HL q Hq)) i Hh). by apply (HL irq Hl).
  - apply room_upd; [done|]. rewrite El, !filter_app, filter_cons, !length_app. case_decide; simpl; lia.
Qed.

Lemma attach k L i irq handler :
  irq_detached k L i → i ∈ hook_table → owner k i ≠ NONE → in_line irq →
  wp (put_irq_handler i irq handler) (λ _ k', irq_inv k' (upd L irq (L irq ++ [i])) ∧ proctab k' = proctab k ∧
    ∀ h, owner_view (irq_hooks k' h) = owner_view (irq_hooks k h)) k.
Proof.
  intros [HL Ho Hoff Hr] Hi Hown Hl.
  assert (∀ q, in_line q → i ∉ L q) as Hn by (intros q Hq Hin; apply Hoff; by exists q).
  eapply wp_mono; [apply (put_irq_handler_spec k L irq); [done|done|done|eapply (room_length k); eauto]|].
  intros [] k' (HL' & Hst & _ & _). split_and!; [|apply Hst|apply Hst].
  assert (∀ h, on_line (upd L irq (L irq ++ [i])) h ↔ on_line L h ∨ h = i) as Hon.
  { intros h. unfold on_line. split.
    - intros (q & Hq & Hh). rewrite upd_case in Hh. case_decide as E; [subst q|by left; exists q].
      apply elem_of_app in Hh as [Hh|Hh%list_elem_of_singleton]; [left; by exists irq|by right].
    - intros [(q & Hq & Hh)| ->]; [|exists irq; rewrite upd_eq; split; [done|set_solver]].
      exists q. split; [done|]. rewrite upd_case. case_decide; [subst q; set_solver|done]. }
  split; [done| |].
  - intros h Hh. rewrite (owner_step _ _ _ _ _ Hst), Hon. destruct (decide (h = i)) as [->|Hne]; [tauto|].
    rewrite Ho by done. tauto.
  - apply room_upd; [done|]. rewrite filter_app, length_app, filter_cons. case_decide; [done|]. simpl. lia.
Qed.

(** A hook that is on no line can be given to a process, or be freed. *)
Lemma detached_hook k L i f : irq_detached k L i → irq_detached (upd_hook i f k) L i.
Proof.
  intros [HL Ho Hoff Hr]. assert (∀ h, h ≠ i → irq_hooks (upd_hook i f k) h = irq_hooks k h) as Hh by (intros; simpl; by rewrite upd_ne).
  split; [|intros h Ht Hne; unfold owner; rewrite Hh by done; by apply Ho|done|done].
  intros q Hq. apply (line_ok_ext k); [by apply HL| |done..]. intros h Hin. apply Hh. intros ->. apply Hoff. by exists q.
Qed.
Lemma detached_free k L i : irq_inv k L → i ∈ hook_table → owner k i = NONE → irq_detached k L i.
Proof.
  intros [HL Ho Hr] Hi Hn. split; [done|by intros; apply Ho| |done]. intros Hon. by apply (Ho i Hi).
Qed.
Lemma detached_release k L i : irq_detached k L i → owner k i = NONE → irq_inv k L.
Proof.
  intros [HL Ho Hoff Hr] Hn. split; [done| |done]. intros h Hh. destruct (decide (h = i)) as [->|]; [tauto|by apply Ho].
Qed.

Lemma inv_same_lines k k' L irq :
  irq_inv k L → lines_ok k' L → line_step k k' irq [] → irq_inv k' L.
Proof.
  intros [_ Ho Hr] HL Hst. split; [done| |done]. intros h Hh. by rewrite (owner_step _ _ _ _ _ Hst), Ho.
Qed.

(** ** The kernel call *)

(** What a caller with endpoint [e] may do to the table: hooks of other processes stay theirs. *)
Definition others_kept (e : Z) (k k' : kstate) : Prop :=
  ∀ h, owner k h ≠ e → owner k h ≠ NONE → owner_view (irq_hooks k' h) = owner_view (irq_hooks k h).

Lemma others_same e k k' : (∀ h, owner_view (irq_hooks k' h) = owner_view (irq_hooks k h)) → others_kept e k k'.
Proof. intros H h _ _. apply H. Qed.

Lemma owner_eq k k' h : owner_view (irq_hooks k' h) = owner_view (irq_hooks k h) → owner k' h = owner k h.
Proof. unfold owner. by intros [= -> _ _]. Qed.

Lemma find_hook_Some (p : Z → bool) i : find p hook_table = Some i → i ∈ hook_table ∧ p i = true.
Proof. intros H. apply find_some in H as [?%list_elem_of_In ?]. done. Qed.

Lemma choose_hook_spec k L e n :
  irq_inv k L → e ≠ NONE →
  wp (choose_hook e n) (λ r k', proctab k' = proctab k ∧ (∀ h, owner_view (irq_hooks k' h) = owner_view (irq_hooks k h)) ∧
    match r with
    | None => irq_inv k' L
    | Some i => i ∈ hook_table ∧ (owner k i = e ∨ owner k i = NONE) ∧ ∃ L', irq_detached k' L' i
    end) k.
Proof.
  intros HI He. unfold choose_hook. wp_steps.
  destruct (find _ hook_table) as [i|] eqn:E; [apply find_hook_Some in E as [Hi [Ho _]%andb_true_iff]|]; wp_steps.
  - apply Z.eqb_eq in Ho. eapply wp_mono; [eapply detach; [done|done|]|].
    { apply (iv_owner _ _ HI); [done|]. unfold owner. by rewrite Ho. }
    intros [] k' (Hd & Hp & Hv). wp_steps. split_and!; [done..| |done]. by left.
  - clear E. destruct (find _ hook_table) as [i|] eqn:E; [|done]. apply find_hook_Some in E as [Hi Ho].
    apply Z.eqb_eq in Ho. split_and!; [done|done|done|by right|]. exists L. by apply detached_free.
Qed.

(** A request that was refused changed nothing of the lines. *)
Ltac refused L := exists L; split; [done|]; split; [done|]; split; [by apply others_same|]; intros [=].

Lemma irq_setpolicy_spec k L caller m :
  irq_inv k L → p_endpoint (proctab k caller) ≠ NONE →
  wp (irq_setpolicy caller m) (λ r k', ∃ L', irq_inv k' L' ∧ proctab k' = proctab k ∧
    others_kept (p_endpoint (proctab k caller)) k k' ∧
    (r.1 = OK → let i := IRQ_HOOK_ID r.2 - 1 in i ∈ hook_table ∧ i ∈ L' (IRQ_VECTOR m) ∧
       owner_view (irq_hooks k' i) = (p_endpoint (proctab k caller), i32 (IRQ_HOOK_ID m), u32 (IRQ_POLICY m)))) k.
Proof.
  intros HI He. unfold irq_setpolicy. set (e := p_endpoint (proctab k caller)) in *.
  destruct ((IRQ_VECTOR m <? 0) || (NR_IRQ_VECTORS <=? IRQ_VECTOR m)) eqn:Er; wp_steps; [refused L|].
  destruct (irq_allowed k caller (IRQ_VECTOR m)); cbn [negb]; wp_steps; [|refused L].
  destruct (31 <? u32 (i32 (IRQ_HOOK_ID m))) eqn:En; wp_steps; [refused L|].
  eapply wp_mono; [by eapply choose_hook_spec|]. intros [i|] k1 (Hp & Hv & Hr); wp_steps; [|refused L].
  destruct Hr as (Hi & Ho & L1 & Hd).
  set (k2 := upd_hook i _ k1). assert (owner_view (irq_hooks k2 i) = (e, i32 (IRQ_HOOK_ID m), u32 (IRQ_POLICY m))) as Hvi by (simpl; by rewrite upd_eq).
  eapply wp_mono; [apply (attach k2 L1 i (IRQ_VECTOR m)); [by apply detached_hook|done| |unfold in_line; lia]|].
  { unfold owner. simpl. rewrite upd_eq. done. }
  intros [] k3 (HI3 & Hp3 & Hv3). wp_steps. eexists. split_and!; [exact HI3|by rewrite Hp3| |].
  - intros h Hne Hnn. rewrite Hv3, <-Hv. simpl. rewrite upd_ne; [done|]. intros ->. destruct Ho as [Ho|Ho]; [by apply Hne|by apply Hnn].
  - intros _. unfold IRQ_HOOK_ID at 1 2 3. cbn [snd]. rewrite m_word_set, upd_eq, Z.add_simpl_r.
    split; [exact Hi|]. split; [apply elem_of_app; right; by apply list_elem_of_singleton|]. by rewrite Hv3.
Qed.

(** A request on a hook that the caller owns. *)
Lemma on_own_hook_spec k L caller i act m :
  irq_inv k L →
  (i ∈ hook_table → on_line L i → owner k i = p_endpoint (proctab k caller) →
   wp act (λ _ k', ∃ L', irq_inv k' L' ∧ proctab k' = proctab k ∧ others_kept (p_endpoint (proctab k caller)) k k') k) →
  wp (on_own_hook caller i act m) (λ _ k', ∃ L', irq_inv k' L' ∧ proctab k' = proctab k ∧
    others_kept (p_endpoint (proctab k caller)) k k') k.
Proof.
  intros HI Hact. unfold on_own_hook. wp_steps. destruct (hook_in_use k i) eqn:Hu; simpl; wp_steps; [|by exists L].
  destruct (_ =? p_endpoint _) eqn:Eo; simpl; wp_steps; [|by exists L].
  unfold hook_in_use in Hu. rewrite !andb_true_iff, Z.leb_le, Z.ltb_lt, negb_true_iff, Z.eqb_neq in Hu. apply Z.eqb_eq in Eo.
  destruct Hu as [Hrange Hu]. apply hook_table_elem in Hrange as Hi.
  eapply wp_mono; [apply Hact; [done|by apply (iv_owner _ _ HI)|done]|]. intros [] k' H. wp_steps. exact H.
Qed.

(** C26. [do_irqctl] never panics on a state where the interrupt lines are consistent: every line
    lists its hooks with identifiers of their own, a line in use is masked exactly while a hook
    is active, a hook of the table is on a line exactly if a process owns it.  Afterwards this
    still holds for every request and every message, no process changes, hooks owned by other
    processes stay theirs; a successful [IRQ_SETPOLICY] returns the number of a hook of the
    requested line that notifies the caller with the identifier and the policy it gave. *)
Theorem do_irqctl_keeps_lines k L caller m :
  irq_inv k L → p_endpoint (proctab k caller) ≠ NONE →
  wp (do_irqctl caller m) (λ r k', ∃ L', irq_inv k' L' ∧ proctab k' = proctab k ∧
    others_kept (p_endpoint (proctab k caller)) k k' ∧
    (IRQ_REQUEST m = IRQ_SETPOLICY → r.1 = OK →
       let i := IRQ_HOOK_ID r.2 - 1 in i ∈ hook_table ∧ i ∈ L' (IRQ_VECTOR m) ∧
       owner_view (irq_hooks k' i) = (p_endpoint (proctab k caller), i32 (IRQ_HOOK_ID m), u32 (IRQ_POLICY m)))) k.
Proof.
  intros HI He. unfold do_irqctl. set (i := i32 _). set (e := p_endpoint (proctab k caller)) in *.
  assert (∀ act : K unit,
    (i ∈ hook_table → on_line L i → owner k i = e →
       wp act (λ _ k', ∃ L', irq_inv k' L' ∧ proctab k' = proctab k ∧ others_kept e k k') k) → IRQ_REQUEST m ≠ IRQ_SETPOLICY →
    wp (on_own_hook caller i act m) (λ r k', ∃ L', irq_inv k' L' ∧ proctab k' = proctab k ∧ others_kept e k k' ∧
      (IRQ_REQUEST m = IRQ_SETPOLICY → r.1 = OK →
       let i := IRQ_HOOK_ID r.2 - 1 in i ∈ hook_table ∧ i ∈ L' (IRQ_VECTOR m) ∧
       owner_view (irq_hooks k' i) = (e, i32 (IRQ_HOOK_ID m), u32 (IRQ_POLICY m)))) k) as Hown.
  { intros act Hact Hreq. eapply wp_mono; [by eapply on_own_hook_spec|]. intros r k' (L' & ? & ? & ?). exists L'. do 3 (split; [done|]). intros E _. by rewrite E in Hreq. }
  destruct (IRQ_REQUEST m =? IRQ_ENABLE) eqn:E1; [|destruct (IRQ_REQUEST m =? IRQ_DISABLE) eqn:E2;
    [|destruct (IRQ_REQUEST m =? IRQ_SETPOLICY) eqn:E3; [|destruct (IRQ_REQUEST m =? IRQ_RMPOLICY) eqn:E4]]].
  - apply Hown; [|by apply Z.eqb_eq in E1 as ->]. intros Hi (irq & Hl & Hin) Ho.
    eapply wp_mono; [by eapply enable_irq_spec; [apply HI| |]|]. intros [] k' (HL & Hst & _). exists L.
    split_and!; [by eapply inv_same_lines|apply Hst|apply others_same, Hst].
  - apply Hown; [|by apply Z.eqb_eq in E2 as ->]. intros Hi (irq & Hl & Hin) Ho. wp_steps.
    eapply wp_mono; [by eapply disable_irq_spec; [apply HI| |]|]. intros b k' (HL & Hst & _). wp_steps. exists L.
    split_and!; [by eapply inv_same_lines|apply Hst|apply others_same, Hst].
  - eapply wp_mono; [by eapply irq_setpolicy_spec|]. intros r k' (L' & ? & ? & ? & H). exists L'. do 3 (split; [done|]). intros _. exact H.
  - apply Hown; [|by apply Z.eqb_neq]. intros Hi Hon Ho. wp_steps.
    eapply wp_mono; [by eapply detach|]. intros [] k' ((L' & Hd) & Hp & Hv). wp_steps. exists L'. split_and!; [|done|].
    + eapply detached_release; [by apply detached_hook|]. unfold owner. simpl. by rewrite upd_eq.
    + intros h Hne _. simpl. rewrite upd_ne; [apply Hv|]. intros ->. done.
  - wp_steps. exists L. do 3 (split; [done|]). intros _ [=].
Qed.

(** The state of the interrupt system after initialisation. *)
Lemma irq_start k :
  irq_hooks k = (λ _, irq_hook0) → irq_handlers k = (λ _, None) → irq_actids k = (λ _, 0) →
  int_ctlmask k = 0xFB → int2_ctlmask k = 0xFF → irq_inv k (λ _, []).
Proof.
  intros Hh Hd Ha Hm1 Hm2. split.
  - intros irq Hi. split; [|done|].
    + split; rewrite ?Hd, ?Ha; try done; [set_solver..|constructor|]. intros j Hj. by rewrite Z.bits_0.
    + intros _ Hc. unfold line_masked. rewrite Hm1, Hm2. unfold in_line, NR_IRQ_VECTORS, CASCADE_IRQ in *.
      assert (Forall (λ q, q ≠ 2 → Z.testbit (if q <? 8 then 0xFB else 0xFF) (Z.land q 7) = true) (seqZ 0 16)) as Hall.
      { repeat constructor; done. }
      rewrite Forall_forall in Hall. apply Hall; [apply elem_of_seqZ; lia|done].
  - intros h _. unfold owner. rewrite Hh. simpl. split; [done|]. by intros (q & _ & []%elem_of_nil).
  - intros irq _. simpl. lia.
Qed.

(** Driver 20 asks for line 5, identifier 3, with line 5 shared afterwards. *)
Definition irq_setpolicy_msg (irq id policy : Z) : message :=
  mk_message 20 0 [IRQ_SETPOLICY + Z.shiftl irq 16; policy; 0; 0; 0; id].

Lemma do_irqctl_keeps_lines_witness :
  wp (do_irqctl 20 (irq_setpolicy_msg 5 3 1)) (λ r k', (∃ L', irq_inv k' L' ∧ 0 ∈ L' 5) ∧ r.1 = OK) ipc_demo.
Proof.
  assert (irq_inv ipc_demo (λ _, [])) as HI by by apply irq_start.
  pose proof (do_irqctl_keeps_lines ipc_demo _ 20 (irq_setpolicy_msg 5 3 1) HI ltac:(done)) as Hw.
  assert (∃ r k', do_irqctl 20 (irq_setpolicy_msg 5 3 1) ipc_demo = Ret (r, k') ∧ r.1 = OK ∧ IRQ_HOOK_ID r.2 = 1) as (r & k' & Hrun & Hr & Hid).
  { vm_compute. eauto. }
  unfold wp in *. rewrite Hrun in *. destruct Hw as (L' & HI' & _ & _ & Hset). split; [|done].
  exists L'. split; [done|]. destruct (Hset ltac:(done) Hr) as (_ & Hin & _). by rewrite Hid in Hin.
Defined.
