(* ===== verification/IrqHandle.v ===== *)
(** * Handling an interrupt

    [irq_handle] calls the handlers of a line one after the other.  What it needs of them is
    stated as an interface, [IrqHandlers]; with handlers that meet it the line ends up masked
    exactly if a handler wants it so.  [generic_handler] meets the interface, so an interrupt
    reaches every driver that has a hook on its line. *)
From S2P Require Import Prelude LinkedList Kernel Endpoint Sched IpcInv Notify Irq IrqInv IrqCtl.

(** ** The interface of a handler *)

(** The handler left the interrupt system alone. *)
Record irq_same (k k' : kstate) : Prop := {
  is_hooks : irq_hooks k' = irq_hooks k;
  is_heads : irq_handlers k' = irq_handlers k;
  is_act : irq_actids k' = irq_actids k;
  is_mask1 : int_ctlmask k' = int_ctlmask k;
  is_mask2 : int2_ctlmask k' = int2_ctlmask k;
}.
Lemma irq_same_trans k1 k2 k3 : irq_same k1 k2 → irq_same k2 k3 → irq_same k1 k3.
Proof. intros [] []. split; congruence. Qed.
Lemma irq_same_masked k k' irq : irq_same k k' → line_masked k' irq = line_masked k irq.
Proof. intros []. unfold line_masked. by case_match; f_equal. Qed.

(** A property that says nothing about active words and masks. *)
Definition irq_blind (P : kstate → Prop) : Prop :=
  ∀ k irq f, (P k → P (upd_act irq f k)) ∧ (P k → P (ctl_mask_write irq f k)).

(** The handlers of the hooks [hs] do their work and keep [Inv]: [answer h] is what the one of
    hook [h] returns, [Done h] holds when it has returned and remains true. *)
Class IrqHandlers (kernel_handler : Z → Z → K Z) (hs : list Z) (Inv : kstate → Prop) (answer : Z → Z)
    (Done : Z → kstate → Prop) : Prop := {
  ih_call : ∀ k h, Inv k → h ∈ hs →
    wp (call_handler kernel_handler h) (λ r k', r = answer h ∧ irq_same k k' ∧ Inv k' ∧ Done h k' ∧
      ∀ h', h' ∈ hs → Done h' k → Done h' k') k;
  ih_inv : irq_blind Inv;
  ih_done : ∀ h, irq_blind (Done h);
}.

Lemma ids_disjoint a b : is_id a → is_id b → a ≠ b → Z.land a b = 0.
Proof.
  intros (i & Hi & ->) (j & Hj & ->) Hne. apply Z.bits_inj_0. intros n. rewrite Z.land_spec.
  destruct (decide (0 ≤ n)); [|by rewrite Z.testbit_neg_r by lia].
  rewrite !Z.pow2_bits_eqb by lia. destruct (i =? n) eqn:E1, (j =? n) eqn:E2; try done. exfalso. apply Hne. f_equal. lia.
Qed.

Lemma NoDup_fmap_eq (f : Z → Z) l x y : NoDup (f <$> l) → x ∈ l → y ∈ l → f x = f y → x = y.
Proof.
  induction l as [|z l IH]; [by intros _ []%elem_of_nil|]. rewrite fmap_cons. intros [Hz Hl]%NoDup_cons Hx Hy E.
  apply elem_of_cons in Hx as [->|Hx], Hy as [->|Hy]; [done| | |by apply IH].
  - exfalso. apply Hz. rewrite E. by apply list_elem_of_fmap_2.
  - exfalso. apply Hz. rewrite <-E. by apply list_elem_of_fmap_2.
Qed.

(** ** The loop over a line *)

Section irq_handle_spec.
Context (kernel_handler : Z → Z → K Z) (L : Z → list Z) (Inv : kstate → Prop) (answer : Z → Z) (Done : Z → kstate → Prop).
Context (k0 : kstate) (irq : Z) (Hirq : in_line irq) (HL : lines_ok k0 L).
Context (HH : IrqHandlers kernel_handler (L irq) Inv answer Done).

(** After the hooks [l1] have been called. *)
Record handled (l1 : list Z) (k : kstate) : Prop := {
  hd_hooks : irq_hooks k = irq_hooks k0;
  hd_heads : irq_handlers k = irq_handlers k0;
  hd_others : ∀ i, i ≠ irq → irq_actids k i = irq_actids k0 i;
  hd_masks : ∀ i, in_line i → i ≠ irq → line_masked k i = line_masked k0 i;
  hd_masked : line_masked k irq = true;
  hd_act : ∀ j, 0 ≤ j → Z.testbit (irq_actids k irq) j = true → 2 ^ j ∈ hook_id k0 <$> L irq;
  hd_answers : ∀ h, h ∈ l1 → has (irq_actids k irq) (hook_id k0 h) = (answer h =? 0);
  hd_inv : Inv k;
  hd_done : ∀ h, h ∈ l1 → Done h k;
}.

(** One bit of the active word is written, the bits of other hooks stay. *)
Lemma handled_act l1 k h f :
  handled l1 k → h ∈ L irq → h ∉ l1 → (∀ h', h' ∈ l1 → h' ∈ L irq) → f = set_flag ∨ f = clear_flag →
  handled l1 (upd_act irq (f (hook_id k0 h)) k).
Proof using HH HL Hirq.
  intros [Hh Hd Ho Hms Hm Ha Hans HI HD] Hin Hn Hsub Hf. pose proof (lo_list _ _ _ (HL irq Hirq)) as HLi.
  destruct (ll_id _ _ _ HLi h Hin) as (j & Hj & Ej).
  assert (irq_actids (upd_act irq (f (hook_id k0 h)) k) irq = f (hook_id k0 h) (irq_actids k irq)) as Eact by (simpl; by rewrite upd_eq).
  split; try done; rewrite ?Eact.
  - intros i Hne. simpl. rewrite upd_ne by done. by apply Ho.
  - intros i Hi. destruct Hf as [-> | ->].
    + rewrite set_flag_bit, orb_true_iff. intros [Hb|Hb]; [by apply Ha|]. rewrite Ej, Z.pow2_bits_eqb in Hb by lia.
      apply Z.eqb_eq in Hb. subst i. rewrite <-Ej. by apply list_elem_of_fmap_2.
    + rewrite clear_flag_bit by done. intros [Hb _]%andb_true_iff. by apply Ha.
  - intros h' Hh'. rewrite <-(Hans h' Hh'). assert (Z.land (hook_id k0 h) (hook_id k0 h') = 0) as Hz.
    { apply ids_disjoint; [by apply HLi|by apply HLi, Hsub|]. intros E.
      apply Hn. by rewrite (NoDup_fmap_eq (hook_id k0) (L irq) h h' (ll_nodup _ _ _ HLi) Hin (Hsub _ Hh') E). }
    destruct Hf as [-> | ->]; [by apply has_set_other|by apply has_clear_other].
  - by apply (ih_inv k irq).
  - intros h' Hh'. by apply (ih_done h' k irq), HD.
Qed.

Lemma handle_loop_spec fuel l1 l2 k :
  L irq = l1 ++ l2 → (length l2 ≤ fuel)%nat → handled l1 k →
  wp (handle_loop kernel_handler fuel irq (head l2)) (λ _ k', handled (L irq) k') k.
Proof using HH HL Hirq.
  revert l1 l2 k. induction fuel as [|fuel IH]; intros l1 [|h l2] k El Hlen Hk; cbn [handle_loop head];
    try (rewrite app_nil_r in El; rewrite El; by apply wp_ret); [simpl in Hlen; lia|].
  pose proof (lo_list _ _ _ (HL irq Hirq)) as HLi. pose proof (chain_NoDup _ _ _ (ll_chain _ _ _ HLi)) as Hnd.
  assert (h ∈ L irq) as Hin by (rewrite El; apply elem_of_app; right; left).
  assert (h ∉ l1) as Hn. { rewrite El in Hnd. apply NoDup_app in Hnd as (_ & Hd & _). intros Hl. apply (Hd h Hl). left. }
  assert (∀ h', h' ∈ l1 → h' ∈ L irq) as Hsub by (intros; rewrite El; apply elem_of_app; by left).
  destruct (ll_id _ _ _ HLi h Hin) as (j & Hj & Ej).
  wp_steps. rewrite (hd_hooks _ _ Hk). fold (hook_id k0 h).
  pose proof (handled_act _ _ h set_flag Hk Hin Hn Hsub (or_introl eq_refl)) as Hk1. set (k1 := upd_act _ _ k) in *.
  eapply wp_mono; [apply ih_call; [apply Hk1|done]|]. intros r k2 (-> & Hsame & HI2 & HD2 & Hst2).
  assert (handled l1 k2 ∧ irq_actids k2 irq = set_flag (hook_id k0 h) (irq_actids k irq)) as [Hk2 Ea2].
  { split; [|rewrite (is_act _ _ Hsame); simpl; by rewrite upd_eq]. destruct Hk1, Hsame as [S1 S2 S3 S4 S5].
    split; rewrite ?S1, ?S2, ?S3; try done.
    - intros i Hi Hne. rewrite (irq_same_masked k1) by done. auto.
    - rewrite (irq_same_masked k1) by done. auto.
    - intros h' Hh'. apply Hst2; [by apply Hsub|auto]. }
  assert (handled (l1 ++ [h]) (if answer h =? 0 then k2 else upd_act irq (clear_flag (hook_id k0 h)) k2)) as Hk3.
  { assert (∀ k, handled l1 k → Done h k → has (irq_actids k irq) (hook_id k0 h) = (answer h =? 0) → handled (l1 ++ [h]) k) as Hadd.
    { intros k' [] HDh Hah. split; try done; (intros h' [?|Hs%list_elem_of_singleton]%elem_of_app; [by auto|by rewrite Hs]). }
    destruct (answer h =? 0) eqn:Eans; apply Hadd.
    - done.
    - done.
    - rewrite Ea2, Ej. apply has_set_self. lia.
    - apply handled_act; auto.
    - by apply (ih_done h k2 irq).
    - simpl. rewrite upd_eq. apply has_clear_self. }
  assert (∀ Q, wp (handle_loop kernel_handler fuel irq (head l2)) Q (if answer h =? 0 then k2 else upd_act irq (clear_flag (hook_id k0 h)) k2) →
    wp ((if answer h =? 0 then mret () else
           irq' ← gets (λ k, hk_irq (irq_hooks k h)); id' ← gets (λ k, hk_id (irq_hooks k h)); modify (upd_act irq' (clear_flag id')));;
        next ← gets (λ k, irq_next k h); handle_loop kernel_handler fuel irq next) Q k2) as Hgo.
  { intros Q. destruct (chain_app (irq_next k0) (irq_handlers k0 irq) l1 (h :: l2) None) as [Hc _].
    destruct Hc as (m & _ & [_ Hc2]); [rewrite <-El; apply HLi|]. apply chain_head in Hc2.
    destruct (answer h =? 0); intros HQ; wp_steps; unfold irq_next in *; cbn [upd_act irq_hooks set settable_kstate] in *;
      rewrite !(hd_hooks _ _ Hk2), ?(ll_irq _ _ _ HLi h Hin), Hc2; exact HQ. }
  apply Hgo, (IH (l1 ++ [h])); [by rewrite <-app_assoc|simpl in Hlen; lia|done].
Qed.

(** What the line looks like when everything has been handled. *)
Lemma handled_lines k k' :
  handled (L irq) k → L irq ≠ [] → irq_hooks k' = irq_hooks k → irq_handlers k' = irq_handlers k → irq_actids k' = irq_actids k →
  (∀ i, in_line i → i ≠ irq → line_masked k' i = line_masked k i) →
  line_masked k' irq = negb (irq_actids k irq =? 0) → lines_ok k' L.
Proof using HL Hirq.
  intros [Hh Hd Ho Hms Hm Ha Hans _ _] Hne Hh' Hd' Ha' Hms' Hm' i Hi.
  destruct (decide (i = irq)) as [Heq|Hi'].
  - rewrite Heq. split; [|by rewrite Ha', Hm'|done]. apply (line_list_ext k0); [by apply HL|intros; by rewrite Hh', Hh|by rewrite Hd', Hd|].
    rewrite Ha'. exact Ha.
  - apply (line_ok_ext k0); [by apply HL|intros; by rewrite Hh', Hh|by rewrite Hd', Hd|by rewrite Ha', Ho|by rewrite Hms', Hms].
Qed.

(** The word is zero exactly if every handler has finished. *)
Lemma handled_idle k : handled (L irq) k → (irq_actids k irq =? 0) = negb (existsb (λ h, answer h =? 0) (L irq)).
Proof using HL Hirq.
  intros [_ _ _ _ _ Ha Hans _ _]. destruct (existsb _ _) eqn:E; simpl.
  - apply existsb_exists in E as (h & Hh%list_elem_of_In & Ez). apply Z.eqb_neq. intros E0.
    specialize (Hans h Hh). rewrite E0, has_0, Ez in Hans. done.
  - apply Z.eqb_eq, Z.bits_inj_0. intros b. destruct (decide (0 ≤ b)); [|by apply Z.testbit_neg_r; lia].
    destruct (Z.testbit _ b) eqn:Eb; [|done]. pose proof (Ha b ltac:(done) Eb) as (h & Ehb & Hh)%list_elem_of_fmap.
    specialize (Hans h Hh). rewrite <-Ehb, has_bit, Eb in Hans by done. assert (existsb (λ h, answer h =? 0) (L irq) = true) as Ht; [|congruence].
    apply existsb_exists. exists h. split; [by apply list_elem_of_In|done].
Qed.

Lemma irq_handle_spec :
  Inv k0 →
  wp (irq_handle kernel_handler irq) (λ _ k', lines_ok k' L ∧ Inv k' ∧ irq_hooks k' = irq_hooks k0 ∧
    ∀ h, h ∈ L irq → Done h k' ∧ has (irq_actids k' irq) (hook_id k0 h) = (answer h =? 0) ∧
      line_masked k' irq = existsb (λ h, answer h =? 0) (L irq)) k0.
Proof using HH HL Hirq.
  intros HI. unfold irq_handle. wp_steps. apply wp_assert; [unfold in_line in Hirq; lia|]. wp_steps.
  pose proof (lo_list _ _ _ (HL irq Hirq)) as HLi.
  assert (Inv (ctl_mask_write irq (set_flag (Z.shiftl 1 (Z.land irq 7))) k0)) as HI1 by by apply (ih_inv k0 irq).
  unfold irq_8259_mask. wp_steps. set (k1 := ctl_mask_write _ _ _) in *.
  assert (irq_hooks k1 = irq_hooks k0 ∧ irq_handlers k1 = irq_handlers k0 ∧ irq_actids k1 = irq_actids k0) as (Hh1 & Hd1 & Ha1)
    by (unfold k1, ctl_mask_write; by destruct (irq <? 8)).
  assert (∀ i, in_line i → line_masked k1 i = line_masked k0 i || (i =? irq)) as Hm1 by by apply line_masked_mask.
  rewrite Hd1, (chain_head _ _ _ (ll_chain _ _ _ HLi)).
  destruct (head (L irq)) as [h|] eqn:El; wp_steps.
  2: { apply head_None in El. split_and!; [|done|done|rewrite El; by intros h []%elem_of_nil]. intros i Hi. destruct (decide (i = irq)) as [Heq|Hne].
    - rewrite Heq. split; [|by rewrite El|by rewrite Hm1, Z.eqb_refl, orb_true_r].
      apply (line_list_ext k0); [done|by rewrite Hh1|by rewrite Hd1|rewrite Ha1; apply HLi].
    - apply (line_ok_ext k0); [by apply HL|by rewrite Hh1|by rewrite Hd1|by rewrite Ha1|].
      rewrite Hm1, (proj2 (Z.eqb_neq _ _)) by done. apply orb_false_r. }
  assert (handled [] k1) as Hk1.
  { split; try done; try set_solver.
    - intros i _. by rewrite Ha1.
    - intros i Hi Hne. rewrite Hm1, (proj2 (Z.eqb_neq _ _)) by done. apply orb_false_r.
    - by rewrite Hm1, Z.eqb_refl, orb_true_r.
    - rewrite Ha1. apply HLi. }
  eapply wp_mono.
  { rewrite <-El. apply (handle_loop_spec _ []); [done| |done].
    pose proof (line_length _ _ _ HLi). unfold LINE_FUEL. lia. }
  intros [] k2 Hk2. wp_steps. pose proof (handled_idle _ Hk2) as Hidle.
  assert (L irq ≠ []) as Hne by (intros E; by rewrite E in El).
  destruct (irq_actids k2 irq =? 0) eqn:E0; wp_steps.
  - unfold irq_8259_unmask. wp_steps. set (k3 := ctl_mask_write _ _ _).
    assert (irq_hooks k3 = irq_hooks k2 ∧ irq_handlers k3 = irq_handlers k2 ∧ irq_actids k3 = irq_actids k2) as (Hh3 & Hd3 & Ha3)
      by (unfold k3, ctl_mask_write; by destruct (irq <? 8)).
    assert (∀ i, in_line i → line_masked k3 i = line_masked k2 i && negb (i =? irq)) as Hm3 by by apply line_masked_unmask.
    assert (line_masked k3 irq = false) as Hm3' by (rewrite Hm3, Z.eqb_refl by done; apply andb_false_r).
    split_and!; [|by apply (ih_inv k2 irq), Hk2|rewrite Hh3; apply Hk2|].
    + apply (handled_lines k2); [done..| |by rewrite Hm3', E0].
      intros i Hi Hni. rewrite Hm3, (proj2 (Z.eqb_neq _ _)) by done. apply andb_true_r.
    + intros h' Hh'. split_and!; [by apply (ih_done h' k2 irq), Hk2|rewrite Ha3; by apply Hk2|].
      rewrite Hm3'. by destruct (existsb _ _).
  - split_and!; [|apply Hk2..|].
    + apply (handled_lines k2); [done..|]. by rewrite (hd_masked _ _ Hk2), E0.
    + intros h' Hh'. split_and!; [by apply Hk2|by apply Hk2|]. rewrite (hd_masked _ _ Hk2). by destruct (existsb _ _).
Qed.
End irq_handle_spec.

(** ** [generic_handler] meets the interface *)

(** Driver [d] has been told of an interrupt with identifier [n]: a notification from HARDWARE
    is pending with the bit in its set, or is being delivered and carries the bit. *)
Definition int_told (k : kstate) (d n : Z) : Prop :=
  (get_sys_bit (s_notify_pending (priv_of k d)) (s_id (priv_of k HARDWARE)) = true ∧
   Z.testbit (s_int_pending (priv_of k d)) n = true) ∨
  (delivering k d = true ∧ m_source (p_delivermsg (proctab k d)) = p_endpoint (proctab k HARDWARE) ∧
   m_type (p_delivermsg (proctab k d)) = NOTIFY_MESSAGE ∧ Z.testbit (NOTIFY_ARG (p_delivermsg (proctab k d))) n = true).

(** [s_int_pending |= (1 << notify_id)] *)
Definition int_noted (d n : Z) (k : kstate) : kstate :=
  upd_priv (priv_id k d) (λ s, s <| s_int_pending ::= set_flag (Z.shiftl 1 n) |>) k.

(** What does not change when a driver is notified. *)
Record priv_same (k k' : kstate) : Prop := {
  pv_priv : ∀ n, p_priv (proctab k' n) = p_priv (proctab k n);
  pv_id : ∀ i, s_id (privtab k' i) = s_id (privtab k i);
}.
Lemma priv_id_kept k k' n : priv_same k k' → priv_id k' n = priv_id k n.
Proof. intros [H _]. unfold priv_id. by rewrite H. Qed.
Lemma s_id_same k k' n : priv_same k k' → s_id (priv_of k' n) = s_id (priv_of k n).
Proof. intros H. unfold priv_of. rewrite (priv_id_kept k) by done. apply H. Qed.

(** The state after the driver [d] was notified of identifier [n]. *)
Definition int_notified (k : kstate) (d n : Z) (k' : kstate) : Prop :=
  if notify_ready k HARDWARE d then sched_frame (notify_now (int_noted d n k) HARDWARE d) k'
  else k' = notify_later (int_noted d n k) HARDWARE d.

Lemma generic_handler_spec k Q h d :
  ipc_base k Q → isokendpt k (hk_proc_nr_e (irq_hooks k h)) = Some d →
  wp (generic_handler h) (λ r k', r = Z.land (hk_policy (irq_hooks k h)) IRQ_REENABLE ∧ base_step k k' ∧
    int_notified k d (hk_notify_id (irq_hooks k h)) k') k.
Proof.
  intros HB Hok. unfold generic_handler. wp_steps. rewrite Hok. unfold modify_priv. wp_steps.
  change (upd_priv _ _ k) with (int_noted d (hk_notify_id (irq_hooks k h)) k). set (k1 := int_noted _ _ k).
  pose proof (base_step_privtab k Q (λ t, upd t (priv_id k d) (t (priv_id k d) <| s_int_pending ::= set_flag (Z.shiftl 1 (hk_notify_id (irq_hooks k h))) |>)) HB) as Hst1.
  assert (ipc_base k1 Q) as HB1 by by apply base_privtab.
  eapply wp_mono; [by apply (mini_notify_spec k1 Q)|]. intros r k2 [Hst Hpost].
  assert (isokendpt k1 (hk_proc_nr_e (irq_hooks k h)) = Some d) as Hok1 by done. rewrite Hok1 in Hpost.
  destruct Hpost as [_ Hpost]. wp_steps. split_and!; [done|by eapply base_step_trans|].
  unfold int_notified. change (notify_ready k1 HARDWARE d) with (notify_ready k HARDWARE d) in Hpost.
  by destruct (notify_ready k HARDWARE d); [destruct Hpost|].
Qed.

Section notified.
Context (k : kstate) (d n : Z) (k' : kstate) (H : int_notified k d n k').

Lemma notified_irq : irq_same k k'.
Proof using H.
  unfold int_notified in H. destruct (notify_ready k HARDWARE d).
  - split; [rewrite (sched_frame_state irq_hooks _ _ H)|rewrite (sched_frame_state irq_handlers _ _ H)|
      rewrite (sched_frame_state irq_actids _ _ H)|rewrite (sched_frame_state int_ctlmask _ _ H)|
      rewrite (sched_frame_state int2_ctlmask _ _ H)]; done.
  - rewrite H. done.
Qed.

Lemma notified_priv : priv_same k k'.
Proof using H.
  unfold int_notified in H. destruct (notify_ready k HARDWARE d).
  - split.
    + intros m. rewrite (sched_frame_field p_priv _ _ m H) by done. unfold notify_now.
      change (proctab (upd_priv ?i ?f ?k)) with (proctab k). rewrite proctab_upd_proc. case_decide as E; [|done].
      unfold notify_deliver, IPC_STATUS_ADD_CALL. by rewrite (IPC_STATUS_ADD_view p_priv), E.
    + intros i. rewrite (sched_frame_state privtab _ _ H) by done. unfold notify_now, int_noted. rewrite privtab_upd_priv.
      case_decide; simpl; rewrite upd_case; by case_decide; subst.
  - rewrite H. split; [done|]. intros i. unfold notify_later, int_noted. rewrite !privtab_upd_priv. repeat (case_decide; simpl; subst); done.
Qed.

(** The notification was delivered at once. *)
Lemma now_priv m :
  notify_ready k HARDWARE d = true →
  s_notify_pending (priv_of k' m) = s_notify_pending (priv_of k m) ∧
  (priv_id k m ≠ priv_id k d → s_int_pending (priv_of k' m) = s_int_pending (priv_of k m)).
Proof using H.
  intros Hr. pose proof notified_priv as HP. unfold int_notified in H. rewrite Hr in H.
  unfold priv_of. rewrite (priv_id_kept k k') by done. rewrite (sched_frame_state privtab _ _ H) by done.
  unfold notify_now, int_noted. rewrite privtab_upd_priv. change (priv_id (upd_priv _ _ k) d) with (priv_id k d).
  change (privtab (upd_proc ?a ?b ?c)) with (privtab c). rewrite !privtab_upd_priv.
  case_decide as E; [rewrite E|by split].
  rewrite decide_True by done. split; [|done]. unfold notify_taken. by rewrite Z.eqb_refl.
Qed.
Lemma now_other m : notify_ready k HARDWARE d = true → m ≠ d → mailview (proctab k' m) = mailview (proctab k m).
Proof using H.
  intros Hr Hm. unfold int_notified in H. rewrite Hr in H. rewrite (sched_frame_field mailview _ _ m H) by done.
  unfold notify_now. change (proctab (upd_priv ?i ?f ?k)) with (proctab k). rewrite proctab_upd_proc. by rewrite decide_False.
Qed.
Lemma notified_hardware : p_endpoint (proctab k' HARDWARE) = p_endpoint (proctab k HARDWARE).
Proof using H.
  unfold int_notified in H. destruct (notify_ready k HARDWARE d).
  - rewrite (sched_frame_field p_endpoint _ _ HARDWARE H) by done.
    pose proof (notify_now_ipcview (int_noted d n k) HARDWARE d HARDWARE) as E. unfold ipcview in E. by simplify_eq.
  - by rewrite H.
Qed.

(** The delivered notification carries the new bit and all that were pending. *)
Lemma now_told n' :
  notify_ready k HARDWARE d = true → Z.testbit (set_flag (Z.shiftl 1 n) (s_int_pending (priv_of k d))) n' = true → int_told k' d n'.
Proof using H.
  intros Hr Hb. right. rewrite notified_hardware. unfold int_notified in H. rewrite Hr in H.
  destruct (notify_now_target _ _ _ _ H) as [-> ->]. split_and!; [done| |apply (notify_message_type (int_noted d n k) HARDWARE d)|].
  - done.
  - change (NOTIFY_ARG (?m <| m_source := ?x |>)) with (NOTIFY_ARG m). rewrite notify_message_int.
    unfold int_noted. by rewrite priv_of_upd_priv, decide_True by done.
Qed.

(** The notification was left pending. *)
Lemma later_priv m :
  notify_ready k HARDWARE d = false → 0 ≤ s_id (priv_of k HARDWARE) →
  get_sys_bit (s_notify_pending (priv_of k' m)) (s_id (priv_of k HARDWARE)) =
    bool_decide (priv_id k m = priv_id k d) || get_sys_bit (s_notify_pending (priv_of k m)) (s_id (priv_of k HARDWARE)) ∧
  ∀ j, Z.testbit (s_int_pending (priv_of k' m)) j =
    bool_decide (priv_id k m = priv_id k d) && Z.testbit (Z.shiftl 1 n) j || Z.testbit (s_int_pending (priv_of k m)) j.
Proof using H.
  intros Hr Hid. pose proof notified_priv as HP. unfold int_notified in H. rewrite Hr in H. rewrite H.
  unfold notify_later, int_noted. rewrite !priv_of_upd_priv. change (priv_id (upd_priv _ _ k)) with (priv_id k).
  assert (s_id (if decide (priv_id k HARDWARE = priv_id k d)
    then privtab k (priv_id k d) <| s_int_pending ::= set_flag (Z.shiftl 1 n) |> else priv_of k HARDWARE) = s_id (priv_of k HARDWARE)) as ->.
  { case_decide as E; [|done]. unfold priv_of. by rewrite E. }
  destruct (decide (priv_id k m = priv_id k d)) as [E|E].
  - rewrite bool_decide_eq_true_2 by done. rewrite privtab_upd_priv, decide_True by done. simpl.
    rewrite get_set_sys_bit, Z.eqb_refl by done. split; [done|]. intros j. rewrite set_flag_bit. unfold priv_of. rewrite E. apply orb_comm.
  - rewrite bool_decide_eq_false_2 by done. done.
Qed.

Lemma notified_told : 0 ≤ n → 0 ≤ s_id (priv_of k HARDWARE) → int_told k' d n.
Proof using H.
  intros Hn Hid. assert (Z.testbit (Z.shiftl 1 n) n = true) as Hb by (rewrite Z.shiftl_1_l; by apply Z.pow2_bits_true).
  destruct (notify_ready k HARDWARE d) eqn:Hr.
  - apply now_told; [done|]. rewrite set_flag_bit, Hb. apply orb_true_r.
  - left. destruct (later_priv d Hr Hid) as [H1 H2]. rewrite (s_id_same k k') by apply notified_priv.
    rewrite H1, H2, bool_decide_eq_true_2, Hb by done. done.
Qed.

(** Who had been told remains so. *)
Lemma notified_keeps Q d' n' :
  ipc_base k Q → valid_slot d → 0 ≤ s_id (priv_of k HARDWARE) → (priv_id k d' = priv_id k d → d' = d) →
  int_told k d' n' → int_told k' d' n'.
Proof using H.
  intros HB Hv Hid Hpriv Ht. destruct (notify_ready k HARDWARE d) eqn:Hr.
  - destruct Ht as [[Hp Hi]|Ht].
    + destruct (decide (priv_id k d' = priv_id k d)) as [E|E].
      * rewrite (Hpriv E) in *. apply now_told; [done|]. by rewrite set_flag_bit, Hi.
      * left. destruct (now_priv d' Hr) as [-> Hi']. rewrite (s_id_same k k') by apply notified_priv. by rewrite Hi'.
    + destruct (decide (d' = d)) as [->|E].
      * exfalso. pose proof (ib_deliver _ _ HB d Hv (notify_ready_receiving _ _ _ Hr)). destruct Ht as [? _]. congruence.
      * right. pose proof (now_other d' Hr E) as [= Em Ed]. unfold delivering in *. rewrite Em, Ed, notified_hardware. done.
  - destruct Ht as [[Hp Hi]|Ht].
    + left. destruct (later_priv d' Hr Hid) as [H1 H2]. rewrite (s_id_same k k') by apply notified_priv.
      rewrite H1, H2, Hp, Hi. split; apply orb_true_r.
    + right. unfold int_notified in H. rewrite Hr in H. by rewrite H.
Qed.
End notified.

(** ** Interrupts reach the drivers *)

Definition driver (k : kstate) (h : Z) : Z := ENDPOINT_P (hk_proc_nr_e (irq_hooks k h)).

(** The hooks [l] are those of drivers: each has the generic handler and a live process, and
    processes have privilege structures of their own. *)
Record driver_hooks (k : kstate) (l : list Z) : Prop := {
  dh_handler : ∀ h, h ∈ l → hk_handler (irq_hooks k h) = H_generic;
  dh_live : ∀ h, h ∈ l → isokendpt k (hk_proc_nr_e (irq_hooks k h)) = Some (driver k h);
  dh_notify : ∀ h, h ∈ l → 0 ≤ hk_notify_id (irq_hooks k h);
  dh_priv : ∀ h h', h ∈ l → h' ∈ l → priv_id k (driver k h') = priv_id k (driver k h) → driver k h' = driver k h;
  dh_hardware : 0 ≤ s_id (priv_of k HARDWARE);
}.

(** What holds between the calls of the handlers. *)
Record driver_inv (k0 : kstate) (C : Z → list Z) (k : kstate) : Prop := {
  di_hooks : irq_hooks k = irq_hooks k0;
  di_ipc : ∃ Q, ipc_inv k Q C;
  di_pres : ipc_pres k0 k;
  di_priv : priv_same k0 k;
}.

Definition hook_answer (k : kstate) (h : Z) : Z := Z.land (hk_policy (irq_hooks k h)) IRQ_REENABLE.
Definition hook_done (k0 : kstate) (h : Z) (k : kstate) : Prop := int_told k (driver k0 h) (hk_notify_id (irq_hooks k0 h)).

(** A step that changes only the interrupt system. *)
Lemma driver_inv_irq k0 C k k' :
  proctab k' = proctab k → privtab k' = privtab k → run_q_head k' = run_q_head k → run_q_tail k' = run_q_tail k →
  proc_ptr k' = proc_ptr k → irq_hooks k' = irq_hooks k → driver_inv k0 C k → driver_inv k0 C k'.
Proof.
  intros Hp Hpr Hh Ht Hc Hk [Hkk (Q & HI) HP HV]. destruct (base_ext k k' Q Hp Hh Ht Hc (ii_base _ _ _ HI)) as [_ Hst].
  split; [congruence|by eapply ipc_inv_step|etrans; [done|apply Hst]|].
  destruct HV as [V1 V2]. split; intros; rewrite ?Hp, ?Hpr; auto.
Qed.
Lemma int_told_irq k k' d n : proctab k' = proctab k → privtab k' = privtab k → int_told k d n → int_told k' d n.
Proof. intros Hp Hpr. unfold int_told, priv_of, priv_id, delivering. by rewrite Hp, Hpr. Qed.

Lemma driver_call kernel_handler k0 Q0 C l k h :
  ipc_inv k0 Q0 C → driver_hooks k0 l → driver_inv k0 C k → h ∈ l →
  wp (call_handler kernel_handler h) (λ r k', r = hook_answer k0 h ∧ irq_same k k' ∧ driver_inv k0 C k' ∧ hook_done k0 h k' ∧
    ∀ h', h' ∈ l → hook_done k0 h' k → hook_done k0 h' k') k.
Proof.
  intros HI0 [Hhd Hok Hnt Hpr Hhw] [Hkk (Q & HI) HP HV] Hin. unfold call_handler. wp_steps.
  rewrite Hkk, Hhd by done.
  assert (isokendpt k (hk_proc_nr_e (irq_hooks k h)) = Some (driver k0 h)) as Hok'.
  { rewrite Hkk. apply (isokendpt_pres k0 Q0 (ii_base _ _ _ HI0) k _ _ HP). by apply Hok. }
  eapply wp_mono; [by apply (generic_handler_spec k Q h (driver k0 h)); [apply HI|]|].
  intros r k' (-> & Hst & Hn). rewrite Hkk in Hn |- *. pose proof (notified_priv _ _ _ _ Hn) as HV'. pose proof (notified_irq _ _ _ _ Hn) as Hirq.
  assert (0 ≤ s_id (priv_of k HARDWARE)) as Hhw' by (by rewrite (s_id_same k0)).
  split_and!; [done|done| | |].
  - split; [by rewrite (is_hooks _ _ Hirq)|by eapply ipc_inv_step|etrans; [done|apply Hst]|].
    destruct HV, HV'. split; intros; etrans; eauto.
  - apply (notified_told k _ _ k' Hn); [by apply Hnt|done].
  - intros h' Hin' Ht. apply (notified_keeps k _ _ k' Hn Q); [apply HI| |done| |done].
    + by apply isokendpt_Some in Hok' as (? & _).
    + rewrite !(priv_id_kept k0 k) by done. by apply Hpr.
Qed.

#[export] Instance driver_handlers kernel_handler k0 Q0 C l :
  ipc_inv k0 Q0 C → driver_hooks k0 l →
  IrqHandlers kernel_handler l (driver_inv k0 C) (hook_answer k0) (hook_done k0).
Proof.
  intros HI HD. split.
  - intros k h HK Hin. by eapply driver_call.
  - intros k irq f. split; [by apply driver_inv_irq|]. unfold ctl_mask_write. destruct (irq <? 8); by apply driver_inv_irq.
  - intros h k irq f. split; [by apply int_told_irq|]. unfold ctl_mask_write. destruct (irq <? 8); by apply int_told_irq.
Qed.

(** C25. An interrupt on a line whose hooks belong to live drivers: [irq_handle] does not panic,
    every one of these drivers has been told (a notification from HARDWARE with the driver's
    identifier is delivered or pending), a hook stays active exactly if its policy does not
    re-enable the line, and the line is masked exactly if one hook is active.  The invariants
    of message passing and of all interrupt lines hold afterwards. *)
Theorem irq_handle_reaches_drivers kernel_handler k Q C L irq :
  ipc_inv k Q C → lines_ok k L → in_line irq → driver_hooks k (L irq) →
  wp (irq_handle kernel_handler irq) (λ _ k', (∃ Q', ipc_inv k' Q' C) ∧ lines_ok k' L ∧
    ∀ h, h ∈ L irq → int_told k' (driver k h) (hk_notify_id (irq_hooks k h)) ∧
      has (irq_actids k' irq) (hook_id k h) = negb (has (hk_policy (irq_hooks k h)) IRQ_REENABLE) ∧
      line_masked k' irq = existsb (λ h, negb (has (hk_policy (irq_hooks k h)) IRQ_REENABLE)) (L irq)) k.
Proof.
  intros HI HL Hirq HD. assert (driver_inv k C k) as Hinv by (split; eauto; done).
  eapply wp_mono; [by apply (irq_handle_spec kernel_handler L _ _ _ k irq Hirq HL (driver_handlers kernel_handler k Q C _ HI HD))|].
  intros [] k' (HL' & Hinv' & _ & H). split_and!; [by apply Hinv'|done|]. intros h Hh. destruct (H h Hh) as (H1 & H2 & H3).
  assert (∀ g, (hook_answer k g =? 0) = negb (has (hk_policy (irq_hooks k g)) IRQ_REENABLE)) as E by (intros g; unfold has; by rewrite negb_involutive).
  split_and!; [done|by rewrite <-E|]. rewrite H3. clear -E. induction (L irq) as [|g l IH]; [done|]. simpl. by rewrite E, IH.
Qed.

(** Line 5 is shared by PM (identifier 3, re-enabling) and by process 20 (identifier 4, not). *)
Definition irq_demo : kstate :=
  ipc_demo <| irq_hooks := upd (upd (λ _, irq_hook0) 0 (mk_irq_hook (Some 1) H_generic 5 1 0 3 1))
                             1 (mk_irq_hook None H_generic 5 2 20 4 0) |>
           <| irq_handlers := upd (λ _, None) 5 (Some 0) |> <| int_ctlmask := 0xDB |>.
Definition irq_demo_lines (irq : Z) : list Z := if decide (irq = 5) then [0; 1] else [].

Lemma irq_demo_ok : lines_ok irq_demo irq_demo_lines.
Proof.
  intros irq Hi. unfold irq_demo_lines. case_decide as E.
  - rewrite E. split; [|done|done]. split; [done| | | |].
    + intros h [->|[->|[]%elem_of_nil]%elem_of_cons]%elem_of_cons; done.
    + intros h [->|[->|[]%elem_of_nil]%elem_of_cons]%elem_of_cons; [by exists 0|by exists 1].
    + vm_compute. repeat constructor; set_solver.
    + intros j Hj. change (irq_actids irq_demo 5) with 0. by rewrite Z.bits_0.
  - assert (lines_ok ipc_demo (λ _, [])) as H0 by (by apply irq_start).
    apply (line_ok_ext ipc_demo); [by apply (H0 irq Hi)|by intros h []%elem_of_nil|simpl; by rewrite upd_ne|done|].
    unfold in_line, NR_IRQ_VECTORS in Hi.
    assert (Forall (λ q, q ≠ 5 → line_masked irq_demo q = line_masked ipc_demo q) (seqZ 0 16)) as Hall by (repeat constructor; done).
    rewrite Forall_forall in Hall. apply Hall; [apply elem_of_seqZ; lia|done].
Qed.

Lemma irq_handle_reaches_drivers_witness :
  wp (irq_handle (λ _ _, mret 1) 5) (λ _ k', int_told k' 0 3 ∧ int_told k' 20 4 ∧ line_masked k' 5 = true) irq_demo.
Proof.
  destruct (base_ext ipc_demo irq_demo (λ _, [])) as [_ Hst]; [done..|apply ipc_demo_inv|].
  destruct (ipc_inv_step _ _ _ _ ipc_demo_inv Hst) as (Q & HI).
  eapply wp_mono.
  - apply (irq_handle_reaches_drivers (λ _ _, mret 1) irq_demo Q _ irq_demo_lines 5 HI irq_demo_ok); [done|].
    assert (∀ h, h ∈ irq_demo_lines 5 → h = 0 ∨ h = 1) as Hd.
    { intros h [->|[->|[]%elem_of_nil]%elem_of_cons]%elem_of_cons; auto. }
    split; [intros h [-> | ->]%Hd; done..| |done]. intros h h' [-> | ->]%Hd [-> | ->]%Hd; done.
  - intros [] k' (_ & _ & H). destruct (H 0 ltac:(left)) as (H0 & _ & Hm). destruct (H 1 ltac:(right; left)) as (H1 & _ & _). done.
Defined.
