(* ===== verification/Signals.v ===== *)
(** * Kernel calls on signals and scheduling

    kernel/system/do_kill.c, do_getksig.c, do_endksig.c, do_exit.c, do_runctl.c,
    do_schedctl.c and do_schedule.c.  A signal manager collects pending signals with
    [do_getksig] and reports with [do_endksig] that it is done. *)
From S2P Require Import Prelude LinkedList Kernel Endpoint Sched IpcInv Notify Ipc System SystemInv.

Definition NSIG : Z := 26.
Definition RC_STOP : Z := 0.
Definition RC_RESUME : Z := 1.
Definition RC_DELAY : Z := 1.
Definition SCHEDCTL_FLAG_KERNEL : Z := 1.

Definition SIG_ENDPT : message → Z := m_word 0.
Definition SIG_NUMBER : message → Z := m_word 1.
Definition SIG_MAP : message → Z := m_word 3.
Definition RC_ENDPT : message → Z := m_word 0.
Definition RC_ACTION : message → Z := m_word 1.
Definition RC_FLAGS : message → Z := m_word 2.
Definition SCHEDCTL_FLAGS (m : message) : Z := u32 (m_word 0 m).
Definition SCHEDCTL_ENDPOINT : message → Z := m_word 1.
Definition SCHEDCTL_QUANTUM : message → Z := m_word 2.
Definition SCHEDCTL_PRIORITY (m : message) : Z := i16 (Z.shiftr (m_word 6 m) 16).
Definition SCHEDULING_ENDPOINT : message → Z := m_word 0.
Definition SCHEDULING_QUANTUM : message → Z := m_word 1.
Definition SCHEDULING_PRIORITY (m : message) : Z := i16 (m_word 5 m).

(** ** The calls *)

Definition do_kill (caller : Z) (m : message) : K (Z * message) :=
  let sig_nr := SIG_NUMBER m in
  ok ← gets (λ k, isokendpt k (SIG_ENDPT m));
  match ok with
  | None => mret (EINVAL, m)
  | Some proc_nr =>
      if NSIG <=? sig_nr then mret (EINVAL, m)
      else if iskerneln proc_nr then mret (EPERM, m)
      else cause_sig proc_nr sig_nr;; mret (OK, m)
  end.

Definition do_exit (caller : Z) (m : message) : K (Z * message) :=
  nr ← gets (λ k, p_nr (proctab k caller));
  cause_sig nr SIGABRT;;
  mret (EDONTREPLY, m).

(** The loop over the user processes. *)
Fixpoint getksig_loop (caller : Z) (m : message) (procs : list Z) : K message :=
  match procs with
  | [] => mret (set_m_word 0 NONE m)
  | rp :: procs' =>
      signaled ← gets (λ k, RTS_ISSET k rp RTS_SIGNALED);
      if negb signaled then getksig_loop caller m procs'
      else
        managed ← gets (λ k, p_endpoint (proctab k caller) =? s_sig_mgr (priv_of k rp));
        if negb managed then getksig_loop caller m procs'
        else
          e ← gets (λ k, p_endpoint (proctab k rp));
          pending ← gets (λ k, p_pending (proctab k rp));
          modify_proc rp (λ p, p <| p_pending := 0 |>);;
          RTS_UNSET rp RTS_SIGNALED;;
          mret (set_m_word 3 pending (set_m_word 0 e m))
  end.
Definition user_slots : list Z := seqZ 0 NR_PROCS.
Arguments user_slots : simpl never.
Definition do_getksig (caller : Z) (m : message) : K (Z * message) :=
  m' ← getksig_loop caller m user_slots; mret (OK, m').

Definition do_endksig (caller : Z) (m : message) : K (Z * message) :=
  ok ← gets (λ k, isokendpt k (SIG_ENDPT m));
  match ok with
  | None => mret (EINVAL, m)
  | Some rp =>
      managed ← gets (λ k, p_endpoint (proctab k caller) =? s_sig_mgr (priv_of k rp));
      if negb managed then mret (EPERM, m)
      else
        pend ← gets (λ k, RTS_ISSET k rp RTS_SIG_PENDING);
        if negb pend then mret (EINVAL, m)
        else
          again ← gets (λ k, RTS_ISSET k rp RTS_SIGNALED);
          (if again : bool then mret () else RTS_UNSET rp RTS_SIG_PENDING);;
          mret (OK, m)
  end.

Definition do_runctl (caller : Z) (m : message) : K (Z * message) :=
  ok ← gets (λ k, isokendpt k (RC_ENDPT m));
  match ok with
  | None => mret (EINVAL, m)
  | Some rp =>
      if iskerneln rp then mret (EPERM, m)
      else
        busy ← (if (RC_ACTION m =? RC_STOP) && has (RC_FLAGS m) RC_DELAY then
                  delay ← gets (λ k, RTS_ISSET k rp RTS_SENDING || has (p_misc_flags (proctab k rp)) MF_SC_DEFER);
                  (if delay : bool then modify_proc rp (λ p, p <| p_misc_flags ::= set_flag MF_SIG_DELAY |>) else mret ());;
                  gets (λ k, has (p_misc_flags (proctab k rp)) MF_SIG_DELAY)
                else mret false);
        if busy : bool then mret (EBUSY, m)
        else if RC_ACTION m =? RC_STOP then RTS_SET rp RTS_PROC_STOP;; mret (OK, m)
        else if RC_ACTION m =? RC_RESUME then
          assert_ (λ k, RTS_ISSET k rp RTS_PROC_STOP) "do_runctl: RTS_PROC_STOP";;
          RTS_UNSET rp RTS_PROC_STOP;; mret (OK, m)
        else mret (EINVAL, m)
  end.

(** [if((r = sched_proc(p, priority, quantum, cpu) != OK)) return r;]: [r] is the truth value
    of the comparison. *)
Definition do_schedctl (caller : Z) (m : message) : K (Z * message) :=
  let flags := SCHEDCTL_FLAGS m in
  if has flags (Z.lnot SCHEDCTL_FLAG_KERNEL) then mret (EINVAL, m)
  else
    ok ← gets (λ k, isokendpt k (SCHEDCTL_ENDPOINT m));
    match ok with
    | None => mret (EINVAL, m)
    | Some p =>
        if isset flags SCHEDCTL_FLAG_KERNEL then
          res ← sched_proc p (SCHEDCTL_PRIORITY m) (SCHEDCTL_QUANTUM m);
          let r := if res =? OK then 0 else 1 in
          if negb (r =? 0) then mret (r, m)
          else modify_proc p (λ q, q <| p_scheduler := None |>);; mret (OK, m)
        else modify_proc p (λ q, q <| p_scheduler := Some caller |>);; mret (OK, m)
    end.

Definition do_schedule (caller : Z) (m : message) : K (Z * message) :=
  ok ← gets (λ k, isokendpt k (SCHEDULING_ENDPOINT m));
  match ok with
  | None => mret (EINVAL, m)
  | Some p =>
      mine ← gets (λ k, bool_decide (p_scheduler (proctab k p) = Some caller));
      if negb mine then mret (EPERM, m)
      else r ← sched_proc p (SCHEDULING_PRIORITY m) (SCHEDULING_QUANTUM m); mret (r, m)
  end.

(** ** Collecting signals *)

(** Process [rp] has signals that the manager [caller] has not fetched. *)
Definition awaits (k : kstate) (caller rp : Z) : bool :=
  has (rts k rp) RTS_SIGNALED && (p_endpoint (proctab k caller) =? s_sig_mgr (priv_of k rp)).
Definition awaiting (k : kstate) (caller : Z) : list Z := filter (λ rp, awaits k caller rp = true) user_slots.

Lemma isset_signaled k n : RTS_ISSET k n RTS_SIGNALED = has (rts k n) RTS_SIGNALED.
Proof. exact (isset_has_bit (rts k n) 4 ltac:(lia)). Qed.

(** Fetching the signals of one process. *)
Definition fetch (rp : Z) (m : message) : K message :=
  e ← gets (λ k, p_endpoint (proctab k rp));
  pending ← gets (λ k, p_pending (proctab k rp));
  modify_proc rp (λ p, p <| p_pending := 0 |>);;
  RTS_UNSET rp RTS_SIGNALED;;
  mret (set_m_word 3 pending (set_m_word 0 e m)).

Lemma getksig_loop_head caller m procs k :
  getksig_loop caller m procs k =
  match filter (λ rp, awaits k caller rp = true) procs with
  | [] => Ret (set_m_word 0 NONE m, k)
  | rp :: _ => fetch rp m k
  end.
Proof.
  induction procs as [|rp procs IH]; [done|]. cbn [getksig_loop]. rewrite run_gets, isset_signaled.
  rewrite filter_cons. case_decide as E; unfold awaits in E.
  - apply andb_true_iff in E as [-> Em]. cbn [negb]. by rewrite run_gets, Em.
  - destruct (has (rts k rp) RTS_SIGNALED); cbn [negb andb] in *; [|exact IH]. rewrite run_gets. by destruct (_ =? _).
Qed.

Lemma do_getksig_wp caller m k Q :
  match awaiting k caller with
  | [] => Q (OK, set_m_word 0 NONE m) k
  | rp :: _ => wp (fetch rp m) (λ m', Q (OK, m')) k
  end → wp (do_getksig caller m) Q k.
Proof.
  unfold do_getksig. intros H. wp_steps. unfold wp at 1. rewrite getksig_loop_head. fold (awaiting k caller).
  by destruct (awaiting k caller).
Qed.

Lemma awaiting_in_use k Q caller rp : ipc_base k Q → rp ∈ awaiting k caller → valid_slot rp ∧ slot_free k rp = false.
Proof.
  intros HB [[Hs _]%andb_true_iff Hv%elem_of_seqZ]%list_elem_of_filter.
  assert (valid_slot rp) as Hrp by (unfold valid_slot, NR_PROCS, NR_TASKS in *; lia).
  split; [done|]. destruct (slot_free k rp) eqn:E; [|done]. by rewrite (ib_free _ _ HB rp Hrp E) in Hs.
Qed.

Lemma fetch_spec k Q rp m :
  ipc_base k Q → valid_slot rp → slot_free k rp = false →
  wp (fetch rp m) (λ r k', SIG_ENDPT r = p_endpoint (proctab k rp) ∧ SIG_MAP r = p_pending (proctab k rp) ∧
    (∃ Q', ipc_base k' Q') ∧ p_pending (proctab k' rp) = 0 ∧
    (∀ n, p_endpoint (proctab k' n) = p_endpoint (proctab k n) ∧ priv_of k' n = priv_of k n ∧
      (n ≠ rp → p_pending (proctab k' n) = p_pending (proctab k n))) ∧
    (∀ n g, Z.land RTS_PREEMPTED g = 0 →
       has (rts k' n) g = has (if decide (n = rp) then clear_flag RTS_SIGNALED (rts k n) else rts k n) g)) k.
Proof.
  intros HB Hv Hf. unfold fetch, modify_proc. wp_steps. set (k1 := upd_proc rp _ k).
  destruct (base_step_upd_proc k Q rp (λ p, p <| p_pending := 0 |>)) as [_ HB1]; [done..|]. fold k1 in HB1.
  assert (∀ n, rts k1 n = rts k n) as Hr1 by (apply rts_same; by apply sched_same_upd_proc).
  eapply wp_mono; [apply (unset_wait_spec k1 Q); [done|done| |done|done]|].
  { unfold slot_free. by rewrite Hr1. }
  intros [] k2 (HB2 & Hfr & Hr2). wp_steps. unfold SIG_ENDPT, SIG_MAP.
  rewrite m_word_set_ne, !m_word_set by done. split_and!; [done|done|done| | |].
  - rewrite (sched_frame_field p_pending _ _ rp Hfr) by done. unfold k1. by rewrite proctab_upd_proc, decide_True.
  - intros n. rewrite (sched_frame_field p_endpoint _ _ n Hfr), (sched_frame_field p_pending _ _ n Hfr) by done.
    unfold priv_of, priv_id. rewrite (sched_frame_field p_priv _ _ n Hfr), (sched_frame_state privtab _ _ Hfr) by done.
    unfold k1. rewrite proctab_upd_proc. case_decide as E; [rewrite E|]; done.
  - intros n g Hg. rewrite Hr2 by done. by rewrite Hr1.
Qed.

(** ** The loop of a signal manager *)

(** The manager calls [do_getksig] until no process is left; it sees endpoints and sets. *)
Fixpoint collect (fuel : nat) (caller : Z) (m : message) : K (list (Z * Z)) :=
  match fuel with
  | O => mret []
  | S fuel' =>
      r ← do_getksig caller m;
      if SIG_ENDPT r.2 =? NONE then mret []
      else rest ← collect fuel' caller m; mret ((SIG_ENDPT r.2, SIG_MAP r.2) :: rest)
  end.

Definition report (k : kstate) (rp : Z) : Z * Z := (p_endpoint (proctab k rp), p_pending (proctab k rp)).

Lemma endpoint_not_none k Q n : ipc_base k Q → valid_slot n → p_endpoint (proctab k n) ≠ NONE.
Proof.
  intros HB Hv E. pose proof (ib_endpt _ _ HB n Hv) as H. rewrite E in H. vm_compute in H. subst n.
  destruct Hv as [H1 H2]. vm_compute in H1, H2. done.
Qed.

Lemma filter_ne_absent (x : Z) (l : list Z) : x ∉ l → filter (λ n, n ≠ x) l = l.
Proof.
  induction l as [|y l IH]; [done|]. intros [Hne Hn]%not_elem_of_cons. rewrite filter_cons, decide_True by done. by rewrite IH.
Qed.

(** After one call the rest of the list is what the next call sees. *)
Lemma awaiting_rest k k' caller rp l :
  awaiting k caller = rp :: l →
  (∀ n, p_endpoint (proctab k' n) = p_endpoint (proctab k n) ∧ priv_of k' n = priv_of k n) →
  (∀ n, has (rts k' n) RTS_SIGNALED = has (if decide (n = rp) then clear_flag RTS_SIGNALED (rts k n) else rts k n) RTS_SIGNALED) →
  awaiting k' caller = l.
Proof.
  intros Hl Hv Hr. assert (∀ n, awaits k' caller n = if decide (n = rp) then false else awaits k caller n) as Ha.
  { intros n. unfold awaits. rewrite Hr. destruct (Hv caller) as [-> _], (Hv n) as [_ ->]. case_decide; [|done]. by rewrite has_clear_self. }
  assert (NoDup (rp :: l)) as [Hn _]%NoDup_cons by (rewrite <-Hl; apply NoDup_filter, NoDup_seqZ).
  assert (awaiting k' caller = filter (λ n, n ≠ rp) (awaiting k caller)) as ->.
  { unfold awaiting. rewrite list_filter_filter. apply list_filter_iff. intros n. rewrite Ha. case_decide; naive_solver. }
  rewrite Hl, filter_cons, decide_False by (intros H; by apply H).
  by apply filter_ne_absent.
Qed.

Lemma collect_spec fuel k Q caller m :
  ipc_base k Q → (length (awaiting k caller) < fuel)%nat →
  wp (collect fuel caller m) (λ r k', r = report k <$> awaiting k caller ∧ (∃ Q', ipc_base k' Q') ∧ awaiting k' caller = [] ∧
    ∀ n, p_pending (proctab k' n) = if decide (n ∈ awaiting k caller) then 0 else p_pending (proctab k n)) k.
Proof.
  revert k Q. induction fuel as [|fuel IH]; intros k Q HB Hlen; [lia|]. cbn [collect]. wp_steps.
  apply do_getksig_wp. destruct (awaiting k caller) as [|rp l] eqn:El.
  - unfold SIG_ENDPT. cbn [snd]. rewrite m_word_set, Z.eqb_refl. wp_steps. split_and!; eauto.
  - assert (rp ∈ awaiting k caller) as Hin by (rewrite El; left).
    destruct (awaiting_in_use _ _ _ _ HB Hin) as [Hv Hf].
    eapply wp_mono; [by eapply fetch_spec|]. intros r k1 (He & Hm & (Q1 & HB1) & Hp & Hv1 & Hr1). cbn [snd].
    rewrite He, Hm, (proj2 (Z.eqb_neq _ _)) by (by eapply endpoint_not_none). wp_steps.
    assert (awaiting k1 caller = l) as El1.
    { apply (awaiting_rest k k1 caller rp); [done| |by intros; apply Hr1]. intros n. destruct (Hv1 n) as (? & ? & _). done. }
    assert (rp ∉ l) as Hnin. { assert (NoDup (rp :: l)) as [? _]%NoDup_cons; [rewrite <-El; apply NoDup_filter, NoDup_seqZ|done]. }
    eapply wp_mono; [apply (IH k1 Q1); [done|rewrite El1; simpl in Hlen; lia]|]. rewrite El1.
    intros r' k2 (-> & HB2 & He2 & Hp2). wp_steps. split_and!; [|done|done|].
    + rewrite fmap_cons. unfold report at 1. f_equal. apply list_fmap_ext. intros i n Hn%list_elem_of_lookup_2.
      destruct (Hv1 n) as (E1 & _ & E2). unfold report. rewrite E1, E2; [done|]. by intros ->.
    + intros n. rewrite Hp2. destruct (Hv1 n) as (_ & _ & Hpn). destruct (decide (n = rp)) as [->|Hne].
      * rewrite decide_False, decide_True by (done || left). done.
      * rewrite Hpn by done. repeat case_decide; set_solver.
Qed.

(** A signal manager that calls [do_getksig] until it is told NONE gets exactly one report for
    every process it manages that has been signalled, in the order of the process table, and
    each report carries the endpoint of the process and its whole set of pending signals.  The
    calls end, afterwards no process is left, the reported sets are empty and the sets of all
    other processes are as they were. *)
Theorem getksig_collects_all k Q caller m :
  ipc_base k Q →
  wp (collect 257 caller m) (λ r k', r = report k <$> awaiting k caller ∧ (∃ Q', ipc_base k' Q') ∧ awaiting k' caller = [] ∧
    ∀ n, p_pending (proctab k' n) = if decide (n ∈ awaiting k caller) then 0 else p_pending (proctab k n)) k.
Proof.
  intros HB. apply (collect_spec 257 k Q); [done|].
  assert (length (awaiting k caller) ≤ length user_slots)%nat as Hle by apply length_filter.
  unfold user_slots in Hle. rewrite length_seqZ in Hle. unfold NR_PROCS in Hle. lia.
Qed.

(** PM manages process 20, which has been signalled. *)
Definition signal_demo : kstate :=
  upd_proc 20 (λ p, p <| p_rts_flags := RTS_SIGNALED + RTS_SIG_PENDING |> <| p_pending := 2 ^ SIGSEGV |>) ipc_demo.

Lemma getksig_collects_all_witness :
  wp (collect 257 0 inhabitant) (λ r _, r = [(20, 2 ^ SIGSEGV)]) signal_demo.
Proof.
  eapply wp_mono.
  - apply (getksig_collects_all signal_demo (λ _, [])).
    apply (ii_base _ _ (λ _, [])), (ipc_inv_quiet_slots _ [SYSTEM; 0; 20; IDLE_PTR]); [done..|].
    intros n Hn. unfold signal_demo, ipc_demo. simpl. rewrite !upd_ne by (intros ->; set_solver). done.
  - intros r k' (-> & _). vm_compute. reflexivity.
Defined.

(** ** The result of [do_schedctl] *)

(** [do_schedctl] loses the error code of [sched_proc]: when the kernel is to become the
    scheduler and [sched_proc] refuses the priority or the quantum, the call does not return
    that error but 1, which is neither [OK] nor an error number, and the scheduler of the
    process stays what it was. *)
Theorem do_schedctl_loses_error k caller m p r k' :
  SCHEDCTL_FLAGS m = SCHEDCTL_FLAG_KERNEL → isokendpt k (SCHEDCTL_ENDPOINT m) = Some p →
  sched_proc p (SCHEDCTL_PRIORITY m) (SCHEDCTL_QUANTUM m) k = Ret (r, k') → r ≠ OK →
  do_schedctl caller m k = Ret ((1, m), k').
Proof.
  intros Hf Hok Hs Hr. unfold do_schedctl. rewrite Hf.
  change (has SCHEDCTL_FLAG_KERNEL (Z.lnot SCHEDCTL_FLAG_KERNEL)) with false. cbv iota. rewrite run_gets, Hok.
  change (isset SCHEDCTL_FLAG_KERNEL SCHEDCTL_FLAG_KERNEL) with true. cbv iota.
  rewrite (run_bind _ _ _ _ _ Hs). by rewrite (proj2 (Z.eqb_neq _ _) Hr).
Qed.

(** A quantum of 0 is refused with EINVAL. *)
Definition schedctl_msg : message := mk_message 0 0 [SCHEDCTL_FLAG_KERNEL; 20; 0; 0; 0; 0; Z.shiftl 7 16].
Lemma do_schedctl_loses_error_witness :
  ∃ k', sched_proc 20 7 0 ipc_demo = Ret (EINVAL, k') ∧ do_schedctl 0 schedctl_msg ipc_demo = Ret ((1, schedctl_msg), k').
Proof.
  exists ipc_demo. split; [done|]. by apply (do_schedctl_loses_error ipc_demo 0 schedctl_msg 20 EINVAL ipc_demo).
Defined.
