(* ===== verification/Fork.v ===== *)
(** * Creating a process (kernel/system/do_fork.c)

    The child is a copy of the parent's process table entry with a new endpoint: the slot's
    generation is increased so that endpoints of earlier processes of the slot are no longer
    valid.  The child waits for PM's reply as the parent does, and cannot run before it has
    been scheduled.  The process name, the FPU context and counters that are only written
    (p_setcow, p_ticks, hprocs_in_use, hc_proc_nr and the time statistics) are left out. *)
From S2P Require Import Prelude LinkedList Kernel Endpoint Sched IpcInv Notify Ipc HMem WorkingSet.

Definition PFF_VMINHIBIT : Z := 0x01.
Definition MF_SPROF_SEEN : Z := 0x8000.
Definition USER_PRIV_ID : Z := NR_TASKS + LAST_SPECIAL_PROC_NR.
Definition PR_ENDPT : message → Z := m_word 0.
Definition PR_SLOT : message → Z := m_word 1.
Definition PR_FORK_FLAGS : message → Z := m_word 2.
Definition PR_FORK_MSGADDR : message → Z := m_word 3.

(** [if(++gen >= _ENDPOINT_MAX_GENERATION) gen = 1;] *)
Definition next_generation (gen : Z) : Z := if ENDPOINT_MAX_GENERATION <=? gen + 1 then 1 else gen + 1.

(** The copy of the parent, up to the first [RTS_SET]. *)
Definition fork_copy (slot gen : Z) (parent : proc) : proc :=
  parent <| p_nr := slot |> <| p_endpoint := ENDPOINT gen slot |> <| p_reg ::= λ r, r <| retreg := 0 |> |>
    <| p_user_time := 0 |> <| p_sys_time := 0 |>
    <| p_misc_flags ::= clear_flag (MF_VIRT_TIMER + MF_PROF_TIMER + MF_SC_TRACE + MF_SPROF_SEEN + MF_STEP) |>
    <| p_virt_left := 0 |> <| p_prof_left := 0 |>.

(** The hardening fields of the child. *)
Definition fork_hardening (start : Z) (h : hproc) : hproc :=
  h <| p_hflags := if start =? 0 then 0 else PROC_TO_HARD |>
    <| p_lus1_us2_size := 0 |> <| p_lus1_us2 := None |>
    <| p_hardening_mem_events := None |> <| p_nb_hardening_mem_events := 0 |>
    <| p_hardening_shared_regions := None |> <| p_nb_hardening_shared_regions := 0 |>
    <| p_nb_nmi := 0 |> <| p_nb_pe := 0 |> <| p_nb_abort := 0 |> <| p_nb_ss := 0 |> <| p_nb_dwc_d_f := 0 |>
    <| p_nb_inj_fault := 0 |> <| p_nb_exception_d_f := 0 |> <| p_sig_delay := -1 |>.

Definition do_fork (caller : Z) (m : message) : K (Z * message) :=
  ok ← gets (λ k, isokendpt k (PR_ENDPT m));
  match ok with
  | None => mret (EINVAL, m)
  | Some rpp =>
      let rpc := PR_SLOT m in
      bad ← gets (λ k, isemptyp k rpp || negb (isemptyp k rpc));
      if bad : bool then mret (EINVAL, m)
      else
        assert_ (λ k, negb (delivering k rpp)) "do_fork: MF_DELIVERMSG";;
        rcv ← gets (λ k, RTS_ISSET k rpp RTS_RECEIVING);
        if negb rcv then mret (EINVAL, m)
        else
          gen ← gets (λ k, ENDPOINT_G (p_endpoint (proctab k rpc)));
          parent ← gets (λ k, proctab k rpp);
          modify_proc rpc (λ _, fork_copy rpc (next_generation gen) parent);;
          RTS_SET rpc RTS_NO_QUANTUM;;
          reset_proc_accounting rpc;;
          modify_proc rpc (λ p, p <| p_cpu_time_left := 0 |> <| p_cycles := 0 |> <| p_kcall_cycles := 0 |> <| p_kipc_cycles := 0 |>);;
          sys ← gets (λ k, has (s_flags (priv_of k rpp)) SYS_PROC);
          (if sys : bool then
             modify_proc rpc (λ p, p <| p_priv := Some USER_PRIV_ID |> <| p_rts_flags ::= set_flag RTS_NO_PRIV |>)
           else mret ());;
          e ← gets (λ k, p_endpoint (proctab k rpc));
          vir ← gets (λ k, p_delivermsg_vir (proctab k rpp));
          let m' := set_m_word 3 vir (set_m_word 0 e m) in
          (if has (PR_FORK_FLAGS m) PFF_VMINHIBIT then RTS_SET rpc RTS_VMINHIBIT else mret ());;
          RTS_UNSET rpc (RTS_SIGNALED + RTS_SIG_PENDING + RTS_P_STOP);;
          start ← gets (λ k, h_can_start_hardening (kh k));
          modify_proc rpc (λ p, p <| p_pending := 0 |> <| p_cr3 := 0 |> <| p_cr3_v := 0 |> <| p_h ::= fork_hardening start |>);;
          hard ← gets (λ k, has (p_hflags (hp k rpp)) PROC_TO_HARD);
          (if hard : bool then set_fork_label rpp else mret ());;
          mret (OK, m')
  end.

(** ** Flags of a process that is not runnable before and after *)

Lemma RTS_SET_quiet k rp f :
  rts k rp ≠ 0 → RTS_SET rp f k = Ret ((), upd_proc rp (λ p, p <| p_rts_flags ::= set_flag f |>) k).
Proof.
  intros H. unfold RTS_SET, modify_proc. rewrite run_gets, run_modify, run_gets. unfold rts_f_is_runnable.
  unfold rts in H. by rewrite (proj2 (Z.eqb_neq _ _) H).
Qed.
Lemma RTS_UNSET_quiet k rp f :
  clear_flag f (rts k rp) ≠ 0 → RTS_UNSET rp f k = Ret ((), upd_proc rp (λ p, p <| p_rts_flags ::= clear_flag f |>) k).
Proof.
  intros H. unfold RTS_UNSET, modify_proc. rewrite run_gets, run_modify, run_gets. unfold proc_is_runnable, rts_f_is_runnable.
  rewrite proctab_upd_proc, decide_True by done. simpl. unfold rts in H. rewrite (proj2 (Z.eqb_neq _ _) H). by rewrite andb_false_r.
Qed.

(** [set_fork_label] and [set_exec_label] change the working set only. *)
Lemma set_label_spec k p lbl l :
  chain (pmb_next k) (p_lus1_us2 (hp k p)) l None → (length l ≤ HLIST_FUEL)%nat →
  wp (set_label lbl p) (λ _ k', ∃ w, k' = k <| working_set := w |>) k.
Proof.
  intros Hc Hlen. unfold set_label. wp_steps. destruct (_ <=? 0); wp_steps; [exists (working_set k); by destruct k|].
  assert (∀ fuel start l k1, chain (pmb_next k) start l None → (length l ≤ fuel)%nat → (∀ b, pmb_next k1 b = pmb_next k b) →
    (∃ w, k1 = k <| working_set := w |>) →
    wp (walk fuel pmb_next start (λ b, modify_pmb b (λ x, x <| pmb_iflags := pmb_flags x |> <| pmb_flags := lbl |>)))
       (λ _ k', ∃ w, k' = k <| working_set := w |>) k1) as Hw.
  { clear Hc Hlen l. intros fuel. induction fuel as [|fuel IH]; intros start [|b l] k1 Hc Hlen Hn [w Hk]; simpl in Hc, Hlen.
    - subst start. simpl. apply wp_ret. by exists w.
    - lia.
    - subst start. simpl. apply wp_ret. by exists w.
    - destruct Hc as [-> Hc]. cbn [walk]. wp_steps. unfold modify_pmb. wp_steps. rewrite Hk. set (k2 := _ : kstate).
      assert (∀ c, pmb_next k2 c = pmb_next k c) as Hn2.
      { intros c. rewrite <-(Hn c), Hk. unfold k2, pmb_next. simpl. rewrite upd_case. by case_decide; subst. }
      rewrite Hn2. apply (IH _ l); [done|lia|done|]. by eexists. }
  apply (Hw _ _ l); [done|done|done|]. exists (working_set k). by destruct k.
Qed.

(** ** A new process in a free slot *)

Lemma waits_in_use k Q C d l :
  ipc_inv k Q C → valid_slot d → isemptyp k d = false → chain (wait_next k) (Some d) l None →
  ∀ x, x ∈ l → isemptyp k x = false.
Proof.
  intros HI. revert d. induction l as [|y l IH]; intros d Hd He Hc x Hx; [by apply elem_of_nil in Hx|].
  simpl in Hc. destruct Hc as [[= <-] Hc]. apply elem_of_cons in Hx as [->|Hx]; [done|].
  destruct (wait_next k d) as [z|] eqn:Hz; [|apply chain_nil in Hc; subst l; by apply elem_of_nil in Hx].
  destruct (wait_next_valid k Q C HI d z Hd Hz) as (_ & _ & (Hv & Hz' & _)%isokendpt_Some). by apply (IH z).
Qed.

(** Only slot [c] of the process table changed. *)
Record slot_step (k k' : kstate) (c : Z) : Prop := {
  ss_others : ∀ n, n ≠ c → proctab k' n = proctab k n;
  ss_queues : run_q_head k' = run_q_head k ∧ run_q_tail k' = run_q_tail k;
  ss_rest : proc_ptr k' = proc_ptr k ∧ privtab k' = privtab k ∧ kh k' = kh k;
}.
Lemma slot_step_refl k c : slot_step k k c.
Proof. done. Qed.
Lemma slot_step_upd k k' c f : slot_step k k' c → slot_step k (upd_proc c f k') c.
Proof. intros [H1 H2 H3]. split; [|done..]. intros n Hn. rewrite proctab_upd_proc, decide_False by done. by apply H1. Qed.

(** What the new process has to be: it waits like [parent] and nobody is queued on it. *)
Record newborn (k k' : kstate) (parent c : Z) : Prop := {
  nb_recv : receiving k' c = true;
  nb_send : sending k' c = false;
  nb_used : slot_free k' c = false;
  nb_getfrom : p_getfrom_e (proctab k' c) = p_getfrom_e (proctab k parent);
  nb_links : p_caller_q (proctab k' c) = None ∧ q_link k' c = None;
  nb_prio : in_range (p_priority (proctab k' c));
  nb_endpt : ENDPOINT_P (p_endpoint (proctab k' c)) = c;
  nb_deliver : delivering k' c = false;
}.

Section newborn.
Context (k k' : kstate) (Q C : Z → list Z) (parent c : Z).
Context (HI : ipc_inv k Q C) (Hp : valid_slot parent) (Hc : valid_slot c) (Hfree : isemptyp k c = true).
Context (Hpr : receiving k parent = true) (Hps : sending k parent = false).
Context (HS : slot_step k k' c) (HN : newborn k k' parent c).

Lemma free_rts : rts k c = RTS_SLOT_FREE.
Proof using Hfree. by apply Z.eqb_eq in Hfree. Qed.
Lemma newborn_rts n : n ≠ c → rts k' n = rts k n.
Proof using HS. intros Hn. unfold rts. by rewrite (ss_others _ _ _ HS). Qed.
Lemma newborn_nonzero : rts k' c ≠ 0.
Proof using HN. intros E. pose proof (nb_recv _ _ _ _ HN) as H. unfold receiving in H. by rewrite E in H. Qed.

Lemma newborn_sched : sched_rel k' Q.
Proof using HI Hfree HS HN.
  destruct (ib_sched _ _ (ii_base _ _ _ HI)) as [[Hch Htl Hpri] Hrun]. destruct (ss_queues _ _ _ HS) as [Hh Ht].
  assert (proc_is_runnable k c = false) as Hnr by (rewrite runnable_rts, free_rts; done).
  assert (∀ q, in_range q → c ∉ Q q) as Hnq.
  { intros q Hq Hin. assert (proc_is_runnable k c = true) by (apply Hrun; by exists q). congruence. }
  split; [split|].
  - intros q Hq. rewrite Hh. eapply chain_ext; [|by apply Hch]. intros n Hn. unfold nextready.
    rewrite (ss_others _ _ _ HS); [done|]. intros ->. by apply (Hnq q).
  - intros q Hq. rewrite Ht. by apply Htl.
  - intros q n Hq Hn. rewrite (ss_others _ _ _ HS); [by apply Hpri|]. intros ->. by apply (Hnq q).
  - intros n. destruct (decide (n = c)) as [->|Hn].
    + rewrite runnable_rts. unfold rts_f_is_runnable. rewrite (proj2 (Z.eqb_neq _ _) newborn_nonzero).
      split; [done|]. intros (q & Hq & Hin). by destruct (Hnq q Hq).
    + rewrite <-Hrun. unfold proc_is_runnable. by rewrite (ss_others _ _ _ HS).
Qed.

Lemma newborn_base : ipc_base k' Q.
Proof using HI Hfree HS HN.
  pose proof (ii_base _ _ _ HI) as HB. split.
  - apply newborn_sched.
  - intros n Hv. destruct (decide (n = c)) as [->|Hn]; [apply HN|]. rewrite (ss_others _ _ _ HS) by done. by apply (ib_prio _ _ HB).
  - intros n Hv. destruct (decide (n = c)) as [->|Hn]; [apply HN|]. rewrite (ss_others _ _ _ HS) by done. by apply (ib_endpt _ _ HB).
  - intros n Hv. destruct (decide (n = c)) as [->|Hn]; [intros _; apply HN|]. unfold receiving, delivering.
    rewrite newborn_rts, (ss_others _ _ _ HS) by done. by apply (ib_deliver _ _ HB).
  - intros n Hv. destruct (decide (n = c)) as [->|Hn]; [by rewrite (nb_used _ _ _ _ HN)|]. unfold slot_free.
    rewrite newborn_rts by done. by apply (ib_free _ _ HB).
  - destruct (ss_rest _ _ _ HS) as [-> _]. unfold slot_free. pose proof (ib_ptr _ _ HB) as H.
    rewrite newborn_rts; [done|]. intros E. unfold slot_free in H. by rewrite E, free_rts in H.
Qed.

Lemma newborn_isok e d : isokendpt k e = Some d → isokendpt k' e = Some d.
Proof using Hfree HS.
  rewrite !isokendpt_Some. intros (Hv & He & Hd & Hs). assert (d ≠ c) as Hne by (intros ->; by rewrite He in Hfree).
  unfold isemptyp. rewrite (ss_others _ _ _ HS) by done. done.
Qed.

Lemma newborn_view n : n ≠ c → sending k' n = sending k n ∧ receiving k' n = receiving k n.
Proof using HS. intros Hn. unfold sending, receiving. by rewrite newborn_rts. Qed.

Lemma newborn_waits : no_deadlock k'.
Proof using HI Hp Hfree Hpr Hps HS HN.
  assert (∀ n, n ≠ c → wait_next k' n = wait_next k n) as Hw.
  { intros n Hn. unfold wait_next. rewrite !P_BLOCKEDON_eq. destruct (newborn_view n Hn) as [-> ->]. by rewrite (ss_others _ _ _ HS). }
  assert (wait_next k c = None) as Hwc.
  { unfold wait_next. rewrite P_BLOCKEDON_eq. unfold sending, receiving. by rewrite free_rts. }
  assert (wait_next k' c = wait_next k parent) as Hwc'.
  { unfold wait_next. rewrite !P_BLOCKEDON_eq, (nb_send _ _ _ _ HN), (nb_recv _ _ _ _ HN), Hps, Hpr. by rewrite (nb_getfrom _ _ _ _ HN). }
  destruct (wait_next k parent) as [d|] eqn:Hd.
  - destruct (wait_next_valid k Q C HI parent d Hp Hd) as (_ & _ & (Hv & He & _)%isokendpt_Some).
    destruct (ii_waits _ _ _ HI d Hv) as [l Hl]. intros n Hn. destruct (ii_waits _ _ _ HI n Hn) as [ln Hln].
    eapply (wait_add (wait_next k) (wait_next k') c d l); eauto.
    intros Hin. pose proof (waits_in_use k Q C d l HI Hv He Hl c Hin). congruence.
  - apply (no_deadlock_shrink k); [|apply HI]. intros n. destruct (decide (n = c)) as [->|Hn]; [by right|left; by apply Hw].
Qed.

Lemma newborn_inv : ipc_inv k' Q C.
Proof using All.
  assert (∀ d, valid_slot d → c ∉ C d) as HnC.
  { intros d Hd Hin%(ii_queued _ _ _ HI); [|done]. destruct Hin as (_ & Hs & _). unfold sending in Hs. by rewrite free_rts in Hs. }
  assert (C c = []) as HCc.
  { destruct (C c) as [|n l] eqn:E; [done|]. assert (n ∈ C c) as Hin by (rewrite E; left).
    apply (ii_queued _ _ _ HI) in Hin as (Hn & Hs & Ht); [|done]. pose proof (ii_sendto _ _ _ HI n Hn Hs) as (_ & He & _)%isokendpt_Some.
    rewrite Ht in He. congruence. }
  split.
  - apply newborn_base.
  - intros d Hd. destruct (decide (d = c)) as [->|Hne].
    + rewrite HCc. simpl. apply HN.
    + rewrite (ss_others _ _ _ HS) by done. eapply chain_ext; [|by apply (ii_callers _ _ _ HI)].
      intros n Hn. unfold q_link. rewrite (ss_others _ _ _ HS); [done|]. intros ->. by apply (HnC d).
  - intros d n Hd. destruct (decide (n = c)) as [->|Hne].
    + rewrite (nb_send _ _ _ _ HN). split; [by intros ?%HnC|by intros (_ & ? & _)].
    + destruct (newborn_view n Hne) as [-> _]. rewrite (ss_others _ _ _ HS) by done. by apply (ii_queued _ _ _ HI).
  - intros n Hn. destruct (decide (n = c)) as [->|Hne]; [intros _; apply HN|].
    destruct (newborn_view n Hne) as [-> _]. unfold q_link. rewrite (ss_others _ _ _ HS) by done. by apply (ii_link _ _ _ HI).
  - intros n Hn. destruct (decide (n = c)) as [->|Hne]; [by rewrite (nb_send _ _ _ _ HN)|].
    destruct (newborn_view n Hne) as [-> _]. rewrite (ss_others _ _ _ HS) by done. intros Hs. by apply newborn_isok, (ii_sendto _ _ _ HI).
  - intros n Hn. destruct (decide (n = c)) as [->|Hne].
    + intros _. rewrite (nb_getfrom _ _ _ _ HN). destruct (ii_getfrom _ _ _ HI parent Hp Hpr); [by left|right; by apply newborn_isok].
    + destruct (newborn_view n Hne) as [_ ->]. rewrite (ss_others _ _ _ HS) by done. intros Hr.
      destruct (ii_getfrom _ _ _ HI n Hn Hr); [by left|right; by apply newborn_isok].
  - intros n Hn. destruct (decide (n = c)) as [->|Hne]; [by rewrite (nb_send _ _ _ _ HN)|].
    destruct (newborn_view n Hne) as [-> ->]. rewrite (ss_others _ _ _ HS) by done. by apply (ii_sendrec _ _ _ HI).
  - apply newborn_waits.
Qed.
End newborn.

(** ** [do_fork] *)

Lemma wp_when (b : bool) (f : kstate → kstate) Q k :
  Q () (if b then f k else k) → wp (if b then modify f else mret ()) Q k.
Proof. by destruct b. Qed.
Lemma receiving_upd c f k : receiving (upd_proc c f k) c = has (p_rts_flags (f (proctab k c))) RTS_RECEIVING.
Proof. unfold receiving, rts. by rewrite proctab_upd_proc, decide_True. Qed.
Lemma quiet_set c f Q k :
  receiving k c = true → Q () (upd_proc c (λ p, p <| p_rts_flags ::= set_flag f |>) k) → wp (RTS_SET c f) Q k.
Proof.
  intros Hr HQ. eapply wp_intro; [|exact HQ]. apply RTS_SET_quiet. intros E. unfold receiving in Hr. by rewrite E in Hr.
Qed.
Lemma quiet_unset c f Q k :
  receiving k c = true → Z.land f RTS_RECEIVING = 0 →
  Q () (upd_proc c (λ p, p <| p_rts_flags ::= clear_flag f |>) k) → wp (RTS_UNSET c f) Q k.
Proof.
  intros Hr Hf HQ. eapply wp_intro; [|exact HQ]. apply RTS_UNSET_quiet. intros E. unfold receiving in Hr.
  rewrite <-(has_clear_other _ f), E in Hr by done. done.
Qed.

(** The flags of the child, from those of the parent. *)
Definition fork_flags (sys inhibit : bool) (f : Z) : Z :=
  clear_flag (RTS_SIGNALED + RTS_SIG_PENDING + RTS_P_STOP)
    ((if inhibit then set_flag RTS_VMINHIBIT else id)
       ((if sys then set_flag RTS_NO_PRIV else id) (set_flag RTS_NO_QUANTUM f))).

Lemma fork_flags_bit sys inhibit f g :
  Z.land (RTS_SIGNALED + RTS_SIG_PENDING + RTS_P_STOP) g = 0 → Z.land RTS_VMINHIBIT g = 0 → Z.land RTS_NO_PRIV g = 0 →
  Z.land RTS_NO_QUANTUM g = 0 → has (fork_flags sys inhibit f) g = has f g.
Proof.
  intros H1 H2 H3 H4. unfold fork_flags. rewrite has_clear_other by done.
  destruct inhibit, sys; unfold id; rewrite ?has_set_other by done; done.
Qed.
Lemma fork_flags_stop sys inhibit f : has (fork_flags sys inhibit f) RTS_NO_QUANTUM = true.
Proof.
  unfold fork_flags. rewrite has_clear_other by done.
  destruct inhibit, sys; unfold id; rewrite ?(has_set_other _ RTS_VMINHIBIT), ?(has_set_other _ RTS_NO_PRIV) by done; by apply has_set_self.
Qed.
Lemma fork_flags_priv inhibit f : has (fork_flags true inhibit f) RTS_NO_PRIV = true.
Proof.
  unfold fork_flags. rewrite has_clear_other by done.
  destruct inhibit; unfold id; rewrite ?(has_set_other _ RTS_VMINHIBIT) by done; by apply has_set_self.
Qed.

(** The entry of the child. *)
Definition fork_child (k : kstate) (rpp rpc : Z) (inhibit : bool) : proc :=
  let sys := has (s_flags (priv_of k rpp)) SYS_PROC in
  let p := fork_copy rpc (next_generation (ENDPOINT_G (p_endpoint (proctab k rpc)))) (proctab k rpp) in
  p <| p_accounting := acct0 |> <| p_cpu_time_left := 0 |> <| p_cycles := 0 |> <| p_kcall_cycles := 0 |> <| p_kipc_cycles := 0 |>
    <| p_priv ::= λ o, if sys then Some USER_PRIV_ID else o |> <| p_rts_flags ::= fork_flags sys inhibit |>
    <| p_pending := 0 |> <| p_cr3 := 0 |> <| p_cr3_v := 0 |> <| p_h ::= fork_hardening (h_can_start_hardening (kh k)) |>.

Lemma do_fork_run k Q caller m rpp l :
  ipc_base k Q → isokendpt k (PR_ENDPT m) = Some rpp → isemptyp k (PR_SLOT m) = true → receiving k rpp = true →
  chain (pmb_next k) (p_lus1_us2 (hp k rpp)) l None → (length l ≤ HLIST_FUEL)%nat →
  wp (do_fork caller m) (λ r k', r.1 = OK ∧ PR_ENDPT r.2 = p_endpoint (proctab k' (PR_SLOT m)) ∧
    PR_FORK_MSGADDR r.2 = p_delivermsg_vir (proctab k rpp) ∧ slot_step k k' (PR_SLOT m) ∧
    proctab k' (PR_SLOT m) = fork_child k rpp (PR_SLOT m) (has (PR_FORK_FLAGS m) PFF_VMINHIBIT)) k.
Proof.
  intros HB Hok Hfree Hr Hc Hlen. pose proof Hok as (Hv & He & _)%isokendpt_Some.
  set (c := PR_SLOT m) in *. assert (rpp ≠ c) as Hne by (intros ->; congruence).
  unfold do_fork. fold c. wp_steps. rewrite Hok. wp_steps. rewrite He, Hfree. cbn [orb negb].
  apply wp_bind, wp_assert; [by rewrite (ib_deliver _ _ HB)|]. wp_steps. rewrite isset_receiving, Hr. cbn [negb]. wp_steps.
  unfold modify_proc at 1. wp_steps. set (k1 := upd_proc c _ k).
  assert (slot_step k k1 c ∧ proctab k1 c = fork_copy c (next_generation (ENDPOINT_G (p_endpoint (proctab k c)))) (proctab k rpp)) as [S1 P1].
  { split; [apply slot_step_upd, slot_step_refl|]. unfold k1. by rewrite proctab_upd_proc, decide_True. }
  assert (receiving k1 c = true) as R1 by (unfold receiving, rts; rewrite P1; exact Hr).
  assert (working_set k1 = working_set k) as W1 by done. clearbody k1.
  apply quiet_set; [done|]. unfold reset_proc_accounting, modify_acct, modify_proc. wp_steps.
  set (k4 := upd_proc c _ (upd_proc c _ (upd_proc c _ k1))).
  assert (slot_step k k4 c) as S4 by by repeat apply slot_step_upd.
  assert (receiving k4 c = true) as R4.
  { unfold k4. rewrite !receiving_upd, !proctab_upd_proc, !decide_True by done. cbn. rewrite has_set_other by done. exact R1. }
  assert (proctab k4 rpp = proctab k rpp) as E4 by by apply S4.
  assert (priv_of k4 rpp = priv_of k rpp) as V4.
  { unfold priv_of, priv_id. rewrite E4. by destruct (ss_rest _ _ _ S4) as (_ & -> & _). }
  rewrite V4. set (sys := has (s_flags (priv_of k rpp)) SYS_PROC). apply wp_when.
  set (k5 := if sys then _ else _). assert (slot_step k k5 c) as S5 by (unfold k5; destruct sys; [by apply slot_step_upd|done]).
  assert (receiving k5 c = true) as R5.
  { unfold k5. destruct sys; [|done]. rewrite receiving_upd. cbn. by rewrite has_set_other. }
  wp_steps. rewrite (ss_others _ _ _ S5 rpp Hne). set (inh := has (PR_FORK_FLAGS m) PFF_VMINHIBIT).
  apply (wp_mono _ (λ _ k6, k6 = if inh then upd_proc c (λ p, p <| p_rts_flags ::= set_flag RTS_VMINHIBIT |>) k5 else k5)).
  { destruct inh; [by apply quiet_set|by apply wp_ret]. }
  intros [] k6 Hk6. assert (slot_step k k6 c) as S6 by (rewrite Hk6; destruct inh; [by apply slot_step_upd|done]).
  assert (receiving k6 c = true) as R6.
  { rewrite Hk6. destruct inh; [|done]. rewrite receiving_upd. cbn. by rewrite has_set_other. }
  wp_steps. apply quiet_unset; [done|done|]. wp_steps.
  set (k8 := upd_proc c _ (upd_proc c _ k6)). assert (slot_step k k8 c) as S8 by by repeat apply slot_step_upd.
  assert (hp k8 rpp = hp k rpp) as E8 by (unfold hp; by rewrite (ss_others _ _ _ S8)).
  assert (kh k6 = kh k) as EK by apply S6.
  assert (proctab k8 c = fork_child k rpp c inh) as P8.
  { unfold k8. change (kh (upd_proc ?a ?b k6)) with (kh k6). rewrite !proctab_upd_proc, !decide_True, EK by done.
    rewrite Hk6. unfold k5, k4. unfold fork_child. fold sys. rewrite <-P1.
    destruct inh, sys; rewrite !proctab_upd_proc, !decide_True by done; done. }
  assert (p_endpoint (proctab k5 c) = p_endpoint (proctab k8 c)) as Ee.
  { rewrite P8. unfold k5, k4, fork_child. rewrite <-P1. destruct sys; rewrite !proctab_upd_proc, !decide_True by done; done. }
  apply (wp_mono _ (λ _ k9, ∃ w, k9 = k8 <| working_set := w |>)).
  - destruct (has _ PROC_TO_HARD); [|apply wp_ret; exists (working_set k8); by destruct k8].
    apply (set_label_spec k8 rpp H_FORK l); [|done]. rewrite E8. eapply chain_ext; [|exact Hc]. intros b _.
    assert (working_set k8 = working_set k) as W8 by (unfold k8; rewrite Hk6; unfold k5, k4; destruct inh, sys; exact W1).
    unfold pmb_next. by rewrite W8.
  - intros [] k9 [w ->]. wp_steps. unfold PR_ENDPT, PR_FORK_MSGADDR. cbn [fst snd].
    rewrite m_word_set_ne, !m_word_set by done. split_and!; [done|exact Ee|done| |exact P8].
    destruct S8. by split.
Qed.

(** The new endpoint of a slot: valid, and different from the previous one. *)
Lemma next_generation_fresh g : 0 ≤ g → 0 ≤ next_generation g ≤ ENDPOINT_MAX_GENERATION ∧ next_generation g ≠ g.
Proof.
  intros Hg. unfold next_generation. change ENDPOINT_MAX_GENERATION with 58740. destruct (58740 <=? g + 1) eqn:E; lia.
Qed.
Lemma fork_endpoint c g :
  valid_slot c → 0 ≤ g →
  ENDPOINT_P (ENDPOINT (next_generation g) c) = c ∧ ENDPOINT_G (ENDPOINT (next_generation g) c) ≠ g.
Proof.
  intros [Hc1 Hc2] Hg. destruct (next_generation_fresh g Hg) as [Hr Hne].
  assert (- MAX_NR_TASKS ≤ c ≤ MAX_MAGIC_PROC) as Hc by (unfold NR_TASKS, NR_PROCS, MAX_NR_TASKS, MAX_MAGIC_PROC, SELF in *; lia).
  destruct (endpoint_roundtrip (next_generation g) c Hr Hc) as (-> & -> & _). done.
Qed.

(** The child as the parent sees it, after a fork. *)
Record forked (k k' : kstate) (rpp c e : Z) : Prop := {
  fk_others : ∀ n, n ≠ c → proctab k' n = proctab k n;
  fk_endpoint : p_endpoint (proctab k' c) = e ∧ isokendpt k' e = Some c;
  fk_fresh : isokendpt k' (p_endpoint (proctab k c)) = None;
  fk_waits : receiving k' c = true ∧ sending k' c = false ∧ p_getfrom_e (proctab k' c) = p_getfrom_e (proctab k rpp);
  fk_stopped : has (rts k' c) RTS_NO_QUANTUM = true;
  fk_priv : has (s_flags (priv_of k rpp)) SYS_PROC = true → has (rts k' c) RTS_NO_PRIV = true ∧ p_priv (proctab k' c) = Some USER_PRIV_ID;
  fk_clean : p_pending (proctab k' c) = 0 ∧ retreg (p_reg (proctab k' c)) = 0 ∧ p_cr3 (proctab k' c) = 0 ∧ p_lus1_us2 (hp k' c) = None;
}.

(** C24. [do_fork] on a free slot, for a parent that waits for PM's reply and has no queued
    senders: the call succeeds and keeps the invariant of message passing.  No other process
    changes.  The child has a new endpoint, which is valid, while the previous endpoint of the
    slot is not; it waits for whom the parent waits for, cannot run before it is given a
    quantum, has no pending signal, no page table and no working set, and if the parent is a
    system process it gets the privileges of an ordinary user process and waits for better
    ones. *)
Theorem do_fork_child k Q C caller m rpp l :
  ipc_inv k Q C → isokendpt k (PR_ENDPT m) = Some rpp → valid_slot (PR_SLOT m) → isemptyp k (PR_SLOT m) = true →
  0 ≤ ENDPOINT_G (p_endpoint (proctab k (PR_SLOT m))) →
  receiving k rpp = true → sending k rpp = false → p_caller_q (proctab k rpp) = None →
  chain (pmb_next k) (p_lus1_us2 (hp k rpp)) l None → (length l ≤ HLIST_FUEL)%nat →
  wp (do_fork caller m) (λ r k', r.1 = OK ∧ ipc_inv k' Q C ∧ forked k k' rpp (PR_SLOT m) (PR_ENDPT r.2)) k.
Proof.
  intros HI Hok Hc Hfree Hg Hr Hs Hq Hl Hlen. pose proof (ii_base _ _ _ HI) as HB.
  pose proof Hok as (Hv & He & _)%isokendpt_Some. set (c := PR_SLOT m) in *.
  eapply wp_mono; [by eapply do_fork_run|]. intros [r m'] k' (Hr1 & Hep & _ & HS & HP). cbn [fst snd] in *. fold c in Hep, HS, HP.
  destruct (fork_endpoint c (ENDPOINT_G (p_endpoint (proctab k c))) Hc Hg) as [Hep1 Hep2].
  set (inh := has (PR_FORK_FLAGS m) PFF_VMINHIBIT) in HP. set (sys := has (s_flags (priv_of k rpp)) SYS_PROC).
  assert (rts k' c = fork_flags sys inh (rts k rpp)) as Hrts by (unfold rts; by rewrite HP).
  assert (∀ g, Z.land (RTS_SIGNALED + RTS_SIG_PENDING + RTS_P_STOP) g = 0 → Z.land RTS_VMINHIBIT g = 0 → Z.land RTS_NO_PRIV g = 0 →
    Z.land RTS_NO_QUANTUM g = 0 → has (rts k' c) g = has (rts k rpp) g) as Hbit by (intros; rewrite Hrts; by apply fork_flags_bit).
  assert (newborn k k' rpp c) as HN.
  { split.
    - unfold receiving. by rewrite Hbit.
    - unfold sending. by rewrite Hbit.
    - unfold slot_free. rewrite Hbit by done. by eapply isokendpt_not_free.
    - by rewrite HP.
    - unfold q_link. rewrite HP. split; [exact Hq|]. by apply (ii_link _ _ _ HI).
    - rewrite HP. by apply (ib_prio _ _ HB).
    - rewrite HP. exact Hep1.
    - unfold delivering. rewrite HP. cbn. rewrite has_clear_other by done. by apply (ib_deliver _ _ HB). }
  assert (p_endpoint (proctab k' c) ≠ p_endpoint (proctab k c)) as Hfresh.
  { rewrite HP. intros E. apply Hep2. exact (f_equal ENDPOINT_G E). }
  split; [done|]. split; [exact (newborn_inv k k' Q C rpp c HI Hv Hc Hfree Hr Hs HS HN)|]. split.
  - apply HS.
  - split; [done|]. apply isokendpt_Some. split_and!; [done| |done|rewrite Hep; apply HN]. apply isemptyp_free, HN.
  - destruct (isokendpt k' _) as [d|] eqn:E; [|done]. apply isokendpt_Some in E as (_ & _ & Ed & Ep).
    rewrite (ib_endpt _ _ HB c Hc) in Ep. by subst d.
  - split_and!; apply HN.
  - rewrite Hrts. apply fork_flags_stop.
  - intros Hsys. split; [rewrite Hrts; unfold sys; rewrite Hsys; apply fork_flags_priv|]. rewrite HP. cbn. by rewrite Hsys.
  - unfold hp. by rewrite HP.
Qed.

(** Process 20 waits for PM and forks into slot 21. *)
Definition fork_demo : kstate :=
  upd_proc 20 (λ p, p <| p_rts_flags := RTS_RECEIVING |> <| p_getfrom_e := ANY |>) ipc_demo.
Definition fork_msg : message := mk_message 0 0 [20; 21; 0].

Lemma fork_demo_inv : ipc_inv fork_demo (λ _, []) (λ _, []).
Proof.
  apply (ipc_inv_quiet_slots _ [SYSTEM; 0; 20; IDLE_PTR]); [done..|].
  intros n Hn. unfold fork_demo, ipc_demo. simpl. rewrite !upd_ne by (intros ->; set_solver). done.
Qed.
Lemma do_fork_child_witness :
  wp (do_fork 0 fork_msg) (λ r k', r.1 = OK ∧ PR_ENDPT r.2 = ENDPOINT 1 21 ∧ isokendpt k' 21 = None) fork_demo.
Proof.
  eapply wp_mono; [apply wp_and; [|apply (do_fork_child fork_demo _ _ 0 fork_msg 20 [] fork_demo_inv); try done]|].
  - instantiate (1 := λ r _, PR_ENDPT r.2 = ENDPOINT 1 21). vm_compute. reflexivity.
  - simpl. lia.
  - intros r k' (H & -> & _ & HF). split_and!; [done|done|]. apply HF.
Defined.

(** ** Senders that wait for the parent *)

(** A process cannot be queued on two others. *)
Lemma shared_queue_breaks k p c n Q C :
  valid_slot p → valid_slot c → p ≠ c → p_caller_q (proctab k p) = Some n → p_caller_q (proctab k c) = Some n → ~ ipc_inv k Q C.
Proof.
  intros Hp Hc Hne Hqp Hqc HI.
  assert (∀ d, valid_slot d → p_caller_q (proctab k d) = Some n → n ∈ C d) as Hin.
  { intros d Hd Hq. pose proof (ii_callers _ _ _ HI d Hd) as Hch. rewrite Hq in Hch. destruct (C d) as [|x l]; simpl in Hch; [done|].
    destruct Hch as [[= ->] _]. left. }
  pose proof (Hin p Hp Hqp) as (_ & _ & E1)%(ii_queued _ _ _ HI); [|done].
  pose proof (Hin c Hc Hqc) as (_ & _ & E2)%(ii_queued _ _ _ HI); [|done]. congruence.
Qed.

(** Processes 20 and 21 have used up their time. *)
Definition fork_senders_demo : kstate :=
  ipc_demo <| proctab ::= λ t, upd t 21 (proc0 21 <| p_rts_flags := RTS_NO_QUANTUM |> <| p_priv := Some 1 |>) |>.
(** 20 waits for a reply of PM, 21 sends to 20 and blocks, PM makes 20 fork into slot 22. *)
Definition fork_with_sender : K (Z * message) :=
  mini_receive 20 0 8192 0;; mini_send 21 20 (KernMsg msg0) FROM_KERNEL;; do_fork 0 (mk_message 0 0 [20; 22; 0]).

(** The copy of the parent's entry includes the head of its queue of senders.  From a
    state that satisfies the invariant of message passing, let a process block in a send to
    the parent and let the parent fork: the sender is then first in the queue of the parent
    and in the queue of the child, which it never addressed, and no assignment of queues
    makes the invariant hold again. *)
Theorem do_fork_shares_senders :
  ipc_inv fork_senders_demo (λ _, []) (λ _, []) ∧
  wp fork_with_sender (λ r k', r.1 = OK ∧ p_sendto_e (proctab k' 21) = 20 ∧
    p_caller_q (proctab k' 20) = Some 21 ∧ p_caller_q (proctab k' 22) = Some 21 ∧ ∀ Q C, ~ ipc_inv k' Q C) fork_senders_demo.
Proof.
  split.
  - apply (ipc_inv_quiet_slots _ [SYSTEM; 0; 20; 21; IDLE_PTR]); [done..|].
    intros n Hn. unfold fork_senders_demo, ipc_demo. simpl. rewrite !upd_ne by (intros ->; set_solver). done.
  - assert (wp fork_with_sender (λ r k', r.1 = OK ∧ p_sendto_e (proctab k' 21) = 20 ∧
      p_caller_q (proctab k' 20) = Some 21 ∧ p_caller_q (proctab k' 22) = Some 21) fork_senders_demo) as H by (vm_compute; by split_and!).
    eapply wp_mono; [exact H|]. intros r k' (-> & -> & Hq1 & Hq2). split_and!; [done..|]. intros Q C.
    by apply (shared_queue_breaks k' 20 22 21).
Qed.
