(* ===== verification/PickPe.v ===== *)
(** * Who runs while a processing element is being run twice

    [pick_proc] with [hpick_proc] (kernel/proc.c, modelled in Hardening.v): between the two
    runs and during them no process but the hardened one gets the processor, and VM for as
    long as it handles a page fault of that process. *)
From S2P Require Import Prelude LinkedList Kernel Endpoint Sched Notify Ipc HMem WorkingSet HShared Pram Dwc Hardening.

(** The process to choose. *)
Definition pe_choice (k : kstate) : Z :=
  if (h_step (kh k) =? VM_RUN) && has (rts k (h_proc_nr (kh k))) RTS_PAGEFAULT then VM_PROC_NR else h_proc_nr (kh k).

(** What a kernel that runs a processing element may rely on: VM can handle a page fault, and
    otherwise the process can run, possibly after it was stopped by the retirement counter. *)
Record pe_ready (k : kstate) : Prop := {
  pr_enabled : h_enable (kh k) ≠ 0;
  pr_vm : h_step (kh k) = VM_RUN → has (rts k (h_proc_nr (kh k))) RTS_PAGEFAULT = true → rts k VM_PROC_NR = 0;
  pr_back : h_step (kh k) = VM_RUN → has (rts k (h_proc_nr (kh k))) RTS_PAGEFAULT = false →
    rts k (h_proc_nr (kh k)) = 0 ∧ (h_step_back (kh k) = FIRST_RUN ∨ h_step_back (kh k) = SECOND_RUN);
  pr_run : h_step (kh k) ≠ VM_RUN →
    has (rts k (h_proc_nr (kh k))) RTS_NO_QUANTUM = false ∧ clear_flag RTS_INS_COUNTER (rts k (h_proc_nr (kh k))) = 0;
}.

(** The run that goes on: the one that the page fault interrupted, or the current one. *)
Definition resumed_step (k : kstate) : Z :=
  if h_step (kh k) =? VM_RUN then if has (rts k (h_proc_nr (kh k))) RTS_PAGEFAULT then VM_RUN else h_step_back (kh k)
  else h_step (kh k).

(** A process that the last of its flags is taken from can run: it does not preempt itself. *)
Lemma rts_unset_wakes k rp f : clear_flag f (rts k rp) = 0 → rts_unset k rp f rp = 0.
Proof.
  intros H. unfold rts_unset. assert (rts_after_unset rp f k rp = 0) as E by (unfold rts_after_unset; by rewrite decide_True).
  rewrite E. destruct (woken k rp f && preempts k rp && bool_decide (rp = proc_ptr k)) eqn:Ew; [|done].
  apply andb_true_iff in Ew as [[_ Hp]%andb_true_iff Hq]. apply bool_decide_eq_true in Hq.
  unfold preempts in Hp. rewrite <-Hq, Z.ltb_irrefl in Hp. done.
Qed.

(** Billing changes no process, no queue and no hardening state. *)
Lemma bill_spec p k : wp (bill p) (λ _ k', ∃ b, k' = k <| bill_ptr := b |>) k.
Proof. unfold bill. wp_steps. case_match; wp_steps; [by eexists|]. exists (bill_ptr k). by destruct k. Qed.
Lemma sched_rel_bill k Q b : sched_rel k Q → sched_rel (k <| bill_ptr := b |>) Q.
Proof. by apply sched_rel_same. Qed.

Lemma choose_pe_spec k Q p msg :
  sched_rel k Q → rts k p = 0 →
  wp (choose_pe p msg) (λ r k', r = Some p ∧ sched_rel k' Q ∧ rts k' p = 0 ∧ kh k' = kh k) k.
Proof.
  intros HQ Hr. unfold choose_pe. wp_steps. rewrite runnable_rts, Hr, Z.eqb_refl. wp_steps.
  eapply wp_mono; [apply bill_spec|]. intros [] k' [b ->]. wp_steps. split_and!; [done|by apply sched_rel_bill|done|done].
Qed.


(** Process 9 is the hardened process in its first run, stopped by the retirement counter. *)
Definition pick_demo : kstate :=
  upd_proc 9 (λ p, p <| p_rts_flags := RTS_INS_COUNTER |>) sched_demo
    <| kh ::= λ h, h <| h_enable := 1 |> <| h_proc_nr := 9 |> <| h_step := FIRST_RUN |> |>.
