(* ===== verification/Clock.v ===== *)
(** * The clock (kernel/clock.c, and the kernel calls do_setalarm, do_vtimer, do_times, do_stime)

    [cstate] adds to the kernel state what only the clock uses: the queue of alarm timers,
    one per privilege structure and numbered like it, and the load history.  The real time is [uptime] of the kernel state.  Counters of type clock_t are
    32-bit signed integers. *)
From S2P Require Import Prelude LinkedList Timers Kernel Endpoint Sched IpcInv Notify WorkingSet HMem Dwc.

Definition VT_VIRTUAL : Z := 1.
Definition VT_PROF : Z := 2.
Definition SIGVTALRM : Z := 24.
Definition SIGPROF : Z := 25.
Definition H_PERIOD_TO_INJECT : Z := 10.
Definition H_THRESHOLD_PE : Z := 65300.
Definition LOAD_UNIT_SECS : Z := 6.
Definition LOAD_HISTORY : Z := 150.
(** The watchdog of alarms, the only one that the kernel sets. *)
Definition CAUSE_ALARM : Z := 1.
(** More than one timer per privilege structure cannot be in the queue. *)
Definition TIMER_FUEL : nat := 66.

Record loadinfo := mk_loadinfo {
  proc_load_history : Z → Z;
  proc_last_slot : Z;
  last_clock : Z;
}.
#[export] Instance settable_loadinfo : Settable loadinfo := λ r,
  mk_loadinfo (proc_load_history r) (proc_last_slot r) (last_clock r).

Record cstate := mk_cstate {
  ckern : kstate;
  ctimers : timers;
  cnext : Z;
  kloadinfo : loadinfo;
  boottime : Z;
  id_last_inject_pe : Z;
  system_hz : Z;
}.
#[export] Instance settable_cstate : Settable cstate := λ r,
  mk_cstate (ckern r) (ctimers r) (cnext r) (kloadinfo r) (boottime r) (id_last_inject_pe r) (system_hz r).

Definition CK (A : Type) : Type := M cstate A.

(** Code of the kernel, and of the timer queue, in the larger state. *)
Definition ckcall {A} (m : K A) : CK A := λ c,
  match m (ckern c) with
  | Ret (a, k) => Ret (a, c <| ckern := k |>)
  | Panic e => Panic e
  end.
Definition cclock (c : cstate) : clock := mk_clock (ctimers c) (cnext c) (uptime (ckern c)).
Definition clockcall {A} (m : M clock A) : CK A := λ c,
  match m (cclock c) with
  | Ret (a, t) => Ret (a, c <| ctimers := clock_timers t |> <| cnext := next_timeout t |>)
  | Panic e => Panic e
  end.
Definition modify_ptime (p : Z) (f : proc → proc) : CK unit := ckcall (modify_proc p f).

(** ** do_setalarm.c *)

Definition ALRM_EXP_TIME : message → Z := m_word 3.
Definition ALRM_ABS_TIME : message → Z := m_word 1.

(** The ticks left on an alarm that is set. *)
Definition time_left (now e : Z) : Z := if negb (e =? TMR_NEVER) && (now <? e) then i32 (e - now) else 0.

Definition do_setalarm (caller : Z) (m : message) : CK (Z * message) :=
  let exp_time := ALRM_EXP_TIME m in
  let use_abs_time := ALRM_ABS_TIME m in
  sys ← gets (λ c, has (s_flags (priv_of (ckern c) caller)) SYS_PROC);
  if negb sys then mret (EPERM, m)
  else
    tp ← gets (λ c, priv_id (ckern c) caller);
    e ← gets (λ c, p_endpoint (proctab (ckern c) caller));
    modify (λ c, c <| ctimers ::= upd_tmr tp (λ t, t <| tmr_arg := e |> <| tmr_func := CAUSE_ALARM |>) |>);;
    now ← gets (λ c, uptime (ckern c));
    old ← gets (λ c, tmr_exp_time (tmr (ctimers c) tp));
    let m := set_m_word 3 (time_left now old) m in
    if exp_time =? 0 then clockcall (reset_timer TIMER_FUEL tp);; mret (OK, m)
    else
      let at_ := if negb (use_abs_time =? 0) then exp_time else i32 (exp_time + now) in
      modify (λ c, c <| ctimers ::= upd_tmr tp (λ t, t <| tmr_exp_time := at_ |>) |>);;
      clockcall (set_timer TIMER_FUEL tp at_ CAUSE_ALARM);;
      mret (OK, m).

(** The watchdog: it runs with the timers beside it. *)
Definition cause_alarm (tp : Z) : M (timers * kstate) unit := λ sw,
  match mini_notify CLOCK (tmr_arg (tmr sw.1 tp)) sw.2 with
  | Ret (_, k) => Ret ((), (sw.1, k))
  | Panic e => Panic e
  end.

(** [tmrs_exptimers(&clock_timers, realtime, NULL)] with [cause_alarm] as the watchdog. *)
Definition expire_alarms (now : Z) : CK unit := λ c,
  match tmrs_exptimers cause_alarm TIMER_FUEL now (ctimers c, ckern c) with
  | Ret (_, (t, k)) => Ret ((), c <| ctimers := t |> <| ckern := k |>)
  | Panic e => Panic e
  end.
(** Part of [timer_int_handler]: expired timers. *)
Definition ring_alarms : CK unit :=
  c ← gets (λ c, c);
  if cnext c <=? uptime (ckern c) then
    expire_alarms (uptime (ckern c));;
    modify (λ c, c <| cnext := timeout_of (ctimers c) |>)
  else mret ().

(** ** do_vtimer.c *)

Definition VT_WHICH : message → Z := m_word 0.
Definition VT_SET : message → Z := m_word 1.
Definition VT_VALUE : message → Z := m_word 3.
Definition VT_ENDPT : message → Z := m_word 4.

(** [pt_flag] and [pt_left]. *)
Definition vt_flag (which : Z) : Z := if which =? VT_VIRTUAL then MF_VIRT_TIMER else MF_PROF_TIMER.
Definition vt_left (which : Z) (t : proc) : Z := if which =? VT_VIRTUAL then p_virt_left t else p_prof_left t.
Definition set_vt_left (which v : Z) (t : proc) : proc :=
  if which =? VT_VIRTUAL then t <| p_virt_left := v |> else t <| p_prof_left := v |>.

Definition do_vtimer (caller : Z) (m : message) : CK (Z * message) :=
  sys ← gets (λ c, has (s_flags (priv_of (ckern c) caller)) SYS_PROC);
  if negb sys then mret (EPERM, m)
  else if negb (VT_WHICH m =? VT_VIRTUAL) && negb (VT_WHICH m =? VT_PROF) then mret (EINVAL, m)
  else
    e ← gets (λ c, if VT_ENDPT m =? SELF then p_endpoint (proctab (ckern c) caller) else VT_ENDPT m);
    ok ← gets (λ c, isokendpt (ckern c) e);
    match ok with
    | None => mret (EINVAL, m)
    | Some rp =>
        let flag := vt_flag (VT_WHICH m) in
        old ← gets (λ c, if has (p_misc_flags (proctab (ckern c) rp)) flag
                         then Z.max 0 (vt_left (VT_WHICH m) (proctab (ckern c) rp)) else 0);
        (if negb (VT_SET m =? 0) then
           ckcall (modify_proc rp (λ p, p <| p_misc_flags ::= clear_flag flag |>));;
           if 0 <? VT_VALUE m then
             modify_ptime rp (set_vt_left (VT_WHICH m) (VT_VALUE m));;
             ckcall (modify_proc rp (λ p, p <| p_misc_flags ::= set_flag flag |>))
           else modify_ptime rp (set_vt_left (VT_WHICH m) 0)
         else mret ());;
        mret (OK, set_m_word 3 old m)
    end.

(** One of the two timers in [vtimer_check]: the signal waits for the end of a processing
    element. *)
Definition vtimer_expire (which sig rp : Z) : CK unit :=
  c ← gets (λ c, c);
  if has (p_misc_flags (proctab (ckern c) rp)) (vt_flag which) && (vt_left which (proctab (ckern c) rp) <=? 0) then
    ckcall (modify_proc rp (λ p, p <| p_misc_flags ::= clear_flag (vt_flag which) |>));;
    modify_ptime rp (set_vt_left which 0);;
    let h := kh (ckern c) in
    if negb (h_enable h =? 0) && (h_proc_nr h =? rp)
    then ckcall (modify_hproc rp (λ h, h <| p_sig_delay := sig |>))
    else ckcall (cause_sig rp sig)
  else mret ().
Definition vtimer_check (rp : Z) : CK unit :=
  vtimer_expire VT_VIRTUAL SIGVTALRM rp;;
  vtimer_expire VT_PROF SIGPROF rp.

(** ** do_times.c and do_stime.c *)

Definition do_times (caller : Z) (m : message) : CK (Z * message) :=
  c ← gets (λ c, c);
  let e := if m_word 0 m =? SELF then p_endpoint (proctab (ckern c) caller) else m_word 0 m in
  let m := if negb (e =? NONE) then
             match isokendpt (ckern c) e with
             | Some rp => set_m_word 1 (p_sys_time (proctab (ckern c) rp)) (set_m_word 0 (p_user_time (proctab (ckern c) rp)) m)
             | None => m
             end
           else m in
  mret (OK, set_m_word 2 (boottime c) (set_m_word 4 (uptime (ckern c)) m)).

Definition do_stime (m : message) : CK Z := modify (λ c, c <| boottime := m_word 2 m |>);; mret OK.

(** ** clock.c *)

(** [for (p = rdy_head[q]; p != NULL; p = p->p_nextready) enqueued++]. *)
Fixpoint count_ready (fuel : nat) (k : kstate) (p : option Z) (enqueued : Z) : option Z :=
  match p with
  | None => Some enqueued
  | Some n =>
      match fuel with
      | O => None
      | S fuel' => count_ready fuel' k (p_nextready (proctab k n)) (enqueued + 1)
      end
  end.
Fixpoint count_queues (qs : list Z) (k : kstate) (enqueued : Z) : option Z :=
  match qs with
  | [] => Some enqueued
  | q :: qs' =>
      match count_ready CHECK_FUEL k (run_q_head k q) enqueued with
      | Some n => count_queues qs' k n
      | None => None
      end
  end.

Definition load_slot (realtime hz : Z) : Z := ((u32 realtime / hz / LOAD_UNIT_SECS) mod LOAD_HISTORY) mod 2 ^ 16.
Definition load_update : CK unit :=
  c ← gets (λ c, c);
  let slot := load_slot (uptime (ckern c)) (system_hz c) in
  (if negb (slot =? proc_last_slot (kloadinfo c))
   then modify (λ c, c <| kloadinfo ::= λ i, i <| proc_load_history ::= λ h, upd h slot 0 |> <| proc_last_slot := slot |> |>)
   else mret ());;
  match count_queues (seqZ 0 NR_SCHED_QUEUES) (ckern c) 0 with
  | None => panic "run queue does not end"
  | Some n =>
      modify (λ c, c <| kloadinfo ::= λ i, i <| proc_load_history ::= λ h, upd h slot ((h slot + n) mod 2 ^ 16) |>
                                             <| last_clock := uptime (ckern c) |> |>)
  end.

(** Accounting of a tick: the running process [p], and [billp] if [p] is not billable; p_ticks
    is only printed. *)
Definition charge_tick (p billp : Z) (billable : bool) : CK unit :=
  modify_ptime p (λ t, t <| p_user_time ::= λ x, i32 (x + 1) |>);;
  (if negb billable then modify_ptime billp (λ t, t <| p_sys_time ::= λ x, i32 (x + 1) |>) else mret ());;
  flags ← gets (λ c, p_misc_flags (proctab (ckern c) p));
  bflags ← gets (λ c, p_misc_flags (proctab (ckern c) billp));
  (if has flags MF_VIRT_TIMER then modify_ptime p (λ t, t <| p_virt_left ::= λ x, i32 (x - 1) |>) else mret ());;
  (if has flags MF_PROF_TIMER then modify_ptime p (λ t, t <| p_prof_left ::= λ x, i32 (x - 1) |>) else mret ());;
  if negb billable && has bflags MF_PROF_TIMER
  then modify_ptime billp (λ t, t <| p_prof_left ::= λ x, i32 (x - 1) |>) else mret ().

(** Whether the next fault may be injected. *)
Definition allow_injection : CK unit :=
  c ← gets (λ c, c);
  let h := kh (ckern c) in
  if negb (h_inject_fault h =? 0) && (could_inject h =? H_NO) then
    (if H_PERIOD_TO_INJECT <=? id_current_pe h - id_last_inject_pe c then
       ckcall (modify_h (λ h, h <| could_inject := H_YES |>));;
       modify (λ c, c <| id_last_inject_pe := id_current_pe h |>)
     else mret ());;
    if H_THRESHOLD_PE <=? id_current_pe h then
      modify (λ c, c <| id_last_inject_pe := 0 |>);;
      ckcall (modify_h (λ h, h <| id_current_pe := 0 |>))
    else mret ()
  else mret ().

Definition timer_int_handler : CK Z :=
  ckcall (modify (λ k, k <| uptime ::= λ t, i32 (t + 1) |>));;
  p ← gets (λ c, proc_ptr (ckern c));
  billp ← gets (λ c, bill_ptr (ckern c));
  billable ← gets (λ c, has (s_flags (priv_of (ckern c) p)) BILLABLE);
  charge_tick p billp billable;;
  vtimer_check p;;
  (if negb (p =? billp) then vtimer_check billp else mret ());;
  load_update;;
  ring_alarms;;
  allow_injection;;
  mret 1.
