(* ===== verification/ClockThm.v ===== *)
(** * Alarms and virtual timers

    Alarms ring: what do_setalarm puts into the queue, and that the clock interrupt notifies
    the processes whose alarms are due.  Virtual timers that run out become signals. *)
From S2P Require Import Prelude LinkedList Timers Kernel Endpoint Sched IpcInv Notify WorkingSet Dwc Clock.

(** ** A notification from CLOCK *)

(** Process [d] has a notification from CLOCK: pending, or about to be delivered. *)
Definition clock_told (k : kstate) (d : Z) : Prop :=
  get_sys_bit (s_notify_pending (priv_of k d)) (s_id (priv_of k CLOCK)) = true ∨
  (delivering k d = true ∧ m_source (p_delivermsg (proctab k d)) = p_endpoint (proctab k CLOCK) ∧
   m_type (p_delivermsg (proctab k d)) = NOTIFY_MESSAGE).

Section notified.
Context (k k' : kstate) (d : Z).

Lemma clock_now_priv n : sched_frame (notify_now k CLOCK d) k' → priv_of k' n = priv_of k n.
Proof.
  intros Hf. unfold priv_of, priv_id. rewrite (sched_frame_state privtab _ _ Hf), (sched_frame_field p_priv _ _ n Hf) by done.
  unfold notify_now. rewrite privtab_upd_priv. change (proctab (upd_priv ?i ?f ?k)) with (proctab k).
  rewrite proctab_upd_proc. change (privtab (upd_proc ?a ?b ?c)) with (privtab c).
  assert (∀ q, p_priv (notify_deliver k CLOCK d q) = p_priv q) as Hp.
  { intros q. unfold notify_deliver, IPC_STATUS_ADD_CALL. by rewrite (IPC_STATUS_ADD_view p_priv). }
  assert (∀ s, notify_taken CLOCK s = s) as Ht by done.
  rewrite Ht. destruct (decide (n = d)) as [->|]; rewrite ?Hp; by case_decide as E; rewrite ?E.
Qed.
Lemma now_clock_endpoint n : sched_frame (notify_now k CLOCK d) k' → p_endpoint (proctab k' n) = p_endpoint (proctab k n).
Proof.
  intros Hf. rewrite (sched_frame_field p_endpoint _ _ n Hf) by done.
  pose proof (notify_now_ipcview k CLOCK d n) as E. unfold ipcview in E. by simplify_eq.
Qed.
Lemma now_mail n : sched_frame (notify_now k CLOCK d) k' → n ≠ d → mailview (proctab k' n) = mailview (proctab k n).
Proof.
  intros Hf Hn. rewrite (sched_frame_field mailview _ _ n Hf) by done. unfold notify_now.
  change (proctab (upd_priv ?i ?f ?k)) with (proctab k). by rewrite proctab_upd_proc, decide_False.
Qed.
Lemma now_clock_told : sched_frame (notify_now k CLOCK d) k' → clock_told k' d.
Proof.
  intros Hf. right. destruct (notify_now_target _ _ _ _ Hf) as [-> ->]. rewrite now_clock_endpoint by done.
  split_and!; [done|done|]. apply (notify_message_type k CLOCK d).
Qed.
Lemma later_pending n :
  0 ≤ s_id (priv_of k CLOCK) →
  s_id (priv_of (notify_later k CLOCK d) CLOCK) = s_id (priv_of k CLOCK) ∧
  get_sys_bit (s_notify_pending (priv_of (notify_later k CLOCK d) n)) (s_id (priv_of k CLOCK)) =
    bool_decide (priv_id k n = priv_id k d) || get_sys_bit (s_notify_pending (priv_of k n)) (s_id (priv_of k CLOCK)).
Proof.
  intros Hid. unfold notify_later. rewrite !priv_of_upd_priv. split.
  - case_decide as E; [|done]. unfold priv_of. by rewrite E.
  - case_decide as E; [|by rewrite bool_decide_eq_false_2]. rewrite bool_decide_eq_true_2 by done. simpl.
    rewrite get_set_sys_bit by done. by rewrite Z.eqb_refl.
Qed.
End notified.

(** A notification from CLOCK to the owner of an endpoint; nobody loses one. *)
Lemma clock_notify k Q e :
  ipc_base k Q → 0 ≤ s_id (priv_of k CLOCK) →
  wp (mini_notify CLOCK e) (λ _ k', base_step k k' ∧ s_id (priv_of k' CLOCK) = s_id (priv_of k CLOCK) ∧
    uptime k' = uptime k ∧
    (∀ d, isokendpt k e = Some d → clock_told k' d) ∧ (∀ d, clock_told k d → clock_told k' d)) k.
Proof.
  intros HB Hid. eapply wp_mono; [by apply (mini_notify_spec k Q)|]. intros r k' [Hst Hpost]. split; [done|].
  destruct (isokendpt k e) as [d|] eqn:He; [|destruct Hpost as [_ ->]; by split_and!].
  destruct Hpost as [_ Hpost]. destruct (notify_ready k CLOCK d) eqn:Hr.
  - destruct Hpost as [Hf _]. split_and!.
    + by rewrite (clock_now_priv k k' d CLOCK Hf).
    + by rewrite (sched_frame_state uptime _ _ Hf).
    + intros ? [= <-]. by eapply now_clock_told.
    + intros n [Hp|(H1 & H2 & H3)].
      * left. by rewrite !(clock_now_priv k k' d _ Hf).
      * destruct (decide (n = d)) as [->|Hn]; [by eapply now_clock_told|]. right.
        pose proof (now_mail k k' d n Hf Hn) as [= Em Ed]. unfold delivering in *.
        by rewrite Em, Ed, (now_clock_endpoint k k' d CLOCK Hf).
  - subst k'. split_and!; [by apply later_pending|done| |].
    + intros ? [= <-]. left. destruct (later_pending k d d Hid) as [-> ->]. by rewrite bool_decide_eq_true_2.
    + intros n [Hp|Hp]; [left|by right]. destruct (later_pending k d n Hid) as [-> ->]. by rewrite Hp, orb_true_r.
Qed.

(** ** Alarms ring *)

(** The clock's queue holds the alarms [l], and the clock knows when the first is due. *)
Definition alarms_ok (c : cstate) (l : list Z) : Prop :=
  clock_ok (cclock c) l ∧ ∀ tp, tp ∈ l → 0 ≤ tp < NR_SYS_PROCS.

Lemma alarms_length c l : alarms_ok c l → (length l < TIMER_FUEL - 1)%nat.
Proof.
  intros [[[Hc _] _] Hr]. apply chain_NoDup in Hc.
  assert (length l ≤ length (seqZ 0 NR_SYS_PROCS))%nat as Hle.
  { apply submseteq_length, NoDup_submseteq; [done|]. intros x Hx. apply elem_of_seqZ. specialize (Hr x Hx). lia. }
  rewrite length_seqZ in Hle. unfold TIMER_FUEL, NR_SYS_PROCS in *. lia.
Qed.

(** What is true of the kernel after the watchdogs of [fired] have run. *)
Record rung (k0 : kstate) (arg : Z → Z) (fired : list Z) (k : kstate) : Prop := {
  rg_step : base_step k0 k;
  rg_clock : s_id (priv_of k CLOCK) = s_id (priv_of k0 CLOCK);
  rg_uptime : uptime k = uptime k0;
  rg_told : ∀ tp d, tp ∈ fired → isokendpt k0 (arg tp) = Some d → clock_told k d;
}.

Lemma cause_alarm_rung k0 Q0 arg :
  ipc_base k0 Q0 → 0 ≤ s_id (priv_of k0 CLOCK) →
  ∀ tp s w fired, rung k0 arg fired w → tmr_arg (tmr s tp) = arg tp →
  wp (cause_alarm tp) (λ _ sw, sw.1 = s ∧ rung k0 arg (fired ++ [tp]) sw.2) (s, w).
Proof.
  intros HB0 Hid tp s w fired [[[Q HB] HP] Hc Hu Ht] Harg. unfold wp, cause_alarm. simpl. rewrite Harg.
  destruct (wp_inv _ _ _ (clock_notify w Q (arg tp) HB ltac:(by rewrite Hc))) as (r & k' & -> & Hst & Hc' & Hu' & Hnew & Hold).
  split; [done|]. cbn [snd]. split.
  - eapply base_step_trans; [split; [by exists Q|exact HP]|done].
  - by rewrite Hc'.
  - by rewrite Hu'.
  - intros tp' d [Hin|Hin%list_elem_of_singleton]%elem_of_app Hd; [by apply Hold, (Ht tp')|].
    apply Hnew. rewrite <-Hin. by eapply (isokendpt_pres k0 Q0).
Qed.

(** C27. Alarms reach their processes: when the clock interrupt finds that the time of the
    first alarm has come, it ends without a panic, every process whose alarm is due (and
    that still exists) has a notification from CLOCK, being delivered or pending, and the
    message-passing invariant holds; exactly the alarms that were due are gone from the
    queue, the others keep their deadlines, and the clock's next timeout is the earliest
    of them. *)
Theorem ring_alarms_reach_processes c l Q C :
  ipc_inv (ckern c) Q C → alarms_ok c l → 0 ≤ s_id (priv_of (ckern c) CLOCK) →
  wp ring_alarms (λ _ c', ∃ due rest, l = due ++ rest ∧
    Forall (λ tp, exp_of (ctimers c) tp ≤ uptime (ckern c)) due ∧
    Forall (λ tp, uptime (ckern c) < exp_of (ctimers c) tp) rest ∧
    (∀ tp d, tp ∈ due → isokendpt (ckern c) (tmr_arg (tmr (ctimers c) tp)) = Some d → clock_told (ckern c') d) ∧
    (∃ Q', ipc_inv (ckern c') Q' C) ∧ alarms_ok c' rest ∧
    (∀ tp, tp ∈ rest → exp_of (ctimers c') tp = exp_of (ctimers c) tp)) c.
Proof.
  intros HI Hal Hid. pose proof (alarms_length _ _ Hal) as Hlen. destruct Hal as [[Hok Hnext] Hr]. simpl in Hok, Hnext.
  unfold ring_alarms. apply wp_bind, wp_gets. destruct (Z.leb_spec (cnext c) (uptime (ckern c))) as [Hdue|Hnot].
  - pose proof (exp_loop_ok cause_alarm (rung (ckern c) (λ i, tmr_arg (tmr (ctimers c) i))) (λ i, tmr_arg (tmr (ctimers c) i))
      (cause_alarm_rung _ Q _ (ii_base _ _ _ HI) Hid) TIMER_FUEL (uptime (ckern c)) (ctimers c) (ckern c) l []
      Hok ltac:(lia) ltac:(done) ltac:(split; [split; [exists Q; apply HI|done]|done|done|intros ?? []%elem_of_nil])) as Hexp.
    destruct (wp_inv _ _ _ Hexp) as ([] & [t k'] & Hrun & HJ & Hok' & _ & Hext & _).
    destruct (expired_sorted (ctimers c) (uptime (ckern c)) l (proj2 Hok)) as [Hd Hrest].
    apply wp_bind. eapply wp_intro.
    { unfold expire_alarms, tmrs_exptimers, mbind, M_bind. rewrite Hrun. reflexivity. }
    apply wp_modify. eexists _, _. split; [symmetry; apply expired_app|]. split; [exact Hd|]. split; [exact Hrest|].
    destruct HJ as [Hst Hc Hu Ht]. split; [exact Ht|]. split; [by eapply ipc_inv_step|]. split.
    + split; [split; [exact Hok'|done]|]. intros tp Htp. apply Hr.
      rewrite <-(expired_app (exp_of (ctimers c)) (uptime (ckern c)) l). apply elem_of_app. by right.
    + intros tp Htp. apply Hext. intros Hin. pose proof (chain_NoDup _ _ _ (proj1 Hok)) as Hnd.
      rewrite <-(expired_app (exp_of (ctimers c)) (uptime (ckern c)) l) in Hnd.
      apply NoDup_app in Hnd as (_ & Hdis & _). by apply (Hdis tp).
  - apply wp_ret. exists [], l. split; [done|]. split; [done|]. split.
    + destruct Hok as [Hc Hs]. rewrite Hnext in Hnot. unfold timeout_of in Hnot. rewrite (chain_head _ _ _ Hc) in Hnot.
      destruct Hs as [|x l' Hs Hall]; [done|]. simpl in Hnot. constructor; [done|].
      eapply Forall_impl; [exact Hall|]. intros y Hy. unfold by_time, exp_of in *. lia.
    + split; [by intros ?? []%elem_of_nil|]. split; [by exists Q|]. done.
Qed.

(** Process 0 waits, its alarm is due; the alarm of process 20 is due at 20. *)
Definition alarm_timers : timers :=
  mk_timers (λ i, if decide (i = 0) then mk_timer (Some 1) 0 CAUSE_ALARM 0
                  else if decide (i = 1) then mk_timer None 20 CAUSE_ALARM 20
                  else mk_timer None TMR_NEVER 0 0) (Some 0).
Definition clock_demo : cstate :=
  mk_cstate ipc_demo alarm_timers 0 (mk_loadinfo (λ _, 0) 0 0) 0 0 60.
Lemma clock_demo_ok : alarms_ok clock_demo [0; 1].
Proof.
  split; [split; [split; [by vm_compute|repeat constructor; unfold by_time; by vm_compute]|done]|].
  intros tp Htp. rewrite !elem_of_cons, elem_of_nil in Htp. unfold NR_SYS_PROCS. lia.
Qed.
Lemma ring_alarms_reach_processes_witness :
  wp ring_alarms (λ _ c', clock_told (ckern c') 0 ∧ alarms_ok c' [1]) clock_demo.
Proof.
  eapply wp_mono.
  - apply (ring_alarms_reach_processes clock_demo [0; 1] _ _ ipc_demo_inv clock_demo_ok). by vm_compute.
  - intros [] c' (due & rest & El & Hdue & Hrest & Htold & _ & Hok & _).
    destruct due as [|x [|y due]]; simpl in El.
    + subst rest. apply Forall_cons in Hrest as [H _]. by vm_compute in H.
    + injection El as <- <-. split; [|done]. apply (Htold 0 0); [by left|by vm_compute].
    + injection El as <- <- _. apply Forall_cons in Hdue as [_ [H _]%Forall_cons]. by vm_compute in H.
Defined.

(** ** Setting an alarm *)

Lemma upd_tmr_but tp f s l :
  (∀ t, tmr_next (f t) = tmr_next t) → timers_but tp s l → timers_but tp (upd_tmr tp f s) l.
Proof.
  intros Hf [Hc Hs]. split; [by apply chain_upd_tmr|]. eapply sorted_ext; [|exact Hs]. intros i Hi.
  apply upd_tmr_exp_ne. unfold remove_timer in Hi. by apply list_elem_of_filter in Hi as [? _].
Qed.

(** The clock's calls when only the timer itself may be out of order. *)
Lemma set_timer_but tp e wd c l :
  timers_but tp (clock_timers c) l → (length l < TIMER_FUEL - 1)%nat →
  wp (set_timer TIMER_FUEL tp e wd) (λ _ c',
    clock_ok c' (insert_timer (exp_of (clock_timers c)) tp e (remove_timer tp l)) ∧
    exp_of (clock_timers c') tp = e ∧ (∀ i, i ≠ tp → exp_of (clock_timers c') i = exp_of (clock_timers c) i) ∧
    (∀ i, tmr_arg (tmr (clock_timers c') i) = tmr_arg (tmr (clock_timers c) i))) c.
Proof.
  intros Hok Hlen. destruct (settimer_but TIMER_FUEL tp e wd _ l Hok ltac:(lia)) as (s' & Hrun & Hok' & He & _ & Ho).
  unfold wp, set_timer. rewrite Hrun. pose proof (head_time_list _ _ Hok') as Hh.
  destruct (tmrs s') as [h|] eqn:Et.
  - split; [split; [done|]; simpl; unfold timeout_of; by rewrite Et|]. split; [done|]. split; [done|].
    by apply (settimer_arg _ _ _ _ _ _ _ Hrun).
  - destruct (remove_timer tp l) as [|y k]; simpl in Hh; [done|]. case_match; done.
Qed.
Lemma reset_timer_but tp c l :
  timers_but tp (clock_timers c) l → (length l < TIMER_FUEL - 1)%nat →
  wp (reset_timer TIMER_FUEL tp) (λ _ c', clock_ok c' (remove_timer tp l) ∧
    exp_of (clock_timers c') tp = TMR_NEVER ∧ (∀ i, i ≠ tp → exp_of (clock_timers c') i = exp_of (clock_timers c) i) ∧
    (∀ i, tmr_arg (tmr (clock_timers c') i) = tmr_arg (tmr (clock_timers c) i))) c.
Proof.
  intros Hok Hlen. destruct (clrtimer_but TIMER_FUEL tp _ l Hok ltac:(lia)) as (s' & Hrun & Hok' & He & Ho).
  unfold wp, reset_timer. rewrite Hrun. split; [by split|]. split; [done|]. split; [done|].
  by apply (clrtimer_arg _ _ _ _ _ Hrun).
Qed.

Lemma wp_clockcall {A} (m : M clock A) (Q : A → cstate → Prop) c :
  wp m (λ a t, Q a (c <| ctimers := clock_timers t |> <| cnext := next_timeout t |>)) (cclock c) → wp (clockcall m) Q c.
Proof. unfold wp, clockcall. by destruct (m (cclock c)) as [[a t]|]. Qed.

(** The deadline that a request names. *)
Definition alarm_time (now : Z) (m : message) : Z :=
  if negb (ALRM_ABS_TIME m =? 0) then ALRM_EXP_TIME m else i32 (ALRM_EXP_TIME m + now).
(** The list of alarms after the request [m] for timer [tp]. *)
Definition alarms_after (c : cstate) (tp : Z) (m : message) (l : list Z) : list Z :=
  if ALRM_EXP_TIME m =? 0 then remove_timer tp l
  else insert_timer (exp_of (ctimers c)) tp (alarm_time (uptime (ckern c)) m) (remove_timer tp l).

(** C28. do_setalarm replaces the caller's alarm: the call returns [OK] with the ticks that the
    old alarm had left; a request with the time 0 takes the alarm out of the queue, any other
    puts it behind all alarms that are not due later, with the time asked for (counted from
    now if it is relative) and the caller as the process to notify.  The other alarms, the
    rest of the kernel and the order of the queue stay as they are, although the timer is
    given its new deadline while it is still linked at its old place. *)
Theorem do_setalarm_refines c l caller m :
  alarms_ok c l → has (s_flags (priv_of (ckern c) caller)) SYS_PROC = true →
  0 ≤ priv_id (ckern c) caller < NR_SYS_PROCS →
  wp (do_setalarm caller m) (λ r c', let tp := priv_id (ckern c) caller in
    r.1 = OK ∧ m_word 3 r.2 = time_left (uptime (ckern c)) (exp_of (ctimers c) tp) ∧ ckern c' = ckern c ∧
    alarms_ok c' (alarms_after c tp m l) ∧
    exp_of (ctimers c') tp = (if ALRM_EXP_TIME m =? 0 then TMR_NEVER else alarm_time (uptime (ckern c)) m) ∧
    tmr_arg (tmr (ctimers c') tp) = p_endpoint (proctab (ckern c) caller) ∧
    ∀ i, i ≠ tp → exp_of (ctimers c') i = exp_of (ctimers c) i ∧ tmr_arg (tmr (ctimers c') i) = tmr_arg (tmr (ctimers c) i)) c.
Proof.
  intros Hal Hsys Hid. pose proof (alarms_length _ _ Hal) as Hlen. destruct Hal as [[Hok Hnext] Hr]. simpl in Hok.
  unfold do_setalarm. apply wp_bind, wp_gets. rewrite Hsys. cbn [negb]. apply wp_bind, wp_gets, wp_bind, wp_gets.
  set (tp := priv_id (ckern c) caller) in *. set (f := λ t, t <| tmr_arg := _ |> <| tmr_func := _ |>).
  apply wp_bind, wp_modify, wp_bind, wp_gets, wp_bind, wp_gets.
  pose proof (upd_tmr_but tp f _ l ltac:(done) (timers_ok_but tp _ _ Hok)) as Hbut.
  assert (∀ i, i ≠ tp → exp_of (upd_tmr tp f (ctimers c)) i = exp_of (ctimers c) i) as Hexp by (intros; by apply upd_tmr_exp_ne).
  assert (exp_of (upd_tmr tp f (ctimers c)) tp = exp_of (ctimers c) tp) as Hexp0 by by rewrite upd_tmr_exp_eq.
  assert (tmr_arg (tmr (upd_tmr tp f (ctimers c)) tp) = p_endpoint (proctab (ckern c) caller)) as Harg
    by (unfold upd_tmr; simpl; by rewrite upd_eq).
  assert (∀ i, i ≠ tp → tmr_arg (tmr (upd_tmr tp f (ctimers c)) i) = tmr_arg (tmr (ctimers c) i)) as Hargs
    by (intros; unfold upd_tmr; simpl; by rewrite upd_ne).
  cbn [ctimers ckern set settable_cstate]. fold (exp_of (upd_tmr tp f (ctimers c)) tp). rewrite Hexp0.
  unfold alarms_after. destruct (ALRM_EXP_TIME m =? 0) eqn:E0; cbv zeta.
  - apply wp_bind, wp_clockcall. eapply wp_mono; [by apply (reset_timer_but tp _ l)|].
    intros [] t (Hc & He & Ho & Ha). apply wp_ret. cbn [fst snd ckern ctimers set settable_cstate].
    cbn [clock_timers cclock ctimers set settable_cstate] in Hc, He, Ho, Ha.
    split; [done|]. split; [apply m_word_set|]. split; [done|]. split.
    + split; [exact Hc|]. intros i Hi. apply Hr. unfold remove_timer in Hi. by apply list_elem_of_filter in Hi as [_ ?].
    + split; [done|]. split; [by rewrite Ha|]. intros i Hi. by rewrite Ho, Ha, Hexp, Hargs.
  - fold (alarm_time (uptime (ckern c)) m). set (e := alarm_time (uptime (ckern c)) m).
    apply wp_bind, wp_modify, wp_bind, wp_clockcall.
    pose proof (upd_tmr_but tp (λ t, t <| tmr_exp_time := e |>) _ l ltac:(done) Hbut) as Hbut2.
    eapply wp_mono; [apply (set_timer_but tp e CAUSE_ALARM _ l); [exact Hbut2|exact Hlen]|].
    intros [] t (Hc & He & Ho & Ha). apply wp_ret. cbn [fst snd ckern ctimers set settable_cstate].
    cbn [clock_timers cclock ctimers set settable_cstate] in Hc, He, Ho, Ha.
    split; [done|]. split; [apply m_word_set|]. split; [done|]. split.
    + split.
      * rewrite (insert_timer_ext _ (exp_of (ctimers c))) in Hc; [exact Hc|]. intros y Hy.
        assert (y ≠ tp) by (unfold remove_timer in Hy; by apply list_elem_of_filter in Hy as [? _]).
        by rewrite upd_tmr_exp_ne, Hexp.
      * intros i [->|Hi]%insert_timer_elem; [done|]. apply Hr. unfold remove_timer in Hi. by apply list_elem_of_filter in Hi as [_ ?].
    + split; [done|]. split; [by rewrite Ha, upd_tmr_arg|]. intros i Hi.
      by rewrite Ho, Ha, upd_tmr_exp_ne, upd_tmr_arg, Hexp, Hargs.
Qed.
Lemma do_setalarm_refines_witness :
  wp (do_setalarm 20 (mk_message 20 0 [0; 0; 0; 7; 0]))
    (λ r c', r.1 = OK ∧ m_word 3 r.2 = 20 ∧ alarms_ok c' [0; 1] ∧ exp_of (ctimers c') 1 = 7)
    (clock_demo <| ckern := ipc_demo <| privtab ::= λ t, upd t 1 (t 1 <| s_flags := SYS_PROC |>) |> |>).
Proof.
  eapply wp_mono.
  - apply (do_setalarm_refines _ [0; 1]).
    + destruct clock_demo_ok as [[A B] D]. split; [split; [exact A|exact B]|exact D].
    + by vm_compute.
    + by vm_compute.
  - intros r c' (H1 & H2 & _ & H3 & H4 & _). split; [exact H1|]. split; [exact H2|]. split; [exact H3|exact H4].
Defined.

(** ** Virtual timers *)

Lemma wp_ckcall {A} (m : K A) (Q : A → cstate → Prop) c :
  wp m (λ a k, Q a (c <| ckern := k |>)) (ckern c) → wp (ckcall m) Q c.
Proof. unfold wp, ckcall. by destruct (m (ckern c)) as [[a k]|]. Qed.

(** The timer [which] of [rp] has run out. *)
Definition vt_expired (c : cstate) (which rp : Z) : bool :=
  has (p_misc_flags (proctab (ckern c) rp)) (vt_flag which) && (vt_left which (proctab (ckern c) rp) <=? 0).

(** The process that the clock finds inside a processing element: its signal waits. *)
Definition in_pe (c : cstate) (rp : Z) : bool := negb (h_enable (kh (ckern c)) =? 0) && (h_proc_nr (kh (ckern c)) =? rp).

Lemma vtimer_expire_pe c which sig rp :
  vt_expired c which rp = true → in_pe c rp = true →
  wp (vtimer_expire which sig rp) (λ _ c',
    ckern c' = upd_proc rp (λ q, q <| p_h ::= λ h, h <| p_sig_delay := sig |> |>)
                 (upd_proc rp (set_vt_left which 0)
                    (upd_proc rp (λ p, p <| p_misc_flags ::= clear_flag (vt_flag which) |>) (ckern c)))) c.
Proof.
  intros He Hpe. unfold vtimer_expire. apply wp_bind, wp_gets. unfold vt_expired in He. rewrite He.
  apply wp_bind, wp_ckcall. unfold modify_proc. apply wp_modify. unfold modify_ptime. apply wp_bind, wp_ckcall. unfold modify_proc. apply wp_modify.
  unfold in_pe in Hpe. rewrite Hpe. apply wp_ckcall. unfold modify_hproc, modify_proc. apply wp_modify. done.
Qed.

(** A flaw.  A virtual timer that runs out while its process is in a processing element
    becomes a signal when the element is committed; there is room for one.  When the
    virtual and the profile timer of the process run out at the same tick, both are switched
    off, only SIGPROF is remembered, and SIGVTALRM is neither pending nor remembered. *)
Theorem vtimer_check_drops_signal c rp :
  vt_expired c VT_VIRTUAL rp = true → vt_expired c VT_PROF rp = true → in_pe c rp = true →
  wp (vtimer_check rp) (λ _ c',
    p_sig_delay (hp (ckern c') rp) = SIGPROF ∧
    has (p_misc_flags (proctab (ckern c') rp)) MF_VIRT_TIMER = false ∧
    has (p_misc_flags (proctab (ckern c') rp)) MF_PROF_TIMER = false ∧
    p_pending (proctab (ckern c') rp) = p_pending (proctab (ckern c) rp) ∧
    (∀ n, rts (ckern c') n = rts (ckern c) n)) c.
Proof.
  intros Hv Hp Hpe. unfold vtimer_check. apply wp_bind. eapply wp_mono; [by apply vtimer_expire_pe|].
  intros [] c1 Hk1.
  assert (proctab (ckern c1) rp = set_vt_left VT_VIRTUAL 0 (proctab (ckern c) rp <| p_misc_flags ::= clear_flag MF_VIRT_TIMER |>)
            <| p_h ::= λ h, h <| p_sig_delay := SIGVTALRM |> |>) as E1.
  { by rewrite Hk1, !proctab_upd_proc, !decide_True by done. }
  apply andb_prop in Hv as [Hv1 Hv2]. apply andb_prop in Hp as [Hp1 Hp2].
  eapply wp_mono; [apply vtimer_expire_pe|].
  - unfold vt_expired. rewrite E1. apply andb_true_intro. split; [|exact Hp2].
    change (has (clear_flag MF_VIRT_TIMER (p_misc_flags (proctab (ckern c) rp))) (vt_flag VT_PROF) = true).
    by rewrite has_clear_other.
  - unfold in_pe in *. by rewrite Hk1.
  - intros [] c2 Hk2.
    assert (proctab (ckern c2) rp = set_vt_left VT_PROF 0 (proctab (ckern c1) rp <| p_misc_flags ::= clear_flag MF_PROF_TIMER |>)
              <| p_h ::= λ h, h <| p_sig_delay := SIGPROF |> |>) as E2.
    { by rewrite Hk2, !proctab_upd_proc, !decide_True by done. }
    unfold hp. rewrite E2, E1. unfold set_vt_left, VT_PROF, VT_VIRTUAL. cbn [Z.eqb Pos.eqb p_misc_flags p_h p_pending p_sig_delay set settable_proc settable_hproc].
    split; [done|]. split; [rewrite has_clear_other by done; apply has_clear_self|]. split; [apply has_clear_self|].
    split; [done|]. intros n. rewrite Hk2, Hk1. unfold rts. rewrite !proctab_upd_proc. by repeat case_decide; subst.
Qed.
Definition vtimer_demo : cstate :=
  clock_demo <| ckern := ipc_demo <| proctab ::= λ t, upd t 20 (t 20 <| p_misc_flags := 6 |>) |>
                                  <| kh ::= λ h, h <| h_enable := 1 |> <| h_proc_nr := 20 |> |> |>.
Lemma vtimer_check_drops_signal_witness :
  wp (vtimer_check 20) (λ _ c', p_sig_delay (hp (ckern c') 20) = SIGPROF ∧ p_pending (proctab (ckern c') 20) = 0) vtimer_demo.
Proof.
  eapply wp_mono.
  - apply (vtimer_check_drops_signal vtimer_demo 20); vm_compute; reflexivity.
  - intros [] c' (H1 & _ & _ & H2 & _). split; [exact H1|]. rewrite H2. vm_compute. reflexivity.
Defined.
