(* ===== verification/KPriv.v ===== *)
(** * Privileges and the end of a process (do_privctl.c, do_clear.c)

    A system process has a privilege structure of its own, user processes share one.  The
    structures are in the kernel state, their alarm timers in the clock's state.  [pstate]
    adds what do_privctl reads from the memory of its caller: a privilege structure, an
    address range or a number, by process and address; [None] where the copy fails. *)
From S2P Require Import Prelude LinkedList Timers Kernel Endpoint Sched IpcInv Notify Async System WorkingSet HMem HShared Irq Fork Dwc Clock.

Definition DYN_PRIV_ID : Z := 0x008.
Definition CHECK_IO_PORT : Z := 0x020.
Definition CHECK_MEM : Z := 0x080.
Definition NR_IO_RANGE : Z := 64.
Definition NR_MEM_RANGE : Z := 20.
Definition NR_IRQ : Z := 8.
Definition DSRV_F : Z := Z.lor (Z.lor SYS_PROC PREEMPTIBLE) DYN_PRIV_ID.
Definition DSRV_T : Z := -1.
Definition DSRV_SM : Z := 2.
Definition SYS_PRIV_ALLOW : Z := 1.
Definition SYS_PRIV_DISALLOW : Z := 2.
Definition SYS_PRIV_SET_SYS : Z := 3.
Definition SYS_PRIV_SET_USER : Z := 4.
Definition SYS_PRIV_ADD_IO : Z := 5.
Definition SYS_PRIV_ADD_MEM : Z := 6.
Definition SYS_PRIV_ADD_IRQ : Z := 7.
Definition SYS_PRIV_QUERY_MEM : Z := 8.
Definition SYS_PRIV_UPDATE_SYS : Z := 9.
Definition SYS_PRIV_YIELD : Z := 10.
Definition FROM_EXIT : Z := 1.
Definition MF_FPU_INITIALIZED : Z := 0x1000.

(** ** do_clear.c *)

(** [handle_hsr_events] only prints; it and the FPU (release_fpu) are left out. *)
Definition clear_hardening (rc : Z) : K unit :=
  free_pram_mem_blocks rc FROM_EXIT;;
  free_hsrs rc;;
  reset_hardening_attri rc.

Definition do_clear (m : message) : CK Z :=
  ok ← gets (λ c, isokendpt (ckern c) (PR_ENDPT m));
  match ok with
  | None => mret EINVAL
  | Some rc =>
      ckcall (modify_proc rc (λ p, p <| p_cr3_v := 0 |>));;
      empty ← gets (λ c, isemptyp (ckern c) rc);
      if empty : bool then mret OK
      else
        ckcall (release_hooks rc);;
        hard ← gets (λ c, has (p_hflags (hp (ckern c) rc)) PROC_TO_HARD);
        (if hard : bool then ckcall (clear_hardening rc) else mret ());;
        ckcall (clear_endpoint rc);;
        i ← gets (λ c, priv_id (ckern c) rc);
        clockcall (reset_timer TIMER_FUEL i);;
        ckcall (RTS_SETFLAGS rc RTS_SLOT_FREE);;
        ckcall (modify_proc rc (λ p, p <| p_misc_flags ::= clear_flag MF_FPU_INITIALIZED |>));;
        sys ← gets (λ c, has (s_flags (privtab (ckern c) i)) SYS_PROC);
        (if sys : bool then ckcall (modify_priv i (λ s, s <| s_proc_nr := NONE |>)) else mret ());;
        mret OK
  end.

(** ** do_privctl.c *)

(** A [struct priv] in user memory: the counts need not fit the tables. *)
Record upriv := mk_upriv {
  up_priv : priv;
  up_nr_irq : Z;
  up_irq : Z → Z;
  up_nr_io : Z;
  up_io : Z → Z * Z;
  up_nr_mem : Z;
  up_mem : Z → Z * Z;
}.

Record pstate := mk_pstate {
  pclk : cstate;
  u_priv : Z → Z → option upriv;
  u_range : Z → Z → option (Z * Z);
  u_int : Z → Z → option Z;
}.
#[export] Instance settable_pstate : Settable pstate := λ r, mk_pstate (pclk r) (u_priv r) (u_range r) (u_int r).
Definition PK (A : Type) : Type := M pstate A.
Definition pcall {A} (m : CK A) : PK A := λ s,
  match m (pclk s) with
  | Ret (a, c) => Ret (a, s <| pclk := c |>)
  | Panic e => Panic e
  end.
Definition pkern (s : pstate) : kstate := ckern (pclk s).
Definition pkcall {A} (m : K A) : PK A := pcall (ckcall m).

Definition CTL_ENDPT : message → Z := m_word 0.
Definition CTL_REQUEST : message → Z := m_word 1.
Definition CTL_PHYSSTART : message → Z := m_word 3.
Definition CTL_PHYSLEN : message → Z := m_word 4.
Definition CTL_ARG_PTR : message → Z := m_word 5.

(** [priv(rp)->field = ...]. *)
Definition modify_priv_of (rp : Z) (f : priv → priv) : PK unit :=
  i ← gets (λ s, priv_id (pkern s) rp);
  pkcall (modify_priv i f).

Definition all_bits : sys_map := λ _, 2 ^ BITCHUNK_BITS - 1.

(** The tables of [update_priv]: [None] when the count is out of range. *)
Definition table_of {A} (n max : Z) (f : Z → A) : option (list A) :=
  if (n <? 0) || (max <? n) then None else Some (f <$> seqZ 0 n).

Definition update_priv (rp : Z) (u : upriv) : PK Z :=
  let p := up_priv u in
  modify_priv_of rp (λ s, s <| s_flags := s_flags p |> <| s_sig_mgr := s_sig_mgr p |> <| s_bak_sig_mgr := s_bak_sig_mgr p |>);;
  ok1 ← (if has (s_flags p) CHECK_IRQ then
           match table_of (up_nr_irq u) NR_IRQ (up_irq u) with
           | None => mret false
           | Some t => modify_priv_of rp (λ s, s <| s_irq_tab := t |>);; mret true
           end
         else mret true);
  if negb ok1 then mret EINVAL else
  ok2 ← (if has (s_flags p) CHECK_IO_PORT then
           match table_of (up_nr_io u) NR_IO_RANGE (up_io u) with
           | None => mret false
           | Some t => modify_priv_of rp (λ s, s <| s_io_tab := t |>);; mret true
           end
         else mret true);
  if negb ok2 then mret EINVAL else
  ok3 ← (if has (s_flags p) CHECK_MEM then
           match table_of (up_nr_mem u) NR_MEM_RANGE (up_mem u) with
           | None => mret false
           | Some t => modify_priv_of rp (λ s, s <| s_mem_tab := t |>);; mret true
           end
         else mret true);
  if negb ok3 then mret EINVAL else
  modify_priv_of rp (λ s, s <| s_trap_mask := s_trap_mask p |>);;
  pkcall (fill_sendto_mask rp (s_ipc_to p));;
  modify_priv_of rp (λ s, s <| s_k_call_mask := s_k_call_mask p |>);;
  mret OK.

(** [*priv(rp) = *priv(caller)] and the defaults of a new system process; the copy includes the
    alarm timer with its link. *)
Definition copy_priv (caller rp : Z) : PK unit :=
  i ← gets (λ s, priv_id (pkern s) rp);
  j ← gets (λ s, priv_id (pkern s) caller);
  id ← gets (λ s, s_id (privtab (pkern s) i));
  theirs ← gets (λ s, privtab (pkern s) j);
  pkcall (modify_priv i (λ _, theirs <| s_id := id |> <| s_proc_nr := rp |>));;
  pcall (modify (λ c, c <| ctimers ::= λ t, upd_tmr i (λ _, tmr t j) t |>));;
  modify_priv_of rp (λ s, s <| s_notify_pending := map0 |> <| s_int_pending := 0 |> <| s_sig_pending := 0 |>);;
  pcall (clockcall (reset_timer TIMER_FUEL i));;
  modify_priv_of rp (λ s, s <| s_asyntab := -1 |> <| s_asynsize := 0 |> <| s_flags := DSRV_F |> <| s_trap_mask := DSRV_T |>);;
  pkcall (fill_sendto_mask rp all_bits);;
  modify_priv_of rp (λ s, s <| s_k_call_mask := all_bits |> <| s_sig_mgr := DSRV_SM |> <| s_bak_sig_mgr := NONE |>
    <| s_io_tab := [] |> <| s_mem_tab := [] |> <| s_irq_tab := [] |> <| s_grant_table := 0 |> <| s_grant_entries := 0 |>).

Definition priv_set_sys (caller rp : Z) (m : message) : PK Z :=
  np ← gets (λ s, RTS_ISSET (pkern s) rp RTS_NO_PRIV);
  if negb np then mret EPERM
  else
    e ← gets (λ s, p_endpoint (proctab (pkern s) caller));
    arg ← gets (λ s, if CTL_ARG_PTR m =? 0 then Some None else Some <$> u_priv s e (CTL_ARG_PTR m));
    match arg with
    | None => mret EFAULT
    | Some u =>
        let id := match u with
                  | Some u => if negb (has (s_flags (up_priv u)) DYN_PRIV_ID) then s_id (up_priv u) else NULL_PRIV_ID
                  | None => NULL_PRIV_ID
                  end in
        i ← pkcall (get_priv rp id);
        if negb (i =? OK) then mret i
        else
          copy_priv caller rp;;
          match u with
          | Some u => r ← update_priv rp u; if negb (r =? OK) then mret r else mret OK
          | None => mret OK
          end
    end.

(** SYS_PRIV_ADD_IO, SYS_PRIV_ADD_MEM and SYS_PRIV_ADD_IRQ: a resource is added once, as long as
    the table has room. *)
Definition add_resource {A} `{EqDecision A} (rp flag max : Z) (tab : priv → list A) (set_tab : list A → priv → priv) (x : A) : PK Z :=
  modify_priv_of rp (λ s, s <| s_flags ::= set_flag flag |>);;
  t ← gets (λ s, tab (priv_of (pkern s) rp));
  if bool_decide (x ∈ t) then mret OK
  else if max <=? Z.of_nat (length t) then mret ENOMEM
  else modify_priv_of rp (set_tab (t ++ [x]));; mret OK.

(** [junk_range] and [junk_irq]: what the variables io_range and irq hold when the copy, whose
    result is not tested, fails. *)
Section privctl.
Context (junk_range : Z * Z) (junk_irq : Z).

Definition may_add (rp : Z) : PK bool :=
  s ← gets (λ s, s);
  mret (negb (RTS_ISSET (pkern s) rp RTS_NO_PRIV) && has (s_flags (priv_of (pkern s) rp)) SYS_PROC).

Definition query_mem (s : pstate) (rp addr len : Z) : Z :=
  let limit := u32 (u32 (addr + len) - 1) in
  if limit <? addr then EPERM
  else if bool_decide (p_priv (proctab (pkern s) rp) = None) then EPERM
  else
    let sp := priv_of (pkern s) rp in
    if negb (has (s_flags sp) SYS_PROC) then EPERM
    else if existsb (λ r, (r.1 <=? addr) && (limit <=? r.2)) (s_mem_tab sp) then OK else EPERM.

Definition privctl_request (caller rp : Z) (m : message) : PK Z :=
  let req := CTL_REQUEST m in
  e ← gets (λ s, p_endpoint (proctab (pkern s) caller));
  ready ← gets (λ s, RTS_ISSET (pkern s) rp RTS_NO_PRIV && negb (s_proc_nr (priv_of (pkern s) rp) =? NONE));
  if req =? SYS_PRIV_ALLOW then
    if negb ready then mret EPERM else pkcall (RTS_UNSET rp RTS_NO_PRIV);; mret OK
  else if req =? SYS_PRIV_YIELD then
    if negb ready then mret EPERM
    else pkcall (RTS_SET caller RTS_NO_PRIV);; pkcall (RTS_UNSET rp RTS_NO_PRIV);; mret OK
  else if req =? SYS_PRIV_DISALLOW then
    np ← gets (λ s, RTS_ISSET (pkern s) rp RTS_NO_PRIV);
    if np : bool then mret EPERM else pkcall (RTS_SET rp RTS_NO_PRIV);; mret OK
  else if req =? SYS_PRIV_SET_SYS then priv_set_sys caller rp m
  else if req =? SYS_PRIV_SET_USER then
    np ← gets (λ s, RTS_ISSET (pkern s) rp RTS_NO_PRIV);
    if negb np then mret EPERM
    else pkcall (modify_proc rp (λ p, p <| p_priv := Some USER_PRIV_ID |>));; mret OK
  else if req =? SYS_PRIV_ADD_IO then
    ok ← may_add rp;
    if negb ok then mret EPERM
    else
      x ← gets (λ s, default junk_range (u_range s e (CTL_ARG_PTR m)));
      add_resource rp CHECK_IO_PORT NR_IO_RANGE s_io_tab (λ t s, s <| s_io_tab := t |>) x
  else if req =? SYS_PRIV_ADD_MEM then
    ok ← may_add rp;
    if negb ok then mret EPERM
    else
      x ← gets (λ s, u_range s e (CTL_ARG_PTR m));
      match x with
      | None => mret EFAULT
      | Some x => add_resource rp CHECK_MEM NR_MEM_RANGE s_mem_tab (λ t s, s <| s_mem_tab := t |>) x
      end
  else if req =? SYS_PRIV_ADD_IRQ then
    ok ← may_add rp;
    if negb ok then mret EPERM
    else
      x ← gets (λ s, default junk_irq (u_int s e (CTL_ARG_PTR m)));
      add_resource rp CHECK_IRQ NR_IRQ s_irq_tab (λ t s, s <| s_irq_tab := t |>) x
  else if req =? SYS_PRIV_QUERY_MEM then gets (λ s, query_mem s rp (u32 (CTL_PHYSSTART m)) (u32 (CTL_PHYSLEN m)))
  else if req =? SYS_PRIV_UPDATE_SYS then
    if CTL_ARG_PTR m =? 0 then mret EINVAL
    else
      u ← gets (λ s, u_priv s e (CTL_ARG_PTR m));
      match u with
      | None => mret EFAULT
      | Some u => r ← update_priv rp u; if negb (r =? OK) then mret r else mret OK
      end
  else mret EINVAL.

Definition do_privctl (caller : Z) (m : message) : PK Z :=
  sys ← gets (λ s, has (s_flags (priv_of (pkern s) caller)) SYS_PROC);
  if negb sys then mret EPERM
  else if CTL_ENDPT m =? SELF then
    e ← gets (λ s, p_endpoint (proctab (pkern s) caller));
    rp ← pkcall (okendpt e);
    privctl_request caller rp m
  else
    ok ← gets (λ s, isokendpt (pkern s) (CTL_ENDPT m));
    match ok with
    | None => mret EINVAL
    | Some rp => privctl_request caller rp m
    end.
End privctl.
