(* ===== verification/KPrivThm.v ===== *)
(** * Privilege structures have one owner

    The invariant of privilege structures and that do_privctl keeps it; what a new system
    process inherits; the end of a process. *)
From S2P Require Import Prelude LinkedList Timers Kernel Endpoint Sched IpcInv Notify Async System WorkingSet HMem Irq Fork Dwc Clock ClockThm KPriv.

(** ** The invariant *)

(** A structure other than the one of user processes belongs to the process it names. *)
Record privs_ok (k : kstate) : Prop := {
  po_nr n : valid_slot n → p_nr (proctab k n) = n;
  po_own n i : valid_slot n → slot_free k n = false → p_priv (proctab k n) = Some i → i ≠ USER_PRIV_ID →
    s_proc_nr (privtab k i) = n;
  po_user : s_proc_nr (privtab k USER_PRIV_ID) ≠ NONE;
}.

(** Free structures have no alarm. *)
Definition alarms_owned (s : pstate) (l : list Z) : Prop :=
  alarms_ok (pclk s) l ∧ ∀ tp, tp ∈ l → s_proc_nr (privtab (pkern s) tp) ≠ NONE.

Record priv_inv (s : pstate) : Prop := {
  pv_base : ∃ Q, ipc_base (pkern s) Q;
  pv_alarms : ∃ l, alarms_owned s l;
  pv_privs : privs_ok (pkern s);
}.

(** No two processes have the same structure, apart from user processes. *)
Lemma privs_distinct k n m i :
  privs_ok k → valid_slot n → valid_slot m → slot_free k n = false → slot_free k m = false →
  p_priv (proctab k n) = Some i → p_priv (proctab k m) = Some i → i ≠ USER_PRIV_ID → n = m.
Proof.
  intros HP Hn Hm Fn Fm En Em Hi.
  by rewrite <-(po_own _ HP n i Hn Fn En Hi), <-(po_own _ HP m i Hm Fm Em Hi).
Qed.

(** Kernel steps that leave the ownership of structures alone. *)
Record own_same (k k' : kstate) : Prop := {
  os_nr n : p_nr (proctab k' n) = p_nr (proctab k n);
  os_priv n : p_priv (proctab k' n) = p_priv (proctab k n);
  os_free n : slot_free k' n = slot_free k n;
  os_owner i : s_proc_nr (privtab k' i) = s_proc_nr (privtab k i);
}.
#[export] Instance own_same_preorder : PreOrder own_same.
Proof.
  split; [by split|]. intros k1 k2 k3 [A1 A2 A3 A4] [B1 B2 B3 B4].
  split; intros; [by rewrite B1|by rewrite B2|by rewrite B3|by rewrite B4].
Qed.

Lemma privs_ok_same k k' : own_same k k' → privs_ok k → privs_ok k'.
Proof. intros [A B C D] [P1 P2 P3]. split; intros *; rewrite ?A, ?B, ?C, ?D; auto. Qed.

Lemma priv_inv_kern s k' :
  priv_inv s → own_same (pkern s) k' → (∃ Q, ipc_base k' Q) → priv_inv (s <| pclk ::= λ c, c <| ckern := k' |> |>).
Proof.
  intros [HB (l & Hal & Ho) HP] Hs HB'. split; [done| |by eapply privs_ok_same].
  exists l. split; [exact Hal|]. intros tp Htp. change (pkern (s <| pclk ::= λ c, c <| ckern := k' |> |>)) with k'.
  rewrite (os_owner _ _ Hs). auto.
Qed.

Lemma wp_pcall {A} (m : CK A) (Q : A → pstate → Prop) s :
  wp m (λ a c, Q a (s <| pclk := c |>)) (pclk s) → wp (pcall m) Q s.
Proof. unfold wp, pcall. by destruct (m (pclk s)) as [[a c]|]. Qed.
Lemma wp_pkcall {A} (m : K A) (Q : A → pstate → Prop) s :
  wp m (λ a k, Q a (s <| pclk ::= λ c, c <| ckern := k |> |>)) (pkern s) → wp (pkcall m) Q s.
Proof. intros H. unfold pkcall. by apply wp_pcall, wp_ckcall. Qed.

(** A call of the kernel that leaves ownership alone keeps the invariant. *)
Lemma pkcall_inv {A} (m : K A) s (P : A → kstate → Prop) :
  priv_inv s → wp m (λ a k', own_same (pkern s) k' ∧ (∃ Q, ipc_base k' Q) ∧ P a k') (pkern s) →
  wp (pkcall m) (λ a s', priv_inv s' ∧ P a (pkern s') ∧ own_same (pkern s) (pkern s')) s.
Proof.
  intros HI Hm. apply wp_pkcall. eapply wp_mono; [exact Hm|]. intros a k' (Hs & HB & HPa).
  split; [by apply priv_inv_kern|by split].
Qed.

Lemma own_same_priv k i f : (∀ s, s_proc_nr (f s) = s_proc_nr s) → own_same k (upd_priv i f k).
Proof. intros Hf. split; try done. intros j. rewrite privtab_upd_priv. case_decide; subst; auto. Qed.

Lemma modify_priv_of_inv rp f s :
  priv_inv s → (∀ p, s_proc_nr (f p) = s_proc_nr p) →
  wp (modify_priv_of rp f) (λ _ s', priv_inv s' ∧ own_same (pkern s) (pkern s')) s.
Proof.
  intros HI Hf. unfold modify_priv_of. apply wp_bind, wp_gets. destruct (pv_base _ HI) as [Q HB].
  eapply wp_mono; [apply (pkcall_inv _ s (λ _ _, True) HI)|by intros [] s' (? & _ & ?)].
  unfold modify_priv. apply wp_modify. split; [by apply own_same_priv|]. split; [|done]. exists Q. by apply base_privtab.
Qed.

(** [fill_sendto_mask] changes target masks only. *)
Definition ipc_to_only (k k' : kstate) : Prop :=
  ∃ t, k' = k <| privtab := t |> ∧ ∀ i, t i <| s_ipc_to := map0 |> = privtab k i <| s_ipc_to := map0 |>.
Lemma ipc_to_only_refl k : ipc_to_only k k.
Proof. exists (privtab k). split; [by destruct k|done]. Qed.
Lemma ipc_to_only_upd k k' i f : ipc_to_only k k' → ipc_to_only k (upd_priv i (λ s, s <| s_ipc_to ::= f |>) k').
Proof.
  intros (t & -> & Ht). eexists. split; [reflexivity|]. intros j. cbn. rewrite upd_case. rewrite <-Ht. by case_decide; subst.
Qed.
Lemma modify_ipc_to_only k k' i f (Q : unit → kstate → Prop) :
  ipc_to_only k k' → (∀ k'', ipc_to_only k k'' → Q () k'') → wp (modify_ipc_to i f) Q k'.
Proof. intros H HQ. unfold modify_ipc_to, modify_priv. apply wp_modify, HQ. by apply ipc_to_only_upd. Qed.

Lemma set_sendto_bit_only rp id k k1 : ipc_to_only k k1 → wp (set_sendto_bit rp id) (λ _ k', ipc_to_only k k') k1.
Proof.
  intros H1. unfold set_sendto_bit. wp_steps. case_bool; [by eapply modify_ipc_to_only|].
  apply wp_bind. eapply modify_ipc_to_only; [done|]. intros k2 H2. wp_steps.
  case_bool; [by eapply modify_ipc_to_only|by apply wp_ret].
Qed.
Lemma fill_sendto_mask_only rp map k : wp (fill_sendto_mask rp map) (λ _ k', ipc_to_only k k') k.
Proof.
  unfold fill_sendto_mask. apply (wp_forM_ _ _ (λ _ k', ipc_to_only k k')); [apply ipc_to_only_refl|].
  intros x l k1 H1. case_bool; [by apply set_sendto_bit_only|].
  unfold unset_sendto_bit. wp_steps. eapply modify_ipc_to_only; [done|]. intros k2 H2. by eapply modify_ipc_to_only.
Qed.
Lemma ipc_to_only_own k k' : ipc_to_only k k' → own_same k k'.
Proof.
  intros (t & -> & Ht). split; try done. intros i. specialize (Ht i). apply (f_equal s_proc_nr) in Ht. exact Ht.
Qed.
Lemma fill_sendto_mask_inv rp map s :
  priv_inv s → wp (pkcall (fill_sendto_mask rp map)) (λ _ s', priv_inv s' ∧ own_same (pkern s) (pkern s')) s.
Proof.
  intros HI. destruct (pv_base _ HI) as [Q HB].
  eapply wp_mono; [apply (pkcall_inv _ s (λ _ _, True) HI)|by intros [] s' (? & _ & ?)].
  eapply wp_mono; [apply fill_sendto_mask_only|]. intros [] k' H. split; [by apply ipc_to_only_own|]. split; [|done].
  exists Q. destruct H as (t & -> & _). by apply (base_privtab _ _ (λ _, t)).
Qed.

(** Close a step by a lemma that keeps the invariant, and go on. *)
Ltac inv_step lem :=
  apply wp_bind; eapply wp_mono; [by apply lem|];
  let s' := fresh "s" in let H := fresh "HI" in intros [] s' [H _].

Lemma table_step_inv {A} (b : bool) (t : option (list A)) rp (f : list A → priv → priv) s :
  priv_inv s → (∀ l p, s_proc_nr (f l p) = s_proc_nr p) →
  wp (if b then match t with None => mret false | Some l => modify_priv_of rp (f l);; mret true end else mret true)
    (λ _ s', priv_inv s') s.
Proof.
  intros HI Hf. destruct b; [|by apply wp_ret]. destruct t as [l|]; [|by apply wp_ret].
  inv_step modify_priv_of_inv. by apply wp_ret.
Qed.

Lemma update_priv_inv rp u s : priv_inv s → wp (update_priv rp u) (λ _ s', priv_inv s') s.
Proof.
  intros HI. unfold update_priv. inv_step modify_priv_of_inv.
  apply wp_bind. eapply wp_mono; [by apply table_step_inv|]. intros ok1 s1 H1. destruct ok1; [|by apply wp_ret]. cbn [negb].
  apply wp_bind. eapply wp_mono; [by apply table_step_inv|]. intros ok2 s2 H2. destruct ok2; [|by apply wp_ret]. cbn [negb].
  apply wp_bind. eapply wp_mono; [by apply table_step_inv|]. intros ok3 s3 H3. destruct ok3; [|by apply wp_ret]. cbn [negb].
  inv_step modify_priv_of_inv. inv_step fill_sendto_mask_inv. inv_step modify_priv_of_inv. by apply wp_ret.
Qed.

(** ** A structure for a system process *)

Lemma free_priv_spec k ids i : free_priv k ids = Some i → i ∈ ids ∧ s_proc_nr (privtab k i) = NONE.
Proof.
  induction ids as [|j ids IH]; simpl; [done|]. destruct (Z.eqb_spec (s_proc_nr (privtab k j)) NONE) as [E|E].
  - intros [= <-]. split; [by left|done].
  - intros H. destruct (IH H). split; [by right|done].
Qed.

(** The process has the structure [i], which was free. *)
Definition given (k : kstate) (rp i : Z) : kstate :=
  upd_priv i (λ s, s <| s_proc_nr := rp |>) (upd_proc rp (λ p, p <| p_priv := Some i |>) k).

Lemma assign_priv_spec k rp i :
  p_nr (proctab k rp) = rp → wp (assign_priv rp i) (λ r k', r = OK ∧ k' = given k rp i) k.
Proof.
  intros Hnr. unfold assign_priv, modify_proc, modify_priv. wp_steps. split; [done|].
  rewrite proctab_upd_proc, decide_True by done. cbn [p_nr set settable_proc]. by rewrite Hnr.
Qed.
Lemma get_priv_spec k rp id :
  p_nr (proctab k rp) = rp →
  wp (get_priv rp id) (λ r k', (r ≠ OK ∧ k' = k) ∨ (r = OK ∧ ∃ i, s_proc_nr (privtab k i) = NONE ∧ k' = given k rp i)) k.
Proof.
  intros Hnr.
  assert (∀ i, wp (assign_priv rp i) (λ r k', r = OK ∧ k' = given k rp i) k) as Hassign by (intros; by apply assign_priv_spec).
  unfold get_priv. case_bool.
  - wp_steps. destruct (free_priv k dyn_priv_ids) as [i|] eqn:E; [|wp_steps; by left].
    apply free_priv_spec in E as [_ E]. eapply wp_mono; [apply Hassign|]. intros r k' [-> ->]. right. eauto.
  - case_bool; [wp_steps; by left|]. wp_steps. destruct (Z.eqb_spec (s_proc_nr (privtab k id)) NONE) as [E|E]; cbn [negb].
    + eapply wp_mono; [apply Hassign|]. intros r k' [-> ->]. right. eauto.
    + wp_steps. by left.
Qed.

Lemma ipc_base_link k Q n i : ipc_base k Q → ipc_base (upd_proc n (λ p, p <| p_priv := i |>) k) Q.
Proof.
  intros HB. set (k' := upd_proc n _ k).
  assert (∀ {A} (f : proc → A), (∀ p, f (p <| p_priv := i |>) = f p) → ∀ m, f (proctab k' m) = f (proctab k m)) as Hsame.
  { intros A f Hf m. unfold k'. rewrite proctab_upd_proc. case_decide; [subst; apply Hf|done]. }
  assert (∀ m, rts k' m = rts k m) as Hr by (intros m; by apply (Hsame Z p_rts_flags)).
  assert (ipc_pres k k') as HP.
  { split; unfold sending, receiving, slot_free; try (by intros m; rewrite Hr); [|done]. intros m. by apply (Hsame _ ipcview). }
  eapply ipc_base_step; eauto.
  - split.
    + apply (runq_stable k); [apply HB|..]; try done; intros m; [by apply (Hsame _ p_nextready)|by apply (Hsame _ p_priority)].
    + intros m. rewrite runnable_rts, Hr, <-runnable_rts. apply HB.
  - intros m Hm Hrm%(ip_recv _ _ HP). unfold delivering. rewrite (Hsame _ p_misc_flags) by done. by apply (ib_deliver _ _ HB).
Qed.

Lemma given_inv s rp i :
  priv_inv s → valid_slot rp → s_proc_nr (privtab (pkern s) i) = NONE →
  let s' := s <| pclk ::= λ c, c <| ckern := given (pkern s) rp i |> |> in
  priv_inv s' ∧ p_priv (proctab (pkern s') rp) = Some i ∧ ∃ l, alarms_owned s' l ∧ i ∉ l.
Proof.
  intros [[Q HB] (l & Hal & Ho) HP] Hv Hfree s'. pose proof (po_user _ HP) as Hu.
  assert (i ≠ USER_PRIV_ID) as Hi by congruence.
  assert (∀ j, s_proc_nr (privtab (pkern s') j) = if decide (j = i) then rp else s_proc_nr (privtab (pkern s) j)) as Hown.
  { intros j. unfold s', pkern. cbn [ckern pclk set settable_pstate settable_cstate]. unfold given.
    rewrite privtab_upd_priv. by case_decide. }
  assert (∀ m, proctab (pkern s') m = if decide (m = rp) then proctab (pkern s) rp <| p_priv := Some i |> else proctab (pkern s) m) as Htab.
  { intros m. unfold s', pkern. cbn [ckern pclk set settable_pstate settable_cstate]. unfold given.
    change (proctab (upd_priv ?a ?b ?c)) with (proctab c). apply proctab_upd_proc. }
  assert (rp ≠ NONE) as HrN by (destruct Hv; unfold NONE, NR_PROCS in *; lia).
  assert (alarms_owned s' l) as Hal'.
  { split; [exact Hal|]. intros tp Htp. rewrite Hown. case_decide; [done|]. by apply Ho. }
  split; [|split; [by rewrite Htab, decide_True|exists l; split; [done|intros Hin; by apply (Ho i Hin)]]].
  split; [|by exists l|].
  - exists Q. apply (base_privtab _ _ (λ t, upd t i (t i <| s_proc_nr := rp |>))). by apply ipc_base_link.
  - split; [|intros n j Hn Hf|].
    + intros n Hn. rewrite Htab. case_decide; [subst|]; by apply (po_nr _ HP).
    + rewrite Htab, Hown. unfold slot_free, rts in Hf. rewrite Htab in Hf. case_decide as E.
      * subst n. intros [= <-] _. by rewrite decide_True.
      * intros Hp Hj. rewrite decide_False; [by apply (po_own _ HP)|]. intros ->.
        rewrite (po_own _ HP n i Hn Hf Hp Hj) in Hfree. destruct Hn. unfold NONE, NR_PROCS in *. lia.
    + rewrite Hown. by rewrite decide_False.
Qed.

(** A timer that is not in the queue may hold anything. *)
Lemma alarms_unlinked c l i t : alarms_ok c l → i ∉ l → alarms_ok (c <| ctimers ::= upd_tmr i (λ _, t) |>) l.
Proof.
  intros [[[Hc Hs] Hn] Hr] Hi. simpl in Hc, Hs, Hn.
  assert (∀ y, y ∈ l → tmr (upd_tmr i (λ _, t) (ctimers c)) y = tmr (ctimers c) y) as Hsame.
  { intros y Hy. unfold upd_tmr. simpl. apply upd_ne. by intros ->. }
  split; [|done]. split; [split|]; cbn [clock_timers cclock ctimers next_timeout cnext set settable_cstate].
  - eapply chain_ext; [|exact Hc]. intros y Hy. unfold links. by rewrite Hsame.
  - eapply sorted_ext; [|exact Hs]. intros y Hy. unfold exp_of. by rewrite Hsame.
  - rewrite Hn. unfold timeout_of. change (tmrs (upd_tmr i (λ _, t) (ctimers c))) with (tmrs (ctimers c)).
    rewrite (chain_head _ _ _ Hc). destruct l as [|y l]; [done|]. simpl. f_equal. symmetry. apply Hsame. by left.
Qed.

Lemma reset_timer_owned s l i :
  alarms_owned s l →
  wp (pcall (clockcall (reset_timer TIMER_FUEL i))) (λ _ s', pkern s' = pkern s ∧ alarms_owned s' (remove_timer i l)) s.
Proof.
  intros [Hal Ho]. pose proof (alarms_length _ _ Hal) as Hlen. destruct Hal as [[Hok Hn] Hr]. simpl in Hok.
  apply wp_pcall, wp_clockcall. eapply wp_mono; [apply (reset_timer_but i _ l); [by apply timers_ok_but|done]|].
  intros [] t (Hc & _). split; [done|]. split; [split; [exact Hc|]|]; intros tp Htp; unfold remove_timer in Htp;
    apply list_elem_of_filter in Htp as [_ Htp]; auto.
Qed.

Lemma copy_priv_inv caller rp i s l :
  priv_inv s → p_priv (proctab (pkern s) rp) = Some i → s_proc_nr (privtab (pkern s) i) = rp →
  alarms_owned s l → i ∉ l → wp (copy_priv caller rp) (λ _ s', priv_inv s') s.
Proof.
  intros HI Hp Hnr Hal Hi. unfold copy_priv. apply wp_bind, wp_gets, wp_bind, wp_gets, wp_bind, wp_gets, wp_bind, wp_gets.
  assert (priv_id (pkern s) rp = i) as -> by (unfold priv_id; by rewrite Hp). apply wp_bind.
  set (f := λ _ : priv, _). destruct (pv_base _ HI) as [Q HB].
  assert (own_same (pkern s) (upd_priv i f (pkern s))) as Hs1.
  { split; try done. intros j. rewrite privtab_upd_priv. case_decide; [by subst|done]. }
  apply wp_pkcall. unfold modify_priv. apply wp_modify. set (s1 := s <| pclk ::= _ |>).
  assert (priv_inv s1) as HI1 by (apply priv_inv_kern; [done|done|exists Q; by apply base_privtab]).
  assert (alarms_owned s1 l) as Hal1.
  { destruct Hal as [H1 H2]. split; [exact H1|]. intros tp Htp. change (pkern s1) with (upd_priv i f (pkern s)).
    rewrite (os_owner _ _ Hs1). auto. }
  clearbody s1. apply wp_bind, wp_pcall, wp_modify. set (s2 := s1 <| pclk := _ |>).
  assert (alarms_owned s2 l) as Hal2 by (split; [by apply alarms_unlinked, Hi; destruct Hal1|apply Hal1]).
  assert (priv_inv s2) as HI2 by (split; [apply HI1|by exists l|apply HI1]). clearbody s2.
  apply wp_bind. eapply wp_mono; [by apply modify_priv_of_inv|]. intros [] s3 [HI3 _].
  destruct (pv_alarms _ HI3) as [l3 Hal3]. apply wp_bind. eapply wp_mono; [by apply (reset_timer_owned s3 l3)|].
  intros [] s4 [Hk4 Hal4]. assert (priv_inv s4) as HI4 by (split; rewrite ?Hk4; [apply HI3|by eexists|apply HI3]).
  inv_step modify_priv_of_inv. inv_step fill_sendto_mask_inv.
  eapply wp_mono; [by apply modify_priv_of_inv|]. by intros [] s7 [].
Qed.

Lemma priv_set_sys_inv caller rp m s : priv_inv s → valid_slot rp → wp (priv_set_sys caller rp m) (λ _ s', priv_inv s') s.
Proof.
  intros HI Hv. unfold priv_set_sys. apply wp_bind, wp_gets. case_bool; [by apply wp_ret|].
  apply wp_bind, wp_gets, wp_bind, wp_gets. case_match; [|by apply wp_ret]. apply wp_bind, wp_pkcall.
  eapply wp_mono; [apply get_priv_spec; by apply (po_nr _ (pv_privs _ HI))|].
  intros r k' [[Hr ->]|(-> & i & Hfree & ->)].
  - rewrite (proj2 (Z.eqb_neq r OK)) by done. apply wp_ret.
    destruct (pv_base _ HI). apply priv_inv_kern; [done|reflexivity|by eexists].
  - change (negb (OK =? OK)) with false. cbv iota.
    destruct (given_inv s rp i HI Hv Hfree) as (HI1 & Hp1 & l & Hal1 & Hi). set (s1 := s <| pclk ::= _ |>) in *.
    assert (s_proc_nr (privtab (pkern s1) i) = rp) as Hnr.
    { change (pkern s1) with (given (pkern s) rp i). unfold given. by rewrite privtab_upd_priv, decide_True. }
    clearbody s1. apply wp_bind. eapply wp_mono; [by apply (copy_priv_inv caller rp i s1 l)|]. intros [] s2 HI2.
    destruct o; [|by apply wp_ret]. apply wp_bind. eapply wp_mono; [by apply update_priv_inv|]. intros r s3 HI3.
    case_bool; by apply wp_ret.
Qed.

(** ** Every request *)

Lemma rts_own_same k k' : sched_frame k k' → (∀ n, slot_free k' n = slot_free k n) → own_same k k'.
Proof.
  intros Hf Hfree. split; intros.
  - by apply (sched_frame_field p_nr).
  - by apply (sched_frame_field p_priv).
  - done.
  - by rewrite (sched_frame_state privtab _ _ Hf).
Qed.
Lemma no_priv_set_inv n s :
  priv_inv s → slot_free (pkern s) n = false →
  wp (pkcall (RTS_SET n RTS_NO_PRIV)) (λ _ s', priv_inv s' ∧ own_same (pkern s) (pkern s')) s.
Proof.
  intros HI Hn. destruct (pv_base _ HI) as [Q HB].
  eapply wp_mono; [apply (pkcall_inv _ s (λ _ _, True) HI)|by intros [] s' (? & _ & ?)].
  eapply wp_mono; [by apply (base_RTS_SET _ Q n RTS_NO_PRIV)|]. intros [] k' ([HB' HP] & Hf & _).
  split; [|by split]. apply rts_own_same; [done|]. apply HP.
Qed.
Lemma no_priv_unset_inv n s :
  priv_inv s → valid_slot n → slot_free (pkern s) n = false →
  wp (pkcall (RTS_UNSET n RTS_NO_PRIV)) (λ _ s', priv_inv s' ∧ own_same (pkern s) (pkern s')) s.
Proof.
  intros HI Hv Hn. destruct (pv_base _ HI) as [Q HB].
  eapply wp_mono; [apply (pkcall_inv _ s (λ _ _, True) HI)|by intros [] s' (? & _ & ?)].
  eapply wp_mono; [by apply (base_RTS_UNSET _ Q n RTS_NO_PRIV)|]. intros [] k' ([HB' HP] & Hf & _).
  split; [|by split]. apply rts_own_same; [done|]. apply HP.
Qed.

(** [SYS_PRIV_SET_USER]. *)
Lemma set_user_inv rp s :
  priv_inv s → wp (pkcall (modify_proc rp (λ p, p <| p_priv := Some USER_PRIV_ID |>))) (λ _ s', priv_inv s') s.
Proof.
  intros [[Q HB] (l & Hal & Ho) HP]. apply wp_pkcall. unfold modify_proc. apply wp_modify. set (s' := s <| pclk ::= _ |>).
  assert (∀ m, proctab (pkern s') m = if decide (m = rp) then proctab (pkern s) rp <| p_priv := Some USER_PRIV_ID |> else proctab (pkern s) m) as Htab
    by (intros m; apply proctab_upd_proc).
  split; [exists Q; by apply ipc_base_link|by exists l|]. split; [|intros n j Hn Hf|apply HP].
  - intros n Hn. rewrite Htab. case_decide; [subst|]; by apply (po_nr _ HP).
  - unfold slot_free, rts in Hf. rewrite Htab in Hf |- *. case_decide as E; [intros [= <-] []; done|by apply (po_own _ HP)].
Qed.

Lemma add_resource_inv {A} `{EqDecision A} rp flag max (tab : priv → list A) set_tab x s :
  priv_inv s → (∀ t p, s_proc_nr (set_tab t p) = s_proc_nr p) →
  wp (add_resource rp flag max tab set_tab x) (λ _ s', priv_inv s') s.
Proof.
  intros HI Hf. unfold add_resource. inv_step modify_priv_of_inv. apply wp_bind, wp_gets.
  case_bool; [by apply wp_ret|]. case_bool; [by apply wp_ret|]. inv_step modify_priv_of_inv. by apply wp_ret.
Qed.

Lemma privctl_request_inv jr ji caller rp m s :
  priv_inv s → valid_slot rp → slot_free (pkern s) rp = false → slot_free (pkern s) caller = false →
  wp (privctl_request jr ji caller rp m) (λ _ s', priv_inv s') s.
Proof.
  intros HI Hv Hf Hc. unfold privctl_request. apply wp_bind, wp_gets, wp_bind, wp_gets.
  destruct (_ =? SYS_PRIV_ALLOW).
  { case_bool; [by apply wp_ret|]. inv_step no_priv_unset_inv. by apply wp_ret. }
  destruct (_ =? SYS_PRIV_YIELD).
  { case_bool; [by apply wp_ret|]. apply wp_bind. eapply wp_mono; [by apply no_priv_set_inv|]. intros [] s1 [HI1 Hs1].
    apply wp_bind. eapply wp_mono; [apply no_priv_unset_inv; [done|done|by rewrite (os_free _ _ Hs1)]|].
    intros [] s2 [HI2 _]. by apply wp_ret. }
  destruct (_ =? SYS_PRIV_DISALLOW).
  { apply wp_bind, wp_gets. case_bool; [by apply wp_ret|]. inv_step no_priv_set_inv. by apply wp_ret. }
  destruct (_ =? SYS_PRIV_SET_SYS); [by apply priv_set_sys_inv|].
  destruct (_ =? SYS_PRIV_SET_USER).
  { apply wp_bind, wp_gets. case_bool; [by apply wp_ret|]. apply wp_bind. eapply wp_mono; [by apply set_user_inv|].
    intros [] s1 HI1. by apply wp_ret. }
  destruct (_ =? SYS_PRIV_ADD_IO).
  { unfold may_add. apply wp_bind, wp_bind, wp_gets, wp_ret. case_bool; [by apply wp_ret|]. apply wp_bind, wp_gets.
    by apply add_resource_inv. }
  destruct (_ =? SYS_PRIV_ADD_MEM).
  { unfold may_add. apply wp_bind, wp_bind, wp_gets, wp_ret. case_bool; [by apply wp_ret|]. apply wp_bind, wp_gets.
    case_match; [by apply add_resource_inv|by apply wp_ret]. }
  destruct (_ =? SYS_PRIV_ADD_IRQ).
  { unfold may_add. apply wp_bind, wp_bind, wp_gets, wp_ret. case_bool; [by apply wp_ret|]. apply wp_bind, wp_gets.
    by apply add_resource_inv. }
  destruct (_ =? SYS_PRIV_QUERY_MEM); [by apply wp_gets|]. destruct (_ =? SYS_PRIV_UPDATE_SYS); [|by apply wp_ret].
  destruct (_ =? 0); [by apply wp_ret|]. apply wp_bind, wp_gets. case_match; [|by apply wp_ret].
  apply wp_bind. eapply wp_mono; [by apply update_priv_inv|]. intros r s1 HI1. case_bool; by apply wp_ret.
Qed.

(** C29. Privileges have one owner: whatever a process asks of do_privctl for whatever process,
    with whatever structure in its memory, the call ends without a panic, and afterwards
    still no two processes share a privilege structure (user processes apart), free
    structures have no alarm in the clock's queue (although
    the new structure is a copy of the caller's, the link of its alarm included), the queue is
    in order, and run queues and flags are consistent. *)
Theorem do_privctl_keeps_owners jr ji caller m s :
  priv_inv s → isokendpt (pkern s) (p_endpoint (proctab (pkern s) caller)) = Some caller →
  wp (do_privctl jr ji caller m) (λ _ s', priv_inv s' ∧
    ∀ n n' i, valid_slot n → valid_slot n' → slot_free (pkern s') n = false → slot_free (pkern s') n' = false →
      p_priv (proctab (pkern s') n) = Some i → p_priv (proctab (pkern s') n') = Some i → i ≠ USER_PRIV_ID → n = n') s.
Proof.
  intros HI Hc. destruct (pv_base _ HI) as [Q HB]. pose proof (isokendpt_not_free _ _ HB _ _ Hc) as Hcf.
  eapply (wp_mono _ (λ _ s', priv_inv s')).
  - unfold do_privctl. apply wp_bind, wp_gets. case_bool; [by apply wp_ret|]. case_bool.
    + apply wp_bind, wp_gets, wp_bind, wp_pkcall. unfold okendpt, isokendpt_f. wp_steps. rewrite Hc. wp_steps.
      apply privctl_request_inv; [apply priv_inv_kern; [done|reflexivity|by exists Q]|by apply isokendpt_Some in Hc as [? _]|done|done].
    + apply wp_bind, wp_gets. destruct (isokendpt _ (CTL_ENDPT m)) as [rp|] eqn:E; [|by apply wp_ret].
      apply privctl_request_inv; [done|by apply isokendpt_Some in E as [? _]|by eapply isokendpt_not_free|done].
  - intros r s' HI'. split; [done|]. intros n n' i Hn Hn' Fn Fn' En En' Hi.
    by eapply (privs_distinct _ n n' i (pv_privs _ HI')).
Qed.

(** Process 0 is a system process, 20 was forked and waits for its privileges. *)
Definition priv_kern : kstate :=
  k0 <| proctab := upd (upd (upd proc0
          0 (proc0 0 <| p_rts_flags := RTS_RECEIVING |> <| p_getfrom_e := ANY |> <| p_priv := Some 0 |>))
          20 (proc0 20 <| p_rts_flags := RTS_NO_PRIV |> <| p_priv := Some USER_PRIV_ID |>))
          IDLE_PTR (proc0 IDLE_PTR <| p_rts_flags := RTS_PROC_STOP |>) |>
     <| privtab := upd (upd priv0 0 (priv0 0 <| s_proc_nr := 0 |> <| s_flags := SYS_PROC |> <| s_asyn_pending := set_sys_bit 7 map0 |>))
                     USER_PRIV_ID (priv0 USER_PRIV_ID <| s_proc_nr := 11 |>) |>.
Lemma priv_kern_inv : ipc_inv priv_kern (λ _, []) (λ _, []).
Proof.
  apply (ipc_inv_quiet_slots _ [0; 20; IDLE_PTR]); [done..|].
  intros n Hn. unfold priv_kern. simpl. rewrite !upd_ne by (intros ->; set_solver). done.
Qed.
Definition no_timers : timers := mk_timers (λ _, mk_timer None TMR_NEVER 0 0) None.
Definition priv_demo : pstate :=
  mk_pstate (mk_cstate priv_kern no_timers TMR_NEVER (mk_loadinfo (λ _, 0) 0 0) 0 0 60)
    (λ _ _, None) (λ _ _, None) (λ _ _, None).
Lemma priv_demo_inv : priv_inv priv_demo.
Proof.
  split.
  - exists (λ _, []). apply priv_kern_inv.
  - exists []. split; [|intros tp []%elem_of_nil]. split; [|intros tp []%elem_of_nil]. split; [split; [done|constructor]|done].
  - split; [| |done].
    + intros n _. unfold priv_demo, pkern, priv_kern. cbn. unfold upd. by repeat case_decide; subst.
    + intros n i _. unfold priv_demo, pkern, slot_free, rts, priv_kern. cbn. unfold upd.
      repeat case_decide; subst; cbn; intros Hf; try done; by intros [= <-].
Qed.
Definition set_sys_msg : message := mk_message 0 0 [20; SYS_PRIV_SET_SYS; 0; 0; 0; 0].
Lemma do_privctl_keeps_owners_witness :
  wp (do_privctl (0, 0) 0 0 set_sys_msg) (λ _ s', priv_inv s') priv_demo.
Proof.
  eapply wp_mono.
  - apply (do_privctl_keeps_owners (0, 0) 0 0 set_sys_msg priv_demo priv_demo_inv). vm_compute. reflexivity.
  - intros r s' [H _]. exact H.
Defined.

(** ** What a new system process inherits *)

(** What is pending for the owner of a structure. *)
Definition pview (p : priv) := (s_notify_pending p, s_asyn_pending p, s_int_pending p, s_sig_pending p).
(** Process [rp] has structure [i] with this pending. *)
Definition pending_is (s : pstate) (rp i : Z) v : Prop :=
  p_priv (proctab (pkern s) rp) = Some i ∧ pview (privtab (pkern s) i) = v.

Lemma modify_priv_of_pending rp i v f g s :
  pending_is s rp i v → (∀ p, pview (f p) = g (pview p)) →
  wp (modify_priv_of rp f) (λ _ s', pending_is s' rp i (g v) ∧ ctimers (pclk s') = ctimers (pclk s) ∧
    cnext (pclk s') = cnext (pclk s)) s.
Proof.
  intros [Hp Hv] Hf. unfold modify_priv_of. apply wp_bind, wp_gets, wp_pkcall. unfold modify_priv. apply wp_modify.
  assert (priv_id (pkern s) rp = i) as -> by (unfold priv_id; by rewrite Hp).
  split; [|done]. split; [exact Hp|]. change (pkern (s <| pclk ::= λ c, c <| ckern := ?k |> |>)) with k.
  rewrite privtab_upd_priv, decide_True by done. by rewrite Hf, Hv.
Qed.
Lemma fill_sendto_mask_pending rp i v map s :
  pending_is s rp i v → wp (pkcall (fill_sendto_mask rp map)) (λ _ s', pending_is s' rp i v) s.
Proof.
  intros [Hp Hv]. apply wp_pkcall. eapply wp_mono; [apply fill_sendto_mask_only|]. intros [] k' (t & -> & Ht).
  split; [exact Hp|]. rewrite <-Hv. specialize (Ht i). by apply (f_equal pview) in Ht.
Qed.

Lemma copy_priv_pending caller rp i s l :
  p_priv (proctab (pkern s) rp) = Some i → alarms_owned s l → i ∉ l →
  wp (copy_priv caller rp) (λ _ s', pending_is s' rp i (map0, s_asyn_pending (priv_of (pkern s) caller), 0, 0)) s.
Proof.
  intros Hp Hal Hi. unfold copy_priv. apply wp_bind, wp_gets, wp_bind, wp_gets, wp_bind, wp_gets, wp_bind, wp_gets.
  assert (priv_id (pkern s) rp = i) as -> by (unfold priv_id; by rewrite Hp).
  apply wp_bind, wp_pkcall. unfold modify_priv. apply wp_modify, wp_bind, wp_pcall, wp_modify.
  set (s2 := _ <| pclk := _ |>).
  assert (pending_is s2 rp i (pview (priv_of (pkern s) caller))) as H2.
  { split; [exact Hp|]. unfold s2, pkern. cbn [pclk ckern set settable_pstate settable_cstate].
    rewrite privtab_upd_priv, decide_True by done. done. }
  assert (alarms_ok (pclk s2) l) as Hal2 by (destruct Hal as [H _]; exact (alarms_unlinked (pclk s) l i _ H Hi)).
  clearbody s2. apply wp_bind.
  eapply wp_mono; [apply (modify_priv_of_pending rp i _ _ (λ v, (map0, v.1.1.2, 0, 0)) s2 H2); done|].
  intros [] s3 (H3 & T3 & N3). apply wp_bind.
  eapply (wp_mono _ (λ _ s4, pkern s4 = pkern s3)).
  { apply wp_pcall, wp_clockcall. pose proof (alarms_length _ _ Hal2) as Hlen. destruct Hal2 as [[Hok _] _]. simpl in Hok.
    eapply wp_mono; [apply (reset_timer_but i _ l); [|exact Hlen]|by intros]. simpl. rewrite T3. by apply timers_ok_but. }
  intros [] s4 Hk4. assert (pending_is s4 rp i (map0, s_asyn_pending (priv_of (pkern s) caller), 0, 0)) as H4.
  { unfold pending_is. rewrite Hk4. exact H3. }
  apply wp_bind. eapply wp_mono; [by apply (modify_priv_of_pending rp i _ _ id s4 H4)|]. intros [] s5 [H5 _].
  apply wp_bind. eapply wp_mono; [by apply (fill_sendto_mask_pending rp i)|]. intros [] s6 H6.
  eapply wp_mono; [by apply (modify_priv_of_pending rp i _ _ id s6 H6)|]. by intros [] s7 [? _].
Qed.

(** A flaw.  A process that is made a system process starts with a copy of its maker's
    privileges; pending notifications, interrupts and signals are cleared, but the map of
    pending asynchronous messages is not: the new process starts with those of its maker. *)
Theorem set_sys_inherits_asyn_pending caller rp m s i :
  priv_inv s → valid_slot rp → has (rts (pkern s) rp) RTS_NO_PRIV = true → CTL_ARG_PTR m = 0 → caller ≠ rp →
  priv_id (pkern s) caller ≠ i →
  free_priv (pkern s) dyn_priv_ids = Some i →
  wp (priv_set_sys caller rp m) (λ r s', r = OK ∧
    pending_is s' rp i (map0, s_asyn_pending (priv_of (pkern s) caller), 0, 0)) s.
Proof.
  intros HI Hv Hnp Harg Hne Hi Hfree. unfold priv_set_sys. apply wp_bind, wp_gets.
  assert (RTS_ISSET (pkern s) rp RTS_NO_PRIV = true) as ->.
  { etrans; [exact (isset_has_bit (rts (pkern s) rp) 7 ltac:(lia))|exact Hnp]. }
  cbn [negb]. apply wp_bind, wp_gets, wp_bind, wp_gets. rewrite Harg, Z.eqb_refl. apply wp_bind, wp_pkcall.
  assert (s_proc_nr (privtab (pkern s) i) = NONE) as Hnone by by apply free_priv_spec in Hfree as [_ ?].
  assert (wp (get_priv rp NULL_PRIV_ID) (λ r k', r = OK ∧ k' = given (pkern s) rp i) (pkern s)) as Hget.
  { unfold get_priv. change (NULL_PRIV_ID =? NULL_PRIV_ID) with true. cbv iota. apply wp_bind, wp_gets. rewrite Hfree.
    apply assign_priv_spec. by apply (po_nr _ (pv_privs _ HI)). }
  eapply wp_mono; [exact Hget|]. intros r k1 [-> ->]. change (negb (OK =? OK)) with false. cbv iota.
  destruct (given_inv s rp i HI Hv Hnone) as (HI1 & Hp1 & l & Hal1 & Hil). set (s1 := s <| pclk ::= _ |>) in *.
  assert (s_asyn_pending (priv_of (pkern s1) caller) = s_asyn_pending (priv_of (pkern s) caller)) as Hasyn.
  { unfold priv_of, priv_id. change (pkern s1) with (given (pkern s) rp i). unfold given. rewrite privtab_upd_priv.
    change (proctab (upd_priv ?a ?b ?c)) with (proctab c). rewrite proctab_upd_proc, (decide_False (P:=caller = rp)) by done.
    change (privtab (upd_proc ?a ?b ?c)) with (privtab c). case_decide as E; [by subst|done]. }
  rewrite <-Hasyn. clearbody s1. apply wp_bind. eapply wp_mono; [by apply (copy_priv_pending caller rp i s1 l)|].
  intros [] s2 H2. by apply wp_ret.
Qed.
Lemma set_sys_inherits_asyn_pending_witness :
  wp (priv_set_sys 0 20 set_sys_msg) (λ r s', r = OK ∧ pending_is s' 20 17 (map0, set_sys_bit 7 map0, 0, 0)) priv_demo.
Proof.
  apply (set_sys_inherits_asyn_pending 0 20 set_sys_msg priv_demo 17 priv_demo_inv); [vm_compute; split; congruence|vm_compute; reflexivity|vm_compute; reflexivity|lia|vm_compute; congruence|vm_compute; reflexivity].
Defined.
