(* ===== verification/KUpdate.v ===== *)
(** * Live update (do_update.c)

    A new version of a system process takes the place of the old one: the two process slots
    are exchanged, apart from what other processes know a slot by.  The reincarnation server
    undoes an update by asking for it again. *)
From S2P Require Import Prelude LinkedList Timers Kernel Endpoint Sched IpcInv Notify System Fork Clock ClockThm KPriv KPrivThm.

Definition SYS_UPD_SRC_ENDPT : message → Z := m_word 0.
Definition SYS_UPD_DST_ENDPT : message → Z := m_word 1.

Definition proc_is_updatable (k : kstate) (p : Z) : bool :=
  RTS_ISSET k p RTS_NO_PRIV || RTS_ISSET k p RTS_SIG_PENDING ||
  (RTS_ISSET k p RTS_RECEIVING && negb (RTS_ISSET k p RTS_SENDING)).

(** One step of "let destination inherit the target mask from source". *)
Definition inherit_bit (src dst i : Z) : K unit :=
  b ← gets (λ k, get_sys_bit (s_ipc_to (priv_of k src)) i);
  if b : bool then set_sendto_bit dst i else mret ().

Definition set_proc (n : Z) (p : proc) : CK unit := ckcall (modify_proc n (λ _, p)).
(** A privilege structure with its alarm timer. *)
Definition set_priv (i : Z) (s : priv) (t : timer) : CK unit :=
  ckcall (modify_priv i (λ _, s));;
  modify (λ c, c <| ctimers ::= upd_tmr i (λ _, t) |>).

Definition adjust_proc_slot (rp : Z) (from_rp : proc) : CK unit :=
  ckcall (modify_proc rp (λ p, p <| p_endpoint := p_endpoint from_rp |> <| p_nr := p_nr from_rp |> <| p_priv := p_priv from_rp |>));;
  i ← gets (λ c, priv_id (ckern c) rp);
  ckcall (modify_priv i (λ s, s <| s_proc_nr := p_nr from_rp |>));;
  ckcall (modify_proc rp (λ p, p <| p_caller_q := p_caller_q from_rp |> <| p_scheduler := p_scheduler from_rp |>)).

Definition adjust_priv_slot (privp : Z) (from_privp : priv) (from_timer : timer) : CK unit :=
  ckcall (modify_priv privp (λ s, s <| s_id := s_id from_privp |> <| s_notify_pending := s_notify_pending from_privp |>
    <| s_int_pending := s_int_pending from_privp |> <| s_sig_pending := s_sig_pending from_privp |>));;
  modify (λ c, c <| ctimers ::= upd_tmr privp (λ _, from_timer) |>).

Definition swap_proc_slot_pointer (src dst p : Z) : Z := if p =? src then dst else if p =? dst then src else p.

(** The tables of user memory are by process; what a process sees goes with its [p_cr3]. *)
Definition swap2 {A} (a b : Z) (t : Z → A) : Z → A := λ n, t (swap_proc_slot_pointer a b n).
Definition swap_memory (src dst : Z) (k : kstate) : kstate :=
  k <| umsg ::= swap2 src dst |> <| uasyn ::= swap2 src dst |> <| ugrant ::= swap2 src dst |>
    <| uvscp ::= swap2 src dst |> <| uwr ::= swap2 src dst |>.

Definition swap_slots (src dst src_privp dst_privp : Z) : CK unit :=
  c ← gets (λ c, c);
  let orig_src_proc := proctab (ckern c) src in
  let orig_src_priv := priv_of (ckern c) src in
  let orig_src_timer := tmr (ctimers c) (priv_id (ckern c) src) in
  let orig_dst_proc := proctab (ckern c) dst in
  let orig_dst_priv := priv_of (ckern c) dst in
  let orig_dst_timer := tmr (ctimers c) (priv_id (ckern c) dst) in
  set_proc src orig_dst_proc;;
  set_priv src_privp orig_dst_priv orig_dst_timer;;
  set_proc dst orig_src_proc;;
  set_priv dst_privp orig_src_priv orig_src_timer;;
  ckcall (modify (swap_memory src dst));;
  adjust_proc_slot src orig_src_proc;;
  adjust_proc_slot dst orig_dst_proc;;
  i ← gets (λ c, priv_id (ckern c) src);
  adjust_priv_slot i orig_src_priv orig_src_timer;;
  j ← gets (λ c, priv_id (ckern c) dst);
  adjust_priv_slot j orig_dst_priv orig_dst_timer;;
  ckcall (modify (λ k, k <| ptproc ::= swap_proc_slot_pointer src dst |>)).

(** The slots of the source and the destination, if both are system processes. *)
Definition update_slot (e : Z) : CK (Z + Z) :=
  c ← gets (λ c, c);
  match isokendpt (ckern c) e with
  | None => mret (inl EINVAL)
  | Some p => if has (s_flags (priv_of (ckern c) p)) SYS_PROC then mret (inr p) else mret (inl EPERM)
  end.

Definition do_update (m : message) : CK Z :=
  src ← update_slot (SYS_UPD_SRC_ENDPT m);
  match src with
  | inl e => mret e
  | inr src =>
      dst ← update_slot (SYS_UPD_DST_ENDPT m);
      match dst with
      | inl e => mret e
      | inr dst =>
          ckcall (assert_ (λ k, negb (proc_is_runnable k src) && negb (proc_is_runnable k dst)) "do_update: runnable");;
          ok ← gets (λ c, proc_is_updatable (ckern c) src && proc_is_updatable (ckern c) dst);
          if negb ok then mret EBUSY
          else
            src_privp ← gets (λ c, priv_id (ckern c) src);
            dst_privp ← gets (λ c, priv_id (ckern c) dst);
            ckcall (forM_ (seqZ 0 NR_SYS_PROCS) (inherit_bit src dst));;
            swap_slots src dst src_privp dst_privp;;
            mret OK
      end
  end.

(** ** What an update does *)

(** [p] in the slot of [from]: what other processes know the slot by stays. *)
Definition take_place (p from : proc) : proc :=
  p <| p_endpoint := p_endpoint from |> <| p_nr := p_nr from |> <| p_priv := p_priv from |>
    <| p_caller_q := p_caller_q from |> <| p_scheduler := p_scheduler from |>.
Definition take_privs (s from : priv) (nr : Z) : priv :=
  s <| s_proc_nr := nr |> <| s_id := s_id from |> <| s_notify_pending := s_notify_pending from |>
    <| s_int_pending := s_int_pending from |> <| s_sig_pending := s_sig_pending from |>.

(** The slots [src] and [dst], with the structures [i] and [j], are exchanged between [c] and [c']. *)
Record exchanged (c c' : cstate) (src dst i j : Z) : Prop := {
  ex_src : proctab (ckern c') src = take_place (proctab (ckern c) dst) (proctab (ckern c) src);
  ex_dst : proctab (ckern c') dst = take_place (proctab (ckern c) src) (proctab (ckern c) dst);
  ex_proc n : n ≠ src → n ≠ dst → proctab (ckern c') n = proctab (ckern c) n;
  ex_isrc : privtab (ckern c') i = take_privs (privtab (ckern c) j) (privtab (ckern c) i) (p_nr (proctab (ckern c) src));
  ex_jdst : privtab (ckern c') j = take_privs (privtab (ckern c) i) (privtab (ckern c) j) (p_nr (proctab (ckern c) dst));
  ex_priv x : x ≠ i → x ≠ j → privtab (ckern c') x = privtab (ckern c) x;
  ex_tmr x : tmr (ctimers c') x = tmr (ctimers c) x;
  ex_clock : c = c' <| ckern := ckern c |> <| ctimers ::= λ t, t <| tmr := tmr (ctimers c) |> |>;
  ex_kern : ckern c' = swap_memory src dst (ckern c) <| ptproc ::= swap_proc_slot_pointer src dst |>
                         <| proctab := proctab (ckern c') |> <| privtab := privtab (ckern c') |>;
}.

(** The clock state with a kernel and a timer queue: updates of the two stay apart. *)
Definition at_ (c : cstate) (k : kstate) (t : timers) : cstate := c <| ckern := k |> <| ctimers := t |>.
Lemma at_kern c k t f (Q : unit → cstate → Prop) : Q () (at_ c (f k) t) → wp (ckcall (modify f)) Q (at_ c k t).
Proof. done. Qed.
Lemma at_timers c k t f (Q : unit → cstate → Prop) :
  Q () (at_ c k (f t)) → wp (modify (λ c, c <| ctimers ::= f |>)) Q (at_ c k t).
Proof. done. Qed.

Lemma at_back c k t :
  tmrs t = tmrs (ctimers c) → c = at_ c k t <| ckern := ckern c |> <| ctimers ::= λ t, t <| tmr := tmr (ctimers c) |> |>.
Proof. destruct c as [k0 [] ? ? ? ?], t. unfold at_. cbn. by intros ->. Qed.
Lemma ckern_at c k t : ckern (at_ c k t) = k.
Proof. done. Qed.
Lemma proctab_upd_priv i f k : proctab (upd_priv i f k) = proctab k.
Proof. done. Qed.
Lemma privtab_upd_proc n f k : privtab (upd_proc n f k) = privtab k.
Proof. done. Qed.
Lemma proctab_swap_memory a b k : proctab (swap_memory a b k) = proctab k.
Proof. done. Qed.
Lemma privtab_swap_memory a b k : privtab (swap_memory a b k) = privtab k.
Proof. done. Qed.

Lemma proctab_ptproc f k : proctab (k <| ptproc ::= f |>) = proctab k.
Proof. done. Qed.
Lemma privtab_ptproc f k : privtab (k <| ptproc ::= f |>) = privtab k.
Proof. done. Qed.

Lemma adjust_proc_slot_run rp from i c k t (Q : unit → cstate → Prop) :
  p_priv from = Some i →
  Q () (at_ c (upd_proc rp (λ p, p <| p_caller_q := p_caller_q from |> <| p_scheduler := p_scheduler from |>)
      (upd_priv i (λ s, s <| s_proc_nr := p_nr from |>)
        (upd_proc rp (λ p, p <| p_endpoint := p_endpoint from |> <| p_nr := p_nr from |> <| p_priv := p_priv from |>) k))) t) →
  wp (adjust_proc_slot rp from) Q (at_ c k t).
Proof.
  intros Hi HQ. unfold adjust_proc_slot, modify_proc, modify_priv. apply wp_bind, at_kern, wp_bind, wp_gets.
  rewrite ckern_at.
  assert (priv_id (upd_proc rp (λ p, p <| p_endpoint := p_endpoint from |> <| p_nr := p_nr from |> <| p_priv := p_priv from |>) k) rp = i) as ->.
  { unfold priv_id. by rewrite proctab_upd_proc, decide_True, Hi by done. }
  by apply wp_bind, at_kern, at_kern.
Qed.

Section swap.
Context (c : cstate) (src dst i j : Z) (Hne : src ≠ dst) (Hij : i ≠ j)
  (Hi : p_priv (proctab (ckern c) src) = Some i) (Hj : p_priv (proctab (ckern c) dst) = Some j).
Let k := ckern c.

(** The tables after the exchange, as the code writes them. *)
Definition swapped_kern : kstate :=
  let osp := proctab k src in
  let odp := proctab k dst in
  let fix_proc rp from i k :=
    upd_proc rp (λ p, p <| p_caller_q := p_caller_q from |> <| p_scheduler := p_scheduler from |>)
      (upd_priv i (λ s, s <| s_proc_nr := p_nr from |>)
        (upd_proc rp (λ p, p <| p_endpoint := p_endpoint from |> <| p_nr := p_nr from |> <| p_priv := p_priv from |>) k)) in
  let k1 := upd_priv j (λ _, privtab k i) (upd_proc dst (λ _, osp) (upd_priv i (λ _, privtab k j) (upd_proc src (λ _, odp) k))) in
  let k2 := fix_proc dst odp j (fix_proc src osp i (swap_memory src dst k1)) in
  let fix_priv i from := upd_priv i (λ s, s <| s_id := s_id from |> <| s_notify_pending := s_notify_pending from |>
    <| s_int_pending := s_int_pending from |> <| s_sig_pending := s_sig_pending from |>) in
  fix_priv j (privtab k j) (fix_priv i (privtab k i) k2) <| ptproc ::= swap_proc_slot_pointer src dst |>.
Definition swapped_timers : timers :=
  upd_tmr j (λ _, tmr (ctimers c) j) (upd_tmr i (λ _, tmr (ctimers c) i)
    (upd_tmr j (λ _, tmr (ctimers c) i) (upd_tmr i (λ _, tmr (ctimers c) j) (ctimers c)))).

Lemma swap_slots_run : wp (swap_slots src dst i j) (λ _ c', c' = at_ c swapped_kern swapped_timers) c.
Proof using Hne Hij Hi Hj.
  assert (priv_id k src = i) as Esrc by (unfold priv_id; subst k; by rewrite Hi).
  assert (priv_id k dst = j) as Edst by (unfold priv_id; subst k; by rewrite Hj).
  unfold swap_slots, set_proc, set_priv, modify_proc, modify_priv. apply wp_bind, wp_gets. fold k. unfold priv_of. rewrite Esrc, Edst.
  assert (c = at_ c k (ctimers c)) as Ec by by destruct c. refine (eq_ind_r (λ x, wp _ _ x) _ Ec). clear Ec.
  apply wp_bind, at_kern, wp_bind, wp_bind, at_kern, at_timers, wp_bind, at_kern, wp_bind, wp_bind, at_kern, at_timers, wp_bind, at_kern.
  apply wp_bind, (adjust_proc_slot_run src _ i); [done|]. apply wp_bind, (adjust_proc_slot_run dst _ j); [done|].
  apply wp_bind, wp_gets. rewrite ckern_at.
  match goal with |- context [priv_id ?k' src] => assert (priv_id k' src = i) as -> end.
  { unfold priv_id. do 2 rewrite ?proctab_upd_priv, proctab_upd_proc, decide_False by done.
    do 2 rewrite ?proctab_upd_priv, proctab_upd_proc, decide_True by done.
    cbn [p_priv set settable_proc]. by rewrite (Hi : p_priv (proctab k src) = Some i). }
  unfold adjust_priv_slot, modify_priv. apply wp_bind, wp_bind, at_kern, at_timers, wp_bind, wp_gets. rewrite ckern_at.
  match goal with |- context [priv_id ?k' dst] => assert (priv_id k' dst = j) as -> end.
  { unfold priv_id. do 2 rewrite ?proctab_upd_priv, proctab_upd_proc, decide_True by done.
    cbn [p_priv set settable_proc]. by rewrite (Hj : p_priv (proctab k dst) = Some j). }
  apply wp_bind, wp_bind, at_kern, at_timers, at_kern. done.
Qed.

Lemma swapped_proctab n :
  proctab swapped_kern n = if decide (n = src) then take_place (proctab k dst) (proctab k src)
    else if decide (n = dst) then take_place (proctab k src) (proctab k dst) else proctab k n.
Proof using Hne.
  unfold swapped_kern. cbv zeta. rewrite proctab_ptproc.
  rewrite !proctab_upd_priv. case_decide as Hs; [subst n|case_decide as Hd; [subst n|]].
  - do 2 rewrite proctab_upd_proc, decide_False, ?proctab_upd_priv by done.
    do 2 rewrite proctab_upd_proc, decide_True, ?proctab_upd_priv by done.
    rewrite proctab_swap_memory, proctab_upd_priv, proctab_upd_proc, decide_False, proctab_upd_priv by done.
    by rewrite proctab_upd_proc, decide_True by done.
  - do 2 rewrite proctab_upd_proc, decide_True, ?proctab_upd_priv by done.
    do 2 rewrite proctab_upd_proc, decide_False, ?proctab_upd_priv by done.
    rewrite proctab_swap_memory, proctab_upd_priv. by rewrite proctab_upd_proc, decide_True by done.
  - do 4 rewrite proctab_upd_proc, decide_False, ?proctab_upd_priv by done. rewrite proctab_swap_memory, proctab_upd_priv.
    by do 2 rewrite proctab_upd_proc, decide_False, ?proctab_upd_priv by done.
Qed.
Lemma swapped_privtab x :
  privtab swapped_kern x = if decide (x = i) then take_privs (privtab k j) (privtab k i) (p_nr (proctab k src))
    else if decide (x = j) then take_privs (privtab k i) (privtab k j) (p_nr (proctab k dst)) else privtab k x.
Proof using Hij.
  unfold swapped_kern. cbv zeta. rewrite privtab_ptproc.
  case_decide as Hs; [subst x|case_decide as Hd; [subst x|]];
    repeat (rewrite privtab_upd_priv; first [rewrite (decide_False (P:=i = j)) by done|rewrite (decide_False (P:=j = i)) by done
      |rewrite decide_False by done|rewrite decide_True by done]; rewrite ?privtab_upd_proc, ?privtab_swap_memory); done.
Qed.

Lemma swap_slots_spec : wp (swap_slots src dst i j) (λ _ c', exchanged c c' src dst i j) c.
Proof using Hne Hij Hi Hj.
  eapply wp_mono; [apply swap_slots_run|]. intros [] c' ->. split; rewrite ?ckern_at.
  - by rewrite swapped_proctab, decide_True.
  - by rewrite swapped_proctab, decide_False, decide_True.
  - intros n Hs Hd. by rewrite swapped_proctab, !decide_False.
  - by rewrite swapped_privtab, decide_True.
  - by rewrite swapped_privtab, decide_False, decide_True.
  - intros x Hs Hd. by rewrite swapped_privtab, !decide_False.
  - intros x. unfold at_, swapped_timers, upd_tmr. cbn. rewrite !upd_case. by repeat case_decide; subst.
  - by apply at_back.
  - unfold swapped_kern. cbv zeta. by destruct (ckern c).
Qed.
End swap.

(** ** Message passing goes on *)

(** [n] is stopped, does not send and, if it receives, waits for nobody in particular. *)
Record at_rest (k : kstate) (n : Z) : Prop := {
  ar_stop : proc_is_runnable k n = false;
  ar_send : sending k n = false;
  ar_any : receiving k n = true → p_getfrom_e (proctab k n) = ANY;
}.

Lemma swap_pointer_src a b : swap_proc_slot_pointer a b a = b.
Proof. unfold swap_proc_slot_pointer. by rewrite Z.eqb_refl. Qed.
Lemma swap_pointer_dst a b : swap_proc_slot_pointer a b b = a.
Proof. unfold swap_proc_slot_pointer. rewrite Z.eqb_refl. destruct (Z.eqb_spec b a); by subst. Qed.
Lemma swap_pointer_other a b n : n ≠ a → n ≠ b → swap_proc_slot_pointer a b n = n.
Proof. intros. unfold swap_proc_slot_pointer. by do 2 rewrite (proj2 (Z.eqb_neq _ _)) by done. Qed.
Lemma swap_pointer_twice a b n : swap_proc_slot_pointer a b (swap_proc_slot_pointer a b n) = n.
Proof.
  destruct (decide (n = a)) as [->|]; [by rewrite swap_pointer_src, swap_pointer_dst|].
  destruct (decide (n = b)) as [->|]; [by rewrite swap_pointer_dst, swap_pointer_src|]. by do 2 rewrite (swap_pointer_other a b n) by done.
Qed.
(** A fact about both slots and all others holds of every exchanged slot. *)
Lemma swap_pointer_all (P : Z → Z → Prop) a b n :
  P a b → P b a → (n ≠ a → n ≠ b → P n n) → P n (swap_proc_slot_pointer a b n).
Proof.
  intros Ha Hb Hn. destruct (decide (n = a)) as [->|]; [by rewrite swap_pointer_src|].
  destruct (decide (n = b)) as [->|]; [by rewrite swap_pointer_dst|]. rewrite swap_pointer_other; auto.
Qed.

Lemma take_place_self p : take_place p p = p.
Proof. by destruct p. Qed.
Lemma take_privs_self s : take_privs s s (s_proc_nr s) = s.
Proof. by destruct s. Qed.

Lemma exchanged_proctab c c' src dst i j n :
  exchanged c c' src dst i j →
  proctab (ckern c') n = take_place (proctab (ckern c) (swap_proc_slot_pointer src dst n)) (proctab (ckern c) n).
Proof.
  intros HE. apply (swap_pointer_all (λ n m, proctab (ckern c') n = take_place (proctab (ckern c) m) (proctab (ckern c) n))).
  - apply HE.
  - apply HE.
  - intros H1 H2. rewrite take_place_self. by apply (ex_proc _ _ _ _ _ _ HE).
Qed.

Section exchange_inv.
Context (k k' : kstate) (src dst : Z).
Local Notation σ := (swap_proc_slot_pointer src dst).
Context (Hp : ∀ n, proctab k' n = take_place (proctab k (σ n)) (proctab k n))
  (Hh : run_q_head k' = run_q_head k) (Ht : run_q_tail k' = run_q_tail k) (Hptr : proc_ptr k' = proc_ptr k)
  (Vs : valid_slot src) (Vd : valid_slot dst) (Rs : at_rest k src) (Rd : at_rest k dst)
  (Fs : slot_free k src = false) (Fd : slot_free k dst = false).

Lemma ex_rts n : rts k' n = rts k (σ n).
Proof using Hp. unfold rts. by rewrite Hp. Qed.
Lemma ex_sending n : sending k' n = sending k n.
Proof using Hp Rs Rd.
  unfold sending. rewrite ex_rts. fold (sending k (σ n)) (sending k n).
  apply (swap_pointer_all (λ n m, sending k m = sending k n)); [|by destruct Rs as [_ -> _], Rd|done].
  by destruct Rs as [_ -> _], Rd as [_ -> _].
Qed.
Lemma ex_free n : slot_free k' n = slot_free k n.
Proof using Hp Fs Fd.
  unfold slot_free. rewrite ex_rts. fold (slot_free k (σ n)) (slot_free k n).
  apply (swap_pointer_all (λ n m, slot_free k m = slot_free k n)); congruence.
Qed.
Lemma ex_valid n : valid_slot n → valid_slot (σ n).
Proof using Vs Vd. apply (swap_pointer_all (λ n m, valid_slot n → valid_slot m)); auto. Qed.
Lemma ex_runnable n : proc_is_runnable k' n = proc_is_runnable k n.
Proof using Hp Rs Rd.
  rewrite !runnable_rts, ex_rts, <-!runnable_rts.
  apply (swap_pointer_all (λ n m, proc_is_runnable k m = proc_is_runnable k n)); [| |done]; by destruct Rs as [-> _ _], Rd as [-> _ _].
Qed.
Lemma ex_kept n : n ≠ src → n ≠ dst → proctab k' n = proctab k n.
Proof using Hp. intros H1 H2. by rewrite Hp, swap_pointer_other, take_place_self. Qed.
Lemma ex_sched Q : sched_rel k Q → sched_rel k' Q.
Proof using Hp Hh Ht Rs Rd.
  intros [[Hc Htl Hpr] Hrun].
  assert (∀ q n, in_range q → n ∈ Q q → n ≠ src ∧ n ≠ dst) as Hout.
  { intros q n Hq Hn. assert (proc_is_runnable k n = true) as Hr by (apply Hrun; eauto).
    split; intros ->; [destruct Rs|destruct Rd]; congruence. }
  split; [split|].
  - intros q Hq. rewrite Hh. eapply chain_ext; [|by apply Hc]. intros n Hn. destruct (Hout q n Hq Hn). unfold nextready. by rewrite ex_kept.
  - intros q Hq. rewrite Ht. auto.
  - intros q n Hq Hn. destruct (Hout q n Hq Hn). rewrite ex_kept by done. auto.
  - intros n. rewrite ex_runnable. apply Hrun.
Qed.
Lemma ex_base Q : ipc_base k Q → ipc_base k' Q.
Proof using Hp Hh Ht Hptr Vs Vd Rs Rd Fs Fd.
  intros [HS Hpr He Hd Hf Hpt]. split.
  - by apply ex_sched.
  - intros n Hn. rewrite Hp. by apply Hpr, ex_valid.
  - intros n Hn. rewrite Hp. by apply He.
  - intros n Hn. unfold receiving, delivering. rewrite ex_rts, Hp. by apply Hd, ex_valid.
  - intros n Hn. rewrite ex_free, ex_rts. intros F.
    apply (swap_pointer_all (λ n m, slot_free k n = true → valid_slot n → rts k m = RTS_SLOT_FREE)); [congruence..| |done|done]. auto.
  - by rewrite Hptr, ex_free.
Qed.
Lemma ex_isok e p : isokendpt k e = Some p → isokendpt k' e = Some p.
Proof using Hp Fs Fd.
  apply isokendpt_stable; [intros n; by rewrite Hp|]. unfold isemptyp. fold (rts k p) (rts k' p). rewrite ex_rts.
  apply (swap_pointer_all (λ p m, (rts k p =? RTS_SLOT_FREE) = false → (rts k m =? RTS_SLOT_FREE) = false)); [| |done]; intros _;
    apply Z.eqb_neq; intros E; [unfold slot_free in Fd; rewrite E in Fd|unfold slot_free in Fs; rewrite E in Fs]; done.
Qed.

Lemma ex_receiving n : receiving k' n = receiving k (σ n).
Proof using Hp. unfold receiving. by rewrite ex_rts. Qed.
Lemma ex_sender n : sending k n = true → proctab k' n = proctab k n.
Proof using Hp Rs Rd. intros Hs. apply ex_kept; intros ->; [destruct Rs|destruct Rd]; congruence. Qed.
Lemma ex_wait n : wait_next k' n = wait_next k n ∨ wait_next k' n = None.
Proof using Hp Rs Rd.
  destruct (decide (n = src ∨ n = dst)) as [Hn|Hn].
  - right. assert (at_rest k (σ n)) as [_ _ Ha] by (destruct Hn as [-> | ->]; rewrite ?swap_pointer_src, ?swap_pointer_dst; done).
    unfold wait_next. rewrite P_BLOCKEDON_eq, ex_sending, ex_receiving.
    assert (sending k n = false) as -> by (destruct Hn as [-> | ->]; [apply Rs|apply Rd]).
    destruct (receiving k (σ n)); [|done]. rewrite Hp. cbn [p_getfrom_e take_place set settable_proc]. by rewrite (Ha eq_refl).
  - left. unfold wait_next. rewrite !P_BLOCKEDON_eq, ex_sending, ex_receiving, ex_kept by naive_solver.
    by rewrite swap_pointer_other by naive_solver.
Qed.
Lemma ex_inv Q C : ipc_inv k Q C → ipc_inv k' Q C.
Proof using Hp Hh Ht Hptr Vs Vd Rs Rd Fs Fd.
  intros HI. assert (∀ n, valid_slot n → q_link k' n = q_link k n) as Hlink.
  { intros n Hn. unfold q_link. rewrite Hp. cbn [p_q_link take_place set settable_proc]. fold (q_link k (σ n)) (q_link k n).
    destruct (decide (n = src ∨ n = dst)) as [E|E]; [|by rewrite swap_pointer_other by naive_solver].
    assert (sending k n = false ∧ sending k (σ n) = false) as [S1 S2].
    { destruct E as [-> | ->]; rewrite ?swap_pointer_src, ?swap_pointer_dst; split; apply Rs || apply Rd. }
    by rewrite !(ii_link _ _ _ HI) by auto using ex_valid. }
  split.
  - apply ex_base, HI.
  - intros d Hd. rewrite Hp. cbn [p_caller_q take_place set settable_proc]. eapply chain_ext; [|by apply (ii_callers _ _ _ HI)].
    intros n (Hn & _)%(ii_queued _ _ _ HI); [|done]. by rewrite Hlink.
  - intros d n Hd. rewrite (ii_queued _ _ _ HI), ex_sending by done. split; intros (Hn & Hs & He); rewrite ?ex_sender in * by done; done.
  - intros n Hn. rewrite ex_sending, Hlink by done. by apply (ii_link _ _ _ HI).
  - intros n Hn. rewrite ex_sending. intros Hs. rewrite ex_sender by done. by apply ex_isok, (ii_sendto _ _ _ HI).
  - intros n Hn. rewrite ex_receiving, Hp. intros Hr. cbn [p_getfrom_e take_place set settable_proc].
    destruct (ii_getfrom _ _ _ HI (σ n) (ex_valid n Hn) Hr); [by left|right]. by apply ex_isok.
  - intros n Hn. rewrite ex_sending. intros Hs. rewrite ex_receiving, ex_sender by done.
    rewrite swap_pointer_other; [by apply (ii_sendrec _ _ _ HI)|..]; intros ->; [destruct Rs|destruct Rd]; congruence.
  - apply (no_deadlock_shrink k); [apply ex_wait|apply HI].
Qed.
End exchange_inv.

(** ** The call *)

(** The message [m] names two stopped system processes that can be updated. *)
Record update_ready (k : kstate) (m : message) (src dst i j : Z) : Prop := {
  ur_src : isokendpt k (SYS_UPD_SRC_ENDPT m) = Some src;
  ur_dst : isokendpt k (SYS_UPD_DST_ENDPT m) = Some dst;
  ur_ne : src ≠ dst;
  ur_i : p_priv (proctab k src) = Some i;
  ur_j : p_priv (proctab k dst) = Some j;
  ur_isys : has (s_flags (privtab k i)) SYS_PROC = true;
  ur_jsys : has (s_flags (privtab k j)) SYS_PROC = true;
  ur_own : i ≠ j;
  ur_stopped : proc_is_runnable k src = false ∧ proc_is_runnable k dst = false;
  ur_updatable : proc_is_updatable k src = true ∧ proc_is_updatable k dst = true;
}.

Lemma inherit_loop_only src dst k : wp (forM_ (seqZ 0 NR_SYS_PROCS) (inherit_bit src dst)) (λ _ k', ipc_to_only k k') k.
Proof.
  apply (wp_forM_ _ _ (λ _ k', ipc_to_only k k')); [apply ipc_to_only_refl|]. intros x l k1 H1. unfold inherit_bit.
  apply wp_bind, wp_gets. case_bool; [by apply set_sendto_bit_only|by apply wp_ret].
Qed.

Lemma do_update_spec c m src dst i j :
  update_ready (ckern c) m src dst i j →
  wp (do_update m) (λ r c', r = OK ∧ ∃ k1, ipc_to_only (ckern c) k1 ∧ exchanged (c <| ckern := k1 |>) c' src dst i j) c.
Proof.
  intros [Hs Hd Hne Hi Hj Si Sj Hij [Ss Sd] [Us Ud]].
  assert (priv_id (ckern c) src = i) as Ei by (unfold priv_id; by rewrite Hi).
  assert (priv_id (ckern c) dst = j) as Ej by (unfold priv_id; by rewrite Hj).
  unfold do_update, update_slot. apply wp_bind, wp_bind, wp_gets. rewrite Hs. unfold priv_of at 1. rewrite Ei, Si. apply wp_ret.
  apply wp_bind, wp_bind, wp_gets. rewrite Hd. unfold priv_of at 1. rewrite Ej, Sj. apply wp_ret.
  apply wp_bind, wp_ckcall, wp_assert; [by rewrite Ss, Sd|].
  assert (c <| ckern := ckern c |> = c) as -> by by destruct c.
  apply wp_bind, wp_gets. rewrite Us, Ud. cbn [andb negb]. apply wp_bind, wp_gets, wp_bind, wp_gets. rewrite Ei, Ej.
  apply wp_bind, wp_ckcall. eapply wp_mono; [apply inherit_loop_only|]. intros [] k1 H1.
  assert (proctab k1 = proctab (ckern c)) as Ep by (by destruct H1 as (t & -> & _)).
  apply wp_bind. eapply wp_mono; [apply swap_slots_spec; try done; cbn; by rewrite Ep|]. intros [] c' HE. apply wp_ret. eauto.
Qed.

(** ** Theorems *)

Lemma exchanged_alarms c c' src dst i j l : exchanged c c' src dst i j → alarms_ok c l → alarms_ok c' l.
Proof.
  intros HE [[[Hc Hs] Hn] Hr]. pose proof (ex_tmr _ _ _ _ _ _ HE) as Ht. pose proof (ex_clock _ _ _ _ _ _ HE) as Ec.
  assert (tmrs (ctimers c') = tmrs (ctimers c)) as Hh by (symmetry; exact (f_equal (λ c, tmrs (ctimers c)) Ec)).
  assert (cnext c' = cnext c) as Hnx by (symmetry; exact (f_equal cnext Ec)).
  split; [|done]. split; [split|]; simpl in *.
  - rewrite Hh. eapply chain_ext; [|exact Hc]. intros x _. unfold links. by rewrite Ht.
  - eapply sorted_ext; [|exact Hs]. intros x _. unfold exp_of. by rewrite Ht.
  - rewrite Hnx, Hn. unfold timeout_of. rewrite Hh. destruct (tmrs (ctimers c)); [|done]. by rewrite Ht.
Qed.

Lemma exchanged_privs c c' src dst i j :
  exchanged c c' src dst i j → valid_slot src → valid_slot dst →
  slot_free (ckern c) src = false → slot_free (ckern c) dst = false →
  p_priv (proctab (ckern c) src) = Some i → p_priv (proctab (ckern c) dst) = Some j →
  privs_ok (ckern c) → privs_ok (ckern c').
Proof.
  intros HE Vs Vd Fs Fd Hi Hj [P1 P2 P3]. pose proof (λ n, exchanged_proctab _ _ _ _ _ _ n HE) as Hp.
  assert (∀ x, s_proc_nr (privtab (ckern c') x) = s_proc_nr (privtab (ckern c) x) ∨ s_proc_nr (privtab (ckern c') x) ≠ NONE ∧
    (x = i ∧ s_proc_nr (privtab (ckern c') x) = src ∨ x = j ∧ s_proc_nr (privtab (ckern c') x) = dst)) as Hown.
  { assert (∀ n, valid_slot n → n ≠ NONE) as Hnone by (intros n [? ?] ->; by vm_compute in *).
    intros x. destruct (decide (x = i)) as [->|]; [right; rewrite (ex_isrc _ _ _ _ _ _ HE); cbn; rewrite P1 by done; auto|].
    destruct (decide (x = j)) as [->|]; [right; rewrite (ex_jdst _ _ _ _ _ _ HE); cbn; rewrite P1 by done; auto|].
    left. by rewrite (ex_priv _ _ _ _ _ _ HE). }
  split.
  - intros n Hn. rewrite Hp. by apply P1.
  - intros n x Hn. rewrite (ex_free _ _ src dst Hp) by done. intros Fn. rewrite Hp. cbn [p_priv take_place set settable_proc]. intros Ex Hx.
    pose proof (P2 _ _ Hn Fn Ex Hx) as Ho. destruct (Hown x) as [->|[_ [[-> ->]|[-> ->]]]]; [done|..].
    + rewrite <-Ho. symmetry. by apply (P2 _ i).
    + rewrite <-Ho. symmetry. by apply (P2 _ j).
  - destruct (Hown USER_PRIV_ID) as [->|[? _]]; done.
Qed.


(** The new version in slot 20 takes the place of the server in slot 0. *)
Definition update_kern : kstate :=
  k0 <| proctab := upd (upd (upd proc0
          0 (proc0 0 <| p_rts_flags := RTS_RECEIVING |> <| p_getfrom_e := ANY |> <| p_priv := Some 0 |>))
          20 (proc0 20 <| p_rts_flags := RTS_NO_PRIV |> <| p_priv := Some 17 |>))
          IDLE_PTR (proc0 IDLE_PTR <| p_rts_flags := RTS_PROC_STOP |>) |>
     <| privtab := upd (upd (upd priv0 0 (priv0 0 <| s_proc_nr := 0 |> <| s_id := 0 |> <| s_flags := SYS_PROC |> <| s_asyn_pending := set_sys_bit 7 map0 |>))
                     17 (priv0 17 <| s_proc_nr := 20 |> <| s_id := 17 |> <| s_flags := SYS_PROC |>))
                     USER_PRIV_ID (priv0 USER_PRIV_ID <| s_proc_nr := 11 |>) |>.
Definition update_demo : cstate := mk_cstate update_kern no_timers TMR_NEVER (mk_loadinfo (λ _, 0) 0 0) 0 0 60.
Definition update_msg : message := mk_message 0 0 [20; 0; 0; 0; 0; 0].
Lemma update_kern_inv : ipc_inv update_kern (λ _, []) (λ _, []).
Proof.
  apply (ipc_inv_quiet_slots _ [0; 20; IDLE_PTR]); [done..|].
  intros n Hn. unfold update_kern. simpl. rewrite !upd_ne by (intros ->; set_solver). done.
Qed.
Lemma update_demo_privs : privs_ok update_kern.
Proof.
  split; [| |done].
  - intros n _. unfold update_kern. cbn. unfold upd. by repeat case_decide; subst.
  - intros n i _. unfold slot_free, rts, update_kern. cbn. unfold upd.
    repeat case_decide; subst; cbn; intros Hf; try done; by intros [= <-].
Qed.
Lemma update_demo_ready : update_ready update_kern update_msg 20 0 17 0.
Proof. by split; vm_compute. Qed.


(** [c'] is [c] again, apart from target masks. *)
Record undone (c c' : cstate) : Prop := {
  un_proc n : proctab (ckern c') n = proctab (ckern c) n;
  un_priv x : privtab (ckern c') x <| s_ipc_to := map0 |> = privtab (ckern c) x <| s_ipc_to := map0 |>;
  un_tmr x : tmr (ctimers c') x = tmr (ctimers c) x;
  un_mem n : (umsg (ckern c') n, uasyn (ckern c') n, ugrant (ckern c') n, uvscp (ckern c') n, uwr (ckern c') n) =
             (umsg (ckern c) n, uasyn (ckern c) n, ugrant (ckern c) n, uvscp (ckern c) n, uwr (ckern c) n);
  un_clock : c = c' <| ckern := ckern c |> <| ctimers ::= λ t, t <| tmr := tmr (ctimers c) |> |>;
  un_kern : ckern c = ckern c' <| proctab := proctab (ckern c) |> <| privtab := privtab (ckern c) |> <| umsg := umsg (ckern c) |>
    <| uasyn := uasyn (ckern c) |> <| ugrant := ugrant (ckern c) |> <| uvscp := uvscp (ckern c) |> <| uwr := uwr (ckern c) |>;
}.

Lemma take_place_twice p q : take_place (take_place p q) (take_place q p) = p.
Proof. by destruct p. Qed.
Lemma take_privs_twice s t n m : s_proc_nr s = n → take_privs (take_privs s t m) (take_privs t s n) n = s.
Proof. destruct s. cbn. by intros ->. Qed.
Lemma take_privs_mask s t n : take_privs s t n <| s_ipc_to := map0 |> = take_privs (s <| s_ipc_to := map0 |>) (t <| s_ipc_to := map0 |>) n.
Proof. done. Qed.

(** The rest of the kernel state, after two exchanges. *)
Lemma swap_kern_twice a b k p1 v1 t p2 v2 :
  k = (swap_memory a b (swap_memory a b k <| ptproc ::= swap_proc_slot_pointer a b |> <| proctab := p1 |> <| privtab := v1 |> <| privtab := t |>)
         <| ptproc ::= swap_proc_slot_pointer a b |> <| proctab := p2 |> <| privtab := v2 |>)
      <| proctab := proctab k |> <| privtab := privtab k |> <| umsg := umsg k |>
      <| uasyn := uasyn k |> <| ugrant := ugrant k |> <| uvscp := uvscp k |> <| uwr := uwr k |>.
Proof.
  transitivity (k <| ptproc := swap_proc_slot_pointer a b (swap_proc_slot_pointer a b (ptproc k)) |>).
  - rewrite swap_pointer_twice. by destruct k.
  - by destruct k.
Qed.

Lemma exchanged_ready c c' m src dst i j :
  update_ready (ckern c) m src dst i j → exchanged c c' src dst i j → update_ready (ckern c') m src dst i j.
Proof.
  intros [Hs Hd Hne Hi Hj Si Sj Hij [Rs Rd] [Us Ud]] HE.
  pose proof (ex_src _ _ _ _ _ _ HE) as Es. pose proof (ex_dst _ _ _ _ _ _ HE) as Ed.
  assert (rts (ckern c') src = rts (ckern c) dst ∧ rts (ckern c') dst = rts (ckern c) src) as [Fs Fd] by (unfold rts; by rewrite Es, Ed).
  apply isokendpt_Some in Hs as (V1 & E1 & P1 & N1). apply isokendpt_Some in Hd as (V2 & E2 & P2 & N2).
  unfold isemptyp in E1, E2. fold (rts (ckern c) src) (rts (ckern c) dst) in E1, E2. unfold proc_is_updatable, RTS_ISSET in *.
  fold (rts (ckern c) src) in Us. fold (rts (ckern c) dst) in Ud. rewrite runnable_rts in Rs, Rd.
  split; try done.
  - apply isokendpt_Some. unfold isemptyp. fold (rts (ckern c') src). rewrite Fs, Es. auto.
  - apply isokendpt_Some. unfold isemptyp. fold (rts (ckern c') dst). rewrite Fd, Ed. auto.
  - by rewrite Es.
  - by rewrite Ed.
  - by rewrite (ex_isrc _ _ _ _ _ _ HE).
  - by rewrite (ex_jdst _ _ _ _ _ _ HE).
  - by rewrite !runnable_rts, Fs, Fd.
  - unfold proc_is_updatable, RTS_ISSET, rts in *. by rewrite Fs, Fd.
Qed.

Lemma ready_masks k k1 m src dst i j : ipc_to_only k k1 → update_ready k m src dst i j → update_ready k1 m src dst i j.
Proof.
  intros (t & -> & Ht) [Hs Hd Hne Hi Hj Si Sj Hij Hr Hu]. split; try done.
  - cbn. by rewrite (f_equal s_flags (Ht i) : s_flags (t i) = s_flags (privtab k i)).
  - cbn. by rewrite (f_equal s_flags (Ht j) : s_flags (t j) = s_flags (privtab k j)).
Qed.

Lemma exchanged_twice c c1 k2 c2 src dst i j :
  src ≠ dst → i ≠ j →
  s_proc_nr (privtab (ckern c) i) = p_nr (proctab (ckern c) src) → s_proc_nr (privtab (ckern c) j) = p_nr (proctab (ckern c) dst) →
  exchanged c c1 src dst i j → ipc_to_only (ckern c1) k2 → exchanged (c1 <| ckern := k2 |>) c2 src dst i j → undone c c2.
Proof.
  intros Hne Hij Oi Oj H1 (t & -> & Ht) H2. pose proof (ex_src _ _ _ _ _ _ H1) as S1. pose proof (ex_dst _ _ _ _ _ _ H1) as D1.
  split.
  - intros n. rewrite (exchanged_proctab _ _ _ _ _ _ n H2). cbn [ckern set settable_cstate proctab settable_kstate].
    rewrite !(exchanged_proctab _ _ _ _ _ _ _ H1), swap_pointer_twice. apply take_place_twice.
  - intros x. destruct (decide (x = i)) as [->|Hi]; [|destruct (decide (x = j)) as [->|Hj]].
    + rewrite (ex_isrc _ _ _ _ _ _ H2), take_privs_mask. cbn [ckern set settable_cstate proctab privtab settable_kstate].
      rewrite !Ht, (ex_isrc _ _ _ _ _ _ H1), (ex_jdst _ _ _ _ _ _ H1), !take_privs_mask, S1. by apply take_privs_twice.
    + rewrite (ex_jdst _ _ _ _ _ _ H2), take_privs_mask. cbn [ckern set settable_cstate proctab privtab settable_kstate].
      rewrite !Ht, (ex_isrc _ _ _ _ _ _ H1), (ex_jdst _ _ _ _ _ _ H1), !take_privs_mask, D1. by apply take_privs_twice.
    + rewrite (ex_priv _ _ _ _ _ _ H2) by done. cbn [ckern set settable_cstate privtab settable_kstate].
      by rewrite Ht, (ex_priv _ _ _ _ _ _ H1).
  - intros x. by rewrite (ex_tmr _ _ _ _ _ _ H2), (ex_tmr _ _ _ _ _ _ H1).
  - intros n. rewrite (ex_kern _ _ _ _ _ _ H2). cbn. unfold swap2. rewrite (ex_kern _ _ _ _ _ _ H1). cbn. unfold swap2.
    by rewrite swap_pointer_twice.
  - etrans; [exact (ex_clock _ _ _ _ _ _ H1)|].
    etrans; [exact (f_equal (λ d, d <| ckern := ckern c |> <| ctimers ::= λ t, t <| tmr := tmr (ctimers c) |> |>) (ex_clock _ _ _ _ _ _ H2))|].
    by destruct c2 as [? [] ? ? ? ?].
  - pose proof (ex_kern _ _ _ _ _ _ H2) as K2. pose proof (ex_kern _ _ _ _ _ _ H1) as K1. cbn [ckern set settable_cstate] in K2.
    revert K1 K2. generalize (proctab (ckern c1)), (privtab (ckern c1)), (proctab (ckern c2)), (privtab (ckern c2)).
    intros p1 v1 p2 v2 -> ->. apply swap_kern_twice.
Qed.

(** An update can be undone: when the same sys_update is asked for once more, the two
    processes are what they were before the first, with all of their slots, their memory,
    privileges, pending messages and alarms; only the masks of possible targets may
    have grown. *)
Theorem do_update_undone c m src dst i j :
  update_ready (ckern c) m src dst i j →
  s_proc_nr (privtab (ckern c) i) = p_nr (proctab (ckern c) src) → s_proc_nr (privtab (ckern c) j) = p_nr (proctab (ckern c) dst) →
  wp (do_update m;; do_update m) (λ r c', r = OK ∧ undone c c') c.
Proof.
  intros HU Oi Oj. apply wp_bind. eapply wp_mono; [by eapply do_update_spec|]. intros r1 c1 [_ (k1 & Hk1 & H1)].
  pose proof (ready_masks _ _ _ _ _ _ _ Hk1 HU) as HU1.
  eapply wp_mono; [eapply do_update_spec, (exchanged_ready (c <| ckern := k1 |>)); [exact HU1|exact H1]|].
  intros r2 c2 [-> (k2 & Hk2 & H2)]. split; [done|].
  destruct HU as [_ _ Hne _ _ _ _ Hij _ _]. destruct Hk1 as (t & -> & Ht).
  assert (undone (c <| ckern := ckern c <| privtab := t |> |>) c2) as [U1 U2 U3 U4 U5 U6].
  { apply (exchanged_twice _ c1 k2 c2 src dst i j Hne Hij); try done; cbn.
    - rewrite <-Oi. exact (f_equal s_proc_nr (Ht i)).
    - rewrite <-Oj. exact (f_equal s_proc_nr (Ht j)). }
  split; [exact U1| |exact U3|exact U4| |].
  - intros x. by rewrite U2, <-Ht.
  - transitivity (c <| ckern := ckern c <| privtab := t |> |> <| ckern := ckern c |>); [by destruct c|].
    rewrite U5. by destruct c2 as [? [] ? ? ? ?].
  - transitivity (ckern c <| privtab := t |> <| privtab := privtab (ckern c) |>); [by destruct (ckern c)|].
    etrans; [exact (f_equal (λ k, k <| privtab := privtab (ckern c) |>) U6)|]. by destruct (ckern c2).
Qed.
Lemma do_update_undone_witness :
  wp (do_update update_msg;; do_update update_msg) (λ r c', r = OK ∧ undone update_demo c') update_demo.
Proof. by apply (do_update_undone update_demo update_msg 20 0 17 0 update_demo_ready). Defined.

(** A flaw.  Notifications, interrupts and signals that are pending for a slot stay with it,
    but the map of pending asynchronous messages goes with the process: the
    messages for the old endpoint are looked for under the other one. *)
Theorem do_update_moves_asyn_pending c m src dst i j :
  update_ready (ckern c) m src dst i j →
  wp (do_update m) (λ _ c',
    s_notify_pending (privtab (ckern c') i) = s_notify_pending (privtab (ckern c) i) ∧
    s_asyn_pending (privtab (ckern c') i) = s_asyn_pending (privtab (ckern c) j) ∧
    s_asyn_pending (privtab (ckern c') j) = s_asyn_pending (privtab (ckern c) i)) c.
Proof.
  intros HU. eapply wp_mono; [by eapply do_update_spec|]. intros r c' [_ (k1 & (t & -> & Ht) & HE)].
  rewrite (ex_isrc _ _ _ _ _ _ HE), (ex_jdst _ _ _ _ _ _ HE). cbn. split; [exact (f_equal s_notify_pending (Ht i))|].
  split; [exact (f_equal s_asyn_pending (Ht j))|exact (f_equal s_asyn_pending (Ht i))].
Qed.
Lemma do_update_moves_asyn_pending_witness :
  wp (do_update update_msg) (λ _ c', s_asyn_pending (privtab (ckern c') 17) = set_sys_bit 7 map0) update_demo.
Proof.
  eapply wp_mono; [apply (do_update_moves_asyn_pending update_demo update_msg 20 0 17 0 update_demo_ready)|].
  intros r c' (_ & H & _). exact H.
Defined.
