(* ===== verification/KDevio.v ===== *)
(** * Device input and output for drivers (do_devio.c, do_vdevio.c)

    [dstate] adds to the kernel state the history of port accesses, the static buffer
    vdevio_buf byte by byte, and the bytes of user memory as data_copy sees them: by
    endpoint and address, [None] where nothing is mapped.  What a device answers is a parameter: a
    function of the history, the width and the port. *)
From S2P Require Import Prelude LinkedList Kernel Endpoint Sched IpcInv KPriv.

Definition DIO_INPUT : Z := 0x001.
Definition DIO_OUTPUT : Z := 0x002.
Definition DIO_DIRMASK : Z := 0x00f.
Definition DIO_BYTE : Z := 0x010.
Definition DIO_WORD : Z := 0x020.
Definition DIO_LONG : Z := 0x030.
Definition DIO_TYPEMASK : Z := 0x0f0.
Definition VDEVIO_BUF_SIZE : Z := 64.
Definition E2BIG : Z := -7.
Definition DIO_REQUEST : message → Z := m_word 2.
Definition DIO_PORT : message → Z := m_word 3.
Definition DIO_VALUE : message → Z := m_word 4.
Definition DIO_VEC_SIZE : message → Z := m_word 4.
Definition DIO_VEC_ADDR : message → Z := m_word 5.

Definition port_t (x : Z) : Z := x mod 2 ^ 16.
(** An unsigned integer of [size] bytes. *)
Definition uint (size x : Z) : Z := x mod 2 ^ (8 * size).

(** An access of [size] bytes. *)
Inductive io_event :=
| Inp (size port value : Z)
| Out (size port value : Z).
Definition ev_port (e : io_event) : Z := match e with Inp _ p _ | Out _ p _ => p end.
Definition ev_size (e : io_event) : Z := match e with Inp s _ _ | Out s _ _ => s end.

Record dstate := mk_dstate {
  dkern : kstate;
  io_log : list io_event;        (* the last access first *)
  vdevio_buf : Z → Z;
  ubyte : Z → Z → option Z;
  uwbyte : Z → Z → bool;         (* may be written *)
}.
#[export] Instance settable_dstate : Settable dstate := λ r, mk_dstate (dkern r) (io_log r) (vdevio_buf r) (ubyte r) (uwbyte r).
Definition DK (A : Type) : Type := M dstate A.

(** [data_copy] of [n] bytes at [addr] of the process [e] into the buffer. *)
Fixpoint copy_in (n : nat) (e addr at_ : Z) : DK Z :=
  match n with
  | O => mret OK
  | S n' =>
      b ← gets (λ s, ubyte s e addr);
      match b with
      | None => mret EFAULT
      | Some b => modify (λ s, s <| vdevio_buf ::= λ t, upd t at_ b |>);; copy_in n' e (addr + 1) (at_ + 1)
      end
  end.
Fixpoint copy_out (n : nat) (e addr at_ : Z) : DK Z :=
  match n with
  | O => mret OK
  | S n' =>
      w ← gets (λ s, uwbyte s e addr);
      if negb w then mret EFAULT
      else
        modify (λ s, s <| ubyte ::= λ t, upd t e (upd (t e) addr (Some (vdevio_buf s at_))) |>);;
        copy_out n' e (addr + 1) (at_ + 1)
  end.

(** Little-endian words of [n] bytes in the buffer; an access outside it is an error of the
    program. *)
Fixpoint buf_word (n : nat) (t : Z → Z) (at_ : Z) : Z :=
  match n with O => 0 | S n' => t at_ + 256 * buf_word n' t (at_ + 1) end.
Fixpoint buf_set (n : nat) (v at_ : Z) (t : Z → Z) : Z → Z :=
  match n with O => t | S n' => buf_set n' (v / 256) (at_ + 1) (upd t at_ (v mod 256)) end.
Definition in_buf (at_ n : Z) : bool := (0 <=? at_) && (at_ + n <=? VDEVIO_BUF_SIZE).
Definition buf_get (n at_ : Z) : DK Z :=
  assert_ (λ _, in_buf at_ n) "vdevio_buf";;
  gets (λ s, buf_word (Z.to_nat n) (vdevio_buf s) at_).
Definition buf_put (n at_ v : Z) : DK unit :=
  assert_ (λ _, in_buf at_ n) "vdevio_buf";;
  modify (λ s, s <| vdevio_buf ::= buf_set (Z.to_nat n) v at_ |>).

Section devio.
Context (device : list io_event → Z → Z → Z).

(** [inb], [inw], [inl] and [outb], [outw], [outl]. *)
Definition in_port (size port : Z) : DK Z :=
  v ← gets (λ s, uint size (device (io_log s) size port));
  modify (λ s, s <| io_log ::= cons (Inp size port v) |>);;
  mret v.
Definition out_port (size port v : Z) : DK unit := modify (λ s, s <| io_log ::= cons (Out size port (uint size v)) |>).

Definition in_ranges (port size : Z) (tab : list (Z * Z)) : bool :=
  existsb (λ r, (r.1 <=? port) && (port + size - 1 <=? r.2)) tab.
(** The privilege structure restricts the ports of the process. *)
Definition io_checked (k : kstate) (caller : Z) : bool :=
  match p_priv (proctab k caller) with
  | None => false
  | Some i => has (s_flags (privtab k i)) CHECK_IO_PORT
  end.

(** The width of an access; [do_devio] takes 4 for an unknown type ("be conservative"). *)
Definition io_width (type : Z) : option Z :=
  if type =? DIO_BYTE then Some 1 else if type =? DIO_WORD then Some 2 else if type =? DIO_LONG then Some 4 else None.

Definition do_devio (caller : Z) (m : message) : DK (Z * message) :=
  let io_type := Z.land (DIO_REQUEST m) DIO_TYPEMASK in
  let io_dir := Z.land (DIO_REQUEST m) DIO_DIRMASK in
  let size := default 4 (io_width io_type) in
  let port := port_t (DIO_PORT m) in
  k ← gets dkern;
  if io_checked k caller && negb (in_ranges port size (s_io_tab (priv_of k caller))) then mret (EPERM, m)
  else if negb (Z.land (DIO_PORT m) (size - 1) =? 0) then mret (EPERM, m)
  else if io_dir =? DIO_INPUT then
    match io_width io_type with
    | None => mret (EINVAL, m)
    | Some w => v ← in_port w port; mret (OK, set_m_word 4 (i32 v) m)
    end
  else
    match io_width io_type with
    | None => mret (EINVAL, m)
    | Some w => out_port w port (DIO_VALUE m);; mret (OK, m)
    end.

(** ** do_vdevio: [pvb_pair_t], [pvw_pair_t] and [pvl_pair_t] in the buffer, by the width *)

Definition pair_size (w : Z) : Z := if w =? 4 then 8 else 4.
Definition value_at (w i : Z) : Z := pair_size w * i + (if w =? 4 then 4 else 2).
Definition pair_port (w i : Z) : DK Z := buf_get 2 (pair_size w * i).

(** Whether the I/O is allowed. *)
Fixpoint check_ports (caller w : Z) (l : list Z) : DK bool :=
  match l with
  | [] => mret true
  | i :: l' =>
      port ← pair_port w i;
      tab ← gets (λ s, s_io_tab (priv_of (dkern s) caller));
      if in_ranges port w tab then check_ports caller w l' else mret false
  end.

Definition vdev_in (w i : Z) : DK unit :=
  port ← pair_port w i;
  if negb (Z.land port (w - 1) =? 0) then panic "do_vdevio: unaligned port"
  else v ← in_port w port; buf_put w (value_at w i) v.

(** For long values the port that is written to is [pvb[i].port]. *)
Definition vdev_out (w i : Z) : DK unit :=
  port ← pair_port w i;
  if negb (Z.land port (w - 1) =? 0) then panic "do_vdevio: unaligned port"
  else
    v ← buf_get w (value_at w i);
    port' ← (if w =? 4 then pair_port 1 i else mret port);
    out_port w port' v.

Definition do_vdevio (caller : Z) (m : message) : DK Z :=
  let io_dir := Z.land (DIO_REQUEST m) DIO_DIRMASK in
  let io_type := Z.land (DIO_REQUEST m) DIO_TYPEMASK in
  if negb (io_dir =? DIO_INPUT) && negb (io_dir =? DIO_OUTPUT) then mret EINVAL
  else if DIO_VEC_SIZE m <=? 0 then mret EINVAL
  else
    match io_width io_type with
    | None => mret EINVAL
    | Some w =>
        let bytes := u32 (DIO_VEC_SIZE m * pair_size w) in
        if VDEVIO_BUF_SIZE <? bytes then mret E2BIG
        else
          e ← gets (λ s, p_endpoint (proctab (dkern s) caller));
          r ← copy_in (Z.to_nat bytes) e (DIO_VEC_ADDR m) 0;
          if negb (r =? OK) then mret r
          else
            let elems := seqZ 0 (DIO_VEC_SIZE m) in
            chk ← gets (λ s, io_checked (dkern s) caller);
            ok ← (if chk : bool then check_ports caller w elems else mret true);
            if negb ok then mret EPERM
            else
              (if io_dir =? DIO_INPUT then forM_ elems (vdev_in w) else forM_ elems (vdev_out w));;
              if io_dir =? DIO_INPUT then copy_out (Z.to_nat bytes) e (DIO_VEC_ADDR m) 0 else mret OK
    end.
End devio.

(** ** Drivers reach their own ports only *)

Definition may_access (k : kstate) (caller : Z) (e : io_event) : Prop :=
  io_checked k caller = true →
  ∃ r, r ∈ s_io_tab (priv_of k caller) ∧ r.1 ≤ ev_port e ∧ ev_port e + ev_size e - 1 ≤ r.2.

(** Since [s] only permitted accesses were made. *)
Record only_permitted (s : dstate) (caller : Z) (s' : dstate) : Prop := {
  op_kern : dkern s' = dkern s;
  op_log : ∃ l, io_log s' = l ++ io_log s ∧ Forall (may_access (dkern s) caller) l;
}.

(** The computation returns, or stops the machine with the message [msg]. *)
Definition returns_or (msg : string) {A} (m : DK A) (Q : A → dstate → Prop) (s : dstate) : Prop :=
  match m s with
  | Ret (a, s') => Q a s'
  | Panic e => e = msg
  end.
Notation returns := (returns_or "do_vdevio: unaligned port").
Lemma returns_wp {A} msg (m : DK A) Q s : wp m Q s → returns_or msg m Q s.
Proof. unfold wp, returns_or. by destruct (m s) as [[a s']|]. Qed.
Lemma returns_mono {A} msg (m : DK A) (Q Q' : A → dstate → Prop) s : returns_or msg m Q s → (∀ a s', Q a s' → Q' a s') → returns_or msg m Q' s.
Proof. unfold returns_or. destruct (m s) as [[a s']|]; auto. Qed.
Lemma returns_bind {A B} msg (m : DK A) (f : A → DK B) Q s : returns_or msg m (λ a, returns_or msg (f a) Q) s → returns_or msg (m ≫= f) Q s.
Proof. unfold returns_or, mbind, M_bind. by destruct (m s) as [[a s']|]. Qed.
Lemma returns_forM {A} (l : list A) (f : A → DK unit) (I : dstate → Prop) s :
  I s → (∀ x s', x ∈ l → I s' → returns (f x) (λ _, I) s') → returns (forM_ l f) (λ _, I) s.
Proof.
  intros HI Hf. revert s HI. induction l as [|x l IH]; intros s HI; simpl; [done|].
  apply returns_bind. eapply returns_mono; [apply Hf; [by left|done]|]. intros [] s' H'. apply IH; [|done].
  intros y s'' Hy. apply Hf. by right.
Qed.

Lemma buf_set_other n v a t x : x < a ∨ a + Z.of_nat n ≤ x → buf_set n v a t x = t x.
Proof.
  revert v a t. induction n as [|n IH]; intros v a t H; simpl; [done|]. rewrite IH by lia. apply upd_ne. lia.
Qed.
Lemma in_ranges_spec p w tab : in_ranges p w tab = true → ∃ r, r ∈ tab ∧ r.1 ≤ p ∧ p + w - 1 ≤ r.2.
Proof.
  unfold in_ranges. rewrite existsb_exists. intros (r & Hr & [H1 H2]%andb_prop). exists r. split; [by apply list_elem_of_In|]. lia.
Qed.

Lemma copy_in_frame n e addr a s :
  wp (copy_in n e addr a) (λ _ s', dkern s' = dkern s ∧ io_log s' = io_log s) s.
Proof.
  revert addr a s. induction n as [|n IH]; intros addr a s; simpl; [done|]. apply wp_bind, wp_gets.
  destruct (ubyte s e addr) as [b|]; [|done]. apply wp_bind, wp_modify. eapply wp_mono; [apply IH|]. done.
Qed.
Lemma copy_out_frame n e addr a s :
  wp (copy_out n e addr a) (λ _ s', dkern s' = dkern s ∧ io_log s' = io_log s) s.
Proof.
  revert addr a s. induction n as [|n IH]; intros addr a s; simpl; [done|]. apply wp_bind, wp_gets.
  case_bool; [done|]. apply wp_bind, wp_modify. eapply wp_mono; [apply IH|]. done.
Qed.

Section vector.
Context (device : list io_event → Z → Z → Z) (s0 : dstate) (caller w n : Z) (t0 : Z → Z).
Context (Hw : w = 1 ∨ w = 2 ∨ w = 4) (Hn : 0 ≤ n) (Hsize : pair_size w * n ≤ VDEVIO_BUF_SIZE).
Definition port_of (i : Z) : Z := buf_word 2 t0 (pair_size w * i).

(** The ports in the buffer are those that were checked. *)
Record vec_inv (s : dstate) : Prop := {
  vi_only : only_permitted s0 caller s;
  vi_ports i : 0 ≤ i < n → buf_word 2 (vdevio_buf s) (pair_size w * i) = port_of i;
}.
Definition ports_ok : Prop := ∀ i, 0 ≤ i < n → io_checked (dkern s0) caller = true →
  in_ranges (port_of i) w (s_io_tab (priv_of (dkern s0) caller)) = true.

Lemma pair_port_spec i s : vec_inv s → 0 ≤ i < n → wp (pair_port w i) (λ p s', p = port_of i ∧ s' = s) s.
Proof using Hw Hn Hsize.
  intros HV Hi. unfold pair_port, buf_get. apply wp_bind, wp_assert; [|by apply wp_gets; split; [apply HV|]].
  unfold in_buf, pair_size, VDEVIO_BUF_SIZE in *. destruct Hw as [->|[->| ->]]; simpl in *; lia.
Qed.
Lemma value_in_buf i : 0 ≤ i < n → in_buf (value_at w i) w = true.
Proof using Hw Hn Hsize.
  intros Hi. unfold in_buf, value_at, pair_size, VDEVIO_BUF_SIZE in *. destruct Hw as [->|[->| ->]]; simpl in *; lia.
Qed.
Lemma put_keeps_ports i j v t :
  0 ≤ i → 0 ≤ j →
  buf_word 2 (buf_set (Z.to_nat w) v (value_at w i) t) (pair_size w * j) = buf_word 2 t (pair_size w * j).
Proof using Hw.
  clear Hsize. intros Hi Hj. simpl. unfold value_at, pair_size.
  destruct Hw as [->|[->| ->]]; rewrite !buf_set_other; try done; rewrite Z2Nat.id by lia; simpl; lia.
Qed.

Lemma vec_access i e s :
  vec_inv s → ports_ok → 0 ≤ i < n → ev_port e = port_of i → ev_size e = w → vec_inv (s <| io_log ::= cons e |>).
Proof.
  intros [[Hk (l & Hl & Hf)] Hp] Hok Hi Ep Es. split; [split; [done|]|done].
  exists (e :: l). split; [cbn; by rewrite Hl|]. constructor; [|done]. intros Hc. rewrite Ep, Es. by apply in_ranges_spec, Hok.
Qed.
Lemma vdev_in_ok i s : ports_ok → 0 ≤ i < n → vec_inv s → returns (vdev_in device w i) (λ _, vec_inv) s.
Proof using Hw Hn Hsize.
  intros Hok Hi HV. unfold vdev_in. apply returns_bind. eapply returns_mono; [by apply returns_wp, pair_port_spec|].
  intros p s' [-> ->]. case_bool; [done|]. unfold in_port, buf_put.
  apply returns_wp, wp_bind, wp_bind, wp_gets, wp_bind, wp_modify, wp_ret, wp_bind, wp_assert; [by apply value_in_buf|].
  apply wp_modify. destruct (vec_access i (Inp w (port_of i) (uint w (device (io_log s) w (port_of i)))) s HV Hok Hi eq_refl eq_refl) as [H1 H2].
  split; [by destruct H1|]. intros j Hj. etrans; [apply (put_keeps_ports i j); lia|exact (H2 j Hj)].
Qed.
Lemma vdev_out_ok i s : w ≠ 4 → ports_ok → 0 ≤ i < n → vec_inv s → returns (vdev_out w i) (λ _, vec_inv) s.
Proof using Hw Hn Hsize.
  intros H4 Hok Hi HV. unfold vdev_out. apply returns_bind. eapply returns_mono; [by apply returns_wp, pair_port_spec|].
  intros p s' [-> ->]. case_bool; [done|]. unfold buf_get, out_port.
  apply returns_wp, wp_bind, wp_bind, wp_assert; [by apply value_in_buf|]. apply wp_gets, wp_bind.
  rewrite (proj2 (Z.eqb_neq w 4)) by done. apply wp_ret, wp_modify. by apply (vec_access i).
Qed.
End vector.

Lemma check_ports_spec caller w n t0 s0 s l :
  (w = 1 ∨ w = 2 ∨ w = 4) → 0 ≤ n → pair_size w * n ≤ VDEVIO_BUF_SIZE → vec_inv s0 caller w n t0 s → (∀ i, i ∈ l → 0 ≤ i < n) →
  wp (check_ports caller w l) (λ ok s', s' = s ∧ (ok = true →
    ∀ i, i ∈ l → in_ranges (port_of w t0 i) w (s_io_tab (priv_of (dkern s0) caller)) = true)) s.
Proof.
  intros Hw Hn Hsize HV. induction l as [|i l IH]; intros Hl; simpl; [split; [done|]; by intros _ i ?%elem_of_nil|].
  apply wp_bind. eapply wp_mono; [apply (pair_port_spec s0 caller w n t0); [done..|apply Hl; by left]|].
  intros p s' [-> ->]. apply wp_bind, wp_gets. rewrite (op_kern _ _ _ (vi_only _ _ _ _ _ _ HV)).
  destruct (in_ranges (port_of w t0 i) w _) eqn:E; [|done].
  eapply wp_mono; [apply IH; intros j Hj; apply Hl; by right|]. intros ok s' [-> Hok]. split; [done|].
  intros H j [->|Hj]%elem_of_cons; [done|auto].
Qed.

Lemma io_width_cases t w : io_width t = Some w → (w = 1 ∨ w = 2 ∨ w = 4) ∧ (w = 4 → t = DIO_LONG).
Proof.
  unfold io_width. do 2 (case_bool; [intros [= <-]; auto with lia|]).
  destruct (Z.eqb_spec t DIO_LONG); [intros [= <-]; auto|done].
Qed.
Lemma only_permitted_refl s caller : only_permitted s caller s.
Proof. split; [done|by exists []]. Qed.
Lemma only_permitted_frame s caller s1 s2 :
  only_permitted s caller s1 → dkern s2 = dkern s1 → io_log s2 = io_log s1 → only_permitted s caller s2.
Proof. intros [H1 H2] Hk Hl. split; [by rewrite Hk|by rewrite Hl]. Qed.

Lemma do_devio_permitted device caller m s : wp (do_devio device caller m) (λ _ s', only_permitted s caller s') s.
Proof.
  pose proof (only_permitted_refl s caller) as Hself. unfold do_devio. apply wp_bind, wp_gets.
  destruct (_ && _) eqn:Hc; [done|]. case_bool; [done|]. destruct (io_width _) as [w|] eqn:Ew; [|by case_bool]. simpl in Hc.
  assert (∀ e, ev_port e = port_t (DIO_PORT m) → ev_size e = w → only_permitted s caller (s <| io_log ::= cons e |>)) as Hev.
  { intros e Ep Es. split; [done|]. exists [e]. split; [done|]. constructor; [|done]. intros Hk. rewrite Hk in Hc.
    apply negb_false_iff, in_ranges_spec in Hc. by rewrite Ep, Es. }
  case_bool; unfold in_port, out_port.
  - apply wp_bind, wp_bind, wp_gets, wp_bind, wp_modify, wp_ret, wp_ret. by apply Hev.
  - apply wp_bind, wp_modify, wp_ret. by apply Hev.
Qed.

(** The checks and the accesses of [do_vdevio], with the vector in the buffer. *)
Lemma vector_checked caller w n s s1 :
  (w = 1 ∨ w = 2 ∨ w = 4) → 0 ≤ n → pair_size w * n ≤ VDEVIO_BUF_SIZE → vec_inv s caller w n (vdevio_buf s1) s1 →
  wp (if io_checked (dkern s1) caller then check_ports caller w (seqZ 0 n) else mret true)
    (λ ok s2, s2 = s1 ∧ (ok = true → ports_ok s caller w n (vdevio_buf s1))) s1.
Proof.
  intros Hw Hn Hfit HV. destruct (io_checked (dkern s1) caller) eqn:Hck.
  - eapply wp_mono; [apply (check_ports_spec caller w n (vdevio_buf s1) s s1); try done; intros i Hi%elem_of_seqZ; lia|].
    intros ok s2 [-> Hok]. split; [done|]. intros Ht i Hi _. apply Hok; [done|]. apply elem_of_seqZ. lia.
  - apply wp_ret. split; [done|]. intros _ i Hi Hc. rewrite <-(op_kern _ _ _ (vi_only _ _ _ _ _ _ HV)) in Hc. congruence.
Qed.
Lemma vector_done device caller w n s t0 s1 (input : bool) :
  (w = 1 ∨ w = 2 ∨ w = 4) → 0 ≤ n → pair_size w * n ≤ VDEVIO_BUF_SIZE → vec_inv s caller w n t0 s1 → ports_ok s caller w n t0 →
  (input = false → w ≠ 4) →
  returns (if input then forM_ (seqZ 0 n) (vdev_in device w) else forM_ (seqZ 0 n) (vdev_out w)) (λ _, vec_inv s caller w n t0) s1.
Proof.
  intros Hw Hn Hfit HV Hok Hin. destruct input; apply returns_forM; try done; intros i s' Hi%elem_of_seqZ HI.
  - apply vdev_in_ok; auto; lia.
  - apply vdev_out_ok; auto; lia.
Qed.

Lemma do_vdevio_permitted device caller m s :
  DIO_VEC_SIZE m < 2 ^ 29 → Z.land (DIO_REQUEST m) DIO_TYPEMASK ≠ DIO_LONG ∨ Z.land (DIO_REQUEST m) DIO_DIRMASK = DIO_INPUT →
  returns (do_vdevio device caller m) (λ _ s', only_permitted s caller s') s.
Proof.
  intros Hv Hdir. pose proof (only_permitted_refl s caller) as Hself. unfold do_vdevio. case_bool; [done|].
  destruct (Z.leb_spec (DIO_VEC_SIZE m) 0) as [|Hpos]; [done|].
  destruct (io_width _) as [w|] eqn:Ew; [|done]. apply io_width_cases in Ew as [Hw H4]. set (n := DIO_VEC_SIZE m) in *.
  rewrite u32_id by (unfold pair_size; destruct (w =? 4); lia). rewrite (Z.mul_comm n).
  destruct (Z.ltb_spec VDEVIO_BUF_SIZE (pair_size w * n)) as [|Hfit]; [done|].
  apply returns_bind, returns_wp, wp_gets, returns_bind. eapply returns_mono; [apply returns_wp, copy_in_frame|].
  intros r s1 [Hk1 Hl1]. pose proof (only_permitted_frame _ _ _ _ Hself Hk1 Hl1) as H1. case_bool; [done|].
  assert (vec_inv s caller w n (vdevio_buf s1) s1) as HV by by split.
  apply returns_bind, returns_wp, wp_gets, returns_bind. eapply returns_mono; [by apply returns_wp, vector_checked; [|lia|..]|].
  intros ok s2 [-> Hok]. destruct ok; [|done]. cbn [negb]. apply returns_bind. eapply returns_mono.
  - apply vector_done; [done|lia|done|exact HV|by apply Hok|].
    intros Hout%Z.eqb_neq ->. destruct Hdir as [Ht|]; [by apply Ht, H4|done].
  - intros [] s3 [H3 _]. case_bool; [|done]. eapply returns_mono; [apply returns_wp, copy_out_frame|].
    intros r' s4 [Hk4 Hl4]. by eapply only_permitted_frame.
Qed.


(** A driver with the ports 0x100 to 0x107, and the vector (0x100, 0x64), (0x104, 1) in its memory. *)
Definition devio_kern : kstate :=
  k0 <| proctab := upd proc0 0 (proc0 0 <| p_rts_flags := RTS_RECEIVING |> <| p_priv := Some 0 |>) |>
     <| privtab := upd priv0 0 (priv0 0 <| s_flags := CHECK_IO_PORT |> <| s_io_tab := [(0x100, 0x107)] |>) |>.
Definition devio_bytes (bs : list Z) (addr : Z) : option Z := if addr <? 0 then None else bs !! Z.to_nat addr.
Definition devio_demo (bs : list Z) : dstate := mk_dstate devio_kern [] (λ _, 0) (λ _, devio_bytes bs) (λ _ _, true).
Definition echo_device (l : list io_event) (size port : Z) : Z := port + Z.of_nat (length l).
Definition voutw_msg : message := mk_message 0 0 [0; 0; DIO_OUTPUT + DIO_WORD; 0; 2; 0].
Example voutw_log :
  returns (do_vdevio echo_device 0 voutw_msg) (λ r s', r = OK ∧ io_log s' = [Out 2 0x104 1; Out 2 0x100 0x64])
    (devio_demo [0; 1; 0x64; 0; 4; 1; 1; 0]).
Proof. vm_compute. done. Qed.

(** A flaw.  For a vector of long values the ports that are checked are those of the pairs, but
    the port that is written to is read as if the pairs were pairs of bytes: the second
    element is written to a port that the driver chose as the value of the first. *)
Theorem voutl_reaches_other_port :
  in_ranges 0x64 4 (s_io_tab (priv_of devio_kern 0)) = false ∧
  returns (do_vdevio echo_device 0 (mk_message 0 0 [0; 0; DIO_OUTPUT + DIO_LONG; 0; 2; 0]))
    (λ r s', r = OK ∧ Out 4 0x64 1 ∈ io_log s') (devio_demo [0; 1; 0; 0; 0x64; 0; 0; 0; 4; 1; 0; 0; 1; 0; 0; 0]).
Proof. split; [done|]. vm_compute. split; [done|]. by left. Qed.
