(* ===== verification/KSdevio.v ===== *)
(** * String I/O, the BIOS and I/O privileges (do_sdevio.c, do_readbios.c, do_iopenable.c of arch/i386)

    [phys_insb] and its relatives (klib.S) transfer between a port and the loaded address
    space; they work in the kernel, where a page fault ends the machine. *)
From S2P Require Import Prelude LinkedList Kernel Endpoint Sched IpcInv Notify HMem WorkingSet HShared Dwc VirtCopy Grants KPriv KDevio.

Definition DIO_SAFE : Z := 0x100.
Definition DIO_SAFEMASK : Z := 0xf00.
Definition DIO_OFFSET : message → Z := m_word 0.
Definition DIO_VEC_ENDPT : message → Z := m_word 1.
Definition IOP_ENDPT : message → Z := m_word 3.
Definition RDB_SIZE : message → Z := m_word 0.
Definition RDB_ADDR : message → Z := m_word 3.
Definition RDB_BUF : message → Z := m_word 5.
Definition BIOS_MEM_BEGIN : Z := 0.
Definition BIOS_MEM_END : Z := 0x004FF.
Definition BASE_MEM_TOP : Z := 0x090000.
Definition UPPER_MEM_END : Z := 0x0FFFFF.

(** Kernel code that does no I/O. *)
Definition dcall {A} (m : K A) : DK A := λ s,
  match m (dkern s) with
  | Ret (a, k) => Ret (a, s <| dkern := k |>)
  | Panic e => Panic e
  end.

(** ** Transfers to and from the loaded address space *)

Definition loaded_space (s : dstate) : Z := p_endpoint (proctab (dkern s) (ptproc (dkern s))).

(** [n] bytes at [a], the lowest first. *)
Fixpoint mem_put (n : nat) (a v : Z) : DK unit :=
  match n with
  | O => mret ()
  | S n' =>
      e ← gets loaded_space;
      ok ← gets (λ s, bool_decide (is_Some (ubyte s e a)) && uwbyte s e a);
      if ok : bool then modify (λ s, s <| ubyte ::= λ t, upd t e (upd (t e) a (Some (v mod 256))) |>);; mem_put n' (u32 (a + 1)) (v / 256)
      else panic "pagefault in kernel"
  end.
Fixpoint mem_get (n : nat) (a : Z) : DK Z :=
  match n with
  | O => mret 0
  | S n' =>
      b ← gets (λ s, ubyte s (loaded_space s) a);
      match b with
      | None => panic "pagefault in kernel"
      | Some b => v ← mem_get n' (u32 (a + 1)); mret (b + 256 * v)
      end
  end.

Section string_io.
Context (device : list io_event → Z → Z → Z).

(** [rep insb], [rep insw], [rep outsb], [rep outsw]: [n] elements of [w] bytes. *)
Fixpoint rep_ins (n : nat) (w port a : Z) : DK unit :=
  match n with
  | O => mret ()
  | S n' => v ← in_port device w port; mem_put (Z.to_nat w) a v;; rep_ins n' w port (u32 (a + w))
  end.
Fixpoint rep_outs (n : nat) (w port a : Z) : DK unit :=
  match n with
  | O => mret ()
  | S n' => v ← mem_get (Z.to_nat w) a; out_port w port v;; rep_outs n' w port (u32 (a + w))
  end.
(** The port goes through a 16-bit register, the count is in bytes. *)
Definition phys_ins (w port buf count : Z) : DK unit := rep_ins (Z.to_nat (count / w)) w (port_t port) buf.
Definition phys_outs (w port buf count : Z) : DK unit := rep_outs (Z.to_nat (count / w)) w (port_t port) buf.

(** ** do_sdevio.c *)

Definition sdevio_safe (m : message) : bool := Z.land (DIO_REQUEST m) DIO_SAFEMASK =? DIO_SAFE.

(** The process whose memory is used and the address in it, or an error. *)
Definition sdevio_target (k : kstate) (caller proc_nr : Z) (m : message) : Z + (Z * Z) :=
  if sdevio_safe m then
    let mode := if Z.land (DIO_REQUEST m) DIO_DIRMASK =? DIO_INPUT then CPF_WRITE else CPF_READ in
    match verify_grant k (DIO_VEC_ENDPT m) (p_endpoint (proctab k caller)) (i32 (DIO_VEC_ADDR m)) (u32 (DIO_VEC_SIZE m)) mode
            (u32 (DIO_OFFSET m)) with
    | inl _ => inl EPERM
    | inr (newoffset, newep) =>
        match isokendpt k newep with
        | None => inl EINVAL
        | Some n => inr (n, newoffset)
        end
    end
  else if negb (proc_nr =? ENDPOINT_P (p_endpoint (proctab k caller))) then inl EPERM
  else inr (proc_nr, u32 (DIO_VEC_ADDR m)).

(** The ports are compared as unsigned words. *)
Definition sdevio_in_ranges (port size : Z) (tab : list (Z * Z)) : bool :=
  existsb (λ r, (r.1 <=? port) && (u32 (port + size - 1) <=? r.2)) tab.

(** What happens while the address space of the buffer is loaded. *)
Definition sdevio_transfer (caller vir_buf : Z) (m : message) : DK Z :=
  let req_dir := Z.land (DIO_REQUEST m) DIO_DIRMASK in
  let req_type := Z.land (DIO_REQUEST m) DIO_TYPEMASK in
  let size := default 4 (io_width req_type) in
  let port := u32 (DIO_PORT m) in
  let count := u32 (DIO_VEC_SIZE m) in
  k ← gets dkern;
  if io_checked k caller && negb (sdevio_in_ranges port size (s_io_tab (priv_of k caller))) then mret EPERM
  else if negb (Z.land port (size - 1) =? 0) then mret EPERM
  else if (req_dir =? DIO_INPUT) && ((req_type =? DIO_BYTE) || (req_type =? DIO_WORD)) then phys_ins size port vir_buf count;; mret OK
  else if (req_dir =? DIO_OUTPUT) && ((req_type =? DIO_BYTE) || (req_type =? DIO_WORD)) then phys_outs size port vir_buf count;; mret OK
  else mret EINVAL.

Definition do_sdevio (caller : Z) (m : message) : DK Z :=
  self ← gets (λ s, p_endpoint (proctab (dkern s) caller));
  proc_nr ← (if DIO_VEC_ENDPT m =? SELF then n ← dcall (okendpt self); mret (Some n)
             else gets (λ s, isokendpt (dkern s) (DIO_VEC_ENDPT m)));
  match proc_nr with
  | None => mret EINVAL
  | Some proc_nr =>
      if iskerneln proc_nr then mret EPERM
      else
        t ← gets (λ s, sdevio_target (dkern s) caller proc_nr m);
        match t with
        | inl r => mret r
        | inr (destproc, vir_buf) =>
            dcall (switch_address_space destproc);;
            r ← sdevio_transfer caller vir_buf m;
            dcall (switch_address_space caller);;
            mret r
        end
  end.
End string_io.

(** ** do_readbios.c, do_iopenable.c *)

Definition VINRANGE (v a b : Z) : bool := (a <=? v) && (v <=? b).
Definition SUBRANGE (a b c d : Z) : bool := VINRANGE a c d && VINRANGE b c d.

Definition readbios_allowed (offset len : Z) : bool :=
  let limit := u32 (offset + len - 1) in
  SUBRANGE offset limit BIOS_MEM_BEGIN BIOS_MEM_END || SUBRANGE offset limit BASE_MEM_TOP UPPER_MEM_END.

Definition do_readbios (freepdes : list Z) (phys_copy : Z → Z → Z → K Z) (caller : Z) (m : message) : K Z :=
  let len := u32 (RDB_SIZE m) in
  let offset := u32 (RDB_ADDR m) in
  if negb (readbios_allowed offset len) then mret EPERM
  else virtual_copy_vmcheck freepdes phys_copy caller NONE offset (m_source m) (u32 (RDB_BUF m)) len.

Definition enable_iop (pp : Z) : K unit := modify_proc pp (λ p, p <| p_reg ::= λ r, r <| psw ::= set_flag 0x3000 |> |>).

Definition do_iopenable (caller : Z) (m : message) : K Z :=
  self ← gets (λ k, p_endpoint (proctab k caller));
  proc_nr ← (if IOP_ENDPT m =? SELF then n ← okendpt self; mret (Some n) else gets (λ k, isokendpt k (IOP_ENDPT m)));
  match proc_nr with
  | None => mret EINVAL
  | Some n => enable_iop n;; mret OK
  end.

(** ** What a transfer touches *)

Notation or_fault := (returns_or "pagefault in kernel").

(** [s'] differs from [s] by accesses of [w] bytes to [port], and in the [n] bytes from [a] on of
    the loaded address space. *)
Record transferred (w port a n : Z) (s s' : dstate) : Prop := {
  tf_kern : dkern s' = dkern s;
  tf_log : ∃ l, io_log s' = l ++ io_log s ∧ Forall (λ ev, ev_port ev = port ∧ ev_size ev = w) l;
  tf_mem e x : ubyte s' e x ≠ ubyte s e x → e = loaded_space s ∧ ∃ i, 0 ≤ i < n ∧ x = u32 (a + i);
}.
Lemma transferred_refl w port a n s : transferred w port a n s s.
Proof. split; [done|by exists []|done]. Qed.
Lemma transferred_event w port a n s ev : ev_port ev = port → ev_size ev = w → transferred w port a n s (s <| io_log ::= cons ev |>).
Proof. intros. split; [done| |done]. exists [ev]. split; [done|]. by repeat constructor. Qed.
Lemma transferred_trans w port a n n1 b n2 s1 s2 s3 :
  transferred w port a n1 s1 s2 → transferred w port (u32 (a + b)) n2 s2 s3 → 0 ≤ b → n1 ≤ n → b + n2 ≤ n → transferred w port a n s1 s3.
Proof.
  intros [Hk1 (l1 & Hl1 & Hf1) Hm1] [Hk2 (l2 & Hl2 & Hf2) Hm2] Hb Hn1 Hn2. split; [congruence| |].
  - exists (l2 ++ l1). rewrite Hl2, Hl1, app_assoc. split; [done|]. by apply Forall_app.
  - intros e x Hne. destruct (decide (ubyte s2 e x = ubyte s1 e x)) as [Heq|Hne1].
    + rewrite <-Heq in Hne. destruct (Hm2 _ _ Hne) as [-> (i & Hi & ->)]. unfold loaded_space. rewrite Hk1. split; [done|].
      exists (b + i). split; [lia|]. rewrite u32_add. f_equal. lia.
    + destruct (Hm1 _ _ Hne1) as [-> (i & Hi & ->)]. split; [done|]. exists i. split; [lia|done].
Qed.

Lemma mem_put_spec n w port a v s : 0 ≤ a < 2 ^ 32 → or_fault (mem_put n a v) (λ _, transferred w port a (Z.of_nat n) s) s.
Proof.
  revert a v s. induction n as [|n IH]; intros a v s Ha; simpl; [apply transferred_refl|].
  apply returns_bind, returns_wp, wp_gets, returns_bind, returns_wp, wp_gets. destruct (_ && _); [|done].
  apply returns_bind, returns_wp, wp_modify. eapply returns_mono; [apply IH, u32_range|]. intros [] s' H'.
  eapply (transferred_trans w port a _ 1 1); [|exact H'|lia..]. split; [done|by exists []|]. cbn. intros e x. unfold upd.
  destruct (decide (e = loaded_space s)) as [->|]; [|done]. destruct (decide (x = a)) as [->|]; [|done].
  intros _. split; [done|]. exists 0. split; [lia|]. by rewrite Z.add_0_r, u32_id.
Qed.
Lemma mem_get_spec n a s : or_fault (mem_get n a) (λ _ s', s' = s) s.
Proof.
  revert a. induction n as [|n IH]; intros a; simpl; [done|]. apply returns_bind, returns_wp, wp_gets.
  destruct (ubyte _ _ _); [|done]. apply returns_bind. eapply returns_mono; [apply IH|]. by intros v s' ->.
Qed.

Section transfers.
Context (device : list io_event → Z → Z → Z).

Lemma rep_ins_spec n w port a s :
  0 < w → 0 ≤ a < 2 ^ 32 → or_fault (rep_ins device n w port a) (λ _, transferred w port a (Z.of_nat n * w) s) s.
Proof using Type.
  intros Hw. revert a s. induction n as [|n IH]; intros a s Ha; simpl; [apply transferred_refl|]. unfold in_port.
  apply returns_bind, returns_bind, returns_wp, wp_gets, returns_bind, returns_wp, wp_modify, returns_wp, wp_ret.
  apply returns_bind. eapply returns_mono; [by apply (mem_put_spec _ w port)|]. intros [] s1 H1.
  eapply returns_mono; [apply IH, u32_range|]. intros [] s2 H2.
  eapply (transferred_trans w port a _ w w); [|exact H2|lia..].
  refine (transferred_trans w port a _ 0 0 w s _ s1 (transferred_event w port a 0 s (Inp w port _) eq_refl eq_refl) _ _ _ _); [|lia..].
  rewrite Z.add_0_r, (u32_id a) by lia. rewrite Z2Nat.id in H1 by lia. exact H1.
Qed.
Lemma rep_outs_spec n w port a s : or_fault (rep_outs n w port a) (λ _ s', transferred w port 0 0 s s' ∧ ubyte s' = ubyte s) s.
Proof using Type.
  revert a s. induction n as [|n IH]; intros a s; simpl; [split; [apply transferred_refl|done]|].
  apply returns_bind. eapply returns_mono; [apply mem_get_spec|]. intros v s1 ->. unfold out_port.
  apply returns_bind, returns_wp, wp_modify. eapply returns_mono; [apply IH|]. intros [] s2 [H2 Hu]. split; [|done].
  by refine (transferred_trans w port 0 0 0 0 0 s _ s2 (transferred_event w port 0 0 s (Out w port _) eq_refl eq_refl) H2 _ _ _).
Qed.
End transfers.

(** The I/O ranges of a process are ranges of 16-bit ports. *)
Definition ports_fit (k : kstate) (caller : Z) : Prop := Forall (λ r, 0 ≤ r.1 ∧ r.2 < 2 ^ 16) (s_io_tab (priv_of k caller)).

Lemma sdevio_port k caller port w :
  ports_fit k caller → 0 ≤ port < 2 ^ 32 → w = 1 ∨ w = 2 → Z.land port (w - 1) = 0 →
  io_checked k caller && negb (sdevio_in_ranges port w (s_io_tab (priv_of k caller))) = false →
  ∀ ev, ev_port ev = port_t port ∧ ev_size ev = w → may_access k caller ev.
Proof.
  intros Hfit Hp Hw Hal Hc ev [Ep Es] Hck. rewrite Hck in Hc. apply negb_false_iff, existsb_exists in Hc as (r & Hr & [H1 H2]%andb_prop).
  apply list_elem_of_In in Hr. pose proof (proj1 (Forall_forall _ _) Hfit r Hr) as [Hr1 Hr2]. exists r. split; [done|]. rewrite Ep, Es.
  assert (u32 (port + w - 1) = port + w - 1) as Hu.
  { apply u32_id. destruct Hw as [-> | ->]; [lia|]. change (2 - 1) with (Z.ones 1) in Hal. rewrite Z.land_ones in Hal by lia. clear -Hal Hp. div_lia. }
  rewrite Hu in H2. unfold port_t. rewrite Z.mod_small by lia. lia.
Qed.

Section sdevio.
Context (device : list io_event → Z → Z → Z) (caller : Z) (m : message).
#[local] Notation input := (Z.land (DIO_REQUEST m) DIO_DIRMASK = DIO_INPUT).

(** Only permitted accesses were made, and only on input was memory of the process [e] changed, in
    the buffer at [a]. *)
Record sdevio_did (e a : Z) (s s' : dstate) : Prop := {
  sd_only : only_permitted s caller s';
  sd_mem e' x : ubyte s' e' x ≠ ubyte s e' x → input ∧ e' = e ∧ ∃ i, 0 ≤ i < u32 (DIO_VEC_SIZE m) ∧ x = u32 (a + i);
}.
Lemma sdevio_did_refl e a s : sdevio_did e a s s.
Proof using Type. split; [apply only_permitted_refl|done]. Qed.

Lemma sdevio_transfer_spec a s :
  0 ≤ a < 2 ^ 32 → ports_fit (dkern s) caller →
  or_fault (sdevio_transfer device caller a m) (λ _, sdevio_did (loaded_space s) a s) s.
Proof using Type.
  intros Ha Hfit. unfold sdevio_transfer. apply returns_bind, returns_wp, wp_gets. set (ty := Z.land (DIO_REQUEST m) DIO_TYPEMASK).
  pose proof (sdevio_did_refl (loaded_space s) a s) as Hself. destruct (_ && negb (sdevio_in_ranges _ _ _)) eqn:Hc; [done|].
  destruct (Z.eqb_spec (Z.land (u32 (DIO_PORT m)) (default 4 (io_width ty) - 1)) 0) as [Hal|]; [|done]. cbn [negb].
  assert (∀ b, b && ((ty =? DIO_BYTE) || (ty =? DIO_WORD)) = true →
    (default 4 (io_width ty) = 1 ∨ default 4 (io_width ty) = 2) ∧ b = true) as Hty.
  { intros b [-> Hb]%andb_prop. split; [|done]. apply orb_prop in Hb as [->%Z.eqb_eq | ->%Z.eqb_eq]; auto. }
  destruct ((Z.land _ _ =? DIO_INPUT) && _) eqn:Hin; [|destruct ((Z.land _ _ =? DIO_OUTPUT) && _) eqn:Hout; [|done]].
  - apply Hty in Hin as [Hw Hdir%Z.eqb_eq]. set (w := default 4 _) in *. unfold phys_ins.
    apply returns_bind. eapply returns_mono; [apply rep_ins_spec; lia|]. intros [] s' [Hk (l & Hl & Hf) Hm]. split.
    + split; [done|]. exists l. split; [done|]. eapply Forall_impl; [exact Hf|]. by apply sdevio_port; [|apply u32_range|..].
    + intros e' x Hne. destruct (Hm _ _ Hne) as [-> (i & Hi & ->)]. split; [done|]. split; [done|]. exists i. split; [|done].
      pose proof (u32_range (DIO_VEC_SIZE m)). rewrite Z2Nat.id in Hi by (apply Z.div_pos; lia).
      pose proof (Z.mul_div_le (u32 (DIO_VEC_SIZE m)) w ltac:(lia)). lia.
  - apply Hty in Hout as [Hw _]. set (w := default 4 _) in *. unfold phys_outs.
    apply returns_bind. eapply returns_mono; [apply rep_outs_spec|]. intros [] s' [[Hk (l & Hl & Hf) _] Hu]. split.
    + split; [done|]. exists l. split; [done|]. eapply Forall_impl; [exact Hf|]. by apply sdevio_port; [|apply u32_range|..].
    + intros e' x. by rewrite Hu.
Qed.
End sdevio.

(** ** The address space of the buffer is loaded, and the caller's again *)

(** The caller's address space is loaded; no two processes share a page directory. *)
Record spaces_ok (k : kstate) (caller : Z) : Prop := {
  so_loaded : ptproc k = caller;
  so_cr3 : cr3 (cpu_cr k) = p_cr3 (proctab k caller);
  so_has : p_cr3 (proctab k caller) ≠ 0;
  so_uniq n n' : p_cr3 (proctab k n) = p_cr3 (proctab k n') → p_cr3 (proctab k n) ≠ 0 → n = n';
}.
Lemma switch_there k caller d :
  spaces_ok k caller → p_cr3 (proctab k d) ≠ 0 →
  ∃ k1, switch_address_space d k = Ret ((), k1) ∧ ptproc k1 = d ∧ proctab k1 = proctab k ∧ privtab k1 = privtab k ∧
    switch_address_space caller k1 = Ret ((), k).
Proof.
  intros [Hl Hc Hh Hu] Hd. unfold switch_address_space. rewrite !run_gets. rewrite (proj2 (Z.eqb_neq _ 0) Hd). cbn [orb]. rewrite Hc.
  destruct (Z.eqb_spec (p_cr3 (proctab k d)) (p_cr3 (proctab k caller))) as [E|Hne].
  - apply Hu in E as ->; [|done]. exists k. split; [done|]. split; [done|]. split; [done|]. split; [done|]. rewrite !run_gets.
    rewrite Hc, Z.eqb_refl, orb_true_r. done.
  - eexists. split; [done|]. split; [done|]. split; [done|]. split; [done|]. rewrite !run_gets. cbn.
    rewrite (proj2 (Z.eqb_neq _ _) Hh), (proj2 (Z.eqb_neq _ _) (not_eq_sym Hne)). cbn. unfold modify.
    destruct k as []; cbn in *. subst. do 3 f_equal. destruct cpu_cr; cbn in *. by subst.
Qed.

(** The memory that [do_sdevio] may use: the caller's, or what a chain of grants lets it read
    or write. *)
Definition sdevio_allowed (k : kstate) (caller : Z) (m : message) (d va : Z) : Prop :=
  (sdevio_safe m = false ∧ d = caller ∧ va = u32 (DIO_VEC_ADDR m)) ∨
  ∃ owner n, isokendpt k owner = Some d ∧ (n ≤ MAX_INDIRECT_DEPTH)%nat ∧
    permits k n (DIO_VEC_ENDPT m) (p_endpoint (proctab k caller)) (i32 (DIO_VEC_ADDR m))
      (mk_access (if Z.land (DIO_REQUEST m) DIO_DIRMASK =? DIO_INPUT then CPF_WRITE else CPF_READ) (u32 (DIO_OFFSET m)) (u32 (DIO_VEC_SIZE m)))
      va owner.

Lemma sdevio_target_allowed k caller n m d va :
  grants_fit k → isokendpt k (p_endpoint (proctab k caller)) = Some caller → has_pt k caller →
  owners_alive k (DIO_VEC_ENDPT m) (p_endpoint (proctab k caller)) →
  sdevio_target k caller n m = inr (d, va) → has_pt k d ∧ 0 ≤ va < 2 ^ 32 ∧ sdevio_allowed k caller m d va.
Proof.
  intros Hfit Hself Hpt Hal. unfold sdevio_target, sdevio_allowed. destruct (sdevio_safe m) eqn:Hs.
  - destruct (verify_grant _ _ _ _ _ _ _) as [r|[a o]] eqn:Hv; [done|]. destruct (isokendpt k o) as [n'|] eqn:Ho; [|done]. intros [= <- <-].
    destruct (Hal _ _ _ _ _ _ Hv) as (n1 & Hn & Hp). assert (n' = n1) as -> by congruence. split; [done|].
    split; [by eapply verify_addr|]. right. exists o.
    apply (verify_from_exact k Hfit _ _ _ (u32_range _) (u32_range _)) in Hv as (j & Hj & Hperm). eauto.
  - apply isokendpt_Some in Hself as (_ & _ & _ & ->). destruct (Z.eqb_spec n caller) as [->|]; [|done]. intros [= <- <-].
    split; [done|]. split; [apply u32_range|]. by left.
Qed.

(** The transfer, between the two switches. *)
Lemma sdevio_did_switched caller m e va s k1 s2 :
  proctab k1 = proctab (dkern s) → privtab k1 = privtab (dkern s) → sdevio_did caller m e va (s <| dkern := k1 |>) s2 →
  sdevio_did caller m e va s (s2 <| dkern := dkern s |>).
Proof.
  intros Hp Hv [[_ (l & Hl & Hf)] Hm]. split; [|exact Hm]. split; [done|]. exists l. split; [exact Hl|].
  eapply Forall_impl; [exact Hf|]. intros ev. unfold may_access, io_checked, priv_of, priv_id. cbn. by rewrite Hp, Hv.
Qed.
Lemma sdevio_switched device caller d va m s :
  spaces_ok (dkern s) caller → has_pt (dkern s) d → 0 ≤ va < 2 ^ 32 → ports_fit (dkern s) caller →
  or_fault (dcall (switch_address_space d);; r ← sdevio_transfer device caller va m; dcall (switch_address_space caller);; mret r)
    (λ _, sdevio_did caller m (p_endpoint (proctab (dkern s) d)) va s) s.
Proof.
  intros Hs Hd Hva Hfit. destruct (switch_there _ _ d Hs (pt_dir _ _ Hd)) as (k1 & H1 & Hl & Hp & Hv & Hback).
  apply returns_bind. unfold returns_or at 1, dcall at 1. rewrite H1. apply returns_bind.
  eapply returns_mono; [apply sdevio_transfer_spec; [done|]|].
  { unfold ports_fit, priv_of, priv_id in *. cbn. by rewrite Hp, Hv. }
  intros r s2 H2. apply returns_bind. unfold returns_or at 1, dcall at 1.
  assert (dkern s2 = k1) as Ek by apply H2. rewrite Ek, Hback. apply returns_wp, wp_ret.
  apply sdevio_did_switched in H2; [|done..]. unfold loaded_space in H2. cbn in H2. by rewrite Hl, Hp in H2.
Qed.

(** ** Properties *)


(** Driver 8 reads 4 bytes from the disk controller at 0x1F0 into memory that process 20 granted
    it. *)
Definition sdevio_grant : cp_grant := mk_cp_grant 0x1303 8 0x8000 64 0.
Definition sdevio_kern : kstate :=
  k0 <| proctab := upd (upd proc0
          8 (proc0 8 <| p_rts_flags := 0 |> <| p_priv := Some 0 |> <| p_cr3 := 0x1000 |>))
          20 (proc0 20 <| p_rts_flags := 0 |> <| p_priv := Some 1 |> <| p_cr3 := 0x3000 |>) |>
     <| privtab := upd (upd priv0 0 (priv0 0 <| s_flags := CHECK_IO_PORT |> <| s_io_tab := [(0x1F0, 0x1F7)] |>))
          1 (priv0 1 <| s_grant_table := 0x100 |> <| s_grant_entries := 1 |>) |>
     <| ugrant := λ n a, if (n =? 20) && (a =? 0x100) then Some sdevio_grant else None |>
     <| ptproc := 8 |> <| cpu_cr ::= λ r, r <| cr3 := 0x1000 |> |>.
Definition sdevio_demo (present : bool) : dstate :=
  mk_dstate sdevio_kern [] (λ _, 0) (λ _ _, if present then Some 0 else None) (λ _ _, true).
Definition sdevio_msg : message := mk_message 8 0 [0; 20; DIO_INPUT + DIO_WORD + DIO_SAFE; 0x1F0; 4; 0].
Lemma sdevio_owners : owners_alive sdevio_kern 20 8.
Proof.
  intros id bytes access offset addr owner. unfold verify_grant. cbn [verify_loop MAX_INDIRECT_DEPTH].
  destruct (grant_entry sdevio_kern 20 id) as [r|g] eqn:E; [done|]. assert (g = sdevio_grant) as ->.
  { revert E. unfold grant_entry. change (isokendpt sdevio_kern 20) with (Some 20). cbv iota.
    change (ugrant sdevio_kern 20) with (λ a, if a =? 0x100 then Some sdevio_grant else None). cbv beta. repeat case_match; try done. congruence. }
  change (has (cp_flags sdevio_grant) CPF_INDIRECT) with false. cbv iota beta. unfold check_access. destruct (negb _); [done|].
  change (has (cp_flags sdevio_grant) CPF_DIRECT) with true. cbv iota. repeat case_match; try done. intros [= _ <-]. exists 20. split; [done|by constructor].
Qed.
Lemma sdevio_spaces : spaces_ok sdevio_kern 8.
Proof.
  split; [done|done|done|]. intros n n'. unfold sdevio_kern. cbn. unfold upd. repeat case_decide; subst; cbn; try done; intros; lia.
Qed.
Lemma sdevio_grants_fit : grants_fit sdevio_kern.
Proof. intros n a g. cbn. destruct (_ && _); [intros [= <-]; cbn; lia|done]. Qed.
Example sdevio_reads :
  or_fault (do_sdevio echo_device 8 sdevio_msg)
    (λ r s', r = OK ∧ io_log s' = [Inp 2 0x1F0 0x1F1; Inp 2 0x1F0 0x1F0] ∧
       ubyte s' 20 0x8000 = Some 0xF0 ∧ ubyte s' 20 0x8002 = Some 0xF1 ∧ ubyte s' 20 0x8004 = Some 0 ∧ ptproc (dkern s') = 8) (sdevio_demo true).
Proof. vm_compute. done. Qed.

(** A granted page that is not there stops the machine: nothing asks VM for it. *)
Theorem sdevio_missing_page_stops_machine :
  do_sdevio echo_device 8 sdevio_msg (sdevio_demo false) = Panic "pagefault in kernel".
Proof. vm_compute. reflexivity. Qed.

(** [do_readbios] copies from the BIOS areas only, as long as the end of the range does not wrap
    around. *)
Theorem readbios_exact offset len :
  0 ≤ offset → 0 < len → offset + len ≤ 2 ^ 32 →
  readbios_allowed offset len = true ↔
  offset + len - 1 ≤ BIOS_MEM_END ∨ BASE_MEM_TOP ≤ offset ∧ offset + len - 1 ≤ UPPER_MEM_END.
Proof.
  intros Ho Hl Hw. unfold readbios_allowed, SUBRANGE, VINRANGE. rewrite u32_id by lia.
  unfold BIOS_MEM_BEGIN, BIOS_MEM_END, BASE_MEM_TOP, UPPER_MEM_END. rewrite orb_true_iff, !andb_true_iff, !Z.leb_le. lia.
Qed.
Lemma readbios_exact_witness : readbios_allowed 0xF0000 0x10000 = true ∧ readbios_allowed 0x80000 0x20000 = false.
Proof.
  split; [apply readbios_exact|apply not_true_is_false; rewrite readbios_exact];
    unfold BIOS_MEM_END, BASE_MEM_TOP, UPPER_MEM_END; lia.
Defined.
(** If it does, nearly all of physical memory is allowed. *)
Theorem readbios_wraps : readbios_allowed 0xF0000 0xFFFFFFFF = true.
Proof. reflexivity. Qed.
