(* ===== verification/KContext.v ===== *)
(** * The registers of a process: exec, signal handlers, tracing

    do_exec.c, do_sigsend.c, do_sigreturn.c, do_trace.c, and arch_proc_reset, arch_proc_init and
    arch_proc_setcontext of arch_system.c and memory.c.  [gstate] adds to the kernel state the
    memory of processes by slot and address, as bytes and as the structures that kernel calls
    read and write there, and which ranges are mapped.  The FPU context is left out; the code
    that do_sigsend derives from it is a parameter, as is the layout of the process and
    privilege structures behind the registers. *)
From S2P Require Import Prelude LinkedList Kernel Endpoint Sched IpcInv Notify HMem WorkingSet HShared VirtCopy Dwc Signals Fork KPriv.

Definition MF_CONTEXT_SET : Z := 0x4000.
Definition INIT_PSW : Z := 0x0200.
Definition INIT_TASK_PSW : Z := 0x1200.
Definition X86_FLAGS_USER : Z := 0xCD5.
Definition USER_CS_SELECTOR : Z := 0x1B.
Definition USER_DS_SELECTOR : Z := 0x23.
Definition FROM_EXEC : Z := 0x10.
Definition SIZEOF_SIGMSG : Z := 20.
Definition SIZEOF_SIGFRAME : Z := 28.
Definition SIZEOF_SIGCONTEXT : Z := 588.
Definition SIZEOF_LONG : Z := 4.
Definition SIZEOF_STACKFRAME : Z := 64.

Record sigmsg := mk_sigmsg {
  sm_signo : Z;
  sm_mask : Z;
  sm_sighandler : Z;
  sm_sigreturn : Z;
}.
Record sigcontext := mk_sigcontext {
  trap_style : Z;
  sc_flags : Z;
  sc_mask : Z;
  sc_regs : stackframe;
}.
Record sigframe := mk_sigframe {
  sf_retadr : Z;
  sf_signo : Z;
  sf_code : Z;
  sf_scp : Z;
  sf_fp : Z;
  sf_retadr2 : Z;
  sf_scpcopy : Z;
}.

(** Elements of the vectors of do_vumap; [vv_u] is a grant or an address. *)
Record vumap_vir := mk_vumap_vir {
  vv_u : Z;
  vv_size : Z;
}.
Record vumap_phys := mk_vumap_phys {
  vp_addr : Z;
  vp_size : Z;
}.

Record gstate := mk_gstate {
  gkern : kstate;
  usigmsg : Z → Z → sigmsg;
  usigcontext : Z → Z → sigcontext;
  usigframe : Z → Z → sigframe;
  umem : Z → Z → Z;              (* bytes *)
  uvumap : Z → Z → vumap_vir;
  uvumapped : Z → Z → vumap_phys;
  umapped : Z → Z → Z → bool;    (* process, address, length *)
}.
#[export] Instance settable_gstate : Settable gstate := λ r,
  mk_gstate (gkern r) (usigmsg r) (usigcontext r) (usigframe r) (umem r) (uvumap r) (uvumapped r) (umapped r).
Definition GK (A : Type) : Type := M gstate A.
Definition gcall {A} (m : K A) : GK A := λ s,
  match m (gkern s) with
  | Ret (a, k) => Ret (a, s <| gkern := k |>)
  | Panic e => Panic e
  end.

(** A copy between the kernel and the memory of [rp]: [virtual_copy_f] with one side in the
    kernel.  [act] moves the data; a page that is not there suspends the caller, if there is
    one. *)
Definition user_copy (caller : option Z) (rp addr len : Z) (to_user : bool) (act : GK unit) : GK Z :=
  r ← gcall (check_resumed_caller caller);
  if negb (r =? OK) then mret r
  else
    gcall (assert_ (λ k, usable k (Some rp) && not_inhibited k (Some rp)) "RTS_VMINHIBIT");;
    ok ← gets (λ s, umapped s rp addr len);
    if ok : bool then
      act;;
      (if to_user then
         h ← gets (λ s, hardened (gkern s) rp);
         if h : bool then gcall (add_hme_event rp addr len);; mret () else mret ()
       else mret ());;
      mret OK
    else
      match caller with
      | None => mret (if to_user then EFAULT_DST else EFAULT_SRC)
      | Some c => gcall (vm_suspend c rp addr len VMSTYPE_KERNELCALL);; mret VMSUSPEND
      end.

(** ** arch_system.c *)

Definition merge_psw (new old : Z) : Z := Z.lor (Z.land new X86_FLAGS_USER) (Z.land old (Z.lnot X86_FLAGS_USER)).

Definition arch_proc_setcontext (p : Z) (state : stackframe) (isuser : bool) (style : Z) : K unit :=
  old ← gets (λ k, psw (p_reg (proctab k p)));
  let state := if isuser then state <| psw ::= λ x, merge_psw x old |> else state in
  modify_proc p (λ q, q <| p_reg := state |> <| p_misc_flags ::= set_flag MF_CONTEXT_SET |> <| p_kern_trap_style := style |>).

Definition no_regs : stackframe := mk_stackframe 0 0 0 0 0 0 0 0 0 0 0 0 0 0 0 0 0 0.
(** The selectors that are set first are overwritten with the rest of the registers. *)
Definition arch_proc_reset (p : Z) : K unit :=
  nr ← gets (λ k, p_nr (proctab k p));
  assert_ (λ _, nr <? NR_PROCS) "pr->p_nr < NR_PROCS";;
  let reg := no_regs <| psw := if iskerneln nr then INIT_TASK_PSW else INIT_PSW |> in
  modify_proc p (λ q, q <| p_reg ::= λ r, r <| cs := USER_CS_SELECTOR |> <| gs := USER_DS_SELECTOR |> <| fs := USER_DS_SELECTOR |>
    <| ss := USER_DS_SELECTOR |> <| es := USER_DS_SELECTOR |> <| ds := USER_DS_SELECTOR |> |>);;
  arch_proc_setcontext p reg false KTS_FULLCONTEXT.
Definition arch_proc_init (p ip stack : Z) : K unit :=
  arch_proc_reset p;;
  modify_proc p (λ q, q <| p_reg ::= λ r, r <| pc := ip |> <| sp := stack |> |>).

(** ** do_exec.c; the name of the program is left out *)

Definition PR_STACK_PTR : message → Z := m_word 3.
Definition PR_IP_PTR : message → Z := m_word 5.

Definition do_exec (m : message) : K Z :=
  ok ← gets (λ k, isokendpt k (PR_ENDPT m));
  match ok with
  | None => mret EINVAL
  | Some rp =>
      modify_proc rp (λ p, p <| p_misc_flags ::= clear_flag MF_DELIVERMSG |>);;
      hard ← gets (λ k, has (p_hflags (hp k rp)) PROC_TO_HARD);
      (if hard : bool then free_pram_mem_blocks rp FROM_EXEC else mret ());;
      arch_proc_init rp (u32 (PR_IP_PTR m)) (u32 (PR_STACK_PTR m));;
      RTS_UNSET rp RTS_RECEIVING;;
      modify_proc rp (λ p, p <| p_misc_flags ::= clear_flag MF_FPU_INITIALIZED |>);;
      mret OK
  end.

(** ** do_sigsend.c *)

Definition SIG_CTXT_PTR : message → Z := m_word 5.

Section sigsend.
Context (fpu_code : Z).

(** Where the two structures go on the stack. *)
Definition sigcontext_at (stack : Z) : Z := u32 (stack - SIZEOF_SIGCONTEXT).
Definition sigframe_at (stack : Z) : Z := u32 (sigcontext_at stack - SIZEOF_SIGFRAME).

Definition sigsend_frame (caller rp : Z) (smsg : sigmsg) (scp frp : Z) : GK Z :=
  regs ← gets (λ s, p_reg (proctab (gkern s) rp));
  let fr := mk_sigframe (sm_sigreturn smsg) (sm_signo smsg) fpu_code scp (fp regs) (pc regs) scp in
  gcall (modify_proc rp (λ p, p <| p_reg ::= λ r, r <| fp := u32 (frp + 16) |> |>));;
  r ← user_copy (Some caller) rp frp SIZEOF_SIGFRAME true
        (modify (λ s, s <| usigframe ::= λ t, upd t rp (upd (t rp) frp fr) |>));
  if negb (r =? OK) then mret r
  else
    gcall (modify_proc rp (λ p, p <| p_reg ::= λ r, r <| sp := frp |> <| pc := sm_sighandler smsg |> |>
                                  <| p_misc_flags ::= clear_flag MF_FPU_INITIALIZED |>));;
    mret OK.

Definition do_sigsend (caller : Z) (m : message) : GK Z :=
  ok ← gets (λ s, isokendpt (gkern s) (SIG_ENDPT m));
  match ok with
  | None => mret EINVAL
  | Some rp =>
      if iskerneln rp then mret EPERM
      else
        r ← user_copy (Some caller) caller (SIG_CTXT_PTR m) SIZEOF_SIGMSG false (mret ());
        if negb (r =? OK) then mret r
        else
          smsg ← gets (λ s, usigmsg s caller (SIG_CTXT_PTR m));
          p ← gets (λ s, proctab (gkern s) rp);
          let scp := sigcontext_at (sp (p_reg p)) in
          let sc := mk_sigcontext (p_kern_trap_style p) (Z.land (p_misc_flags p) MF_FPU_INITIALIZED) (sm_mask smsg) (p_reg p) in
          if p_kern_trap_style p =? KTS_NONE then mret EINVAL
          else
            r ← user_copy (Some caller) rp scp SIZEOF_SIGCONTEXT true
                  (modify (λ s, s <| usigcontext ::= λ t, upd t rp (upd (t rp) scp sc) |>));
            if negb (r =? OK) then mret r
            else sigsend_frame caller rp smsg scp (u32 (scp - SIZEOF_SIGFRAME))
  end.
End sigsend.

(** ** do_sigreturn.c *)

Definition keep_selectors (r old : stackframe) : stackframe :=
  r <| cs := cs old |> <| ds := ds old |> <| es := es old |> <| ss := ss old |> <| fs := fs old |> <| gs := gs old |>.

Definition do_sigreturn (m : message) : GK Z :=
  ok ← gets (λ s, isokendpt (gkern s) (SIG_ENDPT m));
  match ok with
  | None => mret EINVAL
  | Some rp =>
      if iskerneln rp then mret EPERM
      else
        r ← user_copy None rp (SIG_CTXT_PTR m) SIZEOF_SIGCONTEXT false (mret ());
        if negb (r =? OK) then mret r
        else
          sc ← gets (λ s, usigcontext s rp (SIG_CTXT_PTR m));
          old ← gets (λ s, p_reg (proctab (gkern s) rp));
          let regs := keep_selectors (sc_regs sc <| psw ::= λ x, merge_psw x (psw old) |>) old in
          gcall (arch_proc_setcontext rp regs true (trap_style sc));;
          (if has (sc_flags sc) MF_FPU_INITIALIZED
           then gcall (modify_proc rp (λ p, p <| p_misc_flags ::= set_flag MF_FPU_INITIALIZED |>))
           else mret ());;
          mret OK
  end.

(** ** do_trace.c *)

Definition T_STOP : Z := -1.
Definition T_GETINS : Z := 1.
Definition T_GETDATA : Z := 2.
Definition T_GETUSER : Z := 3.
Definition T_SETINS : Z := 4.
Definition T_SETDATA : Z := 5.
Definition T_SETUSER : Z := 6.
Definition T_RESUME : Z := 7.
Definition T_STEP : Z := 9.
Definition T_SYSCALL : Z := 10.
Definition T_DETACH : Z := 12.
Definition T_READB_INS : Z := 100.
Definition T_WRITEB_INS : Z := 101.
Definition CTL_ADDRESS : message → Z := m_word 3.
Definition CTL_DATA : message → Z := m_word 4.

(** The words of [struct stackframe_s]; the first four registers are 16-bit. *)
Definition reg_get (off : Z) (r : stackframe) : Z :=
  match off with
  | 0 => gs r + 65536 * fs r | 4 => es r + 65536 * ds r | 8 => di r | 12 => si r | 16 => fp r | 20 => st r | 24 => bx r
  | 28 => dx r | 32 => cx r | 36 => retreg r | 40 => retadr r | 44 => pc r | 48 => cs r | 52 => psw r | 56 => sp r | _ => ss r
  end.
Definition reg_set (off v : Z) (r : stackframe) : stackframe :=
  match off with
  | 0 => r <| gs := v mod 65536 |> <| fs := v / 65536 |> | 4 => r <| es := v mod 65536 |> <| ds := v / 65536 |>
  | 8 => r <| di := v |> | 12 => r <| si := v |> | 16 => r <| fp := v |> | 20 => r <| st := v |> | 24 => r <| bx := v |>
  | 28 => r <| dx := v |> | 32 => r <| cx := v |> | 36 => r <| retreg := v |> | 40 => r <| retadr := v |> | 44 => r <| pc := v |>
  | 48 => r <| cs := v |> | 52 => r <| psw := v |> | 56 => r <| sp := v |> | _ => r <| ss := v |>
  end.
(** The offsets of gs, fs, es, ds, cs and ss. *)
Definition selector_offsets : list Z := [0; 2; 4; 6; 48; 60].
Definition PSW_OFFSET : Z := 52.
Definition SETPSW (new : Z) (r : stackframe) : stackframe :=
  r <| psw ::= λ old, Z.lor (Z.land old (Z.lnot 0xCD5)) (Z.land new 0xCD5) |>.

(** Words of user memory. *)
Definition mem_word (t : Z → Z) (a : Z) : Z := t a + 256 * (t (a + 1) + 256 * (t (a + 2) + 256 * t (a + 3))).
Definition set_mem_word (v a : Z) (t : Z → Z) : Z → Z :=
  upd (upd (upd (upd t a (v mod 256)) (a + 1) (v / 2 ^ 8 mod 256)) (a + 2) (v / 2 ^ 16 mod 256)) (a + 3) (v / 2 ^ 24 mod 256).

Section trace.
Context (sizeof_proc sizeof_priv : Z) (proc_word : proc → Z → Z) (priv_word : priv → Z → Z).

Definition trace_getuser (rp addr : Z) : GK (option Z) :=
  k ← gets gkern;
  if negb (Z.land addr (SIZEOF_LONG - 1) =? 0) then mret None
  else if addr <=? sizeof_proc - SIZEOF_LONG then
    mret (Some (if addr <? SIZEOF_STACKFRAME then reg_get addr (p_reg (proctab k rp)) else proc_word (proctab k rp) addr))
  else
    let addr := u32 (addr - Z.land (sizeof_proc + 3) (Z.lnot 3)) in
    if sizeof_priv - SIZEOF_LONG <? addr then mret None
    else mret (Some (priv_word (priv_of k rp) addr)).

Definition trace_setuser (rp addr data : Z) : GK bool :=
  if negb (Z.land addr (SIZEOF_LONG - 1) =? 0) || (SIZEOF_STACKFRAME - SIZEOF_LONG <? addr) then mret false
  else if bool_decide (addr ∈ selector_offsets) then mret false
  else
    gcall (modify_proc rp (λ p, p <| p_reg ::= if addr =? PSW_OFFSET then SETPSW data else reg_set addr (u32 data) |>));;
    mret true.

(** COPYFROMPROC and COPYTOPROC of [n] bytes. *)
Definition trace_peek (caller rp addr n : Z) : GK (Z * Z) :=
  r ← user_copy (Some caller) rp addr n false (mret ());
  v ← gets (λ s, if n =? 1 then umem s rp addr else mem_word (umem s rp) addr);
  mret (r, v).
Definition trace_poke (caller rp addr n v : Z) : GK Z :=
  user_copy (Some caller) rp addr n true
    (modify (λ s, s <| umem ::= λ t, upd t rp (if n =? 1 then upd (t rp) addr (Z.land v 0xff) else set_mem_word v addr (t rp)) |>)).

Definition trace_request (caller rp : Z) (m : message) : GK (Z * message) :=
  let req := CTL_REQUEST m in
  let addr := u32 (CTL_ADDRESS m) in
  let data := CTL_DATA m in
  let done_ := mret (OK, set_m_word 4 0 m) in
  if req =? T_STOP then
    gcall (RTS_SET rp RTS_P_STOP);;
    gcall (modify_proc rp (λ p, p <| p_misc_flags ::= clear_flag (MF_SC_TRACE + MF_STEP) |>));;
    mret (OK, m)
  else if (req =? T_GETINS) || (req =? T_GETDATA) then
    rv ← trace_peek caller rp addr SIZEOF_LONG;
    if negb (rv.1 =? OK) then mret (rv.1, m) else mret (OK, set_m_word 4 (i32 rv.2) m)
  else if req =? T_GETUSER then
    v ← trace_getuser rp addr;
    match v with None => mret (EFAULT, m) | Some v => mret (OK, set_m_word 4 (i32 v) m) end
  else if (req =? T_SETINS) || (req =? T_SETDATA) then
    r ← trace_poke caller rp addr SIZEOF_LONG data;
    if negb (r =? OK) then mret (r, m) else done_
  else if req =? T_SETUSER then
    ok ← trace_setuser rp addr data;
    if negb ok then mret (EFAULT, m) else done_
  else if (req =? T_DETACH) || (req =? T_RESUME) then
    (if req =? T_DETACH then gcall (modify_proc rp (λ p, p <| p_misc_flags ::= clear_flag MF_SC_ACTIVE |>)) else mret ());;
    gcall (RTS_UNSET rp RTS_P_STOP);; done_
  else if req =? T_STEP then
    gcall (modify_proc rp (λ p, p <| p_misc_flags ::= set_flag MF_STEP |>));;
    gcall (RTS_UNSET rp RTS_P_STOP);; done_
  else if req =? T_SYSCALL then
    gcall (modify_proc rp (λ p, p <| p_misc_flags ::= set_flag MF_SC_TRACE |>));;
    gcall (RTS_UNSET rp RTS_P_STOP);; done_
  else if req =? T_READB_INS then
    rv ← trace_peek caller rp addr 1;
    if negb (rv.1 =? OK) then mret (rv.1, m) else mret (OK, set_m_word 4 rv.2 m)
  else if req =? T_WRITEB_INS then
    r ← trace_poke caller rp addr 1 data;
    if negb (r =? OK) then mret (r, m) else done_
  else mret (EINVAL, m).

Definition do_trace (caller : Z) (m : message) : GK (Z * message) :=
  ok ← gets (λ s, isokendpt (gkern s) (CTL_ENDPT m));
  match ok with
  | None => mret (EINVAL, m)
  | Some rp =>
      if iskerneln rp then mret (EPERM, m)
      else
        empty ← gets (λ s, isemptyp (gkern s) rp);
        if empty : bool then mret (EINVAL, m) else trace_request caller rp m
  end.
End trace.
