(* ===== verification/KContextThm.v ===== *)
(** * What can happen to the registers of a process

    [Kept]: kernel code that leaves the registers of all processes alone, found by instance
    resolution over the structure of the code; then the safety of the calls that write
    registers on behalf of others, and that a signal handler's process goes on as before. *)
From S2P Require Import Prelude LinkedList Kernel Endpoint Sched IpcInv Notify HMem WorkingSet HShared VirtCopy Dwc Signals Fork KPriv KContext.

(** ** Code that keeps the registers *)

(** All registers of a process apart from ebx, in which the status of a receive is returned. *)
Definition regs_of (k : kstate) (n : Z) : stackframe := p_reg (proctab k n) <| bx := 0 |>.

Class Kept {A} (m : K A) : Prop :=
  kept k : match m k with Ret (_, k') => ∀ n, regs_of k' n = regs_of k n | Panic _ => True end.
(** The same for functions on the state and on a process. *)
Class KeptFun (f : kstate → kstate) : Prop := kept_fun k n : regs_of (f k) n = regs_of k n.
Class KeptProc (f : proc → proc) : Prop := kept_proc p : p_reg (f p) <| bx := 0 |> = p_reg p <| bx := 0 |>.
#[global] Hint Extern 1 (KeptProc _) => (intros ?; reflexivity) : typeclass_instances.
#[global] Hint Extern 5 (KeptFun _) => (intros ? ?; reflexivity) : typeclass_instances.

#[export] Instance kept_ret {A} (a : A) : Kept (mret a).
Proof. done. Qed.
#[export] Instance kept_gets {A} (f : kstate → A) : Kept (gets f).
Proof. done. Qed.
#[export] Instance kept_panic {A} e : Kept (panic (A:=A) e).
Proof. done. Qed.
#[export] Instance kept_assert b e : Kept (assert_ b e).
Proof. intros k. unfold assert_. by destruct (b k). Qed.
#[export] Instance kept_bind {A B} (m : K A) (f : A → K B) : Kept m → (∀ a, Kept (f a)) → Kept (m ≫= f).
Proof.
  intros Hm Hf k. unfold mbind, M_bind. specialize (Hm k). destruct (m k) as [[a k1]|]; [|done].
  specialize (Hf a k1). destruct (f a k1) as [[b k2]|]; [|done]. intros n. by rewrite Hf.
Qed.
#[export] Instance kept_if {A} (b : bool) (m1 m2 : K A) : Kept m1 → Kept m2 → Kept (if b then m1 else m2).
Proof. by destruct b. Qed.
#[export] Instance kept_decide {A} (P : Prop) `{Decision P} (m1 m2 : K A) : Kept m1 → Kept m2 → Kept (if decide P then m1 else m2).
Proof. by case_decide. Qed.
#[export] Instance kept_option {A B} (o : option A) (m1 : A → K B) (m2 : K B) :
  (∀ a, Kept (m1 a)) → Kept m2 → Kept (match o with Some a => m1 a | None => m2 end).
Proof. by destruct o. Qed.
#[export] Instance kept_modify f : KeptFun f → Kept (modify f).
Proof. intros Hf k n. apply Hf. Qed.
#[export] Instance keptfun_upd_proc n f : KeptProc f → KeptFun (upd_proc n f).
Proof. intros Hf k m. unfold regs_of. rewrite proctab_upd_proc. case_decide; [subst; apply Hf|done]. Qed.
#[export] Instance kept_modify_proc n f : KeptProc f → Kept (modify_proc n f).
Proof. intros Hf. unfold modify_proc. apply _. Qed.
#[export] Instance kept_modify_priv i f : Kept (modify_priv i f).
Proof. by intros k n. Qed.
#[export] Instance keptfun_write_run_cell q c v : KeptFun (write_run_cell q c v).
Proof. destruct c; unfold write_run_cell, set_nextready; apply _. Qed.
#[export] Instance keptfun_nextready n v : KeptFun (set_nextready n v).
Proof. unfold set_nextready. apply _. Qed.
#[export] Instance kept_modify_hme b f : Kept (modify_hme b f).
Proof. by intros k n. Qed.
#[export] Instance keptproc_ipc_status m : KeptProc (IPC_STATUS_ADD_CALL m).
Proof. intros p. unfold IPC_STATUS_ADD_CALL, IPC_STATUS_ADD. by destruct (has _ _). Qed.

(** Prove [Kept] of a named function from its body. *)
Ltac kept_body f := unfold f; apply _.
#[export] Instance kept_dequeue rp : Kept (dequeue rp).
Proof. unfold dequeue, check_queue, modify_acct. apply _. Qed.
#[export] Instance kept_RTS_SET rp f : Kept (RTS_SET rp f).
Proof. kept_body RTS_SET. Qed.
#[export] Instance kept_enqueue rp : Kept (enqueue rp).
Proof. unfold enqueue, check_queue, link_tail, stamp_enter_queue, modify_acct. apply _. Qed.
#[export] Instance kept_RTS_UNSET rp f : Kept (RTS_UNSET rp f).
Proof. kept_body RTS_UNSET. Qed.
#[export] Instance kept_mini_notify c e : Kept (mini_notify c e).
Proof. unfold mini_notify, BuildNotifyMessage. apply _. Qed.
#[export] Instance kept_send_sig e sig : Kept (send_sig e sig).
Proof. kept_body send_sig. Qed.
#[export] Instance kept_vm_suspend c t a l ty : Kept (vm_suspend c t a l ty).
Proof. kept_body vm_suspend. Qed.
#[export] Instance kept_check_resumed c : Kept (check_resumed_caller c).
Proof. unfold check_resumed_caller. destruct c; apply _. Qed.
#[export] Instance kept_modify_hproc n f : Kept (modify_hproc n f).
Proof. kept_body modify_hproc. Qed.
#[export] Instance kept_get_hme : Kept get_hme.
Proof. kept_body get_hme. Qed.
#[export] Instance kept_add_hme_event p o n : Kept (add_hme_event p o n).
Proof. unfold add_hme_event. cbv zeta. apply _. Qed.

(** ** Selectors and system flags *)

(** The segment selectors and the flags that only the kernel may change. *)
Definition system_part (r : stackframe) : Z * Z * Z * Z * Z * Z * Z :=
  (cs r, ds r, es r, ss r, fs r, gs r, Z.land (psw r) (Z.lnot X86_FLAGS_USER)).
Definition confined (s s' : gstate) : Prop :=
  ∀ n, system_part (p_reg (proctab (gkern s') n)) = system_part (p_reg (proctab (gkern s) n)).
#[export] Instance confined_preorder : PreOrder confined.
Proof. split; [by intros s n|]. intros s1 s2 s3 H1 H2 n. by rewrite H2. Qed.

(** Whatever the outcome of [m], if it is not the end of the machine. *)
Definition on_return {A} (m : GK A) (Q : A → gstate → Prop) (s : gstate) : Prop :=
  match m s with Ret (a, s') => Q a s' | Panic _ => True end.
Lemma on_return_bind {A B} (m : GK A) (f : A → GK B) Q s : on_return m (λ a, on_return (f a) Q) s → on_return (m ≫= f) Q s.
Proof. unfold on_return, mbind, M_bind. by destruct (m s) as [[a s']|]. Qed.
Lemma on_return_mono {A} (m : GK A) (Q Q' : A → gstate → Prop) s : on_return m Q s → (∀ a s', Q a s' → Q' a s') → on_return m Q' s.
Proof. unfold on_return. destruct (m s) as [[a s']|]; auto. Qed.

Lemma on_return_wp {A} (m : GK A) Q s : wp m Q s → on_return m Q s.
Proof. unfold wp, on_return. by destruct (m s) as [[a s']|]. Qed.

Class Confines {A} (m : GK A) : Prop := confines s : on_return m (λ _, confined s) s.
#[export] Instance confines_ret {A} (a : A) : Confines (mret a).
Proof. by intros s n. Qed.
#[export] Instance confines_gets {A} (f : gstate → A) : Confines (gets f).
Proof. by intros s n. Qed.
#[export] Instance confines_bind {A B} (m : GK A) (f : A → GK B) : Confines m → (∀ a, Confines (f a)) → Confines (m ≫= f).
Proof.
  intros Hm Hf s. apply on_return_bind. eapply on_return_mono; [apply Hm|]. intros a s1 H1. cbn beta.
  eapply on_return_mono; [apply Hf|]. intros b s2 H2. etrans; [exact H1|exact H2].
Qed.
#[export] Instance confines_if {A} (b : bool) (m1 m2 : GK A) : Confines m1 → Confines m2 → Confines (if b then m1 else m2).
Proof. by destruct b. Qed.
#[export] Instance confines_option {A B} (o : option A) (m1 : A → GK B) (m2 : GK B) :
  (∀ a, Confines (m1 a)) → Confines m2 → Confines (match o with Some a => m1 a | None => m2 end).
Proof. by destruct o. Qed.
#[export] Instance confines_gcall {A} (m : K A) : Kept m → Confines (gcall m).
Proof.
  intros Hm s. unfold on_return, gcall. specialize (Hm (gkern s)). destruct (m (gkern s)) as [[a k]|]; [|done].
  intros n. exact (f_equal system_part (Hm n)).
Qed.
#[global] Hint Extern 2 (Confines (modify _)) => (intros ? ?; reflexivity) : typeclass_instances.

#[export] Instance confines_user_copy c rp a l (b : bool) act : Confines act → Confines (user_copy c rp a l b act).
Proof. intros H. unfold user_copy. destruct c; apply _. Qed.

(** Writes to the registers of a process that leave its system part alone. *)
Lemma confines_modify_proc n f :
  (∀ p, system_part (p_reg (f p)) = system_part (p_reg p)) → Confines (gcall (modify_proc n f)).
Proof.
  intros Hf s m. unfold modify_proc, modify, gkern. cbn. rewrite upd_case. case_decide; [subst; apply Hf|done].
Qed.
Lemma merge_psw_system x old : Z.land (merge_psw x old) (Z.lnot X86_FLAGS_USER) = Z.land old (Z.lnot X86_FLAGS_USER).
Proof.
  apply Z.bits_inj'. intros i Hi. unfold merge_psw. rewrite !Z.land_spec, Z.lor_spec, !Z.land_spec, Z.lnot_spec by done.
  destruct (Z.testbit X86_FLAGS_USER i), (Z.testbit old i), (Z.testbit x i); done.
Qed.
Lemma merge_psw_user x old : Z.land (merge_psw x old) X86_FLAGS_USER = Z.land x X86_FLAGS_USER.
Proof.
  apply Z.bits_inj'. intros i Hi. unfold merge_psw. rewrite !Z.land_spec, Z.lor_spec, !Z.land_spec, Z.lnot_spec by done.
  destruct (Z.testbit X86_FLAGS_USER i), (Z.testbit old i), (Z.testbit x i); done.
Qed.
Lemma SETPSW_system v r : system_part (SETPSW v r) = system_part r.
Proof.
  unfold system_part, SETPSW. cbn. f_equal. change 0xCD5 with X86_FLAGS_USER. rewrite Z.lor_comm. apply merge_psw_system.
Qed.
Lemma reg_set_system off v r :
  off ∉ selector_offsets → off ≠ PSW_OFFSET → 0 ≤ off ≤ 60 → off mod 4 = 0 → system_part (reg_set off v r) = system_part r.
Proof.
  intros Hs Hp Hr Ha.
  assert (off ∈ ((λ i, 4 * i) <$> seqZ 0 16)) as Hin.
  { apply list_elem_of_fmap. exists (off / 4). rewrite elem_of_seqZ. Z.to_euclidean_division_equations. lia. }
  revert Hs Hp. unfold selector_offsets, PSW_OFFSET. cbn in Hin.
  repeat (apply elem_of_cons in Hin as [->|Hin]; [intros Hs Hp; try done; exfalso; apply Hs || apply Hp; set_solver|]). by apply elem_of_nil in Hin.
Qed.
#[export] Instance confines_setuser rp a d : Confines (trace_setuser rp (u32 a) d).
Proof.
  unfold trace_setuser. destruct (negb _ || _) eqn:H; [apply _|]. apply orb_false_iff in H as [Ha Hr]. case_bool_decide as H0; [apply _|].
  apply confines_bind; [|apply _]. apply confines_modify_proc. intros p. cbn [p_reg set settable_proc].
  destruct (Z.eqb_spec (u32 a) PSW_OFFSET) as [|Hp]; [apply SETPSW_system|].
  apply negb_false_iff, Z.eqb_eq in Ha. change (SIZEOF_LONG - 1) with (Z.ones 2) in Ha. rewrite Z.land_ones in Ha by done.
  apply reg_set_system; [done|done| |done].
  unfold SIZEOF_STACKFRAME, SIZEOF_LONG in Hr. assert (0 ≤ u32 a) by (unfold u32; apply Z.mod_pos_bound; lia). lia.
Qed.

Lemma confines_setcontext rp regs style s :
  system_part (regs <| psw := 0 |>) = system_part (p_reg (proctab (gkern s) rp) <| psw := 0 |>) →
  on_return (gcall (arch_proc_setcontext rp regs true style)) (λ _, confined s) s.
Proof.
  intros Hsel n. unfold arch_proc_setcontext, modify_proc. cbn. rewrite upd_case. case_decide; [subst n|done].
  unfold system_part in *. cbn in *. rewrite merge_psw_system. by injection Hsel as -> -> -> -> -> ->.
Qed.

Lemma confines_sigreturn m : Confines (do_sigreturn m).
Proof.
  intros s. unfold do_sigreturn. apply on_return_bind. cbn beta. unfold on_return at 1, gets.
  destruct (isokendpt (gkern s) (SIG_ENDPT m)) as [rp|]; [|by intros n]. case_bool; [by intros n|].
  apply on_return_bind. eapply on_return_mono; [apply confines_user_copy, confines_ret|]. intros r s1 H1. cbn beta.
  case_bool; [exact H1|]. apply on_return_bind. unfold on_return at 1, gets. apply on_return_bind. unfold on_return at 1, gets.
  apply on_return_bind. eapply on_return_mono; [by apply confines_setcontext|]. intros [] s2 H2. cbn beta.
  eapply on_return_mono; [apply confines_bind; apply _|]. intros r' s3 H3. etrans; [exact H1|]. etrans; [exact H2|exact H3].
Qed.
Lemma confines_sigsend code caller m : Confines (do_sigsend code caller m).
Proof.
  unfold do_sigsend, sigsend_frame. cbv zeta.
  assert (∀ n f, (∀ p, system_part (p_reg (f p)) = system_part (p_reg p)) → Confines (gcall (modify_proc n f))) as Hf by apply confines_modify_proc.
  repeat first [apply Hf; intros p; reflexivity | apply confines_bind; [|intros ?] | apply confines_if | apply confines_option; [intros ?|] | apply _].
Qed.

#[export] Instance confines_getuser szp szv pw vw rp a : Confines (trace_getuser szp szv pw vw rp a).
Proof. kept_body trace_getuser. Qed.
#[export] Instance confines_peek c rp a n : Confines (trace_peek c rp a n).
Proof. kept_body trace_peek. Qed.
#[export] Instance confines_poke c rp a n v : Confines (trace_poke c rp a n v).
Proof. kept_body trace_poke. Qed.
#[export] Instance confines_trace_request szp szv pw vw c rp m : Confines (trace_request szp szv pw vw c rp m).
Proof. unfold trace_request. cbv zeta. repeat (apply confines_if; [apply _|]). apply _. Qed.

(** C32. Nobody gains privileges through the registers.  Whatever is asked of sys_trace,
    sys_sigreturn and sys_sigsend, with whatever data from the memory of the traced
    or signalled process, the segment selectors of every process and the flags that only the kernel may
    set (the I/O privilege level and the interrupt flag among them) stay as they were. *)
Theorem registers_stay_confined szp szv pw vw code caller m s :
  on_return (do_trace szp szv pw vw caller m) (λ _ s', confined s s') s ∧
  on_return (do_sigreturn m) (λ _ s', confined s s') s ∧
  on_return (do_sigsend code caller m) (λ _ s', confined s s') s.
Proof.
  split; [|split; [apply confines_sigreturn|apply confines_sigsend]].
  enough (Confines (do_trace szp szv pw vw caller m)) as H by exact (H s). kept_body do_trace.
Qed.

(** ** A signal handler leaves no trace *)

Lemma wp_gcall {A} (m : K A) (Q : A → gstate → Prop) s : wp m (λ a k, Q a (s <| gkern := k |>)) (gkern s) → wp (gcall m) Q s.
Proof. unfold wp, gcall. by destruct (m (gkern s)) as [[a k]|]. Qed.

(** [rp] can be copied to and from by the kernel, on behalf of a process that is not resumed. *)
Record copy_ok (s : gstate) (caller : option Z) (rp : Z) : Prop := {
  co_fresh c : caller = Some c → has (p_misc_flags (proctab (gkern s) c)) MF_KCALL_RESUME = false;
  co_usable : usable (gkern s) (Some rp) && not_inhibited (gkern s) (Some rp) = true;
}.
(** The checks at the start of a copy pass. *)
Lemma copy_ok_resumed s caller rp : copy_ok s caller rp → wp (gcall (check_resumed_caller caller)) (λ r s', r = OK ∧ s' = s) s.
Proof.
  intros [Hf _]. apply wp_gcall. unfold check_resumed_caller. destruct caller as [c|].
  - apply wp_bind, wp_gets. rewrite (Hf c) by done. apply wp_ret. by destruct s.
  - apply wp_ret. by destruct s.
Qed.
Lemma copy_ok_usable s caller rp e :
  copy_ok s caller rp → wp (gcall (assert_ (λ k, usable k (Some rp) && not_inhibited k (Some rp)) e)) (λ _ s', s' = s) s.
Proof. intros [_ Hu]. apply wp_gcall, wp_assert; [done|]. by destruct s. Qed.
Lemma user_copy_ok caller rp a l (b : bool) act (Q : Z → gstate → Prop) s :
  copy_ok s caller rp → umapped s rp a l = true →
  wp act (λ _ s', (b = true → hardened (gkern s') rp = false) ∧ Q OK s') s → wp (user_copy caller rp a l b act) Q s.
Proof.
  intros Hc Hm Ha. unfold user_copy. apply wp_bind. eapply wp_mono; [by eapply copy_ok_resumed|]. intros r s1 [-> ->].
  change (negb (OK =? OK)) with false. cbv iota. apply wp_bind. eapply wp_mono; [by eapply copy_ok_usable|]. intros [] s1 ->.
  apply wp_bind, wp_gets. rewrite Hm. apply wp_bind.
  eapply wp_mono; [exact Ha|]. intros [] s' [Hh HQ]. apply wp_bind. destruct b; [|by apply wp_ret, wp_ret].
  apply wp_bind, wp_gets. rewrite Hh by done. by apply wp_ret, wp_ret.
Qed.

(** A signal can be delivered to [rp]. *)
Record sig_ready (s : gstate) (caller rp : Z) (m : message) : Prop := {
  sr_endpt : isokendpt (gkern s) (SIG_ENDPT m) = Some rp;
  sr_user : iskerneln rp = false;
  sr_caller : copy_ok s (Some caller) caller;
  sr_target : copy_ok s (Some caller) rp;
  sr_msg : umapped s caller (SIG_CTXT_PTR m) SIZEOF_SIGMSG = true;
  sr_context : umapped s rp (sigcontext_at (sp (p_reg (proctab (gkern s) rp)))) SIZEOF_SIGCONTEXT = true;
  sr_frame : umapped s rp (sigframe_at (sp (p_reg (proctab (gkern s) rp)))) SIZEOF_SIGFRAME = true;
  sr_soft : hardened (gkern s) rp = false;
  sr_style : p_kern_trap_style (proctab (gkern s) rp) ≠ KTS_NONE;
}.

(** The state in which the handler starts. *)
Record handler_runs (s : gstate) (rp : Z) (smsg : sigmsg) (s' : gstate) : Prop := {
  hr_proc : proctab (gkern s') rp = proctab (gkern s) rp
    <| p_reg ::= λ r, r <| fp := u32 (sigframe_at (sp r) + 16) |> <| sp := sigframe_at (sp r) |> <| pc := sm_sighandler smsg |> |>
    <| p_misc_flags ::= clear_flag MF_FPU_INITIALIZED |>;
  hr_context : usigcontext s' rp (sigcontext_at (sp (p_reg (proctab (gkern s) rp)))) =
    mk_sigcontext (p_kern_trap_style (proctab (gkern s) rp)) (Z.land (p_misc_flags (proctab (gkern s) rp)) MF_FPU_INITIALIZED)
      (sm_mask smsg) (p_reg (proctab (gkern s) rp));
  hr_mapped : umapped s' = umapped s;
}.

Lemma copy_ok_upd s caller rp n f s' :
  gkern s' = upd_proc n f (gkern s) → (∀ p, p_misc_flags (f p) = p_misc_flags p) → (∀ p, p_rts_flags (f p) = p_rts_flags p) →
  copy_ok s caller rp → copy_ok s' caller rp.
Proof.
  intros Ek Hm Hr [H1 H2]. split.
  - intros c Hc. rewrite Ek, proctab_upd_proc. case_decide; [subst; rewrite Hm|]; by apply H1.
  - rewrite <-H2, Ek. unfold usable, not_inhibited, RTS_ISSET. rewrite !proctab_upd_proc. by case_decide; [subst; rewrite Hr|].
Qed.

Lemma do_sigsend_spec code caller rp m s :
  sig_ready s caller rp m →
  wp (do_sigsend code caller m) (λ r s', r = OK ∧ handler_runs s rp (usigmsg s caller (SIG_CTXT_PTR m)) s') s.
Proof.
  intros [He Hu Hc Ht Hm Hx Hf Hs Hk]. unfold do_sigsend. apply wp_bind, wp_gets. rewrite He, Hu.
  apply wp_bind, user_copy_ok; [done|done|]. apply wp_ret. split; [done|]. change (negb (OK =? OK)) with false. cbv iota.
  apply wp_bind, wp_gets, wp_bind, wp_gets. rewrite (proj2 (Z.eqb_neq _ _)) by done.
  apply wp_bind, user_copy_ok; [done|done|]. apply wp_modify. split; [done|]. change (negb (OK =? OK)) with false. cbv iota.
  unfold sigsend_frame. apply wp_bind, wp_gets, wp_bind, wp_gcall. unfold modify_proc. apply wp_modify.
  apply wp_bind, user_copy_ok; [eapply (copy_ok_upd s); [reflexivity|done|done|exact Ht]|exact Hf|].
  apply wp_modify. split.
  { intros _. unfold hardened. cbn [gkern set settable_gstate]. rewrite proctab_upd_proc, decide_True by done. exact Hs. }
  change (negb (OK =? OK)) with false. cbv iota. apply wp_bind, wp_gcall, wp_modify, wp_ret. split; [done|]. split; [| |done].
  - cbn [gkern set settable_gstate]. by rewrite proctab_upd_proc, decide_True, proctab_upd_proc, decide_True by done.
  - cbn. by rewrite upd_eq, upd_eq.
Qed.

Lemma merge_psw_back x y : Z.land y (Z.lnot X86_FLAGS_USER) = Z.land x (Z.lnot X86_FLAGS_USER) → merge_psw x y = x.
Proof.
  intros H. apply Z.bits_inj'. intros i Hi. apply (f_equal (λ z, Z.testbit z i)) in H. unfold merge_psw.
  rewrite !Z.land_spec, !Z.lnot_spec in H by done. rewrite Z.lor_spec, !Z.land_spec, Z.lnot_spec by done.
  destruct (Z.testbit X86_FLAGS_USER i), (Z.testbit y i), (Z.testbit x i); done.
Qed.
Lemma regs_back x y : system_part y = system_part x →
  keep_selectors (x <| psw ::= λ z, merge_psw z (psw y) |>) y <| psw ::= λ z, merge_psw z (psw y) |> = x.
Proof.
  destruct x as [x1 x2 x3 x4 x5 x6 x7 x8 x9 x10 x11 x12 x13 x14 x15 x16 x17 x18].
  unfold system_part. cbn [cs ds es ss fs gs psw]. intros [= Hcs Hds Hes Hss Hfs Hgs Hpsw].
  transitivity (mk_stackframe (gs y) (fs y) (es y) (ds y) x5 x6 x7 x8 x9 x10 x11 x12 x13 x14 (cs y)
    (merge_psw (merge_psw x16 (psw y)) (psw y)) x17 (ss y)); [reflexivity|].
  by rewrite Hcs, Hds, Hes, Hss, Hfs, Hgs, !(merge_psw_back _ _ Hpsw).
Qed.

Lemma has_land_self x f : has (Z.land x f) f = has x f.
Proof. unfold has. by rewrite <-Z.land_assoc, Z.land_diag. Qed.


(** PM (slot 0) delivers a signal to process 20. *)
Definition sig_regs : stackframe := no_regs <| sp := 0x8000 |> <| pc := 0x1234 |> <| fp := 0x8100 |> <| cs := USER_CS_SELECTOR |> <| psw := 0x246 |>.
Definition sig_kern : kstate :=
  k0 <| proctab := upd (upd proc0
          0 (proc0 0 <| p_rts_flags := RTS_RECEIVING |> <| p_getfrom_e := ANY |> <| p_priv := Some 0 |>))
          20 (proc0 20 <| p_rts_flags := RTS_PROC_STOP |> <| p_priv := Some 1 |> <| p_reg := sig_regs |> <| p_kern_trap_style := KTS_INT_HARD |>) |>.
Definition sig_demo (style : Z) (frame : bool) : gstate :=
  mk_gstate sig_kern (λ _ _, mk_sigmsg 15 0 0x4000 0x5000) (λ _ _, mk_sigcontext style 0 0 no_regs)
    (λ _ _, mk_sigframe 0 0 0 0 0 0 0) (λ _ _, 0) (λ _ _, mk_vumap_vir 0 0) (λ _ _, mk_vumap_phys 0 0)
    (λ _ _ len, frame || negb (len =? SIZEOF_SIGFRAME)).
Definition sigsend_msg : message := mk_message 0 0 [20; 15; 0; 0; 0; 0x9000].
Definition sigreturn_msg (ptr : Z) : message := mk_message 0 0 [20; 0; 0; 0; 0; ptr].
Lemma sig_demo_ready : sig_ready (sig_demo 1 true) 0 20 sigsend_msg.
Proof. split; try (vm_compute; reflexivity || discriminate); split; try (vm_compute; reflexivity); by intros c [= <-]. Qed.

(** ** Two flaws *)

(** The way of returning to user mode is taken from the memory of the process: a process that
    returns from a handler it never entered, with a context of its own making, stops the
    machine. *)
Theorem sigreturn_stops_machine :
  (do_sigreturn (sigreturn_msg 0x9000);; gcall (restore_user_context 20)) (sig_demo KTS_NONE true) = Panic "no entry trap style known".
Proof. vm_compute. reflexivity. Qed.

(** When the frame of the handler is on a page that is not there, sys_sigsend is suspended and
    done again later; but the frame pointer of the process was overwritten, and the second
    attempt saves the wrong one. *)
Lemma user_copy_suspends c rp a l b act s :
  copy_ok s (Some c) rp → umapped s rp a l = false →
  on_return (user_copy (Some c) rp a l b act) (λ r s', r = VMSUSPEND ∧ ∀ n, regs_of (gkern s') n = regs_of (gkern s) n) s.
Proof.
  intros Hc Hm. unfold user_copy. apply on_return_bind. eapply on_return_mono; [by eapply on_return_wp, copy_ok_resumed|].
  intros r s1 [-> ->]. change (negb (OK =? OK)) with false. cbv iota. apply on_return_bind.
  eapply on_return_mono; [by eapply on_return_wp, copy_ok_usable|]. intros [] s1 ->. apply on_return_bind, on_return_wp, wp_gets. rewrite Hm.
  unfold on_return, mbind, M_bind, gcall. pose proof (kept_vm_suspend c rp a l VMSTYPE_KERNELCALL (gkern s)) as HK.
  by destruct (vm_suspend c rp a l VMSTYPE_KERNELCALL (gkern s)) as [[u k]|].
Qed.

Theorem sigsend_suspended_loses_fp code caller rp m s :
  isokendpt (gkern s) (SIG_ENDPT m) = Some rp → iskerneln rp = false → copy_ok s (Some caller) caller → copy_ok s (Some caller) rp →
  umapped s caller (SIG_CTXT_PTR m) SIZEOF_SIGMSG = true →
  umapped s rp (sigcontext_at (sp (p_reg (proctab (gkern s) rp)))) SIZEOF_SIGCONTEXT = true →
  umapped s rp (sigframe_at (sp (p_reg (proctab (gkern s) rp)))) SIZEOF_SIGFRAME = false →
  hardened (gkern s) rp = false → p_kern_trap_style (proctab (gkern s) rp) ≠ KTS_NONE →
  on_return (do_sigsend code caller m) (λ r s', r = VMSUSPEND ∧
    fp (p_reg (proctab (gkern s') rp)) = u32 (sigframe_at (sp (p_reg (proctab (gkern s) rp))) + 16)) s.
Proof.
  intros He Hu Hc Ht Hm Hx Hf Hs Hk. unfold do_sigsend. apply on_return_bind, on_return_wp, wp_gets. rewrite He, Hu.
  apply on_return_bind, on_return_wp, user_copy_ok; [done|done|]. apply wp_ret. split; [done|]. change (negb (OK =? OK)) with false. cbv iota.
  apply on_return_bind, on_return_wp, wp_gets, on_return_bind, on_return_wp, wp_gets. rewrite (proj2 (Z.eqb_neq _ _)) by done.
  apply on_return_bind, on_return_wp, user_copy_ok; [done|done|]. apply wp_modify. split; [done|].
  change (negb (OK =? OK)) with false. cbv iota. unfold sigsend_frame. apply on_return_bind, on_return_wp, wp_gets, on_return_bind, on_return_wp, wp_gcall.
  unfold modify_proc. apply wp_modify, on_return_bind. eapply on_return_mono.
  - apply user_copy_suspends; [eapply (copy_ok_upd s); [reflexivity|done|done|exact Ht]|exact Hf].
  - intros r s' [-> HK]. change (negb (VMSUSPEND =? OK)) with true. cbv iota. split; [done|].
    specialize (HK rp). apply (f_equal fp) in HK. etrans; [exact HK|]. unfold regs_of. cbn [gkern set settable_gstate].
    by rewrite proctab_upd_proc, decide_True by done.
Qed.
Lemma sigsend_suspended_loses_fp_witness :
  on_return (do_sigsend 0 0 sigsend_msg) (λ r s', r = VMSUSPEND ∧ fp (p_reg (proctab (gkern s') 20)) ≠ fp sig_regs) (sig_demo 1 false).
Proof.
  eapply on_return_mono.
  - apply (sigsend_suspended_loses_fp 0 0 20 sigsend_msg (sig_demo 1 false)); try (vm_compute; reflexivity || discriminate);
      split; try (vm_compute; reflexivity); intros c [= <-]; vm_compute; reflexivity.
  - intros r s' [H1 H2]. split; [exact H1|]. rewrite H2. vm_compute. discriminate.
Defined.
