(* ===== verification/KUmap.v ===== *)
(** * Copies and physical addresses on request

    do_copy.c, do_memset.c, do_umap.c, do_umap_remote.c, do_vumap.c and do_statectl.c of
    kernel/system/.  [vm_running] is a parameter of the translation calls: a global variable
    that is cleared at boot. *)
From S2P Require Import Prelude LinkedList Kernel Endpoint Sched IpcInv Notify HMem WorkingSet HShared VirtCopy VmReq Grants System KPriv KContext KContextThm.

(** Messages of type 5 start with two short integers. *)
Definition UMAP_SEG : message → Z := m_word 0.
Definition CP_SRC_ENDPT : message → Z := m_word 1.
Definition CP_DST_ENDPT : message → Z := m_word 2.
Definition CP_SRC_ADDR : message → Z := m_word 3.
Definition CP_DST_ADDR : message → Z := m_word 4.
Definition CP_NR_BYTES : message → Z := m_word 5.
Definition MEM_PROCESS : message → Z := m_word 0.
Definition MEM_COUNT : message → Z := m_word 3.
Definition MEM_PATTERN : message → Z := m_word 4.
Definition MEM_PTR : message → Z := m_word 5.
Definition VUMAP_ENDPT : message → Z := m_word 0.
Definition VUMAP_VCOUNT : message → Z := m_word 1.
Definition VUMAP_ACCESS : message → Z := m_word 2.
Definition VUMAP_PMAX : message → Z := m_word 3.
Definition VUMAP_VADDR : message → Z := m_word 4.
Definition VUMAP_OFFSET : message → Z := m_word 5.
Definition VUMAP_PADDR : message → Z := m_word 6.
Definition SEGMENT_TYPE : Z := 0xFF00.
Definition SEGMENT_INDEX : Z := 0x00FF.
Definition LOCAL_VM_SEG : Z := 0x1000.
Definition MEM_GRANT : Z := 3.
Definition VIR_ADDR : Z := 1.
Definition MAPVEC_NR : Z := 64.
Definition VUA_READ : Z := 1.
Definition VUA_WRITE : Z := 2.
Definition SIZEOF_VUMAP_VIR : Z := 8.
Definition SIZEOF_VUMAP_PHYS : Z := 8.
Definition SYS_STATE_CLEAR_IPC_REFS : Z := 1.

(** ** do_copy.c, do_memset.c, do_statectl.c *)

Section copies.
Context (freepdes : list Z).
Context (phys_copy : Z → Z → Z → K Z) (phys_memset : Z → Z → Z → K Z).

(** SELF is the caller; NONE, for physical memory, is not checked. *)
Definition copy_endpoint (caller e : Z) : K (option Z) :=
  self ← gets (λ k, p_endpoint (proctab k caller));
  let e := if e =? SELF then self else e in
  ok ← gets (λ k, isokendpt k e);
  mret (if (e =? NONE) || bool_decide (is_Some ok) then Some e else None).

Definition do_copy (caller : Z) (m : message) : K Z :=
  src ← copy_endpoint caller (CP_SRC_ENDPT m);
  match src with
  | None => mret EINVAL
  | Some src =>
      dst ← copy_endpoint caller (CP_DST_ENDPT m);
      match dst with
      | None => mret EINVAL
      | Some dst =>
          virtual_copy_vmcheck freepdes phys_copy caller src (u32 (CP_SRC_ADDR m)) dst (u32 (CP_DST_ADDR m)) (u32 (CP_NR_BYTES m))
      end
  end.

Definition do_memset (caller : Z) (m : message) : K Z :=
  vm_memset freepdes phys_memset caller (MEM_PROCESS m) (u32 (MEM_PTR m)) (MEM_PATTERN m) (u32 (MEM_COUNT m));;
  mret OK.
End copies.

Definition do_statectl (caller : Z) (m : message) : K Z :=
  if CTL_REQUEST m =? SYS_STATE_CLEAR_IPC_REFS then clear_ipc_refs caller EDEADSRCDST;; mret OK
  else mret EINVAL.

(** ** do_umap.c, do_umap_remote.c *)

Section umap.
Context (vm_running : bool).

(** The process and the address in it that the call is about, or an error. *)
Definition umap_target (k : kstate) (targetpr grantee seg_index offset count : Z) : Z + (Z * Z) :=
  if seg_index =? MEM_GRANT then
    match verify_grant k (p_endpoint (proctab k targetpr)) grantee (i32 offset) (u32 count) 0 0 with
    | inl _ => inl EFAULT
    | inr (newoffset, newep) =>
        match isokendpt k newep with
        | None => inl EFAULT
        | Some n => inr (n, newoffset)
        end
    end
  else if seg_index =? VIR_ADDR then inr (targetpr, offset)
  else inl EFAULT.

Definition umap_lookup (targetpr lin_addr count : Z) (m : message) : K (Z * message) :=
  if lin_addr =? 0 then mret (EFAULT, m)
  else
    r ← vm_lookup targetpr lin_addr;
    match r with
    | None => mret (EFAULT, m)
    | Some (phys_addr, _) =>
        if phys_addr =? 0 then panic "vm_lookup returned zero physical address"
        else
          whole ← (if vm_running then l ← vm_lookup_range targetpr lin_addr (u32 count); mret (l.1 =? u32 count)
                   else mret true);
          if negb whole then mret (EFAULT, m) else mret (OK, set_m_word 4 (i32 phys_addr) m)
    end.

Definition do_umap_remote (caller : Z) (m : message) : K (Z * message) :=
  let seg_type := Z.land (UMAP_SEG m) SEGMENT_TYPE in
  let seg_index := Z.land (UMAP_SEG m) SEGMENT_INDEX in
  self ← gets (λ k, p_endpoint (proctab k caller));
  proc_nr ← (if CP_SRC_ENDPT m =? SELF then n ← okendpt self; mret (Some n) else gets (λ k, isokendpt k (CP_SRC_ENDPT m)));
  match proc_nr with
  | None => mret (EINVAL, m)
  | Some targetpr =>
      let grantee := CP_DST_ENDPT m in
      ok ← gets (λ k, isokendpt k grantee);
      if negb (grantee =? SELF) &&
         ((grantee =? NONE) || (grantee =? ANY) || negb (seg_index =? MEM_GRANT) || negb (bool_decide (is_Some ok)))
      then mret (EINVAL, m)
      else
        let grantee := if grantee =? SELF then self else grantee in
        if negb (seg_type =? LOCAL_VM_SEG) then mret (EINVAL, m)
        else
          t ← gets (λ k, umap_target k targetpr grantee seg_index (u32 (CP_SRC_ADDR m)) (CP_NR_BYTES m));
          match t with
          | inl r => mret (r, m)
          | inr (targetpr, lin_addr) => umap_lookup targetpr lin_addr (CP_NR_BYTES m) m
          end
  end.

Definition do_umap (caller : Z) (m : message) : K (Z * message) :=
  let seg_index := Z.land (UMAP_SEG m) SEGMENT_INDEX in
  if negb (seg_index =? MEM_GRANT) && negb (CP_SRC_ENDPT m =? SELF) then mret (EPERM, m)
  else do_umap_remote caller (set_m_word 2 SELF m).
End umap.

(** ** do_vumap.c *)

Definition vumap_access (access : Z) : option Z :=
  if access =? VUA_READ then Some CPF_READ
  else if access =? VUA_WRITE then Some CPF_WRITE
  else if access =? Z.lor VUA_READ VUA_WRITE then Some (Z.lor CPF_READ CPF_WRITE)
  else None.

(** [while (size > 0 && pcount < pmax)]: the physical ranges behind a virtual one, as long as
    there are [slots] left for them; [inl] is an early return. *)
Fixpoint vumap_range (slots : nat) (caller procp access vir_addr size : Z) : GK (Z + list vumap_phys) :=
  match slots with
  | O => mret (inr [])
  | S slots' =>
      if negb (0 <? size) then mret (inr [])
      else
        c ← gcall (vm_lookup_range procp vir_addr size);
        if c.1 =? 0 then
          if has access CPF_READ then mret (inl EFAULT)
          else r ← gcall (vm_check_range caller procp vir_addr size); mret (inl r)
        else
          rest ← vumap_range slots' caller procp access (u32 (vir_addr + c.1)) (size - c.1);
          mret (match rest with inl r => inl r | inr l => inr (mk_vumap_phys c.2 c.1 :: l) end)
  end.

(** The virtual range that an element of the vector names: its address and its owner. *)
Definition vumap_source (k : kstate) (endpt source access offset : Z) (v : vumap_vir) : Z + (Z * Z) :=
  if negb (source =? SELF) then verify_grant k source endpt (i32 (vv_u v)) (vv_size v - offset) access offset
  else inr (u32 (vv_u v + offset), endpt).

Fixpoint vumap_loop (vvec : list vumap_vir) (slots : nat) (caller endpt source access offset : Z) : GK (Z + list vumap_phys) :=
  match vvec with
  | [] => mret (inr [])
  | v :: vvec' =>
      if (slots =? 0)%nat then mret (inr [])
      else if vv_size v <=? offset then mret (inl EINVAL)
      else
        g ← gets (λ s, vumap_source (gkern s) endpt source access offset v);
        match g with
        | inl r => mret (inl r)
        | inr (vir_addr, granter) =>
            procp ← gcall (okendpt granter);
            l ← vumap_range slots caller procp access vir_addr (vv_size v - offset);
            match l with
            | inl r => mret (inl r)
            | inr l =>
                rest ← vumap_loop vvec' (slots - length l) caller endpt source access 0;
                mret (match rest with inl r => inl r | inr l' => inr (l ++ l') end)
            end
        end
  end.

(** The vectors in the memory of the caller. *)
Definition read_vvec (s : gstate) (n vaddr vcount : Z) : list vumap_vir :=
  (λ i, uvumap s n (u32 (vaddr + SIZEOF_VUMAP_VIR * i))) <$> seqZ 0 vcount.
Fixpoint write_pvec (l : list vumap_phys) (a : Z) (t : Z → vumap_phys) : Z → vumap_phys :=
  match l with
  | [] => t
  | x :: l' => write_pvec l' (u32 (a + SIZEOF_VUMAP_PHYS)) (upd t a x)
  end.

(** What follows the loops. *)
Definition vumap_reply (caller : Z) (m : message) (pvec : list vumap_phys) : GK (Z * message) :=
  let pcount := Z.of_nat (length pvec) in
  let paddr := u32 (VUMAP_PADDR m) in
  gcall (assert_ (λ _, 0 <? pcount) "pcount > 0");;
  r ← user_copy (Some caller) caller paddr (pcount * SIZEOF_VUMAP_PHYS) true
        (modify (λ s, s <| uvumapped ::= λ t, upd t caller (write_pvec pvec paddr (t caller)) |>));
  mret (r, if r =? OK then set_m_word 0 pcount m else m).

Definition do_vumap (caller : Z) (m : message) : GK (Z * message) :=
  endpt ← gets (λ s, p_endpoint (proctab (gkern s) caller));
  if (VUMAP_VCOUNT m <=? 0) || (VUMAP_PMAX m <=? 0) then mret (EINVAL, m)
  else
    let vcount := Z.min (VUMAP_VCOUNT m) MAPVEC_NR in
    let pmax := Z.min (VUMAP_PMAX m) MAPVEC_NR in
    match vumap_access (VUMAP_ACCESS m) with
    | None => mret (EINVAL, m)
    | Some access =>
        let vaddr := u32 (VUMAP_VADDR m) in
        r ← user_copy None caller vaddr (vcount * SIZEOF_VUMAP_VIR) false (mret ());
        if negb (r =? OK) then mret (EFAULT, m)
        else
          vvec ← gets (λ s, read_vvec s caller vaddr vcount);
          l ← vumap_loop vvec (Z.to_nat pmax) caller endpt (VUMAP_ENDPT m) access (u32 (VUMAP_OFFSET m));
          match l with
          | inl r => mret (r, m)
          | inr pvec => vumap_reply caller m pvec
          end
    end.

(** ** What the vector of physical ranges means *)

(** A range of virtual addresses of a process. *)
Record vrange := mk_vrange { vr_proc : Z; vr_addr : Z; vr_size : Z }.

(** The bytes that a list of ranges stands for, in order. *)
Definition vbytes (x : vrange) : list (Z * Z) := (λ i, (vr_proc x, u32 (vr_addr x + i))) <$> seqZ 0 (vr_size x).
Definition pbytes (x : vumap_phys) : list Z := (λ i, u32 (vp_addr x + i)) <$> seqZ 0 (vp_size x).
Definition range_bytes (l : list vrange) : list (Z * Z) := flat_map vbytes l.
Definition phys_bytes (l : list vumap_phys) : list Z := flat_map pbytes l.

(** The physical ranges [pv] are what the first bytes of [V] are mapped to, byte by byte: all
    of them, unless [pv] has [slots] elements. *)
Record translates (k : kstate) (slots : nat) (V : list (Z * Z)) (pv : list vumap_phys) : Prop := {
  tr_slots : (length pv ≤ slots)%nat;
  tr_prefix : ∃ V1 V2, V = V1 ++ V2 ∧ Forall2 (λ v p, maps k v.1 v.2 p) V1 (phys_bytes pv) ∧ (V2 = [] ∨ length pv = slots);
}.

(** The range that an element [v] of the input vector names: memory of the caller, or memory
    that a grant allows the caller to access. *)
Definition names_range (k : kstate) (caller source access offset : Z) (v : vumap_vir) (x : vrange) : Prop :=
  vr_size x = vv_size v - offset ∧ 0 < vr_size x ∧
  ∃ owner, isokendpt k owner = Some (vr_proc x) ∧
    if source =? SELF then vr_proc x = caller ∧ vr_addr x = u32 (vv_u v + offset)
    else ∃ n, (n ≤ MAX_INDIRECT_DEPTH)%nat ∧
      permits k n source (p_endpoint (proctab k caller)) (i32 (vv_u v)) (mk_access access offset (vr_size x)) (vr_addr x) owner.
(** [xs] are the first ranges of the vector; the offset applies to the first one. *)
Inductive requested (k : kstate) (caller source access : Z) : Z → list vumap_vir → list vrange → Prop :=
| requested_none offset vvec : requested k caller source access offset vvec []
| requested_next offset v vvec x xs :
    names_range k caller source access offset v x → requested k caller source access 0 vvec xs →
    requested k caller source access offset (v :: vvec) (x :: xs).

Lemma vbytes_split n va size c :
  0 ≤ c ≤ size → vbytes (mk_vrange n va size) = vbytes (mk_vrange n va c) ++ vbytes (mk_vrange n (u32 (va + c)) (size - c)).
Proof.
  intros Hc. unfold vbytes; cbn [vr_proc vr_addr vr_size]. replace (seqZ 0 size) with (seqZ 0 c ++ seqZ (0 + c) (size - c)).
  - rewrite fmap_app. f_equal. rewrite (Z.add_comm 0 c), <-fmap_add_seqZ. rewrite <-list_fmap_compose.
    apply list_fmap_ext. intros i j _. cbn. f_equal. rewrite u32_add. f_equal. lia.
  - replace size with (c + (size - c)) at 2 by lia. by rewrite seqZ_app by lia.
Qed.
Lemma contiguous_bytes k n va p c : contiguous k n va p c → Forall2 (λ v q, maps k v.1 v.2 q) (vbytes (mk_vrange n va c)) (pbytes (mk_vumap_phys p c)).
Proof.
  intros H. unfold vbytes, pbytes. rewrite Forall2_fmap. apply Forall_Forall2_diag, Forall_forall. intros i Hi%elem_of_seqZ. apply H. cbn in Hi. lia.
Qed.
Lemma translates_nil k V slots : (slots = 0)%nat ∨ V = [] → translates k slots V [].
Proof. intros H. split; [cbn; lia|]. exists [], V. split_and!; [done|constructor|]. cbn. destruct H as [->| ->]; auto. Qed.
Lemma translates_cons k slots n va size p c pv :
  contiguous k n va p c → 0 ≤ c ≤ size → translates k slots (vbytes (mk_vrange n (u32 (va + c)) (size - c))) pv →
  translates k (S slots) (vbytes (mk_vrange n va size)) (mk_vumap_phys p c :: pv).
Proof.
  intros Hc Hs [Hl (V1 & V2 & HV & HF & He)]. split; [cbn; lia|]. exists (vbytes (mk_vrange n va c) ++ V1), V2. split_and!.
  - rewrite (vbytes_split n va size c), HV by done. by rewrite app_assoc.
  - cbn [phys_bytes flat_map]. apply Forall2_app; [by apply contiguous_bytes|done].
  - cbn. destruct He; auto.
Qed.
(** A range of the vector that is translated, and the rest of the vector. *)
Lemma translates_app k slots V W l1 l2 :
  translates k slots V l1 → translates k (slots - length l1) W l2 → translates k slots (V ++ W) (l1 ++ l2).
Proof.
  intros [Hl (V1 & V2 & -> & HF & He)] [Hl' (W1 & W2 & -> & HF' & He')]. split; [rewrite length_app; lia|].
  unfold phys_bytes. rewrite flat_map_app, length_app. destruct He as [-> | He].
  - rewrite app_nil_r. exists (V1 ++ W1), W2. split_and!; [by rewrite app_assoc|by apply Forall2_app|]. destruct He'; [auto|right; lia].
  - assert (l2 = []) as -> by (destruct l2; [done|cbn in *; lia]). cbn. rewrite app_nil_r. exists V1, (V2 ++ W1 ++ W2).
    split_and!; [by rewrite <-app_assoc|done|right; lia].
Qed.

(** ** The loops *)

Lemma gcall_run {A} (c : K A) s a : c (gkern s) = Ret (a, gkern s) → gcall c s = Ret (a, s).
Proof. unfold gcall. intros ->. by destruct s. Qed.
Lemma grun_bind {A B} (c : GK A) (g : A → GK B) s a s' : c s = Ret (a, s') → (c ≫= g) s = g a s'.
Proof. unfold mbind, M_bind. by intros ->. Qed.

(** A missing page ends the call: with EFAULT if it is to be read, with a request to VM
    otherwise. *)
Definition page_missing (access caller n va size : Z) : GK (Z + list vumap_phys) :=
  if has access CPF_READ then mret (inl EFAULT) else r ← gcall (vm_check_range caller n va size); mret (inl r).
(** What follows is skipped. *)
Lemma page_missing_return access caller n va size (g : Z + list vumap_phys → GK (Z + list vumap_phys)) (c : GK (Z + list vumap_phys)) s :
  c s = page_missing access caller n va size s → (∀ r, g (inl r) = mret (inl r)) → (c ≫= g) s = page_missing access caller n va size s.
Proof.
  intros Hc Hg. unfold mbind, M_bind. rewrite Hc. unfold page_missing. destruct (has access CPF_READ); [exact (f_equal (λ c, c s) (Hg EFAULT))|]. unfold mbind, M_bind.
  destruct (gcall _ s) as [[r s']|]; [exact (f_equal (λ c, c s') (Hg r))|done].
Qed.

Lemma vumap_range_spec slots caller n access va size s :
  has_pt (gkern s) n → 0 ≤ va < 2 ^ 32 → 0 ≤ size ≤ 2 ^ 32 - I386_PAGE_SIZE →
  (∃ l, vumap_range slots caller n access va size s = Ret (inr l, s) ∧
     translates (gkern s) slots (vbytes (mk_vrange n va size)) l ∧ ((0 < slots)%nat → 0 < size → l ≠ [])) ∨
  (∃ d, 0 ≤ d < size ∧ (∀ p, ¬ maps (gkern s) n (u32 (va + d)) p) ∧
     vumap_range slots caller n access va size s = page_missing access caller n (u32 (va + d)) (size - d) s).
Proof.
  intros Hpt. revert va size. induction slots as [|slots IH]; intros va size Hva Hsz.
  { left. exists []. split; [done|]. split; [by apply translates_nil; left|lia]. }
  cbn [vumap_range]. destruct (Z.ltb_spec 0 size) as [H0|H0]; cbn [negb].
  2: { left. exists []. split; [done|]. split; [|lia]. apply translates_nil. right. by replace size with 0 by lia. }
  destruct (vm_lookup_range_spec _ n va size Hpt Hva ltac:(lia)) as (len & p & Hrun & Hl & Hm & Hz & Hc & _).
  rewrite (grun_bind _ _ _ _ _ (gcall_run _ _ _ Hrun)). cbn [fst snd]. destruct (Z.eqb_spec len 0) as [->|Hne].
  { right. exists 0. rewrite Z.add_0_r, Z.sub_0_r, (u32_id va) by lia. split; [lia|]. split; [by apply Hz|done]. }
  destruct (IH (u32 (va + len)) (size - len) (u32_range _) ltac:(lia)) as [(l & Hr & Ht & _) | (d & Hd & Hn & Hr)].
  - left. rewrite (grun_bind _ _ _ _ _ Hr). eexists. split; [done|]. split; [|done]. apply translates_cons; [done|lia|done].
  - right. exists (len + d). rewrite u32_add, <-Z.add_assoc in Hn. split; [lia|]. split; [exact Hn|].
    rewrite u32_add, <-Z.add_assoc, <-Z.sub_add_distr in Hr. by apply page_missing_return.
Qed.

(** The elements of a vector are words, and no range is longer than the address space. *)
Definition sizes_fit (vvec : list vumap_vir) : Prop := Forall (λ v, 0 ≤ vv_size v ≤ 2 ^ 32 - I386_PAGE_SIZE) vvec.

Section vumap.
Context (caller source access : Z) (s : gstate).
#[local] Notation kst := (gkern s).
#[local] Notation endpt := (p_endpoint (proctab kst caller)).
Context (Hfit : grants_fit kst) (Hself : isokendpt kst endpt = Some caller) (Hpt : has_pt kst caller).
Context (Halive : owners_alive kst source endpt).

Lemma gcall_okendpt e n : isokendpt kst e = Some n → gcall (okendpt e) s = Ret (n, s).
Proof using Type. intros H. by apply gcall_run, okendpt_run. Qed.

(** An element that is accepted names a range of a process that is alive. *)
Lemma vumap_source_ok offset v addr owner :
  0 ≤ offset < vv_size v → 0 ≤ vv_size v ≤ 2 ^ 32 - I386_PAGE_SIZE → vumap_source kst endpt source access offset v = inr (addr, owner) →
  ∃ n, isokendpt kst owner = Some n ∧ has_pt kst n ∧ 0 ≤ addr < 2 ^ 32 ∧
    names_range kst caller source access offset v (mk_vrange n addr (vv_size v - offset)).
Proof using Hfit Hself Hpt Halive.
  intros Ho Hs. unfold vumap_source, names_range. destruct (source =? SELF); cbn [negb vr_size vr_proc vr_addr].
  - intros [= <- <-]. exists caller. split_and!; [done|done|apply u32_range..|done|lia|]. by exists endpt.
  - intros Hv. destruct (Halive _ _ _ _ _ _ Hv) as (n & Hn & Hp). exists n.
    assert (0 ≤ offset < 2 ^ 32 ∧ 0 ≤ vv_size v - offset < 2 ^ 32) as [] by (unfold I386_PAGE_SIZE in *; lia).
    pose proof (verify_addr _ _ _ _ _ _ _ _ _ Hv). split_and!; [done|done|lia|lia|done|lia|]. exists owner. split; [done|].
    by apply (verify_from_exact kst Hfit access offset (vv_size v - offset)).
Qed.

(** The outcomes of the loop over the vector. *)
Inductive loop_outcome (slots : nat) (offset : Z) (vvec : list vumap_vir) : outcome ((Z + list vumap_phys) * gstate) → Prop :=
| loop_refused r : r < 0 → loop_outcome slots offset vvec (Ret (inl r, s))
| loop_missing xs x d :
    requested kst caller source access offset vvec (xs ++ [x]) → 0 ≤ d < vr_size x →
    (∀ p, ¬ maps kst (vr_proc x) (u32 (vr_addr x + d)) p) →
    loop_outcome slots offset vvec (page_missing access caller (vr_proc x) (u32 (vr_addr x + d)) (vr_size x - d) s)
| loop_done xs pv :
    requested kst caller source access offset vvec xs → (length xs = length vvec ∨ length pv = slots) →
    translates kst slots (range_bytes xs) pv → (vvec ≠ [] → (0 < slots)%nat → pv ≠ []) →
    loop_outcome slots offset vvec (Ret (inr pv, s)).

Lemma loop_outcome_cons slots offset v vvec x l (c : GK (Z + list vumap_phys)) :
  names_range kst caller source access offset v x → translates kst slots (vbytes x) l → l ≠ [] →
  loop_outcome (slots - length l) 0 vvec (c s) →
  loop_outcome slots offset (v :: vvec) ((rest ← c; mret (match rest with inl r => inl r | inr l' => inr (l ++ l') end)) s).
Proof using Type.
  intros Hx Ht Hl Ho. inversion Ho as [r Hr Ec|xs y d Hq Hd Hm Ec|xs pv Hq He Htr _ Ec]; symmetry in Ec.
  - rewrite (grun_bind _ _ _ _ _ Ec). by constructor.
  - rewrite (page_missing_return access caller (vr_proc y) (u32 (vr_addr y + d)) (vr_size y - d)) by done.
    apply (loop_missing _ _ _ (x :: xs)); [by constructor|done|done].
  - rewrite (grun_bind _ _ _ _ _ Ec). apply (loop_done _ _ _ (x :: xs)).
    + by constructor.
    + pose proof (tr_slots _ _ _ _ Ht). rewrite length_app. cbn. destruct He; [left|right]; lia.
    + by apply translates_app.
    + intros _ _. by destruct l.
Qed.

Lemma vumap_loop_spec vvec slots offset :
  sizes_fit vvec → 0 ≤ offset → loop_outcome slots offset vvec (vumap_loop vvec slots caller endpt source access offset s).
Proof using Hfit Hself Hpt Halive.
  intros Hsz. revert slots offset. induction Hsz as [|v vvec Hv Hsz IH]; intros slots offset Ho; cbn [vumap_loop].
  { apply (loop_done _ _ _ []); [constructor|by left|by apply translates_nil; right|done]. }
  destruct (Nat.eqb_spec slots 0) as [->|Hne].
  { apply (loop_done _ _ _ []); [constructor|by right|by apply translates_nil; left|lia]. }
  destruct (Z.leb_spec (vv_size v) offset); [by constructor|].
  rewrite (grun_bind (gets _) _ s _ _ eq_refl). destruct (vumap_source kst endpt source access offset v) as [r|[addr owner]] eqn:Hg.
  { constructor. revert Hg. unfold vumap_source. destruct (negb _); [apply verify_error_negative|done]. }
  destruct (vumap_source_ok offset v addr owner ltac:(lia) Hv Hg) as (n & Hn & Hp & Ha & Hx).
  rewrite (grun_bind _ _ _ _ _ (gcall_okendpt _ _ Hn)).
  destruct (vumap_range_spec slots caller n access addr (vv_size v - offset) s Hp Ha ltac:(lia)) as [(l & Hr & Ht & Hl) | (d & Hd & Hm & Hr)].
  - rewrite (grun_bind _ _ _ _ _ Hr). eapply loop_outcome_cons; [exact Hx|exact Ht|apply Hl; lia|]. apply IH. lia.
  - rewrite (page_missing_return _ _ _ _ _ _ _ _ Hr) by done.
    apply (loop_missing _ _ _ [] (mk_vrange n addr (vv_size v - offset))); [constructor; [done|constructor]|done|done].
Qed.
End vumap.

Lemma vector_read s caller a l :
  copy_ok s None caller →
  user_copy None caller a l false (mret ()) s = Ret (if umapped s caller a l then OK else EFAULT_SRC, s).
Proof.
  intros [_ Hu]. unfold user_copy. rewrite (grun_bind _ _ s OK s) by by apply gcall_run.
  change (negb (OK =? OK)) with false. cbv iota.
  rewrite (grun_bind _ _ s () s) by (apply gcall_run; unfold assert_; by rewrite Hu).
  rewrite (grun_bind (gets _) _ s _ _ eq_refl). by destruct (umapped s caller a l).
Qed.
(** The vector reaches the caller if its buffer is there. *)
Lemma vumap_reply_ok caller m pv s :
  pv ≠ [] → copy_ok s (Some caller) caller → hardened (gkern s) caller = false →
  umapped s caller (u32 (VUMAP_PADDR m)) (Z.of_nat (length pv) * SIZEOF_VUMAP_PHYS) = true →
  wp (vumap_reply caller m pv)
    (λ r s', r = (OK, set_m_word 0 (Z.of_nat (length pv)) m) ∧
       s' = s <| uvumapped ::= λ t, upd t caller (write_pvec pv (u32 (VUMAP_PADDR m)) (t caller)) |>) s.
Proof.
  intros Hp Hc Hh Hm. unfold vumap_reply. apply wp_bind, wp_gcall, wp_assert.
  { destruct pv; [done|]. apply Z.ltb_lt. cbn. lia. }
  apply wp_bind, user_copy_ok; [by destruct s|by destruct s|]. apply wp_modify. split; [by destruct s|].
  apply wp_ret. split; [done|by destruct s].
Qed.

Lemma write_only x access : vumap_access x = Some access → has access CPF_READ = false → access = CPF_WRITE.
Proof. unfold vumap_access. repeat case_match; intros [= <-]; done. Qed.

(** ** A single range *)

Lemma umap_lookup_spec vm_running n va count m k :
  has_pt k n → 0 ≤ va < 2 ^ 32 → ¬ maps k n va 0 → (vm_running = true → 0 < count < 2 ^ 31) →
  umap_lookup vm_running n va count m k = Ret ((EFAULT, m), k) ∨
  ∃ p, 0 < p < 2 ^ 32 ∧ maps k n va p ∧ (vm_running = true → contiguous k n va p count) ∧
    umap_lookup vm_running n va count m k = Ret ((OK, set_m_word 4 (i32 p) m), k).
Proof.
  intros Hpt Hva H0 Hc. unfold umap_lookup. destruct (va =? 0); [by left|].
  rewrite (run_bind _ _ _ _ _ (vm_lookup_run k n va Hpt Hva)). destruct (lookup_page k n va) as [[q e]|] eqn:Hq; [|by left].
  pose proof (lookup_page_range _ _ _ _ _ Hq). destruct (Z.eqb_spec q 0) as [->|Hne]; [by destruct H0; eexists|].
  assert (maps k n va q) as Hm by by eexists. destruct vm_running; [|right; exists q; by split_and!; [lia|lia|done|..]].
  specialize (Hc eq_refl). rewrite u32_id by lia.
  destruct (vm_lookup_range_spec k n va count Hpt Hva ltac:(unfold I386_PAGE_SIZE; lia)) as (len & p & Hrun & Hl & Hm' & _ & Hcont & _).
  assert ((l ← vm_lookup_range n va count; mret (l.1 =? count)) k = Ret (len =? count, k)) as Hw by by rewrite (run_bind _ _ _ _ _ Hrun).
  rewrite (run_bind _ _ _ _ _ Hw). destruct (Z.eqb_spec len count) as [->|]; [|by left].
  destruct (Hm' ltac:(lia)) as [e' He']. assert (p = q) as -> by congruence. right. exists q. by split_and!; [lia|lia|done|..].
Qed.

(** The memory that [do_umap] may be asked about: the caller's, or what a grant covers, for any mode. *)
Definition umap_allowed (k : kstate) (caller : Z) (m : message) (n va : Z) : Prop :=
  (CP_SRC_ENDPT m = SELF ∧ n = caller ∧ va = u32 (CP_SRC_ADDR m)) ∨
  ∃ granter owner d, isokendpt k owner = Some n ∧ (d ≤ MAX_INDIRECT_DEPTH)%nat ∧
    permits k d granter (p_endpoint (proctab k caller)) (i32 (u32 (CP_SRC_ADDR m))) (mk_access 0 0 (u32 (CP_NR_BYTES m))) va owner.

(** The target is allowed, and has page tables. *)
Lemma umap_target_allowed k caller m t index n va :
  grants_fit k → has_pt k caller → (∀ e, owners_alive k e (p_endpoint (proctab k caller))) →
  (index = MEM_GRANT ∨ CP_SRC_ENDPT m = SELF ∧ t = caller) →
  umap_target k t (p_endpoint (proctab k caller)) index (u32 (CP_SRC_ADDR m)) (CP_NR_BYTES m) = inr (n, va) →
  has_pt k n ∧ 0 ≤ va < 2 ^ 32 ∧ umap_allowed k caller m n va.
Proof.
  intros Hfit Hpt Hal Hidx. unfold umap_target. destruct (Z.eqb_spec index MEM_GRANT) as [_|Hi].
  - destruct (verify_grant _ _ _ _ _ _ _) as [r|[a o]] eqn:Hv; [done|]. destruct (isokendpt k o) as [n'|] eqn:Ho; [|done]. intros [= <- <-].
    destruct (Hal _ _ _ _ _ _ _ Hv) as (n & Hn & Hp). assert (n' = n) as -> by congruence. split; [done|].
    split; [by eapply verify_addr|]. right.
    apply (verify_from_exact k Hfit 0 0 (u32 (CP_NR_BYTES m)) ltac:(lia) (u32_range _)) in Hv as (d & Hd & Hperm). eauto 8.
  - destruct (index =? VIR_ADDR); [|done]. intros [= <- <-]. destruct Hidx as [|[Hs ->]]; [done|].
    split; [done|]. split; [apply u32_range|]. by left.
Qed.
Lemma umap_target_error k t g index a c r : umap_target k t g index a c = inl r → r = EFAULT.
Proof. unfold umap_target. repeat case_match; congruence. Qed.

(** ** Properties *)

(** [do_umap] tells a process physical addresses of its own memory and of memory that was
    granted to it only.  If the owners of granted memory have page tables and nothing is mapped
    to physical address 0, the call returns and the kernel's state is as before; when the result
    is OK the reply carries a physical address other than 0, which the address in question, one
    of the caller or the start of a range that a chain of grants lets the caller access in some
    mode, is mapped to; and had [vm_running] ever been set, the whole range would be mapped to
    consecutive physical addresses.  Any other result is negative. *)
Theorem do_umap_within vm_running caller m k :
  grants_fit k → isokendpt k (p_endpoint (proctab k caller)) = Some caller → has_pt k caller →
  (∀ e, owners_alive k e (p_endpoint (proctab k caller))) → (∀ n va, ¬ maps k n va 0) →
  (vm_running = true → 0 < CP_NR_BYTES m < 2 ^ 31) →
  ∃ r m', do_umap vm_running caller m k = Ret ((r, m'), k) ∧
    (r < 0 ∨ r = OK ∧ ∃ n va p, umap_allowed k caller m n va ∧ maps k n va p ∧ 0 < p < 2 ^ 32 ∧ CP_DST_ADDR m' = i32 p ∧
       (vm_running = true → contiguous k n va p (CP_NR_BYTES m))).
Proof.
  intros Hfit Hself Hpt Hal H0 Hc. unfold do_umap. set (idx := Z.land (UMAP_SEG m) SEGMENT_INDEX).
  destruct (negb (idx =? MEM_GRANT) && negb (CP_SRC_ENDPT m =? SELF)) eqn:Hgate; [eexists EPERM, _; by split; [|left]|].
  unfold do_umap_remote. rewrite run_gets.
  assert (∀ i, i ≠ 2%nat → m_word i (set_m_word 2 SELF m) = m_word i m) as Hw by (intros; by apply m_word_set_ne).
  unfold CP_SRC_ENDPT, CP_DST_ENDPT, UMAP_SEG, CP_SRC_ADDR, CP_NR_BYTES. rewrite !(Hw 0%nat), !(Hw 1%nat), !(Hw 3%nat), !(Hw 5%nat), m_word_set by done.
  fold (UMAP_SEG m) (CP_SRC_ENDPT m) (CP_SRC_ADDR m) (CP_NR_BYTES m). fold idx.
  match goal with |- context [mbind _ ?c] => assert (∃ t, c k = Ret (t, k) ∧ (CP_SRC_ENDPT m = SELF → t = Some caller)) as (t & Ht & Hts) end.
  { destruct (Z.eqb_spec (CP_SRC_ENDPT m) SELF) as [|]; [|by eexists]. exists (Some caller). split; [|done].
    unfold okendpt, isokendpt_f, mbind, M_bind, gets. by rewrite Hself. }
  rewrite (run_bind _ _ _ _ _ Ht). destruct t as [t|]; [|eexists EINVAL, _; by split; [|left]]. rewrite run_gets.
  change (negb (SELF =? SELF)) with false. change (SELF =? SELF) with true. cbn [andb]. cbv iota.
  destruct (negb (Z.land _ SEGMENT_TYPE =? _)); [eexists EINVAL, _; by split; [|left]|]. rewrite run_gets.
  destruct (umap_target _ _ _ _ _ _) as [r|[n va]] eqn:Htg.
  { apply umap_target_error in Htg as ->. eexists EFAULT, _. by split; [|left]. }
  apply umap_target_allowed in Htg as (Hn & Hva & Hall); [|done..|].
  2: { apply andb_false_iff in Hgate as [H|H]; apply negb_false_iff, Z.eqb_eq in H; [by left|right]. split; [done|]. by injection (Hts H). }
  destruct (umap_lookup_spec vm_running n va (CP_NR_BYTES m) (set_m_word 2 SELF m) k Hn Hva (H0 n va) Hc)
    as [Hr | (p & Hp & Hm & Hcont & Hr)]; rewrite Hr; eexists _, _; (split; [reflexivity|]); [by left|right].
  split; [done|]. exists n, va, p. split_and!; try done; [lia|lia|]. by apply m_word_set.
Qed.

(** C30. [do_vumap], which drivers use to set up DMA, translates exactly what it was asked to,
    and only memory of the caller or memory that a chain of grants permits the caller to access
    in the requested mode.  Provided the owners of the granted memory are alive, the call either
    refuses with a negative result and leaves the state as it was; or it finds a page missing
    that is only to be written, and is what [vm_check_range] makes of the rest of that range; or
    it answers with a non-empty vector of at most [pmax] physical ranges which are, byte by byte
    and in order, what the bytes of the ranges in the input vector are mapped to: of all of
    them, unless the output vector is full.  The vector and its length reach the caller if its
    buffer is mapped. *)
Theorem do_vumap_translates caller m s :
  let k := gkern s in
  let self := p_endpoint (proctab k caller) in
  let vvec := read_vvec s caller (u32 (VUMAP_VADDR m)) (Z.min (VUMAP_VCOUNT m) MAPVEC_NR) in
  let pmax := Z.to_nat (Z.min (VUMAP_PMAX m) MAPVEC_NR) in
  let source := VUMAP_ENDPT m in
  let offset := u32 (VUMAP_OFFSET m) in
  grants_fit k → isokendpt k self = Some caller → has_pt k caller → owners_alive k source self → sizes_fit vvec →
  copy_ok s None caller →
  (∃ r, r < 0 ∧ do_vumap caller m s = Ret ((r, m), s)) ∨
  (∃ xs x d, requested k caller source CPF_WRITE offset vvec (xs ++ [x]) ∧ 0 ≤ d < vr_size x ∧
     (∀ p, ¬ maps k (vr_proc x) (u32 (vr_addr x + d)) p) ∧
     do_vumap caller m s =
     (r ← gcall (vm_check_range caller (vr_proc x) (u32 (vr_addr x + d)) (vr_size x - d)); mret (r, m)) s) ∨
  (∃ access xs pv, vumap_access (VUMAP_ACCESS m) = Some access ∧ requested k caller source access offset vvec xs ∧
     translates k pmax (range_bytes xs) pv ∧ (length xs = length vvec ∨ length pv = pmax) ∧ pv ≠ [] ∧
     do_vumap caller m s = vumap_reply caller m pv s ∧
     (copy_ok s (Some caller) caller → hardened k caller = false →
      umapped s caller (u32 (VUMAP_PADDR m)) (Z.of_nat (length pv) * SIZEOF_VUMAP_PHYS) = true →
      wp (do_vumap caller m)
        (λ r s', r = (OK, set_m_word 0 (Z.of_nat (length pv)) m) ∧
           s' = s <| uvumapped ::= λ t, upd t caller (write_pvec pv (u32 (VUMAP_PADDR m)) (t caller)) |>) s)).
Proof.
  intros k self vvec pmax source offset Hfit Hself Hpt Hal Hsz Hco.
  remember (do_vumap caller m s) as run eqn:Hdef. pose proof Hdef as Hrun. unfold do_vumap in Hrun. rewrite (grun_bind (gets _) _ s _ _ eq_refl) in Hrun.
  destruct (Z.leb_spec (VUMAP_VCOUNT m) 0) as [|Hv]; [left; by exists EINVAL|].
  destruct (Z.leb_spec (VUMAP_PMAX m) 0) as [|Hp]; [left; by exists EINVAL|]. cbn [orb] in Hrun.
  destruct (vumap_access (VUMAP_ACCESS m)) as [access|] eqn:Hacc; [|left; by exists EINVAL].
  rewrite (grun_bind _ _ _ _ _ (vector_read _ _ _ _ Hco)) in Hrun.
  destruct (umapped s caller _ _); [|left; by exists EFAULT]. change (negb (OK =? OK)) with false in Hrun. cbv iota in Hrun.
  rewrite (grun_bind (gets _) _ s _ _ eq_refl) in Hrun.
  pose proof (vumap_loop_spec caller source access s Hfit Hself Hpt Hal vvec pmax offset Hsz ltac:(apply u32_range)) as Ho.
  fold vvec pmax source offset k self in Hrun. fold k self in Ho.
  inversion Ho as [r Hr Ec|xs y d Hq Hd Hm Ec|xs pv Hq He Htr Hne Ec]; symmetry in Ec.
  - rewrite (grun_bind _ _ _ _ _ Ec) in Hrun. left. by exists r.
  - unfold mbind at 1, M_bind at 1 in Hrun. rewrite Ec in Hrun. unfold page_missing in Hrun.
    destruct (has access CPF_READ) eqn:Hrd; [left; by exists EFAULT|]. rewrite (write_only _ _ Hacc Hrd) in Hq.
    right; left. exists xs, y, d. split_and!; [done|lia|lia|done|]. rewrite Hrun. unfold mbind, M_bind. by destruct (gcall _ s) as [[r s']|].
  - rewrite (grun_bind _ _ _ _ _ Ec) in Hrun.
    assert (pv ≠ []) as Hne'. { apply Hne; [|unfold pmax, MAPVEC_NR; lia]. unfold vvec, read_vvec, MAPVEC_NR. intros E%(f_equal length). rewrite length_fmap, length_seqZ in E. cbn in E. lia. }
    right; right. exists access, xs, pv. split_and!; try done. intros Hc Hh Hm.
    pose proof (vumap_reply_ok caller m pv s Hne' Hc Hh Hm) as Hw. unfold wp in *. by rewrite <-Hdef, Hrun.
Qed.

(** Process 20 has page tables as in [umap_demo], with a third page at 0x9000, and granted process 8 the
    memory from 0xFF0 up to 0x2010; both memories can be copied to and from. *)
Definition vumap_grant : cp_grant := mk_cp_grant 0x1303 8 0xFF0 0x1020 0.
Definition vumap_kern : kstate :=
  umap_demo <| phys ::= λ t, upd t 0x2008 0x9007 |>
    <| proctab ::= λ t, upd (upd t 20 (t 20 <| p_priv := Some 1 |>)) 8 (t 20 <| p_nr := 8 |> <| p_endpoint := 8 |> <| p_priv := Some 3 |>) |>
    <| privtab ::= λ t, upd t 1 (t 1 <| s_grant_table := 0x100 |> <| s_grant_entries := 1 |>) |>
    <| ugrant := λ n a, if (n =? 20) && (a =? 0x100) then Some vumap_grant else None |>.
Definition vumap_demo : gstate :=
  mk_gstate vumap_kern (λ _ _, mk_sigmsg 0 0 0 0) (λ _ _, mk_sigcontext 0 0 0 no_regs) (λ _ _, mk_sigframe 0 0 0 0 0 0 0)
    (λ _ _, 0) (λ _ _, mk_vumap_vir 0 0x1020) (λ _ _, mk_vumap_phys 0 0) (λ _ _ _, true).
Definition vumap_msg : message := mk_message 8 0 [20; 1; 1; 8; 0x4000; 0; 0x5000].
Lemma vumap_grants_fit : grants_fit vumap_kern.
Proof. intros n a g. cbn. destruct (_ && _); [intros [= <-]; cbn; lia|done]. Qed.
Lemma vumap_entry e id g : grant_entry vumap_kern e id = inr g → isokendpt vumap_kern e = Some 20 ∧ g = vumap_grant.
Proof.
  unfold grant_entry. destruct (isokendpt vumap_kern e) as [n|]; [|done]. destruct (negb (GRANT_VALID id)); [done|].
  destruct (negb (HASGRANTTABLE _ _)); [done|]. destruct (s_grant_entries _ <=? id); [done|].
  change (ugrant vumap_kern n) with (λ a, if (n =? 20) && (a =? 0x100) then Some vumap_grant else None).
  cbn beta. destruct (Z.eqb_spec n 20) as [->|]; [|done]. cbn [andb]. repeat case_match; try done. intros [= <-]; split; congruence.
Qed.
Lemma vumap_owners e grantee : owners_alive vumap_kern e grantee.
Proof.
  intros id bytes access offset addr owner. unfold verify_grant. cbn [verify_loop MAX_INDIRECT_DEPTH].
  destruct (grant_entry vumap_kern e id) as [r|g] eqn:E; [done|]. apply vumap_entry in E as [He ->].
  change (has (cp_flags vumap_grant) CPF_INDIRECT) with false. cbv iota beta. unfold check_access. destruct (negb _); [done|].
  change (has (cp_flags vumap_grant) CPF_DIRECT) with true. cbv iota. repeat case_match; try done. intros [= _ <-]. exists 20. split; [done|by constructor].
Qed.
Lemma vumap_copy_ok caller : caller = None ∨ caller = Some 8 → copy_ok vumap_demo caller 8.
Proof. intros [-> | ->]; split; try done. by intros c [= <-]. Qed.
Definition vumap_answer : outcome ((Z * message) * gstate) → Prop := λ o,
  match o with
  | Ret ((r, m), s') => r = OK ∧ m ≠ vumap_msg ∧ uvumapped s' 8 0x5000 = mk_vumap_phys 0x5FF0 0x1010 ∧ uvumapped s' 8 0x5008 = mk_vumap_phys 0x9000 0x10
  | Panic _ => False
  end.
Lemma vumap_demo_runs : vumap_answer (do_vumap 8 vumap_msg vumap_demo).
Proof. vm_compute. done. Qed.
Lemma vumap_sizes : sizes_fit (read_vvec vumap_demo 8 (u32 (VUMAP_VADDR vumap_msg)) (Z.min (VUMAP_VCOUNT vumap_msg) MAPVEC_NR)).
Proof. repeat constructor; vm_compute; discriminate. Qed.
Lemma vumap_no_check n va size : ¬ vumap_answer ((r ← gcall (vm_check_range 8 n va size); mret (r, vumap_msg)) vumap_demo).
Proof. unfold mbind, M_bind. destruct (gcall _ _) as [[r s1]|]; [intros (_ & H & _); by apply H|intros []]. Qed.
Lemma do_vumap_translates_witness :
  vumap_answer (do_vumap 8 vumap_msg vumap_demo) ∧
  ∃ access xs pv, requested (gkern vumap_demo) 8 (VUMAP_ENDPT vumap_msg) access (u32 (VUMAP_OFFSET vumap_msg))
      (read_vvec vumap_demo 8 (u32 (VUMAP_VADDR vumap_msg)) (Z.min (VUMAP_VCOUNT vumap_msg) MAPVEC_NR)) xs ∧
    translates (gkern vumap_demo) (Z.to_nat (Z.min (VUMAP_PMAX vumap_msg) MAPVEC_NR)) (range_bytes xs) pv ∧
    do_vumap 8 vumap_msg vumap_demo = vumap_reply 8 vumap_msg pv vumap_demo.
Proof.
  split; [exact vumap_demo_runs|].
  destruct (do_vumap_translates 8 vumap_msg vumap_demo) as [(r & Hr & Hrun) | [(xs & x & d & _ & _ & _ & Hrun) | (access & xs & pv & _ & Hq & Ht & _ & _ & Hrun & _)]].
  - exact vumap_grants_fit.
  - done.
  - by constructor.
  - apply vumap_owners.
  - exact vumap_sizes.
  - apply vumap_copy_ok. by left.
  - exfalso. pose proof vumap_demo_runs as H. rewrite Hrun in H. destruct H as (_ & H & _). by apply H.
  - exfalso. pose proof vumap_demo_runs as H. rewrite Hrun in H. by apply vumap_no_check in H.
  - exists access, xs, pv. split_and!; [exact Hq|exact Ht|exact Hrun].
Defined.

(** Process 20 asks for 0x20 bytes that start at its address [a]. *)
Definition umap_msg (a : Z) : message := mk_message 20 0 [LOCAL_VM_SEG + VIR_ADDR; SELF; 0; a; 0; 0x20].
Lemma vumap_words a : phys vumap_kern a ∈ [0; 0x2007; 0x5007; 0x6007; 0x9007].
Proof. unfold vumap_kern. cbn. unfold upd. repeat case_decide; set_solver. Qed.
Lemma umap_demo_unmapped n va : ¬ maps vumap_kern n va 0.
Proof.
  intros [e He]. revert He. unfold lookup_page. set (pde := phys _ _). assert (has pde I386_VM_BIGPAGE = false) as ->.
  { pose proof (vumap_words (pde_addr (p_cr3 (proctab vumap_kern n)) va)) as Hin. fold pde in Hin. clearbody pde. set_unfold. by destruct_or! Hin; subst. }
  destruct (negb _); [done|]. pose proof (vumap_words (pte_addr (phys vumap_kern) (p_cr3 (proctab vumap_kern n)) va)) as Hin. set (pte := phys vumap_kern (pte_addr _ _ va)) in *.
  clearbody pte. pose proof (Z.mod_pos_bound va I386_PAGE_SIZE ltac:(done)). set_unfold.
  set (o := va mod I386_PAGE_SIZE) in *. clearbody o.
  destruct_or! Hin; subst pte; try done; match goal with |- context [I386_VM_PFA ?x] => assert (0 < I386_VM_PFA x) by (vm_compute; done) end;
    intros [= E _]; lia.
Qed.
Lemma do_umap_within_witness :
  ∃ r m', do_umap true 20 (umap_msg 0xFF0) vumap_kern = Ret ((r, m'), vumap_kern) ∧ r = OK ∧ CP_DST_ADDR m' = 0x5FF0.
Proof.
  destruct (do_umap_within true 20 (umap_msg 0xFF0) vumap_kern) as (r & m' & Hr & _).
  - exact vumap_grants_fit.
  - done.
  - by constructor.
  - intros e; apply vumap_owners.
  - exact umap_demo_unmapped.
  - done.
  - exists r, m'. split; [exact Hr|]. vm_compute in Hr. by injection Hr as <- <-.
Defined.

(** As [vm_running] is never set, the check that the range is contiguous does not happen: the
    second and the third page of process 20 are not neighbours in physical memory, and still the
    answer for a range across their border is OK, with the address of its first byte. *)
Theorem umap_not_contiguous :
  do_umap false 20 (umap_msg 0x1FF0) vumap_kern = Ret ((OK, set_m_word 4 0x6FF0 (set_m_word 2 SELF (umap_msg 0x1FF0))), vumap_kern) ∧
  (∃ m', do_umap true 20 (umap_msg 0x1FF0) vumap_kern = Ret ((EFAULT, m'), vumap_kern)).
Proof. split; [vm_compute; reflexivity|]. eexists. vm_compute. reflexivity. Qed.

(** The file server granted driver 8 memory of process 20 with a magic grant; process 20 is gone. *)
Definition dead_owner_demo : gstate :=
  vumap_demo <| gkern := vumap_kern
    <| proctab ::= λ t, upd (upd t 20 (proc0 20)) 1 (t 8 <| p_nr := 1 |> <| p_endpoint := 1 |> <| p_priv := Some 1 |>) |>
    <| ugrant := λ n a, if (n =? 1) && (a =? 0x100) then Some (mk_cp_grant 0x1903 20 8 0xFF0 0x1020) else None |> |>.

(** [do_vumap] stops the machine when the owner of granted memory has exited: the lookup of its
    endpoint, which [verify_grant] takes from a magic grant unchecked, is the fatal one. *)
Theorem vumap_dead_owner_stops_machine :
  do_vumap 8 (set_m_word 0 1 vumap_msg) dead_owner_demo = Panic "invalid endpoint".
Proof. vm_compute. reflexivity. Qed.

(** A memset into a page that is not there: the caller is suspended on VM, VM gets and answers
    the request, and the call is resumed. *)
Definition suspended_memset (call_vec : Z → option (Z → message → K (Z * message))) (m : message) : K unit :=
  r ← do_memset [1000; 1001] (λ _ _ _, mret 1) 20 m;
  kernel_call_finish 20 m false r;;
  vmctl_memreq_get m;;
  vmctl_memreq_reply 20 (mk_message 8 0 [0; 0; OK]);;
  kernel_call_resume call_vec 20.
Definition memset_demo : kstate := vm_demo <| proctab ::= λ t z, t z <| p_cr3_v := 0xF0001000 |> |> <| uwr := λ _ _, true |>.
(** As [do_memset] drops the result of [vm_memset], the message of the call is not saved, and
    resuming the call runs into an assertion. *)
Theorem memset_suspended_stops_machine call_vec :
  suspended_memset call_vec (mk_message 20 0 [20; 0; 0; 16; 0; 0x4000]) memset_demo = Panic "reqmsg.m_source".
Proof. vm_compute. reflexivity. Qed.
