(* ===== verification/PgUtils.v ===== *)
(** * Memory before VM runs (kernel/arch/i386/pg_utils.c)

    At boot the kernel keeps a list of the free ranges of physical memory, [kinfo.memmap]:
    [add_memmap] adds a range, [cut_memmap] takes one out, [pg_alloc_page] and [alloc_lowest]
    hand out memory, and [pg_map] builds the page tables of the first processes.  The static
    page tables live at physical addresses that are a parameter ([vir2phys]). *)
From S2P Require Import Prelude LinkedList Kernel HMem VirtCopy.

Definition MAXMEMMAP : Z := 40.
Definition LIMIT : Z := 0xFFFFF000.
Definition EMPTY : Z := 0xFFFFFFFF.
Definition PG_PAGETABLES : Z := 6.
Definition PG_ALLOCATEME : Z := 0xFFFFFFFF.
Definition roundup (x y : Z) : Z := (x + (y - 1)) / y * y.
Definition rounddown (x y : Z) : Z := x / y * y.

(** A free range; the type is always MULTIBOOT_MEMORY_AVAILABLE. *)
Record mmap_entry := mk_mmap { mm_addr : Z; mm_len : Z }.

Record pgstate := mk_pgstate {
  mmap_size : Z;
  memmap : Z → mmap_entry;
  mem_high_phys : Z;
  kernel_allocated_bytes_dynamic : Z;
  kernel_may_alloc : bool;
  pagedir : Z → Z;
  pagetables : Z → Z → Z;
  pt_inuse : Z;
  mapped_pde : Z;
  pt : option Z;
}.
#[export] Instance settable_pgstate : Settable pgstate := λ r,
  mk_pgstate (mmap_size r) (memmap r) (mem_high_phys r) (kernel_allocated_bytes_dynamic r) (kernel_may_alloc r)
    (pagedir r) (pagetables r) (pt_inuse r) (mapped_pde r) (pt r).
Definition PG (A : Type) : Type := M pgstate A.

(** ** The list of free ranges *)

(** The first slot that is free. *)
Definition find_slot (s : pgstate) : option Z := snd <$> list_find (λ m, mm_len (memmap s m) = 0) (seqZ 0 MAXMEMMAP).

Definition add_memmap (addr len : Z) : PG unit :=
  if LIMIT <? addr then mret ()
  else
    let len := if LIMIT <? u64 (addr + len) then u64 (len - (addr + len - LIMIT)) else len in
    assert_ (λ s, mmap_size s <? MAXMEMMAP) "cbi->mmap_size < MAXMEMMAP";;
    if len =? 0 then mret ()
    else
      let addr := roundup addr I386_PAGE_SIZE in
      let len := rounddown len I386_PAGE_SIZE in
      assert_ kernel_may_alloc "kernel_may_alloc";;
      slot ← gets find_slot;
      match slot with
      | None => panic "no available memmap slot"
      | Some m =>
          modify (λ s, s <| memmap ::= λ t, upd t m (mk_mmap addr len) |> <| mmap_size ::= λ n, if n <=? m then m + 1 else n |>
                         <| mem_high_phys ::= λ h, Z.max h (u32 (addr + len)) |>)
      end.

(** The body of the loop of [cut_memmap] for entry [m]. *)
Definition cut_entry (start end_ m : Z) : PG unit :=
  e ← gets (λ s, memmap s m);
  let memaddr := u32 (mm_addr e) in
  let memend := u32 (mm_addr e + mm_len e) in
  let substart := if start <? memaddr then memaddr else start in
  let subend := if memend <? end_ then memend else end_ in
  if subend <=? substart then mret ()
  else
    modify (λ s, s <| memmap ::= λ t, upd t m (mk_mmap 0 0) |>);;
    (if memaddr <? substart then add_memmap memaddr (substart - memaddr) else mret ());;
    (if subend <? memend then add_memmap subend (memend - subend) else mret ()).

(** [for (m = 0; m < cbi->mmap_size; m++)]; the list may grow on the way. *)
Fixpoint cut_loop (fuel : nat) (start end_ m : Z) : PG unit :=
  match fuel with
  | O => panic "cut_memmap does not end"
  | S fuel' =>
      n ← gets mmap_size;
      if negb (m <? n) then mret () else cut_entry start end_ m;; cut_loop fuel' start end_ (m + 1)
  end.
Definition MMAP_FUEL : nat := 41.
Definition cut_start (start : Z) : Z := start - start mod I386_PAGE_SIZE.
Definition cut_end (end_ : Z) : Z := if end_ mod I386_PAGE_SIZE =? 0 then end_ else u32 (end_ + (I386_PAGE_SIZE - end_ mod I386_PAGE_SIZE)).
Definition cut_memmap (start end_ : Z) : PG unit :=
  assert_ kernel_may_alloc "kernel_may_alloc";;
  cut_loop MMAP_FUEL (cut_start start) (cut_end end_) 0.

Definition lowest_fit (s : pgstate) (len : Z) : Z :=
  foldl (λ lowest m, if mm_len (memmap s m) <? len then lowest else if mm_addr (memmap s m) <? lowest then mm_addr (memmap s m) else lowest)
    EMPTY (seqZ 0 (mmap_size s)).
(** The second argument of [cut_memmap] is the length. *)
Definition alloc_lowest (len : Z) : PG Z :=
  assert_ (λ _, 0 <? len) "len > 0";;
  let len := rounddown (u32 (len + (I386_PAGE_SIZE - 1))) I386_PAGE_SIZE in
  assert_ kernel_may_alloc "kernel_may_alloc";;
  lowest ← gets (λ s, lowest_fit s len);
  assert_ (λ _, negb (lowest =? EMPTY)) "lowest != EMPTY";;
  cut_memmap lowest len;;
  modify (λ s, s <| kernel_allocated_bytes_dynamic ::= λ n, n + len |>);;
  mret lowest.

(** The last slot in use. *)
Definition last_range (s : pgstate) : option Z :=
  snd <$> list_find (λ m, mm_len (memmap s m) ≠ 0) (reverse (seqZ 0 (mmap_size s))).
Definition pg_alloc_page : PG Z :=
  assert_ kernel_may_alloc "kernel_may_alloc";;
  m ← gets last_range;
  match m with
  | None => panic "can't find free memory"
  | Some m =>
      assert_ (λ s, 0 <? mm_len (memmap s m)) "mmap->len > 0";;
      assert_ (λ s, mm_len (memmap s m) mod I386_PAGE_SIZE =? 0) "!(mmap->len % I386_PAGE_SIZE)";;
      assert_ (λ s, mm_addr (memmap s m) mod I386_PAGE_SIZE =? 0) "!(mmap->addr % I386_PAGE_SIZE)";;
      modify (λ s, s <| memmap ::= λ t, upd t m (mk_mmap (mm_addr (t m)) (mm_len (t m) - I386_PAGE_SIZE)) |>
                     <| kernel_allocated_bytes_dynamic ::= λ n, n + I386_PAGE_SIZE |>);;
      gets (λ s, mm_addr (memmap s m) + mm_len (memmap s m))
  end.

(** ** Page tables *)

Definition I386_VM_ADDR_MASK : Z := 0xFFFFF000.
Definition table_flags : Z := Z.lor (Z.lor I386_VM_PRESENT I386_VM_USER) I386_VM_WRITE.

Section tables.
Context (vir2phys : Z → Z) (kern_vir_start : Z).

(** The table and its physical address. *)
Definition alloc_pagetable : PG (Z * Z) :=
  n ← gets pt_inuse;
  if PG_PAGETABLES <=? n then panic "no more pagetables"
  else modify (λ s, s <| pt_inuse := n + 1 |>);; mret (n, vir2phys n).

Definition pg_rounddown (b : Z) : Z := if b mod I386_PAGE_SIZE =? 0 then b else b - b mod I386_PAGE_SIZE.

(** The body of the loop of [pg_map]: the page at [vaddr] is mapped to [source]. *)
Definition pg_map_page (vaddr source : Z) : PG unit :=
  assert_ (λ _, source mod I386_PAGE_SIZE =? 0) "!(source % I386_PAGE_SIZE)";;
  let pde := I386_VM_PDE vaddr in
  let pte := I386_VM_PTE vaddr in
  mapped ← gets mapped_pde;
  (if mapped <? pde then
     t ← alloc_pagetable;
     modify (λ s, s <| pt := Some t.1 |> <| pagedir ::= λ d, upd d pde (Z.lor (Z.land t.2 I386_VM_ADDR_MASK) table_flags) |>
                    <| mapped_pde := pde |>)
   else mret ());;
  t ← gets pt;
  match t with
  | None => panic "assert(pt)"
  | Some t => modify (λ s, s <| pagetables ::= λ p, upd p t (upd (p t) pte (Z.lor (Z.land source I386_VM_ADDR_MASK) table_flags)) |>)
  end.

(** [while (vaddr < vaddr_end)]. *)
Fixpoint pg_map_loop (fuel : nat) (phys vaddr vaddr_end : Z) : PG unit :=
  match fuel with
  | O => panic "pg_map does not end"
  | S fuel' =>
      if negb (vaddr <? vaddr_end) then mret ()
      else
        assert_ (λ _, vaddr mod I386_PAGE_SIZE =? 0) "!(vaddr % I386_PAGE_SIZE)";;
        source ← (if phys =? PG_ALLOCATEME then pg_alloc_page
                  else assert_ (λ _, phys mod I386_PAGE_SIZE =? 0) "!(phys % I386_PAGE_SIZE)";; mret phys);
        pg_map_page vaddr source;;
        pg_map_loop fuel' (if phys =? PG_ALLOCATEME then phys else u32 (phys + I386_PAGE_SIZE)) (u32 (vaddr + I386_PAGE_SIZE)) vaddr_end
  end.
Definition map_rounds (vaddr vaddr_end : Z) : nat := Z.to_nat ((vaddr_end - vaddr + (I386_PAGE_SIZE - 1)) / I386_PAGE_SIZE) + 1.

Definition pg_map (phys vaddr vaddr_end : Z) : PG unit :=
  assert_ kernel_may_alloc "kernel_may_alloc";;
  assert_ (λ _, if phys =? PG_ALLOCATEME then vaddr mod I386_PAGE_SIZE =? 0
                else vaddr mod I386_PAGE_SIZE =? phys mod I386_PAGE_SIZE) "vaddr % I386_PAGE_SIZE";;
  let vaddr := if phys =? PG_ALLOCATEME then vaddr else pg_rounddown vaddr in
  let phys := if phys =? PG_ALLOCATEME then phys else pg_rounddown phys in
  assert_ (λ _, vaddr <? kern_vir_start) "vaddr < kern_vir_start";;
  pg_map_loop (map_rounds vaddr vaddr_end) phys vaddr vaddr_end.
End tables.

(** ** Free memory as a set of addresses *)

(** The specification: a set of free bytes. *)
Definition in_range (a addr len : Z) : Prop := addr ≤ a < addr + len.
Definition is_free (s : pgstate) (a : Z) : Prop := ∃ m, 0 ≤ m < MAXMEMMAP ∧ in_range a (mm_addr (memmap s m)) (mm_len (memmap s m)).
Definition entry_ok (e : mmap_entry) : Prop :=
  0 ≤ mm_addr e ∧ 0 ≤ mm_len e ∧ mm_addr e + mm_len e ≤ LIMIT ∧ mm_addr e mod I386_PAGE_SIZE = 0 ∧ mm_len e mod I386_PAGE_SIZE = 0.
Definition apart (e e' : mmap_entry) : Prop := mm_addr e + mm_len e ≤ mm_addr e' ∨ mm_addr e' + mm_len e' ≤ mm_addr e.

(** The list is well formed: pages below 4 GB, in ranges that do not overlap. *)
Record mmap_ok (s : pgstate) : Prop := {
  mo_may : kernel_may_alloc s = true;
  mo_size : 0 ≤ mmap_size s ≤ MAXMEMMAP;
  mo_entry m : 0 ≤ m < MAXMEMMAP → entry_ok (memmap s m);
  mo_unused m : mmap_size s ≤ m < MAXMEMMAP → mm_len (memmap s m) = 0;
  mo_apart m m' : 0 ≤ m < MAXMEMMAP → 0 ≤ m' < MAXMEMMAP → m ≠ m' → mm_len (memmap s m) ≠ 0 → mm_len (memmap s m') ≠ 0 → apart (memmap s m) (memmap s m');
}.

(** The outcome of [find_slot]. *)
Lemma find_slot_spec s :
  match find_slot s with
  | Some m => 0 ≤ m < MAXMEMMAP ∧ mm_len (memmap s m) = 0 ∧ ∀ j, 0 ≤ j < m → mm_len (memmap s j) ≠ 0
  | None => ∀ j, 0 ≤ j < MAXMEMMAP → mm_len (memmap s j) ≠ 0
  end.
Proof.
  unfold find_slot. destruct (list_find _ _) as [[i m]|] eqn:E; cbn.
  - apply list_find_Some in E as (Hi & H0 & Hj). apply lookup_seqZ in Hi as [-> Hi]. split; [unfold MAXMEMMAP in *; lia|]. split; [done|].
    intros j Hjm. apply (Hj (Z.to_nat j) j); [|lia]. apply lookup_seqZ. unfold MAXMEMMAP in *. lia.
  - apply list_find_None in E. rewrite Forall_forall in E. intros j Hj. apply E, elem_of_seqZ. unfold MAXMEMMAP in *. lia.
Qed.

(** A range put into a free slot. *)
Lemma mmap_ok_add s m addr len h :
  mmap_ok s → 0 ≤ m < MAXMEMMAP → mm_len (memmap s m) = 0 → entry_ok (mk_mmap addr len) → (∀ a, is_free s a → ¬ in_range a addr len) →
  let s' := s <| memmap ::= λ t, upd t m (mk_mmap addr len) |> <| mmap_size ::= λ n, if n <=? m then m + 1 else n |>
              <| mem_high_phys ::= h |> in
  mmap_ok s' ∧ ∀ a, is_free s' a ↔ is_free s a ∨ in_range a addr len.
Proof.
  intros Hs Hm H0 He Hf s'. assert (∀ j, memmap s' j = if decide (j = m) then mk_mmap addr len else memmap s j) as Hmap by (intros j; reflexivity).
  assert (mmap_size s' = if mmap_size s <=? m then m + 1 else mmap_size s) as Hsz by reflexivity. split.
  - destruct Hs as [Hmay Hs Hent Hun Hap]. split.
    + exact Hmay.
    + rewrite Hsz. destruct (Z.leb_spec (mmap_size s) m); lia.
    + intros j Hj. rewrite Hmap. case_decide; [done|auto].
    + intros j. rewrite Hsz, Hmap. case_decide; destruct (Z.leb_spec (mmap_size s) m); intros; try lia; apply Hun; lia.
    + assert (∀ j, 0 ≤ j < MAXMEMMAP → mm_len (memmap s j) ≠ 0 → len ≠ 0 → apart (memmap s j) (mk_mmap addr len)) as Hnew.
      { intros j Hj Hl Hlen. destruct (Hent j Hj) as (_ & Hl0 & _), He as (_ & Hl1 & _). unfold apart. cbn in *.
        destruct (decide (mm_addr (memmap s j) + mm_len (memmap s j) ≤ addr)); [by left|]. right.
        destruct (decide (addr + len ≤ mm_addr (memmap s j))); [done|]. exfalso.
        apply (Hf (Z.max addr (mm_addr (memmap s j)))); [exists j; split; [done|]|]; unfold in_range; lia. }
      intros j j' Hj Hj' Hne. rewrite !Hmap. repeat case_decide; try lia; intros Hl Hl'.
      * destruct (Hnew j' Hj' Hl'); [done|right|left]; done.
      * by apply Hnew.
      * by apply Hap.
  - intros a. unfold is_free. split.
    + intros (j & Hj & Hr). rewrite Hmap in Hr. case_decide; [by right|left; eauto].
    + intros [(j & Hj & Hr)|Hr].
      * exists j. split; [done|]. rewrite Hmap. case_decide; [subst; unfold in_range in *; lia|done].
      * exists m. split; [done|]. by rewrite Hmap, decide_True.
Qed.

(** What a call of [add_memmap], or no call, adds. *)
Record added (addr end_ : Z) (s s' : pgstate) : Prop := {
  ad_ok : mmap_ok s';
  ad_free a : is_free s' a ↔ is_free s a ∨ addr ≤ a < end_;
  ad_entry j : memmap s' j = memmap s j ∨ (addr < end_ ∧ memmap s' j = mk_mmap addr (end_ - addr));
  ad_size : mmap_size s ≤ mmap_size s' ≤ (if decide (addr < end_) then mmap_size s + 1 else mmap_size s);
  ad_room j : 0 ≤ j < mmap_size s → mm_len (memmap s j) = 0 → mmap_size s' = mmap_size s;
}.
Lemma add_piece addr end_ s :
  mmap_ok s → mmap_size s < MAXMEMMAP → 0 ≤ addr → end_ ≤ LIMIT → addr mod I386_PAGE_SIZE = 0 → end_ mod I386_PAGE_SIZE = 0 →
  (∀ a, is_free s a → ¬ addr ≤ a < end_) →
  wp (if addr <? end_ then add_memmap addr (end_ - addr) else mret ()) (λ _, added addr end_ s) s.
Proof.
  intros Hs Hsz Ha He Ha0 He0 Hf. destruct (Z.ltb_spec addr end_) as [Hlt|Hge].
  2: { apply wp_ret. split; [done| |by left| |done]; [|rewrite decide_False by lia; lia]. intros a. split; [by left|intros [|]; [done|lia]]. }
  assert (LIMIT < 2 ^ 32) as HL by done. assert (u64 end_ = end_) as Hu by (apply Z.mod_small; lia).
  unfold add_memmap. rewrite (proj2 (Z.ltb_ge LIMIT addr)) by lia. replace (addr + (end_ - addr)) with end_ by lia.
  rewrite Hu, (proj2 (Z.ltb_ge LIMIT end_)) by lia. apply wp_bind, wp_assert; [by apply Z.ltb_lt|].
  rewrite (proj2 (Z.eqb_neq (end_ - addr) 0)) by lia.
  assert ((end_ - addr) mod I386_PAGE_SIZE = 0) as Hl0 by (rewrite Zminus_mod, He0, Ha0; done).
  assert (roundup addr I386_PAGE_SIZE = addr) as -> by (unfold roundup, I386_PAGE_SIZE in *; clear -Ha0; div_lia).
  assert (rounddown (end_ - addr) I386_PAGE_SIZE = end_ - addr) as -> by (unfold rounddown, I386_PAGE_SIZE in *; clear -Hl0; div_lia).
  apply wp_bind, wp_assert; [apply Hs|]. apply wp_bind, wp_gets. pose proof (find_slot_spec s) as Hslot.
  destruct (find_slot s) as [m|]; [|exfalso; apply (Hslot (mmap_size s)); [pose proof (mo_size _ Hs); lia|apply Hs; lia]].
  destruct Hslot as (Hm & Hm0 & Hbelow). apply wp_modify.
  assert (m ≤ mmap_size s) as Hms.
  { destruct (decide (m ≤ mmap_size s)); [done|]. destruct (Hbelow (mmap_size s)); [pose proof (mo_size _ Hs); lia|apply Hs; lia]. }
  destruct (mmap_ok_add s m addr (end_ - addr) (λ h, Z.max h (u32 (addr + (end_ - addr)))) Hs Hm Hm0) as [Hok Hfree].
  { split_and!; cbn; lia. }
  { intros a Hfa. unfold in_range. specialize (Hf a Hfa). lia. }
  split; [done| | | |].
  - intros a. rewrite Hfree. unfold in_range. replace (addr + (end_ - addr)) with end_ by lia. done.
  - intros j. cbn. unfold upd. case_decide; [by right|by left].
  - cbn. rewrite decide_True by done. destruct (Z.leb_spec (mmap_size s) m); lia.
  - intros j Hj Hj0. cbn. destruct (Z.leb_spec (mmap_size s) m); [|done]. destruct (Hbelow j); [lia|done].
Qed.

(** A range that is taken out. *)
Lemma mmap_ok_clear s m :
  mmap_ok s → 0 ≤ m < MAXMEMMAP →
  let s' := s <| memmap ::= λ t, upd t m (mk_mmap 0 0) |> in
  mmap_ok s' ∧ ∀ a, is_free s' a ↔ is_free s a ∧ ¬ in_range a (mm_addr (memmap s m)) (mm_len (memmap s m)).
Proof.
  intros Hs Hm s'. assert (∀ j, memmap s' j = if decide (j = m) then mk_mmap 0 0 else memmap s j) as Hmap by (intros j; reflexivity).
  destruct Hs as [Hmay Hs Hent Hun Hap]. split; [split; [exact Hmay|exact Hs| | |]|].
  - intros j Hj. rewrite Hmap. case_decide; [|auto]. by split_and!.
  - intros j Hj. rewrite Hmap. case_decide; [done|]. by apply Hun.
  - intros j j' Hj Hj' Hne. rewrite !Hmap. repeat case_decide; cbn; try lia. by apply Hap.
  - intros a. unfold is_free. split.
    + intros (j & Hj & Hr). rewrite Hmap in Hr. case_decide; [unfold in_range in Hr; cbn in Hr; lia|].
      split; [eauto|]. intros Hr'. unfold in_range in *. destruct (Hap j m) as [?|?]; try done; lia.
    + intros [(j & Hj & Hr) Hn]. exists j. split; [done|]. rewrite Hmap. case_decide; [by subst|done].
Qed.

Section cut.
Context (S_ E_ : Z) (HS : 0 ≤ S_) (HE : E_ ≤ LIMIT) (HS0 : S_ mod I386_PAGE_SIZE = 0) (HE0 : E_ mod I386_PAGE_SIZE = 0).

Definition clear_of (e : mmap_entry) : Prop := mm_addr e + mm_len e ≤ S_ ∨ E_ ≤ mm_addr e ∨ mm_len e = 0 ∨ E_ ≤ S_.
(** There is room for a range that is split, or nothing is left to cut. *)
Definition cut_room (s : pgstate) : Prop := mmap_size s < MAXMEMMAP ∨ ∀ j, 0 ≤ j < MAXMEMMAP → clear_of (memmap s j).

Record entry_cut (m : Z) (s s' : pgstate) : Prop := {
  ec_ok : mmap_ok s';
  ec_room : cut_room s';
  ec_clear j : clear_of (memmap s j) ∨ j = m → clear_of (memmap s' j);
  ec_free a : is_free s' a ↔ is_free s a ∧ ¬ (S_ ≤ a < E_ ∧ in_range a (mm_addr (memmap s m)) (mm_len (memmap s m)));
}.

(** The pieces that are left of entry [m]. *)
Lemma entry_cut_pieces m s s1 s2 s3 addr len sub sube :
  addr = mm_addr (memmap s m) → len = mm_len (memmap s m) → sub = Z.max S_ addr → sube = Z.min E_ (addr + len) →
  mmap_ok s → 0 ≤ m < mmap_size s → mmap_size s < MAXMEMMAP → sub < sube → s1 = s <| memmap ::= λ t, upd t m (mk_mmap 0 0) |> →
  (∀ a, is_free s1 a ↔ is_free s a ∧ ¬ in_range a addr len) → mmap_size s2 = mmap_size s →
  added addr sub s1 s2 → added sube (addr + len) s2 s3 → entry_cut m s s3.
Proof.
  intros Eaddr Elen Esub Esube Hs Hm Hlt Hyes -> Hfree1 Hsz2 H2 H3.
  assert (∀ j, memmap s3 j = memmap s j ∧ j ≠ m ∨ mm_len (memmap s3 j) = 0 ∨
    addr < sub ∧ memmap s3 j = mk_mmap addr (sub - addr) ∨ sube < addr + len ∧ memmap s3 j = mk_mmap sube (addr + len - sube)) as Hent.
  { intros j. destruct (ad_entry _ _ _ _ H3 j) as [-> |[? ->]]; [|by do 3 right]. destruct (ad_entry _ _ _ _ H2 j) as [-> |[? ->]]; [|by do 2 right; left].
    cbn. unfold upd. case_decide; [by right; left|by left]. }
  assert (∀ j, clear_of (memmap s j) ∨ j = m → clear_of (memmap s3 j)) as Hclear.
  { intros j Hj. unfold clear_of in *. destruct (Hent j) as [[-> Hne]|[->|[[? ->]|[? ->]]]]; cbn; [by destruct Hj|lia..]. }
  split; [apply H3| |done|].
  - destruct (decide (addr < sub ∧ sube < addr + len)) as [[Hl Hr]|Hone].
    + right. intros j Hj. apply Hclear. destruct (decide (j = m)) as [|Hne]; [by right|left]. unfold clear_of.
      destruct (decide (mm_len (memmap s j) = 0)); [by do 2 right; left|]. pose proof (mo_size _ Hs).
      destruct (mo_apart _ Hs j m) as [?|?]; rewrite <-?Eaddr, <-?Elen in *; try done; lia.
    + left. enough (mmap_size s3 = mmap_size s2) by lia. destruct (decide (sube < addr + len)) as [Hr|Hr].
      * apply (ad_room _ _ _ _ H3 m); [lia|]. destruct (ad_entry _ _ _ _ H2 m) as [-> |[? _]]; [cbn; by rewrite upd_eq|tauto].
      * pose proof (ad_size _ _ _ _ H3) as Hz. rewrite decide_False in Hz by done. lia.
  - intros a. rewrite (ad_free _ _ _ _ H3), (ad_free _ _ _ _ H2), Hfree1, <-Eaddr, <-Elen. unfold in_range.
    assert (addr ≤ a < addr + len → is_free s a) as Hin by (intros; exists m; rewrite <-Eaddr, <-Elen; split; [pose proof (mo_size _ Hs); lia|done]).
    destruct (decide (addr ≤ a < addr + len)) as [Hr|Hr]; [specialize (Hin Hr)|]; (split; [intros H|intros [H1 H4]]).
    + split; [done|]. lia.
    + destruct (decide (a < sub)); [left; right; lia|]. right. destruct (decide (S_ ≤ a < E_)); [tauto|lia].
    + destruct H as [[[H _]|H]|H]; [|lia..]. split; [done|]. tauto.
    + left. left. tauto.
Qed.

Lemma cut_entry_spec m s : mmap_ok s → cut_room s → 0 ≤ m < mmap_size s → wp (cut_entry S_ E_ m) (λ _, entry_cut m s) s.
Proof.
  intros Hs Hroom Hm. pose proof (mo_size _ Hs) as Hsz. destruct (mo_entry _ Hs m ltac:(lia)) as (Ha & Hl & Hlim & Ha0 & Hl0).
  unfold cut_entry. apply wp_bind, wp_gets. assert (LIMIT < 2 ^ 32) as HL by done. rewrite !u32_id by lia.
  set (addr := mm_addr (memmap s m)) in *. set (len := mm_len (memmap s m)) in *.
  set (sub := if S_ <? addr then addr else S_). set (sube := if addr + len <? E_ then addr + len else E_).
  assert (sub = Z.max S_ addr) as Esub by (unfold sub; destruct (Z.ltb_spec S_ addr); lia).
  assert (sube = Z.min E_ (addr + len)) as Esube by (unfold sube; destruct (Z.ltb_spec (addr + len) E_); lia). clearbody sub sube.
  destruct (Z.leb_spec sube sub) as [Hno|Hyes].
  { apply wp_ret. split; [done|done| |].
    - intros j [Hc| ->]; [done|]. unfold clear_of. fold addr len. lia.
    - intros a. split; [|tauto]. intros H. split; [done|]. unfold in_range. lia. }
  apply wp_bind, wp_modify. destruct (mmap_ok_clear s m Hs ltac:(lia)) as [Hok1 Hfree1].
  set (s1 := s <| memmap ::= _ |>) in *. fold addr len in Hfree1.
  assert (mmap_size s < MAXMEMMAP) as Hlt.
  { destruct Hroom as [|Hcl]; [done|]. specialize (Hcl m ltac:(lia)). unfold clear_of in Hcl. fold addr len in Hcl. lia. }
  assert ((addr + len) mod I386_PAGE_SIZE = 0) as Hend0 by (rewrite Zplus_mod, Ha0, Hl0; done).
  assert (sub mod I386_PAGE_SIZE = 0) as Hsub0 by (rewrite Esub; destruct (Z.max_spec S_ addr) as [[_ ->]|[_ ->]]; done).
  assert (sube mod I386_PAGE_SIZE = 0) as Hsube0 by (rewrite Esube; destruct (Z.min_spec E_ (addr + len)) as [[_ ->]|[_ ->]]; done).
  apply wp_bind. eapply wp_mono; [apply (add_piece addr sub s1); try done; [lia|]|].
  { intros a [_ Hn]%Hfree1. unfold in_range in Hn. lia. }
  intros [] s2 H2. assert (mmap_size s2 = mmap_size s) as Hsz2.
  { apply (ad_room _ _ _ _ H2 m Hm). unfold s1. cbn. by rewrite upd_eq. }
  eapply wp_mono; [apply (add_piece sube (addr + len) s2); try done; [apply H2|lia|lia|]|].
  { intros a [[_ Hn]%Hfree1|Hr]%(ad_free _ _ _ _ H2); [unfold in_range in Hn; lia|lia]. }
  intros [] s3 H3. by apply (entry_cut_pieces m s s1 s2 s3 addr len sub sube).
Qed.
Lemma cut_loop_spec fuel m s :
  mmap_ok s → cut_room s → 0 ≤ m ≤ MAXMEMMAP → MAXMEMMAP - m < Z.of_nat fuel → (∀ j, 0 ≤ j < m → clear_of (memmap s j)) →
  wp (cut_loop fuel S_ E_ m) (λ _ s', mmap_ok s' ∧ ∀ a, is_free s' a ↔ is_free s a ∧ ¬ S_ ≤ a < E_) s.
Proof.
  revert m s. induction fuel as [|fuel IH]; intros m s Hs Hroom Hm Hfuel Hcl; pose proof (mo_size _ Hs); simpl.
  - lia.
  - apply wp_bind, wp_gets. destruct (Z.ltb_spec m (mmap_size s)) as [Hlt|Hge]; cbn [negb].
    + apply wp_bind. eapply wp_mono; [apply cut_entry_spec; [done|done|lia]|]. intros [] s1 [Hok1 Hroom1 Hcl1 Hfree1].
      eapply wp_mono; [apply IH; [done|done|lia|lia|]|].
      { intros j Hj. apply Hcl1. destruct (decide (j = m)); [by right|left]. apply Hcl. lia. }
      intros [] s2 [Hok2 Hfree2]. split; [done|]. intros a. rewrite Hfree2, Hfree1. split; [tauto|]. intros [? ?]. tauto.
    + apply wp_ret. split; [done|]. intros a. split; [|tauto]. intros Hf. split; [done|]. destruct Hf as (j & Hj & Hr).
      assert (clear_of (memmap s j)) as Hc by (destruct (decide (j < m)); [apply Hcl; lia|right; right; left; apply Hs; lia]).
      unfold clear_of, in_range in *. lia.
Qed.
End cut.

(** ** Handing out pages *)

Lemma last_range_spec s :
  match last_range s with
  | Some m => 0 ≤ m < mmap_size s ∧ mm_len (memmap s m) ≠ 0
  | None => ∀ j, 0 ≤ j < mmap_size s → mm_len (memmap s j) = 0
  end.
Proof.
  unfold last_range. destruct (list_find _ _) as [[i m]|] eqn:E; cbn.
  - apply list_find_Some in E as (Hi & H0 & _). apply list_elem_of_lookup_2, elem_of_reverse, elem_of_seqZ in Hi. split; [lia|done].
  - apply list_find_None in E. rewrite Forall_forall in E. intros j Hj. destruct (decide (mm_len (memmap s j) = 0)); [done|].
    destruct (E j); [apply elem_of_reverse, elem_of_seqZ; lia|done].
Qed.

(** A page [p] was taken from the free memory of [s]. *)
Record page_taken (s : pgstate) (p : Z) (s' : pgstate) : Prop := {
  pk_ok : mmap_ok s';
  pk_page : 0 ≤ p < LIMIT ∧ p mod I386_PAGE_SIZE = 0;
  pk_was a : p ≤ a < p + I386_PAGE_SIZE → is_free s a;
  pk_free a : is_free s' a ↔ is_free s a ∧ ¬ p ≤ a < p + I386_PAGE_SIZE;
}.
Lemma page_taken_last s m s' :
  mmap_ok s → 0 ≤ m < mmap_size s → mm_len (memmap s m) ≠ 0 →
  memmap s' = upd (memmap s) m (mk_mmap (mm_addr (memmap s m)) (mm_len (memmap s m) - I386_PAGE_SIZE)) →
  (mmap_size s', kernel_may_alloc s') = (mmap_size s, kernel_may_alloc s) →
  page_taken s (mm_addr (memmap s m) + (mm_len (memmap s m) - I386_PAGE_SIZE)) s'.
Proof.
  intros Hs Hm Hne Hmap [= Hsz Hmay]. pose proof (mo_size _ Hs) as Hsize. destruct (mo_entry _ Hs m ltac:(lia)) as (Ha & Hl & Hlim & Ha0 & Hl0).
  set (e := memmap s m) in *. assert (I386_PAGE_SIZE ≤ mm_len e) as Hpage by (unfold I386_PAGE_SIZE in *; clear -Hl Hl0 Hne; div_lia).
  assert (∀ j, memmap s' j = if decide (j = m) then mk_mmap (mm_addr e) (mm_len e - I386_PAGE_SIZE) else memmap s j) as Hj by (intros j; by rewrite Hmap).
  assert ((mm_len e - I386_PAGE_SIZE) mod I386_PAGE_SIZE = 0) as Hl1 by (rewrite Zminus_mod, Hl0; done).
  assert (I386_PAGE_SIZE = 4096) as HP by done. destruct Hs as [Hmay0 _ Hent Hun Hap]. split.
  - split; [congruence|lia| | |].
    + intros j Hjr. rewrite Hj. case_decide; [|auto]. split_and!; cbn; try done; lia.
    + intros j Hjr. rewrite Hj. case_decide; [lia|]. apply Hun. lia.
    + assert (∀ j, 0 ≤ j < MAXMEMMAP → j ≠ m → mm_len (memmap s j) ≠ 0 → apart (memmap s j) (mk_mmap (mm_addr e) (mm_len e - I386_PAGE_SIZE))) as Hpart.
      { intros j Hjr Hjm Hlj. destruct (Hap j m Hjr ltac:(lia) Hjm Hlj Hne) as [H|H]; fold e in H; [left|right]; cbn; lia. }
      intros j j' Hjr Hjr' Hjj. rewrite !Hj. repeat case_decide; subst; try done; intros H1 H2.
      * destruct (Hpart j' Hjr'); [done|done|right|left]; done.
      * by apply Hpart.
      * by apply Hap.
  - split; [lia|]. by rewrite Zplus_mod, Ha0, Hl1.
  - intros a Hr. exists m. split; [lia|]. fold e. unfold in_range. lia.
  - intros a. unfold is_free. split.
    + intros (j & Hjr & Hr). rewrite Hj in Hr. unfold in_range in *. case_decide; cbn in Hr.
      * split; [|lia]. exists m. fold e. split; lia.
      * split; [by exists j|]. destruct (Hap j m Hjr ltac:(lia)) as [H1|H1]; try fold e in H1; try done; lia.
    + intros [(j & Hjr & Hr) Hn]. exists j. split; [done|]. rewrite Hj. unfold in_range in *. case_decide; [subst j; fold e in Hr; cbn; lia|done].
Qed.

Lemma pg_alloc_page_spec s :
  mmap_ok s →
  (∃ p s', pg_alloc_page s = Ret (p, s') ∧ page_taken s p s' ∧ (∃ t n, s' = s <| memmap := t |> <| kernel_allocated_bytes_dynamic := n |>)) ∨
  (pg_alloc_page s = Panic "can't find free memory" ∧ ∀ a, ¬ is_free s a).
Proof.
  intros Hs. pose proof (mo_size _ Hs) as Hsz. pose proof (last_range_spec s) as Hlast.
  assert (∀ {B} (b : pgstate → bool) e (c : PG B), b s = true → (assert_ b e;; c) s = c s) as Hassert by (intros B b e c Hb; unfold assert_, mbind, M_bind; by rewrite Hb).
  unfold pg_alloc_page. rewrite Hassert by apply Hs. change ((gets last_range ≫= ?g) s) with (g (last_range s) s). destruct (last_range s) as [m|].
  2: { right. split; [done|]. intros a (j & Hj & Hr). unfold in_range in Hr.
       assert (mm_len (memmap s j) = 0) by (destruct (decide (j < mmap_size s)); [apply Hlast; lia|apply Hs; lia]). lia. }
  left. destruct Hlast as [Hm Hne]. destruct (mo_entry _ Hs m ltac:(lia)) as (Ha & Hl & Hlim & Ha0 & Hl0).
  rewrite Hassert by (apply Z.ltb_lt; lia). rewrite !Hassert by by apply Z.eqb_eq.
  eexists _, _. split; [reflexivity|]. split; [|by eexists _, _]. cbn. rewrite !upd_eq. cbn.
  apply (page_taken_last s m); [done|done|done| |]; reflexivity.
Qed.

(** ** Mapping *)

Definition is_page (u : Z) : Prop := u mod I386_PAGE_SIZE = 0.

Lemma page_split u : 0 ≤ u < 2 ^ 32 → is_page u → u = I386_VM_PDE u * I386_BIG_PAGE_SIZE + I386_VM_PTE u * I386_PAGE_SIZE.
Proof.
  intros Hu Hp. rewrite PDE_div, PTE_div. unfold is_page, I386_PAGE_SIZE, I386_BIG_PAGE_SIZE in *. div_lia.
Qed.

Section mapping.
Context (vir2phys : Z → Z).

Definition dir_entry (t : Z) : Z := Z.lor (Z.land (vir2phys t) I386_VM_ADDR_MASK) table_flags.
Definition page_entry (f : Z) : Z := Z.lor (Z.land f I386_VM_ADDR_MASK) table_flags.

(** The table in use belongs to [mapped_pde]. *)
Record tables_ok (s : pgstate) : Prop := {
  to_inuse : 0 ≤ pt_inuse s;
  to_current : (mapped_pde s = -1 ∧ pt s = None) ∨
    (0 ≤ mapped_pde s ∧ pt s = Some (pt_inuse s - 1) ∧ 0 < pt_inuse s ∧ pagedir s (mapped_pde s) = dir_entry (pt_inuse s - 1));
}.
(** Page [u] is mapped to [f], through table [t], which is the one in use only for the last
    directory entry. *)
Record page_mapped (s : pgstate) (u f t : Z) : Prop := {
  pm_table : 0 ≤ t < pt_inuse s;
  pm_dir : pagedir s (I386_VM_PDE u) = dir_entry t;
  pm_page : pagetables s t (I386_VM_PTE u) = page_entry f;
  pm_last : I386_VM_PDE u ≤ mapped_pde s ∧ (I386_VM_PDE u < mapped_pde s ↔ t < pt_inuse s - 1);
}.
(** [pg_map_page] maps a page above all others and leaves them alone. *)
Record page_added (v source : Z) (s s' : pgstate) : Prop := {
  pa_tables : tables_ok s';
  pa_new : ∃ t, page_mapped s' v source t;
  pa_old u f t : 0 ≤ u < v → is_page u → page_mapped s u f t → page_mapped s' u f t;
  pa_last : mapped_pde s' = I386_VM_PDE v;
  pa_inuse : pt_inuse s' = if mapped_pde s <? I386_VM_PDE v then pt_inuse s + 1 else pt_inuse s;
  pa_memory : (mmap_size s', memmap s', kernel_may_alloc s') = (mmap_size s, memmap s, kernel_may_alloc s);
}.
Lemma pg_map_page_spec v source s :
  tables_ok s → 0 ≤ v < 2 ^ 32 → is_page v → mapped_pde s ≤ I386_VM_PDE v →
  (mapped_pde s < I386_VM_PDE v → pt_inuse s < PG_PAGETABLES) → is_page source →
  wp (pg_map_page vir2phys v source) (λ _, page_added v source s) s.
Proof using Type.
  intros [Hin Hcur] Hv Hvp Hle Hroom Hsp. unfold pg_map_page. apply wp_bind, wp_assert; [by apply Z.eqb_eq|]. apply wp_bind, wp_gets.
  assert (0 ≤ I386_VM_PDE v) as H0 by (rewrite PDE_div; apply Z.div_pos; [lia|done]). destruct (Z.ltb_spec (mapped_pde s) (I386_VM_PDE v)) as [Hlt|Hge].
  - unfold alloc_pagetable. apply wp_bind, wp_bind, wp_bind, wp_gets. rewrite (proj2 (Z.leb_gt PG_PAGETABLES _)) by auto.
    apply wp_bind, wp_modify, wp_ret, wp_modify, wp_bind, wp_gets. cbn [pt set settable_pgstate fst]. apply wp_modify.
    split.
    + split; cbn; [lia|]. right. split_and!; [done|f_equal; lia|lia|]. rewrite upd_eq. by replace (pt_inuse s + 1 - 1) with (pt_inuse s) by lia.
    + exists (pt_inuse s). split; cbn; [lia|by rewrite upd_eq|by rewrite !upd_eq|lia].
    + intros u f t Hu Hup [H1 H2 H3 H4]. split; cbn; [lia|rewrite upd_ne by lia; done|rewrite upd_ne by lia; done|lia].
    + done.
    + cbn. by rewrite (proj2 (Z.ltb_lt _ _) Hlt).
    + done.
  - destruct Hcur as [[? _]|(Hm & Hpt & Hpos & Hdir)]; [lia|]. assert (mapped_pde s = I386_VM_PDE v) as E by lia.
    apply wp_bind, wp_ret, wp_bind, wp_gets. rewrite Hpt. apply wp_modify. split.
    + split; cbn; [lia|]. right. done.
    + exists (pt_inuse s - 1). split; cbn; [lia|by rewrite <-E|by rewrite !upd_eq|lia].
    + intros u f t Hu Hup [H1 H2 H3 H4]. split; cbn; [done|done| |done]. destruct (decide (t = pt_inuse s - 1)) as [->|]; [|by rewrite upd_ne].
      rewrite upd_eq, upd_ne; [done|]. intros Epte. pose proof (page_split u ltac:(lia) Hup). pose proof (page_split v Hv Hvp).
      assert (I386_VM_PDE u = I386_VM_PDE v) by lia. congruence || lia.
    + exact E.
    + cbn. by rewrite (proj2 (Z.ltb_ge _ _) Hge).
    + done.
Qed.

(** The pages from [lo] up to [v] are mapped to pages [f] that were free in [s0], each to one of its
    own; the rest of the free memory is still free. *)
Record range_mapped (s0 s : pgstate) (lo v : Z) (f : Z → Z) : Prop := {
  rm_ok : mmap_ok s;
  rm_tables : tables_ok s;
  rm_pages u : lo ≤ u < v → is_page u → is_page (f u) ∧ ∃ t, page_mapped s u (f u) t;
  rm_was u a : lo ≤ u < v → is_page u → f u ≤ a < f u + I386_PAGE_SIZE → is_free s0 a;
  rm_own u u' : lo ≤ u < v → is_page u → lo ≤ u' < v → is_page u' → f u = f u' → u = u';
  rm_free a : is_free s a ↔ is_free s0 a ∧ ∀ u, lo ≤ u < v → is_page u → ¬ f u ≤ a < f u + I386_PAGE_SIZE;
}.
Lemma range_mapped_page s0 s s1 s2 lo v f p :
  range_mapped s0 s lo v f → 0 ≤ lo ≤ v → is_page v → page_taken s p s1 → (∃ t n, s1 = s <| memmap := t |> <| kernel_allocated_bytes_dynamic := n |>) →
  page_added v p s1 s2 → range_mapped s0 s2 lo (v + I386_PAGE_SIZE) (λ u, if decide (u = v) then p else f u).
Proof using Type.
  intros [Hok Ht Hpg Hwas Hown Hfree] Hlo Hv [Hok1 [Hp Hpp] Hwas1 Hfree1] (tt & nn & ->) [Ht2 Hnew Hold Hlast Hin [= Em1 Em2 Em3]].
  assert (I386_PAGE_SIZE = 4096) as HP by done.
  assert (∀ u, lo ≤ u < v + I386_PAGE_SIZE → is_page u → u ≠ v → lo ≤ u < v) as Hbelow.
  { intros u Hu Hup Hne. unfold is_page in *. rewrite HP in *. clear -Hu Hup Hne Hv. div_lia. }
  assert (∀ a, is_free s2 a ↔ is_free s a ∧ ¬ p ≤ a < p + I386_PAGE_SIZE) as Hfree2.
  { intros a. rewrite <-Hfree1. unfold is_free. by rewrite Em2. }
  assert (∀ u, lo ≤ u < v → is_page u → f u ≠ p) as Hfresh.
  { intros u Hu Hup E. destruct (proj1 (Hfree p) (Hwas1 p ltac:(lia))) as [_ Hn]. apply (Hn u Hu Hup). lia. }
  split; [|done| | | |].
  - destruct Hok1 as [G1 G2 G3 G4 G5]. split; rewrite ?Em1, ?Em2, ?Em3; done.
  - intros u Hu Hup. case_decide; [by subst|]. destruct (Hpg u (Hbelow u Hu Hup ltac:(done)) Hup) as [Hfp [t Hm]]. split; [done|].
    exists t. apply Hold; [pose proof (Hbelow u Hu Hup ltac:(done)); lia|done|]. by destruct Hm.
  - intros u a Hu Hup Hr. case_decide; [by apply Hfree, Hwas1|]. by eapply Hwas; [apply Hbelow| |].
  - intros u u' Hu Hup Hu' Hup'. repeat case_decide; subst; intros E; try done; [| |by apply Hown; auto].
    + destruct (Hfresh u'); auto.
    + destruct (Hfresh u); auto.
  - intros a. rewrite Hfree2, Hfree. split.
    + intros [[H1 H2] H3]. split; [done|]. intros u Hu Hup. case_decide; [done|]. apply H2; auto.
    + intros [H1 H2]. split; [split; [done|]|].
      * intros u Hu Hup Hr. apply (H2 u); [lia|done|]. rewrite decide_False by lia. done.
      * intros Hr. apply (H2 v); [lia|done|]. by rewrite decide_True.
Qed.

(** The run of a computation that may run out of memory. *)
Definition unless_full {A} (c : PG A) (Q : A → pgstate → Prop) (s : pgstate) : Prop :=
  match c s with
  | Ret (a, s') => Q a s'
  | Panic e => e = "can't find free memory"%string
  end.
Lemma unless_full_bind {A B} (c : PG A) (g : A → PG B) Q s : unless_full c (λ a, unless_full (g a) Q) s → unless_full (c ≫= g) Q s.
Proof using Type. unfold unless_full, mbind, M_bind. by destruct (c s) as [[a s']|]. Qed.
Lemma unless_full_wp {A} (c : PG A) Q s : wp c Q s → unless_full c Q s.
Proof using Type. unfold unless_full, wp. by destruct (c s) as [[a s']|]. Qed.
Lemma unless_full_mono {A} (c : PG A) (Q Q' : A → pgstate → Prop) s : unless_full c Q s → (∀ a s', Q a s' → Q' a s') → unless_full c Q' s.
Proof using Type. unfold unless_full. destruct (c s) as [[a s']|]; auto. Qed.

(** There are tables left for the directory entries from [v] up to [vend]. *)
Definition tables_left (s : pgstate) (v vend : Z) : Prop :=
  mapped_pde s ≤ I386_VM_PDE v ∧
  pt_inuse s + (I386_VM_PDE (vend - 1) - Z.max (mapped_pde s) (I386_VM_PDE v - 1)) ≤ PG_PAGETABLES.
Lemma tables_left_next s s2 v vend p :
  tables_left s v vend → page_added v p s s2 → 0 ≤ v < vend → tables_left s2 (v + I386_PAGE_SIZE) vend.
Proof using Type.
  intros [H1 H2] [_ _ _ Hl Hin _] Hv. unfold tables_left. rewrite Hl, Hin. rewrite !PDE_div in *. unfold I386_PAGE_SIZE, I386_BIG_PAGE_SIZE in *.
  destruct (Z.ltb_spec (mapped_pde s) (v / 4194304)); clear -H1 H2 Hv H; div_lia.
Qed.

Lemma pg_map_loop_spec s0 fuel lo v vend f s :
  range_mapped s0 s lo v f → 0 ≤ lo ≤ v → is_page v → vend ≤ LIMIT → vend - v ≤ I386_PAGE_SIZE * (Z.of_nat fuel - 1) → (0 < fuel)%nat →
  tables_left s v vend →
  unless_full (pg_map_loop vir2phys fuel PG_ALLOCATEME v vend) (λ _ s', ∃ v' f', vend ≤ v' ∧ range_mapped s0 s' lo v' f') s.
Proof using Type.
  intros Hr Hlo Hv Hend. revert v f s Hr Hlo Hv. assert (I386_PAGE_SIZE = 4096) as HP by done.
  induction fuel as [|fuel IH]; intros v f s Hr Hlo Hv Hfuel Hpos Hleft; cbn [pg_map_loop]; [lia|].
  destruct (Z.ltb_spec v vend) as [Hlt|Hge]; cbn [negb]; [|by exists v, f].
  apply unless_full_bind, unless_full_wp, wp_assert; [by apply Z.eqb_eq|]. change (PG_ALLOCATEME =? PG_ALLOCATEME) with true. cbv iota.
  apply unless_full_bind. unfold unless_full at 1.
  destruct (pg_alloc_page_spec s (rm_ok _ _ _ _ _ Hr)) as [(p & s1 & -> & Htaken & Hs1) | [-> _]]; [|done].
  assert (v + I386_PAGE_SIZE ≤ LIMIT) as Hnext by (unfold is_page, LIMIT in *; rewrite HP in *; clear -Hv Hlt Hend; div_lia).
  assert (tables_left s1 v vend ∧ tables_ok s1) as [Hleft1 Ht1].
  { destruct Hs1 as (tt & nn & ->). split; [exact Hleft|]. by destruct (rm_tables _ _ _ _ _ Hr). }
  apply unless_full_bind, unless_full_wp. eapply wp_mono.
  - apply pg_map_page_spec; [done|unfold LIMIT in *; lia|done|apply Hleft1| |apply Htaken].
    intros Hm. destruct Hleft1 as [_ Hl]. rewrite !PDE_div in *. unfold I386_BIG_PAGE_SIZE in *. clear -Hm Hl Hlt. div_lia.
  - intros [] s2 H2. rewrite u32_id by (unfold LIMIT in *; lia).
    eapply IH; [eapply range_mapped_page; [exact Hr|lia|done|exact Htaken|exact Hs1|exact H2]|lia| |lia|lia|by eapply tables_left_next; [exact Hleft1|exact H2|lia]].
    unfold is_page in *. rewrite Zplus_mod, Hv. done.
Qed.
End mapping.

(** ** Properties *)

Lemma cut_end_up e : 0 ≤ e ≤ LIMIT → cut_end e = roundup e I386_PAGE_SIZE ∧ cut_end e ≤ LIMIT ∧ cut_end e mod I386_PAGE_SIZE = 0.
Proof.
  intros He. unfold cut_end, roundup, LIMIT, I386_PAGE_SIZE in *. destruct (Z.eqb_spec (e mod 4096) 0) as [H|H]; [|rewrite u32_id];
    repeat split; div_lia.
Qed.

(** C35. The list of free ranges of the boot code implements a set of free addresses.  On a
    well-formed list with a slot to spare: [cut_memmap] always finishes, also when ranges are split
    and the list grows under the loop, and takes away exactly the pages that the range touches;
    [add_memmap] of whole pages that are not free yet adds exactly these; [pg_alloc_page] takes
    one page, all of which was free, or reports that nothing is free, and does so only then.  The
    list stays well formed. *)
Theorem boot_memory_refines s :
  mmap_ok s → mmap_size s < MAXMEMMAP →
  (∀ start end_, 0 ≤ start → 0 ≤ end_ ≤ LIMIT →
     wp (cut_memmap start end_) (λ _ s', mmap_ok s' ∧
       ∀ a, is_free s' a ↔ is_free s a ∧ ¬ rounddown start I386_PAGE_SIZE ≤ a < roundup end_ I386_PAGE_SIZE) s) ∧
  (∀ addr len, 0 ≤ addr → 0 < len → addr + len ≤ LIMIT → addr mod I386_PAGE_SIZE = 0 → len mod I386_PAGE_SIZE = 0 →
     (∀ a, is_free s a → ¬ addr ≤ a < addr + len) →
     wp (add_memmap addr len) (λ _ s', mmap_ok s' ∧ ∀ a, is_free s' a ↔ is_free s a ∨ addr ≤ a < addr + len) s) ∧
  ((∃ p s', pg_alloc_page s = Ret (p, s') ∧ page_taken s p s') ∨
   (pg_alloc_page s = Panic "can't find free memory" ∧ ∀ a, ¬ is_free s a)).
Proof.
  intros Hs Hsz. split; [|split].
  - intros start end_ Hst Hen. destruct (cut_end_up end_ Hen) as (He & Hel & He0). unfold cut_memmap. apply wp_bind, wp_assert; [apply Hs|].
    assert (cut_start start = rounddown start I386_PAGE_SIZE) as -> by (unfold cut_start, rounddown, I386_PAGE_SIZE; div_lia).
    rewrite <-He. apply cut_loop_spec; try done; [| |by left|lia].
    + unfold rounddown, I386_PAGE_SIZE. div_lia.
    + unfold rounddown. by apply Z.mod_mul.
  - intros addr len Ha Hl Hlim Ha0 Hl0 Hf. pose proof (add_piece addr (addr + len) s Hs Hsz Ha Hlim Ha0) as Hw.
    rewrite (proj2 (Z.ltb_lt addr (addr + len))) in Hw by lia. replace (addr + len - addr) with len in Hw by lia.
    eapply wp_mono; [apply Hw; [by rewrite Zplus_mod, Ha0, Hl0|done]|]. intros [] s' [H1 H2 _ _ _]. done.
  - destruct (pg_alloc_page_spec s Hs) as [(p & s' & Hr & Ht & _)|H]; [left; eauto|by right].
Qed.

(** The ranges from 0x1000 and from 0x100000, of 16 and 256 pages. *)
Definition boot_demo : pgstate :=
  mk_pgstate 2 (λ m, if m =? 0 then mk_mmap 0x1000 0x10000 else if m =? 1 then mk_mmap 0x100000 0x100000 else mk_mmap 0 0)
    0x200000 0 true (λ _, 0) (λ _ _, 0) 0 (-1) None.
Lemma boot_demo_ok : mmap_ok boot_demo.
Proof.
  split; [done|by vm_compute|..].
  - intros m Hm. cbn. repeat case_match; by split_and!.
  - intros m Hm. cbn in *. repeat case_match; try done; lia.
  - intros m m' _ _ Hne. unfold apart. cbn. repeat case_match; cbn; lia.
Qed.
Lemma boot_memory_refines_witness :
  wp (cut_memmap 0x4100 0x5001) (λ _ s', mmap_ok s' ∧
    ∀ a, is_free s' a ↔ is_free boot_demo a ∧ ¬ rounddown 0x4100 I386_PAGE_SIZE ≤ a < roundup 0x5001 I386_PAGE_SIZE) boot_demo ∧
  ∃ p s', pg_alloc_page boot_demo = Ret (p, s') ∧ page_taken boot_demo p s' ∧ p = 0x1FF000.
Proof.
  destruct (boot_memory_refines boot_demo boot_demo_ok) as (Hcut & _ & Halloc); [done|]. split; [by apply Hcut|].
  destruct Halloc as [(p & s' & Hr & Ht) | [Hr _]]; [|by vm_compute in Hr]. exists p, s'. split; [exact Hr|]. split; [exact Ht|].
  vm_compute in Hr. congruence.
Defined.

(** [pg_map] gives every page of a boot process a page frame of its own.  For a range below
    the kernel that lies above what was mapped before, with page tables left, the loop ends, and
    unless memory runs out every page of the range is mapped, through the page directory and one of
    the static tables, to a page that was free; no two pages get the same, what is left is
    exactly the rest of the free memory, and the tables stay consistent for the next range. *)
Theorem pg_map_gives_own_pages vir2phys kern_vir_start v vend s :
  mmap_ok s → tables_ok vir2phys s → 0 ≤ v < kern_vir_start → is_page v → vend ≤ LIMIT → tables_left s v vend →
  unless_full (pg_map vir2phys kern_vir_start PG_ALLOCATEME v vend)
    (λ _ s', ∃ v' f, vend ≤ v' ∧ range_mapped vir2phys s s' v v' f) s.
Proof.
  intros Hs Ht Hv Hp Hend Hleft. unfold pg_map. apply unless_full_bind, unless_full_wp, wp_assert; [apply Hs|].
  change (PG_ALLOCATEME =? PG_ALLOCATEME) with true. cbv iota. apply unless_full_bind, unless_full_wp, wp_assert; [by apply Z.eqb_eq|].
  apply unless_full_bind, unless_full_wp, wp_assert; [apply Z.ltb_lt; lia|].
  apply (pg_map_loop_spec vir2phys s _ v v vend (λ _, 0)); [|lia|done|done| |unfold map_rounds; lia|done].
  - split; [done|done|intros; lia|intros; lia|intros; lia|]. intros a. split; [|tauto]. intros H. split; [done|]. lia.
  - unfold map_rounds, I386_PAGE_SIZE. div_lia.
Qed.
Lemma pg_map_gives_own_pages_witness :
  unless_full (pg_map (λ t, 0x800000 + 0x1000 * t) 0xF0000000 PG_ALLOCATEME 0x400000 0x403000)
    (λ _ s', ∃ v' f, 0x403000 ≤ v' ∧ range_mapped (λ t, 0x800000 + 0x1000 * t) boot_demo s' 0x400000 v' f) boot_demo.
Proof.
  apply (pg_map_gives_own_pages (λ t, 0x800000 + 0x1000 * t) 0xF0000000 0x400000 0x403000 boot_demo).
  - exact boot_demo_ok.
  - split; [done|by left].
  - lia.
  - done.
  - done.
  - split; done.
Defined.

(** [alloc_lowest] passes a length where [cut_memmap] takes an end: unless the memory is at the
    very bottom nothing is taken out, and the next call returns the same memory. *)
Theorem alloc_lowest_twice :
  wp (a ← alloc_lowest 0x1000; b ← alloc_lowest 0x1000; mret (a, b)) (λ r _, r = (0x1000, 0x1000)) boot_demo.
Proof. vm_compute. reflexivity. Qed.

(** [add_memmap] rounds the start of a range up and its length down, each on its own, so that a
    range that does not start at a page is moved: memory after its end is taken for free. *)
Theorem add_memmap_past_end :
  ¬ in_range 0x302FFF 0x301800 0x1000 ∧ wp (add_memmap 0x301800 0x1000) (λ _ s', is_free s' 0x302FFF) boot_demo.
Proof. split; [unfold in_range; lia|]. vm_compute. exists 2. done. Qed.
