(* ===== verification/HKcalls.v ===== *)
(** * Kernel calls of VM on behalf of hardened processes

    do_addregionto_ws, do_free_pmbs, do_hmem_map and do_hsr (kernel/system/).  The fields of the
    request are words of the message ([mess_10] of include/minix/ipc.h: four ints, three longs);
    the library functions sys_* of lib/libsys fill them in. *)
From S2P Require Import Prelude LinkedList Kernel Endpoint HMem WorkingSet HShared.

Definition m10_i1 : message → Z := m_word 0.
Definition m10_i2 : message → Z := m_word 1.
Definition m10_i3 : message → Z := m_word 2.
Definition m10_i4 : message → Z := m_word 3.
Definition m10_l1 : message → Z := m_word 4.
Definition m10_l2 : message → Z := m_word 5.
Definition m10_l3 : message → Z := m_word 6.

(** ** The calls *)

Definition do_addregionto_ws (m_ptr : message) : K Z :=
  ok ← gets (λ k, isokendpt k (m10_i4 m_ptr));
  match ok with
  | None => mret EINVAL
  | Some p =>
      hard ← gets (λ k, has (p_hflags (hp k p)) PROC_TO_HARD);
      (if hard : bool then
         root ← gets (λ k, p_cr3 (proctab k p));
         add_region_to_ws p root (u32 (m10_l1 m_ptr)) (m10_i3 m_ptr) (u32 (m10_l2 m_ptr)) (u32 (m10_l3 m_ptr));;
         mret ()
       else mret ());;
      mret OK
  end.

Definition do_free_pmbs (m_ptr : message) : K Z :=
  ok ← gets (λ k, isokendpt k (m10_i1 m_ptr));
  match ok with
  | None => mret EINVAL
  | Some p =>
      hard ← gets (λ k, has (p_hflags (hp k p)) PROC_TO_HARD);
      (if hard : bool then free_pram_mem_block_vaddr p (u32 (m10_l1 m_ptr)) (m10_i2 m_ptr) else mret ());;
      mret OK
  end.

Definition share_region (p vaddr_ length rid : Z) : K unit :=
  add_hsr p vaddr_ length rid;;
  modify_hproc p (λ h, h <| p_hflags ::= set_flag PROC_SHARING_MEM |>).

Definition do_hsr (m_ptr : message) : K Z :=
  ok ← gets (λ k, isokendpt k (m10_i4 m_ptr));
  match ok with
  | None => mret EINVAL
  | Some p =>
      hard ← gets (λ k, has (p_hflags (hp k p)) PROC_TO_HARD);
      (if hard : bool then share_region p (u32 (m10_l1 m_ptr)) (u32 (m10_l2 m_ptr)) (m10_i3 m_ptr) else mret ());;
      mret OK
  end.

(** The longs are compared with -10, 0 and -2 as signed words. *)
Definition do_hmem_map (m_ptr : message) : K Z :=
  let first_addr := m10_l1 m_ptr in
  let second_addr := m10_l2 m_ptr in
  let pram2_addr := m10_l3 m_ptr in
  ok ← gets (λ k, isokendpt k (m10_i4 m_ptr));
  match ok with
  | None => mret EINVAL
  | Some p =>
      if pram2_addr =? -10 then
        hard ← gets (λ k, has (p_hflags (hp k p)) PROC_TO_HARD);
        (if hard : bool then share_region p (u32 first_addr) (u32 second_addr) (m10_i3 m_ptr) else mret ());;
        mret OK
      else if (pram2_addr =? 0) && (second_addr =? 0) then
        modify_h (λ h, h <| h_can_start_hardening := 1 |>);; mret OK
      else
        found ← look_up_lastpf_pte p;
        match found with
        | None => panic "pmb is NULL, should not happen"
        | Some b =>
            a ← gets (λ k, pte_addr (phys k) (p_cr3 (proctab k p)) (vaddr (working_set k b)));
            pte_v ← phys_get32 a;
            pte_v ← (if (pram2_addr =? -2) && (second_addr =? -2) then
                       modify_pmb b (λ x, x <| us1 := u32 first_addr |>);;
                       mret (Z.lor (Z.lor (Z.land pte_v I386_VM_ADDR_MASK_INV) I386_VM_WRITE) (u32 first_addr))
                     else mret pte_v);
            pte_v ← (if (pram2_addr =? -2) && (first_addr =? -2) then
                       modify_pmb b (λ x, x <| us2 := u32 second_addr |>);;
                       mret (Z.lor (Z.lor (Z.land pte_v I386_VM_ADDR_MASK_INV) I386_VM_WRITE) (u32 second_addr))
                     else mret pte_v);
            phys_set32 a pte_v;;
            mret OK
        end
  end.

(** ** The library side (lib/libsys): what VM puts into the message *)

Definition sys_addregionto_ws (proc_endpt raddr rlength us1_ us2_ : Z) : K Z :=
  do_addregionto_ws (mk_message VM_PROC_NR 0 [0; 0; rlength; proc_endpt; i32 raddr; i32 us1_; i32 us2_]).
Definition sys_free_pmbs (proc_endpt raddr rlength : Z) : K Z :=
  do_free_pmbs (mk_message VM_PROC_NR 0 [proc_endpt; rlength; 0; 0; i32 raddr]).
Definition sys_hmem_map (proc_endpt first_phys second_phys pram2_phys r_id : Z) : K Z :=
  do_hmem_map (mk_message VM_PROC_NR 0 [0; 0; r_id; proc_endpt; i32 first_phys; i32 second_phys; i32 pram2_phys]).
Definition sys_hsr (proc_endpt hsr_vaddr hsr_length r_id : Z) : K Z :=
  do_hsr (mk_message VM_PROC_NR 0 [0; 0; r_id; proc_endpt; i32 hsr_vaddr; i32 hsr_length]).

Lemma u32_i32 x : u32 (i32 x) = u32 x.
Proof.
  unfold u32, i32. rewrite Zminus_mod_idemp_l. f_equal. lia.
Qed.
