(* ===== verification/WsList.v ===== *)
(** * The list of blocks of a hardened process, as a sequence

    What the walks of pram.c and vmpram.c compute on a well-formed list, and what adding a page
    does to the list of the kernel ([do_addregionto_ws]). *)
From S2P Require Import Prelude LinkedList Kernel Endpoint HMem WorkingSet HKcalls.

(** ** Walks *)

Lemma last_default {A} (x : A) l d : List.last (x :: l) d = List.last l x.
Proof.
  revert x d. induction l as [|y l IH]; intros x d; [done|].
  change (List.last (y :: l) d = List.last (y :: l) x). by rewrite !IH.
Qed.

Lemma last_elem {A} (x : A) l : List.last l x ∈ x :: l.
Proof. revert x. induction l as [|y l IH]; intros x; [by left|]. rewrite last_default. right. apply IH. Qed.

Section walks.
Context (next : Z → option Z).

Lemma find_block_chain fuel stop l : ∀ start,
  chain next start l None → (length l ≤ fuel)%nat → find_block fuel next start stop = List.find stop l.
Proof.
  revert l. induction fuel as [|fuel IH]; intros [|b l] start Hc Hlen; simpl in Hc, Hlen; try lia.
  - by subst.
  - by subst.
  - destruct Hc as [-> Hc]. cbn [find_block List.find]. destruct (stop b); [done|]. apply IH; [done|lia].
Qed.

Lemma last_block_chain fuel l : ∀ b,
  chain next (next b) l None → (length l ≤ fuel)%nat → last_block fuel next b = List.last l b.
Proof.
  revert l. induction fuel as [|fuel IH]; intros [|c l] b Hc Hlen; simpl in Hlen; try lia; try done.
  - cbn [last_block]. simpl in Hc. by rewrite Hc.
  - destruct Hc as [Hn Hc]. cbn [last_block]. rewrite Hn, (IH l) by (done || lia). by rewrite last_default.
Qed.
End walks.

(** The search for a free slot finds one, when a slot before the last is free. *)
Lemma scan_slot_spec free end_ fuel : ∀ b,
  (∃ j, b < j < end_ ∧ free j = true) → end_ ≤ b + Z.of_nat fuel →
  b < scan_slot fuel free end_ b < end_ ∧ free (scan_slot fuel free end_ b) = true.
Proof.
  induction fuel as [|fuel IH]; intros b (j & Hj & Hf) Hfu; [lia|]. cbn [scan_slot].
  destruct (free (b + 1)) eqn:E; cbn [negb andb]; [split; [lia|done]|].
  destruct (Z.ltb_spec (b + 1) end_); [|lia]. destruct (IH (b + 1)) as [H1 H2]; [|lia|split; [lia|done]].
  exists j. split; [|done]. destruct (decide (j = b + 1)) as [->|]; [congruence|lia].
Qed.

(** Linking a new block behind the last one. *)
Lemma chain_snoc_upd (next : Z → option Z) f l b :
  chain next (Some f) (f :: l) None → b ∉ f :: l →
  chain (upd (upd next (List.last l f) (Some b)) b None) (Some f) ((f :: l) ++ [b]) None.
Proof.
  intros Hc Hb. pose proof (chain_NoDup _ _ _ Hc) as Hnd.
  assert (last (f :: l) = Some (List.last l f)) as Hlast.
  { clear. revert f. induction l as [|x l IH]; intros f; [done|]. by rewrite last_cons_cons, IH, last_default. }
  apply last_Some in Hlast as [l0 El]. rewrite El in *. clear El. set (y := List.last l f) in *.
  assert (b ≠ y) as Hby by (intros ->; apply Hb; apply elem_of_app; right; left).
  apply chain_app. exists (Some b). split.
  - apply chain_app in Hc as (m & Hc1 & Hc2). destruct Hc2 as [-> Hy]. apply chain_app. exists (Some y). split.
    + eapply chain_ext; [|exact Hc1]. intros x Hx. unfold upd. rewrite !decide_False; [done| |].
      * intros ->. apply NoDup_app in Hnd as (_ & Hd & _). apply (Hd y Hx). left.
      * intros ->. apply Hb. apply elem_of_app. by left.
    + cbn [chain]. split; [done|]. unfold upd. by rewrite decide_False, decide_True.
  - cbn [chain]. split; [done|]. unfold upd. by rewrite decide_True.
Qed.

(** ** Pages *)

Definition vpage (a : Z) : Z * Z := (I386_VM_PDE a, I386_VM_PTE a).
Lemma vpage_arith a : 0 ≤ a → I386_VM_PDE a = a / 2 ^ 22 ∧ I386_VM_PTE a = a / 2 ^ 12 mod 1024.
Proof.
  intros. unfold I386_VM_PDE, I386_VM_PTE. rewrite !Z.shiftr_div_pow2 by lia. split; [done|].
  change 0x3FF with (Z.ones 10). by rewrite Z.land_ones by lia.
Qed.
Lemma page_base_aligned a : 0 ≤ a < 2 ^ 32 → a mod 4096 = 0 → page_base a = a.
Proof.
  intros Ha Hm. unfold page_base. destruct (vpage_arith a) as [-> ->]; [lia|].
  unfold I386_VM_PT_ENTRIES, I386_PAGE_SIZE. rewrite u32_id; div_lia.
Qed.
Lemma one_page a : 0 ≤ a < 2 ^ 32 → a mod 4096 = 0 → n_pages_covered a 1 = 1.
Proof.
  intros Ha Hm. unfold n_pages_covered. rewrite page_base_aligned by done.
  replace (1 + (a - a) - 1) with 0 by lia. done.
Qed.
Lemma vpage_inj a b :
  0 ≤ a < 2 ^ 32 → 0 ≤ b < 2 ^ 32 → a mod 4096 = 0 → b mod 4096 = 0 → vpage a = vpage b → a = b.
Proof.
  intros Ha Hb Hma Hmb [= E1 E2]. rewrite <-(page_base_aligned a), <-(page_base_aligned b) by done.
  unfold page_base. by rewrite E1, E2.
Qed.

(** ** The kernel's list *)

Record ws_list (k : kstate) (p : Z) (l : list Z) : Prop := {
  wl_chain : chain (pmb_next k) (p_lus1_us2 (hp k p)) l None;
  wl_size : p_lus1_us2_size (hp k p) = Z.of_nat (length l);
  wl_len : (length l < HLIST_FUEL)%nat;
  wl_used : Forall (λ b, pmb_free k b = false) l;
}.
(** What both sides know of a page: its address and its frames for the two runs. *)
Definition kview (k : kstate) (l : list Z) : list (Z * Z * (Z * Z)) :=
  (λ b, let x := working_set k b in (vpage (vaddr x), (us1 x, us2 x))) <$> l.
Definition kslot (k : kstate) : Prop := ∃ j, 0 ≤ j < WORKING_SET_SIZE - 1 ∧ pmb_free k j = true.

(** Everything but blocks and the head of the list of [p]. *)
Record ws_frame (p : Z) (k k' : kstate) : Prop := {
  wf_only : k' = k <| working_set := working_set k' |> <| proctab := proctab k' |>;
  wf_self : ∃ h n, proctab k' p = proctab k p <| p_h ::= λ x, x <| p_lus1_us2 := h |> <| p_lus1_us2_size := n |> |>;
  wf_other q : q ≠ p → proctab k' q = proctab k q;
}.

Lemma look_up_pte_list k p l pde pte :
  ws_list k p l → look_up_pte k p pde pte = List.find (same_page k pde pte) l.
Proof.
  intros [Hc Hs Hl _]. unfold look_up_pte. rewrite Hs. destruct l as [|b l].
  - done.
  - rewrite (proj2 (Z.ltb_lt _ _)) by (cbn; lia). apply find_block_chain; [done|lia].
Qed.

Lemma find_view k l pde pte :
  match List.find (same_page k pde pte) l with
  | Some b => b ∈ l ∧ vpage (vaddr (working_set k b)) = (pde, pte)
  | None => ∀ e, e ∈ kview k l → e.1 ≠ (pde, pte)
  end.
Proof.
  induction l as [|b l IH]; cbn [List.find kview fmap list_fmap]; [by intros e ?%elem_of_nil|].
  unfold same_page at 1. destruct (Z.eqb_spec (I386_VM_PTE (vaddr (working_set k b))) pte) as [E1|E1];
    [destruct (Z.eqb_spec (I386_VM_PDE (vaddr (working_set k b))) pde) as [E2|E2]|]; cbn [andb].
  - split; [left|]. unfold vpage. congruence.
  - destruct (List.find _ l); [destruct IH; split; [by right|done]|].
    intros e [->|He]%elem_of_cons; [cbn; unfold vpage; congruence|by apply IH].
  - destruct (List.find _ l); [destruct IH; split; [by right|done]|].
    intros e [->|He]%elem_of_cons; [cbn; unfold vpage; congruence|by apply IH].
Qed.

Lemma get_pmb_spec k :
  kslot k → ∃ b, get_pmb k = Ret (b, upd_pmb b pmb_taken k) ∧ pmb_free k b = true ∧ 0 ≤ b < WORKING_SET_SIZE - 1.
Proof.
  intros (j & Hj & Hf). unfold get_pmb. rewrite run_gets. destruct (pmb_free k 0) eqn:E0.
  { exists 0. split; [done|]. by unfold WORKING_SET_SIZE. }
  destruct (scan_slot_spec (pmb_free k) (WORKING_SET_SIZE - 1) HLIST_FUEL 0) as [H1 H2].
  { exists j. split; [|done]. destruct (decide (j = 0)) as [->|]; [congruence|lia]. }
  { unfold HLIST_FUEL, WORKING_SET_SIZE. rewrite Z2Nat.id by lia. lia. }
  rewrite run_gets. set (b := scan_slot _ _ _ _) in *. clearbody b.
  rewrite (proj2 (Z.leb_gt _ _)) by lia. exists b. split; [done|]. split; [done|lia].
Qed.

(** Equal up to the link. *)
Definition but_link (x y : pram_mem_block) : Prop := ∃ nx, x = y <| next_pmb := nx |>.
Lemma but_link_refl x : but_link x x.
Proof. exists (next_pmb x). by destruct x. Qed.

(** [link_pmb] appends; [b] is a block outside the list. *)
Lemma link_pmb_spec k p l b :
  chain (pmb_next k) (p_lus1_us2 (hp k p)) l None → p_lus1_us2_size (hp k p) = Z.of_nat (length l) →
  (length l < HLIST_FUEL)%nat → b ∉ l → pmb_next k b = None →
  wp (link_pmb p b) (λ _ k', ws_frame p k k' ∧
    chain (pmb_next k') (p_lus1_us2 (hp k' p)) (l ++ [b]) None ∧
    p_lus1_us2_size (hp k' p) = Z.of_nat (length (l ++ [b])) ∧
    (∀ c, c ≠ b → but_link (working_set k' c) (working_set k c)) ∧
    ∃ id, working_set k' b = working_set k b <| pmb_id := id |> <| next_pmb := None |>) k.
Proof.
  intros Hc Hs Hlen Hb Hnb. unfold link_pmb, modify_hproc, modify_pmb, modify_proc. wp_steps. rewrite Hs.
  destruct l as [|f l].
  - change (Z.of_nat (length []) =? 0) with true. cbv iota. wp_steps. unfold hp, pmb_next, upd_pmb, upd_proc.
    cbn [working_set proctab set]. rewrite !upd_eq. cbn [p_h p_lus1_us2 p_lus1_us2_size set app length].
    split; [|split; [|split; [|split]]].
    + split; [by destruct k| |intros q Hq; cbn [proctab set]; by rewrite !upd_ne]. cbn [proctab set]. rewrite !upd_eq.
      eexists _, _. reflexivity.
    + split; [done|]. rewrite upd_eq. exact Hnb.
    + unfold hp in Hs. rewrite Hs. done.
    + intros c Hcb. rewrite upd_ne by done. apply but_link_refl.
    + exists 0. unfold pmb_next in Hnb. destruct (working_set k b). cbn in *. by subst.
  - rewrite (proj2 (Z.eqb_neq _ _)) by (cbn; lia). destruct Hc as [Hf Hc]. rewrite Hf. wp_steps.
    rewrite (last_block_chain (pmb_next k) HLIST_FUEL l f Hc) by (cbn in Hlen; lia). set (y := List.last l f).
    assert (y ∈ f :: l) as Hy by apply last_elem.
    assert (b ≠ y) as Hby by (by intros ->).
    assert (chain (upd (upd (pmb_next k) y (Some b)) b None) (Some f) ((f :: l) ++ [b]) None) as Hc'.
    { apply chain_snoc_upd; [by split|done]. }
    unfold hp, upd_pmb, upd_proc. cbn [working_set proctab set]. rewrite !upd_eq. cbn [p_h p_lus1_us2 p_lus1_us2_size set].
    split; [|split; [|split; [|split]]].
    + split; [by destruct k| |intros q Hq; cbn [proctab set]; by rewrite !upd_ne]. cbn [proctab set]. rewrite !upd_eq.
      exists (p_lus1_us2 (hp k p)), (p_lus1_us2_size (hp k p) + 1). unfold hp.
      destruct (proctab k p) as [? ? ? ? ? ? ? ? ? ? ? ? ? ? ? ? ? ? ? ? ? ? ? ? ? ? ? ? ? ? ? ? []]. reflexivity.
    + unfold hp in Hf. rewrite Hf. eapply chain_ext; [|exact Hc']. intros x Hx. unfold pmb_next. cbn [working_set set].
      unfold upd. repeat case_decide; subst; try done.
    + unfold hp in Hs. rewrite Hs, length_app. cbn. lia.
    + intros c Hcb. rewrite !upd_ne by done. rewrite upd_case. case_decide as E; [|apply but_link_refl].
      subst c. by eexists.
    + exists (Z.of_nat (length (f :: l))). rewrite !upd_ne by done. by destruct (working_set k b).
Qed.

Lemma add_pmb_vaddr_spec k p l pfa va u1 u2 :
  ws_list k p l → kslot k → (S (length l) < HLIST_FUEL)%nat →
  wp (add_pmb_vaddr p pfa va u1 u2) (λ b k', ws_list k' p (l ++ [b]) ∧ ws_frame p k k' ∧ (b ∉ l) ∧ pmb_free k b = true ∧
    (∀ c, c ≠ b → but_link (working_set k' c) (working_set k c)) ∧
    ∃ id, working_set k' b = pmb_taken (working_set k b) <| us0 := pfa |> <| vaddr := va |> <| us1 := u1 |>
                               <| us2 := u2 |> <| pmb_id := id |> <| next_pmb := None |>) k.
Proof.
  intros [Hc Hs Hl Hu] Hk Hlen. destruct (get_pmb_spec k Hk) as (b & Hg & Hf & Hb).
  assert (b ∉ l) as Hbl. { intros Hin. rewrite Forall_forall in Hu. by rewrite Hu in Hf. }
  unfold add_pmb_vaddr. apply wp_bind. eapply wp_intro; [exact Hg|]. apply wp_bind, wp_modify.
  set (k1 := upd_pmb b _ (upd_pmb b _ k)). apply wp_bind.
  assert (∀ c, c ≠ b → working_set k1 c = working_set k c) as Hother.
  { intros c Hcb. unfold k1, upd_pmb. cbn [working_set set]. by rewrite !upd_ne. }
  eapply wp_mono; [apply (link_pmb_spec k1 p l b); try done|].
  - eapply chain_ext; [|exact Hc]. intros c Hcl. unfold pmb_next. rewrite Hother; [done|]. by intros ->.
  - unfold k1, pmb_next, upd_pmb. cbn [working_set set]. by rewrite !upd_eq.
  - intros [] k' (Hfr & Hc' & Hs' & Hbut & id & Hbb). apply wp_ret.
    assert (working_set k' b = (pmb_taken (working_set k b) <| us0 := pfa |> <| vaddr := va |> <| us1 := u1 |> <| us2 := u2 |>)
      <| pmb_id := id |> <| next_pmb := None |>) as Hbb'.
    { rewrite Hbb. unfold k1, upd_pmb. cbn [working_set set]. by rewrite !upd_eq. }
    split; [|split; [|split; [done|split; [done|split]]]].
    + split; [done|done|rewrite length_app; cbn; lia|]. apply Forall_app. split.
      * rewrite Forall_forall in Hu |- *. intros c Hcl. unfold pmb_free.
        destruct (Hbut c) as [nx ->]; [by intros ->|]. rewrite Hother by (by intros ->). exact (Hu c Hcl).
      * constructor; [|done]. unfold pmb_free. rewrite Hbb'. cbn [pmb_flags set pmb_taken]. apply has_clear_self.
    + destruct Hfr as [E1 E2 E3]. split; [|exact E2|exact E3]. rewrite E1. by destruct k.
    + intros c Hcb. rewrite <-Hother by done. by apply Hbut.
    + by exists id.
Qed.

(** The table: a free slot has no other flag, and no slot would be freed by restoring its flags. *)
Record ktab_ok (k : kstate) : Prop := {
  kt_free b : pmb_free k b = true → pmb_flags (working_set k b) = HSLOT_FREE;
  kt_saved b : has (pmb_iflags (working_set k b)) HSLOT_FREE = false;
}.

(** Steps that only touch flags and [us0] of blocks in use. *)
Definition but_flags (x y : pram_mem_block) : Prop := ∃ f u, x = y <| pmb_flags := f |> <| us0 := u |>.
Definition flag_step (k k' : kstate) : Prop :=
  k' = k <| working_set := working_set k' |> ∧
  ∀ b, but_flags (working_set k' b) (working_set k b) ∧
       (working_set k' b ≠ working_set k b → pmb_free k b = false ∧ pmb_free k' b = false).
Lemma but_flags_refl x : but_flags x x.
Proof. exists (pmb_flags x), (us0 x). by destruct x. Qed.

Lemma flag_step_list k k' p l : flag_step k k' → ws_list k p l → ws_list k' p l ∧ kview k' l = kview k l.
Proof.
  intros [Hk Hb] [Hc Hs Hl Hu]. assert (proctab k' = proctab k) as Hp by (rewrite Hk; done).
  split.
  - split; unfold hp; rewrite ?Hp; try done.
    + eapply chain_ext; [|exact Hc]. intros b _. unfold pmb_next. by destruct (Hb b) as [(f & u & ->) _].
    + eapply Forall_impl; [exact Hu|]. intros b Hf. cbv beta in Hf |- *. destruct (pmb_free k' b) eqn:E; [|done].
      destruct (Hb b) as [(f & u & E') Hch]. destruct (decide (pmb_flags (working_set k' b) = pmb_flags (working_set k b))) as [E2|E2].
      * unfold pmb_free in *. congruence.
      * destruct Hch as [_ ?]; [congruence|congruence].
  - unfold kview. apply list_fmap_ext. intros i b _. by destruct (Hb b) as [(f & u & ->) _].
Qed.
Lemma flag_step_tab k k' : flag_step k k' → ktab_ok k → ktab_ok k'.
Proof.
  intros [_ Hb] [Hf Hs]. split; intros b.
  - intros E. destruct (Hb b) as [(f & u & E') Hch]. destruct (decide (pmb_flags (working_set k' b) = pmb_flags (working_set k b))) as [E2|E2].
    + rewrite E2. apply Hf. unfold pmb_free in *. congruence.
    + destruct Hch as [_ ?]; [congruence|congruence].
  - destruct (Hb b) as [(f & u & ->) _]. apply Hs.
Qed.

(** The flags of the page after [add_region_to_ws]: labels of fork and exec give way to the saved
    flags, and the page is to be updated. *)
Definition relabel (lbl : Z) (x : pram_mem_block) : pram_mem_block :=
  if has (pmb_flags x) lbl then x <| pmb_flags := clear_flag lbl (pmb_iflags x) |> else x.
Definition page_marked (x : pram_mem_block) : pram_mem_block :=
  relabel H_EXEC (relabel H_FORK x) <| pmb_flags ::= set_flag H_TO_UPDATE |>.

Lemma relabel_free lbl x :
  Z.land lbl HSLOT_FREE = 0 → has (pmb_flags x) HSLOT_FREE = false → has (pmb_iflags x) HSLOT_FREE = false →
  has (pmb_flags (relabel lbl x)) HSLOT_FREE = false ∧ pmb_iflags (relabel lbl x) = pmb_iflags x ∧
  ∃ f, relabel lbl x = x <| pmb_flags := f |>.
Proof.
  intros Hl Hf Hi. unfold relabel. destruct (has (pmb_flags x) lbl).
  - split; [cbn [pmb_flags set]; by rewrite has_clear_other|]. split; [done|]. by eexists.
  - split; [done|]. split; [done|]. exists (pmb_flags x). by destruct x.
Qed.
Lemma page_marked_spec x :
  has (pmb_flags x) HSLOT_FREE = false → has (pmb_iflags x) HSLOT_FREE = false →
  has (pmb_flags (page_marked x)) HSLOT_FREE = false ∧ has (pmb_flags (page_marked x)) H_TO_UPDATE = true ∧
  ∃ f, page_marked x = x <| pmb_flags := f |>.
Proof.
  intros Hf Hi. destruct (relabel_free H_FORK x eq_refl Hf Hi) as (H1 & H2 & f1 & E1).
  destruct (relabel_free H_EXEC (relabel H_FORK x) eq_refl H1) as (H3 & H4 & f2 & E2); [by rewrite H2|].
  unfold page_marked. cbn [pmb_flags set]. split; [by rewrite has_set_other|]. split; [by apply has_set_self|].
  rewrite E2, E1. by eexists.
Qed.

Lemma mark_page_spec k b :
  ktab_ok k → pmb_free k b = false →
  wp (modify_pmb b (λ x, if has (pmb_flags x) H_FORK then x <| pmb_flags := clear_flag H_FORK (pmb_iflags x) |> else x);;
      modify_pmb b (λ x, if has (pmb_flags x) H_EXEC then x <| pmb_flags := clear_flag H_EXEC (pmb_iflags x) |> else x);;
      set_pmb_flag b H_TO_UPDATE)
    (λ _ k', flag_step k k' ∧ us0 (working_set k' b) = us0 (working_set k b) ∧
             has (pmb_flags (working_set k' b)) H_TO_UPDATE = true) k.
Proof.
  intros [_ Hs] Hf. unfold set_pmb_flag, modify_pmb. wp_steps. set (k' := upd_pmb b _ _).
  assert (working_set k' b = page_marked (working_set k b)) as Eb.
  { unfold k', upd_pmb. cbn [working_set set]. by rewrite !upd_eq. }
  assert (∀ c, c ≠ b → working_set k' c = working_set k c) as Eo.
  { intros c Hc. unfold k', upd_pmb. cbn [working_set set]. by rewrite !upd_ne. }
  destruct (page_marked_spec (working_set k b) Hf (Hs b)) as (H1 & H2 & f & E).
  split; [split|split].
  - unfold k', upd_pmb. by destruct k.
  - intros c. destruct (decide (c = b)) as [->|Hc].
    + split; [exists f, (us0 (working_set k b)); rewrite Eb, E; by destruct (working_set k b)|].
      intros _. split; [done|]. unfold pmb_free. by rewrite Eb.
    + rewrite Eo by done. split; [apply but_flags_refl|done].
  - by rewrite Eb, E.
  - by rewrite Eb.
Qed.

Lemma kview_app k l l' : kview k (l ++ l') = kview k l ++ kview k l'.
Proof. apply fmap_app. Qed.
Lemma kview_ext k k' l :
  (∀ b, b ∈ l → vaddr (working_set k' b) = vaddr (working_set k b) ∧ us1 (working_set k' b) = us1 (working_set k b) ∧
                us2 (working_set k' b) = us2 (working_set k b)) → kview k' l = kview k l.
Proof.
  intros Hb. unfold kview. apply list_fmap_ext. intros i b Hi.
  destruct (Hb b) as (-> & -> & ->); [by eapply list_elem_of_lookup_2|done].
Qed.

(** The view of a list after a page was reported with these frames. *)
Definition view_add (pg : Z * Z) (fr : Z * Z) (w : list (Z * Z * (Z * Z))) : list (Z * Z * (Z * Z)) :=
  if bool_decide (pg ∈ w.*1) then w else w ++ [(pg, fr)].

Definition frame_of (k : kstate) (p v : Z) : Z := I386_VM_PFA (phys k (pte_addr (phys k) (p_cr3 (proctab k p)) v)).

(** One page: its block is there afterwards, with the committed frame that the page table has. *)
Lemma add_page_to_ws_spec k p l v u1 u2 :
  ws_list k p l → ktab_ok k → kslot k → (S (length l) < HLIST_FUEL)%nat →
  wp (add_page_to_ws p (p_cr3 (proctab k p)) v u1 u2) (λ _ k', ∃ l',
    ws_list k' p l' ∧ ktab_ok k' ∧ ws_frame p k k' ∧ kview k' l' = view_add (vpage v) (u1, u2) (kview k l) ∧
    (length l' ≤ S (length l))%nat ∧
    ∃ b, b ∈ l' ∧ vpage (vaddr (working_set k' b)) = vpage v ∧ us0 (working_set k' b) = frame_of k p v ∧
         has (pmb_flags (working_set k' b)) H_TO_UPDATE = true) k.
Proof.
  intros Hl Ht Hk Hlen. unfold add_page_to_ws. wp_steps. change (I386_VM_PFA _) with (frame_of k p v).
  rewrite (look_up_pte_list k p l) by done. pose proof (find_view k l (I386_VM_PDE v) (I386_VM_PTE v)) as Hfind.
  destruct (List.find _ l) as [b|].
  - destruct Hfind as [Hbl Hpg]. apply wp_bind, wp_modify, wp_ret. set (k1 := upd_pmb b _ k).
    assert (pmb_free k b = false) as Hu by (pose proof (wl_used _ _ _ Hl) as Hx; rewrite Forall_forall in Hx; by apply Hx).
    assert (working_set k1 b = working_set k b <| us0 := frame_of k p v |>) as Eb.
    { unfold k1, upd_pmb. cbn [working_set set]. by rewrite !upd_eq. }
    assert (flag_step k k1) as Hst.
    { split; [unfold k1, upd_pmb; by destruct k|]. intros c. unfold k1, upd_pmb. cbn [working_set set].
      rewrite upd_case. case_decide as E; [subst c|split; [apply but_flags_refl|done]].
      split; [exists (pmb_flags (working_set k b)), (frame_of k p v); by destruct (working_set k b)|].
      intros _. split; [done|]. unfold pmb_free. cbn [working_set set]. by rewrite upd_eq. }
    destruct (flag_step_list k k1 p l Hst Hl) as [Hl1 Hv1]. pose proof (flag_step_tab _ _ Hst Ht) as Ht1.
    eapply wp_mono; [apply mark_page_spec; [done|]; unfold pmb_free; by rewrite Eb|].
    intros [] k2 (Hst2 & Hus & Hup). destruct (flag_step_list k1 k2 p l Hst2 Hl1) as [Hl2 Hv2].
    exists l. split; [done|]. split; [by eapply flag_step_tab|]. split; [|split; [|split; [lia|]]].
    + destruct Hst2 as [E _]. split.
      * rewrite E. unfold k1, upd_pmb. by destruct k.
      * exists (p_lus1_us2 (hp k p)), (p_lus1_us2_size (hp k p)). rewrite E. unfold k1, upd_pmb, hp. cbn [proctab set].
        destruct (proctab k p) as [? ? ? ? ? ? ? ? ? ? ? ? ? ? ? ? ? ? ? ? ? ? ? ? ? ? ? ? ? ? ? ? []]. reflexivity.
      * intros q _. rewrite E. done.
    + rewrite Hv2, Hv1. unfold view_add. rewrite bool_decide_true; [done|]. apply list_elem_of_fmap.
      exists (vpage (vaddr (working_set k b)), (us1 (working_set k b), us2 (working_set k b))).
      split; [by rewrite Hpg|]. unfold kview. apply list_elem_of_fmap. by exists b.
    + exists b. split; [done|]. destruct Hst2 as [_ Hb2]. destruct (Hb2 b) as [(f & u & E) _].
      rewrite Hus, Eb. split; [rewrite E, Eb; exact Hpg|]. by split.
  - eapply wp_mono; [by apply add_pmb_vaddr_spec|].
    intros b k1 (Hl1 & Hf1 & Hbl & Hfree & Hother & id & Eb). cbv beta.
    assert (pmb_flags (working_set k1 b) = 0) as Hfl.
    { rewrite Eb. cbn [pmb_flags set pmb_taken]. by rewrite (kt_free _ Ht b Hfree). }
    assert (ktab_ok k1) as Ht1.
    { split; intros c; destruct (decide (c = b)) as [->|Hc].
      - unfold pmb_free. rewrite Hfl. done.
      - unfold pmb_free. destruct (Hother c Hc) as [nx ->]. apply (kt_free _ Ht).
      - rewrite Eb. apply (kt_saved _ Ht).
      - destruct (Hother c Hc) as [nx ->]. apply (kt_saved _ Ht). }
    eapply wp_mono; [apply mark_page_spec; [done|]; unfold pmb_free; by rewrite Hfl|].
    intros [] k2 (Hst2 & Hus & Hup). destruct (flag_step_list k1 k2 p _ Hst2 Hl1) as [Hl2 Hv2].
    exists (l ++ [b]). split; [done|]. split; [by eapply flag_step_tab|]. split; [|split; [|split]].
    + destruct Hst2 as [E _]. destruct Hf1 as [E1 E2 E3]. split.
      * rewrite E, E1. by destruct k.
      * rewrite E. exact E2.
      * intros q Hq. rewrite E. by apply E3.
    + rewrite Hv2, kview_app. unfold view_add. rewrite bool_decide_false.
      * f_equal; [|cbn; by rewrite Eb]. apply kview_ext. intros c Hc.
        destruct (Hother c) as [nx ->]; [by intros ->|done].
      * intros (e & E & He)%list_elem_of_fmap. by apply (Hfind e).
    + rewrite length_app. cbn. lia.
    + exists b. split; [apply elem_of_app; right; left|]. destruct Hst2 as [_ Hb2]. destruct (Hb2 b) as [(f & u & E) _].
      split; [by rewrite E, Eb|]. split; [by rewrite Hus, Eb|done].
Qed.

(** The call that VM makes for one page. *)
Lemma sys_addregionto_ws_spec k e p l v u1 u2 :
  isokendpt k e = Some p → has (p_hflags (hp k p)) PROC_TO_HARD = true →
  ws_list k p l → ktab_ok k → kslot k → (S (length l) < HLIST_FUEL)%nat →
  0 ≤ v < 2 ^ 32 → v mod 4096 = 0 → 0 ≤ u1 < 2 ^ 32 → 0 ≤ u2 < 2 ^ 32 →
  wp (sys_addregionto_ws e v 1 u1 u2) (λ r k', r = OK ∧ ∃ l',
    ws_list k' p l' ∧ ktab_ok k' ∧ ws_frame p k k' ∧ kview k' l' = view_add (vpage v) (u1, u2) (kview k l) ∧
    (length l' ≤ S (length l))%nat ∧
    ∃ b, b ∈ l' ∧ vpage (vaddr (working_set k' b)) = vpage v ∧ us0 (working_set k' b) = frame_of k p v ∧
         has (pmb_flags (working_set k' b)) H_TO_UPDATE = true) k.
Proof.
  intros He Hh Hl Ht Hk Hlen Hv Hva H1 H2. unfold sys_addregionto_ws, do_addregionto_ws.
  unfold m10_i4, m10_i3, m10_l1, m10_l2, m10_l3, m_word. cbn [m_payload lookup list_lookup default id].
  apply wp_bind, wp_gets. rewrite He. apply wp_bind, wp_gets. rewrite Hh. apply wp_bind, wp_bind, wp_gets, wp_bind.
  rewrite !u32_i32, !u32_id by done. unfold add_region_to_ws. rewrite one_page, page_base_aligned by done.
  apply wp_bind. change (seqZ 0 1) with [0]. cbn [forM_]. replace (v + 0 * 4 * 1024) with v by lia. rewrite u32_id by done.
  apply wp_bind. eapply wp_mono; [by apply add_page_to_ws_spec|]. intros [] k' Hpost.
  do 4 apply wp_ret. by split.
Qed.
