(* ===== verification/VmServer.v ===== *)
(** * The virtual memory server: data, and the memory calls it makes (servers/vm)

    VM hands out physical pages (alloc.c), keeps blocks of memory that processes have yielded
    (region.c) and is the other half of the hardening: it allocates the frames [us1] and [us2]
    of every page of a hardened process and keeps its own list of blocks (vmpram.c, vmcow.c),
    in step with the list of the kernel.  [vmstate] holds VM's own data and, in [kern], the
    kernel it calls. *)
From S2P Require Import Prelude Kernel Endpoint HMem.

Definition VM_PAGE_SIZE : Z := 4096.
Definition CLICK_SIZE : Z := 4096.
Definition CLICK_SHIFT : Z := 12.
(** On [phys_bytes], 32 bits. *)
Definition CLICK2ABS (v : Z) : Z := u32 (Z.shiftl v CLICK_SHIFT).
Definition ABS2CLICK (a : Z) : Z := Z.shiftr a CLICK_SHIFT.
Definition NO_MEM : Z := MAP_NONE.
Definition NUMBER_PHYSICAL_PAGES : Z := 0x100000.
Definition PAGE_CACHE_MAX : Z := 10000.
Definition NR_MEMS : Z := 16.
Definition PAF_CLEAR : Z := 0x01.
Definition PAF_CONTIG : Z := 0x02.
Definition PAF_ALIGN64K : Z := 0x04.
Definition PAF_LOWER16MB : Z := 0x08.
Definition PAF_LOWER1MB : Z := 0x10.
Definition PAF_ALIGN16K : Z := 0x40.
Definition VMF_INUSE : Z := 0x001.
Definition VMF_EXITING : Z := 0x002.
Definition VM_PROC_TO_HARD : Z := 0x4.
Definition PRAM_SLOT_FREE : Z := 1.
(** Servers know these codes too. *)
Definition EBADEPT : Z := -301.
Definition EDEADEPT : Z := -302.
Arguments NUMBER_PHYSICAL_PAGES : simpl never.
Arguments NO_MEM : simpl never.

(** ** Data *)

(** [struct pram_mem_block] of VM (htype.h). *)
Record vm_pmb := mk_vm_pmb {
  vp_id : Z;
  vp_flags : Z;
  vp_vaddr : Z;
  vp_us0 : Z;
  vp_us1 : Z;
  vp_us2 : Z;
  vp_next : option Z;
}.
#[export] Instance settable_vm_pmb : Settable vm_pmb := λ r,
  mk_vm_pmb (vp_id r) (vp_flags r) (vp_vaddr r) (vp_us0 r) (vp_us1 r) (vp_us2 r) (vp_next r).

(** [struct vir_region] (region.h) with the physical blocks that back it: the frame of an offset. *)
Record vir_region := mk_vir_region {
  vr_vaddr : Z;
  vr_length : Z;
  vr_flags : Z;
  vr_physblocks : Z → option Z;
}.

(** [struct vmproc] (vmproc.h); the regions from the lowest address up, as the search tree has
    them.  The page table is not part of it. *)
Record vmproc := mk_vmproc {
  vm_flags : Z;
  vm_endpoint : Z;
  vm_slot : Z;
  vm_regions : list vir_region;
  vm_yielded : Z;
  vm_lus1_us2 : option Z;
  vm_lus1_us2_size : Z;
  vm_hflags : Z;
}.
#[export] Instance settable_vmproc : Settable vmproc := λ r,
  mk_vmproc (vm_flags r) (vm_endpoint r) (vm_slot r) (vm_regions r) (vm_yielded r) (vm_lus1_us2 r) (vm_lus1_us2_size r)
    (vm_hflags r).

(** [struct yielded]: a block of memory that its owner can do without. *)
Record yielded := mk_yielded {
  y_owner : Z;
  y_id : Z;
  y_physaddr : Z;
  y_pages : Z;
}.

(** The static data of alloc.c, the yielded blocks of region.c (the list from [lru_oldest] to
    [lru_youngest], which the search trees index), the process table and the working set. *)
Record vmstate := mk_vmstate {
  free_pages_bitmap : Z → Z;
  free_page_cache : list Z;      (* the top of the stack first *)
  lastscan : Z;
  total_pages : Z;
  mem_low : Z;
  mem_high : Z;
  yielded_lru : list yielded;
  vmprocs : Z → vmproc;
  vm_working_set : Z → vm_pmb;
  hardening_enabled : Z;
  kern : kstate;
}.
#[export] Instance settable_vmstate : Settable vmstate := λ r,
  mk_vmstate (free_pages_bitmap r) (free_page_cache r) (lastscan r) (total_pages r) (mem_low r) (mem_high r)
    (yielded_lru r) (vmprocs r) (vm_working_set r) (hardening_enabled r) (kern r).

Definition V (A : Type) : Type := M vmstate A.

Definition modify_vmproc (n : Z) (f : vmproc → vmproc) : V unit :=
  modify (λ s, s <| vmprocs ::= λ t, upd t n (f (t n)) |>).

(** A kernel call of VM: the kernel runs, VM's own data stay. *)
Definition kcall {A} (m : K A) : V A := λ s,
  match m (kern s) with
  | Ret (a, k) => Ret (a, s <| kern := k |>)
  | Panic e => Panic e
  end.

(** ** [vm_isokendpt] (utility.c) *)

Definition vm_isokendpt (s : vmstate) (e : Z) : Z * Z :=
  let p := ENDPOINT_P e in
  (if (p <? 0) || (NR_PROCS <=? p) then EINVAL
   else if negb (e =? vm_endpoint (vmprocs s p)) then EDEADEPT
   else if negb (has (vm_flags (vmprocs s p)) VMF_INUSE) then EDEADEPT
   else OK, p).

(** ** Calls that only touch physical memory

    sys_memset (with NONE: a physical range) and sys_abscopy go through the window copies of
    the kernel (VirtCopy); VM relies on them to succeed on physical ranges and to change
    nothing but physical memory. *)
Class SysMem := {
  sys_memset : Z → Z → Z → V Z;   (* pattern, base, bytes *)
  sys_abscopy : Z → Z → Z → V Z;  (* source, destination, bytes *)
}.
Definition set_mem (m : Z → Z) (s : vmstate) : vmstate := s <| kern ::= λ k, k <| phys := m |> |>.
Class SysMemOk `{SysMem} : Prop := {
  sys_memset_ok c b n s : ∃ m, sys_memset c b n s = Ret (OK, set_mem m s);
  sys_abscopy_ok a b n s : ∃ m, sys_abscopy a b n s = Ret (OK, set_mem m s) ∧
    ∀ i, 0 ≤ i < n → m (b + i) = phys (kern s) (a + i);
}.

(** Memory calls on a flat physical memory. *)
Definition flat_memset (c b n : Z) : V Z :=
  modify (λ s, set_mem (λ a, if (b <=? a) && (a <? b + n) then c else phys (kern s) a) s);; mret OK.
Definition flat_abscopy (a b n : Z) : V Z :=
  modify (λ s, set_mem (λ x, if (b <=? x) && (x <? b + n) then phys (kern s) (a + (x - b))
                             else phys (kern s) x) s);; mret OK.
#[export] Instance flat_mem : SysMem := {| sys_memset := flat_memset; sys_abscopy := flat_abscopy |}.
#[export] Instance flat_mem_ok : SysMemOk.
Proof.
  split; intros.
  - eexists. reflexivity.
  - eexists. split; [reflexivity|]. intros i Hi. cbv beta.
    rewrite (proj2 (Z.leb_le _ _)), (proj2 (Z.ltb_lt _ _)) by lia. cbn [andb]. f_equal. lia.
Qed.

(** ** A server with no memory and no processes *)

Definition vmproc0 (n : Z) : vmproc := mk_vmproc 0 NONE n [] 0 None 0 0.
Definition vm_pmb0 : vm_pmb := mk_vm_pmb 0 PRAM_SLOT_FREE 0 0 0 0 None.
Definition vs0 : vmstate :=
  mk_vmstate (λ _, 0) [] (-1) 0 0 0 [] vmproc0 (λ _, vm_pmb0) 0 k0.
