(* ===== verification/VmAlloc.v ===== *)
(** * The page allocator of the virtual memory server (servers/vm/alloc.c)

    Free pages are the set bits of [free_pages_bitmap]; a stack of recently freed pages serves
    requests for one page.  A search runs downwards and skips chunks of 32 pages that are all in
    use.  When there is no memory, blocks that processes have yielded are taken back
    (freeyieldednode, free_yielded of region.c). *)
From S2P Require Import Prelude Kernel Endpoint HMem VmServer.

(** ** The bitmap (include/minix/bitmap.h) *)

Definition page_isfree (bm : Z → Z) (i : Z) : bool :=
  has (bm (i / BITCHUNK_BITS)) (Z.shiftl 1 (i mod BITCHUNK_BITS)).
Definition set_page_bit (i : Z) (bm : Z → Z) : Z → Z :=
  upd bm (i / BITCHUNK_BITS) (set_flag (Z.shiftl 1 (i mod BITCHUNK_BITS)) (bm (i / BITCHUNK_BITS))).
Definition unset_page_bit (i : Z) (bm : Z → Z) : Z → Z :=
  upd bm (i / BITCHUNK_BITS) (clear_flag (Z.shiftl 1 (i mod BITCHUNK_BITS)) (bm (i / BITCHUNK_BITS))).

(** ** Searching *)

(** [while(chunk > 0 && !MAP_CHUNK(...)) chunk--]. *)
Fixpoint skip_chunks (fuel : nat) (bm : Z → Z) (chunk : Z) : Z :=
  match fuel with
  | O => chunk
  | S fuel' => if (0 <? chunk) && (bm chunk =? 0) then skip_chunks fuel' bm (chunk - 1) else chunk
  end.

(** The loop of [findbit]; [None] is a failed assertion. *)
Fixpoint findbit_loop (fuel : nat) (bm : Z → Z) (low pages i freerange_start run_length : Z) : option Z :=
  match fuel with
  | O => Some NO_MEM
  | S fuel' =>
      if i <? low then Some NO_MEM
      else if negb (page_isfree bm i) then
        let chunk := i / BITCHUNK_BITS in
        let c := skip_chunks (Z.to_nat chunk) bm chunk in
        let i' := if negb (c =? chunk) then c * BITCHUNK_BITS + BITCHUNK_BITS else i in
        findbit_loop fuel' bm low pages (i' - 1) freerange_start 0
      else
        let freerange_start := if run_length =? 0 then i else freerange_start - 1 in
        let run_length := if run_length =? 0 then 1 else run_length + 1 in
        if negb (run_length <=? pages) then None
        else if run_length =? pages then Some freerange_start
        else findbit_loop fuel' bm low pages (i - 1) freerange_start run_length
  end.
Definition findbit (low startscan pages : Z) : V Z :=
  bm ← gets free_pages_bitmap;
  match findbit_loop (Z.to_nat (startscan - low + 2)) bm low pages startscan startscan 0 with
  | Some r => mret r
  | None => panic "assert(run_length <= pages)"
  end.

(** ** Allocating *)

(** The pages on the stack that are no longer free are dropped until one is free. *)
Fixpoint pop_cache (bm : Z → Z) (cache : list Z) : option Z * list Z :=
  match cache with
  | [] => (None, [])
  | i :: cache' => if page_isfree bm i then (Some i, cache') else pop_cache bm cache'
  end.

(** [alloc_pages]: the highest page for these flags, *)
Definition maxpage_of (memflags : Z) : Z :=
  let boundary16 := 16 * 1024 * 1024 / VM_PAGE_SIZE in
  let boundary1 := 1 * 1024 * 1024 / VM_PAGE_SIZE in
  if has memflags PAF_LOWER16MB then boundary16 - 1
  else if has memflags PAF_LOWER1MB then boundary1 - 1
  else NUMBER_PHYSICAL_PAGES - 1.

(** the search: the page cache (no position restrictions, one page), then from where the last
    search ended, then from the top, *)
Definition find_pages (pages memflags : Z) : V Z :=
  let maxpage := maxpage_of memflags in
  mem ← (if has memflags PAF_LOWER16MB || has memflags PAF_LOWER1MB || negb (pages =? 1) then mret NO_MEM
         else
           r ← gets (λ s, pop_cache (free_pages_bitmap s) (free_page_cache s));
           modify (λ s, s <| free_page_cache := r.2 |>);;
           match r.1 with
           | Some i => assert_ (λ _, negb (i =? NO_MEM)) "assert(mem != NO_MEM)";; mret i
           | None => mret NO_MEM
           end);
  startscan ← gets (λ s, if (lastscan s <? maxpage) && (0 <=? lastscan s) then lastscan s else maxpage);
  mem ← (if mem =? NO_MEM then findbit 0 startscan pages else mret mem);
  if mem =? NO_MEM then findbit 0 maxpage pages else mret mem.

(** and the rest. *)
Definition alloc_pages `{SysMem} (pages memflags : Z) : V Z :=
  mem ← find_pages pages memflags;
  if mem =? NO_MEM then mret NO_MEM
  else
    modify (λ s, s <| lastscan := mem |>);;
    forM_ (seqZ mem pages) (λ i, modify (λ s, s <| free_pages_bitmap ::= unset_page_bit i |>));;
    (if has memflags PAF_CLEAR then
       r ← sys_memset 0 (u32 (CLICK_SIZE * mem)) (u32 (VM_PAGE_SIZE * pages));
       if negb (r =? OK) then panic "alloc_mem: sys_memset failed" else mret ()
     else mret ());;
    mret mem.

(** ** Freeing *)

Definition free_page (i : Z) : V unit :=
  modify (λ s, s <| free_pages_bitmap ::= set_page_bit i |>
                 <| free_page_cache ::= λ c, if Z.of_nat (length c) <? PAGE_CACHE_MAX then i :: c else c |>).

(** [lim] is an [int]. *)
Definition free_pages (pageno npages : Z) : V unit :=
  let lim := i32 (pageno + npages - 1) in
  forM_ (seqZ (i32 pageno) (lim - i32 pageno + 1)) free_page.

Definition free_mem (base clicks : Z) : V unit :=
  if clicks =? 0 then mret () else free_pages base clicks.

(** ** Yielded blocks (region.c) *)

Definition remove_yielded (y : yielded) : list yielded → list yielded :=
  filter (λ x, ¬ (y_owner x = y_owner y ∧ y_id x = y_id y)).

Definition freeyieldednode (y : yielded) (freemem : bool) : V Z :=
  ep ← gets (λ s, vm_isokendpt s (y_owner y));
  if negb (ep.1 =? OK) then panic "out of date owner of yielded block"
  else
    modify (λ s, s <| yielded_lru ::= remove_yielded y |>);;
    assert_ (λ s, 0 <? vm_yielded (vmprocs s ep.2)) "assert(vmproc[p].vm_yielded > 0)";;
    modify_vmproc ep.2 (λ p, p <| vm_yielded ::= λ n, n - 1 |>);;
    (if freemem then free_mem (ABS2CLICK (y_physaddr y)) (y_pages y) else mret ());;
    mret VM_PAGE_SIZE.

(** The end of [yieldblock]: remember the block, as the youngest.  [n] is the slot of the owner. *)
Definition record_yielded (n : Z) (y : yielded) : V unit :=
  modify_vmproc n (λ p, p <| vm_yielded ::= λ c, c + 1 |>);;
  modify (λ s, s <| yielded_lru ::= λ l, l ++ [y] |>).

(** [while(freed < max_bytes && lru_oldest)]: every round takes a block off the list. *)
Fixpoint free_yielded_loop (fuel : nat) (max_bytes freed : Z) : V Z :=
  lru ← gets yielded_lru;
  match lru, fuel with
  | y :: _, S fuel' =>
      if freed <? max_bytes then
        n ← freeyieldednode y true;
        free_yielded_loop fuel' max_bytes (u32 (freed + n))
      else mret freed
  | _ :: _, O => panic "free_yielded does not end"
  | [], _ => mret freed
  end.
Definition free_yielded (max_bytes : Z) : V Z :=
  n ← gets (λ s, length (yielded_lru s));
  free_yielded_loop n max_bytes 0.

(** ** The entry points *)

Definition align_clicks (memflags : Z) : Z :=
  if has memflags PAF_ALIGN64K then 64 * 1024 / CLICK_SIZE
  else if has memflags PAF_ALIGN16K then 16 * 1024 / CLICK_SIZE
  else 0.

Definition alloc_mem `{SysMem} (clicks memflags : Z) : V Z :=
  let align := align_clicks memflags in
  let clicks := u32 (clicks + align) in
  mem ← alloc_pages (i32 clicks) memflags;
  mem ← (if mem =? NO_MEM then
           free_yielded (u32 (clicks * CLICK_SIZE));;
           alloc_pages (i32 clicks) memflags
         else mret mem);
  if mem =? NO_MEM then mret NO_MEM
  else if negb (align =? 0) then
    let o := mem mod align in
    if 0 <? o then
      let e := align - o in
      free_mem mem e;;
      mret (u32 (mem + e))
    else mret mem
  else mret mem.

Definition mem_add_total_pages (pages : Z) : V unit := modify (λ s, s <| total_pages ::= λ n, n + pages |>).

(** [mem_init(chunks)]: the list of (base, size) pairs, [NR_MEMS] of them, from the last on. *)
Definition mem_init (chunks : list (Z * Z)) : V unit :=
  let first := false in
  modify (λ s, s <| total_pages := 0 |> <| free_pages_bitmap := λ _, 0 |>);;
  forM_ (reverse chunks) (λ c,
    if 0 <? c.2 then
      let from := CLICK2ABS c.1 in
      let to := u32 (CLICK2ABS (u32 (c.1 + c.2)) - 1) in
      modify (λ s, if first || (from <? mem_low s) then s <| mem_low := from |> else s);;
      modify (λ s, if first || (mem_high s <? to) then s <| mem_high := to |> else s);;
      free_mem c.1 c.2;;
      mem_add_total_pages c.2
    else mret ()).

(** [memstats]: the free blocks from page [i] on: their number, their pages, the largest.
    [size] is the length of the block being counted. *)
Fixpoint memstats_loop (fuel : nat) (bm : Z → Z) (i size nodes pages largest : Z) : Z * Z * Z :=
  let close := if size =? 0 then (nodes, pages, largest)
               else (nodes + 1, pages + size, if largest <? size then size else largest) in
  match fuel with
  | O => close
  | S fuel' =>
      if page_isfree bm i then memstats_loop fuel' bm (i + 1) (size + 1) nodes pages largest
      else memstats_loop fuel' bm (i + 1) 0 close.1.1 close.1.2 close.2
  end.
Definition memstats (s : vmstate) : Z * Z * Z :=
  memstats_loop (Z.to_nat NUMBER_PHYSICAL_PAGES) (free_pages_bitmap s) 0 0 0 0 0.
