(* ===== verification/VmAllocThm.v ===== *)
(** * What the page allocator guarantees

    [findbit] with its skipping of full chunks finds what a naive search finds; a page that is
    handed out was free and belongs to nobody else; memory is refused only when there is none;
    an aligned request leaves pages behind that nobody can give back. *)
From stdpp Require Import gmap.
From S2P Require Import Prelude Kernel Endpoint HMem VmServer VmAlloc.

Section bits.
Implicit Types (bm : Z → Z) (i j : Z).
Lemma page_set_bit bm i j : 0 ≤ i → 0 ≤ j → page_isfree (set_page_bit i bm) j = (i =? j) || page_isfree bm j.
Proof. exact (get_set_sys_bit bm i j). Qed.
Lemma page_unset_bit bm i j :
  0 ≤ i → 0 ≤ j → page_isfree (unset_page_bit i bm) j = negb (i =? j) && page_isfree bm j.
Proof. exact (get_unset_sys_bit bm i j). Qed.
Lemma page_chunk_0 bm i : bm (i / BITCHUNK_BITS) = 0 → page_isfree bm i = false.
Proof. unfold page_isfree. intros ->. apply has_0. Qed.
End bits.

(** ** Searching *)

(** [pages] free pages from [p] on. *)
Definition free_run (bm : Z → Z) (p pages : Z) : Prop := ∀ i, p ≤ i < p + pages → page_isfree bm i = true.
Definition free_runb (bm : Z → Z) (p pages : Z) : bool := forallb (page_isfree bm) (seqZ p pages).

(** The reference: try every start page below [n], the highest first. *)
Fixpoint first_fit (bm : Z → Z) (pages : Z) (n : nat) : Z :=
  match n with
  | O => NO_MEM
  | S p => if free_runb bm (Z.of_nat p) pages then Z.of_nat p else first_fit bm pages p
  end.

Lemma free_runb_spec bm p pages : free_runb bm p pages = true ↔ free_run bm p pages.
Proof.
  unfold free_runb, free_run. rewrite forallb_forall. split; intros Hr i Hi; apply Hr.
  - apply list_elem_of_In, elem_of_seqZ. lia.
  - apply list_elem_of_In, elem_of_seqZ in Hi. lia.
Qed.

(** [r] is the highest start of a free run that ends at or below [top]. *)
Definition is_highest_run (bm : Z → Z) (top pages r : Z) : Prop :=
  (r = NO_MEM ∧ ∀ p, 0 ≤ p → p + pages - 1 ≤ top → ¬ free_run bm p pages) ∨
  (0 ≤ r ∧ r + pages - 1 ≤ top ∧ free_run bm r pages ∧
   ∀ p, r < p → p + pages - 1 ≤ top → ¬ free_run bm p pages).

Lemma first_fit_spec bm pages top : is_highest_run bm top pages (first_fit bm pages (Z.to_nat (top - pages + 2))).
Proof.
  assert (∀ n, (first_fit bm pages n = NO_MEM ∧ (∀ p, 0 ≤ p < Z.of_nat n → ¬ free_run bm p pages)) ∨
    (0 ≤ first_fit bm pages n < Z.of_nat n ∧ free_run bm (first_fit bm pages n) pages ∧
     ∀ p, first_fit bm pages n < p < Z.of_nat n → ¬ free_run bm p pages)) as Hff.
  { induction n as [|n IH]; cbn [first_fit]; [left; split; [done|lia]|].
    destruct (free_runb bm (Z.of_nat n) pages) eqn:E.
    - right. split; [lia|]. split; [by apply free_runb_spec|lia].
    - assert (¬ free_run bm (Z.of_nat n) pages) as Hn by (rewrite <-free_runb_spec, E; done).
      destruct IH as [[-> IH]|(IH1 & IH2 & IH3)]; [left|right]; split; try done; try lia.
      + intros p Hp. destruct (decide (p = Z.of_nat n)) as [->|]; [done|apply IH; lia].
      + split; [done|]. intros p Hp. destruct (decide (p = Z.of_nat n)) as [->|]; [done|apply IH3; lia]. }
  destruct (Hff (Z.to_nat (top - pages + 2))) as [[-> Hn]|(H1 & H2 & H3)]; [left|right].
  - split; [done|]. intros p Hp Ht. apply Hn. lia.
  - split; [lia|]. split; [lia|]. split; [done|]. intros p Hp Ht. apply H3. lia.
Qed.

Lemma highest_run_unique bm top pages r r' :
  0 < pages → top < NO_MEM → is_highest_run bm top pages r → is_highest_run bm top pages r' → r = r'.
Proof.
  intros Hp Ht [[-> Hn]|(H1 & H2 & H3 & H4)] [[-> Hn']|(H1' & H2' & H3' & H4')]; try done.
  - by destruct (Hn r').
  - by destruct (Hn' r).
  - destruct (Ztrichotomy r r') as [|[|]]; [|done|]; exfalso.
    + by apply (H4 r').
    + apply (H4' r); [lia|lia|done].
Qed.

(** Skipping passes only over chunks without a free page. *)
Lemma skip_chunks_spec bm fuel : ∀ n,
  0 ≤ n → Z.of_nat fuel = n →
  0 ≤ skip_chunks fuel bm n ≤ n ∧ ∀ c, skip_chunks fuel bm n < c ≤ n → bm c = 0.
Proof.
  induction fuel as [|fuel IH]; intros n Hn Hf; cbn [skip_chunks]; [split; lia|].
  destruct (Z.ltb_spec 0 n), (Z.eqb_spec (bm n) 0) as [E|E]; cbn [andb]; try (split; lia).
  destruct (IH (n - 1)) as [IH1 IH2]; [lia|lia|]. split; [lia|].
  intros c Hc. destruct (decide (c = n)) as [->|]; [done|apply IH2; lia].
Qed.

Lemma skip_pages bm i :
  0 ≤ i → page_isfree bm i = false →
  let c := skip_chunks (Z.to_nat (i / BITCHUNK_BITS)) bm (i / BITCHUNK_BITS) in
  let i' := if negb (c =? i / BITCHUNK_BITS) then c * BITCHUNK_BITS + BITCHUNK_BITS else i in
  -1 ≤ i' - 1 < i ∧ ∀ j, i' - 1 < j ≤ i → page_isfree bm j = false.
Proof.
  intros Hi Hf c i'. assert (0 ≤ i / BITCHUNK_BITS) as Hc0 by (apply Z.div_pos; done).
  destruct (skip_chunks_spec bm (Z.to_nat (i / BITCHUNK_BITS)) (i / BITCHUNK_BITS)) as [Hle Hz]; [done|lia|].
  fold c in Hz, Hle. subst i'. destruct (Z.eqb_spec c (i / BITCHUNK_BITS)) as [E|E]; cbn [negb].
  - split; [lia|]. intros j Hj. replace j with i by lia. done.
  - unfold BITCHUNK_BITS in *. split; [div_lia|]. intros j Hj. apply page_chunk_0, Hz. unfold BITCHUNK_BITS. div_lia.
Qed.

(** The loop: [run] free pages above [i] that a used page ends, and no run above. *)
Lemma findbit_loop_spec bm pages top : 0 < pages → ∀ fuel i start run,
  -1 ≤ i ≤ top → i + 2 ≤ Z.of_nat fuel →
  0 ≤ run < pages → i + run ≤ top → (run ≠ 0 → start = i + 1) →
  (∀ j, i < j ≤ i + run → page_isfree bm j = true) →
  (i + run + 1 ≤ top → page_isfree bm (i + run + 1) = false) →
  (∀ p, i < p → p + pages - 1 ≤ top → ¬ free_run bm p pages) →
  ∃ r, findbit_loop fuel bm 0 pages i start run = Some r ∧ is_highest_run bm top pages r.
Proof.
  intros Hpg. induction fuel as [|fuel IH]; intros i start run Hi Hfu Hrun Htop Hst Hfree Hend Hno; [lia|].
  cbn [findbit_loop]. destruct (Z.ltb_spec i 0) as [Hneg|Hpos].
  { exists NO_MEM. split; [done|]. left. split; [done|]. intros p Hp. apply Hno. lia. }
  destruct (page_isfree bm i) eqn:Ef; cbn [negb].
  - replace (if run =? 0 then i else start - 1) with i
      by (destruct (Z.eqb_spec run 0); [done|rewrite Hst by done; lia]).
    replace (if run =? 0 then 1 else run + 1) with (run + 1) by (destruct (Z.eqb_spec run 0); lia).
    assert (∀ j, i - 1 < j ≤ i - 1 + (run + 1) → page_isfree bm j = true) as Hfree'.
    { intros j Hj. destruct (decide (j = i)) as [->|]; [done|apply Hfree; lia]. }
    destruct (Z.leb_spec (run + 1) pages); [|lia]. cbn [negb]. destruct (Z.eqb_spec (run + 1) pages) as [E|E].
    + exists i. split; [done|]. right. split; [done|]. split; [lia|]. split; [|done].
      intros j Hj. apply Hfree'. lia.
    + apply IH; try lia; try done.
      * intros Hle. rewrite <-Hend by lia. f_equal. lia.
      * intros p Hp Hpt Hr. destruct (decide (p = i)) as [->|]; [|by apply (Hno p); [lia|..]].
        assert (page_isfree bm (i + run + 1) = true) as H1 by (apply Hr; lia).
        rewrite Hend in H1 by lia. done.
  - destruct (skip_pages bm i Hpos Ef) as [Hlt Hskip]. revert Hlt Hskip.
    set (i' := if negb _ then _ else _). intros Hlt Hskip. apply IH; try lia; try done.
    + intros _. apply Hskip. lia.
    + intros p Hp Hpt Hr. destruct (decide (p ≤ i)) as [Hpi|]; [|by apply (Hno p); [lia|..]].
      assert (page_isfree bm p = true) as H1 by (apply Hr; lia). rewrite Hskip in H1 by lia. done.
Qed.

Lemma findbit_spec s top pages :
  0 < pages → 0 ≤ top →
  ∃ r, findbit 0 top pages s = Ret (r, s) ∧ is_highest_run (free_pages_bitmap s) top pages r.
Proof.
  intros Hp Ht.
  destruct (findbit_loop_spec (free_pages_bitmap s) pages top Hp (Z.to_nat (top - 0 + 2)) top top 0)
    as (r & Hr & Hs); try lia.
  exists r. split; [|done]. unfold findbit. change (gets free_pages_bitmap ≫= ?g) with (λ s, g (free_pages_bitmap s) s).
  cbv beta. by rewrite Hr.
Qed.

(** C16. The search that skips full chunks of 32 pages ([findbit] of the page allocator) gives for
    every number of pages and every page to start from exactly the answer of the naive search
    that tries every start page from the top: the highest free run that fits below the start,
    and [NO_MEM] when there is none.  It fails no assertion and changes nothing. *)
Theorem findbit_is_first_fit s top pages :
  0 < pages → 0 ≤ top < NUMBER_PHYSICAL_PAGES →
  findbit 0 top pages s =
    Ret (first_fit (free_pages_bitmap s) pages (Z.to_nat (top - pages + 2)), s).
Proof.
  intros Hp Ht. destruct (findbit_spec s top pages) as (r & Hr & Hs); [done|lia|]. rewrite Hr. do 2 f_equal.
  eapply highest_run_unique; [done| |done|apply first_fit_spec].
  unfold NUMBER_PHYSICAL_PAGES, NO_MEM, MAP_NONE in *. lia.
Qed.
Lemma findbit_is_first_fit_witness :
  findbit 0 95 2 (vs0 <| free_pages_bitmap := λ c, if c =? 0 then 0xF0 else 0 |>) =
    Ret (6, vs0 <| free_pages_bitmap := λ c, if c =? 0 then 0xF0 else 0 |>).
Proof. rewrite findbit_is_first_fit; [reflexivity|done|done]. Defined.

(** ** Allocating pages *)

Definition in_range (p n i : Z) : bool := (p <=? i) && (i <? p + n).
Lemma in_range_spec p n i : in_range p n i = true ↔ p ≤ i < p + n.
Proof. unfold in_range. rewrite andb_true_iff, Z.leb_le, Z.ltb_lt. done. Qed.

(** What the allocator leaves alone. *)
Record alloc_frame (s s' : vmstate) : Prop := {
  af_total : total_pages s' = total_pages s;
  af_low : mem_low s' = mem_low s;
  af_high : mem_high s' = mem_high s;
  af_lru : yielded_lru s' = yielded_lru s;
  af_procs : vmprocs s' = vmprocs s;
  af_ws : vm_working_set s' = vm_working_set s;
  af_hard : hardening_enabled s' = hardening_enabled s;
  af_kern : ∃ m, kern s' = kern s <| phys := m |>;
}.
Lemma phys_same k : k = k <| phys := phys k |>.
Proof. by destruct k. Qed.
#[export] Instance alloc_frame_preorder : PreOrder alloc_frame.
Proof.
  split.
  - intros s. split; try done. eexists. apply phys_same.
  - intros s1 s2 s3 [] []. split; try congruence. destruct af_kern0 as [m1 E1], af_kern1 as [m2 E2].
    exists m2. rewrite E2, E1. done.
Qed.

Definition cache_ok (s : vmstate) : Prop := Forall (λ i, 0 ≤ i < NUMBER_PHYSICAL_PAGES) (free_page_cache s).
Definition alloc_step (s s' : vmstate) : Prop := alloc_frame s s' ∧ (cache_ok s → cache_ok s').
#[export] Instance alloc_step_preorder : PreOrder alloc_step.
Proof.
  split; [by split|]. intros s1 s2 s3 [] []. split; [by etrans|eauto].
Qed.
Lemma maxpage_range fl : 0 ≤ maxpage_of fl < NUMBER_PHYSICAL_PAGES.
Proof. unfold maxpage_of. destruct (has fl PAF_LOWER16MB), (has fl PAF_LOWER1MB); done. Qed.
Lemma no_mem_no_page : NUMBER_PHYSICAL_PAGES < NO_MEM.
Proof. done. Qed.

(** Exactly the pages [p .. p+n-1] have changed, from free to used or from used to free. *)
Definition pages_to (b : bool) (p n : Z) (bm bm' : Z → Z) : Prop :=
  ∀ i, 0 ≤ i → page_isfree bm' i = if in_range p n i then b else page_isfree bm i.

Lemma pop_cache_spec bm cache :
  Forall (λ i, 0 ≤ i < NUMBER_PHYSICAL_PAGES) cache →
  Forall (λ i, 0 ≤ i < NUMBER_PHYSICAL_PAGES) (pop_cache bm cache).2 ∧
  ∀ i, (pop_cache bm cache).1 = Some i → 0 ≤ i < NUMBER_PHYSICAL_PAGES ∧ page_isfree bm i = true.
Proof.
  induction 1 as [|i l Hi Hl IH]; cbn [pop_cache]; [done|].
  destruct (page_isfree bm i) eqn:E; [|done]. cbn [fst snd]. split; [done|]. intros ? [= <-]. done.
Qed.

(** Loops over a range of pages, with what every step preserves. *)
Lemma range_loop (b : bool) (f : Z → V unit) (I : vmstate → vmstate → Prop) `{!PreOrder I} n : ∀ p s,
  0 ≤ p →
  (∀ i s, p ≤ i < p + n →
     wp (f i) (λ _ s', I s s' ∧ pages_to b i 1 (free_pages_bitmap s) (free_pages_bitmap s')) s) →
  wp (forM_ (seqZ p n) f) (λ _ s', I s s' ∧ pages_to b p n (free_pages_bitmap s) (free_pages_bitmap s')) s.
Proof.
  destruct (decide (n ≤ 0)) as [Hn|Hn].
  { intros p s Hp _. rewrite seqZ_nil by done. apply wp_ret. split; [reflexivity|]. intros i Hi.
    replace (in_range p n i) with false; [done|]. symmetry. apply not_true_iff_false. rewrite in_range_spec. lia. }
  replace n with (Z.of_nat (Z.to_nat n)) by lia. clear Hn. generalize (Z.to_nat n) as k. clear n.
  induction k as [|k IH]; intros p s Hp Hf.
  { apply wp_ret. split; [reflexivity|]. intros i Hi. unfold in_range.
    by destruct (Z.leb_spec p i), (Z.ltb_spec i (p + Z.of_nat 0)); try lia. }
  rewrite seqZ_cons by lia. cbn [forM_]. apply wp_bind. eapply wp_mono; [apply Hf; lia|].
  intros [] s1 [HI1 Hp1]. replace (Z.pred (Z.of_nat (S k))) with (Z.of_nat k) by lia.
  eapply wp_mono; [apply IH; [lia|intros; apply Hf; lia]|]. intros [] s2 [HI2 Hp2]. split; [by etrans|].
  intros i Hi. rewrite Hp2, Hp1 by done. unfold in_range.
  destruct (Z.leb_spec (Z.succ p) i), (Z.ltb_spec i (Z.succ p + Z.of_nat k)), (Z.leb_spec p i),
    (Z.ltb_spec i (p + 1)), (Z.ltb_spec i (p + Z.of_nat (S k))); try done; lia.
Qed.

Lemma in_range_1 p i : in_range p 1 i = (p =? i).
Proof.
  apply eq_bool_prop_intro. rewrite !Is_true_true, in_range_spec, Z.eqb_eq. lia.
Qed.

Lemma unset_pages_spec mem pages s :
  0 ≤ mem →
  wp (forM_ (seqZ mem pages) (λ i, modify (λ s, s <| free_pages_bitmap ::= unset_page_bit i |>)))
    (λ _ s', alloc_step s s' ∧ pages_to false mem pages (free_pages_bitmap s) (free_pages_bitmap s')) s.
Proof.
  intros Hm. apply range_loop; [apply _|done|]. intros i s' Hi. apply wp_modify. split.
  - split; [|done]. split; try done. eexists. apply phys_same.
  - intros j Hj. cbn [free_pages_bitmap set]. rewrite page_unset_bit, in_range_1 by lia. by destruct (i =? j).
Qed.

(** What a request for [pages] pages may answer. *)
Definition alloc_answer (pages memflags mem : Z) (s s' : vmstate) : Prop :=
  alloc_step s s' ∧
  ((mem = NO_MEM ∧ free_pages_bitmap s' = free_pages_bitmap s ∧
    ∀ p, 0 ≤ p → p + pages - 1 ≤ maxpage_of memflags → ¬ free_run (free_pages_bitmap s) p pages) ∨
   (0 ≤ mem ∧ mem + pages - 1 ≤ maxpage_of memflags ∧ free_run (free_pages_bitmap s) mem pages ∧
    pages_to false mem pages (free_pages_bitmap s) (free_pages_bitmap s'))).

Lemma find_pages_spec pages memflags s :
  cache_ok s → 0 < pages →
  wp (find_pages pages memflags) (λ mem s', alloc_step s s' ∧ free_pages_bitmap s' = free_pages_bitmap s ∧
    ((mem = NO_MEM ∧
      ∀ p, 0 ≤ p → p + pages - 1 ≤ maxpage_of memflags → ¬ free_run (free_pages_bitmap s) p pages) ∨
     (0 ≤ mem ∧ mem + pages - 1 ≤ maxpage_of memflags ∧ free_run (free_pages_bitmap s) mem pages))) s.
Proof.
  intros Hc Hp. pose proof (maxpage_range memflags) as Hmax. pose proof no_mem_no_page as Hno.
  unfold find_pages. apply wp_bind. eapply (wp_mono _ (λ mem s', alloc_step s s' ∧
    free_pages_bitmap s' = free_pages_bitmap s ∧ lastscan s' = lastscan s ∧
    (mem = NO_MEM ∨ (0 ≤ mem ∧ mem + pages - 1 ≤ maxpage_of memflags ∧
                     free_run (free_pages_bitmap s) mem pages)))).
  { destruct (_ || _) eqn:E; [apply wp_ret; split; [reflexivity|]; auto|].
    apply orb_false_iff in E as [[E1 E2]%orb_false_iff E3%negb_false_iff%Z.eqb_eq].
    pose proof (pop_cache_spec (free_pages_bitmap s) (free_page_cache s) Hc) as [Hc' Hi]. wp_steps.
    assert (alloc_step s (s <| free_page_cache := (pop_cache (free_pages_bitmap s) (free_page_cache s)).2 |>)).
    { split; [|done]. split; try done. eexists. apply phys_same. }
    destruct (pop_cache _ _).1 as [i|]; [|apply wp_ret; auto].
    destruct (Hi i eq_refl) as [Hr Hf]. apply wp_bind, wp_assert.
    { apply negb_true_iff, Z.eqb_neq. lia. }
    apply wp_ret. split; [done|]. split; [done|]. split; [done|]. right. unfold maxpage_of. rewrite E1, E2.
    split; [lia|]. split; [lia|]. intros j Hj. by replace j with i by lia. }
  intros mem s1 (Hs1 & Hb1 & Hl1 & Hmem). rewrite <-Hb1 in *. wp_steps.
  eapply (wp_mono _ (λ mem s', s' = s1 ∧ (mem = NO_MEM ∨ (0 ≤ mem ∧ mem + pages - 1 ≤ maxpage_of memflags ∧
                     free_run (free_pages_bitmap s1) mem pages)))).
  { destruct (Z.eqb_spec mem NO_MEM) as [->|]; [|by apply wp_ret; auto].
    edestruct (findbit_spec s1) as (r & Hr & Hs); [exact Hp| |].
    2: { eapply wp_intro; [exact Hr|]. split; [done|]. destruct Hs as [[-> _]|(? & ? & ? & _)]; [auto|right].
         split; [done|]. split; [|done]. destruct (_ && _) eqn:E; [|done].
         apply andb_true_iff in E as [E%Z.ltb_lt _]. lia. }
    destruct (_ && _) eqn:E; [|lia]. apply andb_true_iff in E as [_ E%Z.leb_le]. done. }
  clear Hmem mem. intros mem ? [-> Hmem]. destruct (Z.eqb_spec mem NO_MEM) as [->|].
  - destruct (findbit_spec s1 (maxpage_of memflags) pages) as (r & Hr & Hs); [done|lia|].
    eapply wp_intro; [exact Hr|]. split; [done|]. split; [done|].
    destruct Hs as [[-> Hn]|(? & ? & ? & _)]; [left|right]; auto.
  - apply wp_ret. split; [done|]. split; [done|]. destruct Hmem as [->|]; [done|auto].
Qed.

Lemma alloc_pages_spec `{SysMem, !SysMemOk} pages memflags s :
  cache_ok s → 0 < pages → wp (alloc_pages pages memflags) (λ mem s', alloc_answer pages memflags mem s s') s.
Proof.
  intros Hc Hp. pose proof (maxpage_range memflags) as Hmax. pose proof no_mem_no_page as Hno.
  unfold alloc_pages. apply wp_bind. eapply wp_mono; [by apply find_pages_spec|].
  intros mem s1 (Hs1 & Hb1 & Hmem). destruct (Z.eqb_spec mem NO_MEM) as [->|Hne].
  { apply wp_ret. split; [done|]. left. destruct Hmem as [[_ Hmem]|(? & ? & _)]; [done|lia]. }
  destruct Hmem as [[]|(Hm0 & Hm1 & Hrun)]; [done|]. wp_steps.
  eapply wp_mono; [by apply unset_pages_spec|]. intros [] s2 [Hs2 Hb2]. cbn [free_pages_bitmap set] in Hb2.
  rewrite Hb1 in Hb2. apply wp_bind. eapply (wp_mono _ (λ _ s3, alloc_step s2 s3 ∧ free_pages_bitmap s3 = free_pages_bitmap s2)).
  { destruct (has memflags PAF_CLEAR); [|by apply wp_ret]. apply wp_bind.
    destruct (sys_memset_ok 0 (u32 (CLICK_SIZE * mem)) (u32 (VM_PAGE_SIZE * pages)) s2) as [m Hm].
    eapply wp_intro; [exact Hm|]. apply wp_ret. split; [|done]. split; [|done]. split; try done. by exists m. }
  intros [] s3 [Hs3 Hb3]. apply wp_ret. split.
  - transitivity s1; [done|]. transitivity (s1 <| lastscan := mem |>).
    + split; [|done]. split; try done. eexists. apply phys_same.
    + by etrans.
  - right. by rewrite Hb3.
Qed.

(** ** Freeing pages *)

Lemma free_mem_spec base n s :
  0 ≤ base → 0 ≤ n → base + n ≤ NUMBER_PHYSICAL_PAGES →
  wp (free_mem base n) (λ _ s', alloc_step s s' ∧ kern s' = kern s ∧
    pages_to true base n (free_pages_bitmap s) (free_pages_bitmap s')) s.
Proof.
  intros Hb Hn Hr. unfold NUMBER_PHYSICAL_PAGES in Hr. unfold free_mem. destruct (Z.eqb_spec n 0) as [->|Hn0].
  { apply wp_ret. split; [reflexivity|]. split; [done|]. intros i Hi.
    replace (in_range base 0 i) with false; [done|]. symmetry. apply not_true_iff_false. rewrite in_range_spec. lia. }
  unfold free_pages. rewrite !i32_id by lia. replace (base + n - 1 - base + 1) with n by lia.
  assert (PreOrder (λ s s', alloc_step s s' ∧ kern s' = kern s)).
  { split; [by split|]. intros s1 s2 s3 [] []. split; [by etrans|congruence]. }
  eapply wp_mono; [apply (range_loop true _ (λ s s', alloc_step s s' ∧ kern s' = kern s)); [done|]|by intros ?? [[]]].
  intros i s1 Hi. apply wp_modify. split; [split; [split|done]|].
  - split; try done. eexists. apply phys_same.
  - unfold cache_ok. cbn [free_page_cache set]. intros Hc. case_match; [|done]. constructor; [|done].
    unfold NUMBER_PHYSICAL_PAGES. lia.
  - intros j Hj. cbn [free_pages_bitmap set]. rewrite page_set_bit, in_range_1 by lia. by destruct (i =? j).
Qed.

(** ** Who has which page *)

Definition block_pages (y : yielded) : list Z := seqZ (ABS2CLICK (y_physaddr y)) (y_pages y).
Definition ypages (l : list yielded) : list Z := l ≫= block_pages.
Definition block_key (y : yielded) : Z * Z := (y_owner y, y_id y).

(** The pages [h] that were handed out, the pages of yielded blocks and the free pages are apart. *)
Record alloc_inv (s : vmstate) (h : gset Z) : Prop := {
  ai_cache : cache_ok s;
  ai_held : ∀ i, i ∈ h → 0 ≤ i < NUMBER_PHYSICAL_PAGES ∧ page_isfree (free_pages_bitmap s) i = false;
  ai_yield : ∀ i, i ∈ ypages (yielded_lru s) →
    0 ≤ i < NUMBER_PHYSICAL_PAGES ∧ page_isfree (free_pages_bitmap s) i = false ∧ i ∉ h;
  ai_disjoint : NoDup (ypages (yielded_lru s));
  ai_blocks : Forall (λ y, 0 < y_pages y ∧ (vm_isokendpt s (y_owner y)).1 = OK) (yielded_lru s);
  ai_ids : NoDup (block_key <$> yielded_lru s);
  ai_count : ∀ p, vm_yielded (vmprocs s p) =
    Z.of_nat (length (filter (λ y, ENDPOINT_P (y_owner y) = p) (yielded_lru s)));
}.

Lemma elem_of_block y i : i ∈ block_pages y ↔ ABS2CLICK (y_physaddr y) ≤ i < ABS2CLICK (y_physaddr y) + y_pages y.
Proof. unfold block_pages. apply elem_of_seqZ. Qed.

Lemma filter_all {A} (P : A → Prop) `{!∀ x, Decision (P x)} (l : list A) : (∀ x, x ∈ l → P x) → filter P l = l.
Proof.
  induction l as [|x l IH]; intros HP; [done|]. rewrite filter_cons_True by (apply HP; left).
  f_equal. apply IH. intros. apply HP. by right.
Qed.
Lemma remove_head y l : NoDup (block_key <$> y :: l) → remove_yielded y (y :: l) = l.
Proof.
  intros Hd. unfold remove_yielded. rewrite filter_cons_False by tauto.
  cbn in Hd. apply NoDup_cons in Hd as [Hd _]. apply filter_all. intros x Hx [E1 E2].
  apply Hd. replace (block_key y) with (block_key x) by (unfold block_key; congruence).
  by apply list_elem_of_fmap_2.
Qed.

(** What reclaiming yielded blocks leaves alone: of the process table only the counts change. *)
Record reclaim_frame (s s' : vmstate) : Prop := {
  rf_ws : vm_working_set s' = vm_working_set s;
  rf_hard : hardening_enabled s' = hardening_enabled s;
  rf_procs p : ∃ n, vmprocs s' p = vmprocs s p <| vm_yielded := n |>;
  rf_kern : ∃ m, kern s' = kern s <| phys := m |>;
}.
Lemma yielded_same p : p = p <| vm_yielded := vm_yielded p |>.
Proof. by destruct p. Qed.
Lemma alloc_reclaim_frame s s' : alloc_frame s s' → reclaim_frame s s'.
Proof. intros []. split; try done. intros p. rewrite af_procs0. eexists. apply yielded_same. Qed.
#[export] Instance reclaim_frame_preorder : PreOrder reclaim_frame.
Proof.
  split.
  - intros s. by apply alloc_reclaim_frame.
  - intros s1 s2 s3 [] []. split; try congruence.
    + intros p. destruct (rf_procs1 p) as [n E], (rf_procs0 p) as [n' E']. exists n. by rewrite E, E'.
    + destruct rf_kern0 as [m1 E1], rf_kern1 as [m2 E2]. exists m2. by rewrite E2, E1.
Qed.
Lemma isok_reclaim s s' e : reclaim_frame s s' → vm_isokendpt s' e = vm_isokendpt s e.
Proof. intros [_ _ Hp _]. unfold vm_isokendpt. destruct (Hp (ENDPOINT_P e)) as [n ->]. done. Qed.

Lemma vm_isokendpt_slot s e : (vm_isokendpt s e).2 = ENDPOINT_P e.
Proof. done. Qed.

(** The oldest block goes back to the free pages. *)
Lemma freeyieldednode_spec s h y l :
  alloc_inv s h → yielded_lru s = y :: l →
  wp (freeyieldednode y true) (λ r s', r = VM_PAGE_SIZE ∧ alloc_inv s' h ∧ yielded_lru s' = l ∧ reclaim_frame s s' ∧
    pages_to true (ABS2CLICK (y_physaddr y)) (y_pages y) (free_pages_bitmap s) (free_pages_bitmap s')) s.
Proof.
  intros [] Hl. rewrite Hl in *. apply Forall_cons in ai_blocks0 as [[Hy1 Hy2] Hbl].
  assert (∀ i, i ∈ block_pages y → i ∈ ypages (y :: l)) as Hin.
  { intros i Hi. unfold ypages. cbn. apply elem_of_app. by left. }
  assert (0 ≤ ABS2CLICK (y_physaddr y) ∧ ABS2CLICK (y_physaddr y) + y_pages y ≤ NUMBER_PHYSICAL_PAGES) as [Hr1 Hr2].
  { destruct (ai_yield0 (ABS2CLICK (y_physaddr y))) as [? _]; [apply Hin, elem_of_block; lia|].
    destruct (ai_yield0 (ABS2CLICK (y_physaddr y) + y_pages y - 1)) as [? _]; [apply Hin, elem_of_block; lia|]. lia. }
  unfold freeyieldednode, modify_vmproc. wp_steps. rewrite Hy2. cbn [negb Z.eqb OK]. rewrite vm_isokendpt_slot. wp_steps.
  apply wp_assert.
  { cbn [vmprocs set]. rewrite ai_count0, filter_cons_True by done. cbn [length]. apply Z.ltb_lt. lia. }
  wp_steps. eapply wp_mono; [apply free_mem_spec; lia|]. cbv beta. intros [] s' (Hstep & Hk & Hp). apply wp_ret.
  set (s1 := (s <| yielded_lru ::= remove_yielded y |>) <| vmprocs ::= _ |>) in *.
  assert (yielded_lru s1 = l) as Hl1 by (unfold s1; cbn [yielded_lru set]; rewrite Hl; by apply remove_head).
  assert (reclaim_frame s s1) as Hf1.
  { split; try done; [|eexists; apply phys_same]. intros p. unfold s1. cbn [vmprocs set]. unfold upd. case_decide as E.
    - rewrite E. by eexists.
    - eexists. apply yielded_same. }
  change (free_pages_bitmap s1) with (free_pages_bitmap s) in Hp. destruct Hstep as [Hf Hc].
  assert (yielded_lru s' = l) as Hl' by (rewrite (af_lru _ _ Hf); done).
  unfold ypages in ai_disjoint0. cbn in ai_disjoint0. apply NoDup_app in ai_disjoint0 as (_ & Hdis & Hnd).
  assert (∀ i, 0 ≤ i → page_isfree (free_pages_bitmap s) i = false → i ∉ block_pages y →
    page_isfree (free_pages_bitmap s') i = false) as Hkeep.
  { intros i Hi Hfr Hno. rewrite Hp, Hfr by done. destruct (in_range _ _ i) eqn:E; [|done].
    apply in_range_spec in E. destruct Hno. by apply elem_of_block. }
  split; [done|]. split; [|split; [done|split; [|done]]].
  2: { etrans; [exact Hf1|by apply alloc_reclaim_frame]. }
  split; rewrite ?Hl'.
  - by apply Hc.
  - intros i Hi. destruct (ai_held0 i Hi) as [? Hfr]. split; [done|]. apply Hkeep; [lia|done|].
    intros Hb. by apply Hin, ai_yield0 in Hb as (_ & _ & []).
  - intros i Hi. assert (i ∈ ypages (y :: l)) as Hi' by (unfold ypages; cbn; apply elem_of_app; by right).
    destruct (ai_yield0 i Hi') as (? & Hfr & ?). split; [done|]. split; [|done]. apply Hkeep; [lia|done|].
    intros Hb. by apply (Hdis i).
  - done.
  - eapply Forall_impl; [exact Hbl|]. intros x [? Hx]. split; [done|]. rewrite <-Hx. f_equal.
    apply isok_reclaim. etrans; [exact Hf1|by apply alloc_reclaim_frame].
  - cbn in ai_ids0. by apply NoDup_cons in ai_ids0 as [_ ?].
  - intros p. rewrite (af_procs _ _ Hf). unfold s1. cbn [vmprocs set]. unfold upd. case_decide as E.
    + cbn [vm_yielded set]. rewrite ai_count0, E, filter_cons_True by done. cbn [length]. lia.
    + rewrite ai_count0, filter_cons_False; [done|congruence].
Qed.

Definition only_frees (s s' : vmstate) : Prop :=
  ∀ i, 0 ≤ i → page_isfree (free_pages_bitmap s) i = true → page_isfree (free_pages_bitmap s') i = true.

Lemma free_yielded_spec n s h :
  alloc_inv s h →
  wp (free_yielded n) (λ _ s', alloc_inv s' h ∧ reclaim_frame s s' ∧ only_frees s s') s.
Proof.
  intros Hi. unfold free_yielded. wp_steps. remember (length (yielded_lru s)) as k eqn:Hk. generalize 0 as freed.
  assert (∀ s (r : Z), alloc_inv s h → wp (mret r) (λ _ s', alloc_inv s' h ∧ reclaim_frame s s' ∧ only_frees s s') s) as Hret.
  { intros s' r Hs'. apply wp_ret. split; [done|]. split; [reflexivity|by intros ?]. }
  revert s Hi Hk. induction k as [|k IH]; intros s Hi Hk freed; cbn [free_yielded_loop]; wp_steps.
  { destruct (yielded_lru s); [by apply Hret|by cbn in Hk]. }
  destruct (yielded_lru s) as [|y l] eqn:El; [by apply Hret|]. destruct (freed <? n); [|by apply Hret].
  apply wp_bind. eapply wp_mono; [by apply freeyieldednode_spec|]. intros r s1 (-> & Hi1 & Hl1 & Hf1 & Hp1).
  eapply wp_mono; [apply IH; [done|rewrite Hl1; by injection Hk]|]. intros _ s2 (Hi2 & Hf2 & Ho2).
  split; [done|]. split; [by etrans|]. intros i Hi0 Hfr. apply Ho2; [done|]. rewrite Hp1, Hfr by done.
  by destruct (in_range _ _ i).
Qed.

Definition page_set (p n : Z) : gset Z := list_to_set (seqZ p n).
Lemma elem_of_page_set p n i : i ∈ page_set p n ↔ p ≤ i < p + n.
Proof. unfold page_set. rewrite elem_of_list_to_set, elem_of_seqZ. done. Qed.

(** The invariant when pages change hands. *)
Lemma alloc_inv_frame s s' h : alloc_inv s h → alloc_step s s' → free_pages_bitmap s' = free_pages_bitmap s →
  alloc_inv s' h.
Proof.
  intros [] [Hf Hc] Hb. split; rewrite ?Hb, ?(af_lru _ _ Hf), ?(af_procs _ _ Hf); auto.
  eapply Forall_impl; [exact ai_blocks0|]. intros x [? Hx]. split; [done|]. rewrite <-Hx. f_equal.
  by apply isok_reclaim, alloc_reclaim_frame.
Qed.

Lemma alloc_inv_taken s s' h p n :
  alloc_inv s h → alloc_step s s' → 0 ≤ p → p + n ≤ NUMBER_PHYSICAL_PAGES → free_run (free_pages_bitmap s) p n →
  pages_to false p n (free_pages_bitmap s) (free_pages_bitmap s') →
  alloc_inv s' (h ∪ page_set p n) ∧ (∀ i, i ∈ page_set p n → i ∉ h).
Proof.
  intros [] [Hf Hc] Hp0 Hpn Hrun Hp. assert (∀ i, i ∈ page_set p n → (i ∉ h) ∧ (i ∉ ypages (yielded_lru s))) as Hnew.
  { intros i Hi%elem_of_page_set. specialize (Hrun i Hi). split.
    - intros [_ Hfr]%ai_held0. congruence.
    - intros (_ & Hfr & _)%ai_yield0. congruence. }
  assert (∀ i, 0 ≤ i → page_isfree (free_pages_bitmap s) i = false → page_isfree (free_pages_bitmap s') i = false) as Hk.
  { intros i Hi Hfr. rewrite Hp, Hfr by done. by destruct (in_range _ _ i). }
  split; [|by intros i [? _]%Hnew]. split; rewrite ?(af_lru _ _ Hf), ?(af_procs _ _ Hf); auto.
  - intros i [Hi|Hi]%elem_of_union.
    + destruct (ai_held0 i Hi) as [? Hfr]. split; [done|]. apply Hk; [lia|done].
    + apply elem_of_page_set in Hi. split; [lia|]. rewrite Hp by lia. by rewrite (proj2 (in_range_spec _ _ _) Hi).
  - intros i Hi. destruct (ai_yield0 i Hi) as (? & Hfr & Hh). split; [done|]. split; [apply Hk; [lia|done]|].
    intros [?|Hin]%elem_of_union; [done|]. by apply Hnew in Hin as [_ []].
  - eapply Forall_impl; [exact ai_blocks0|]. intros x [? Hx]. split; [done|]. rewrite <-Hx. f_equal.
    by apply isok_reclaim, alloc_reclaim_frame.
Qed.

Lemma alloc_inv_freed s s' h p n :
  alloc_inv s h → alloc_step s s' → (∀ i, i ∈ page_set p n → i ∈ h) →
  pages_to true p n (free_pages_bitmap s) (free_pages_bitmap s') → alloc_inv s' (h ∖ page_set p n).
Proof.
  intros [] [Hf Hc] Hsub Hp.
  assert (∀ i, 0 ≤ i → i ∉ page_set p n → page_isfree (free_pages_bitmap s) i = false →
    page_isfree (free_pages_bitmap s') i = false) as Hk.
  { intros i Hi Hno Hfr. rewrite Hp, Hfr by done. destruct (in_range _ _ i) eqn:E; [|done].
    apply in_range_spec in E. destruct Hno. by apply elem_of_page_set. }
  split; rewrite ?(af_lru _ _ Hf), ?(af_procs _ _ Hf); auto.
  - intros i [Hi Hno]%elem_of_difference. destruct (ai_held0 i Hi) as [? Hfr]. split; [done|]. apply Hk; [lia|done..].
  - intros i Hi. destruct (ai_yield0 i Hi) as (? & Hfr & Hh). split; [done|]. split; [|set_solver].
    apply Hk; [lia| |done]. intros ?%Hsub. done.
  - eapply Forall_impl; [exact ai_blocks0|]. intros x [? Hx]. split; [done|]. rewrite <-Hx. f_equal.
    by apply isok_reclaim, alloc_reclaim_frame.
Qed.

Lemma alloc_inv_sub s h h' : alloc_inv s h → h' ⊆ h → alloc_inv s h'.
Proof.
  intros [] Hsub. split; auto. intros i Hi. destruct (ai_yield0 i Hi) as (? & ? & ?). split; [done|]. set_solver.
Qed.

(** ** [alloc_mem] *)

(** A request is answered with pages that nobody has, or refused because there are none. *)
Definition stays_free (mem n : Z) (s s' : vmstate) : Prop :=
  ∀ i, 0 ≤ i < NUMBER_PHYSICAL_PAGES → page_isfree (free_pages_bitmap s) i = true →
    page_isfree (free_pages_bitmap s') i = true ∨ mem ≤ i < mem + n.
Definition alloc_mem_answer (clicks memflags mem : Z) (s s' : vmstate) (h : gset Z) : Prop :=
  reclaim_frame s s' ∧ (align_clicks memflags = 0 → stays_free mem clicks s s') ∧
  ((mem = NO_MEM ∧ alloc_inv s' h ∧
    ∀ p, 0 ≤ p → p + (clicks + align_clicks memflags) - 1 ≤ maxpage_of memflags →
         ¬ free_run (free_pages_bitmap s') p (clicks + align_clicks memflags)) ∨
   (0 ≤ mem ∧ mem + clicks - 1 ≤ maxpage_of memflags ∧ (align_clicks memflags ≠ 0 → mem mod align_clicks memflags = 0) ∧
    alloc_inv s' (h ∪ page_set mem clicks) ∧ ∀ i, i ∈ page_set mem clicks → i ∉ h)).

Lemma align_range fl : align_clicks fl = 0 ∨ 0 < align_clicks fl ≤ 16.
Proof. unfold align_clicks. destruct (has fl PAF_ALIGN64K), (has fl PAF_ALIGN16K); vm_compute; intuition congruence. Qed.

Section alloc_mem.
Context `{SysMem, !SysMemOk}.

(** Both attempts to find [n] pages. *)
Lemma alloc_twice s h n fl (m : Z) :
  alloc_inv s h → 0 < n → n ≤ NUMBER_PHYSICAL_PAGES + 16 →
  wp (mem ← alloc_pages n fl;
      if mem =? NO_MEM then free_yielded m;; alloc_pages n fl else mret mem)
    (λ mem s', reclaim_frame s s' ∧ stays_free mem n s s' ∧
      ((mem = NO_MEM ∧ alloc_inv s' h ∧
        ∀ p, 0 ≤ p → p + n - 1 ≤ maxpage_of fl → ¬ free_run (free_pages_bitmap s') p n) ∨
       (0 ≤ mem ∧ mem + n - 1 ≤ maxpage_of fl ∧ alloc_inv s' (h ∪ page_set mem n) ∧
        ∀ i, i ∈ page_set mem n → i ∉ h))) s.
Proof.
  intros Hi Hn Hn'. pose proof no_mem_no_page. pose proof (maxpage_range fl).
  assert (∀ s h, alloc_inv s h → wp (alloc_pages n fl) (λ mem s', reclaim_frame s s' ∧ stays_free mem n s s' ∧
      ((mem = NO_MEM ∧ alloc_inv s' h ∧
        ∀ p, 0 ≤ p → p + n - 1 ≤ maxpage_of fl → ¬ free_run (free_pages_bitmap s') p n) ∨
       (0 ≤ mem ∧ mem + n - 1 ≤ maxpage_of fl ∧ alloc_inv s' (h ∪ page_set mem n) ∧
        ∀ i, i ∈ page_set mem n → i ∉ h))) s) as Hone.
  { clear s h Hi. intros s h Hi. eapply wp_mono; [apply alloc_pages_spec; [by apply Hi|done]|].
    intros mem s' [Hst [(-> & Hb & Hno)|(Hq1 & Hq2 & Hq3 & Hq4)]].
    - split; [apply alloc_reclaim_frame, Hst|]. split; [intros i _ Hi0; left; by rewrite Hb|]. left. rewrite Hb. split; [done|]. split; [|done].
      by apply (alloc_inv_frame s).
    - split; [apply alloc_reclaim_frame, Hst|]. split.
      { intros i Hi0 Hfi. rewrite Hq4 by lia. destruct (in_range mem n i) eqn:E; [right; by apply in_range_spec|by left]. }
      right. split; [done|]. split; [done|]. apply (alloc_inv_taken s); try done. lia. }
  apply wp_bind. eapply wp_mono; [by apply Hone|]. intros mem s1 (Hf1 & Hs1 & Hr). destruct (Z.eqb_spec mem NO_MEM) as [->|Hne].
  - destruct Hr as [(_ & Hi1 & _)|(? & ? & _)]; [|lia]. apply wp_bind. eapply wp_mono; [by apply free_yielded_spec|].
    intros _ s2 (Hi2 & Hf2 & Ho2). eapply wp_mono; [by apply Hone|]. intros mem s3 (Hf3 & Hs3 & Hr). split; [|split; [|done]].
    + etrans; [exact Hf1|]. by etrans.
    + intros i Hi0 Hfi. destruct (Hs1 i Hi0 Hfi) as [Hfi1|]; [apply Hs3; [done|apply Ho2; [lia|done]]|lia].
  - apply wp_ret. by split.
Qed.

Lemma alloc_mem_spec s h clicks fl :
  alloc_inv s h → 0 < clicks ≤ NUMBER_PHYSICAL_PAGES →
  wp (alloc_mem clicks fl) (λ mem s', alloc_mem_answer clicks fl mem s s' h) s.
Proof.
  intros Hi Hc. pose proof (align_range fl) as Ha. pose proof no_mem_no_page as Hnm. pose proof (maxpage_range fl) as Hmx.
  unfold alloc_mem. replace (u32 (clicks + align_clicks fl)) with (clicks + align_clicks fl)
    by (symmetry; apply u32_id; unfold NUMBER_PHYSICAL_PAGES in Hc; lia).
  rewrite i32_id by (unfold NUMBER_PHYSICAL_PAGES in Hc; lia).
  pose proof (alloc_twice s h (clicks + align_clicks fl) fl (u32 ((clicks + align_clicks fl) * CLICK_SIZE)) Hi
    ltac:(lia) ltac:(lia)) as Ht.
  apply wp_bind_inv in Ht. apply wp_bind. eapply wp_mono; [exact Ht|]. clear Ht. intros mem0 s0 Ht. cbv beta in Ht.
  apply wp_bind. eapply wp_mono; [exact Ht|]. clear Ht. intros mem s1 (Hf & Hsf & Hr). destruct (Z.eqb_spec mem NO_MEM) as [->|Hne].
  { apply wp_ret. split; [done|]. split.
    { intros E. by rewrite E, Z.add_0_r in Hsf. }
    destruct Hr as [|(? & ? & _)]; [auto|lia]. }
  destruct Hr as [[]|(Hm0 & Hm1 & Hi1 & Hnew)]; [done|].
  assert (∀ p n, mem ≤ p → p + n ≤ mem + (clicks + align_clicks fl) → ∀ i, i ∈ page_set p n →
    i ∈ page_set mem (clicks + align_clicks fl)) as Hin.
  { intros p n Hq1 Hq2 i Hi0. rewrite !elem_of_page_set in *. lia. }
  destruct Ha as [Ha|Ha].
  { rewrite Ha in *. apply wp_ret. rewrite Z.add_0_r in *. split; [done|]. split; [done|]. right. split; [done|]. split; [done|].
    split; [by rewrite Ha|done]. }
  rewrite (proj2 (Z.eqb_neq _ _)) by lia. cbn [negb].
  pose proof (Z.mod_pos_bound mem (align_clicks fl) ltac:(lia)) as Hmod.
  destruct (Z.ltb_spec 0 (mem mod align_clicks fl)) as [Ho|Ho].
  - apply wp_bind. eapply wp_mono; [apply free_mem_spec; lia|].
    intros [] s2 (Hst & Hk & Hp). apply wp_ret. rewrite u32_id by (unfold NO_MEM, MAP_NONE in *; lia).
    split; [etrans; [exact Hf|]; apply alloc_reclaim_frame, Hst|]. split; [lia|]. right. split; [lia|]. split; [lia|]. split.
    { intros _. rewrite (Z.div_mod mem (align_clicks fl)) at 1 by lia.
      replace (align_clicks fl * (mem `div` align_clicks fl) + mem `mod` align_clicks fl +
        (align_clicks fl - mem `mod` align_clicks fl)) with ((mem `div` align_clicks fl + 1) * align_clicks fl) by lia.
      apply Z.mod_mul. lia. }
    split.
    + eapply alloc_inv_sub; [eapply (alloc_inv_freed s1); [exact Hi1|exact Hst| |exact Hp]|].
      * intros i Hi0. apply elem_of_union_r. eapply Hin; [| |exact Hi0]; lia.
      * intros i Hi0. apply elem_of_difference. split.
        -- apply elem_of_union in Hi0 as [?|Hi0]; [by apply elem_of_union_l|]. apply elem_of_union_r.
           eapply Hin; [| |exact Hi0]; lia.
        -- intros Hx. apply elem_of_union in Hi0 as [Hi0|Hi0].
           ++ eapply Hnew; [|exact Hi0]. eapply Hin; [| |exact Hx]; lia.
           ++ rewrite elem_of_page_set in *. lia.
    + intros i Hi0. apply Hnew. eapply Hin; [| |exact Hi0]; lia.
  - apply wp_ret. split; [done|]. split; [lia|]. right. split; [done|]. split; [lia|]. split; [lia|]. split.
    + eapply alloc_inv_sub; [exact Hi1|]. intros i [?|Hi0]%elem_of_union; [by apply elem_of_union_l|].
      apply elem_of_union_r. eapply Hin; [| |exact Hi0]; lia.
    + intros i Hi0. apply Hnew. eapply Hin; [| |exact Hi0]; lia.
Qed.
End alloc_mem.

(** ** Starting up *)

Definition chunk_ok (c : Z * Z) : Prop := 0 ≤ c.1 ∧ 0 ≤ c.2 ∧ c.1 + c.2 ≤ NUMBER_PHYSICAL_PAGES.
Definition in_chunks (chunks : list (Z * Z)) (i : Z) : bool := existsb (λ c, in_range c.1 c.2 i) chunks.
Definition chunks_size (chunks : list (Z * Z)) : Z := foldr (λ c n, c.2 + n) 0 chunks.

Lemma in_chunks_app l l' i : in_chunks (l ++ l') i = in_chunks l i || in_chunks l' i.
Proof. apply existsb_app. Qed.
Lemma chunks_size_app l l' : chunks_size (l ++ l') = chunks_size l + chunks_size l'.
Proof. unfold chunks_size. induction l as [|c l IH]; cbn; [done|]. rewrite IH. lia. Qed.

(** After [mem_init] on the list of memory chunks of the machine exactly the pages of the
    chunks are free and [total_pages] is the sum of their sizes.  The lower bound [mem_low]
    stays what it was, 0, since the flag [first] that would set it is never true. *)
Lemma mem_init_spec chunks s :
  Forall chunk_ok chunks → cache_ok s → mem_low s = 0 →
  wp (mem_init chunks) (λ _ s', cache_ok s' ∧ mem_low s' = 0 ∧ total_pages s' = chunks_size chunks ∧
    yielded_lru s' = yielded_lru s ∧ vmprocs s' = vmprocs s ∧
    ∀ i, 0 ≤ i → page_isfree (free_pages_bitmap s') i = in_chunks chunks i) s.
Proof.
  intros Hok Hc Hlow. unfold mem_init. apply wp_bind, wp_modify. eapply wp_mono.
  { apply (wp_forM_ _ _ (λ l s', ∃ l', chunks = reverse l ++ l' ∧ cache_ok s' ∧ mem_low s' = 0 ∧
      total_pages s' = chunks_size l' ∧ yielded_lru s' = yielded_lru s ∧ vmprocs s' = vmprocs s ∧
      ∀ i, 0 ≤ i → page_isfree (free_pages_bitmap s') i = in_chunks l' i)).
    - exists []. rewrite reverse_involutive, app_nil_r. repeat (split; [done|]). done.
    - intros [base size] l s1 (l' & Hl & Hc1 & Hlow1 & Ht1 & Hy1 & Hp1 & Hb1).
      rewrite reverse_cons, <-app_assoc in Hl. cbn [app] in Hl.
      assert (chunk_ok (base, size)) as (Hbase & Hsize & Hmax).
      { rewrite Forall_forall in Hok. apply Hok. rewrite Hl. apply elem_of_app. right. left. }
      cbn [fst snd] in *. destruct (Z.ltb_spec 0 size) as [Hpos|Hz].
      2: { apply wp_ret. exists ((base, size) :: l'). split; [done|]. repeat (split; [done|]). split.
           { change (chunks_size ((base, size) :: l')) with (size + chunks_size l'). rewrite Ht1. lia. }
           repeat (split; [done|]). intros i Hi. rewrite Hb1 by done. cbn [in_chunks existsb fst snd].
           destruct (in_range base size i) eqn:E; [|done]. apply in_range_spec in E. lia. }
      apply wp_bind, wp_modify. cbn [orb].
      replace (CLICK2ABS base <? mem_low s1) with false
        by (rewrite Hlow1; symmetry; apply Z.ltb_ge; unfold CLICK2ABS; apply Z.mod_pos_bound; done).
      apply wp_bind, wp_modify. set (s2 := if _ <? _ then _ else _).
      assert (cache_ok s2 ∧ mem_low s2 = 0 ∧ total_pages s2 = total_pages s1 ∧ yielded_lru s2 = yielded_lru s ∧
        vmprocs s2 = vmprocs s ∧ free_pages_bitmap s2 = free_pages_bitmap s1) as (Hc2 & Hlow2 & Ht2 & Hy2 & Hp2 & Hb2).
      { subst s2. by destruct (_ <? _). }
      clearbody s2. apply wp_bind. eapply wp_mono; [by apply free_mem_spec|].
      intros [] s3 ([Hf Hc3] & _ & Hb3). apply wp_modify. exists ((base, size) :: l').
      split; [done|]. split; [by apply Hc3|]. destruct Hf. cbn [mem_low total_pages yielded_lru vmprocs free_pages_bitmap set].
      split; [congruence|]. split.
      { change (chunks_size ((base, size) :: l')) with (size + chunks_size l'). rewrite af_total0, Ht2, Ht1. lia. }
       split; [congruence|]. split; [congruence|].
      intros i Hi. rewrite Hb3, Hb2, Hb1 by done. cbn [in_chunks existsb fst snd]. by destruct (in_range base size i). }
  intros [] s' (l' & Hl & Hinv). change (reverse []) with (@nil (Z * Z)) in Hl. cbn [app] in Hl. subst l'. exact Hinv.
Qed.

Definition demo_chunks : list (Z * Z) := [(0, 0); (16, 64); (1000, 24)].

(** ** Every history of requests *)

(** The states that start-up, requests, returned pages and yielded blocks lead to, with the pages
    [h] that are handed out. *)
Inductive alloc_reach `{SysMem} : vmstate → gset Z → Prop :=
| ar_init chunks s s' :
    Forall chunk_ok chunks → free_page_cache s = [] → mem_low s = 0 → yielded_lru s = [] →
    (∀ p, vm_yielded (vmprocs s p) = 0) →
    mem_init chunks s = Ret ((), s') → alloc_reach s' ∅
| ar_alloc s h clicks fl mem s' :
    alloc_reach s h → 0 < clicks ≤ NUMBER_PHYSICAL_PAGES → alloc_mem clicks fl s = Ret (mem, s') →
    alloc_reach s' (if mem =? NO_MEM then h else h ∪ page_set mem clicks)
| ar_free s h p n s' :
    alloc_reach s h → 0 < n → page_set p n ⊆ h → free_mem p n s = Ret ((), s') →
    alloc_reach s' (h ∖ page_set p n)
| ar_yield s h y s' :
    alloc_reach s h → 0 < y_pages y → (vm_isokendpt s (y_owner y)).1 = OK →
    block_key y ∉ (block_key <$> yielded_lru s) → list_to_set (block_pages y) ⊆ h →
    record_yielded (ENDPOINT_P (y_owner y)) y s = Ret ((), s') →
    alloc_reach s' (h ∖ list_to_set (block_pages y)).

Lemma alloc_inv_init chunks s s' :
  Forall chunk_ok chunks → free_page_cache s = [] → mem_low s = 0 → yielded_lru s = [] →
  (∀ p, vm_yielded (vmprocs s p) = 0) → mem_init chunks s = Ret ((), s') → alloc_inv s' ∅.
Proof.
  intros Hok Hc Hl Hy Hv Hrun. assert (cache_ok s) as Hc' by (unfold cache_ok; by rewrite Hc).
  pose proof (mem_init_spec chunks s Hok Hc' Hl) as Hw. unfold wp in Hw. rewrite Hrun in Hw.
  destruct Hw as (Hc1 & _ & _ & Hy1 & Hp1 & _). rewrite Hy in Hy1.
  split; rewrite ?Hy1; try constructor; try done; try set_solver. intros p. by rewrite Hp1, Hv.
Qed.

Lemma alloc_inv_yield s h y s' :
  alloc_inv s h → 0 < y_pages y → (vm_isokendpt s (y_owner y)).1 = OK →
  block_key y ∉ (block_key <$> yielded_lru s) → list_to_set (block_pages y) ⊆ h →
  record_yielded (ENDPOINT_P (y_owner y)) y s = Ret ((), s') → alloc_inv s' (h ∖ list_to_set (block_pages y)).
Proof.
  intros [] Hpg Hep Hkey Hsub Hrun.
  assert (reclaim_frame s s') as Hf.
  { injection Hrun as <-. split; try done; [|eexists; apply phys_same]. intros p. cbn [vmprocs set]. unfold upd.
    case_decide as E; [rewrite E; by eexists|eexists; apply yielded_same]. }
  assert (∀ e, vm_isokendpt s' e = vm_isokendpt s e) as Hok by (intros e; by apply isok_reclaim).
  injection Hrun as <-.
  assert (∀ l, ypages (l ++ [y]) = ypages l ++ block_pages y) as Hyp.
  { intros l. unfold ypages. rewrite bind_app. cbn. by rewrite app_nil_r. }
  split; cbn [free_page_cache free_pages_bitmap yielded_lru vmprocs set]; rewrite ?Hyp.
  - done.
  - intros i [Hi _]%elem_of_difference. by apply ai_held0.
  - intros i [Hi|Hi]%elem_of_app.
    + destruct (ai_yield0 i Hi) as (? & ? & ?). split; [done|]. split; [done|]. set_solver.
    + assert (i ∈ h) as [??]%ai_held0 by set_solver. split; [done|]. split; [done|]. set_solver.
  - apply NoDup_app. split; [done|]. split; [|apply NoDup_seqZ].
    intros i Hi Hb. apply ai_yield0 in Hi as (_ & _ & []). set_solver.
  - apply Forall_app. split; [|repeat constructor; try done].
    + eapply Forall_impl; [exact ai_blocks0|]. intros x [? Hx]. split; [done|]. by rewrite Hok.
    + by rewrite Hok.
  - rewrite fmap_app. apply NoDup_app. split; [done|]. split; [|apply NoDup_singleton].
    intros x Hx Hx'%list_elem_of_singleton. by subst x.
  - intros p. rewrite filter_app, length_app. unfold upd. case_decide as E.
    + subst p. cbn [vm_yielded set]. rewrite filter_cons_True, ai_count0 by done. cbn. lia.
    + rewrite filter_cons_False, ai_count0 by congruence. cbn. lia.
Qed.

Lemma alloc_reach_inv `{SysMem, !SysMemOk} s h : alloc_reach s h → alloc_inv s h.
Proof.
  pose proof no_mem_no_page as Hnm.
  induction 1 as [chunks s s'|s h clicks fl mem s' _ IH Hc Hrun|s h p n s' _ IH Hn Hsub Hrun|s h y s' _ IH].
  - by eapply alloc_inv_init.
  - pose proof (alloc_mem_spec s h clicks fl IH Hc) as Hw. unfold wp in Hw. rewrite Hrun in Hw.
    pose proof (maxpage_range fl). destruct Hw as (_ & _ & [(-> & Hi & _)|(? & ? & _ & Hi & _)]); [by rewrite Z.eqb_refl|].
    rewrite (proj2 (Z.eqb_neq _ _)) by lia. done.
  - assert (∀ i, i ∈ page_set p n → i ∈ h) as Hin by set_solver.
    assert (0 ≤ p ∧ p + n ≤ NUMBER_PHYSICAL_PAGES) as [Hp1 Hp2].
    { destruct (ai_held _ _ IH p) as [? _]; [apply Hin, elem_of_page_set; lia|].
      destruct (ai_held _ _ IH (p + n - 1)) as [? _]; [apply Hin, elem_of_page_set; lia|]. lia. }
    pose proof (free_mem_spec p n s Hp1 ltac:(lia) Hp2) as Hw. unfold wp in Hw. rewrite Hrun in Hw.
    destruct Hw as (Hst & _ & Hp). by eapply alloc_inv_freed.
  - by eapply alloc_inv_yield.
Qed.

(** C15. No page is handed out twice.  In every state that start-up and any history of requests,
    returned pages and yielded blocks leads to, [alloc_mem] answers without an assertion
    failing.  Either it gives pages that are aligned as asked for, below the limit of the
    flags, and none of which is in anybody's hands; or it gives [NO_MEM], and then, after
    yielded blocks were taken back, no run of free pages is long enough. *)
Theorem alloc_mem_never_twice `{SysMem, !SysMemOk} s h clicks fl :
  alloc_reach s h → 0 < clicks ≤ NUMBER_PHYSICAL_PAGES →
  ∃ mem s', alloc_mem clicks fl s = Ret (mem, s') ∧
    if mem =? NO_MEM
    then ∀ p, 0 ≤ p → p + (clicks + align_clicks fl) - 1 ≤ maxpage_of fl →
           ¬ free_run (free_pages_bitmap s') p (clicks + align_clicks fl)
    else 0 ≤ mem ∧ mem + clicks - 1 ≤ maxpage_of fl ∧ (align_clicks fl ≠ 0 → mem mod align_clicks fl = 0) ∧
      ∀ i, mem ≤ i < mem + clicks → i ∉ h.
Proof.
  intros Hr Hc. pose proof no_mem_no_page as Hnm. pose proof (maxpage_range fl) as Hmx.
  destruct (wp_inv _ _ _ (alloc_mem_spec s h clicks fl (alloc_reach_inv s h Hr) Hc)) as (mem & s' & Hrun & _ & _ & Ha).
  exists mem, s'. split; [done|]. destruct Ha as [(-> & _ & Hno)|(H1' & H2' & H3' & _ & Hnew)].
  - by rewrite Z.eqb_refl.
  - rewrite (proj2 (Z.eqb_neq _ _)) by lia. split; [done|]. split; [done|]. split; [done|].
    intros i Hi. by apply Hnew, elem_of_page_set.
Qed.

(** Memory with a free block, one request answered, one block yielded. *)
Definition demo_vs : vmstate := vs0 <| vmprocs ::= λ t, upd t 3 (t 3 <| vm_flags := VMF_INUSE |> <| vm_endpoint := 3 |>) |>.
Definition run_out {A} (m : V A) (s : vmstate) : vmstate := match m s with Ret (_, s') => s' | Panic _ => s end.
Lemma run_out_eq {A} (m : V A) s a :
  match m s with Ret (x, _) => x = a | Panic _ => False end → m s = Ret (a, run_out m s).
Proof. unfold run_out. destruct (m s) as [[x s']|]; [by intros ->|done]. Qed.
Definition demo_vs1 : vmstate := run_out (mem_init demo_chunks) demo_vs.
Definition demo_vs2 : vmstate := run_out (alloc_mem 4 0) demo_vs1.
Definition demo_yield : yielded := mk_yielded 3 77 (1021 * 4096) 2.
Definition demo_vs3 : vmstate := run_out (record_yielded 3 demo_yield) demo_vs2.
Lemma demo_run1 : mem_init demo_chunks demo_vs = Ret ((), demo_vs1).
Proof. unfold demo_vs1. apply run_out_eq. vm_compute. reflexivity. Qed.
Lemma demo_run2 : alloc_mem 4 0 demo_vs1 = Ret (1020, demo_vs2).
Proof. unfold demo_vs2. apply run_out_eq. vm_compute. reflexivity. Qed.
Lemma demo_run3 : record_yielded (ENDPOINT_P (y_owner demo_yield)) demo_yield demo_vs2 = Ret ((), demo_vs3).
Proof. unfold demo_vs3. apply run_out_eq. vm_compute. reflexivity. Qed.
Lemma demo_key : block_key demo_yield ∉ (block_key <$> yielded_lru demo_vs2).
Proof. replace (yielded_lru demo_vs2) with (@nil yielded) by (vm_compute; reflexivity). apply not_elem_of_nil. Qed.
Lemma demo_ok : (vm_isokendpt demo_vs2 (y_owner demo_yield)).1 = OK.
Proof. vm_compute. reflexivity. Qed.
Lemma demo_sub : list_to_set (block_pages demo_yield) ⊆ page_set 1020 4.
Proof.
  intros i. rewrite elem_of_list_to_set, elem_of_block, elem_of_page_set.
  change (ABS2CLICK (y_physaddr demo_yield)) with 1021. change (y_pages demo_yield) with 2. lia.
Qed.
#[local] Opaque demo_vs demo_vs1 demo_vs2 demo_vs3 alloc_mem mem_init.
Lemma demo_reach1 : alloc_reach demo_vs1 ∅.
Proof.
  refine (ar_init demo_chunks demo_vs demo_vs1 _ _ _ _ _ demo_run1).
  - repeat constructor; vm_compute; congruence.
  - vm_compute. reflexivity.
  - vm_compute. reflexivity.
  - vm_compute. reflexivity.
  - intros p. with_strategy transparent [demo_vs] unfold demo_vs. cbn [vmprocs set vs0]. unfold upd. by case_decide.
Qed.
Lemma demo_reach2 : alloc_reach demo_vs2 (page_set 1020 4).
Proof.
  replace (page_set 1020 4) with (if 1020 =? NO_MEM then (∅ : gset Z) else ∅ ∪ page_set 1020 4)
    by (change (1020 =? NO_MEM) with false; apply leibniz_equiv, union_empty_l).
  refine (ar_alloc demo_vs1 ∅ 4 0 1020 demo_vs2 demo_reach1 _ demo_run2). done.
Qed.
Lemma demo_reach : alloc_reach demo_vs3 (page_set 1020 4 ∖ list_to_set (block_pages demo_yield)).
Proof.
  refine (ar_yield demo_vs2 (page_set 1020 4) demo_yield demo_vs3 demo_reach2 _ demo_ok demo_key demo_sub demo_run3).
  done.
Qed.
#[local] Transparent alloc_mem mem_init.
Lemma alloc_mem_never_twice_witness :
  ∃ mem s', alloc_mem 2 0 demo_vs3 = Ret (mem, s') ∧
    if mem =? NO_MEM
    then ∀ p, 0 ≤ p → p + (2 + align_clicks 0) - 1 ≤ maxpage_of 0 →
           ¬ free_run (free_pages_bitmap s') p (2 + align_clicks 0)
    else 0 ≤ mem ∧ mem + 2 - 1 ≤ maxpage_of 0 ∧ (align_clicks 0 ≠ 0 → mem mod align_clicks 0 = 0) ∧
      ∀ i, mem ≤ i < mem + 2 → i ∉ page_set 1020 4 ∖ list_to_set (block_pages demo_yield).
Proof. apply (alloc_mem_never_twice demo_vs3 _ 2 0 demo_reach). done. Defined.

(** ** Aligned requests *)

(** A leak.  For an aligned request [alloc_mem] takes [align] pages more than asked for and
    gives back those below the aligned address, but not those above the block: when the
    block is returned, page [lost], which was free before, is still marked in use. *)
Theorem alloc_aligned_leaks `{SysMem, !SysMemOk} s clicks fl p :
  cache_ok s → 0 < clicks ≤ NUMBER_PHYSICAL_PAGES → align_clicks fl ≠ 0 →
  0 ≤ p → p + (clicks + align_clicks fl) - 1 ≤ maxpage_of fl →
  free_run (free_pages_bitmap s) p (clicks + align_clicks fl) →
  ∃ mem s1 s2 lost,
    alloc_mem clicks fl s = Ret (mem, s1) ∧ free_mem mem clicks s1 = Ret ((), s2) ∧
    mem + clicks ≤ lost ∧ page_isfree (free_pages_bitmap s) lost = true ∧
    page_isfree (free_pages_bitmap s2) lost = false.
Proof.
  intros Hca Hc Ha Hp Hp' Hrun. destruct (align_range fl) as [|Hal]; [done|].
  pose proof no_mem_no_page as Hnm. pose proof (maxpage_range fl) as Hmx.
  pose proof (alloc_pages_spec (clicks + align_clicks fl) fl s Hca ltac:(lia)) as (m0 & s0 & Hr0 & Hst & Hans)%wp_inv.
  destruct Hans as [(_ & _ & Hno)|(Hm0 & Hm1 & Hfr & Hpt)]; [by destruct (Hno p)|].
  set (o := m0 mod align_clicks fl). assert (0 ≤ o < align_clicks fl) as Ho by (apply Z.mod_pos_bound; lia).
  assert (∀ s1, wp (free_mem (m0 + (if 0 <? o then align_clicks fl - o else 0)) clicks) (λ _ s2,
    page_isfree (free_pages_bitmap s1) (m0 + clicks + align_clicks fl - 1) = false →
    page_isfree (free_pages_bitmap s2) (m0 + clicks + align_clicks fl - 1) = false) s1) as Hback.
  { intros s1. eapply wp_mono; [apply free_mem_spec; destruct (Z.ltb_spec 0 o); lia|].
    intros [] s2 (_ & _ & Hb) Hu. rewrite Hb, Hu by lia. destruct (in_range _ _ _) eqn:E; [|done].
    apply in_range_spec in E. destruct (Z.ltb_spec 0 o); lia. }
  assert (page_isfree (free_pages_bitmap s0) (m0 + clicks + align_clicks fl - 1) = false) as Hu0.
  { rewrite Hpt by lia. by rewrite (proj2 (in_range_spec _ _ _)) by lia. }
  assert (∃ s1, alloc_mem clicks fl s = Ret (m0 + (if 0 <? o then align_clicks fl - o else 0), s1) ∧
    page_isfree (free_pages_bitmap s1) (m0 + clicks + align_clicks fl - 1) = false) as (s1 & Hal1 & Hu1).
  { unfold alloc_mem. replace (u32 (clicks + align_clicks fl)) with (clicks + align_clicks fl)
      by (symmetry; apply u32_id; unfold NUMBER_PHYSICAL_PAGES in Hc; lia).
    rewrite i32_id by (unfold NUMBER_PHYSICAL_PAGES in Hc; lia).
    unfold mbind, M_bind. rewrite Hr0. rewrite !(proj2 (Z.eqb_neq _ _)) by lia. cbn [negb mret M_ret].
    rewrite !(proj2 (Z.eqb_neq _ _)) by lia. fold o. destruct (Z.ltb_spec 0 o) as [Ho'|Ho'].
    - destruct (wp_inv _ _ _ (free_mem_spec m0 (align_clicks fl - o) s0 ltac:(lia) ltac:(lia) ltac:(lia)))
        as ([] & s1 & Hrf & _ & _ & Hb). exists s1. rewrite Hrf. cbn [mret M_ret].
      rewrite u32_id by (unfold NO_MEM, MAP_NONE in *; lia). split; [done|]. rewrite Hb, Hu0 by lia.
      destruct (in_range _ _ _) eqn:E; [|done]. apply in_range_spec in E. lia.
    - exists s0. rewrite Z.add_0_r. done. }
  destruct (wp_inv _ _ _ (Hback s1)) as ([] & s2 & Hrf & Hu2).
  exists (m0 + (if 0 <? o then align_clicks fl - o else 0)), s1, s2, (m0 + clicks + align_clicks fl - 1).
  split; [done|]. split; [done|]. split; [destruct (Z.ltb_spec 0 o); lia|]. split; [apply Hfr; lia|by apply Hu2].
Qed.

Lemma demo_free_run : free_run (free_pages_bitmap demo_vs1) 1000 (1 + align_clicks PAF_ALIGN64K).
Proof. apply free_runb_spec. vm_compute. reflexivity. Qed.
Lemma demo_cache : cache_ok demo_vs1.
Proof. exact (ai_cache _ _ (alloc_reach_inv _ _ demo_reach1)). Qed.
Lemma alloc_aligned_leaks_witness :
  ∃ mem s1 s2 lost,
    alloc_mem 1 PAF_ALIGN64K demo_vs1 = Ret (mem, s1) ∧ free_mem mem 1 s1 = Ret ((), s2) ∧
    mem + 1 ≤ lost ∧ page_isfree (free_pages_bitmap demo_vs1) lost = true ∧
    page_isfree (free_pages_bitmap s2) lost = false.
Proof.
  apply (alloc_aligned_leaks demo_vs1 1 PAF_ALIGN64K 1000 demo_cache); [done|done|done|done|apply demo_free_run].
Defined.
