(* ===== verification/VmPram.v ===== *)
(** * The hardening half of the virtual memory server

    vmpram.c (the list of blocks of a hardened process, in VM's own table), vmcow.c (frames for
    copy on write), hcow.c (switching hardening on and off), and the places of exit.c, fork.c
    and main.c that use them.  Names that the kernel uses too have the prefix [vm_].

    The part of fork.c that copies the address space, and the kernel's answer to sys_fork, are
    arguments of [vm_do_fork]. *)
From S2P Require Import Prelude LinkedList Kernel Endpoint Sched HMem WorkingSet VmReq Hardening HKcalls VmServer VmAlloc.

Definition VM_FIRST_RUN : Z := 1.
Definition VM_SECOND_RUN : Z := 2.
Definition VR_WRITABLE : Z := 0x001.
Definition VR_PHYS64K : Z := 0x004.
Definition VR_LOWER16MB : Z := 0x008.
Definition VR_LOWER1MB : Z := 0x010.
Definition VR_CONTIG : Z := 0x020.
Definition VR_UNINITIALIZED : Z := 0x080.
Definition I386_VM_PFE_W : Z := 0x02.
Definition ENABLE_HARDENING : Z := 1.
Definition DISABLE_HARDENING : Z := 0.

Definition modify_vpmb (b : Z) (f : vm_pmb → vm_pmb) : V unit :=
  modify (λ s, s <| vm_working_set ::= λ t, upd t b (f (t b)) |>).
Definition vm_pmb_next (s : vmstate) (b : Z) : option Z := vp_next (vm_working_set s b).
Definition vm_same_page (s : vmstate) (pde pte b : Z) : bool :=
  (I386_VM_PTE (vp_vaddr (vm_working_set s b)) =? pte) && (I386_VM_PDE (vp_vaddr (vm_working_set s b)) =? pde).

(** ** vmpram.c: blocks *)

Definition vm_look_up_pte (s : vmstate) (n pde pte : Z) : option Z :=
  if vm_lus1_us2_size (vmprocs s n) <=? 0 then None
  else find_block HLIST_FUEL (vm_pmb_next s) (vm_lus1_us2 (vmprocs s n)) (vm_same_page s pde pte).

Definition vm_pmb_free (s : vmstate) (b : Z) : bool := has (vp_flags (vm_working_set s b)) PRAM_SLOT_FREE.
Definition vm_pmb_taken (x : vm_pmb) : vm_pmb :=
  x <| vp_flags ::= clear_flag PRAM_SLOT_FREE |> <| vp_next := None |> <| vp_us1 := MAP_NONE |>
    <| vp_us2 := MAP_NONE |> <| vp_us0 := MAP_NONE |> <| vp_vaddr := MAP_NONE |>.

Definition vm_get_pmb : V Z :=
  first ← gets (λ s, vm_pmb_free s 0);
  if first : bool then modify_vpmb 0 vm_pmb_taken;; mret 0
  else
    b ← gets (λ s, scan_slot HLIST_FUEL (vm_pmb_free s) (WORKING_SET_SIZE - 1) 0);
    if WORKING_SET_SIZE <=? b then panic "Block list is full stop"
    else modify_vpmb b vm_pmb_taken;; mret b.

(** Insert the block on the process's linked list. *)
Definition vm_link_pmb (n b : Z) : V unit :=
  size ← gets (λ s, vm_lus1_us2_size (vmprocs s n));
  first ← gets (λ s, vm_lus1_us2 (vmprocs s n));
  (if size =? 0 then modify_vmproc n (λ p, p <| vm_lus1_us2 := Some b |>)
   else match first with
        | None => panic "NULL next_pmb"
        | Some f =>
            l ← gets (λ s, last_block HLIST_FUEL (vm_pmb_next s) f);
            modify_vpmb l (λ x, x <| vp_next := Some b |>);;
            modify_vpmb b (λ x, x <| vp_next := None |>)
        end);;
  modify_vpmb b (λ x, x <| vp_id := size |>);;
  modify_vmproc n (λ p, p <| vm_lus1_us2_size ::= λ c, c + 1 |>).

Definition vm_add_pmb (n v pfa us1_ us2_ : Z) : V Z :=
  b ← vm_get_pmb;
  modify_vpmb b (λ x, x <| vp_us0 := pfa |> <| vp_vaddr := v |> <| vp_us1 := us1_ |> <| vp_us2 := us2_ |>);;
  vm_link_pmb n b;;
  mret b.

Definition vm_pmb_freed (x : vm_pmb) : vm_pmb :=
  x <| vp_flags := PRAM_SLOT_FREE |> <| vp_vaddr := MAP_NONE |> <| vp_id := 0 |>
    <| vp_us1 := MAP_NONE |> <| vp_us2 := MAP_NONE |> <| vp_us0 := MAP_NONE |>.

Fixpoint vm_free_pmb_loop (fuel : nat) (n pde pte : Z) (prev pmb : option Z) : V unit :=
  match pmb, fuel with
  | None, _ => mret ()
  | Some b, O => panic "list does not end"
  | Some b, S fuel' =>
      here ← gets (λ s, vm_same_page s pde pte b);
      if here : bool then
        x ← gets (λ s, vm_working_set s b);
        free_mem (ABS2CLICK (vp_us1 x)) 1;;
        free_mem (ABS2CLICK (vp_us2 x)) 1;;
        modify_vpmb b vm_pmb_freed;;
        modify_vmproc n (λ p, p <| vm_lus1_us2_size ::= λ c, c - 1 |>);;
        nx ← gets (λ s, vm_pmb_next s b);
        match prev with
        | Some pr => modify_vpmb pr (λ x, x <| vp_next := nx |>)
        | None => modify_vmproc n (λ p, p <| vm_lus1_us2 := nx |>)
        end
      else
        nx ← gets (λ s, vm_pmb_next s b);
        vm_free_pmb_loop fuel' n pde pte (Some b) nx
  end.

Definition vm_free_pram_mem_block (n va : Z) : V unit :=
  assert_ (λ s, 0 <? vm_lus1_us2_size (vmprocs s n)) "vm_lus1_us2_size > 0";;
  first ← gets (λ s, vm_lus1_us2 (vmprocs s n));
  vm_free_pmb_loop HLIST_FUEL n (I386_VM_PDE va) (I386_VM_PTE va) None first.

(** [while(pmb) { body; pmb = pmb->next_pmb; }] over VM's blocks. *)
Fixpoint vm_walk (fuel : nat) (start : option Z) (body : Z → V unit) : V unit :=
  match start, fuel with
  | None, _ => mret ()
  | Some b, O => panic "list does not end"
  | Some b, S fuel' => body b;; nx ← gets (λ s, vm_pmb_next s b); vm_walk fuel' nx body
  end.

Definition vm_free_pram_mem_blocks (n : Z) : V unit :=
  size ← gets (λ s, vm_lus1_us2_size (vmprocs s n));
  if size <=? 0 then mret ()
  else
    first ← gets (λ s, vm_lus1_us2 (vmprocs s n));
    vm_walk HLIST_FUEL first (λ b, va ← gets (λ s, vp_vaddr (vm_working_set s b)); vm_free_pram_mem_block n va);;
    assert_ (λ s, vm_lus1_us2_size (vmprocs s n) =? 0) "vm_lus1_us2_size == 0";;
    assert_ (λ s, bool_decide (vm_lus1_us2 (vmprocs s n) = None)) "vm_lus1_us2 == NULL".

Definition free_region_pmbs (n raddr length : Z) : V Z :=
  size ← gets (λ s, vm_lus1_us2_size (vmprocs s n));
  if size <=? 0 then mret OK
  else
    forM_ (seqZ 0 (n_pages_covered raddr length)) (λ p,
      let va := u32 (page_base raddr + p * 4 * 1024) in
      found ← gets (λ s, vm_look_up_pte s n (I386_VM_PDE va) (I386_VM_PTE va));
      match found with
      | None => mret ()
      | Some b => v ← gets (λ s, vp_vaddr (vm_working_set s b)); vm_free_pram_mem_block n v
      end);;
    e ← gets (λ s, vm_endpoint (vmprocs s n));
    kcall (sys_free_pmbs e raddr length);;
    mret OK.

Section hardening.
Context `{SysMem}.

(** One page of [tell_kernel_for_us1_us2]. *)
Definition tell_kernel_page (n v physaddr : Z) : V Z :=
  found ← gets (λ s, vm_look_up_pte s n (I386_VM_PDE v) (I386_VM_PTE v));
  b ← (match found with
       | None =>
           us1_cl ← alloc_mem 1 PAF_CLEAR;
           if us1_cl =? NO_MEM then panic "tell_kernel_for_us1_us2: no mem" else
           us2_cl ← alloc_mem 1 PAF_CLEAR;
           if us2_cl =? NO_MEM then panic "tell_kernel_for_us1_us2: no mem" else
           vm_add_pmb n v physaddr (CLICK2ABS us1_cl) (CLICK2ABS us2_cl)
       | Some b => modify_vpmb b (λ x, x <| vp_us0 := physaddr |>);; mret b
       end);
  x ← gets (λ s, vm_working_set s b);
  e ← gets (λ s, vm_endpoint (vmprocs s n));
  kcall (sys_addregionto_ws e v 1 (vp_us1 x) (vp_us2 x)).

Fixpoint tell_kernel_pages (pages : list Z) (n v physaddr : Z) : V Z :=
  match pages with
  | [] => mret OK
  | p :: pages' =>
      r ← tell_kernel_page n (u32 (v + p * VM_PAGE_SIZE)) (u32 (physaddr + p * VM_PAGE_SIZE));
      if negb (r =? OK) then mret EFAULT else tell_kernel_pages pages' n v physaddr
  end.
Definition tell_kernel_for_us1_us2 (n v physaddr bytes : Z) : V Z :=
  tell_kernel_pages (seqZ 0 (bytes / VM_PAGE_SIZE)) n v physaddr.

(** The end of [pt_writemap] (arch/i386/pagetable.c) and of [pb_unreferenced] (pb.c): a page of a
    hardened process is mapped or goes away. *)
Definition harden_target (s : vmstate) (n : Z) : bool :=
  has (vm_hflags (vmprocs s n)) VM_PROC_TO_HARD && negb (vm_endpoint (vmprocs s n) =? NONE) &&
  negb (vm_endpoint (vmprocs s n) =? VM_PROC_NR).
Definition pt_writemap_tell (n flags vi physaddri bytes : Z) : V unit :=
  t ← gets (λ s, has flags I386_VM_WRITE && harden_target s n);
  if t : bool then
    r ← tell_kernel_for_us1_us2 n vi physaddri bytes;
    if negb (r =? OK) then panic "pt_writemap: tell_kernel_for_us1_us2 failed" else mret ()
  else mret ().
Definition pb_unreferenced_tell (n va : Z) : V unit :=
  t ← gets (λ s, harden_target s n);
  if t : bool then
    r ← free_region_pmbs n va VM_PAGE_SIZE;
    if negb (r =? OK) then panic "free_region_pmbs in vm" else mret ()
  else mret ().

(** ** vmcow.c: frames for copy on write *)

Definition vrallocflags (flags : Z) : Z :=
  let add (f a r : Z) := if has flags f then Z.lor r a else r in
  let r := add VR_CONTIG PAF_CONTIG (add VR_LOWER1MB PAF_LOWER1MB
             (add VR_LOWER16MB PAF_LOWER16MB (add VR_PHYS64K PAF_ALIGN64K 0))) in
  if negb (has flags VR_UNINITIALIZED) then Z.lor r PAF_CLEAR else r.

(** The first and the second run name their frame in different arguments. *)
Definition tell_hmem_map (n what frame : Z) : V unit :=
  e ← gets (λ s, vm_endpoint (vmprocs s n));
  (if what =? VM_FIRST_RUN then
     r ← kcall (sys_hmem_map e frame (u32 (-2)) (u32 (-2)) 0);
     if negb (r =? OK) then panic "VM: sys_hmem_map failed" else mret ()
   else mret ());;
  (if what =? VM_SECOND_RUN then
     r ← kcall (sys_hmem_map e (u32 (-2)) frame (u32 (-2)) 0);
     if negb (r =? OK) then panic "VM: sys_hmem_map failed" else mret ()
   else mret ()).

Definition copy_page (src dst : Z) : V unit :=
  r ← sys_abscopy src dst VM_PAGE_SIZE;
  if negb (r =? OK) then panic "VM: abscopy failed" else mret ().

(** [allocate_mem_4_hardening(vmp, region, ph, what)]: [va] is [region->vaddr + ph->offset],
    [phys] is [ph->ph->phys]. *)
Definition allocate_mem_4_hardening (n : Z) (region : vir_region) (va phys_ what : Z) : V unit :=
  let allocflags := Z.lor (vrallocflags (vr_flags region)) PAF_CLEAR in
  modify_vmproc n (λ p, p <| vm_hflags ::= set_flag VM_PROC_TO_HARD |>);;
  found ← gets (λ s, vm_look_up_pte s n (I386_VM_PDE va) (I386_VM_PTE va));
  match found with
  | None =>
      b ← vm_get_pmb;
      cl ← alloc_mem 1 allocflags;
      if cl =? NO_MEM then panic "allocate_mem_4_hardening: no mem" else
      let new_page := CLICK2ABS cl in
      copy_page phys_ new_page;;
      modify_vpmb b (λ x, x <| vp_us0 := phys_ |>);;
      (if what =? VM_FIRST_RUN then modify_vpmb b (λ x, x <| vp_us1 := new_page |>) else mret ());;
      (if what =? VM_SECOND_RUN then modify_vpmb b (λ x, x <| vp_us2 := new_page |>) else mret ());;
      modify_vpmb b (λ x, x <| vp_vaddr := va |>);;
      vm_link_pmb n b;;
      tell_hmem_map n what new_page
  | Some b =>
      x ← gets (λ s, vm_working_set s b);
      (if negb (vp_us1 x =? MAP_NONE) && negb (vp_us2 x =? MAP_NONE)
       then modify_vpmb b (λ x, x <| vp_us0 := phys_ |>) else mret ());;
      new_page ← (if (vp_us1 x =? MAP_NONE) || (vp_us2 x =? MAP_NONE) then
                    cl ← alloc_mem 1 allocflags;
                    if cl =? NO_MEM then panic "allocate_mem_4_hardening: no mem" else mret (CLICK2ABS cl)
                  else mret 0);
      if what =? VM_FIRST_RUN then
        (if vp_us1 x =? MAP_NONE then modify_vpmb b (λ x, x <| vp_us1 := new_page |>) else mret ());;
        f ← gets (λ s, vp_us1 (vm_working_set s b));
        copy_page phys_ f;;
        tell_hmem_map n what f
      else if what =? VM_SECOND_RUN then
        (if vp_us2 x =? MAP_NONE then modify_vpmb b (λ x, x <| vp_us2 := new_page |>) else mret ());;
        f ← gets (λ s, vp_us2 (vm_working_set s b));
        copy_page phys_ f;;
        tell_hmem_map n what f
      else panic "Unkown value for what in hmap_pf"
  end.

(** [map_lookup] (region.c): the region at or below the address, if it covers it. *)
Definition map_lookup (s : vmstate) (n va : Z) : option vir_region :=
  match last (filter (λ r, vr_vaddr r ≤ va) (vm_regions (vmprocs s n))) with
  | Some r => if va <? vr_vaddr r + vr_length r then Some r else None
  | None => None
  end.

Definition hmap_pf (n : Z) (region : vir_region) (offset write what : Z) : V Z :=
  let offset := offset - offset mod VM_PAGE_SIZE in
  assert_ (λ _, offset <? vr_length region) "offset < region->length";;
  assert_ (λ _, vr_vaddr region mod VM_PAGE_SIZE =? 0) "!(region->vaddr % VM_PAGE_SIZE)";;
  assert_ (λ _, negb (negb (write =? 0) && negb (has (vr_flags region) VR_WRITABLE)))
    "!(write && !(region->flags & VR_WRITABLE))";;
  match vr_physblocks region offset with
  | None => panic "assert(ph)"
  | Some f => allocate_mem_4_hardening n region (u32 (vr_vaddr region + offset)) f what;; mret OK
  end.

(** [do_hpagefaults]; the branch for a failure of [hmap_pf] cannot be taken. *)
Definition do_hpagefaults (sys_vmctl : Z → Z → Z → K Z) (ep m_type addr err : Z) : V unit :=
  e ← gets (λ s, vm_isokendpt s ep);
  if negb (e.1 =? OK) then panic "do_pagefaults: endpoint wrong" else
  let p := e.2 in
  assert_ (λ s, has (vm_flags (vmprocs s p)) VMF_INUSE) "vm_flags & VMF_INUSE";;
  let what := if m_type =? VM_HR2PAGEFAULT then VM_SECOND_RUN
              else if m_type =? VM_HR1PAGEFAULT then VM_FIRST_RUN else 0 in
  region ← gets (λ s, map_lookup s p addr);
  match region with
  | None => panic "region null"
  | Some r =>
      hmap_pf p r (addr - vr_vaddr r) (Z.land err I386_VM_PFE_W) what;;
      s ← kcall (sys_vmctl ep VMCTL_CLEAR_PAGEFAULT 0);
      if negb (s =? OK) then panic "do_pagefaults: sys_vmctl failed" else mret ()
  end.
End hardening.

Definition do_memconf (ep : Z) : V Z :=
  e ← gets (λ s, vm_isokendpt s ep);
  if negb (e.1 =? OK) then panic "do_pagefaults: endpoint wrong" else
  vm_free_pram_mem_blocks e.2;;
  mret OK.

(** ** hcow.c *)

Definition vm_do_hardening (ep reqtype : Z) : V unit :=
  e ← gets (λ s, vm_isokendpt s ep);
  if negb (e.1 =? OK) then panic "do_hardening: endpoint wrong" else
  assert_ (λ s, has (vm_flags (vmprocs s e.2)) VMF_INUSE) "vm_flags & VMF_INUSE";;
  if reqtype =? VM_TELL_VM_H_ENABLE then modify (λ s, s <| hardening_enabled := ENABLE_HARDENING |>)
  else if reqtype =? VM_TELL_VM_H_DISABLE then modify (λ s, s <| hardening_enabled := DISABLE_HARDENING |>)
  else if reqtype =? VM_TELL_VM_H_ENABLE_P then
    modify_vmproc e.2 (λ p, p <| vm_hflags ::= set_flag VM_PROC_TO_HARD |>)
  else if reqtype =? VM_TELL_VM_H_DISABLE_P then
    modify_vmproc e.2 (λ p, p <| vm_hflags ::= clear_flag VM_PROC_TO_HARD |>)
  else mret ().

(** ** exit.c and fork.c *)

Definition clear_proc (n : Z) : V unit :=
  vm_free_pram_mem_blocks n;;
  modify_vmproc n (λ p, p <| vm_regions := [] |> <| vm_flags := 0 |> <| vm_yielded := 0 |>).

Definition vm_do_willexit (ep : Z) : V Z :=
  e ← gets (λ s, vm_isokendpt s ep);
  if negb (e.1 =? OK) then mret EINVAL
  else modify_vmproc e.2 (λ p, p <| vm_flags ::= set_flag VMF_EXITING |>);; mret OK.

(** [free_proc] gives back the regions and the page table of slot [n]. *)
Definition vm_do_exit (free_proc : Z → V unit) (ep : Z) : V Z :=
  e ← gets (λ s, vm_isokendpt s ep);
  if negb (e.1 =? OK) then mret EINVAL else
  exiting ← gets (λ s, has (vm_flags (vmprocs s e.2)) VMF_EXITING);
  if negb exiting then mret EINVAL
  else free_proc e.2;; clear_proc e.2;; mret OK.

(** [do_fork]: [copy_space vmc vmp] is pt_new and map_proc_copy with their result, [sys_fork]
    gives the endpoint of the child, [handle_messages] is the two handle_memory calls. *)
Definition vm_do_fork (copy_space : Z → Z → V Z) (sys_fork : Z → Z → V Z) (pt_bind handle_messages : Z → Z → V unit)
    (ep childproc : Z) : V (Z * Z) :=
  e ← gets (λ s, vm_isokendpt s ep);
  if negb (e.1 =? OK) then mret (EINVAL, NONE) else
  let vmp := e.2 in
  if (childproc <? 0) || (NR_PROCS <=? childproc) then mret (EINVAL, NONE) else
  let vmc := childproc in
  assert_ (λ s, vm_slot (vmprocs s vmc) =? childproc) "vmc->vm_slot == childproc";;
  parent ← gets (λ s, vmprocs s vmp);
  modify_vmproc vmc (λ _, parent <| vm_slot := childproc |> <| vm_regions := [] |> <| vm_endpoint := NONE |>);;
  r ← copy_space vmc vmp;
  if negb (r =? OK) then mret (ENOMEM, NONE) else
  modify_vmproc vmc (λ p, p <| vm_flags ::= λ f, Z.land f VMF_INUSE |>);;
  child_e ← sys_fork (vm_endpoint parent) childproc;
  modify_vmproc vmc (λ p, p <| vm_endpoint := child_e |>);;
  pt_bind vmc vmp;;
  hard ← gets (λ s, negb (hardening_enabled s =? 0));
  (if hard : bool then
     modify_vmproc vmc (λ p, p <| vm_hflags ::= set_flag VM_PROC_TO_HARD |> <| vm_lus1_us2 := None |>
                               <| vm_lus1_us2_size := 0 |>)
   else mret ());;
  handle_messages vmc vmp;;
  mret (OK, child_e).

(** ** main.c: the table of blocks at start-up *)

Definition vm_init_blocks : V unit :=
  forM_ (seqZ 0 (WORKING_SET_SIZE - 1)) (λ b,
    modify_vpmb b (λ x, x <| vp_flags := PRAM_SLOT_FREE |> <| vp_vaddr := 0 |> <| vp_us0 := 0 |>
                          <| vp_us1 := 0 |> <| vp_us2 := 0 |>)).
