(* ===== verification/VmPramThm.v ===== *)
(** * The two working sets: VM and the kernel agree

    VM reports every page of a hardened process to the kernel with two frames for the two runs.
    After every report both lists have the same pages with the same frames, and the frames
    belong to nobody else.  When blocks are given back the frames are free again; two flaws
    are proved as well: a block without a second frame frees a page that does not exist, and
    a forked process shares the list of its parent. *)
From stdpp Require Import gmap.
From S2P Require Import Prelude LinkedList Kernel Endpoint Sched HMem WorkingSet VmReq Hardening HKcalls WsList.
From S2P Require Import VmServer VmAlloc VmAllocThm VmPram.

(** ** VM's list *)

Record vm_list (s : vmstate) (n : Z) (l : list Z) : Prop := {
  vl_chain : chain (vm_pmb_next s) (vm_lus1_us2 (vmprocs s n)) l None;
  vl_size : vm_lus1_us2_size (vmprocs s n) = Z.of_nat (length l);
  vl_len : (length l < HLIST_FUEL)%nat;
  vl_used : Forall (λ b, vm_pmb_free s b = false) l;
}.
Definition vview (s : vmstate) (l : list Z) : list (Z * Z * (Z * Z)) :=
  (λ b, let x := vm_working_set s b in (vpage (vp_vaddr x), (vp_us1 x, vp_us2 x))) <$> l.
Definition vslot (s : vmstate) : Prop := ∃ j, 0 ≤ j < WORKING_SET_SIZE - 1 ∧ vm_pmb_free s j = true.

Lemma vm_look_up_list s n l pde pte :
  vm_list s n l → vm_look_up_pte s n pde pte = List.find (vm_same_page s pde pte) l.
Proof.
  intros [Hc Hs Hl _]. unfold vm_look_up_pte. rewrite Hs. destruct l as [|b l]; [done|].
  rewrite (proj2 (Z.leb_gt _ _)) by (cbn; lia). apply find_block_chain; [done|lia].
Qed.

Lemma vfind_view s l pde pte :
  match List.find (vm_same_page s pde pte) l with
  | Some b => b ∈ l ∧ vpage (vp_vaddr (vm_working_set s b)) = (pde, pte)
  | None => ∀ e, e ∈ vview s l → e.1 ≠ (pde, pte)
  end.
Proof.
  induction l as [|b l IH]; cbn [List.find vview fmap list_fmap]; [by intros e ?%elem_of_nil|].
  unfold vm_same_page at 1. destruct (Z.eqb_spec (I386_VM_PTE (vp_vaddr (vm_working_set s b))) pte) as [E1|E1];
    [destruct (Z.eqb_spec (I386_VM_PDE (vp_vaddr (vm_working_set s b))) pde) as [E2|E2]|]; cbn [andb].
  - split; [left|]. unfold vpage. congruence.
  - destruct (List.find _ l); [destruct IH; split; [by right|done]|].
    intros e [->|He]%elem_of_cons; [cbn; unfold vpage; congruence|by apply IH].
  - destruct (List.find _ l); [destruct IH; split; [by right|done]|].
    intros e [->|He]%elem_of_cons; [cbn; unfold vpage; congruence|by apply IH].
Qed.

Lemma vm_get_pmb_spec s :
  vslot s → ∃ b, vm_get_pmb s = Ret (b, s <| vm_working_set ::= λ t, upd t b (vm_pmb_taken (t b)) |>) ∧
    vm_pmb_free s b = true ∧ 0 ≤ b < WORKING_SET_SIZE - 1.
Proof.
  intros (j & Hj & Hf). unfold vm_get_pmb, mbind, M_bind, gets. cbv beta. destruct (vm_pmb_free s 0) eqn:E0.
  { exists 0. split; [done|]. by unfold WORKING_SET_SIZE. }
  destruct (scan_slot_spec (vm_pmb_free s) (WORKING_SET_SIZE - 1) HLIST_FUEL 0) as [H1 H2].
  { exists j. split; [|done]. destruct (decide (j = 0)) as [->|]; [congruence|lia]. }
  { unfold HLIST_FUEL, WORKING_SET_SIZE. rewrite Z2Nat.id by lia. lia. }
  set (b := scan_slot _ _ _ _) in *. clearbody b.
  rewrite (proj2 (Z.leb_gt _ _)) by lia. exists b. split; [done|]. split; [done|lia].
Qed.

(** Everything but blocks and the head of the list of slot [n]. *)
Record vm_frame (n : Z) (s s' : vmstate) : Prop := {
  vf_only : s' = s <| vm_working_set := vm_working_set s' |> <| vmprocs := vmprocs s' |>;
  vf_self : ∃ h c, vmprocs s' n = vmprocs s n <| vm_lus1_us2 := h |> <| vm_lus1_us2_size := c |>;
  vf_other q : q ≠ n → vmprocs s' q = vmprocs s q;
}.
Definition vbut_link (x y : vm_pmb) : Prop := ∃ nx, x = y <| vp_next := nx |>.
Lemma vbut_link_refl x : vbut_link x x.
Proof. exists (vp_next x). by destruct x. Qed.

Lemma vm_link_pmb_spec s n l b :
  chain (vm_pmb_next s) (vm_lus1_us2 (vmprocs s n)) l None → vm_lus1_us2_size (vmprocs s n) = Z.of_nat (length l) →
  (length l < HLIST_FUEL)%nat → b ∉ l → vm_pmb_next s b = None →
  wp (vm_link_pmb n b) (λ _ s', vm_frame n s s' ∧
    chain (vm_pmb_next s') (vm_lus1_us2 (vmprocs s' n)) (l ++ [b]) None ∧
    vm_lus1_us2_size (vmprocs s' n) = Z.of_nat (length (l ++ [b])) ∧
    (∀ c, c ≠ b → vbut_link (vm_working_set s' c) (vm_working_set s c)) ∧
    ∃ id, vm_working_set s' b = vm_working_set s b <| vp_id := id |> <| vp_next := None |>) s.
Proof.
  intros Hc Hs Hlen Hb Hnb. unfold vm_link_pmb, modify_vmproc, modify_vpmb. wp_steps. rewrite Hs. destruct l as [|f l].
  - change (Z.of_nat (length []) =? 0) with true. cbv iota. wp_steps. unfold vm_pmb_next.
    cbn [vm_working_set vmprocs set]. rewrite !upd_eq. cbn [vm_lus1_us2 vm_lus1_us2_size set app length].
    split; [|split; [|split; [|split]]].
    + split; [by destruct s| |intros q Hq; cbn [vmprocs set]; by rewrite !upd_ne]. cbn [vmprocs set]. rewrite !upd_eq.
      eexists _, _. reflexivity.
    + split; [done|]. rewrite upd_eq. exact Hnb.
    + by rewrite Hs.
    + intros c Hcb. rewrite upd_ne by done. apply vbut_link_refl.
    + exists 0. unfold vm_pmb_next in Hnb. destruct (vm_working_set s b). cbn in *. by subst.
  - rewrite (proj2 (Z.eqb_neq _ _)) by (cbn; lia). destruct Hc as [Hf Hc]. rewrite Hf. wp_steps.
    rewrite (last_block_chain (vm_pmb_next s) HLIST_FUEL l f Hc) by (cbn in Hlen; lia). set (y := List.last l f).
    assert (y ∈ f :: l) as Hy by apply last_elem. assert (b ≠ y) as Hby by (by intros ->).
    assert (chain (upd (upd (vm_pmb_next s) y (Some b)) b None) (Some f) ((f :: l) ++ [b]) None) as Hc'.
    { apply chain_snoc_upd; [by split|done]. }
    cbn [vm_working_set vmprocs set]. rewrite !upd_eq. cbn [vm_lus1_us2 vm_lus1_us2_size set].
    split; [|split; [|split; [|split]]].
    + split; [by destruct s| |intros q Hq; cbn [vmprocs set]; by rewrite !upd_ne]. cbn [vmprocs set]. rewrite !upd_eq.
      exists (vm_lus1_us2 (vmprocs s n)), (vm_lus1_us2_size (vmprocs s n) + 1). by destruct (vmprocs s n).
    + rewrite Hf. eapply chain_ext; [|exact Hc']. intros x Hx. unfold vm_pmb_next. cbn [vm_working_set set].
      unfold upd. repeat case_decide; subst; try done.
    + rewrite Hs, length_app. cbn. lia.
    + intros c Hcb. rewrite !upd_ne by done. rewrite upd_case. case_decide as E; [|apply vbut_link_refl].
      subst c. by eexists.
    + exists (Z.of_nat (length (f :: l))). rewrite !upd_ne by done. by destruct (vm_working_set s b).
Qed.

Lemma vm_add_pmb_spec s n l v pfa u1 u2 :
  vm_list s n l → vslot s → (S (length l) < HLIST_FUEL)%nat →
  wp (vm_add_pmb n v pfa u1 u2) (λ b s', vm_list s' n (l ++ [b]) ∧ vm_frame n s s' ∧ (b ∉ l) ∧
    (∀ c, c ≠ b → vbut_link (vm_working_set s' c) (vm_working_set s c)) ∧
    vp_us1 (vm_working_set s' b) = u1 ∧ vp_us2 (vm_working_set s' b) = u2 ∧
    vview s' (l ++ [b]) = vview s l ++ [(vpage v, (u1, u2))]) s.
Proof.
  intros [Hc Hs Hl Hu] Hk Hlen. destruct (vm_get_pmb_spec s Hk) as (b & Hg & Hf & Hb).
  assert (b ∉ l) as Hbl. { intros Hin. rewrite Forall_forall in Hu. by rewrite Hu in Hf. }
  unfold vm_add_pmb. apply wp_bind. eapply wp_intro; [exact Hg|]. apply wp_bind, wp_modify.
  set (s1 := set vm_working_set _ (set vm_working_set _ s)). apply wp_bind.
  assert (∀ c, c ≠ b → vm_working_set s1 c = vm_working_set s c) as Hother.
  { intros c Hcb. unfold s1. cbn [vm_working_set set]. by rewrite !upd_ne. }
  eapply wp_mono; [apply (vm_link_pmb_spec s1 n l b); try done|].
  - eapply chain_ext; [|exact Hc]. intros c Hcl. unfold vm_pmb_next. rewrite Hother; [done|]. by intros ->.
  - unfold s1, vm_pmb_next. cbn [vm_working_set set]. by rewrite !upd_eq.
  - intros [] s' (Hfr & Hc' & Hs' & Hbut & id & Hbb). apply wp_ret.
    assert (vm_working_set s' b = (vm_pmb_taken (vm_working_set s b) <| vp_us0 := pfa |> <| vp_vaddr := v |> <| vp_us1 := u1 |>
      <| vp_us2 := u2 |>) <| vp_id := id |> <| vp_next := None |>) as Hbb'.
    { rewrite Hbb. unfold s1. cbn [vm_working_set set]. by rewrite !upd_eq. }
    split; [|split; [|split; [done|split; [|split; [by rewrite Hbb'|split; [by rewrite Hbb'|]]]]]].
    + split; [done|done|rewrite length_app; cbn; lia|]. apply Forall_app. split.
      * rewrite Forall_forall in Hu |- *. intros c Hcl. unfold vm_pmb_free.
        destruct (Hbut c) as [nx ->]; [by intros ->|]. rewrite Hother by (by intros ->). exact (Hu c Hcl).
      * constructor; [|done]. unfold vm_pmb_free. rewrite Hbb'. cbn [vp_flags set vm_pmb_taken]. apply has_clear_self.
    + destruct Hfr as [E1 E2 E3]. split; [|exact E2|exact E3]. rewrite E1. by destruct s.
    + intros c Hcb. rewrite <-Hother by done. by apply Hbut.
    + unfold vview. rewrite fmap_app. cbn [fmap list_fmap]. rewrite Hbb'. f_equal. apply list_fmap_ext. intros i c Hic.
      assert (c ≠ b) as Hcb by (intros ->; apply Hbl; by eapply list_elem_of_lookup_2).
      destruct (Hbut c Hcb) as [nx ->]. by rewrite Hother.
Qed.

(** ** Both sides *)

Definition view_frames (w : list (Z * Z * (Z * Z))) : list Z := w ≫= λ e, [e.2.1; e.2.2].
Lemma view_frames_snoc w pg u1 u2 : view_frames (w ++ [(pg, (u1, u2))]) = view_frames w ++ [u1; u2].
Proof. unfold view_frames. by rewrite bind_app. Qed.

(** Process [n] of VM is process [p] of the kernel; both have the same pages with the same frames,
    and the frames are pages that were handed out, no two the same. *)
Record paired (s : vmstate) (n p : Z) (h : gset Z) (lv lk : list Z) : Prop := {
  pa_vm : vm_list s n lv;
  pa_ep : isokendpt (kern s) (vm_endpoint (vmprocs s n)) = Some p;
  pa_hard : has (p_hflags (hp (kern s) p)) PROC_TO_HARD = true;
  pa_k : ws_list (kern s) p lk;
  pa_tab : ktab_ok (kern s);
  pa_view : kview (kern s) lk = vview s lv;
  pa_alloc : alloc_inv s h;
  pa_frames : NoDup (view_frames (vview s lv));
  pa_held : ∀ f, f ∈ view_frames (vview s lv) → ∃ c, f = CLICK2ABS c ∧ c ∈ h;
}.

Lemma paired_length s n p h lv lk : paired s n p h lv lk → length lk = length lv.
Proof. intros [? ? ? ? ? E ? ? ?]. apply (f_equal length) in E. unfold kview, vview in E. by rewrite !length_fmap in E. Qed.

Lemma paired_reclaim s s' n p h h' lv lk :
  paired s n p h lv lk → reclaim_frame s s' → alloc_inv s' h' → h ⊆ h' → paired s' n p h' lv lk.
Proof.
  intros [] [Hws _ Hp [m Hk]] Hi Hsub. destruct (Hp n) as [c Hn].
  assert (∀ l, vview s' l = vview s l) as Hv by (intros l; unfold vview; by rewrite Hws).
  split; rewrite ?Hv, ?Hn, ?Hk; try done.
  - destruct pa_vm0. split; rewrite ?Hn; try done.
    + unfold vm_pmb_next. by rewrite Hws.
    + unfold vm_pmb_free. by rewrite Hws.
  - by destruct pa_k0; split.
  - by destruct pa_tab0; split.
  - intros f Hf. destruct (pa_held0 f Hf) as (c' & ? & ?). exists c'. split; [done|by apply Hsub].
Qed.

Lemma alloc_inv_vm_frame n s s' h : vm_frame n s s' → alloc_inv s h → alloc_inv s' h.
Proof.
  intros [E (hd & c & En) Eo] [A1 A2 A3 A4 A5 A6 A7].
  assert (∀ e, vm_isokendpt s' e = vm_isokendpt s e) as Hok.
  { intros e. unfold vm_isokendpt. destruct (decide (ENDPOINT_P e = n)) as [->|]; [by rewrite En|by rewrite Eo]. }
  assert (free_pages_bitmap s' = free_pages_bitmap s ∧ free_page_cache s' = free_page_cache s ∧
    yielded_lru s' = yielded_lru s) as (Eb & Ec & Ey) by (rewrite E; done).
  split; rewrite ?Eb, ?Ey; try done.
  - unfold cache_ok. by rewrite Ec.
  - eapply Forall_impl; [exact A5|]. intros y [? Hy]. by rewrite Hok.
  - intros q. rewrite <-A7. destruct (decide (q = n)) as [->|]; [by rewrite En|by rewrite Eo].
Qed.

Lemma isokendpt_ws_frame p k k' e : ws_frame p k k' → isokendpt k' e = isokendpt k e.
Proof.
  intros [_ (hd & c & Ep) Eo]. unfold isokendpt, isemptyp.
  destruct (decide (ENDPOINT_P e = p)) as [->|]; [by rewrite Ep|by rewrite Eo].
Qed.

(** ** Reporting a page *)

Section report.
Context `{SysMem, !SysMemOk}.

Lemma alloc_one s h c :
  alloc_inv s h → 0 ≤ c < NUMBER_PHYSICAL_PAGES → page_isfree (free_pages_bitmap s) c = true →
  wp (alloc_mem 1 PAF_CLEAR) (λ m s', m ≠ NO_MEM ∧ 0 ≤ m < NUMBER_PHYSICAL_PAGES ∧ (m ∉ h) ∧
    alloc_inv s' (h ∪ {[ m ]}) ∧ reclaim_frame s s' ∧ stays_free m 1 s s') s.
Proof.
  intros Hi Hc Hf. pose proof no_mem_no_page as Hnm. pose proof (maxpage_range PAF_CLEAR) as Hmx.
  eapply wp_mono; [apply (alloc_mem_spec s h 1 PAF_CLEAR); [done|done]|].
  intros m s' (Hfr & Hst & Hans). specialize (Hst eq_refl). change (align_clicks PAF_CLEAR) with 0 in Hans.
  destruct Hans as [(-> & _ & Hno)|(Hm0 & Hm1 & _ & Hi' & Hnew)].
  - exfalso. destruct (Hst c Hc Hf) as [Hf'|]; [|lia]. apply (Hno c); [lia|change (maxpage_of PAF_CLEAR) with 1048575; unfold NUMBER_PHYSICAL_PAGES in Hc; lia|].
    intros i Hi0. by replace i with c by lia.
  - split; [lia|]. split; [lia|]. split; [apply Hnew, elem_of_page_set; lia|]. split; [|done].
    eapply alloc_inv_sub; [exact Hi'|]. intros i [?|Hx%elem_of_singleton]%elem_of_union; [set_solver|subst i].
    apply elem_of_union_r, elem_of_page_set. lia.
Qed.

Lemma click_abs c : 0 ≤ c < NUMBER_PHYSICAL_PAGES → CLICK2ABS c = 4096 * c.
Proof.
  intros Hc. unfold CLICK2ABS, CLICK_SHIFT. rewrite Z.shiftl_mul_pow2 by lia.
  unfold NUMBER_PHYSICAL_PAGES in Hc. rewrite u32_id; lia.
Qed.

(** Two frames that nobody has and a block for a page that is not yet known. *)
Lemma fresh_block s n p h lv lk v phys_ c1 c2 :
  paired s n p h lv lk → vslot s → (S (length lv) < HLIST_FUEL)%nat → vpage v ∉ (vview s lv).*1 →
  0 ≤ c1 < NUMBER_PHYSICAL_PAGES → 0 ≤ c2 < NUMBER_PHYSICAL_PAGES → c1 ≠ c2 →
  page_isfree (free_pages_bitmap s) c1 = true → page_isfree (free_pages_bitmap s) c2 = true →
  wp (us1_cl ← alloc_mem 1 PAF_CLEAR;
      if us1_cl =? NO_MEM then panic "tell_kernel_for_us1_us2: no mem" else
      us2_cl ← alloc_mem 1 PAF_CLEAR;
      if us2_cl =? NO_MEM then panic "tell_kernel_for_us1_us2: no mem" else
      vm_add_pmb n v phys_ (CLICK2ABS us1_cl) (CLICK2ABS us2_cl))
    (λ b s', ∃ m1 m2 m, (m1 ∉ h) ∧ (m2 ∉ h) ∧ kern s' = kern s <| phys := m |> ∧
      0 ≤ m1 < NUMBER_PHYSICAL_PAGES ∧ 0 ≤ m2 < NUMBER_PHYSICAL_PAGES ∧
      vm_list s' n (lv ++ [b]) ∧ vm_endpoint (vmprocs s' n) = vm_endpoint (vmprocs s n) ∧
      alloc_inv s' (h ∪ {[ m1 ]} ∪ {[ m2 ]}) ∧ m1 ≠ m2 ∧
      vp_us1 (vm_working_set s' b) = CLICK2ABS m1 ∧ vp_us2 (vm_working_set s' b) = CLICK2ABS m2 ∧
      vview s' (lv ++ [b]) = vview s lv ++ [(vpage v, (CLICK2ABS m1, CLICK2ABS m2))]) s.
Proof.
  intros Hpa Hvs Hlen Hnew Hc1 Hc2 Hne Hf1 Hf2. pose proof (pa_alloc _ _ _ _ _ _ Hpa) as Hi.
  apply wp_bind. eapply wp_mono; [by apply (alloc_one s h c1)|]. intros m1 s1 (Hm1 & Hr1 & Hn1 & Hi1 & Hfr1 & Hst1).
  rewrite (proj2 (Z.eqb_neq _ _)) by done.
  assert (∃ c, 0 ≤ c < NUMBER_PHYSICAL_PAGES ∧ page_isfree (free_pages_bitmap s1) c = true) as (c & Hc & Hf).
  { destruct (decide (m1 = c1)) as [->|]; [exists c2|exists c1]; split; try done;
      [destruct (Hst1 c2 Hc2 Hf2); [done|lia]|destruct (Hst1 c1 Hc1 Hf1); [done|lia]]. }
  apply wp_bind. eapply wp_mono; [by apply (alloc_one s1 (h ∪ {[ m1 ]}) c)|]. intros m2 s2 (Hm2 & Hr2 & Hn2 & Hi2 & Hfr2 & _).
  rewrite (proj2 (Z.eqb_neq _ _)) by done.
  assert (paired s2 n p (h ∪ {[ m1 ]} ∪ {[ m2 ]}) lv lk) as Hpa2.
  { eapply paired_reclaim; [exact Hpa|by etrans|done|set_solver]. }
  assert (vslot s2) as Hvs2.
  { unfold vslot, vm_pmb_free. rewrite (rf_ws _ _ Hfr2), (rf_ws _ _ Hfr1). exact Hvs. }
  eapply wp_mono; [apply (vm_add_pmb_spec s2 n lv); [apply Hpa2|done|done]|].
  intros b s3 (Hl3 & Hf3 & Hb & _ & Hu1 & Hu2 & Hv3).
  assert (reclaim_frame s s2) as [Hws _ Hp [m Hk]] by by etrans. destruct (Hp n) as [cy Ecy].
  destruct (vf_self _ _ _ Hf3) as (hd & cc & En).
  exists m1, m2, m. split; [done|]. split; [set_solver|]. split; [rewrite (vf_only _ _ _ Hf3); exact Hk|].
  split; [done|]. split; [done|]. split; [done|]. split; [by rewrite En, Ecy|].
  split; [by eapply alloc_inv_vm_frame|]. split; [set_solver|]. split; [done|]. split; [done|].
  rewrite Hv3. f_equal. unfold vview. by rewrite Hws.
Qed.

Lemma wp_kcall {A} (m : K A) (Q : A → vmstate → Prop) s :
  wp m (λ a k, Q a (s <| kern := k |>)) (kern s) → wp (kcall m) Q s.
Proof. unfold wp, kcall. by destruct (m (kern s)) as [[a k]|]. Qed.

Lemma frames_range c1 c2 : 0 ≤ c1 < NUMBER_PHYSICAL_PAGES → 0 ≤ c2 < NUMBER_PHYSICAL_PAGES →
  CLICK2ABS c1 = CLICK2ABS c2 → c1 = c2.
Proof. intros Hc1 Hc2. rewrite !click_abs by done. lia. Qed.

(** The kernel's answer to the report: its list has the page too. *)
Lemma report_kernel s n p h lk lv' v u1 u2 w :
  isokendpt (kern s) (vm_endpoint (vmprocs s n)) = Some p → has (p_hflags (hp (kern s) p)) PROC_TO_HARD = true →
  ws_list (kern s) p lk → ktab_ok (kern s) → kslot (kern s) → (S (length lk) < HLIST_FUEL)%nat →
  0 ≤ v < 2 ^ 32 → v mod 4096 = 0 → 0 ≤ u1 < 2 ^ 32 → 0 ≤ u2 < 2 ^ 32 →
  vm_list s n lv' → alloc_inv s h → kview (kern s) lk = w → vview s lv' = view_add (vpage v) (u1, u2) w →
  NoDup (view_frames (vview s lv')) → (∀ f, f ∈ view_frames (vview s lv') → ∃ c, f = CLICK2ABS c ∧ c ∈ h) →
  wp (kcall (sys_addregionto_ws (vm_endpoint (vmprocs s n)) v 1 u1 u2)) (λ r s', r = OK ∧ ∃ lk',
    paired s' n p h lv' lk' ∧ vview s' lv' = vview s lv' ∧
    ∃ b, b ∈ lk' ∧ vpage (vaddr (working_set (kern s') b)) = vpage v ∧
         us0 (working_set (kern s') b) = frame_of (kern s') p v ∧
         has (pmb_flags (working_set (kern s') b)) H_TO_UPDATE = true) s.
Proof.
  intros He Hh Hk Ht Hs Hlen Hv Hva Hu1 Hu2 Hvl Hi Hkw Hvw Hnd Hheld. apply wp_kcall.
  eapply wp_mono; [by apply (sys_addregionto_ws_spec (kern s) _ p lk)|].
  intros r k' (-> & lk' & Hl' & Ht' & Hf' & Hv' & _ & b & Hb & Hpg & Hus & Hup). split; [done|]. exists lk'.
  destruct (wf_self _ _ _ Hf') as (hd & c & Ep).
  split; [|split; [done|exists b; split; [done|split; [done|split; [|done]]]]].
  - split; cbn [kern vmprocs set]; try done.
    + by destruct Hvl; split.
    + by rewrite (isokendpt_ws_frame p (kern s)).
    + unfold hp. rewrite Ep. exact Hh.
    + rewrite Hv', Hkw, <-Hvw. done.
    + destruct Hi as [A1 A2 A3 A4 A5 A6 A7]. by split.
  - cbn [kern set]. rewrite Hus. unfold frame_of. rewrite Ep, (wf_only _ _ _ Hf'). done.
Qed.

(** What a report of page [v] leads to. *)
Definition page_reported (s : vmstate) (n p : Z) (h : gset Z) (lv : list Z) (v r : Z) (s' : vmstate) : Prop :=
  r = OK ∧ ∃ h' lv' lk' m1 m2,
    paired s' n p h' lv' lk' ∧ h ⊆ h' ∧ (m1 ∉ h) ∧ (m2 ∉ h) ∧
    vview s' lv' = view_add (vpage v) (CLICK2ABS m1, CLICK2ABS m2) (vview s lv) ∧
    ∃ b, b ∈ lk' ∧ vpage (vaddr (working_set (kern s') b)) = vpage v ∧
         us0 (working_set (kern s') b) = frame_of (kern s') p v ∧
         has (pmb_flags (working_set (kern s') b)) H_TO_UPDATE = true.

Lemma tell_known_page s n p h lv lk v phys_ b :
  paired s n p h lv lk → kslot (kern s) → (S (length lv) < HLIST_FUEL)%nat → 0 ≤ v < 2 ^ 32 → v mod 4096 = 0 →
  vm_look_up_pte s n (I386_VM_PDE v) (I386_VM_PTE v) = Some b →
  wp (tell_kernel_page n v phys_) (page_reported s n p h lv v) s.
Proof.
  intros Hpa Hks Hlen Hv Hva Hlook. pose proof (paired_length _ _ _ _ _ _ Hpa) as Hll.
  pose proof Hpa as [Hvm Hep Hh Hk Ht Hw Hi Hnd Hheld].
  unfold tell_kernel_page. apply wp_bind, wp_gets. rewrite Hlook. rewrite (vm_look_up_list s n lv) in Hlook by done.
  pose proof (vfind_view s lv (I386_VM_PDE v) (I386_VM_PTE v)) as Hfind. rewrite Hlook in Hfind. apply wp_bind.
  destruct Hfind as [Hb Hpg]. apply wp_bind, wp_modify, wp_ret. set (s1 := set vm_working_set _ s).
  assert (∀ c, vm_working_set s1 c = vm_working_set s c <| vp_us0 := vp_us0 (vm_working_set s1 c) |>) as Hws.
  { intros c. unfold s1. cbn [vm_working_set set]. rewrite upd_case. case_decide as E; [subst c; done|].
    by destruct (vm_working_set s c). }
  assert (vview s1 lv = vview s lv) as Hv1.
  { unfold vview. apply list_fmap_ext. intros i c _. by rewrite Hws. }
  assert (vm_list s1 n lv) as Hl1.
  { destruct Hvm. split; try done; [eapply chain_ext; [|exact vl_chain0]; intros c _; unfold vm_pmb_next; by rewrite Hws|].
    eapply Forall_impl; [exact vl_used0|]. intros c Hc. unfold vm_pmb_free. by rewrite Hws. }
  assert ((vpage v, (vp_us1 (vm_working_set s1 b), vp_us2 (vm_working_set s1 b))) ∈ vview s lv) as Hin.
  { rewrite <-Hv1. unfold vview. apply list_elem_of_fmap. exists b. split; [|done].
    assert (vp_vaddr (vm_working_set s1 b) = vp_vaddr (vm_working_set s b)) as -> by (by rewrite Hws). by rewrite Hpg. }
  assert (∀ f, f ∈ [vp_us1 (vm_working_set s1 b); vp_us2 (vm_working_set s1 b)] → 0 ≤ f < 2 ^ 32) as Hrng.
  { intros f Hf. destruct (Hheld f) as (c & -> & Hc).
    - unfold view_frames. apply list_elem_of_bind. eexists. split; [|exact Hin]. exact Hf.
    - apply (ai_held _ _ Hi) in Hc as [Hc _]. rewrite click_abs by done. unfold NUMBER_PHYSICAL_PAGES in Hc. lia. }
  assert (view_add (vpage v) (CLICK2ABS NO_MEM, CLICK2ABS NO_MEM) (vview s lv) = vview s lv) as Hadd.
  { unfold view_add. rewrite bool_decide_true; [done|]. apply list_elem_of_fmap. eexists. split; [|exact Hin]. done. }
  apply wp_bind, wp_gets, wp_bind, wp_gets.
  eapply wp_mono; [apply (report_kernel s1 n p h lk lv v _ _ (vview s lv)); try done|].
  - cbn [kern set]. lia.
  - apply Hrng. left.
  - apply Hrng. right. left.
  - by destruct Hi; split.
  - rewrite Hv1. unfold view_add. rewrite bool_decide_true; [done|]. apply list_elem_of_fmap. eexists. split; [|exact Hin]. done.
  - by rewrite Hv1.
  - by rewrite Hv1.
  - intros r s' (-> & lk' & Hp' & Hv' & Hblk). split; [done|].
    exists h, lv, lk', NO_MEM, NO_MEM. split; [done|]. split; [done|].
    assert (NO_MEM ∉ h) by (intros [Hx _]%(ai_held _ _ Hi); pose proof no_mem_no_page; lia).
    split; [done|]. split; [done|]. split; [by rewrite Hadd, Hv', Hv1|done].
Qed.

Lemma tell_new_page s n p h lv lk v phys_ c1 c2 :
  paired s n p h lv lk → vslot s → kslot (kern s) → (S (length lv) < HLIST_FUEL)%nat →
  0 ≤ v < 2 ^ 32 → v mod 4096 = 0 →
  0 ≤ c1 < NUMBER_PHYSICAL_PAGES → 0 ≤ c2 < NUMBER_PHYSICAL_PAGES → c1 ≠ c2 →
  page_isfree (free_pages_bitmap s) c1 = true → page_isfree (free_pages_bitmap s) c2 = true →
  vm_look_up_pte s n (I386_VM_PDE v) (I386_VM_PTE v) = None →
  wp (tell_kernel_page n v phys_) (page_reported s n p h lv v) s.
Proof.
  intros Hpa Hvs Hks Hlen Hv Hva Hc1 Hc2 Hne Hf1 Hf2 Hlook. pose proof (paired_length _ _ _ _ _ _ Hpa) as Hll.
  pose proof Hpa as [Hvm Hep Hh Hk Ht Hw Hi Hnd Hheld].
  unfold tell_kernel_page. apply wp_bind, wp_gets. rewrite Hlook. rewrite (vm_look_up_list s n lv) in Hlook by done.
  pose proof (vfind_view s lv (I386_VM_PDE v) (I386_VM_PTE v)) as Hfind. rewrite Hlook in Hfind. apply wp_bind.
  assert (vpage v ∉ (vview s lv).*1) as Hnew.
  { intros (e & E & He)%list_elem_of_fmap. by apply (Hfind e). }
  eapply wp_mono; [by apply (fresh_block s n p h lv lk v phys_ c1 c2)|].
  intros b s1 (m1 & m2 & m & Hm1 & Hm2 & Hk1 & Hr1 & Hr2 & Hl1 & He1 & Hi1 & Hmm & Hu1 & Hu2 & Hv1).
  apply wp_bind, wp_gets, wp_bind, wp_gets. rewrite Hu1, Hu2, He1.
  assert (∀ c, 0 ≤ c < NUMBER_PHYSICAL_PAGES → 0 ≤ CLICK2ABS c < 2 ^ 32) as Hrng.
  { intros c Hc. rewrite click_abs by done. unfold NUMBER_PHYSICAL_PAGES in Hc. lia. }
  assert (∀ c, 0 ≤ c < NUMBER_PHYSICAL_PAGES → (c ∉ h) → CLICK2ABS c ∉ view_frames (vview s lv)) as Hfresh.
  { intros c Hc Hch Hin. destruct (Hheld _ Hin) as (c' & E & Hc'). apply frames_range in E; [congruence|done|].
    by apply (ai_held _ _ Hi). }
  rewrite <-He1. eapply wp_mono; [apply (report_kernel s1 n p (h ∪ {[ m1 ]} ∪ {[ m2 ]}) lk (lv ++ [b]) v _ _ (vview s lv)); try done|].
  - by rewrite Hk1, He1.
  - by rewrite Hk1.
  - rewrite Hk1. by destruct Hk; split.
  - rewrite Hk1. by destruct Ht; split.
  - by rewrite Hk1.
  - lia.
  - by apply Hrng.
  - by apply Hrng.
  - by rewrite Hk1.
  - rewrite Hv1. unfold view_add. by rewrite bool_decide_false.
  - rewrite Hv1, view_frames_snoc. apply NoDup_app. split; [done|]. split.
    + intros f Hf [->|[->|[]%elem_of_nil]%elem_of_cons]%elem_of_cons; revert Hf; by apply Hfresh.
    + constructor; [|constructor; [apply not_elem_of_nil|constructor]].
      intros E%list_elem_of_singleton. apply Hmm. by apply frames_range.
  - intros f. rewrite Hv1, view_frames_snoc. intros [Hf|Hf]%elem_of_app.
    + destruct (Hheld f Hf) as (c & ? & ?). exists c. split; [done|set_solver].
    + apply elem_of_cons in Hf as [->|Hf]; [exists m1; split; [done|set_solver]|].
      apply elem_of_cons in Hf as [->|[]%elem_of_nil]. exists m2. split; [done|set_solver].
  - intros r s' (-> & lk' & Hp' & Hv' & Hblk). split; [done|].
    exists (h ∪ {[ m1 ]} ∪ {[ m2 ]}), (lv ++ [b]), lk', m1, m2. split; [done|]. split; [set_solver|].
    split; [done|]. split; [done|]. split; [|done]. rewrite Hv', Hv1. unfold view_add. by rewrite bool_decide_false.
Qed.

(** C14. VM and the kernel agree.  When VM reports a page of a hardened process
    ([tell_kernel_for_us1_us2], called when the page is mapped writable), the report succeeds and
    afterwards both working sets have the same pages with the same two frames: a page that was
    known keeps its frames, a new page gets two frames that are handed out to nobody, and no
    frame is used twice.  The kernel's block has the committed frame that the page table has
    and is marked for updating. *)
Theorem tell_kernel_keeps_pairing s n p h lv lk v phys_ c1 c2 :
  paired s n p h lv lk → vslot s → kslot (kern s) → (S (length lv) < HLIST_FUEL)%nat →
  0 ≤ v < 2 ^ 32 → v mod 4096 = 0 →
  0 ≤ c1 < NUMBER_PHYSICAL_PAGES → 0 ≤ c2 < NUMBER_PHYSICAL_PAGES → c1 ≠ c2 →
  page_isfree (free_pages_bitmap s) c1 = true → page_isfree (free_pages_bitmap s) c2 = true →
  wp (tell_kernel_for_us1_us2 n v phys_ VM_PAGE_SIZE) (page_reported s n p h lv v) s.
Proof.
  intros Hpa Hvs Hks Hlen Hv Hva Hc1 Hc2 Hne Hf1 Hf2.
  unfold tell_kernel_for_us1_us2. change (seqZ 0 (VM_PAGE_SIZE / VM_PAGE_SIZE)) with [0]. cbn [tell_kernel_pages].
  replace (v + 0 * VM_PAGE_SIZE) with v by lia. rewrite (u32_id v) by done. apply wp_bind.
  eapply (wp_mono _ (page_reported s n p h lv v)); [|by intros r s' [-> ?]].
  destruct (vm_look_up_pte s n (I386_VM_PDE v) (I386_VM_PTE v)) as [b|] eqn:Hlook.
  - by eapply tell_known_page.
  - by apply (tell_new_page s n p h lv lk v _ c1 c2).
Qed.
End report.

(** A hardened process with an empty working set, and some free memory. *)
Definition pair_k : kstate :=
  k0 <| working_set := λ _, pmb0 <| pmb_flags := HSLOT_FREE |> |>
     <| proctab ::= λ t, upd t 3 (t 3 <| p_rts_flags := 0 |> <| p_endpoint := 3 |>
                                   <| p_h ::= λ h, h <| p_hflags := PROC_TO_HARD |> |>) |>.
Definition pair_vs : vmstate := demo_vs1 <| kern := pair_k |>.
Lemma pair_demo : paired pair_vs 3 3 ∅ [] [].
Proof.
  split.
  - split; [vm_compute; reflexivity|vm_compute; reflexivity|unfold HLIST_FUEL, WORKING_SET_SIZE; cbn [length]; lia|constructor].
  - vm_compute. reflexivity.
  - vm_compute. reflexivity.
  - split; [vm_compute; reflexivity|vm_compute; reflexivity|unfold HLIST_FUEL, WORKING_SET_SIZE; cbn [length]; lia|constructor].
  - by split.
  - done.
  - destruct (alloc_reach_inv _ _ demo_reach1). by split.
  - constructor.
  - intros f []%elem_of_nil.
Qed.
Lemma pair_slots : vslot pair_vs ∧ kslot (kern pair_vs).
Proof. split; exists 0; (split; [by unfold WORKING_SET_SIZE|vm_compute; reflexivity]). Qed.
Lemma pair_free : page_isfree (free_pages_bitmap pair_vs) 1000 = true ∧ page_isfree (free_pages_bitmap pair_vs) 1001 = true.
Proof. split; vm_compute; reflexivity. Qed.
Lemma tell_kernel_keeps_pairing_witness :
  wp (tell_kernel_for_us1_us2 3 0x8000 (500 * 4096) VM_PAGE_SIZE) (page_reported pair_vs 3 3 ∅ [] 0x8000) pair_vs.
Proof.
  apply (tell_kernel_keeps_pairing pair_vs 3 3 ∅ [] [] 0x8000 (500 * 4096) 1000 1001 pair_demo (proj1 pair_slots) (proj2 pair_slots));
    [unfold HLIST_FUEL, WORKING_SET_SIZE; cbn [length]; lia|lia|done|done|done|done|exact (proj1 pair_free)|exact (proj2 pair_free)].
Defined.

(** ** Giving blocks back *)

Definition click_ok (f : Z) : Prop := 0 ≤ ABS2CLICK f < NUMBER_PHYSICAL_PAGES.
Definition clicks_of (w : list (Z * Z * (Z * Z))) : list Z := ABS2CLICK <$> view_frames w.
(** Exactly these pages have become free. *)
Definition freed_pages (cs : list Z) (s s' : vmstate) : Prop :=
  ∀ i, 0 ≤ i → page_isfree (free_pages_bitmap s') i = bool_decide (i ∈ cs) || page_isfree (free_pages_bitmap s) i.

Lemma freed_one c s s' : pages_to true c 1 (free_pages_bitmap s) (free_pages_bitmap s') → freed_pages [c] s s'.
Proof.
  intros Hp i Hi. rewrite Hp by done. rewrite in_range_1. destruct (Z.eqb_spec c i) as [->|Hne].
  - rewrite bool_decide_true; [done|left].
  - rewrite bool_decide_false; [done|]. intros ->%list_elem_of_singleton. done.
Qed.
Lemma freed_app cs cs' s1 s2 s3 : freed_pages cs s1 s2 → freed_pages cs' s2 s3 → freed_pages (cs ++ cs') s1 s3.
Proof.
  intros H1 H2 i Hi. rewrite H2, H1, orb_assoc by done. f_equal. apply eq_bool_prop_intro.
  rewrite orb_True, !bool_decide_spec. rewrite elem_of_app. tauto.
Qed.

(** What is not touched: the kernel, the other processes and the rest of this one. *)
Record free_frame (n : Z) (s s' : vmstate) : Prop := {
  ff_kern : kern s' = kern s;
  ff_lru : yielded_lru s' = yielded_lru s;
  ff_self : ∃ hd c, vmprocs s' n = vmprocs s n <| vm_lus1_us2 := hd |> <| vm_lus1_us2_size := c |>;
  ff_other q : q ≠ n → vmprocs s' q = vmprocs s q;
  ff_cache : cache_ok s → cache_ok s';
}.
#[export] Instance free_frame_preorder n : PreOrder (free_frame n).
Proof.
  split.
  - intros s. split; try done. exists (vm_lus1_us2 (vmprocs s n)), (vm_lus1_us2_size (vmprocs s n)). by destruct (vmprocs s n).
  - intros s1 s2 s3 [A1 A2 (h1 & c1 & A3) A4 A5] [B1 B2 (h2 & c2 & B3) B4 B5]. split; try congruence; eauto.
    + exists h2, c2. by rewrite B3, A3.
    + intros q Hq. by rewrite B4, A4.
Qed.

(** The first block of the list goes. *)
Lemma free_head s n b l :
  vm_list s n (b :: l) → click_ok (vp_us1 (vm_working_set s b)) → click_ok (vp_us2 (vm_working_set s b)) →
  wp (vm_free_pram_mem_block n (vp_vaddr (vm_working_set s b))) (λ _ s',
    vm_list s' n l ∧ vm_pmb_next s' b = vm_pmb_next s b ∧ free_frame n s s' ∧
    freed_pages [ABS2CLICK (vp_us1 (vm_working_set s b)); ABS2CLICK (vp_us2 (vm_working_set s b))] s s' ∧
    vm_pmb_free s' b = true ∧ ∀ c, c ≠ b → vm_working_set s' c = vm_working_set s c) s.
Proof.
  intros [Hc Hs Hl Hu] Hc1 Hc2. unfold vm_free_pram_mem_block. apply wp_bind, wp_assert.
  { rewrite Hs. apply Z.ltb_lt. cbn. lia. }
  pose proof (chain_NoDup _ _ _ Hc) as Hnd. apply NoDup_cons in Hnd as [Hbl _].
  destruct Hc as [Hhd Hc]. apply wp_bind, wp_gets. rewrite Hhd.
  assert (∃ fuel, HLIST_FUEL = S fuel) as [fuel ->] by (exists (Nat.pred HLIST_FUEL); lia). cbn [vm_free_pmb_loop].
  apply wp_bind, wp_gets. unfold vm_same_page at 1. rewrite !Z.eqb_refl. cbn [andb].
  apply wp_bind, wp_gets, wp_bind. destruct Hc1 as [Hc1 Hc1'], Hc2 as [Hc2 Hc2'].
  eapply wp_mono; [apply free_mem_spec; lia|]. intros [] s1 ([Hf1 Hca1] & Hk1 & Hp1). apply wp_bind.
  eapply wp_mono; [apply free_mem_spec; lia|]. intros [] s2 ([Hf2 Hca2] & Hk2 & Hp2).
  unfold modify_vpmb, modify_vmproc, vm_pmb_next. wp_steps. cbn [vm_working_set vmprocs set]. rewrite !upd_eq.
  assert (vm_working_set s2 = vm_working_set s) as Hws by (rewrite (af_ws _ _ Hf2); apply Hf1).
  assert (vmprocs s2 = vmprocs s) as Hpr by (rewrite (af_procs _ _ Hf2); apply Hf1).
  rewrite Hws. cbn [vp_next set vm_pmb_freed].
  split; [|split; [done|split; [|split; [|split]]]].
  - split; cbn [vmprocs vm_working_set set]; rewrite ?upd_eq; cbn [vm_lus1_us2 vm_lus1_us2_size set].
    + eapply chain_ext; [|exact Hc]. intros c Hcl. unfold vm_pmb_next. cbn [vm_working_set set].
      rewrite upd_ne by (by intros ->). by rewrite Hws.
    + rewrite Hpr, Hs. cbn. lia.
    + cbn in Hl. lia.
    + apply Forall_cons in Hu as [_ Hu]. rewrite Forall_forall in Hu |- *. intros c Hcl. unfold vm_pmb_free. cbn [vm_working_set set].
      rewrite upd_ne by (by intros ->). rewrite Hws. by apply Hu.
  - split; cbn [kern yielded_lru vmprocs set].
    + congruence.
    + rewrite (af_lru _ _ Hf2). apply Hf1.
    + rewrite !upd_eq, Hpr. eexists _, _. reflexivity.
    + intros q Hq. by rewrite !upd_ne, Hpr.
    + intros Hx. exact (Hca2 (Hca1 Hx)).
  - apply (freed_app [_] [_] _ s1); [by apply freed_one|]. exact (freed_one _ s1 s2 Hp2).
  - unfold vm_pmb_free. cbn [vm_working_set set]. by rewrite upd_eq.
  - intros c Hcb. cbn [vm_working_set set]. by rewrite upd_ne by done.
Qed.

(** The loop over the list ends and gives every frame back. *)
Lemma free_blocks_spec n l : ∀ s fuel,
  vm_list s n l → (∀ f, f ∈ view_frames (vview s l) → click_ok f) → (length l ≤ fuel)%nat →
  wp (vm_walk fuel (vm_lus1_us2 (vmprocs s n))
        (λ b, va ← gets (λ s, vp_vaddr (vm_working_set s b)); vm_free_pram_mem_block n va)) (λ _ s',
    vm_list s' n [] ∧ free_frame n s s' ∧ freed_pages (clicks_of (vview s l)) s s' ∧
    (∀ b, b ∈ l → vm_pmb_free s' b = true) ∧ ∀ b, b ∉ l → vm_working_set s' b = vm_working_set s b) s.
Proof.
  induction l as [|b l IH]; intros s fuel Hl Hok Hfu.
  { pose proof (vl_chain _ _ _ Hl) as Hc. cbn [chain] in Hc. rewrite Hc.
    assert (∀ m, wp (vm_walk m None (λ b, va ← gets (λ s, vp_vaddr (vm_working_set s b)); vm_free_pram_mem_block n va))
      (λ _ s', vm_list s' n [] ∧ free_frame n s s' ∧ freed_pages (clicks_of (vview s [])) s s' ∧
        (∀ b, b ∈ [] → vm_pmb_free s' b = true) ∧ ∀ b, b ∉ [] → vm_working_set s' b = vm_working_set s b) s) as Hend.
    { intros m. destruct m; apply wp_ret; (split; [done|]; split; [reflexivity|]; split; [|split; [|done]]);
        [intros i Hi; done|by intros b ?%elem_of_nil|intros i Hi; done|by intros b ?%elem_of_nil]. }
    apply Hend. }
  destruct fuel as [|fuel]; [cbn in Hfu; lia|]. pose proof (vl_chain _ _ _ Hl) as [Hhd Hc].
  pose proof (chain_NoDup _ _ _ (vl_chain _ _ _ Hl)) as [Hbl _]%NoDup_cons. rewrite Hhd. cbn [vm_walk].
  assert (∀ f, f ∈ [vp_us1 (vm_working_set s b); vp_us2 (vm_working_set s b)] → click_ok f) as Hb.
  { intros f Hf. apply Hok. unfold view_frames, vview. cbn. rewrite !elem_of_cons in *. set_solver. }
  apply wp_bind, wp_bind, wp_gets. eapply wp_mono; [apply (free_head s n b l Hl); apply Hb; [left|right; left]|].
  intros [] s1 (Hl1 & Hn1 & Hf1 & Hp1 & Hfr1 & Ho1). apply wp_bind, wp_gets. rewrite Hn1.
  assert (vm_pmb_next s b = vm_lus1_us2 (vmprocs s1 n)) as ->.
  { rewrite (chain_head _ _ _ (vl_chain _ _ _ Hl1)). exact (chain_head _ _ _ Hc). }
  assert (vview s1 l = vview s l) as Hv.
  { unfold vview. apply list_fmap_ext. intros i c Hic. rewrite Ho1; [done|].
    intros ->. apply Hbl. by eapply list_elem_of_lookup_2. }
  eapply wp_mono; [apply (IH s1 fuel Hl1)|].
  - rewrite Hv. intros f Hf. apply Hok. unfold view_frames, vview in *. cbn. by do 2 right.
  - cbn in Hfu. lia.
  - intros _ s2 (Hl2 & Hf2 & Hp2 & Hfr2 & Ho2). rewrite Hv in Hp2. split; [done|]. split; [by etrans|]. split; [|split].
    + exact (freed_app _ _ s s1 s2 Hp1 Hp2).
    + intros c [->|Hcl]%elem_of_cons; [|by apply Hfr2]. unfold vm_pmb_free. rewrite Ho2 by done. exact Hfr1.
    + intros c Hcl. apply not_elem_of_cons in Hcl as [Hcb Hcl]. rewrite Ho2 by done. by apply Ho1.
Qed.

Lemma vm_free_blocks_spec n l s :
  vm_list s n l → (∀ f, f ∈ view_frames (vview s l) → click_ok f) →
  wp (vm_free_pram_mem_blocks n) (λ _ s',
    vm_list s' n [] ∧ free_frame n s s' ∧ freed_pages (clicks_of (vview s l)) s s' ∧
    (∀ b, b ∈ l → vm_pmb_free s' b = true) ∧ ∀ b, b ∉ l → vm_working_set s' b = vm_working_set s b) s.
Proof.
  intros Hl Hok. unfold vm_free_pram_mem_blocks. apply wp_bind, wp_gets. rewrite (vl_size _ _ _ Hl).
  destruct (Z.leb_spec (Z.of_nat (length l)) 0) as [Hz|Hz].
  { destruct l; [|cbn in Hz; lia]. apply wp_ret. split; [done|]. split; [reflexivity|]. split; [by intros i|].
    split; [by intros b ?%elem_of_nil|done]. }
  apply wp_bind, wp_gets, wp_bind. eapply wp_mono; [apply (free_blocks_spec n l); [done|done|]|].
  { pose proof (vl_len _ _ _ Hl). lia. }
  intros [] s' (Hl' & Hrest). pose proof Hl' as [Hc' Hs' _ _]. cbn [chain] in Hc'.
  apply wp_bind, wp_assert; [by rewrite Hs'|]. apply wp_assert; [by rewrite Hc', bool_decide_true|]. by split.
Qed.

Lemma abs_click c : 0 ≤ c < NUMBER_PHYSICAL_PAGES → ABS2CLICK (CLICK2ABS c) = c.
Proof.
  intros Hc. rewrite click_abs by done. unfold ABS2CLICK, CLICK_SHIFT. rewrite Z.shiftr_div_pow2 by lia.
  change (2 ^ 12) with 4096. rewrite Z.mul_comm. apply Z.div_mul. lia.
Qed.

(** C19. Exit gives the frames of the working set back.  When VM clears the slot of a process whose
    working set is paired with the kernel's, no assertion fails, the list is empty and its
    blocks can be used again, exactly the frames [us1] and [us2] of its pages have become
    free, and the allocator's invariant holds for the pages that the others still have. *)
Theorem clear_proc_releases s n p h lv lk :
  paired s n p h lv lk → vm_yielded (vmprocs s n) = 0 →
  wp (clear_proc n) (λ _ s',
    vm_lus1_us2 (vmprocs s' n) = None ∧ vm_lus1_us2_size (vmprocs s' n) = 0 ∧
    has (vm_flags (vmprocs s' n)) VMF_INUSE = false ∧
    (∀ b, b ∈ lv → vm_pmb_free s' b = true) ∧
    freed_pages (clicks_of (vview s lv)) s s' ∧
    (∀ q, q ≠ n → vmprocs s' q = vmprocs s q) ∧ kern s' = kern s ∧
    ((∀ y, y ∈ yielded_lru s → y_owner y ≠ vm_endpoint (vmprocs s n)) →
     alloc_inv s' (h ∖ list_to_set (clicks_of (vview s lv))))) s.
Proof.
  intros [Hvm Hep Hh Hk Ht Hw Hi Hnd Hheld] Hy. unfold clear_proc, modify_vmproc. apply wp_bind.
  eapply wp_mono; [apply (vm_free_blocks_spec n lv s Hvm)|].
  { intros f Hf. destruct (Hheld f Hf) as (c & -> & Hc). destruct (ai_held _ _ Hi c Hc) as [Hr _].
    unfold click_ok. by rewrite abs_click. }
  intros [] s1 (Hl1 & [Fk Fy (hd & c & Fn) Fo Fc] & Hp1 & Hb1 & Ho1). apply wp_modify. cbn [vmprocs kern set].
  rewrite upd_eq. cbn [vm_lus1_us2 vm_lus1_us2_size vm_flags set].
  pose proof Hl1 as [Hc1 Hs1 _ _]. cbn [chain] in Hc1.
  split; [done|]. split; [by rewrite Hs1|]. split; [done|]. split; [done|]. split; [exact Hp1|].
  split; [intros q Hq; by rewrite upd_ne, Fo|]. split; [done|].
  intros Hown. assert (∀ i, i ∈ clicks_of (vview s lv) → i ∈ h) as Hsub.
  { intros i (f & -> & Hf)%list_elem_of_fmap. destruct (Hheld f Hf) as (c' & -> & Hc').
    rewrite abs_click; [done|]. by apply (ai_held _ _ Hi). }
  destruct Hi as [A1 A2 A3 A4 A5 A6 A7].
  split; cbn [free_pages_bitmap free_page_cache yielded_lru vmprocs set]; rewrite ?Fy; try done.
  - by apply Fc.
  - intros i [Hih Hno]%elem_of_difference. destruct (A2 i Hih) as [Hr Hfr]. split; [done|].
    rewrite Hp1, Hfr, bool_decide_false by (lia || set_solver). done.
  - intros i Hiy. destruct (A3 i Hiy) as (Hr & Hfr & Hih). split; [done|]. split; [|set_solver].
    rewrite Hp1, Hfr, bool_decide_false by (lia || set_solver). done.
  - rewrite Forall_forall in A5 |- *. intros y Hyl. destruct (A5 y Hyl) as [? Hok]. split; [done|].
    rewrite <-Hok. unfold vm_isokendpt. cbn [vmprocs set]. destruct (decide (ENDPOINT_P (y_owner y) = n)) as [E|E].
    + exfalso. apply (Hown y Hyl). unfold vm_isokendpt in Hok. rewrite E in Hok. cbn [fst] in Hok.
      destruct (_ || _); [done|]. destruct (Z.eqb_spec (y_owner y) (vm_endpoint (vmprocs s n))); [done|done].
    + by rewrite upd_ne, Fo.
  - intros q. rewrite upd_case. case_decide as E; [subst q|by rewrite Fo, A7].
    cbn [vm_yielded set]. by rewrite <-A7, Hy.
Qed.

(** The same process after it has got a page. *)
Definition pair_vs1 : vmstate := run_out (tell_kernel_page 3 0x8000 (500 * 4096)) pair_vs.
Lemma pair_demo1 : ∃ h lv lk, paired pair_vs1 3 3 h lv lk ∧ (length lv = 1)%nat.
Proof.
  pose proof (tell_new_page pair_vs 3 3 ∅ [] [] 0x8000 (500 * 4096) 1000 1001 pair_demo (proj1 pair_slots) (proj2 pair_slots)
    ltac:(unfold HLIST_FUEL, WORKING_SET_SIZE; cbn [length]; lia) ltac:(lia) ltac:(done) ltac:(done) ltac:(done)
    ltac:(done) (proj1 pair_free) (proj2 pair_free) ltac:(vm_compute; reflexivity)) as (r & s' & Hrun & Hp)%wp_inv.
  assert (s' = pair_vs1) as -> by (unfold pair_vs1, run_out; by rewrite Hrun).
  destruct Hp as (_ & h' & lv' & lk' & m1 & m2 & Hpa & _ & _ & _ & Hv & _). exists h', lv', lk'. split; [done|].
  apply (f_equal length) in Hv. unfold vview in Hv. rewrite length_fmap in Hv. rewrite Hv.
  unfold view_add. cbn [fmap list_fmap]. rewrite bool_decide_false by apply not_elem_of_nil. done.
Qed.
Lemma clear_proc_releases_witness :
  ∃ h lv, (length lv = 1)%nat ∧ wp (clear_proc 3) (λ _ s',
    vm_lus1_us2 (vmprocs s' 3) = None ∧ vm_lus1_us2_size (vmprocs s' 3) = 0 ∧
    has (vm_flags (vmprocs s' 3)) VMF_INUSE = false ∧
    (∀ b, b ∈ lv → vm_pmb_free s' b = true) ∧
    freed_pages (clicks_of (vview pair_vs1 lv)) pair_vs1 s' ∧
    (∀ q, q ≠ 3 → vmprocs s' q = vmprocs pair_vs1 q) ∧ kern s' = kern pair_vs1 ∧
    ((∀ y, y ∈ yielded_lru pair_vs1 → y_owner y ≠ vm_endpoint (vmprocs pair_vs1 3)) →
     alloc_inv s' (h ∖ list_to_set (clicks_of (vview pair_vs1 lv))))) pair_vs1.
Proof.
  destruct pair_demo1 as (h & lv & lk & Hpa & Hlen). exists h, lv. split; [exact Hlen|].
  apply (clear_proc_releases pair_vs1 3 3 h lv lk Hpa). vm_compute. reflexivity.
Defined.

(** ** A block with one frame *)

Lemma map_none_click : ABS2CLICK MAP_NONE = NUMBER_PHYSICAL_PAGES - 1.
Proof. done. Qed.

(** A flaw.  After a page fault in the first run a block has a frame for the first run only;
    the other is [MAP_NONE] until the second run faults as well.  If the process exits in
    between, [free_pram_mem_block] frees both "frames": [ABS2CLICK MAP_NONE] is the last page
    of the 32-bit address space, which becomes free although it was never handed out and no
    memory need be there. *)
Theorem half_block_frees_phantom_page s n l b :
  vm_list s n l → (∀ f, f ∈ view_frames (vview s l) → click_ok f) →
  b ∈ l → vp_us2 (vm_working_set s b) = MAP_NONE →
  wp (clear_proc n) (λ _ s', page_isfree (free_pages_bitmap s') (NUMBER_PHYSICAL_PAGES - 1) = true) s.
Proof.
  intros Hl Hok Hb Hu. unfold clear_proc, modify_vmproc. apply wp_bind.
  eapply wp_mono; [by apply (vm_free_blocks_spec n l)|]. intros [] s1 (_ & _ & Hp & _). apply wp_modify.
  cbn [free_pages_bitmap set]. rewrite Hp by done. rewrite bool_decide_true; [done|].
  apply list_elem_of_fmap. exists MAP_NONE. split; [by rewrite map_none_click|].
  unfold view_frames. apply list_elem_of_bind.
  exists (vpage (vp_vaddr (vm_working_set s b)), (vp_us1 (vm_working_set s b), vp_us2 (vm_working_set s b))).
  split; [rewrite Hu; right; left|]. unfold vview. apply list_elem_of_fmap. by exists b.
Qed.

(** The kernel has seen a page fault of the process at 0x8000 and asks for a frame. *)
Definition fault_k : kstate :=
  pair_k <| working_set ::= λ t, upd t 0 (t 0 <| pmb_flags := PRAM_LAST_PF |> <| vaddr := 0x8000 |>) |>
         <| proctab ::= λ t, upd t 3 (t 3 <| p_h ::= λ h, h <| p_lus1_us2 := Some 0 |> <| p_lus1_us2_size := 1 |> |>) |>.
Definition fault_region : vir_region := mk_vir_region 0x8000 4096 VR_WRITABLE (λ _, Some (500 * 4096)).
Definition fault_run : V unit := allocate_mem_4_hardening 3 fault_region 0x8000 (500 * 4096) VM_FIRST_RUN.
Definition fault_vs : vmstate := run_out fault_run (pair_vs <| kern := fault_k |>).
Lemma fault_done : fault_run (pair_vs <| kern := fault_k |>) = Ret ((), fault_vs).
Proof. unfold fault_vs. apply run_out_eq. vm_compute. reflexivity. Qed.
Lemma fault_list : vm_list fault_vs 3 [0].
Proof.
  split; [vm_compute; done|vm_compute; reflexivity|unfold HLIST_FUEL, WORKING_SET_SIZE; cbn [length]; lia|].
  repeat constructor; vm_compute; reflexivity.
Qed.
Lemma fault_view : vview fault_vs [0] = [((0, 8), (79 * 4096, MAP_NONE))].
Proof. vm_compute. reflexivity. Qed.
Lemma half_block_frees_phantom_page_witness :
  fault_run (pair_vs <| kern := fault_k |>) = Ret ((), fault_vs) ∧
  wp (clear_proc 3) (λ _ s', page_isfree (free_pages_bitmap s') (NUMBER_PHYSICAL_PAGES - 1) = true) fault_vs.
Proof.
  split; [exact fault_done|].
  apply (half_block_frees_phantom_page fault_vs 3 [0] 0 fault_list).
  - rewrite fault_view. intros f Hf. cbn in Hf. rewrite !elem_of_cons in Hf.
    destruct Hf as [->|[->|Hf]]; [by split|by split|by apply elem_of_nil in Hf].
  - left.
  - vm_compute. reflexivity.
Defined.

(** The allocator then gives the page away. *)
Lemma phantom_page_handed_out :
  match (clear_proc 3;; alloc_mem 1 0) fault_vs with
  | Ret (mem, _) => mem = NUMBER_PHYSICAL_PAGES - 1
  | Panic _ => False
  end.
Proof. vm_compute. reflexivity. Qed.

(** ** Fork *)

(** Code that leaves the working sets alone. *)
Record keeps_blocks (s s' : vmstate) : Prop := {
  kb_ws : vm_working_set s' = vm_working_set s;
  kb_hard : hardening_enabled s' = hardening_enabled s;
  kb_list q : vm_lus1_us2 (vmprocs s' q) = vm_lus1_us2 (vmprocs s q) ∧
              vm_lus1_us2_size (vmprocs s' q) = vm_lus1_us2_size (vmprocs s q);
}.
Definition leaves_blocks {A} (m : V A) (r : A → Prop) : Prop :=
  ∀ s, wp m (λ a s', r a ∧ keeps_blocks s s') s.

Section fork.
Context (copy_space sys_fork : Z → Z → V Z) (pt_bind handle_messages : Z → Z → V unit).
Context (Hcopy : ∀ a b, leaves_blocks (copy_space a b) (λ r, r = OK)).
Context (Hfork : ∀ a b, leaves_blocks (sys_fork a b) (λ _, True)).
Context (Hbind : ∀ a b, leaves_blocks (pt_bind a b) (λ _, True)).
Context (Hmsg : ∀ a b, leaves_blocks (handle_messages a b) (λ _, True)).

(** With hardening for single processes only, parent and child have one list. *)
Lemma vm_do_fork_same_list s ep child :
  (vm_isokendpt s ep).1 = OK → 0 ≤ child < NR_PROCS → child ≠ ENDPOINT_P ep → vm_slot (vmprocs s child) = child →
  hardening_enabled s = 0 →
  wp (vm_do_fork copy_space sys_fork pt_bind handle_messages ep child) (λ r s', r.1 = OK ∧
    vm_working_set s' = vm_working_set s ∧
    ∀ q, q = child ∨ q = ENDPOINT_P ep →
      vm_lus1_us2 (vmprocs s' q) = vm_lus1_us2 (vmprocs s (ENDPOINT_P ep)) ∧
      vm_lus1_us2_size (vmprocs s' q) = vm_lus1_us2_size (vmprocs s (ENDPOINT_P ep))) s.
Proof using Hcopy Hfork Hbind Hmsg.
  intros Hep Hch Hne Hslot Hh. unfold vm_do_fork, modify_vmproc. apply wp_bind, wp_gets. rewrite Hep. cbn [negb Z.eqb OK].
  rewrite vm_isokendpt_slot. set (par := ENDPOINT_P ep) in *.
  replace ((child <? 0) || (NR_PROCS <=? child)) with false
    by (symmetry; apply orb_false_iff; split; [apply Z.ltb_ge|apply Z.leb_gt]; lia).
  apply wp_bind, wp_assert; [by apply Z.eqb_eq|]. apply wp_bind, wp_gets, wp_bind, wp_modify.
  set (s1 := set vmprocs _ s).
  assert (∀ q, q = child ∨ q = par → vm_lus1_us2 (vmprocs s1 q) = vm_lus1_us2 (vmprocs s par) ∧
    vm_lus1_us2_size (vmprocs s1 q) = vm_lus1_us2_size (vmprocs s par)) as H1.
  { unfold s1. cbn [vmprocs set]. intros q [->| ->]; [by rewrite upd_eq|by rewrite upd_ne]. }
  apply wp_bind. eapply wp_mono; [apply Hcopy|]. intros r s2 [-> [W2 D2 L2]]. cbn [negb Z.eqb OK].
  apply wp_bind, wp_modify, wp_bind. eapply wp_mono; [apply Hfork|]. intros e s3 [_ [W3 D3 L3]].
  apply wp_bind, wp_modify, wp_bind. eapply wp_mono; [apply Hbind|]. intros [] s4 [_ [W4 D4 L4]].
  apply wp_bind, wp_gets. cbn [hardening_enabled set] in D3, D4. rewrite D4, D3, D2. change (hardening_enabled s1) with (hardening_enabled s).
  rewrite Hh. cbn [Z.eqb negb]. apply wp_bind, wp_ret, wp_bind. eapply wp_mono; [apply Hmsg|].
  intros [] s5 [_ [W5 D5 L5]]. apply wp_ret. split; [done|]. split; [rewrite W5, W4; cbn [vm_working_set set]; rewrite W3; exact W2|].
  intros q Hq. destruct (L5 q) as [-> ->], (L4 q) as [-> ->]. rewrite <-(proj1 (H1 q Hq)), <-(proj2 (H1 q Hq)).
  destruct (L2 q) as [<- <-]. cbn [vmprocs set]. rewrite !upd_case. cbn [vmprocs set] in L3.
  destruct (L3 q) as [E3 F3]. rewrite upd_case in E3, F3. case_decide as E; [subst q|by rewrite E3, F3].
  cbn [vm_lus1_us2 vm_lus1_us2_size set] in *. by rewrite E3, F3.
Qed.

(** When hardening is on for single processes only ([hardening_enabled] is 0), VM's
    fork copies the parent's slot and leaves the list of blocks in the child.  When the child
    exits, all frames of the parent's working set become free and its blocks are marked free,
    while the parent, whose list still points to them, goes on using them. *)
Theorem fork_exit_frees_parents_frames s ep child l :
  (vm_isokendpt s ep).1 = OK → 0 ≤ child < NR_PROCS → child ≠ ENDPOINT_P ep → vm_slot (vmprocs s child) = child →
  hardening_enabled s = 0 → vm_list s (ENDPOINT_P ep) l → (∀ f, f ∈ view_frames (vview s l) → click_ok f) →
  wp (vm_do_fork copy_space sys_fork pt_bind handle_messages ep child;; clear_proc child) (λ _ s',
    vm_lus1_us2 (vmprocs s' (ENDPOINT_P ep)) = vm_lus1_us2 (vmprocs s (ENDPOINT_P ep)) ∧
    vm_lus1_us2_size (vmprocs s' (ENDPOINT_P ep)) = Z.of_nat (length l) ∧
    (∀ b, b ∈ l → vm_pmb_free s' b = true) ∧
    ∀ f, f ∈ view_frames (vview s l) → page_isfree (free_pages_bitmap s') (ABS2CLICK f) = true) s.
Proof using Hcopy Hfork Hbind Hmsg.
  intros Hep Hch Hne Hslot Hh Hl Hok. apply wp_bind. eapply wp_mono; [by apply vm_do_fork_same_list|].
  intros r s1 (_ & Hws & Hq). assert (∀ l, vview s1 l = vview s l) as Hv by (intros; unfold vview; by rewrite Hws).
  assert (∀ q, q = child ∨ q = ENDPOINT_P ep → vm_list s1 q l) as Hl1.
  { intros q Hqq. destruct (Hq q Hqq) as [E F]. destruct Hl as [A B C D]. split; rewrite ?E, ?F; try done.
    - unfold vm_pmb_next. by rewrite Hws.
    - unfold vm_pmb_free. by rewrite Hws. }
  unfold clear_proc, modify_vmproc. apply wp_bind. eapply wp_mono; [apply (vm_free_blocks_spec child l)|].
  - apply Hl1. by left.
  - by rewrite Hv.
  - intros [] s2 (_ & [_ _ _ Fo _] & Hp & Hb & _). apply wp_modify. cbn [vmprocs free_pages_bitmap set].
    rewrite upd_ne, Fo by (by intros <-). destruct (Hq (ENDPOINT_P ep)) as [E F]; [by right|].
    split; [done|]. split; [rewrite F; apply Hl|]. split; [exact Hb|]. intros f Hf. rewrite Hv in Hp.
    destruct (Hok f Hf). rewrite Hp by done. rewrite bool_decide_true; [done|]. by apply list_elem_of_fmap_2.
Qed.
End fork.

Lemma fork_exit_frees_parents_frames_witness :
  wp (vm_do_fork (λ _ _, mret OK) (λ _ _, mret 5) (λ _ _, mret ()) (λ _ _, mret ()) 3 5;; clear_proc 5) (λ _ s',
    vm_lus1_us2 (vmprocs s' 3) = vm_lus1_us2 (vmprocs fault_vs 3) ∧
    vm_lus1_us2_size (vmprocs s' 3) = 1 ∧
    (∀ b, b ∈ [0] → vm_pmb_free s' b = true) ∧
    ∀ f, f ∈ view_frames (vview fault_vs [0]) → page_isfree (free_pages_bitmap s') (ABS2CLICK f) = true) fault_vs.
Proof.
  assert (∀ A (a : A) (r : A → Prop), r a → leaves_blocks (mret a) r) as Hret.
  { intros A a r Hr s. apply wp_ret. split; [exact Hr|]. split; [reflexivity|reflexivity|]. intros q. split; reflexivity. }
  apply (fork_exit_frees_parents_frames (λ _ _, mret OK) (λ _ _, mret 5) (λ _ _, mret ()) (λ _ _, mret ())
    ltac:(intros; apply Hret; reflexivity) ltac:(intros; apply Hret; exact I) ltac:(intros; apply Hret; exact I)
    ltac:(intros; apply Hret; exact I) fault_vs 3 5 [0]).
  - vm_compute. reflexivity.
  - done.
  - done.
  - vm_compute. reflexivity.
  - vm_compute. reflexivity.
  - exact fault_list.
  - rewrite fault_view. intros f Hf. cbn in Hf. rewrite !elem_of_cons in Hf.
    destruct Hf as [->|[->|Hf]]; [by split|by split|by apply elem_of_nil in Hf].
Defined.
