(* ===== verification/SchedSrv.v ===== *)
(** * The scheduling server (servers/sched: schedule.c, utility.c, main.c)

    SCHED decides on priorities and time slices of user processes and tells the kernel with the
    calls do_schedctl and do_schedule.  [sstate] holds the table of SCHED, its timer and, in
    [skern], the kernel; configuration without SMP, one CPU.  SCHED has a single timer, so
    the timer list of lib/libsys/timers.c is the time at which it expires. *)
From S2P Require Import Prelude Kernel Endpoint Sched Signals VmServer.

Definition RS_PROC_NR : Z := 2.
Definition SCHED_PROC_NR : Z := 10.
Definition SCHEDULING_BASE : Z := 0xF00.
Definition SCHEDULING_NO_QUANTUM : Z := SCHEDULING_BASE + 1.
Definition SCHEDULING_START : Z := SCHEDULING_BASE + 2.
Definition SCHEDULING_STOP : Z := SCHEDULING_BASE + 3.
Definition SCHEDULING_SET_NICE : Z := SCHEDULING_BASE + 4.
Definition SCHEDULING_INHERIT : Z := SCHEDULING_BASE + 5.
Definition SCHEDULE_CHANGE_PRIO : Z := 0x1.
Definition SCHEDULE_CHANGE_QUANTUM : Z := 0x2.
Definition SCHEDULE_CHANGE_CPU : Z := 0x4.
Definition SCHEDULE_CHANGE_ALL : Z := Z.lor (Z.lor SCHEDULE_CHANGE_PRIO SCHEDULE_CHANGE_QUANTUM) SCHEDULE_CHANGE_CPU.
Definition CPU_DEAD : Z := -1.
Definition DEFAULT_USER_TIME_SLICE : Z := 200.
Definition BALANCE_TIMEOUT : Z := 5.
Definition MIN_USER_Q : Z := NR_SCHED_QUEUES - 1.
Definition MAX_USER_Q : Z := 0.
Definition USER_Q : Z := (MIN_USER_Q - MAX_USER_Q) / 2 + MAX_USER_Q.
Definition IN_USE : Z := 0x00001.
Definition ENOSYS : Z := -38.
Definition EBADCPU : Z := -303.
Definition SUSPEND : Z := -998.

Record schedproc := mk_schedproc {
  sp_endpoint : Z;
  sp_parent : Z;
  sp_flags : Z;
  sp_max_priority : Z;
  sp_priority : Z;
  sp_time_slice : Z;
  sp_cpu : Z;
}.
#[export] Instance settable_schedproc : Settable schedproc := λ r,
  mk_schedproc (sp_endpoint r) (sp_parent r) (sp_flags r) (sp_max_priority r) (sp_priority r) (sp_time_slice r) (sp_cpu r).

Record sstate := mk_sstate {
  schedprocs : Z → schedproc;
  cpu_proc : Z → Z;
  sched_timer : option Z;
  balance_timeout : Z;
  skern : kstate;
}.
#[export] Instance settable_sstate : Settable sstate := λ r,
  mk_sstate (schedprocs r) (cpu_proc r) (sched_timer r) (balance_timeout r) (skern r).

Definition SS (A : Type) : Type := M sstate A.
Definition modify_sp (n : Z) (f : schedproc → schedproc) : SS unit :=
  modify (λ s, s <| schedprocs ::= λ t, upd t n (f (t n)) |>).
Definition skcall {A} (m : K A) : SS A := λ s,
  match m (skern s) with
  | Ret (a, k) => Ret (a, s <| skern := k |>)
  | Panic e => Panic e
  end.

(** A request: the fields of the message that SCHED reads. *)
Record srequest := mk_srequest {
  sr_source : Z;
  sr_type : Z;
  sr_endpoint : Z;
  sr_parent : Z;
  sr_maxprio : Z;
  sr_quantum : Z;
}.

(** ** The kernel calls (lib/libsys) *)

Definition sys_schedule (proc_ep priority quantum cpu : Z) : SS Z :=
  r ← skcall (do_schedule SCHED_PROC_NR (mk_message SCHED_PROC_NR 0 [proc_ep; quantum; 0; cpu; 0; priority; 0]));
  mret r.1.
Definition sys_schedctl (flags proc_ep priority quantum cpu : Z) : SS Z :=
  r ← skcall (do_schedctl SCHED_PROC_NR
        (mk_message SCHED_PROC_NR 0 [flags; proc_ep; quantum; 0; cpu; 0; Z.shiftl priority 16]));
  mret r.1.

(** ** utility.c *)

Definition no_sys : Z := ENOSYS.

Definition sched_isokendpt (s : sstate) (e : Z) : Z * Z :=
  let p := ENDPOINT_P e in
  (if p <? 0 then EBADEPT
   else if NR_PROCS <=? p then EINVAL
   else if negb (e =? sp_endpoint (schedprocs s p)) then EDEADEPT
   else if negb (has (sp_flags (schedprocs s p)) IN_USE) then EDEADEPT
   else OK, p).

Definition sched_isemtyendpt (s : sstate) (e : Z) : Z * Z :=
  let p := ENDPOINT_P e in
  (if p <? 0 then EBADEPT
   else if NR_PROCS <=? p then EINVAL
   else if has (sp_flags (schedprocs s p)) IN_USE then EDEADEPT
   else OK, p).

Definition accept_message (m : srequest) : bool := (sr_source m =? PM_PROC_NR) || (sr_source m =? RS_PROC_NR).

(** ** schedule.c *)

Definition pick_cpu (n : Z) : SS unit := modify_sp n (λ p, p <| sp_cpu := 0 |>).

Definition schedule_process (n flags : Z) : SS Z :=
  pick_cpu n;;
  rmp ← gets (λ s, schedprocs s n);
  let new_prio := if has flags SCHEDULE_CHANGE_PRIO then i32 (sp_priority rmp) else -1 in
  let new_quantum := if has flags SCHEDULE_CHANGE_QUANTUM then i32 (sp_time_slice rmp) else -1 in
  let new_cpu := if has flags SCHEDULE_CHANGE_CPU then i32 (sp_cpu rmp) else -1 in
  sys_schedule (sp_endpoint rmp) new_prio new_quantum new_cpu.
Definition schedule_process_local (n : Z) : SS Z :=
  schedule_process n (Z.lor SCHEDULE_CHANGE_PRIO SCHEDULE_CHANGE_QUANTUM).

Definition do_noquantum (m : srequest) : SS Z :=
  ok ← gets (λ s, sched_isokendpt s (sr_source m));
  if negb (ok.1 =? OK) then mret EBADEPT
  else
    modify_sp ok.2 (λ p, if sp_priority p <? MIN_USER_Q then p <| sp_priority ::= λ q, q + 1 |> else p);;
    rv ← schedule_process_local ok.2;
    if negb (rv =? OK) then mret rv else mret OK.

Definition do_stop_scheduling (m : srequest) : SS Z :=
  if negb (accept_message m) then mret EPERM
  else
    ok ← gets (λ s, sched_isokendpt s (sr_endpoint m));
    if negb (ok.1 =? OK) then mret EBADEPT
    else modify_sp ok.2 (λ p, p <| sp_flags := 0 |>);; mret OK.

(** [while ((rv = schedule_process(...)) == EBADCPU)]: on one CPU there is no other to try. *)
Fixpoint schedule_retry (fuel : nat) (n : Z) : SS Z :=
  rv ← schedule_process n SCHEDULE_CHANGE_ALL;
  if rv =? EBADCPU then
    match fuel with
    | O => panic "do_start_scheduling does not end"
    | S fuel' =>
        c ← gets (λ s, sp_cpu (schedprocs s n));
        modify (λ s, s <| cpu_proc ::= λ t, upd t c (u32 CPU_DEAD) |>);;
        pick_cpu n;;
        schedule_retry fuel' n
    end
  else mret rv.

(** The end of [do_start_scheduling]: SCHED becomes the scheduler and gives a first quantum. *)
Definition start_take_over (n : Z) : SS (Z * option Z) :=
  ep ← gets (λ s, sp_endpoint (schedprocs s n));
  rv ← sys_schedctl 0 ep 0 0 0;
  if negb (rv =? OK) then mret (rv, None)
  else
    modify_sp n (λ p, p <| sp_flags := IN_USE |>);;
    pick_cpu n;;
    rv ← schedule_retry 1 n;
    if negb (rv =? OK) then mret (rv, None) else mret (OK, Some SCHED_PROC_NR).

(** The priority and the time slice of the slot: given or inherited. *)
Definition start_values (m : srequest) (n : Z) : SS Z :=
  if sr_type m =? SCHEDULING_START then
    modify_sp n (λ p, p <| sp_priority := sp_max_priority p |> <| sp_time_slice := u32 (sr_quantum m) |>);;
    mret OK
  else
    pok ← gets (λ s, sched_isokendpt s (sr_parent m));
    if negb (pok.1 =? OK) then mret pok.1
    else
      parent ← gets (λ s, schedprocs s pok.2);
      modify_sp n (λ p, p <| sp_priority := sp_priority parent |> <| sp_time_slice := sp_time_slice parent |>);;
      mret OK.

(** The result, and the scheduler that the reply names. *)
Definition do_start_scheduling (m : srequest) : SS (Z * option Z) :=
  assert_ (λ _, (sr_type m =? SCHEDULING_START) || (sr_type m =? SCHEDULING_INHERIT)) "m_type";;
  if negb (accept_message m) then mret (EPERM, None)
  else
    e ← gets (λ s, sched_isemtyendpt s (sr_endpoint m));
    if negb (e.1 =? OK) then mret (e.1, None)
    else
      let n := e.2 in
      modify_sp n (λ p, p <| sp_endpoint := sr_endpoint m |> <| sp_parent := sr_parent m |>
                          <| sp_max_priority := u32 (sr_maxprio m) |>);;
      if NR_SCHED_QUEUES <=? u32 (sr_maxprio m) then mret (EINVAL, None)
      else
        (if sr_endpoint m =? sr_parent m
         then modify_sp n (λ p, p <| sp_priority := USER_Q |> <| sp_time_slice := DEFAULT_USER_TIME_SLICE |>)
         else mret ());;
        rv ← start_values m n;
        if negb (rv =? OK) then mret (rv, None) else start_take_over n.

Definition do_nice (m : srequest) : SS Z :=
  if negb (accept_message m) then mret EPERM
  else
    ok ← gets (λ s, sched_isokendpt s (sr_endpoint m));
    if negb (ok.1 =? OK) then mret EBADEPT
    else
      let new_q := u32 (sr_maxprio m) in
      if NR_SCHED_QUEUES <=? new_q then mret EINVAL
      else
        old ← gets (λ s, schedprocs s ok.2);
        modify_sp ok.2 (λ p, p <| sp_priority := new_q |> <| sp_max_priority := new_q |>);;
        rv ← schedule_process_local ok.2;
        (if negb (rv =? OK)
         then modify_sp ok.2 (λ p, p <| sp_priority := sp_priority old |> <| sp_max_priority := sp_max_priority old |>)
         else mret ());;
        mret rv.

Definition set_balance_timer : SS unit :=
  modify (λ s, s <| sched_timer := Some (uptime (skern s) + balance_timeout s) |>).

Definition init_scheduling (hz : Z) : SS unit :=
  modify (λ s, s <| balance_timeout := BALANCE_TIMEOUT * hz |>);;
  set_balance_timer.

(** One slot of [balance_queues]. *)
Definition balance_slot (n : Z) : SS unit :=
  rmp ← gets (λ s, schedprocs s n);
  if has (sp_flags rmp) IN_USE && (sp_max_priority rmp <? sp_priority rmp) then
    modify_sp n (λ p, p <| sp_priority ::= λ q, q - 1 |>);;
    schedule_process_local n;;
    mret ()
  else mret ().
Definition balance_queues : SS unit :=
  forM_ (seqZ 0 NR_PROCS) balance_slot;;
  set_balance_timer.

(** ** main.c: one round of the main loop, with the reply *)

Definition expire_timers (now : Z) : SS unit :=
  t ← gets sched_timer;
  match t with
  | Some e => if e <=? now then modify (λ s, s <| sched_timer := None |>);; balance_queues else mret ()
  | None => mret ()
  end.

Definition sched_main (m : srequest) (is_notify from_kernel : bool) (timestamp : Z) : SS (option Z) :=
  if is_notify then
    if sr_source m =? CLOCK then expire_timers timestamp;; mret None else mret (Some ENOSYS)
  else if (sr_type m =? SCHEDULING_INHERIT) || (sr_type m =? SCHEDULING_START) then
    r ← do_start_scheduling m; mret (Some r.1)
  else if sr_type m =? SCHEDULING_STOP then r ← do_stop_scheduling m; mret (Some r)
  else if sr_type m =? SCHEDULING_SET_NICE then r ← do_nice m; mret (Some r)
  else if sr_type m =? SCHEDULING_NO_QUANTUM then
    if from_kernel then do_noquantum m;; mret None else mret (Some EPERM)
  else mret (Some no_sys).
