(* ===== verification/SchedSrvThm.v ===== *)
(** * SCHED and the kernel agree on priorities

    What the kernel promises when SCHED schedules a process, the invariant of the two tables,
    that every message keeps it, and that a process that used up its quantum gets its
    priority back. *)
From S2P Require Import Prelude LinkedList Kernel Endpoint Sched Signals VmServer SchedSrv.

(** ** The kernel's side *)

(** What a call for process [p] does not change. *)
Record sched_keeps (p : Z) (k k' : kstate) : Prop := {
  sk_scheduler n : p_scheduler (proctab k' n) = p_scheduler (proctab k n);
  sk_endpoint n : p_endpoint (proctab k' n) = p_endpoint (proctab k n);
  sk_priority n : n ≠ p → p_priority (proctab k' n) = p_priority (proctab k n);
  sk_free n : has (rts k' n) RTS_SLOT_FREE = has (rts k n) RTS_SLOT_FREE;
  sk_rts n : n ≠ p → n ≠ proc_ptr k → rts k' n = rts k n;
  sk_ptr : proc_ptr k' = proc_ptr k;
  sk_uptime : uptime k' = uptime k;
}.
#[export] Instance sched_keeps_preorder p : PreOrder (sched_keeps p).
Proof.
  split; [by split|]. intros k1 k2 k3 [A1 A2 A3 A4 A5 A6 A7] [B1 B2 B3 B4 B5 B6 B7].
  split; intros; [by rewrite B1|by rewrite B2|by rewrite B3, A3|by rewrite B4| |by rewrite B6|by rewrite B7].
  rewrite B5, A5; congruence.
Qed.

Lemma sched_frame_keeps p k k' :
  sched_frame k k' → (∀ n, has (rts k' n) RTS_SLOT_FREE = has (rts k n) RTS_SLOT_FREE) →
  (∀ n, n ≠ p → n ≠ proc_ptr k → rts k' n = rts k n) → sched_keeps p k k'.
Proof.
  intros Hf Hr Ho. split; intros; auto; try done.
  - by apply (sched_frame_field p_scheduler).
  - by apply (sched_frame_field p_endpoint).
  - by apply (sched_frame_field p_priority).
  - by apply (sched_frame_state proc_ptr).
  - by apply (sched_frame_state uptime).
Qed.

Lemma sched_set_keeps k p priority quantum :
  wp (sched_set p priority quantum) (λ _ k', sched_keeps p k k') k.
Proof.
  assert (∀ k f, (∀ q, p_scheduler (f q) = p_scheduler q) → (∀ q, p_endpoint (f q) = p_endpoint q) →
    (∀ q, p_rts_flags (f q) = p_rts_flags q) → sched_keeps p k (upd_proc p f k)) as Hupd.
  { intros k1 f H1 H2 H3. split; intros; unfold rts; try done; rewrite ?proctab_upd_proc; case_decide as E;
      try done; subst; by rewrite ?H1, ?H2, ?H3. }
  unfold sched_set, modify_proc. apply wp_bind.
  eapply (wp_mono _ (λ _ k', sched_keeps p k k')).
  { destruct (priority =? -1); [by apply wp_ret|]. apply wp_modify. by apply Hupd. }
  intros [] k1 H1. destruct (quantum =? -1); [by apply wp_ret|]. apply wp_bind, wp_gets, wp_modify.
  etrans; [exact H1|]. by apply Hupd.
Qed.


(** [sched_proc] with a priority and a quantum in range. *)
Lemma sched_proc_contract k Q p priority quantum :
  sched_rel k Q → valid_slot p → in_range (p_priority (proctab k p)) → in_range priority → 1 ≤ quantum →
  wp (sched_proc p priority quantum) (λ r k', r = OK ∧ (∃ Q', sched_rel k' Q') ∧
    p_priority (proctab k' p) = priority ∧ sched_keeps p k k') k.
Proof.
  intros HQ Hv Hq Hprio Hquant.
  assert (wp (sched_proc p priority quantum) (λ _ k', sched_keeps p k k') k) as Hkeep.
  { unfold sched_proc. case_bool; [by apply wp_ret|]. case_bool; [by apply wp_ret|].
    apply wp_bind. eapply wp_mono; [by apply sched_proc_stop|]. intros [] k1 (HS1 & Hf1 & Hr1 & Hother & Hcl).
    assert (sched_keeps p k k1) as Hk1.
    { apply sched_frame_keeps; [done| |auto]. intros n. destruct (decide (n = p)) as [->|Hn]; [|by rewrite Hother].
      rewrite <-(has_clear_other (rts k1 p) RTS_NO_QUANTUM), Hcl by done. by apply has_clear_other. }
    apply wp_bind. eapply wp_mono; [apply (wp_and _ _ _ _ (sched_set_spec _ _ _ priority quantum HS1 Hr1) (sched_set_keeps k1 p priority quantum))|].
    intros [] k2 [(HS2 & Hr2 & Hpp & Hp2 & _) Hk2]. apply wp_bind.
    eapply wp_mono; [apply (RTS_UNSET_spec k2 _ p RTS_NO_QUANTUM HS2 Hv)|].
    { rewrite Hp2. destruct (Z.eqb_spec priority (-1)); [|done]. by rewrite (priority_frame _ _ p Hf1). }
    intros [] k3 (HS3 & Hf3 & Hr3). apply wp_ret. etrans; [exact Hk1|]. etrans; [exact Hk2|].
    apply sched_frame_keeps; [done|intros n; rewrite Hr3; unfold rts_unset, rts_after_unset..].
    - destruct (decide (n = p)) as [->|?]; destruct (_ && _ && _); rewrite ?has_set_other by done; try done; by apply has_clear_other.
    - intros Hn Hp. rewrite (decide_False) by done. destruct (_ && _ && _) eqn:E; [|done].
      apply andb_prop in E as [_ E%bool_decide_eq_true]. congruence. }
  pose proof (sched_proc_ok k Q p priority quantum HQ Hv Hq (or_intror Hprio) (or_intror Hquant)) as Hok.
  eapply wp_mono; [apply (wp_and _ _ _ _ Hok Hkeep)|].
  intros r k' [(-> & HQ' & Hp' & _) Hk]. split; [done|]. split; [done|]. split; [|done].
  rewrite Hp'. destruct Hprio. by rewrite (proj2 (Z.eqb_neq _ _)) by lia.
Qed.

(** ** The invariant of the two tables *)

(** The kernel: queues that hold the runnable processes, priorities in range, free slots with
    no other flag, and a process that runs. *)
Record kern_ok (k : kstate) : Prop := {
  ko_queues : ∃ Q, sched_rel k Q;
  ko_range n : valid_slot n → in_range (p_priority (proctab k n));
  ko_free n : has (rts k n) RTS_SLOT_FREE = true → rts k n = RTS_SLOT_FREE;
  ko_ptr : has (rts k (proc_ptr k)) RTS_SLOT_FREE = false;
}.

(** A slot of SCHED that is in use: it describes the process of the kernel in the slot of the
    same number, which SCHED schedules, with values that the kernel accepts. *)
Record sp_ok (k : kstate) (n : Z) (p : schedproc) : Prop := {
  so_slot : ENDPOINT_P (sp_endpoint p) = n;
  so_endpoint : p_endpoint (proctab k n) = sp_endpoint p;
  so_live : has (rts k n) RTS_SLOT_FREE = false;
  so_scheduler : p_scheduler (proctab k n) = Some SCHED_PROC_NR;
  so_priority : in_range (sp_priority p);
  so_max : in_range (sp_max_priority p);
  so_slice : 1 ≤ sp_time_slice p ≤ INT_MAX;
}.

Definition sched_slot (n : Z) : Prop := 0 ≤ n < NR_PROCS.
Definition sp_used (s : sstate) (n : Z) : Prop := has (sp_flags (schedprocs s n)) IN_USE = true.

(** The invariant but for the priority of process [x], which SCHED is about to tell. *)
Record sched_inv_but (x : Z) (s : sstate) : Prop := {
  si_kern : kern_ok (skern s);
  si_slot n : sched_slot n → sp_used s n → sp_ok (skern s) n (schedprocs s n);
  si_agree n : sched_slot n → sp_used s n → n ≠ x → p_priority (proctab (skern s) n) = sp_priority (schedprocs s n);
}.

(** SCHED and the kernel agree on every process that SCHED schedules. *)
Definition sched_inv (s : sstate) : Prop := sched_inv_but (-1) s.

Lemma sched_inv_weaken s x : sched_inv s → sched_inv_but x s.
Proof. intros [A B C]. split; [done|done|]. intros n Hn Hu _. apply C; [done|done|]. destruct Hn. lia. Qed.
Lemma sched_inv_intro s x :
  sched_inv_but x s → (sched_slot x → sp_used s x → p_priority (proctab (skern s) x) = sp_priority (schedprocs s x)) → sched_inv s.
Proof. intros [A B C] Hx. split; [done|done|]. intros n Hn Hu _. destruct (decide (n = x)) as [->|]; auto. Qed.

Lemma sched_inv_ext s s' : schedprocs s' = schedprocs s → skern s' = skern s → sched_inv s → sched_inv s'.
Proof. intros E1 E2 [A B C]. split; unfold sp_used; by rewrite ?E1, ?E2. Qed.

(** Time passes. *)
Lemma sched_inv_uptime s u : sched_inv s → sched_inv (s <| skern ::= λ k, k <| uptime := u |> |>).
Proof.
  intros [[[Q HQ] K2 K3 K4] B C]. split; [|intros n Hn Hu; by destruct (B n Hn Hu)|done].
  split; try done. exists Q. by apply (sched_rel_same (skern s)).
Qed.

Lemma kern_ok_keeps p k k' :
  kern_ok k → sched_keeps p k k' → has (rts k p) RTS_SLOT_FREE = false → (∃ Q, sched_rel k' Q) →
  in_range (p_priority (proctab k' p)) → kern_ok k'.
Proof.
  intros [A B C D] [K1 K2 K3 K4 K5 K6 K7] Hp HQ Hr. split; [done| | |].
  - intros n Hn. destruct (decide (n = p)) as [->|]; [done|]. rewrite K3 by done. auto.
  - intros n Hn. rewrite K4 in Hn. rewrite K5; [auto|congruence..].
  - by rewrite K6, K4.
Qed.

Lemma sp_ok_keeps p k k' n q : sched_keeps p k k' → sp_ok k n q → sp_ok k' n q.
Proof. intros [K1 K2 K3 K4 K5 K6 K7] [A B C D E F G]. split; try done; by rewrite ?K1, ?K2, ?K4. Qed.

Lemma wp_skcall {A} (m : K A) (Q : A → sstate → Prop) s :
  wp m (λ a k, Q a (s <| skern := k |>)) (skern s) → wp (skcall m) Q s.
Proof. unfold wp, skcall. by destruct (m (skern s)) as [[a k]|]. Qed.

Lemma sp_ok_endpoint k n q : sched_slot n → sp_ok k n q → isokendpt k (sp_endpoint q) = Some n.
Proof.
  intros Hn [A B C D E F G]. apply isokendpt_Some. destruct Hn.
  split; [split; [unfold NR_TASKS; lia|lia]|split; [|by split]].
  unfold isemptyp. fold (rts k n). apply Z.eqb_neq. intros Hf. by rewrite Hf in C.
Qed.

Lemma i16_small x : in_range x → i16 (i32 x) = x.
Proof.
  intros [Hx Hy]. unfold NR_SCHED_QUEUES in Hy.
  assert (x ∈ seqZ 0 16) as Hin by (apply elem_of_seqZ; lia).
  revert Hin. clear. intros Hin. cbv in Hin. set_unfold. naive_solver.
Qed.
Lemma i32_small x : 1 ≤ x ≤ INT_MAX → i32 x = x.
Proof. unfold INT_MAX. intros Hx. apply i32_id. lia. Qed.

(** The kernel takes the values of a slot in order. *)
Lemma sys_schedule_spec s n cpu :
  sched_slot n → kern_ok (skern s) → sp_ok (skern s) n (schedprocs s n) →
  let q := schedprocs s n in
  wp (sys_schedule (sp_endpoint q) (i32 (sp_priority q)) (i32 (sp_time_slice q)) cpu) (λ r s', r = OK ∧
    ∃ k', s' = s <| skern := k' |> ∧ kern_ok k' ∧ p_priority (proctab k' n) = sp_priority q ∧ sched_keeps n (skern s) k') s.
Proof.
  intros Hn HK Hq q. unfold sys_schedule. apply wp_bind, wp_skcall. unfold do_schedule. apply wp_bind, wp_gets.
  set (m := mk_message _ _ _). change (Signals.SCHEDULING_ENDPOINT m) with (sp_endpoint q).
  change (SCHEDULING_PRIORITY m) with (i16 (i32 (sp_priority q))). change (SCHEDULING_QUANTUM m) with (i32 (sp_time_slice q)).
  rewrite (sp_ok_endpoint _ n) by done. apply wp_bind, wp_gets.
  rewrite bool_decide_eq_true_2 by apply Hq. cbv [negb]. apply wp_bind. destruct (ko_queues _ HK) as [Q HQ].
  assert (valid_slot n) as Hv by (destruct Hn; split; [unfold NR_TASKS; lia|lia]).
  rewrite i16_small, i32_small by apply Hq.
  eapply wp_mono; [apply (sched_proc_contract (skern s) Q); [done|done|by apply HK|apply Hq|apply Hq]|].
  intros r k' (-> & HQ' & Hp & Hk). apply wp_ret, wp_ret. split; [done|]. exists k'. split_and!; [done| |done|done].
  eapply kern_ok_keeps; [done|done|apply Hq|done|]. rewrite Hp. apply Hq.
Qed.

(** What telling the kernel about slot [n], which then holds [q], changes. *)
Record told (n : Z) (q : schedproc) (s s' : sstate) : Prop := {
  td_slot m : schedprocs s' m = upd (schedprocs s) n q m;
  td_kern : sched_keeps n (skern s) (skern s');
  td_timer : sched_timer s' = sched_timer s;
  td_timeout : balance_timeout s' = balance_timeout s;
}.

(** [schedule_process] ends the exception for the slot: the kernel has its priority. *)
Lemma schedule_process_spec s n flags :
  sched_slot n → sched_inv_but n s → sp_used s n →
  has flags SCHEDULE_CHANGE_PRIO = true → has flags SCHEDULE_CHANGE_QUANTUM = true →
  wp (schedule_process n flags) (λ r s', r = OK ∧ sched_inv s' ∧
    told n (schedprocs s n <| sp_cpu := 0 |>) s s') s.
Proof.
  intros Hn [HK Hslot Hagree] Hu Hp Hq. unfold schedule_process, pick_cpu, modify_sp. wp_steps. rewrite Hp, Hq.
  set (s1 := s <| schedprocs ::= _ |>).
  assert (∀ m, sp_flags (schedprocs s1 m) = sp_flags (schedprocs s m) ∧
               sp_priority (schedprocs s1 m) = sp_priority (schedprocs s m)) as Hsame.
  { intros m. subst s1. cbn. unfold upd. by destruct (decide (m = n)) as [->|]. }
  assert (∀ m, sched_slot m → sp_used s m → sp_ok (skern s) m (schedprocs s1 m)) as Hslot1.
  { intros m Hm Hum. specialize (Hslot m Hm Hum). subst s1. cbn. unfold upd.
    destruct (decide (m = n)) as [->|]; [|done]. by destruct Hslot. }
  eapply wp_mono; [apply (sys_schedule_spec s1 n); [done|done|by apply Hslot1]|].
  intros r s' (-> & k' & -> & HK' & Hpr & Hk). split; [done|]. split; [|by split].
  split; [done|intros m Hm Hum; cbn [skern schedprocs set] in *..].
  - eapply sp_ok_keeps; [exact Hk|]. apply Hslot1; [done|]. unfold sp_used in *. by rewrite <-(proj1 (Hsame m)).
  - intros _. destruct (decide (m = n)) as [->|Hne]; [done|]. rewrite (sk_priority _ _ _ Hk m Hne).
    rewrite (proj2 (Hsame m)). apply Hagree; [done| |done]. unfold sp_used in *. by rewrite <-(proj1 (Hsame m)).
Qed.

Lemma sched_isokendpt_spec s e :
  sched_isokendpt s e = (OK, ENDPOINT_P e) →
  sched_slot (ENDPOINT_P e) ∧ sp_used s (ENDPOINT_P e) ∧ sp_endpoint (schedprocs s (ENDPOINT_P e)) = e.
Proof.
  unfold sched_isokendpt. intros H. injection H as H. revert H. case_bool; [done|]. case_bool; [done|].
  case_bool; [done|]. case_bool; [done|]. intros _. unfold sched_slot, sp_used.
  apply Z.ltb_ge in Heqb. apply Z.leb_gt in Heqb0. apply negb_false_iff, Z.eqb_eq in Heqb1. apply negb_false_iff in Heqb2.
  done.
Qed.
Lemma sched_isemtyendpt_spec s e :
  sched_isemtyendpt s e = (OK, ENDPOINT_P e) → sched_slot (ENDPOINT_P e) ∧ ¬ sp_used s (ENDPOINT_P e).
Proof.
  unfold sched_isemtyendpt. intros H. injection H as H. revert H. case_bool; [done|]. case_bool; [done|].
  case_bool; [done|]. intros _. unfold sched_slot, sp_used.
  apply Z.ltb_ge in Heqb. apply Z.leb_gt in Heqb0. by rewrite Heqb1.
Qed.

(** SCHED may set a slot in use to other values in range, if it tells the kernel next. *)
Lemma sched_inv_retune s n (f : schedproc → schedproc) :
  sched_inv s → sp_used s n → sched_slot n →
  let q := f (schedprocs s n) in
  sp_endpoint q = sp_endpoint (schedprocs s n) → sp_flags q = sp_flags (schedprocs s n) →
  in_range (sp_priority q) → in_range (sp_max_priority q) → 1 ≤ sp_time_slice q ≤ INT_MAX →
  let s' := s <| schedprocs ::= λ t, upd t n (f (t n)) |> in
  sched_inv_but n s' ∧ sp_used s' n.
Proof.
  intros [HK Hslot Hagree] Hu Hn q He Hf Hp Hm Hsl s'.
  assert (schedprocs s' n = q) as E by (unfold s'; cbn; unfold upd; by rewrite decide_True).
  split; [|unfold sp_used; by rewrite E, Hf].
  split; [done|intros m Hm'; subst s'; unfold sp_used; cbn; unfold upd;
    destruct (decide (m = n)) as [->|Hne]; intros Hum..].
  - destruct (Hslot n Hn Hu) as [A B C D _ _ _]. fold q. split; rewrite ?He; done.
  - by apply Hslot.
  - done.
  - intros _. apply Hagree; [done|done|]. destruct Hm'. lia.
Qed.

(** Telling the kernel about slot [n] after such a change. *)
Lemma retune_schedule s n f :
  sched_inv s → sp_used s n → sched_slot n →
  let q := f (schedprocs s n) in
  sp_endpoint q = sp_endpoint (schedprocs s n) → sp_flags q = sp_flags (schedprocs s n) →
  in_range (sp_priority q) → in_range (sp_max_priority q) → 1 ≤ sp_time_slice q ≤ INT_MAX →
  wp (modify_sp n f;; schedule_process_local n) (λ r s', r = OK ∧ sched_inv s' ∧
    told n (q <| sp_cpu := 0 |>) s s') s.
Proof.
  intros HI Hu Hn q He Hf Hp Hm Hsl. apply wp_bind. unfold modify_sp. apply wp_modify.
  destruct (sched_inv_retune s n f HI Hu Hn He Hf Hp Hm Hsl) as [HI' Hu']. unfold schedule_process_local.
  pose proof (schedule_process_spec _ n (Z.lor SCHEDULE_CHANGE_PRIO SCHEDULE_CHANGE_QUANTUM) Hn HI' Hu' eq_refl eq_refl) as Hs.
  eapply wp_mono; [exact Hs|]. intros r s' (-> & HI2 & [Ht Hk Hm1 Hb]).
  split; [done|]. split; [done|]. cbn in *. split; try done. intros m. rewrite Ht. unfold upd.
  destruct (decide (m = n)); [|done]. by rewrite decide_True.
Qed.

(** ** The handlers *)

Lemma sched_ok_inv s e : negb ((sched_isokendpt s e).1 =? OK) = false → sched_isokendpt s e = (OK, ENDPOINT_P e).
Proof. intros E%negb_false_iff%Z.eqb_eq. rewrite <-E. apply surjective_pairing. Qed.

Lemma in_range_succ q : in_range q → in_range (if q <? MIN_USER_Q then q + 1 else q).
Proof. unfold in_range, MIN_USER_Q, NR_SCHED_QUEUES. case_bool; [apply Z.ltb_lt in Heqb|]; lia. Qed.

Lemma do_noquantum_inv s m : sched_inv s → wp (do_noquantum m) (λ _ s', sched_inv s') s.
Proof.
  intros HI. unfold do_noquantum. apply wp_bind, wp_gets. destruct (negb _) eqn:E; [by apply wp_ret|].
  apply sched_ok_inv in E. destruct (sched_isokendpt_spec s _ E) as (Hn & Hu & He). rewrite E. cbn [fst snd].
  destruct (si_slot _ _ HI _ Hn Hu) as [A B C D Hp Hm Hsl].
  set (n := ENDPOINT_P (sr_source m)) in *. set (f := λ p : schedproc, _).
  assert (wp (modify_sp n f;; schedule_process_local n) (λ r s', r = OK ∧ sched_inv s' ∧
    told n (f (schedprocs s n) <| sp_cpu := 0 |>) s s') s) as Hs.
  { apply retune_schedule; try done; unfold f.
    - by case_bool.
    - by case_bool.
    - pose proof (in_range_succ _ Hp). by case_bool.
    - by case_bool.
    - by case_bool. }
  apply wp_bind_inv in Hs. apply wp_bind. eapply wp_mono; [exact Hs|]. intros [] s1 Hs1. apply wp_bind.
  eapply wp_mono; [exact Hs1|]. intros r s2 (-> & HI2 & _). apply wp_ret. exact HI2.
Qed.

Lemma sched_inv_drop s n :
  sched_inv s → sched_inv (s <| schedprocs ::= λ t, upd t n (t n <| sp_flags := 0 |>) |>).
Proof.
  intros [HK Hslot Hagree]. split; [done|intros m Hm; unfold sp_used; cbn; unfold upd;
    destruct (decide (m = n)) as [->|]; [intros Hu; by vm_compute in Hu|]..].
  - by apply Hslot.
  - by apply Hagree.
Qed.
Lemma do_stop_scheduling_inv s m : sched_inv s → wp (do_stop_scheduling m) (λ _ s', sched_inv s') s.
Proof.
  intros HI. unfold do_stop_scheduling. case_bool; [by apply wp_ret|]. apply wp_bind, wp_gets.
  case_bool; [by apply wp_ret|]. unfold modify_sp. apply wp_bind, wp_modify, wp_ret. by apply sched_inv_drop.
Qed.

Lemma do_nice_inv s m : sched_inv s → wp (do_nice m) (λ _ s', sched_inv s') s.
Proof.
  intros HI. unfold do_nice. case_bool; [by apply wp_ret|]. apply wp_bind, wp_gets.
  destruct (negb ((sched_isokendpt _ _).1 =? OK)) eqn:E; [by apply wp_ret|].
  apply sched_ok_inv in E. destruct (sched_isokendpt_spec s _ E) as (Hn & Hu & He). rewrite E. cbn [fst snd].
  destruct (si_slot _ _ HI _ Hn Hu) as [A B C D Hp Hm Hsl].
  set (n := ENDPOINT_P (sr_endpoint m)) in *. case_bool; [by apply wp_ret|]. apply wp_bind, wp_gets.
  set (f := λ p : schedproc, p <| sp_priority := u32 (sr_maxprio m) |> <| sp_max_priority := u32 (sr_maxprio m) |>).
  assert (in_range (u32 (sr_maxprio m))) as Hr.
  { apply Z.leb_gt in Heqb0. split; [|done]. apply Z.mod_pos_bound. lia. }
  pose proof (retune_schedule s n f HI Hu Hn eq_refl eq_refl Hr Hr Hsl) as Hs.
  apply wp_bind_inv in Hs. apply wp_bind. eapply wp_mono; [exact Hs|]. intros [] s1 Hs1. apply wp_bind.
  eapply wp_mono; [exact Hs1|]. intros r s2 (-> & HI2 & _). apply wp_bind, wp_ret, wp_ret. exact HI2.
Qed.

(** A slot that is not in use may hold anything. *)
Lemma sched_inv_unused s n f :
  sched_inv s → ¬ sp_used s n → sp_flags (f (schedprocs s n)) = sp_flags (schedprocs s n) →
  sched_inv (s <| schedprocs ::= λ t, upd t n (f (t n)) |>) ∧ ¬ sp_used (s <| schedprocs ::= λ t, upd t n (f (t n)) |>) n.
Proof.
  intros [HK Hslot Hagree] Hu Hf. split.
  - split; [done|intros m Hm; unfold sp_used; cbn; unfold upd;
      destruct (decide (m = n)) as [->|]; [rewrite Hf; intros Hx; by destruct Hu|]..].
    + by apply Hslot.
    + by apply Hagree.
  - unfold sp_used. cbn. unfold upd. rewrite decide_True by done. by rewrite Hf.
Qed.

(** The kernel makes SCHED the scheduler. *)
Lemma sys_schedctl_spec s e :
  kern_ok (skern s) →
  wp (sys_schedctl 0 e 0 0 0) (λ r s',
    (r = EINVAL ∧ s' = s) ∨
    (r = OK ∧ ∃ n, valid_slot n ∧ ENDPOINT_P e = n ∧ p_endpoint (proctab (skern s) n) = e ∧
       has (rts (skern s) n) RTS_SLOT_FREE = false ∧
       s' = s <| skern ::= upd_proc n (λ q, q <| p_scheduler := Some SCHED_PROC_NR |>) |>)) s.
Proof.
  intros HK. unfold sys_schedctl. apply wp_bind, wp_skcall. unfold do_schedctl.
  set (m := mk_message _ _ _). change (SCHEDCTL_FLAGS m) with 0. change (SCHEDCTL_ENDPOINT m) with e.
  change (has 0 _) with false. cbv iota. apply wp_bind, wp_gets.
  destruct (isokendpt (skern s) e) as [p|] eqn:E.
  - change (isset 0 SCHEDCTL_FLAG_KERNEL) with false. cbv iota. unfold modify_proc.
    apply wp_bind, wp_modify, wp_ret, wp_ret. right. split; [done|]. exists p.
    apply isokendpt_Some in E as (Hv & He & Hp & Hep). split_and!; try done.
    destruct (has _ _) eqn:Hf; [|done]. apply (ko_free _ HK) in Hf. unfold isemptyp in He. unfold rts in Hf.
    by rewrite Hf in He.
  - apply wp_ret, wp_ret. left. split; [done|]. by destruct s.
Qed.

Lemma kern_ok_scheduler k n : kern_ok k → kern_ok (upd_proc n (λ q, q <| p_scheduler := Some SCHED_PROC_NR |>) k).
Proof.
  intros [[Q HQ] B C D]. set (k1 := upd_proc n _ k).
  assert (sched_same k k1) as Hs by by apply sched_same_upd_proc.
  split.
  - exists Q. by eapply sched_rel_same.
  - intros m Hm. rewrite (priority_same k k1 Hs). auto.
  - intros m. rewrite (rts_same k k1 Hs). auto.
  - by rewrite (ss_ptr _ _ Hs), (rts_same k k1 Hs).
Qed.

(** Slot [n] is filled for process [e] and not yet in use. *)
Record start_ready (n e : Z) (s : sstate) : Prop := {
  st_inv : sched_inv s;
  st_unused : ¬ sp_used s n;
  st_slot : sched_slot n;
  st_endpoint : sp_endpoint (schedprocs s n) = e;
}.
Definition sp_values_ok (q : schedproc) : Prop :=
  in_range (sp_priority q) ∧ in_range (sp_max_priority q) ∧ 1 ≤ sp_time_slice q ≤ INT_MAX.

Lemma start_ready_set n e s f :
  start_ready n e s → (∀ q, sp_flags (f q) = sp_flags q) → (∀ q, sp_endpoint (f q) = sp_endpoint q) →
  wp (modify_sp n f) (λ _ s', start_ready n e s' ∧ schedprocs s' n = f (schedprocs s n)) s.
Proof.
  intros [HI Hu Hn He] Hf Hg. destruct (sched_inv_unused s n f HI Hu (Hf _)) as [HI' Hu'].
  unfold modify_sp. apply wp_modify.
  assert (schedprocs (s <| schedprocs ::= λ t, upd t n (f (t n)) |>) n = f (schedprocs s n)) as E.
  { cbn. unfold upd. by rewrite decide_True. }
  split; [|done]. split; [done..|]. by rewrite E, Hg.
Qed.

(** The kernel has made SCHED the scheduler of the process: the slot can be marked in use. *)
Lemma start_ready_take n e s :
  start_ready n e s → sp_values_ok (schedprocs s n) → ENDPOINT_P e = n →
  p_endpoint (proctab (skern s) n) = e → has (rts (skern s) n) RTS_SLOT_FREE = false →
  let s' := s <| skern ::= upd_proc n (λ q, q <| p_scheduler := Some SCHED_PROC_NR |>) |>
              <| schedprocs ::= λ t, upd t n (t n <| sp_flags := IN_USE |>) |> in
  sched_inv_but n s' ∧ sp_used s' n.
Proof.
  intros [[HK Hslot Hagree] Hu Hn He] (V1 & V2 & V3) Hep Hk Hfr s'.
  assert (schedprocs s' n = schedprocs s n <| sp_flags := IN_USE |>) as E.
  { unfold s'. cbn. unfold upd. by rewrite decide_True. }
  assert (∀ m, m ≠ n → schedprocs s' m = schedprocs s m) as Ho.
  { intros m Hm. unfold s'. cbn. unfold upd. by rewrite decide_False. }
  split; [|unfold sp_used; by rewrite E]. split; [by apply kern_ok_scheduler|intros m Hm Hum..].
  - change (skern s') with (upd_proc n (λ q, q <| p_scheduler := Some SCHED_PROC_NR |>) (skern s)).
    destruct (decide (m = n)) as [->|Hne].
    + rewrite E. split; unfold rts; rewrite ?proctab_upd_proc, ?decide_True by done; cbn; try done; by rewrite He.
    + rewrite Ho by done. unfold sp_used in Hum. rewrite Ho in Hum by done. destruct (Hslot m Hm Hum).
      split; unfold rts; rewrite ?proctab_upd_proc, ?decide_False by done; done.
  - intros Hne. unfold sp_used in Hum. rewrite Ho in Hum |- * by done.
    change (skern s') with (upd_proc n (λ q, q <| p_scheduler := Some SCHED_PROC_NR |>) (skern s)).
    rewrite proctab_upd_proc, decide_False by done. apply Hagree; [done..|]. destruct Hm. lia.
Qed.

Lemma pick_cpu_but s n :
  sched_inv_but n s → sp_used s n → wp (pick_cpu n) (λ _ s', sched_inv_but n s' ∧ sp_used s' n) s.
Proof.
  intros [HK Hslot Hagree] Hu. unfold pick_cpu, modify_sp. apply wp_modify.
  set (s' := s <| schedprocs ::= _ |>).
  assert (∀ m, schedprocs s' m = if decide (m = n) then schedprocs s n <| sp_cpu := 0 |> else schedprocs s m) as E by done.
  split; [|unfold sp_used; by rewrite E, decide_True].
  split; [done|intros m Hm; unfold sp_used; rewrite E; change (skern s') with (skern s);
    destruct (decide (m = n)) as [->|Hne]; intros Hum; auto; try done..].
  destruct (Hslot n Hm Hu). by split.
Qed.

Lemma schedule_retry_spec s n fuel :
  sched_slot n → sched_inv_but n s → sp_used s n → wp (schedule_retry fuel n) (λ r s', r = OK ∧ sched_inv s' ∧ sp_used s' n) s.
Proof.
  intros Hn HI Hu. pose proof (schedule_process_spec s n SCHEDULE_CHANGE_ALL Hn HI Hu eq_refl eq_refl) as Hs.
  destruct fuel; simpl schedule_retry; apply wp_bind; (eapply wp_mono; [exact Hs|]); intros r s' (-> & HI' & Ht);
    change (OK =? EBADCPU) with false; apply wp_ret; (split; [done|split; [done|]]);
    unfold sp_used; rewrite (td_slot _ _ _ _ Ht); unfold upd; by rewrite decide_True.
Qed.

Lemma start_take_over_inv n e s :
  start_ready n e s → sp_values_ok (schedprocs s n) → ENDPOINT_P e = n →
  wp (start_take_over n) (λ r s', sched_inv s' ∧ (r.1 = OK ↔ sp_used s' n)) s.
Proof.
  intros HS Hval He. unfold start_take_over. apply wp_bind, wp_gets, wp_bind.
  eapply wp_mono; [apply sys_schedctl_spec, HS|]. intros r s1 [[-> ->]|(-> & p & Hv & Hp & Hk & Hf & ->)].
  { apply wp_ret. split; [apply HS|]. split; [done|]. intros H. by destruct (st_unused _ _ _ HS). }
  rewrite (st_endpoint _ _ _ HS), He in *. subst p.
  destruct (start_ready_take n e s HS Hval He Hk Hf) as [HB Hu].
  change (negb (OK =? OK)) with false. cbv iota. apply wp_bind. unfold modify_sp. apply wp_modify, wp_bind.
  eapply wp_mono; [by apply pick_cpu_but|]. intros [] s2 [HB2 Hu2]. apply wp_bind.
  eapply wp_mono; [apply schedule_retry_spec; [apply HS|done|done]|].
  intros r s3 (-> & HI3 & Hu3). by apply wp_ret.
Qed.

(** The requests that SCHED gets: a quantum that is a positive [int]. *)
Definition request_ok (m : srequest) : Prop := sr_type m = SCHEDULING_START → 1 ≤ sr_quantum m ≤ INT_MAX.

Lemma start_values_inv n e m s :
  start_ready n e s → in_range (sp_max_priority (schedprocs s n)) → request_ok m →
  wp (start_values m n) (λ r s', start_ready n e s' ∧ (r = OK → sp_values_ok (schedprocs s' n))) s.
Proof.
  intros HS Hm Hreq. unfold start_values.
  destruct (Z.eqb_spec (sr_type m) SCHEDULING_START) as [Hty|Hty].
  - apply wp_bind. eapply wp_mono; [by apply (start_ready_set n e)|]. intros [] s1 [HS1 E]. apply wp_ret.
    split; [done|]. intros _. rewrite E. specialize (Hreq Hty). split_and!; cbn; try apply Hm; unfold INT_MAX, u32 in *; rewrite Z.mod_small by lia; lia.
  - apply wp_bind, wp_gets. destruct (negb _) eqn:Eok.
    { apply wp_ret. split; [done|]. intros Hr. rewrite Hr in Eok. done. }
    apply sched_ok_inv in Eok. destruct (sched_isokendpt_spec s _ Eok) as (Hn & Hu & He). rewrite Eok. cbn [fst snd].
    destruct (si_slot _ _ (st_inv _ _ _ HS) _ Hn Hu) as [A B C D Hp Hpm Hsl].
    apply wp_bind, wp_gets, wp_bind. eapply wp_mono; [by apply (start_ready_set n e)|].
    intros [] s1 [HS1 E]. apply wp_ret. split; [done|]. intros _. rewrite E.
    split; [exact Hp|split; [exact Hm|exact Hsl]].
Qed.

Lemma do_start_scheduling_inv m s :
  sched_inv s → request_ok m → (sr_type m =? SCHEDULING_START) || (sr_type m =? SCHEDULING_INHERIT) = true →
  wp (do_start_scheduling m) (λ r s', sched_inv s') s.
Proof.
  intros HI Hreq Hty. unfold do_start_scheduling. apply wp_bind, wp_assert; [done|].
  destruct (negb (accept_message m)); [by apply wp_ret|]. apply wp_bind, wp_gets.
  destruct (negb ((sched_isemtyendpt _ _).1 =? OK)) eqn:E; [by apply wp_ret|].
  assert (sched_isemtyendpt s (sr_endpoint m) = (OK, ENDPOINT_P (sr_endpoint m))) as Ee.
  { apply negb_false_iff, Z.eqb_eq in E. rewrite <-E. apply surjective_pairing. }
  destruct (sched_isemtyendpt_spec s _ Ee) as [Hn Hu]. rewrite Ee. cbv zeta. cbn [snd].
  set (n := ENDPOINT_P (sr_endpoint m)) in *. apply wp_bind. unfold modify_sp at 1. apply wp_modify.
  set (s1 := s <| schedprocs ::= _ |>).
  assert (start_ready n (sr_endpoint m) s1 ∧ sp_max_priority (schedprocs s1 n) = u32 (sr_maxprio m)) as [HS1 Hm1].
  { split; [|unfold s1; cbn; unfold upd; by rewrite decide_True].
    destruct (sched_inv_unused s n (λ p, p <| sp_endpoint := sr_endpoint m |> <| sp_parent := sr_parent m |>
                          <| sp_max_priority := u32 (sr_maxprio m) |>) HI Hu) as [HI1 Hu1]; [reflexivity|].
    split; [exact HI1|exact Hu1|done|]. unfold s1. cbn. unfold upd. by rewrite decide_True. }
  clearbody s1. destruct (_ <=? _) eqn:Hmax; [apply wp_ret, HS1|].
  assert (in_range (sp_max_priority (schedprocs s1 n))) as Hr.
  { rewrite Hm1. apply Z.leb_gt in Hmax. split; [|done]. apply Z.mod_pos_bound. lia. }
  apply wp_bind. eapply (wp_mono _ (λ _ s2, start_ready n (sr_endpoint m) s2 ∧ in_range (sp_max_priority (schedprocs s2 n)))).
  { destruct (sr_endpoint m =? sr_parent m); [|apply wp_ret; by split]. eapply wp_mono; [by apply (start_ready_set n (sr_endpoint m))|].
    intros [] s2 [HS2 E2]. split; [done|]. by rewrite E2. }
  intros [] s2 [HS2 Hr2]. apply wp_bind. eapply wp_mono; [by apply start_values_inv|].
  intros rv s3 [HS3 Hv3]. destruct (Z.eqb_spec rv OK) as [->|]; [|apply wp_ret, HS3].
  eapply wp_mono; [apply (start_take_over_inv n (sr_endpoint m)); auto|]. by intros r s4 [].
Qed.

(** ** Balancing *)

(** The priority after one round of [balance_queues]. *)
Definition bumped (q : schedproc) : Z :=
  if has (sp_flags q) IN_USE && (sp_max_priority q <? sp_priority q) then sp_priority q - 1 else sp_priority q.

(** The slots that [d] holds of went through a round, the others did not. *)
Record round_on (d : Z → bool) (s s' : sstate) : Prop := {
  ro_inv : sched_inv s';
  ro_flags n : sp_flags (schedprocs s' n) = sp_flags (schedprocs s n);
  ro_max n : sp_max_priority (schedprocs s' n) = sp_max_priority (schedprocs s n);
  ro_priority n : sp_priority (schedprocs s' n) = if d n then bumped (schedprocs s n) else sp_priority (schedprocs s n);
  ro_timeout : balance_timeout s' = balance_timeout s;
  ro_uptime : uptime (skern s') = uptime (skern s);
}.

Lemma round_on_ext d d' s s' : (∀ n, d n = d' n) → round_on d s s' → round_on d' s s'.
Proof. intros Hd [A B C D E F]. split; try done. intros n. by rewrite <-Hd. Qed.

Lemma balance_slot_round s0 s d n :
  sched_slot n → d n = false → round_on d s0 s →
  wp (balance_slot n) (λ _ s', round_on (λ m, (m =? n) || d m) s0 s') s.
Proof.
  intros Hn Hd [HI Hfl Hmx Hpr Hto Hup]. specialize (Hpr n) as Hpn. rewrite Hd in Hpn.
  unfold balance_slot. apply wp_bind, wp_gets. rewrite Hfl, Hmx, Hpn.
  assert (∀ m, (if (m =? n) || d m then bumped (schedprocs s0 m) else sp_priority (schedprocs s0 m)) =
    if m =? n then bumped (schedprocs s0 n) else sp_priority (schedprocs s m)) as E.
  { intros m. rewrite Hpr. by destruct (Z.eqb_spec m n) as [->|]. }
  destruct (_ && _) eqn:Hb.
  - apply andb_prop in Hb as [Hu Hlt].
    assert (sp_used s n) as Hus by (unfold sp_used; by rewrite Hfl).
    destruct (si_slot _ _ HI n Hn Hus) as [A B C D Hp Hm Hsl].
    set (f := λ p : schedproc, p <| sp_priority ::= λ q, q - 1 |>).
    assert (in_range (sp_priority (schedprocs s n) - 1)) as Hr.
    { rewrite Hpn in Hp |- *. rewrite Hmx in Hm. apply Z.ltb_lt in Hlt. destruct Hp, Hm. split; lia. }
    pose proof (retune_schedule s n f HI Hus Hn eq_refl eq_refl Hr Hm Hsl) as Hs. apply wp_bind_inv in Hs.
    apply wp_bind. eapply wp_mono; [exact Hs|]. intros [] s1 Hs1. apply wp_bind. eapply wp_mono; [exact Hs1|].
    intros r s2 (-> & HI2 & [Ht Hk Htm Hb]). apply wp_ret.
    split; [done|intros m..|by rewrite Hb|by rewrite (sk_uptime _ _ _ Hk)]; rewrite Ht; unfold upd.
    + destruct (decide (m = n)) as [->|]; [|done]. by rewrite <-Hfl.
    + destruct (decide (m = n)) as [->|]; [|done]. by rewrite <-Hmx.
    + rewrite E. destruct (decide (m = n)) as [->|]; [|by rewrite (proj2 (Z.eqb_neq _ _))].
      rewrite Z.eqb_refl. unfold bumped. rewrite Hu, Hlt. cbn. by rewrite Hpn.
  - apply wp_ret. split; [done..| |done|done]. intros m. rewrite E.
    destruct (Z.eqb_spec m n) as [->|]; [|done]. unfold bumped. by rewrite Hb, Hpn.
Qed.

Lemma balance_queues_round s :
  sched_inv s → wp balance_queues (λ _ s', round_on (λ n, bool_decide (sched_slot n)) s s' ∧
    sched_timer s' = Some (uptime (skern s') + balance_timeout s')) s.
Proof.
  intros HI. unfold balance_queues. apply wp_bind.
  eapply wp_mono; [apply (wp_forM_ _ _ (λ l s', (∃ j, l = seqZ j (NR_PROCS - j) ∧ 0 ≤ j) ∧
    round_on (λ n, bool_decide (sched_slot n ∧ n ∉ l)) s s'))|].
  - split; [by exists 0|]. split; try done. intros n. case_bool_decide as Hx; [|done].
    destruct Hx as [[? ?] []]. apply elem_of_seqZ. lia.
  - intros x l s1 [(j & Hl & Hj) HR].
    assert (0 < NR_PROCS - j) as Hpos.
    { destruct (decide (0 < NR_PROCS - j)); [done|]. by rewrite seqZ_nil in Hl by lia. }
    rewrite seqZ_cons in Hl by done. injection Hl as -> ->.
    eapply wp_mono; [refine (balance_slot_round s s1 _ j _ _ HR); [split; lia|apply bool_decide_eq_false_2; set_solver]|].
    intros [] s2 HR2. split; [exists (Z.succ j); split; [f_equal; lia|lia]|].
    eapply round_on_ext; [|exact HR2]. intros n. apply eq_bool_prop_intro.
    rewrite orb_True, !bool_decide_spec, Is_true_true, Z.eqb_eq, elem_of_cons, elem_of_seqZ.
    unfold sched_slot. split; [intros [->|?]; [split; lia|]|]; [tauto|].
    intros [H1 H2]. destruct (decide (n = j)); tauto.
  - intros [] s1 [_ HR]. unfold set_balance_timer. apply wp_modify. split; [|done].
    eapply (round_on_ext _ (λ n, bool_decide (sched_slot n))) in HR; [destruct HR as [A B C D E F]; split; [by apply (sched_inv_ext s1)|done..]|].
    intros n. apply bool_decide_ext. set_solver.
Qed.

Lemma expire_timers_round s e now :
  sched_inv s → sched_timer s = Some e → e ≤ now →
  wp (expire_timers now) (λ _ s', round_on (λ n, bool_decide (sched_slot n)) s s' ∧
    sched_timer s' = Some (uptime (skern s') + balance_timeout s')) s.
Proof.
  intros HI Ht Hn. unfold expire_timers. apply wp_bind, wp_gets. rewrite Ht, (proj2 (Z.leb_le _ _)) by done.
  apply wp_bind, wp_modify. eapply wp_mono; [apply balance_queues_round; by apply (sched_inv_ext s)|].
  intros [] s' [[A B C D E F] Hs]. split; [|done]. by split.
Qed.
Lemma expire_timers_inv s now : sched_inv s → wp (expire_timers now) (λ _ s', sched_inv s') s.
Proof.
  intros HI. destruct (sched_timer s) as [e|] eqn:E; [destruct (decide (e ≤ now)) as [Hle|Hle]|].
  - eapply wp_mono; [by apply (expire_timers_round s e)|]. by intros [] s' [[] _].
  - unfold expire_timers. apply wp_bind, wp_gets. rewrite E, (proj2 (Z.leb_gt _ _)) by lia. by apply wp_ret.
  - unfold expire_timers. apply wp_bind, wp_gets. rewrite E. by apply wp_ret.
Qed.

(** C17. SCHED keeps its table typed and in agreement with the kernel's: whatever message
    comes, with a start request naming a positive quantum, one round of the main loop ends
    without an assertion failing, every slot in use still names the live process of the
    kernel in the slot of the same number, with SCHED as its scheduler, priorities below
    [NR_SCHED_QUEUES] and a positive time slice, and the priority that the kernel uses is the
    one SCHED has on record. *)
Theorem sched_main_keeps_tables s m is_notify from_kernel timestamp :
  sched_inv s → request_ok m →
  wp (sched_main m is_notify from_kernel timestamp) (λ _ s', sched_inv s') s.
Proof.
  intros HI Hreq. unfold sched_main.
  destruct is_notify.
  { destruct (_ =? _); [|by apply wp_ret]. apply wp_bind. eapply wp_mono; [by apply expire_timers_inv|].
    intros [] s' HI'. by apply wp_ret. }
  destruct (_ || _) eqn:Hst.
  { apply wp_bind. eapply wp_mono; [apply do_start_scheduling_inv; [done|done|by rewrite orb_comm]|].
    intros r s' HI'. by apply wp_ret. }
  destruct (_ =? SCHEDULING_STOP).
  { apply wp_bind. eapply wp_mono; [by apply do_stop_scheduling_inv|]. intros r s' HI'. by apply wp_ret. }
  destruct (_ =? SCHEDULING_SET_NICE).
  { apply wp_bind. eapply wp_mono; [by apply do_nice_inv|]. intros r s' HI'. by apply wp_ret. }
  destruct (_ =? SCHEDULING_NO_QUANTUM); [|by apply wp_ret].
  destruct from_kernel; [|by apply wp_ret].
  apply wp_bind. eapply wp_mono; [by apply do_noquantum_inv|]. intros r s' HI'. by apply wp_ret.
Qed.

Definition schedproc0 : schedproc := mk_schedproc 0 0 0 0 0 0 0.
Definition ss_demo : sstate :=
  mk_sstate (upd (λ _, schedproc0) 5 (mk_schedproc 5 2 IN_USE 1 3 200 0)) (λ _, 0) (Some 500) 500
    (upd_proc 5 (λ q, q <| p_scheduler := Some SCHED_PROC_NR |>) sched_demo).

Lemma ss_demo_used n : sp_used ss_demo n → n = 5.
Proof. unfold sp_used, ss_demo, upd. cbn [schedprocs]. by destruct (decide (n = 5)). Qed.
Lemma sched_demo_ok : kern_ok sched_demo.
Proof.
  split; [eexists; apply sched_demo_rel|intros n _|intros n|reflexivity].
  - unfold sched_demo. cbn. unfold upd. repeat case_decide; split; vm_compute; congruence.
  - unfold rts, sched_demo. cbn. unfold upd. repeat case_decide; intros Hx; by vm_compute in Hx.
Qed.
Lemma ss_demo_inv : sched_inv ss_demo.
Proof.
  split.
  - apply kern_ok_scheduler, sched_demo_ok.
  - intros n _ ->%ss_demo_used. split; vm_compute; try reflexivity; split; congruence.
  - by intros n _ ->%ss_demo_used.
Qed.

(** A process of the demonstration runs out of quantum: its priority drops in both tables. *)
Lemma sched_main_keeps_tables_witness :
  wp (sched_main (mk_srequest 5 SCHEDULING_NO_QUANTUM 0 0 0 0) false true 0) (λ _ s', sched_inv s') ss_demo.
Proof. apply sched_main_keeps_tables; [exact ss_demo_inv|]. intros H. vm_compute in H. discriminate. Defined.

(** ** Processes get their priority back *)

(** The clock notification of SCHED's alarm, at the time [up]. *)
Definition sched_alarm (up : Z) : SS unit :=
  modify (λ s, s <| skern ::= λ k, k <| uptime := up |> |>);;
  sched_main (mk_srequest CLOCK 0 0 0 0 0) true true up;;
  mret ().

(** Alarms at times [ups], each at or after the time for which the timer is set. *)
Fixpoint alarms_due (e timeout : Z) (ups : list Z) : Prop :=
  match ups with
  | [] => True
  | up :: ups' => e ≤ up ∧ alarms_due (up + timeout) timeout ups'
  end.

Lemma sched_alarm_round s e up :
  sched_inv s → sched_timer s = Some e → e ≤ up →
  wp (sched_alarm up) (λ _ s', round_on (λ n, bool_decide (sched_slot n)) (s <| skern ::= λ k, k <| uptime := up |> |>) s' ∧
    sched_timer s' = Some (up + balance_timeout s)) s.
Proof.
  intros HI Ht He. unfold sched_alarm, sched_main. apply wp_bind, wp_modify, wp_bind. cbn [sr_source].
  change (CLOCK =? CLOCK) with true. cbv iota. apply wp_bind.
  eapply wp_mono; [apply (expire_timers_round _ e); [by apply sched_inv_uptime|done|done]|].
  intros [] s' [HR Hs]. apply wp_ret, wp_ret. split; [done|]. by rewrite Hs, (ro_uptime _ _ _ HR), (ro_timeout _ _ _ HR).
Qed.

(** The priority of a slot after [k] rounds. *)
Definition after_rounds (k : Z) (q : schedproc) : Z :=
  if sp_priority q <=? sp_max_priority q then sp_priority q else Z.max (sp_max_priority q) (sp_priority q - k).

Lemma bumped_after q q' k :
  has (sp_flags q) IN_USE = true → sp_max_priority q' = sp_max_priority q → sp_priority q' = bumped q → 0 ≤ k →
  after_rounds k q' = after_rounds (k + 1) q.
Proof.
  intros Hu Hm Hp Hk. unfold after_rounds. rewrite Hm, Hp. unfold bumped. rewrite Hu. cbn [andb].
  repeat case_bool; repeat match goal with
    | H : (_ <? _) = true |- _ => apply Z.ltb_lt in H | H : (_ <? _) = false |- _ => apply Z.ltb_ge in H
    | H : (_ <=? _) = true |- _ => apply Z.leb_le in H | H : (_ <=? _) = false |- _ => apply Z.leb_gt in H end; lia.
Qed.

Lemma sched_alarms_rounds ups : ∀ s e,
  sched_inv s → sched_timer s = Some e → alarms_due e (balance_timeout s) ups →
  wp (forM_ ups sched_alarm) (λ _ s', sched_inv s' ∧ ∀ n, sched_slot n → sp_used s n →
    sp_used s' n ∧ sp_max_priority (schedprocs s' n) = sp_max_priority (schedprocs s n) ∧
    sp_priority (schedprocs s' n) = after_rounds (Z.of_nat (length ups)) (schedprocs s n)) s.
Proof.
  induction ups as [|up ups IH]; intros s e HI Ht Hd.
  - simpl forM_. apply wp_ret. split; [done|]. intros n Hn Hu. split; [done|]. split; [done|].
    unfold after_rounds. case_bool; [done|]. apply Z.leb_gt in Heqb. cbn [length]. lia.
  - destruct Hd as [He Hd]. cbn [forM_]. apply wp_bind. eapply wp_mono; [by apply (sched_alarm_round s e)|].
    intros [] s1 [[A B C D E F] Ht1]. cbn in B, C, D, E. rewrite <-E in Hd, Ht1.
    eapply wp_mono; [by apply (IH s1 (up + balance_timeout s1))|]. intros [] s2 [HI2 H2]. split; [done|].
    intros n Hn Hu. specialize (D n). rewrite bool_decide_eq_true_2 in D by done.
    destruct (H2 n Hn) as (U & M & P); [unfold sp_used; by rewrite B|]. split; [done|]. split; [by rewrite M|].
    rewrite P. cbn [length]. rewrite Nat2Z.inj_succ. apply bumped_after; [done|done|done|lia].
Qed.

(** C18. No process is left behind: SCHED lowers the priority of a process that uses up its
    quantum, and gives it back.  When SCHED's alarms come in, each at or after the time for
    which the timer is set, every alarm runs the balancing and sets the timer again; after
    [k] alarms a process that had fallen below its maximum is back up by [k] steps, or at
    its maximum, in SCHED's table and in the kernel's, and [NR_SCHED_QUEUES - 1] alarms are
    enough for every process. *)
Theorem balance_restores_priorities s e ups :
  sched_inv s → sched_timer s = Some e → alarms_due e (balance_timeout s) ups →
  wp (forM_ ups sched_alarm) (λ _ s', ∀ n, sched_slot n → sp_used s n →
    p_priority (proctab (skern s') n) = sp_priority (schedprocs s' n) ∧
    sp_priority (schedprocs s' n) = after_rounds (Z.of_nat (length ups)) (schedprocs s n) ∧
    (sp_max_priority (schedprocs s n) ≤ sp_priority (schedprocs s n) → NR_SCHED_QUEUES - 1 ≤ Z.of_nat (length ups) →
     p_priority (proctab (skern s') n) = sp_max_priority (schedprocs s n))) s.
Proof.
  intros HI Ht Hd. eapply wp_mono; [by apply (sched_alarms_rounds ups s e)|].
  intros [] s' [HI' H]. intros n Hn Hu. destruct (H n Hn Hu) as (Hu' & Hm & Hp).
  assert (p_priority (proctab (skern s') n) = sp_priority (schedprocs s' n)) as Ha.
  { apply HI'; [done|done|]. destruct Hn. lia. }
  split; [done|]. split; [done|]. intros Hle Hk. rewrite Ha, Hp. unfold after_rounds.
  destruct (si_slot _ _ HI n Hn Hu) as [_ _ _ _ [R1 R2] [R3 R4] _].
  case_bool; [apply Z.leb_le in Heqb; lia|]. lia.
Qed.
Lemma balance_restores_priorities_witness :
  wp (forM_ [500; 1003] sched_alarm) (λ _ s', p_priority (proctab (skern s') 5) = 1) ss_demo.
Proof.
  eapply wp_mono.
  - apply (balance_restores_priorities ss_demo 500 [500; 1003]); [exact ss_demo_inv|reflexivity|vm_compute; repeat split; congruence].
  - intros [] s' H. destruct (H 5) as (-> & -> & _); [split; [lia|reflexivity]|reflexivity|reflexivity].
Defined.

(** ** A start that fails *)

Lemma sched_proc_bad_quantum k p priority quantum :
  in_range priority → quantum < 1 → quantum ≠ -1 → sched_proc p priority quantum k = Ret (EINVAL, k).
Proof.
  intros [H1 H2] H3 H4. unfold sched_proc, TASK_Q.
  rewrite (proj2 (Z.ltb_ge priority 0)), (proj2 (Z.ltb_ge NR_SCHED_QUEUES priority)) by lia. cbn [andb orb].
  by rewrite (proj2 (Z.ltb_lt quantum 1)), (proj2 (Z.eqb_neq quantum (-1))) by done.
Qed.

Lemma schedule_process_refused s n :
  let q := schedprocs s n in
  isokendpt (skern s) (sp_endpoint q) = Some n → p_scheduler (proctab (skern s) n) = Some SCHED_PROC_NR →
  in_range (sp_priority q) → i32 (sp_time_slice q) < 1 → i32 (sp_time_slice q) ≠ -1 →
  wp (schedule_process n SCHEDULE_CHANGE_ALL) (λ r s', r = EINVAL ∧ skern s' = skern s ∧
    ∀ m, schedprocs s' m = upd (schedprocs s) n (q <| sp_cpu := 0 |>) m) s.
Proof.
  intros q He Hs Hp Hq1 Hq2. unfold schedule_process, pick_cpu, modify_sp. wp_steps.
  change (has SCHEDULE_CHANGE_ALL _) with true. cbv iota. cbn [schedprocs set]. unfold upd at 1 2 3 4.
  rewrite !decide_True by done. cbn [sp_endpoint sp_priority sp_time_slice set].
  unfold sys_schedule. apply wp_bind, wp_skcall. unfold do_schedule. apply wp_bind, wp_gets.
  set (m := mk_message _ _ _). change (Signals.SCHEDULING_ENDPOINT m) with (sp_endpoint q).
  change (SCHEDULING_PRIORITY m) with (i16 (i32 (sp_priority q))). change (SCHEDULING_QUANTUM m) with (i32 (sp_time_slice q)).
  cbn [skern set]. rewrite He. apply wp_bind, wp_gets. rewrite bool_decide_eq_true_2 by done. cbv [negb].
  rewrite i16_small by done. apply wp_bind. eapply wp_intro; [by apply sched_proc_bad_quantum|].
  apply wp_ret, wp_ret. by split.
Qed.

Lemma isokendpt_scheduler k n v e : isokendpt (upd_proc n (λ q, q <| p_scheduler := v |>) k) e = isokendpt k e.
Proof. unfold isokendpt, isemptyp. rewrite !proctab_upd_proc. by destruct (decide _) as [<-|]. Qed.

Lemma start_take_over_refused s n :
  let q := schedprocs s n in
  isokendpt (skern s) (sp_endpoint q) = Some n → in_range (sp_priority q) →
  i32 (sp_time_slice q) < 1 → i32 (sp_time_slice q) ≠ -1 →
  wp (start_take_over n) (λ r s', r = (EINVAL, None) ∧ sp_used s' n) s.
Proof.
  intros q He Hp H1 H2. unfold start_take_over. apply wp_bind, wp_gets, wp_bind. fold q.
  unfold sys_schedctl. apply wp_bind, wp_skcall. unfold do_schedctl.
  set (m := mk_message _ _ _). change (SCHEDCTL_FLAGS m) with 0. change (SCHEDCTL_ENDPOINT m) with (sp_endpoint q).
  change (has 0 _) with false. cbv iota. apply wp_bind, wp_gets. rewrite He.
  change (isset 0 SCHEDCTL_FLAG_KERNEL) with false. cbv iota. unfold modify_proc.
  apply wp_bind, wp_modify, wp_ret, wp_ret. change (negb (OK =? OK)) with false. cbv iota.
  unfold pick_cpu, modify_sp. apply wp_bind, wp_modify, wp_bind, wp_modify.
  set (s1 := _ <| schedprocs ::= _ |>). apply wp_bind.
  assert (schedprocs s1 n = q <| sp_flags := IN_USE |> <| sp_cpu := 0 |>) as E.
  { unfold s1. cbn. unfold upd. by rewrite !decide_True. }
  assert (skern s1 = upd_proc n (λ q, q <| p_scheduler := Some SCHED_PROC_NR |>) (skern s)) as Ek by done.
  clearbody s1. simpl schedule_retry. apply wp_bind.
  eapply wp_mono; [apply schedule_process_refused; rewrite ?E, ?Ek; try done|].
  - by rewrite isokendpt_scheduler.
  - by rewrite proctab_upd_proc, decide_True.
  - intros r s' (-> & _ & Hsp). change (EINVAL =? EBADCPU) with false. apply wp_ret, wp_ret. split; [done|].
    unfold sp_used. rewrite Hsp. unfold upd. by rewrite decide_True, E.
Qed.

Lemma do_start_refused s m n :
  accept_message m = true → sr_type m = SCHEDULING_START → sched_isemtyendpt s (sr_endpoint m) = (OK, n) →
  isokendpt (skern s) (sr_endpoint m) = Some n → 0 ≤ sr_maxprio m < NR_SCHED_QUEUES →
  - 2 ^ 31 ≤ sr_quantum m < 1 → sr_quantum m ≠ -1 →
  wp (do_start_scheduling m) (λ r s1, r = (EINVAL, None) ∧ sp_used s1 n) s.
Proof.
  intros Ha Hty He Hk Hmax Hq1 Hq2.
  assert (u32 (sr_maxprio m) = sr_maxprio m) as Hmx by (unfold u32, NR_SCHED_QUEUES in *; rewrite Z.mod_small; lia).
  assert (i32 (u32 (sr_quantum m)) = sr_quantum m) as Hqx.
  { unfold i32, u32. rewrite Zplus_mod_idemp_l, Z.mod_small; lia. }
  unfold do_start_scheduling. apply wp_bind, wp_assert; [by rewrite Hty|]. rewrite Ha. cbn [negb].
  apply wp_bind, wp_gets. rewrite He. cbn [fst snd]. change (negb (OK =? OK)) with false. cbv iota zeta.
  unfold modify_sp at 1. apply wp_bind, wp_modify. rewrite Hmx, (proj2 (Z.leb_gt _ _)) by lia.
  apply wp_bind. set (s1 := s <| schedprocs ::= _ |>).
  eapply (wp_mono _ (λ _ s2, skern s2 = skern s ∧ sp_endpoint (schedprocs s2 n) = sr_endpoint m ∧
    sp_max_priority (schedprocs s2 n) = sr_maxprio m)).
  { assert (sp_endpoint (schedprocs s1 n) = sr_endpoint m ∧ sp_max_priority (schedprocs s1 n) = sr_maxprio m) as [E1 E2].
    { unfold s1. cbn. unfold upd. by rewrite decide_True. }
    destruct (sr_endpoint m =? sr_parent m); [unfold modify_sp; apply wp_modify|apply wp_ret; by split_and!].
    cbn [schedprocs skern set]. unfold upd. by rewrite decide_True. }
  intros [] s2 (K2 & E2 & M2). unfold start_values. rewrite Hty. rewrite Z.eqb_refl.
  unfold modify_sp. apply wp_bind, wp_bind, wp_modify, wp_ret. change (negb (OK =? OK)) with false. cbv iota.
  set (s3 := s2 <| schedprocs ::= _ |>).
  assert (schedprocs s3 n = schedprocs s2 n <| sp_priority := sp_max_priority (schedprocs s2 n) |>
            <| sp_time_slice := u32 (sr_quantum m) |>) as E3 by (unfold s3; cbn; unfold upd; by rewrite decide_True).
  apply start_take_over_refused; rewrite E3; cbn; rewrite ?E2, ?M2, ?Hqx; try done; [by rewrite K2|lia].
Qed.

(** A start that fails leaves the slot taken: when SCHED is asked to start a live process
    with a quantum that the kernel refuses, the answer is [EINVAL], yet the slot is in use
    already; from then on every request to start a process in this slot is refused with
    [EDEADEPT], also one with good values, until someone stops the scheduling that, by the
    first answer, never began. *)
Theorem failed_start_occupies_slot s m m' n :
  accept_message m = true → sr_type m = SCHEDULING_START → sched_isemtyendpt s (sr_endpoint m) = (OK, n) →
  isokendpt (skern s) (sr_endpoint m) = Some n → 0 ≤ sr_maxprio m < NR_SCHED_QUEUES →
  - 2 ^ 31 ≤ sr_quantum m < 1 → sr_quantum m ≠ -1 →
  accept_message m' = true → (sr_type m' =? SCHEDULING_START) || (sr_type m' =? SCHEDULING_INHERIT) = true →
  ENDPOINT_P (sr_endpoint m') = n →
  wp (r ← do_start_scheduling m; r' ← do_start_scheduling m'; mret (r, r'))
    (λ rr _, rr = ((EINVAL, None), (EDEADEPT, None))) s.
Proof.
  intros Ha Hty He Hk Hmax Hq1 Hq2 Ha' Hty' Hn. apply wp_bind.
  assert (sched_slot n) as Hsl.
  { apply isokendpt_Some in Hk as (_ & _ & _ & Hp). injection He as He _. rewrite Hp in He.
    revert He. case_bool; [done|]. case_bool; [done|]. intros _.
    apply Z.ltb_ge in Heqb. apply Z.leb_gt in Heqb0. by split. }
  eapply wp_mono; [by apply (do_start_refused s m n)|]. intros r s1 [-> Hu]. apply wp_bind. unfold do_start_scheduling. apply wp_bind, wp_assert; [done|].
  rewrite Ha'. cbn [negb]. apply wp_bind, wp_gets. unfold sched_isemtyendpt. rewrite Hn. destruct Hsl.
  rewrite (proj2 (Z.ltb_ge n 0)), (proj2 (Z.leb_gt NR_PROCS n)), Hu by lia. cbn [fst snd]. change (negb (EDEADEPT =? OK)) with true. cbv iota. unfold sp_used in Hu. rewrite Hu. apply wp_ret, wp_ret. reflexivity.
Qed.
Lemma failed_start_occupies_slot_witness :
  wp (r ← do_start_scheduling (mk_srequest PM_PROC_NR SCHEDULING_START 9 2 3 0);
      r' ← do_start_scheduling (mk_srequest PM_PROC_NR SCHEDULING_START 9 2 3 200); mret (r, r'))
    (λ rr _, rr = ((EINVAL, None), (EDEADEPT, None))) ss_demo.
Proof. apply (failed_start_occupies_slot ss_demo _ _ 9); solve [reflexivity | vm_compute; split; congruence | vm_compute; congruence]. Defined.
